(* ===== verification/_CoqProject ===== *)
-Q . S2P
Prelude.v
Machine.v
DList.v
Buddy.v
BuddyInv.v
BuddySpec.v
BuddyThms.v
BuddyInit.v
BuddyTrace.v
BuddyProps.v
PageAlloc.v
Pmm.v
Zoned.v
Vmm.v
Cow.v
KString.v
Spinlock.v
SList.v
Slab.v
SlabInv.v
SlabThms.v
SlabProps.v
SlabFree.v
SlabCache.v
SlabDemo.v
Heap.v
HeapInv.v
HeapThms.v
HeapProps.v
HeapClient.v
Pool.v
PoolInv.v
PoolProps.v
PageCache.v
PageCacheInv.v
PageCacheThms.v
PageCacheProps.v
ObjectSource.v
HeapSlab.v
DemandPaging.v
DemandThms.v
DemandProps.v
DemandDemo.v
Stdio.v
StdioProps.v
StdioFormat.v
Device.v
Vga.v
VgaProps.v
Serial.v
Console.v
Keyboard.v
Pic.v
Interrupts.v
Preempt.v
Entry.v
Debug.v
Main.v
BootPaging.v
Boot.v
