(* ===== verification/Prelude.v ===== *)
(** A verification library for the Prometheus kernel (src/): its memory management, its
    locks and libraries, its drivers and interrupt handling, and the order in which
    [kernel_main] brings them up.

    ** The model

    A C integer of width w is a [Z]; every operation that can wrap is written with its wrap
    ([u8] to [u64], [signed]).  A pointer is an address, NULL is 0, a field is an offset.
    There is one byte memory, shared by all components ([mem], [load], [store]): free-list
    nodes, headers, page tables, objects and the screen all live in it, so that a write of
    one component can, as far as the model knows, hit another; that it does not is what
    the invariants say.  Static variables are records, one per translation unit
    ([Machine.kst] for src/kernel/mm, [Device.dev_st] for the drivers).

    Code is a function of the monad [M]: a run ends in a value and a state ([Done]) or
    stops with a fault: [Diverged], [DivideError], [Deadlock] (a lock that its only thread
    already holds) or [Undefined] (an access the C language gives no meaning).  [K] is the
    monad over the memory components, [D] over the whole machine; [lift] embeds the first
    in the second.  A loop is [while], which makes at most 2^64 rounds, more than the machine
    has addresses, counted in binary so that it can be run; loops over constant ranges are
    structural.  The theorems are stated as [exists s', f args s = Done r s' /\ ...], so they
    include termination and the absence of faults; the calculus behind them ([wp]) is
    total.  [keeps] is its partial companion, for what every run that ends leaves alone.

    A call that can fail says why it failed: where a theorem allows a refusal for want of
    memory, it says that the allocator behind it, asked in the exact state in which the code
    asks it, gives nothing ([faulted], [refused], [inserted], [pool_allocated]), so that code
    which refuses without asking does not meet it.

    Hardware is a class: [Hardware] answers each port read from the accesses made before,
    and every access is recorded in a trace.  What the drivers rely on is stated as a law of
    its own: [LineReady] (the serial line becomes ready), [PicLatch] (an operating interrupt
    controller returns the mask last written), the arrival of timer interrupts in
    [pit_wait_terminates], the calling convention of the compiled handler ([SysV]).  Each has
    an instance under which the theorems are applied.  What the accesses of a driver mean to a
    device is read off the trace by a model of the device: the interrupt controllers
    ([pic_after]), channel 0 of the timer ([pit_after]) and the cursor of the display
    controller ([crtc_after]) fold their registers over the accesses, from any state they were
    found in.

    A loop that halts for ever is a run that ends in [Diverged].  So that theorems can speak of
    the state in which it is entered, the handler and the stubs take the loop as an argument
    ([interrupt_handler_at], [halt]); the code is the instance with [hang].

    Spinlocks have two readings.  Spinlock treats the code with any number of threads on the
    x86-TSO memory (store buffers, locked instructions, fences) and proves mutual exclusion
    and sequential consistency of the code between acquire and release; that justifies
    the second, used everywhere else: a lock word taken and given back by the only running
    thread.

    Interrupts have two readings as well.  A handler is a function run to its end, which is
    what the processor does, all gates being interrupt gates; Entry shows that the stubs make
    it invisible to the code it interrupts.  The code that shares variables with a handler
    is also given as a sequence of accesses (Preempt), between any two of which requests are
    served, and proved correct along every execution.

    ** The files, bottom up

    - Prelude: integers, sums, byte memory, the monads, [wp], loops.  Machine: the state.
    - DList, SList: doubly and singly linked lists in memory, shared by the allocators.
    - src/kernel/mm/buddy.c: Buddy (definitions), BuddyInv (the invariant and its two
      moves), BuddySpec (allocation and merging on lists alone), BuddyThms (the code
      implements that), BuddyInit, BuddyTrace (histories of clients), BuddyProps.
    - PageAlloc: the class [PageAllocator], what a source of pages promises: blocks, their
      disjointness, what an allocation and a release do, and that clients may write their
      own blocks and statics.  Everything above is proved against it; the buddy allocator,
      the frame allocator and, in Boot, an allocator that in addition keeps given bytes
      outside its region are instances.  Zoned has two more, over an invariant that lets every
      zone hold blocks, and a state in which a page was moved to another zone: on this kernel
      the zones of demand paging and of the pools are empty for ever, and their theorems
      are applied there.
    - src/kernel/mm/pmm.c: Pmm; then Zoned; vmm.c: Vmm (four-level tables and the translation they
      define); cow.c: Cow (reference counts in a hash table, faults that copy).
    - src/kernel/lib/string.c: KString.  src/kernel/core/spinlock.c, atomic.h: Spinlock.
    - src/kernel/mm/slab.c: Slab, SlabInv (three lists of slabs, per-CPU array, objects of
      clients), SlabThms, SlabProps, SlabFree, SlabCache (creation, destruction), SlabDemo.
    - src/kernel/mm/heap.c: Heap, HeapInv (the sequence of blocks that tile the heap),
      HeapThms, HeapProps, HeapClient (reallocation and histories).
    - src/kernel/mm/pool.c: Pool, PoolInv, PoolProps.  page_cache.c: PageCache, PageCacheInv,
      PageCacheThms, PageCacheProps.
    - ObjectSource: the class of sources of objects, with the slab caches as its instance.
      Its clients: HeapSlab, the small requests of heap.c (with the heap's own blocks in
      Heap to HeapClient the caches are off, as the kernel leaves them at boot), and
      src/kernel/mm/demand_paging.c: DemandPaging, DemandThms, DemandProps,
      DemandDemo.
    - src/kernel/lib/stdio.c: Stdio, StdioProps (numbers), StdioFormat (the formatter),
      Serial and Console ([kprintf]); Debug (config.h and its [DEBUG_PRINT]).
    - Device: ports and traces (src/kernel/lib/port.c).  src/kernel/drivers: Vga and VgaProps,
      Serial, Keyboard, Pic (pic.c and pit.c).  src/kernel/core: Interrupts
      (interrupts_init.c, interrupts.c, panic.c), Preempt (keyboard.c and pit.c under
      interrupts), Main (main.c), Boot.
    - src/kernel/arch/x86_64: Entry (gdt.asm, idt.asm, interrupts.asm: segments, stubs,
      registers and stack).  src/boot/boot.asm: BootPaging (the first page tables).

    ** What is proved

    - Allocators.  The buddy allocator implements a specification on lists; along every
      history blocks are aligned, disjoint and, with the free lists, partition the region;
      coalescing is complete; rejected releases change nothing.  The same shape of results
      holds for the slab caches, the heap (first fit with complete merging, and its
      histories) and the pools: what is handed out overlaps nothing that is in use, keeps
      its contents, and is given back whole.
    - Address spaces.  Mapping and unmapping change exactly one translation;
      copy-on-write faults leave the page private with the same bytes and every other
      translation and count as it was; demand faults map one zeroed page whenever the zone
      has one and a frame is left for each table; regions never overlap.
    - The page cache is a finite map with eviction of the oldest pair.
    - Locks: mutual exclusion, sequential consistency inside, and progress.
    - Text: numbers read back, the formatter writes exactly its text cut to the buffer,
      comparisons agree with those of lists, overlapping moves are right.
    - Devices: the screen refines a grid with a cursor, which the display controller shows,
      the keyboard a bounded queue; the controllers are moved to the vectors of the gates with
      the masks they had, the timer ticks 1000 times a second, and interrupts are enabled
      last; dispatch acknowledges each request; [kprintf] shows and sends its
      text; a panic shows its message and halts; a debug message changes nothing but the
      console.
    - Interrupts: with the number of its vector on the stack, an interrupt does what its
      request asks for and leaves the interrupted program as it was, registers, flags, stack
      and memory; with the number the macros push, it is reported as exception 1 and halts the
      machine.  The reader of the
      keyboard is linearizable; the wait for the timer never ends early, and ends with the
      next interrupt at the latest.
    - Boot: the tables of boot.asm map one gigabyte, twice, and nothing else, an address that
      is not canonical having no translation; the walk over the tags ends on a list of
      tags, and never ends where [kernel_main] starts it; given a list of tags with a usable map, [memory_boot] takes the image of
      the kernel to a state in which the invariants of all memory components hold at once,
      with [kprintf] as an instance of the console it speaks to.

    Where the code does not do what it means to, the theorem says what it does, and the
    deviation is a lemma of its own: among them [page_cache_init_overruns],
    [demand_fault_never_pages], [slab_create_divides], [demand_register_fails_at_boot],
    [kmalloc_size_wraps], [pool_destroy_guess], [vga_tab_escapes],
    [caps_ignored_with_shift], [serial_hangs], [small_overruns_64], [isr_stub_halts],
    [frame_reversed], [wait_oversleeps], [map_page_corrupts] and [find_mmap_correct].

    ** Conventions and limits

    - Console messages of the memory components, debug messages among them, are left out
      ([debug_print_correct] says why that is sound); so are TLB invalidation and the pause instruction.
    - The local array of [kprintf], string literals, stubs and tables are at addresses that
      are arguments.
    - demand_paging.c reaches physical pages through a window at 0xFFFF800000000000; the
      model takes it as the code does, for a view of the physical memory.
    - The region the buddy allocator manages lies below 2^52, is page aligned and does not
      begin at 0.
    - [page_cache_init] is not part of [memory_boot_correct]: it clears the page behind its
      own, which may be on a free list.
    - Interrupts arrive between the accesses of the code that shares variables with them; the
      other components share none, and are run without.
    - Memory accesses are physical.  The translations of Vmm and BootPaging are theorems about
      the tables, not part of every access; what boot.asm maps and what it does not is stated
      in [setup_paging_correct].

    ** Not modelled

    The boot loader interface, the checks of the processor and the mode switches of src/boot
    and entry.asm run before the machine of the model exists; the tests (src/kernel/tests,
    src/tests) are an argument of [kernel_main].  Every function of the C files outside the
    tests is a definition here. *)
From Stdlib Require Export ZArith Lia Bool.
From stdpp Require Export base numbers gmap list.
Export list.
#[global] Open Scope Z_scope.

(** ** Machine integers

    A C integer of width w is a [Z] in [0, 2^w); every operation that can wrap
    is written with the wrap. *)

Definition u8 (z : Z) : Z := z mod 2 ^ 8.
Definition u16 (z : Z) : Z := z mod 2 ^ 16.
Definition u32 (z : Z) : Z := z mod 2 ^ 32.
Definition u64 (z : Z) : Z := z mod 2 ^ 64.
(** The value of a [w]-bit pattern read as a signed integer. *)
Definition signed (w z : Z) : Z := (z + 2 ^ (w - 1)) mod 2 ^ w - 2 ^ (w - 1).

Lemma u8_id z : 0 <= z < 2 ^ 8 -> u8 z = z.
Proof. apply Z.mod_small. Qed.
Lemma u16_id z : 0 <= z < 2 ^ 16 -> u16 z = z.
Proof. apply Z.mod_small. Qed.
Lemma u32_id z : 0 <= z < 2 ^ 32 -> u32 z = z.
Proof. apply Z.mod_small. Qed.
Lemma u64_id z : 0 <= z < 2 ^ 64 -> u64 z = z.
Proof. apply Z.mod_small. Qed.
Lemma u8_bound z : 0 <= u8 z < 2 ^ 8.
Proof. by apply Z.mod_pos_bound. Qed.
Lemma u16_bound z : 0 <= u16 z < 2 ^ 16.
Proof. by apply Z.mod_pos_bound. Qed.
Lemma u32_bound z : 0 <= u32 z < 2 ^ 32.
Proof. by apply Z.mod_pos_bound. Qed.
Lemma u64_bound z : 0 <= u64 z < 2 ^ 64.
Proof. by apply Z.mod_pos_bound. Qed.

(** [usimpl] removes the wraps whose argument [lia] can bound. *)
Ltac usimpl_step :=
  first [ rewrite u64_id by lia | rewrite u32_id by lia
        | rewrite u16_id by lia | rewrite u8_id by lia ].
Ltac usimpl := repeat usimpl_step.
Tactic Notation "usimpl" "in" hyp(H) :=
  repeat first [ rewrite u64_id in H by lia | rewrite u32_id in H by lia
               | rewrite u16_id in H by lia | rewrite u8_id in H by lia ].

(** [bool_case] turns the innermost integer test of the goal into a case split
    with the arithmetic fact it decides. *)
Ltac bool_case :=
  match goal with
  | |- context [?a =? ?b] => destruct (Z.eqb_spec a b)
  | |- context [?a <? ?b] => destruct (Z.ltb_spec a b)
  | |- context [?a <=? ?b] => destruct (Z.leb_spec a b)
  end.

(** Membership in lists built from [++] and [::] is closed by [eauto with inlist]. *)
Lemma in_app_left {A} (x : A) l1 l2 : x ∈ l1 -> x ∈ l1 ++ l2.
Proof. intros. apply elem_of_app. by left. Qed.
Lemma in_app_right {A} (x : A) l1 l2 : x ∈ l2 -> x ∈ l1 ++ l2.
Proof. intros. apply elem_of_app. by right. Qed.
Lemma in_cons_here {A} (x : A) l : x ∈ x :: l.
Proof. left. Qed.
Lemma in_cons_there {A} (x y : A) l : x ∈ l -> x ∈ y :: l.
Proof. by right. Qed.
Create HintDb inlist.
#[export] Hint Resolve in_app_left in_app_right in_cons_here in_cons_there or_introl or_intror : inlist.

(** The bits from [k] on of a number below [2 ^ k]. *)
Lemma high_bit f k j : 0 <= f < 2 ^ k -> 0 <= k <= j -> Z.testbit f j = false.
Proof.
  intros Hf Hj. destruct (decide (f = 0)) as [->|]; [apply Z.testbit_0_l|].
  apply Z.bits_above_log2; [lia|]. apply Z.log2_lt_pow2; [lia|].
  pose proof (Z.pow_le_mono_r 2 k j ltac:(lia) ltac:(lia)). lia.
Qed.

(** ** Sums over lists, and removing a value from a list *)
Fixpoint zsum {A} (f : A -> Z) (l : list A) : Z :=
  match l with
  | [] => 0
  | x :: l => f x + zsum f l
  end.

Lemma zsum_ext {A} (f g : A -> Z) l : (forall x, x ∈ l -> f x = g x) -> zsum f l = zsum g l.
Proof.
  induction l as [|x l IH]; intros H; simpl; [done|].
  rewrite H by left. rewrite IH; [done|]. intros y Hy. apply H. by right.
Qed.
Lemma zsum_app {A} (f : A -> Z) l1 l2 : zsum f (l1 ++ l2) = zsum f l1 + zsum f l2.
Proof. induction l1 as [|x l1 IH]; simpl; [lia|]. rewrite IH. lia. Qed.
Lemma zsum_bind {A B} (f : B -> Z) (g : A -> list B) l :
  zsum f (l ≫= g) = zsum (fun x => zsum f (g x)) l.
Proof. induction l as [|x l IH]; csimpl; [done|]. by rewrite zsum_app, IH. Qed.
Lemma zsum_fmap {A B} (f : B -> Z) (g : A -> B) l : zsum f (g <$> l) = zsum (fun x => f (g x)) l.
Proof. induction l as [|x l IH]; csimpl; [done|]. by rewrite IH. Qed.
Lemma zsum_const {A} (c : Z) (l : list A) : zsum (fun _ => c) l = c * Z.of_nat (length l).
Proof. induction l as [|x l IH]; simpl; [lia|]. rewrite IH. lia. Qed.
Lemma zsum_upd {A} `{EqDecision A} (f g : A -> Z) (l : list A) x :
  NoDup l -> x ∈ l -> (forall y, y <> x -> g y = f y) -> zsum g l = zsum f l + (g x - f x).
Proof.
  intros Hnd Hin Hne. induction l as [|y l IH]; [by apply not_elem_of_nil in Hin|].
  apply NoDup_cons in Hnd as [Hy Hnd]. simpl. apply elem_of_cons in Hin as [->|Hin].
  - rewrite (zsum_ext g f l); [lia|]. intros z Hz. apply Hne. by intros ->.
  - rewrite IH by done. rewrite Hne; [lia|]. by intros ->.
Qed.
Lemma zsum_nonneg {A} (f : A -> Z) l : (forall x, 0 <= f x) -> 0 <= zsum f l.
Proof. intros H. induction l as [|x l IH]; simpl; [lia|]. specialize (H x). lia. Qed.

Definition without (x : Z) (l : list Z) : list Z := filter (fun y => y <> x) l.

Lemma without_id x l : x ∉ l -> without x l = l.
Proof.
  unfold without. induction l as [|y l IH]; intros Hx; [done|].
  apply not_elem_of_cons in Hx as [Hxy Hx]. rewrite filter_cons_True by congruence.
  by rewrite IH.
Qed.
Lemma without_middle x l1 l2 : NoDup (l1 ++ x :: l2) -> without x (l1 ++ x :: l2) = l1 ++ l2.
Proof.
  intros Hnd. apply NoDup_app in Hnd as (_ & Hd & Hnd). apply NoDup_cons in Hnd as [Hx _].
  unfold without. rewrite filter_app, filter_cons_False by (intros H; by apply H).
  fold (without x l1) (without x l2). rewrite !without_id; [done|done|].
  intros Hin. apply (Hd x Hin). left.
Qed.

Lemma filter_all {A} (P : A -> Prop) `{forall x, Decision (P x)} (l : list A) :
  (forall x, x ∈ l -> P x) -> filter P l = l.
Proof.
  induction l as [|x l IH]; intros Hl; [done|]. rewrite filter_cons_True by (apply Hl; left).
  f_equal. apply IH. intros y Hy. apply Hl. by right.
Qed.

Lemma NoDup_fmap_elem {A B} (f : A -> B) l x y :
  NoDup (f <$> l) -> x ∈ l -> y ∈ l -> f x = f y -> x = y.
Proof.
  intros Hnd (i & Hi)%list_elem_of_lookup (j & Hj)%list_elem_of_lookup E.
  assert (i = j) as ->; [|congruence].
  eapply (NoDup_lookup _ _ _ (f x) Hnd); rewrite list_lookup_fmap; [by rewrite Hi|]. rewrite Hj. simpl. by f_equal.
Qed.

(** ** Byte-addressed memory

    One memory is shared by every component of the kernel: the free-list nodes
    of the buddy allocator, the slab and heap headers and the page tables all
    live in it.  A byte that was never written reads as 0. *)

Abbreviation mem := (gmap Z Z).

Definition mget (m : mem) (a : Z) : Z := u8 (default 0 (m !! a)).
Definition mset (m : mem) (a v : Z) : mem := <[a := u8 v]> m.

(** Little-endian access to [n] bytes. *)
Fixpoint load (n : nat) (m : mem) (a : Z) : Z :=
  match n with
  | O => 0
  | S n => mget m a + 2 ^ 8 * load n m (a + 1)
  end.
Fixpoint store (n : nat) (m : mem) (a v : Z) : mem :=
  match n with
  | O => m
  | S n => store n (mset m a v) (a + 1) (v / 2 ^ 8)
  end.

(** [agree P m m'] : the two memories hold the same bytes at the addresses of [P]. *)
Definition agree (P : Z -> Prop) (m m' : mem) : Prop :=
  forall x, P x -> mget m' x = mget m x.

(** The byte range of an object of [n] bytes at [a]. *)
Definition within (a n x : Z) : Prop := a <= x < a + n.

Lemma mget_bound m a : 0 <= mget m a < 2 ^ 8.
Proof. apply u8_bound. Qed.
Lemma mget_mset_eq m a v : mget (mset m a v) a = u8 v.
Proof.
  unfold mget, mset. rewrite lookup_insert_eq. simpl.
  apply u8_id, u8_bound.
Qed.
Lemma mget_mset_ne m a b v : a <> b -> mget (mset m a v) b = mget m b.
Proof. intros. unfold mget, mset. by rewrite lookup_insert_ne. Qed.

Lemma mget_store_out n m a v x :
  ~ within a (Z.of_nat n) x -> mget (store n m a v) x = mget m x.
Proof.
  unfold within. revert m a v.
  induction n as [|n IH]; intros m a v Hx; simpl; [done|].
  rewrite IH by lia. apply mget_mset_ne. lia.
Qed.

#[export] Instance agree_equiv P : Equivalence (agree P).
Proof.
  split.
  - done.
  - intros m m' H x Hx. by rewrite H.
  - intros m1 m2 m3 H1 H2 x Hx. by rewrite H2, H1.
Qed.

Lemma agree_mono (P Q : Z -> Prop) m m' :
  (forall x, P x -> Q x) -> agree Q m m' -> agree P m m'.
Proof. intros HPQ H x Hx. auto. Qed.

Lemma agree_store P n m a v :
  (forall x, P x -> ~ within a (Z.of_nat n) x) -> agree P m (store n m a v).
Proof. intros H x Hx. apply mget_store_out. auto. Qed.

Lemma load_agree n m m' a :
  agree (within a (Z.of_nat n)) m m' -> load n m' a = load n m a.
Proof.
  unfold agree, within. revert a.
  induction n as [|n IH]; intros a H; simpl; [done|].
  rewrite H by lia. rewrite IH; [done|].
  intros x Hx. apply H. lia.
Qed.

Lemma load_bound n m a : 0 <= load n m a < 2 ^ (8 * Z.of_nat n).
Proof.
  revert a. induction n as [|n IH]; intros a; simpl load; [lia|].
  pose proof (mget_bound m a). specialize (IH (a + 1)).
  replace (2 ^ (8 * Z.of_nat (S n))) with (2 ^ 8 * 2 ^ (8 * Z.of_nat n)); [lia|].
  rewrite <- Z.pow_add_r by lia. f_equal. lia.
Qed.

Lemma load_store_ne n k m a b v :
  a + Z.of_nat n <= b \/ b + Z.of_nat k <= a ->
  load n (store k m b v) a = load n m a.
Proof.
  intros H. apply load_agree, agree_store. unfold within. lia.
Qed.

Lemma load_store_eq n m a v :
  load n (store n m a v) a = v mod 2 ^ (8 * Z.of_nat n).
Proof.
  revert m a v. induction n as [|n IH]; intros m a v; simpl load; simpl store.
  - by rewrite Z.mod_1_r.
  - rewrite IH, mget_store_out, mget_mset_eq by (unfold within; lia).
    unfold u8.
    replace (2 ^ (8 * Z.of_nat (S n))) with (2 ^ 8 * 2 ^ (8 * Z.of_nat n)).
    + rewrite (Z.rem_mul_r v (2 ^ 8) (2 ^ (8 * Z.of_nat n))); lia.
    + rewrite <- Z.pow_add_r by lia. f_equal. lia.
Qed.

Lemma mget_store_zero n m a x : within a (Z.of_nat n) x -> mget (store n m a 0) x = 0.
Proof.
  unfold within. revert m a. induction n as [|n IH]; intros m a Hx; simpl; [lia|].
  destruct (decide (x = a)) as [->|Hne].
  - rewrite mget_store_out by (unfold within; lia). by rewrite mget_mset_eq.
  - change (0 / 256) with 0. apply IH. lia.
Qed.

Lemma load64_store_eq m a v : 0 <= v < 2 ^ 64 -> load 8 (store 8 m a v) a = v.
Proof. intros. rewrite load_store_eq. by apply Z.mod_small. Qed.
Lemma load32_store_eq m a v : 0 <= v < 2 ^ 32 -> load 4 (store 4 m a v) a = v.
Proof. intros. rewrite load_store_eq. by apply Z.mod_small. Qed.
Lemma load64_bound m a : 0 <= load 8 m a < 2 ^ 64.
Proof. apply (load_bound 8). Qed.
Lemma load32_bound m a : 0 <= load 4 m a < 2 ^ 32.
Proof. apply (load_bound 4). Qed.

(** [mem_simpl] reads through stores: the same cell, or one [lia] separates. *)
Ltac mem_simpl :=
  repeat first [ rewrite load64_store_eq by lia | rewrite load32_store_eq by lia
               | rewrite load_store_ne by lia ].

#[global] Arguments load : simpl never.
#[global] Arguments store : simpl never.
#[global] Arguments u8 : simpl never.
#[global] Arguments u16 : simpl never.
#[global] Arguments u32 : simpl never.
#[global] Arguments u64 : simpl never.

(** ** Outcomes and the state monad of the translated code

    A run either finishes ([Done]) or stops: a loop that never ends, an integer
    division by zero, a lock that the only running thread already holds, or a read or
    write the C language gives no meaning: outside a local or static array, of a local
    that was not assigned, of a variadic argument that was not passed. *)

Inductive fault := Diverged | DivideError | Deadlock | Undefined.

Inductive outcome (S A : Type) :=
| Done (a : A) (s : S)
| Fault (f : fault).
Arguments Done {S A}.
Arguments Fault {S A}.

#[export] Instance fault_eq_dec : EqDecision fault.
Proof. solve_decision. Defined.

Definition M (S A : Type) := S -> outcome S A.

#[export] Instance M_ret S : MRet (M S) := fun A a s => Done a s.
#[export] Instance M_bind S : MBind (M S) := fun A B f c s =>
  match c s with
  | Done a s' => f a s'
  | Fault e => Fault e
  end.
#[export] Instance M_fmap S : FMap (M S) := fun A B f c s =>
  match c s with
  | Done a s' => Done (f a) s'
  | Fault e => Fault e
  end.

Definition gets {S A} (f : S -> A) : M S A := fun s => Done (f s) s.
Definition modify {S} (f : S -> S) : M S unit := fun s => Done tt (f s).
Definition stop {S A} (f : fault) : M S A := fun _ => Fault f.
Definition when {S} (b : bool) (c : M S unit) : M S unit := if b then c else mret tt.

(** Loops.  [while x body] runs [body] on the loop-carried locals [x] until it
    answers [inr]; the bound of 2^64 rounds is more than the number of addresses
    of the machine, and is counted in binary so that the loop can be run. *)
Fixpoint rounds {S X A} (p : positive) (body : X -> M S (X + A)) (x : X) : M S (X + A) :=
  match p with
  | xH => body x
  | xO p => r ← rounds p body x;
            match r with inl x' => rounds p body x' | inr a => mret (inr a) end
  | xI p => r ← rounds p body x;
            match r with
            | inl x' => r' ← rounds p body x';
                        match r' with inl x'' => body x'' | inr a => mret (inr a) end
            | inr a => mret (inr a)
            end
  end.

Definition FUEL : positive := (2 ^ 64)%positive.

Definition while {S X A} (x : X) (body : X -> M S (X + A)) : M S A :=
  r ← rounds FUEL body x;
  match r with inl _ => stop Diverged | inr a => mret a end.

(** [for (i = lo; i < hi; i++) body] *)
Fixpoint for_nat {S} (n : nat) (i : Z) (body : Z -> M S unit) : M S unit :=
  match n with
  | O => mret tt
  | S n => body i ;; for_nat n (i + 1) body
  end.
Definition for_range {S} (lo hi : Z) (body : Z -> M S unit) : M S unit :=
  for_nat (Z.to_nat (hi - lo)) lo body.

(** The same loop with an accumulator. *)
Fixpoint for_fold {S X} (n : nat) (i : Z) (x : X) (body : Z -> X -> M S X) : M S X :=
  match n with
  | O => mret x
  | S n => x' ← body i x; for_fold n (i + 1) x' body
  end.

(** The result and the final state of a run, for concrete runs. *)
Definition result {S A} (o : outcome S A) : option A :=
  match o with Done a _ => Some a | Fault _ => None end.
Definition final {S A} (o : outcome S A) (d : S) : S :=
  match o with Done _ s => s | Fault _ => d end.

Lemma run_final {S A} (o : outcome S A) a d : result o = Some a -> o = Done a (final o d).
Proof. destruct o; [by intros [= ->]|done]. Qed.

Lemma run_result {S A} (o : outcome S A) a b s : o = Done b s -> result o = Some a -> b = a.
Proof. intros ->. by intros [= ->]. Qed.

Lemma Done_inj {S A} (a b : A) (s t : S) : Done a s = Done b t -> a = b /\ s = t.
Proof. by intros [= -> ->]. Qed.

(** ** What every run that ends keeps *)

Section keeps.
Context {S : Type} (P : S -> S -> Prop) `{!PreOrder P}.

Definition keeps {A} (c : M S A) : Prop := forall s, match c s with Done _ s' => P s s' | Fault _ => True end.

Lemma keeps_ret {A} (a : A) : keeps (mret a).
Proof using PreOrder0. intros s. change (P s s). reflexivity. Qed.
Lemma keeps_gets {A} (f : S -> A) : keeps (gets f).
Proof using PreOrder0. intros s. change (P s s). reflexivity. Qed.
Lemma keeps_stop {A} f : keeps (@stop S A f).
Proof using. done. Qed.
Lemma keeps_modify f : (forall s, P s (f s)) -> keeps (modify f).
Proof using. intros H s. apply H. Qed.
Lemma keeps_bind {A B} (c : M S A) (k : A -> M S B) : keeps c -> (forall a, keeps (k a)) -> keeps (mbind k c).
Proof using PreOrder0.
  intros Hc Hk s. unfold mbind, M_bind. specialize (Hc s). destruct (c s) as [a s1|]; [|done].
  specialize (Hk a s1). destruct (k a s1) as [b s2|]; [|done]. by etrans.
Qed.
Lemma keeps_when (b : bool) c : keeps c -> keeps (when b c).
Proof using PreOrder0. intros Hc. destruct b; [done|apply keeps_ret]. Qed.
Lemma keeps_rounds {X A} p (body : X -> M S (X + A)) x : (forall y, keeps (body y)) -> keeps (rounds p body x).
Proof using PreOrder0.
  intros Hb. revert x. induction p as [p IH|p IH|]; intros x; cbn [rounds]; [| |apply Hb]; apply keeps_bind; try apply IH.
  - intros [y|a]; [|apply keeps_ret]. apply keeps_bind; [apply IH|]. intros [z|a]; [apply Hb|apply keeps_ret].
  - intros [y|a]; [apply IH|apply keeps_ret].
Qed.
Lemma keeps_while {X A} (body : X -> M S (X + A)) x : (forall y, keeps (body y)) -> keeps (while x body).
Proof using PreOrder0.
  intros Hb. unfold while. apply keeps_bind; [by apply keeps_rounds|]. intros [y|a]; [apply keeps_stop|apply keeps_ret].
Qed.
End keeps.

(** ** Total weakest preconditions *)

Definition wp {S A} (c : M S A) (Q : A -> S -> Prop) (s : S) : Prop :=
  match c s with
  | Done a s' => Q a s'
  | Fault _ => False
  end.

Section wp.
Context {S : Type}.
Implicit Types s : S.

Lemma wp_ret {A} (a : A) Q s : Q a s -> wp (mret a) Q s.
Proof. done. Qed.

Lemma wp_bind {A B} (c : M S A) (f : A -> M S B) Q s :
  wp c (fun a s' => wp (f a) Q s') s -> wp (mbind f c) Q s.
Proof. unfold wp, mbind, M_bind. by destruct (c s). Qed.

(** A block of two statements in front of the rest. *)
Lemma wp_assoc {A B C} (c : M S A) (f : A -> M S B) (g : B -> M S C) Q s :
  wp (x ← c; f x) (fun y s' => wp (g y) Q s') s -> wp (x ← c; y ← f x; g y) Q s.
Proof. unfold wp, mbind, M_bind. destruct (c s) as [a s'|]; [|done]. by destruct (f a s'). Qed.

Lemma wp_assoc3 {A B C D} (c : M S A) (f : A -> M S B) (g : B -> M S C) (h : C -> M S D) Q s :
  wp (x ← c; y ← f x; g y) (fun z s' => wp (h z) Q s') s -> wp (x ← c; y ← f x; z ← g y; h z) Q s.
Proof.
  unfold wp, mbind, M_bind. destruct (c s) as [a s'|]; [|done]. destruct (f a s') as [b t|]; [|done]. by destruct (g b t).
Qed.

Lemma wp_fmap {A B} (c : M S A) (f : A -> B) Q s :
  wp c (fun a s' => Q (f a) s') s -> wp (f <$> c) Q s.
Proof. unfold wp, fmap, M_fmap. by destruct (c s). Qed.

Lemma wp_mono {A} (c : M S A) (P Q : A -> S -> Prop) s :
  wp c P s -> (forall a s', P a s' -> Q a s') -> wp c Q s.
Proof. unfold wp. destruct (c s); auto. Qed.

Lemma wp_gets {A} (f : S -> A) Q s : Q (f s) s -> wp (gets f) Q s.
Proof. done. Qed.

Lemma wp_modify f (Q : unit -> S -> Prop) s : Q tt (f s) -> wp (modify f) Q s.
Proof. done. Qed.

Lemma wp_when (b : bool) c (Q : unit -> S -> Prop) s :
  (b = true -> wp c Q s) -> (b = false -> Q tt s) -> wp (when b c) Q s.
Proof. destruct b; intros Ht Hf; [by apply Ht | by apply wp_ret, Hf]. Qed.

Lemma wp_Done {A} (c : M S A) Q s :
  wp c Q s -> exists a s', c s = Done a s' /\ Q a s'.
Proof. unfold wp. destruct (c s); [eauto|done]. Qed.

Lemma wp_of_Done {A} (c : M S A) (Q : A -> S -> Prop) s a s' :
  c s = Done a s' -> Q a s' -> wp c Q s.
Proof. unfold wp. by intros ->. Qed.

(** To show that a run gives a known result. *)
Lemma wp_Done_eq {A} (c : M S A) (a : A) (Q : S -> Prop) s :
  wp c (fun a' s' => a' = a /\ Q s') s -> exists s', c s = Done a s' /\ Q s'.
Proof. intros H. apply wp_Done in H as (a' & s' & H & -> & HQ). eauto. Qed.

(** The loop rule: an invariant indexed by a decreasing natural number. *)
Section loop.
Context {X A : Type} (body : X -> M S (X + A)) (I : nat -> X -> S -> Prop).
Context (Q : A -> S -> Prop).
Hypothesis Hbody : forall n x s, I n x s ->
  wp (body x) (fun r s' => match r with
                           | inl x' => exists n', (n' < n)%nat /\ I n' x' s'
                           | inr a => Q a s'
                           end) s.

(** After [Pos.to_nat p] rounds the index has dropped at least that much. *)
Lemma wp_rounds p n x s : I n x s ->
  wp (rounds p body x)
     (fun r s' => match r with
                  | inl x' => exists n', (n' + Pos.to_nat p <= n)%nat /\ I n' x' s'
                  | inr a => Q a s'
                  end) s.
Proof using Hbody.
  revert n x s. induction p as [p IH|p IH|]; intros n x s HI; simpl.
  - apply wp_bind. eapply wp_mono; [by apply IH|].
    intros [x'|a] s' H; [|done]. destruct H as (n' & Hn' & HI').
    apply wp_bind. eapply wp_mono; [by apply IH|].
    intros [x''|a] s'' H; [|done]. destruct H as (n'' & Hn'' & HI'').
    eapply wp_mono; [by apply Hbody|].
    intros [y|a] t H; [|done]. destruct H as (k & Hk & HIk).
    exists k. split; [lia|done].
  - apply wp_bind. eapply wp_mono; [by apply IH|].
    intros [x'|a] s' H; [|done]. destruct H as (n' & Hn' & HI').
    eapply wp_mono; [by apply IH|].
    intros [x''|a] s'' H; [|done]. destruct H as (n'' & Hn'' & HI'').
    exists n''. split; [lia|done].
  - eapply wp_mono; [by apply Hbody|].
    intros [x'|a] s' H; [|done]. destruct H as (n' & Hn' & HI').
    exists n'. split; [lia|done].
Qed.

Lemma wp_while n x s : I n x s -> Z.of_nat n < 2 ^ 64 -> wp (while x body) Q s.
Proof using Hbody.
  intros HI Hn. apply wp_bind.
  eapply wp_mono; [by apply (wp_rounds FUEL n)|].
  intros [x'|a] s' H; [|done]. destruct H as (n' & Hn' & _).
  assert (Z.of_nat (Pos.to_nat FUEL) = 2 ^ 64).
  { by rewrite positive_nat_Z. }
  lia.
Qed.
End loop.

(** The same rule with the invariant and its bound first, for [apply]. *)
Lemma wp_loop {X A} (I : nat -> X -> S -> Prop) (n : nat) (body : X -> M S (X + A)) x
    (Q : A -> S -> Prop) s :
  I n x s -> Z.of_nat n < 2 ^ 64 ->
  (forall n x s, I n x s ->
    wp (body x) (fun r s' => match r with
                             | inl x' => exists n', (n' < n)%nat /\ I n' x' s'
                             | inr a => Q a s'
                             end) s) ->
  wp (while x body) Q s.
Proof. intros HI Hn Hb. by apply (wp_while body I Q Hb n). Qed.

(** Counting loops. *)
Lemma wp_for_nat (I : Z -> S -> Prop) n i (body : Z -> M S unit) (Q : unit -> S -> Prop) s :
  I i s ->
  (forall j s', i <= j < i + Z.of_nat n -> I j s' -> wp (body j) (fun _ => I (j + 1)) s') ->
  (forall s', I (i + Z.of_nat n) s' -> Q tt s') ->
  wp (for_nat n i body) Q s.
Proof.
  revert i s. induction n as [|n IH]; intros i s HI Hb HQ; simpl.
  - apply wp_ret, HQ. by rewrite Z.add_0_r.
  - apply wp_bind. eapply wp_mono; [apply Hb; [lia|done]|].
    intros u s' HI'. apply (IH (i + 1)); [done| |].
    + intros j s'' Hj. apply Hb. lia.
    + intros s''. replace (i + 1 + Z.of_nat n) with (i + Z.of_nat (Datatypes.S n)) by lia.
      apply HQ.
Qed.

Lemma wp_for_range (I : Z -> S -> Prop) lo hi (body : Z -> M S unit) (Q : unit -> S -> Prop) s :
  lo <= hi -> I lo s ->
  (forall j s', lo <= j < hi -> I j s' -> wp (body j) (fun _ => I (j + 1)) s') ->
  (forall s', I hi s' -> Q tt s') ->
  wp (for_range lo hi body) Q s.
Proof.
  intros Hle HI Hb HQ. unfold for_range.
  apply (wp_for_nat I); [done| |].
  - intros j s' Hj. apply Hb. lia.
  - intros s'. replace (lo + Z.of_nat (Z.to_nat (hi - lo))) with hi by lia. apply HQ.
Qed.
End wp.

#[global] Opaque FUEL.

(** [wp_go] walks through straight-line code up to the next branch or loop. *)
Ltac wp_go :=
  repeat first [ apply wp_bind | apply wp_ret | apply wp_fmap
               | apply wp_gets | apply wp_modify ]; simpl.
