(* ===== verification/Machine.v ===== *)
(** The machine state shared by the memory-management components: the byte
    memory, and one record per translation unit of src/kernel/mm holding the
    static variables that unit declares.  Pointers are addresses ([Z]); NULL is 0. *)
From S2P Require Import Prelude.

Definition NULL : Z := 0.

(** ** kernel/mm/buddy.c, include/mm/buddy.h *)

Definition BUDDY_MAX_ORDER : Z := 10.
Definition BUDDY_PAGE_SIZE : Z := 4096.

(** [buddy_zone_type_t] *)
Definition BUDDY_ZONE_UNMOVABLE : Z := 0.
Definition BUDDY_ZONE_RECLAIMABLE : Z := 1.
Definition BUDDY_ZONE_MOVABLE : Z := 2.
Definition BUDDY_ZONE_COUNT : Z := 3.

(** [buddy_zone_t].  The field [allocation_map] always points to the one static
    bitmap [g_allocation_bitmap] and is never read; it is not a field here. *)
Record buddy_zone := mkZone {
  free_lists : list Z;
  free_counts : list Z;
  total_pages : Z;
  free_pages : Z;
  base_address : Z;
  map_size : Z;
  zone_lock : Z
}.

Record buddy_st := mkBuddy {
  g_zones : list buddy_zone;
  g_memory_start : Z;
  g_memory_size : Z;
  g_allocation_bitmap : gmap Z Z   (* static array; a byte not in the map is 0 *)
}.

(** ** kernel/mm/pmm.c *)
Record pmm_st := mkPmm {
  g_pmm_total : Z;
  g_pmm_free : Z;
  g_buddy_initialized : Z
}.

(** ** kernel/mm/slab.c *)
Record slab_st := mkSlabSt {
  g_cache_list : Z;
  g_cache_list_lock : Z
}.

(** ** kernel/mm/heap.c; [g_caches] lists g_cache_16 .. g_cache_2048 *)
Record heap_st := mkHeap {
  g_heap_start : Z;
  g_heap_size : Z;
  g_heap_head : Z;
  g_slab_initialized : Z;
  g_caches : list Z
}.

(** ** kernel/mm/cow.c; the table is a static array of 1024 pointers *)
Record cow_st := mkCow {
  cow_hash_table : gmap Z Z;
  cow_global_lock : Z
}.

(** ** kernel/mm/demand_paging.c *)
Record vm_address_space := mkAS {
  as_pml4 : Z;
  as_regions : Z;
  as_lock : Z
}.
Record dp_st := mkDp {
  address_spaces : list vm_address_space;
  address_space_count : Z;
  dp_global_lock : Z;
  vm_region_cache : Z
}.

(** ** kernel/mm/page_cache.c: [g_page_cache] and the static [counter] *)
Record pc_st := mkPc {
  pc_hash_table : Z;
  pc_hash_size : Z;
  pc_lru_head : Z;
  pc_lru_tail : Z;
  pc_total_pages : Z;
  pc_max_pages : Z;
  pc_cache_hits : Z;
  pc_cache_misses : Z;
  pc_lock : Z;
  pc_counter : Z
}.

Record kst := mkK {
  k_mem : mem;
  k_buddy : buddy_st;
  k_pmm : pmm_st;
  k_slab : slab_st;
  k_heap : heap_st;
  k_cow : cow_st;
  k_dp : dp_st;
  k_pc : pc_st
}.

Definition set_mem (m : mem) (s : kst) : kst :=
  mkK m (k_buddy s) (k_pmm s) (k_slab s) (k_heap s) (k_cow s) (k_dp s) (k_pc s).
Definition set_buddy (b : buddy_st) (s : kst) : kst :=
  mkK (k_mem s) b (k_pmm s) (k_slab s) (k_heap s) (k_cow s) (k_dp s) (k_pc s).
Definition set_pmm (p : pmm_st) (s : kst) : kst :=
  mkK (k_mem s) (k_buddy s) p (k_slab s) (k_heap s) (k_cow s) (k_dp s) (k_pc s).
Definition set_slab (p : slab_st) (s : kst) : kst :=
  mkK (k_mem s) (k_buddy s) (k_pmm s) p (k_heap s) (k_cow s) (k_dp s) (k_pc s).
Definition set_heap (p : heap_st) (s : kst) : kst :=
  mkK (k_mem s) (k_buddy s) (k_pmm s) (k_slab s) p (k_cow s) (k_dp s) (k_pc s).
Definition set_cow (p : cow_st) (s : kst) : kst :=
  mkK (k_mem s) (k_buddy s) (k_pmm s) (k_slab s) (k_heap s) p (k_dp s) (k_pc s).
Definition set_dp (p : dp_st) (s : kst) : kst :=
  mkK (k_mem s) (k_buddy s) (k_pmm s) (k_slab s) (k_heap s) (k_cow s) p (k_pc s).
Definition set_pc (p : pc_st) (s : kst) : kst :=
  mkK (k_mem s) (k_buddy s) (k_pmm s) (k_slab s) (k_heap s) (k_cow s) (k_dp s) p.

(** The image of the kernel's .bss before any init function runs. *)
Definition boot_state : kst :=
  mkK ∅ (mkBuddy (replicate 3 (mkZone (replicate 11 0) (replicate 11 0) 0 0 0 0 0)) 0 0 ∅)
      (mkPmm 0 0 0) (mkSlabSt 0 0) (mkHeap 0 0 0 0 (replicate 8 0)) (mkCow ∅ 0)
      (mkDp (replicate 256 (mkAS 0 0 0)) 0 0 0) (mkPc 0 0 0 0 0 0 0 0 0 0).

(** ** Memory operations of the kernel monad *)
Abbreviation K := (M kst).

Definition load8 (a : Z) : K Z := gets (fun s => load 1 (k_mem s) a).
Definition load16 (a : Z) : K Z := gets (fun s => load 2 (k_mem s) a).
Definition load32 (a : Z) : K Z := gets (fun s => load 4 (k_mem s) a).
Definition load64 (a : Z) : K Z := gets (fun s => load 8 (k_mem s) a).
Definition store8 (a v : Z) : K unit := modify (fun s => set_mem (store 1 (k_mem s) a v) s).
Definition store16 (a v : Z) : K unit := modify (fun s => set_mem (store 2 (k_mem s) a v) s).
Definition store32 (a v : Z) : K unit := modify (fun s => set_mem (store 4 (k_mem s) a v) s).
Definition store64 (a v : Z) : K unit := modify (fun s => set_mem (store 8 (k_mem s) a v) s).

Lemma set_mem_mem m s : k_mem (set_mem m s) = m.
Proof. done. Qed.
Lemma set_mem_set_mem m m' s : set_mem m (set_mem m' s) = set_mem m s.
Proof. done. Qed.
Lemma set_mem_id s : set_mem (k_mem s) s = s.
Proof. by destruct s. Qed.
Lemma set_buddy_id s : set_buddy (k_buddy s) s = s.
Proof. by destruct s. Qed.

(** ** Spinlocks taken by the only running thread

    [spinlock_acquire] spins while the word is not 0: with no other thread to
    clear it, that is a deadlock.  The interleaved behaviour of the same code
    is the subject of the file Spinlock. *)

(** A lock word in memory. *)
Definition spinlock_init (lock : Z) : K unit := store32 lock 0.
Definition spinlock_acquire (lock : Z) : K unit :=
  w ← load32 lock; if w =? 0 then store32 lock 1 else stop Deadlock.
Definition spinlock_release (lock : Z) : K unit := store32 lock 0.

(** A lock word that is a static variable, seen through its accessors. *)
Definition acquire_var (get : kst -> Z) (set : Z -> kst -> kst) : K unit :=
  w ← gets get; if w =? 0 then modify (set 1) else stop Deadlock.
Definition release_var (set : Z -> kst -> kst) : K unit := modify (set 0).

(** ** Predicates on memory used by the list-shaped components *)

(** A NULL-terminated singly linked list: the next pointer is the 8 bytes at
    offset [off] of each node. *)
Fixpoint sll (off : Z) (m : mem) (h : Z) (l : list Z) : Prop :=
  match l with
  | [] => h = NULL
  | a :: l => h = a /\ a <> NULL /\ sll off m (load 8 m (a + off)) l
  end.

(** A NULL-terminated doubly linked list: next at offset [nx], prev at [pv]. *)
Fixpoint dll (nx pv : Z) (m : mem) (p h : Z) (l : list Z) : Prop :=
  match l with
  | [] => h = NULL
  | a :: l => h = a /\ a <> NULL /\ load 8 m (a + pv) = p /\
              dll nx pv m a (load 8 m (a + nx)) l
  end.

Lemma sll_frame off m m' h l :
  (forall a, a ∈ l -> agree (within (a + off) 8) m m') ->
  sll off m h l -> sll off m' h l.
Proof.
  revert h. induction l as [|a l IH]; intros h Hag; simpl; [done|].
  intros (-> & Hn & Hl). split; [done|]. split; [done|].
  rewrite (load_agree 8 m m') by (apply Hag; left).
  apply IH; [|done]. intros b Hb. apply Hag. by right.
Qed.

Lemma dll_frame nx pv m m' p h l :
  (forall a, a ∈ l -> agree (within (a + nx) 8) m m') ->
  (forall a, a ∈ l -> agree (within (a + pv) 8) m m') ->
  dll nx pv m p h l -> dll nx pv m' p h l.
Proof.
  revert p h. induction l as [|a l IH]; intros p h Hn Hp; simpl; [done|].
  intros (-> & Ha & Hprev & Hl). split; [done|]. split; [done|].
  rewrite (load_agree 8 m m' (a + pv)) by (apply Hp; left).
  rewrite (load_agree 8 m m' (a + nx)) by (apply Hn; left).
  split; [done|]. apply IH; [| |done]; intros b Hb; [apply Hn|apply Hp]; by right.
Qed.

Lemma dll_head_nonnull nx pv m p h l : dll nx pv m p h l -> h = NULL <-> l = [].
Proof. destruct l; simpl; [done|]. by intros (-> & Hn & _). Qed.

Lemma sll_head_nonnull off m h l : sll off m h l -> h = NULL <-> l = [].
Proof. destruct l; simpl; [done|]. by intros (-> & Hn & _). Qed.

(** ** Filling memory *)

(** Only the memory differs. *)
Definition mem_only (s s' : kst) : Prop := s' = set_mem (k_mem s') s.

#[export] Instance mem_only_preorder : PreOrder mem_only.
Proof.
  unfold mem_only. split.
  - intros s. by rewrite set_mem_id.
  - intros s1 s2 s3 -> ->. done.
Qed.

Lemma mem_only_set m s : mem_only s (set_mem m s).
Proof. done. Qed.

(** [for (i = 0; i < n; i++) p[i] = v] over bytes. *)
Lemma wp_fill8 a v n s (Q : unit -> kst -> Prop) : 0 <= n ->
  (forall m, agree (fun x => ~ within a n x) (k_mem s) m ->
             (forall x, within a n x -> mget m x = u8 v) -> Q tt (set_mem m s)) ->
  wp (for_range 0 n (fun i => store8 (a + i) v)) Q s.
Proof.
  intros Hn HQ.
  apply (wp_for_range (fun i s' => exists m, s' = set_mem m s /\
           agree (fun x => ~ within a i x) (k_mem s) m /\ forall x, within a i x -> mget m x = u8 v)); [done| | |].
  - exists (k_mem s). rewrite set_mem_id. split; [done|]. split; [done|]. unfold within. lia.
  - intros j s' Hj (m & -> & Hag & Hz). apply wp_modify. exists (store 1 m (a + j) v).
    split; [done|]. split.
    + intros x Hx. rewrite mget_store_out by (unfold within in *; lia). apply Hag. unfold within in *. lia.
    + intros x Hx. destruct (decide (x = a + j)) as [->|Hne].
      * unfold store. apply mget_mset_eq.
      * rewrite mget_store_out by (unfold within in *; lia). apply Hz. unfold within in *. lia.
  - intros s' (m & -> & Hag & Hz). by apply HQ.
Qed.

(** [for (i = 0; i < n; i++) p[i] = 0] over 8-byte words. *)
Lemma wp_fill64 a n s (Q : unit -> kst -> Prop) : 0 <= n ->
  (forall m, agree (fun x => ~ within a (8 * n) x) (k_mem s) m ->
             (forall x, within a (8 * n) x -> mget m x = 0) -> Q tt (set_mem m s)) ->
  wp (for_range 0 n (fun i => store64 (a + 8 * i) 0)) Q s.
Proof.
  intros Hn HQ.
  apply (wp_for_range (fun i s' => exists m, s' = set_mem m s /\
           agree (fun x => ~ within a (8 * i) x) (k_mem s) m /\
           forall x, within a (8 * i) x -> mget m x = 0)); [done| | |].
  - exists (k_mem s). rewrite set_mem_id. split; [done|]. split; [done|]. unfold within. lia.
  - intros j s' Hj (m & -> & Hag & Hz). apply wp_modify. exists (store 8 m (a + 8 * j) 0).
    split; [done|]. split.
    + intros x Hx. rewrite mget_store_out by (unfold within in *; lia). apply Hag. unfold within in *. lia.
    + intros x Hx. destruct (decide (a + 8 * j <= x)).
      * apply mget_store_zero. unfold within in *. lia.
      * rewrite mget_store_out by (unfold within in *; lia). apply Hz. unfold within in *. lia.
  - intros s' (m & -> & Hag & Hz). by apply HQ.
Qed.

(** A word of zero bytes is zero. *)
Lemma load_zero n m a : (forall x, within a (Z.of_nat n) x -> mget m x = 0) -> load n m a = 0.
Proof.
  revert a. induction n as [|n IH]; intros a H; [done|].
  change (mget m a + 2 ^ 8 * load n m (a + 1) = 0).
  rewrite H, IH by (unfold within in *; try lia; intros x Hx; apply H; unfold within in *; lia). done.
Qed.

Lemma load_zero_bytes n m a x : load n m a = 0 -> within a (Z.of_nat n) x -> mget m x = 0.
Proof.
  revert a. induction n as [|n IH]; intros a H Hx; [unfold within in Hx; simpl in Hx; lia|].
  change (mget m a + 2 ^ 8 * load n m (a + 1) = 0) in H.
  pose proof (mget_bound m a). pose proof (load_bound n m (a + 1)) as Hb.
  destruct (decide (x = a)) as [->|Hne]; [lia|]. apply (IH (a + 1)); [lia|]. unfold within in *. lia.
Qed.

Lemma load1 m a : load 1 m a = mget m a.
Proof. change (load 1 m a) with (mget m a + 2 ^ 8 * 0). lia. Qed.

Lemma store1 m a v x : mget (store 1 m a v) x = if x =? a then u8 v else mget m x.
Proof.
  change (store 1 m a v) with (mset m a v). destruct (Z.eqb_spec x a) as [->|Hne].
  - apply mget_mset_eq.
  - apply mget_mset_ne. congruence.
Qed.

(** [for (i = 0; i < n; i++) dst[i] = src[i]] over disjoint byte ranges. *)
Lemma wp_copy8 dst src n s (Q : unit -> kst -> Prop) : 0 <= n -> dst + n <= src \/ src + n <= dst ->
  (forall m, agree (fun x => ~ within dst n x) (k_mem s) m ->
             (forall i, 0 <= i < n -> mget m (dst + i) = mget (k_mem s) (src + i)) -> Q tt (set_mem m s)) ->
  wp (for_range 0 n (fun i => b ← load8 (src + i); store8 (dst + i) b)) Q s.
Proof.
  intros Hn Hd HQ.
  apply (wp_for_range (fun i s' => exists m, s' = set_mem m s /\
           agree (fun x => ~ within dst i x) (k_mem s) m /\
           forall j, 0 <= j < i -> mget m (dst + j) = mget (k_mem s) (src + j))); [done| | |].
  - exists (k_mem s). rewrite set_mem_id. split; [done|]. split; [done|]. lia.
  - intros j s' Hj (m & -> & Hag & Hc). apply wp_bind, wp_gets, wp_modify.
    cbn [k_mem set_mem]. rewrite load1. exists (store 1 m (dst + j) (mget m (src + j))).
    split; [done|]. split.
    + intros x Hx. rewrite store1. unfold within in Hx. rewrite (proj2 (Z.eqb_neq x _)) by lia.
      apply Hag. unfold within. lia.
    + intros k Hk. rewrite store1. destruct (Z.eqb_spec (dst + k) (dst + j)) as [E|Hne].
      * assert (k = j) as -> by lia. rewrite u8_id by apply mget_bound. apply Hag. unfold within. lia.
      * apply Hc. lia.
  - intros s' (m & -> & Hag & Hc). by apply HQ.
Qed.

(** A lock word taken and released leaves every byte as it was. *)
Lemma relock_agree m a : load 4 m a = 0 -> agree (fun _ => True) m (store 4 (store 4 m a 1) a 0).
Proof.
  intros Hz x _. destruct (decide (within a (Z.of_nat 4) x)) as [Hx|Hx].
  - rewrite mget_store_zero by done. symmetry. by apply (load_zero_bytes 4 m a).
  - by rewrite !mget_store_out.
Qed.
