(* ===== verification/DList.v ===== *)
(** Doubly linked lists in memory: segments, and what the pointer writes of an
    insertion at the head and of an unlinking do to the list they represent.
    Shared by the free lists of the buddy allocator and the heap's block list. *)
From S2P Require Import Prelude Machine.

Section dlist.
(** Offsets of the next and prev pointers in a node, and the node's size. *)
Context (nx pv sz : Z).
Hypothesis Hnx : 0 <= nx /\ nx + 8 <= sz.
Hypothesis Hpv : 0 <= pv /\ pv + 8 <= sz.
Hypothesis Hnp : nx + 8 <= pv \/ pv + 8 <= nx.

(** [dseg m p h l q e]: nodes [l] from [h]; the first one's prev is [p], the
    last one is [q] ([p] when there is none) and its next is [e]. *)
Fixpoint dseg (m : mem) (p h : Z) (l : list Z) (q e : Z) : Prop :=
  match l with
  | [] => h = e /\ p = q
  | a :: l => h = a /\ a <> NULL /\ load 8 m (a + pv) = p /\
              dseg m a (load 8 m (a + nx)) l q e
  end.

(** Nodes do not overlap and fit in the address space. *)
Definition separated (l : list Z) : Prop :=
  (forall a, a ∈ l -> 0 < a /\ a + sz <= 2 ^ 64) /\
  (forall a b, a ∈ l -> b ∈ l -> a <> b -> a + sz <= b \/ b + sz <= a).

(** Bytes outside the nodes of [l]. *)
Definition outside (l : list Z) (x : Z) : Prop := forall a, a ∈ l -> ~ within a sz x.

Lemma separated_sub l l' : (forall a, a ∈ l' -> a ∈ l) -> separated l -> separated l'.
Proof. intros H [H1 H2]. split; eauto. Qed.

Lemma dll_dseg m p h l : dll nx pv m p h l <-> exists q, dseg m p h l q NULL.
Proof.
  revert p h. induction l as [|a l IH]; intros p h; simpl.
  - split; [intros ->; eauto | intros (q & H & _); done].
  - rewrite IH. split; [intros (? & ? & ? & q & ?)|intros (q & ? & ? & ? & ?)]; eauto 10.
Qed.

Lemma dseg_app m p h l1 l2 q e :
  dseg m p h (l1 ++ l2) q e <-> exists q1 e1, dseg m p h l1 q1 e1 /\ dseg m q1 e1 l2 q e.
Proof.
  revert p h. induction l1 as [|a l1 IH]; intros p h; simpl.
  - split; [intros H; exists p, h; done|].
    intros (q1 & e1 & (-> & ->) & H); done.
  - rewrite IH. split.
    + intros (? & ? & ? & q1 & e1 & ? & ?). exists q1, e1. done.
    + intros (q1 & e1 & (? & ? & ? & ?) & ?). eauto 10.
Qed.

Lemma dseg_frame m m' p h l q e :
  (forall a, a ∈ l -> agree (within a sz) m m') -> dseg m p h l q e -> dseg m' p h l q e.
Proof.
  revert p h. induction l as [|a l IH]; intros p h Hag; simpl; [done|].
  intros (-> & Ha & Hp & Hl). split; [done|]. split; [done|].
  assert (Hag' : agree (within a sz) m m') by (apply Hag; left).
  rewrite !(load_agree 8 m m') by (eapply agree_mono; [|exact Hag']; unfold within; lia).
  split; [done|]. apply IH; [|done]. intros b Hb. apply Hag. by right.
Qed.

Lemma dll_frame_nodes m m' p h l :
  (forall a, a ∈ l -> agree (within a sz) m m') -> dll nx pv m p h l -> dll nx pv m' p h l.
Proof.
  rewrite !dll_dseg. intros Hag (q & Hq). exists q. by eapply dseg_frame.
Qed.

(** Redirecting the next pointer of the last node. *)
Lemma dseg_set_last m m' p h l a q e e' :
  (forall b, b ∈ l -> agree (within b sz) m m') ->
  load 8 m' (a + pv) = load 8 m (a + pv) -> load 8 m' (a + nx) = e' ->
  dseg m p h (l ++ [a]) q e -> dseg m' p h (l ++ [a]) q e'.
Proof.
  intros Hag Hpa Hna. rewrite !dseg_app. intros (q1 & e1 & H1 & H2).
  exists q1, e1. split; [by eapply dseg_frame|].
  simpl in *. destruct H2 as (-> & Ha & Hp & _ & <-). rewrite Hpa, Hna. done.
Qed.

(** Redirecting the prev pointer of the first node. *)
Lemma dll_set_first m m' p p' h l :
  (forall b, b ∈ tail l -> agree (within b sz) m m') ->
  (h <> NULL -> load 8 m' (h + pv) = p' /\ load 8 m' (h + nx) = load 8 m (h + nx)) ->
  dll nx pv m p h l -> dll nx pv m' p' h l.
Proof.
  destruct l as [|a l]; simpl; [done|].
  intros Hag Hh (-> & Ha & Hp & Hl). destruct (Hh Ha) as [-> ->].
  split; [done|]. split; [done|]. split; [done|]. by eapply dll_frame_nodes.
Qed.

(** The memory after linking [a] in front of a list headed by [h]. *)
Definition link_front (m : mem) (h a : Z) : mem :=
  let m1 := store 8 (store 8 m (a + nx) h) (a + pv) NULL in
  if negb (h =? NULL) then store 8 m1 (h + pv) a else m1.

Lemma link_front_agree m h a :
  agree (fun x => ~ within a sz x /\ (h <> NULL -> ~ within h sz x)) m (link_front m h a).
Proof.
  unfold link_front. intros x [Hx Hh]. unfold within in *.
  destruct (Z.eqb_spec h NULL); simpl;
    rewrite !mget_store_out by (unfold within; lia); done.
Qed.

Lemma link_front_dll m h a l :
  separated (a :: l) -> NoDup (a :: l) -> dll nx pv m NULL h l ->
  dll nx pv (link_front m h a) NULL a (a :: l).
Proof.
  intros [Hb Hs] Hnd Hl. destruct (Hb a ltac:(left)) as [Ha Ha'].
  assert (Hha : h <> NULL -> 0 < h /\ h + sz <= 2 ^ 64 /\ (a + sz <= h \/ h + sz <= a)).
  { intros Hn. assert (h ∈ l) by (destruct l; simpl in Hl; [done|destruct Hl as [-> _]; left]).
    destruct (Hb h ltac:(by right)). split; [done|]. split; [done|].
    apply Hs; [left|by right|]. intros ->. by inversion Hnd. }
  assert (Hn : load 8 (link_front m h a) (a + nx) = h /\
               load 8 (link_front m h a) (a + pv) = NULL).
  { unfold link_front, NULL in *. destruct (Z.eqb_spec h 0); simpl.
    - subst. by mem_simpl.
    - specialize (Hha ltac:(done)). by mem_simpl. }
  simpl. destruct Hn as [-> ->]. unfold NULL in Ha. split; [done|]. split; [unfold NULL; lia|].
  split; [done|]. eapply dll_set_first; [| |exact Hl].
  - intros b Hbl. eapply agree_mono; [|apply link_front_agree].
    destruct l as [|c l]; [by apply not_elem_of_nil in Hbl|]. simpl in Hl, Hbl.
    destruct Hl as (-> & _). apply NoDup_cons in Hnd as [Hac Hnd].
    apply NoDup_cons in Hnd as [Hcl _].
    assert (a + sz <= b \/ b + sz <= a).
    { apply Hs; [left|by right; right|]. intros ->. apply Hac. by right. }
    assert (c + sz <= b \/ b + sz <= c).
    { apply Hs; [right; left|by right; right|]. by intros ->. }
    intros x Hx. unfold within in *. lia.
  - intros Hnz. specialize (Hha Hnz). unfold link_front, NULL in *.
    rewrite (proj2 (Z.eqb_neq h 0)) by done. simpl. by mem_simpl.
Qed.

(** The memory after unlinking [a]: [p] and [n] are its prev and next. *)
Definition unlink (m : mem) (a : Z) : mem :=
  let p := load 8 m (a + pv) in
  let m1 := if negb (p =? NULL) then store 8 m (p + nx) (load 8 m (a + nx)) else m in
  let n := load 8 m1 (a + nx) in
  let m2 := if negb (n =? NULL) then store 8 m1 (n + pv) (load 8 m1 (a + pv)) else m1 in
  store 8 (store 8 m2 (a + nx) NULL) (a + pv) NULL.

Definition unlink_head (m : mem) (h a : Z) : Z :=
  if negb (load 8 m (a + pv) =? NULL) then h else load 8 m (a + nx).

(** Two addresses whose nodes do not overlap, unless one is NULL. *)
Definition apart (a b : Z) : Prop := a <> NULL -> b <> NULL -> a + sz <= b \/ b + sz <= a.

(** What [unlink] does, read at each place it writes, under the assumption that
    the node and its two neighbours are different nodes. *)
Lemma unlink_reads m a p n :
  load 8 m (a + pv) = p -> load 8 m (a + nx) = n -> a <> NULL ->
  apart a p -> apart a n -> apart p n ->
  agree (fun x => ~ within a sz x /\ (p <> NULL -> ~ within p sz x) /\
                  (n <> NULL -> ~ within n sz x)) m (unlink m a) /\
  (p <> NULL -> load 8 (unlink m a) (p + nx) = n /\
                load 8 (unlink m a) (p + pv) = load 8 m (p + pv)) /\
  (n <> NULL -> load 8 (unlink m a) (n + pv) = p /\
                load 8 (unlink m a) (n + nx) = load 8 m (n + nx)).
Proof.
  intros Hp Hn Ha Hap Han Hpn. unfold apart in *.
  pose proof (load64_bound m (a + pv)) as Hbp. pose proof (load64_bound m (a + nx)) as Hbn.
  unfold unlink. rewrite Hp, Hn in *. specialize (Hap Ha). specialize (Han Ha).
  destruct (Z.eqb_spec p NULL) as [Hp0|Hp0]; [clear Hap Hpn|specialize (Hap Hp0); specialize (Hpn Hp0)].
  all: cbn [negb].
  2: rewrite ?(load_store_ne 8 8 m (a + nx)), ?(load_store_ne 8 8 m (a + pv)) by lia.
  all:  rewrite ?Hn, ?Hp.
  all:  (destruct (Z.eqb_spec n NULL) as [Hn0|Hn0]; [clear Han|specialize (Han Hn0)]);
    try specialize (Hpn Hn0); cbn [negb]; (split; [|split]).
  all: try (intros ?; congruence).
  all: try (intros x Hx; unfold within in *; rewrite !mget_store_out by (unfold within; lia); done).
  all: intros _; split; mem_simpl; done.
Qed.

(** The neighbours of a node in the middle of a list. *)
Lemma dll_middle m h l1 a l2 :
  dll nx pv m NULL h (l1 ++ a :: l2) ->
  exists q, dseg m NULL h l1 q a /\ load 8 m (a + pv) = q /\ a <> NULL /\ dll nx pv m a (load 8 m (a + nx)) l2 /\
    (l1 = [] /\ q = NULL /\ h = a \/ exists l0, l1 = l0 ++ [q] /\ q <> NULL).
Proof.
  rewrite dll_dseg. setoid_rewrite dseg_app. simpl.
  intros (q & q1 & e1 & H1 & -> & Ha & Hp & H2).
  exists q1. split; [done|]. split; [done|]. split; [done|].
  split; [rewrite dll_dseg; eauto|].
  destruct l1 as [|b l1 _] using rev_ind; simpl in H1; [left; naive_solver|].
  right. rewrite dseg_app in H1. destruct H1 as (q2 & e2 & _ & -> & Hb & _ & _ & ->).
  eauto.
Qed.

Lemma separated_apart l b c :
  separated l -> (b = NULL \/ b ∈ l) -> (c = NULL \/ c ∈ l) -> b <> c -> apart b c.
Proof. intros [_ Hs] [->|Hb] [->|Hc] Hne; intros ??; try done. by apply Hs. Qed.

(** The facts an unlinking needs: the node's neighbours [q] and [n] are NULL or
    nodes of the two halves of the list, and all three are different. *)
Lemma unlink_neighbours m h l1 a l2 :
  separated (l1 ++ a :: l2) -> NoDup (l1 ++ a :: l2) -> dll nx pv m NULL h (l1 ++ a :: l2) ->
  let q := load 8 m (a + pv) in let n := load 8 m (a + nx) in
  (q = NULL \/ q ∈ l1) /\ (n = NULL \/ n ∈ l2) /\ a <> NULL /\ a <> q /\ a <> n /\
  apart a q /\ apart a n /\ apart q n.
Proof.
  intros Hsep Hnd Hdll q n.
  destruct (dll_middle _ _ _ _ _ Hdll) as (q' & _ & Hq & Ha & H2 & Hl1).
  fold q in Hq. subst q'. fold n in H2.
  assert (Hqin : q = NULL \/ q ∈ l1).
  { destruct Hl1 as [(_ & -> & _)|(l0 & -> & _)]; [by left|right].
    apply elem_of_app. right. left. }
  assert (Hnin : n = NULL \/ n ∈ l2).
  { destruct l2; simpl in H2; [by left|]. destruct H2 as [-> _]. right. left. }
  apply NoDup_app in Hnd as (_ & Hd & Hnd2). apply NoDup_cons in Hnd2 as [Hal2 _].
  assert (Haq : a <> q).
  { intros Heq. destruct Hqin as [|Hq']; [congruence|].
    apply (Hd q); [done|]. rewrite <- Heq. left. }
  assert (Han : a <> n) by (intros Heq; destruct Hnin; congruence).
  assert (Hqn : q <> NULL -> q <> n).
  { intros Hq0 Heq. destruct Hqin as [|Hq']; [done|].
    destruct Hnin as [Hn0|Hn']; [congruence|]. apply (Hd q); [done|]. rewrite Heq. by right. }
  assert (HqL : q = NULL \/ q ∈ l1 ++ a :: l2) by (destruct Hqin; eauto with inlist).
  assert (HnL : n = NULL \/ n ∈ l1 ++ a :: l2) by (destruct Hnin; eauto with inlist).
  assert (HaL : a = NULL \/ a ∈ l1 ++ a :: l2) by (eauto with inlist).
  do 5 (split; [done|]). split; [by eapply separated_apart|].
  split; [by eapply separated_apart|]. intros Hq0 Hn0. eapply separated_apart; eauto.
Qed.

Lemma unlink_agree m h l1 a l2 :
  separated (l1 ++ a :: l2) -> NoDup (l1 ++ a :: l2) -> dll nx pv m NULL h (l1 ++ a :: l2) ->
  agree (outside (l1 ++ a :: l2)) m (unlink m a).
Proof.
  intros Hsep Hnd Hdll.
  destruct (unlink_neighbours m h l1 a l2) as (Hqin & Hnin & Ha & _ & _ & Haq & Han & Hqn); try done.
  destruct (unlink_reads m a _ _ eq_refl eq_refl Ha Haq Han Hqn) as (Hag & _ & _).
  eapply agree_mono; [|exact Hag]. intros x Hx. unfold outside in Hx.
  split; [|split]; intros; apply Hx; try destruct Hqin; try destruct Hnin; try done; eauto with inlist.
Qed.

(** A node that is neither the unlinked one nor a neighbour keeps its bytes. *)
Lemma unlink_other m h l1 a l2 b :
  separated (l1 ++ a :: l2) -> NoDup (l1 ++ a :: l2) -> dll nx pv m NULL h (l1 ++ a :: l2) ->
  b ∈ l1 ++ a :: l2 -> b <> a -> b <> load 8 m (a + pv) -> b <> load 8 m (a + nx) ->
  agree (within b sz) m (unlink m a).
Proof.
  intros Hsep Hnd Hdll Hb Hba Hbq Hbn.
  destruct (unlink_neighbours m h l1 a l2) as (Hqin & Hnin & Ha & _ & _ & Haq & Han & Hqn); try done.
  destruct (unlink_reads m a _ _ eq_refl eq_refl Ha Haq Han Hqn) as (Hag & _ & _).
  assert (apart b a) as H3.
  { eapply separated_apart; [done|by right| |done].
    try destruct Hqin; try destruct Hnin; eauto with inlist. }
  assert (apart b (load 8 m (a + pv))) as H4.
  { eapply separated_apart; [done|by right| |done].
    try destruct Hqin; try destruct Hnin; eauto with inlist. }
  assert (apart b (load 8 m (a + nx))) as H5.
  { eapply separated_apart; [done|by right| |done].
    try destruct Hqin; try destruct Hnin; eauto with inlist. }
  assert (b <> NULL) as Hb0.
  { destruct Hsep as [Hs _]. destruct (Hs b Hb). unfold NULL. lia. }
  eapply agree_mono; [|exact Hag]. intros x Hx. unfold apart in *.
  specialize (H3 Hb0 Ha). specialize (H4 Hb0). specialize (H5 Hb0).
  clear Hag Hsep Hnd Hdll Haq Han Hqn Hqin Hnin. unfold within in *.
  split; [lia|]. split; intros Hn; [specialize (H4 Hn)|specialize (H5 Hn)]; lia.
Qed.

Lemma unlink_dll m h l1 a l2 :
  separated (l1 ++ a :: l2) -> NoDup (l1 ++ a :: l2) -> dll nx pv m NULL h (l1 ++ a :: l2) ->
  dll nx pv (unlink m a) NULL (unlink_head m h a) (l1 ++ l2).
Proof.
  intros Hsep Hnd Hdll.
  destruct (unlink_neighbours m h l1 a l2) as (Hqin & Hnin & Ha & Haq' & Han' & Haq & Han & Hqn); try done.
  destruct (dll_middle _ _ _ _ _ Hdll) as (q' & H1 & Hq' & _ & H2 & Hl1).
  assert (Hoth := fun b => unlink_other m h l1 a l2 b Hsep Hnd Hdll).
  destruct (unlink_reads m a _ _ eq_refl eq_refl Ha Haq Han Hqn) as (_ & Hrq & Hrn).
  assert (Hpos : forall b, b ∈ l1 ++ a :: l2 -> b <> NULL).
  { intros b Hb. destruct Hsep as [Hs _]. destruct (Hs b Hb). unfold NULL. lia. }
  clear Hdll Hsep Haq Han Hqn. unfold unlink_head. rewrite Hq' in *.
  set (n := load 8 m (a + nx)) in *.
  apply NoDup_app in Hnd as (Hnd1 & Hd & Hnd2). apply NoDup_cons in Hnd2 as [Hal2 Hnd2].
  assert (Hrest : dll nx pv (unlink m a) q' n l2).
  { eapply dll_set_first; [| |exact H2].
    - intros b Hb. destruct l2 as [|c l2']; simpl in Hb, H2; [by apply not_elem_of_nil in Hb|].
      destruct H2 as [Hn _]. apply NoDup_cons in Hnd2 as [Hc _].
      apply Hoth; [eauto with inlist| | |congruence].
      + intros ->. apply Hal2. by right.
      + intros ->. destruct Hqin as [Hz|Hq1]; [|apply (Hd q'); [done|right; by right]].
        apply (Hpos q'); [eauto with inlist|done].
    - intros Hn0. by destruct (Hrn Hn0) as [-> ->]. }
  destruct Hl1 as [(-> & -> & ->)|(l0 & -> & Hq0)]; simpl; [done|].
  rewrite (proj2 (Z.eqb_neq q' NULL)) by done. simpl.
  rewrite dll_dseg in Hrest |- *. destruct Hrest as (e & Hrest). exists e.
  rewrite dseg_app. exists q', n. split; [|done].
  destruct (Hrq Hq0) as [Hr1 Hr2].
  eapply dseg_set_last; [| exact Hr2 | exact Hr1 | exact H1].
  intros b Hb. apply NoDup_app in Hnd1 as (_ & Hd0 & _).
  apply Hoth; [eauto with inlist| | |].
  - intros ->. apply (Hd a); [eauto with inlist|left].
  - intros ->. apply (Hd0 q'); [done|left].
  - intros ->. destruct Hnin as [Hz|Hn']; [|apply (Hd n); [eauto with inlist|by right]].
    apply (Hpos n); [eauto with inlist|done].
Qed.
End dlist.
