(* ===== verification/Buddy.v ===== *)
(** kernel/mm/buddy.c: the buddy allocator of physical pages.  Definitions only;
    their invariant and theorems are in BuddyInv and BuddyThms. *)
From S2P Require Import Prelude Machine.

(** ** Page arithmetic *)

Definition BITMAP_SIZE : Z := 1024 * 1024.

Definition pages_to_bytes (pages : Z) : Z := u64 (pages * BUDDY_PAGE_SIZE).
Definition bytes_to_pages (bytes : Z) : Z := u64 (bytes + BUDDY_PAGE_SIZE - 1) / BUDDY_PAGE_SIZE.

Definition addr_to_page_index (b : buddy_st) (addr : Z) : Z :=
  u64 (addr - g_memory_start b) / BUDDY_PAGE_SIZE.
Definition page_index_to_addr (b : buddy_st) (index : Z) : Z :=
  u64 (g_memory_start b + u64 (index * BUDDY_PAGE_SIZE)).

(** [1ULL << order], for the orders 0..10 the code uses. *)
Definition order_size (order : Z) : Z := Z.shiftl 1 order.

Definition get_buddy_address (b : buddy_st) (addr order : Z) : Z :=
  let page_index := addr_to_page_index b addr in
  let buddy_index := Z.lxor page_index (order_size order) in
  page_index_to_addr b buddy_index.

(** ** The allocation bitmap *)

Definition bitmap_byte (b : buddy_st) (i : Z) : Z := default 0 (g_allocation_bitmap b !! i).

Definition set_bitmap_byte (i v : Z) (b : buddy_st) : buddy_st :=
  mkBuddy (g_zones b) (g_memory_start b) (g_memory_size b) (<[i := v]> (g_allocation_bitmap b)).

Definition set_bit (page_index : Z) (b : buddy_st) : buddy_st :=
  let byte_index := page_index / 8 in
  let bit_index := page_index mod 8 in
  if byte_index <? BITMAP_SIZE then
    set_bitmap_byte byte_index (u8 (Z.lor (bitmap_byte b byte_index) (Z.shiftl 1 bit_index))) b
  else b.

Definition clear_bit (page_index : Z) (b : buddy_st) : buddy_st :=
  let byte_index := page_index / 8 in
  let bit_index := page_index mod 8 in
  if byte_index <? BITMAP_SIZE then
    set_bitmap_byte byte_index
      (u8 (Z.land (bitmap_byte b byte_index) (Z.lnot (Z.shiftl 1 bit_index)))) b
  else b.

(** The [order] argument of both functions is not used. *)
Definition set_allocation_bit (page_index order : Z) : K unit :=
  modify (fun s => set_buddy (set_bit page_index (k_buddy s)) s).
Definition clear_allocation_bit (page_index order : Z) : K unit :=
  modify (fun s => set_buddy (clear_bit page_index (k_buddy s)) s).

Definition test_allocation_bit (b : buddy_st) (page_index : Z) : bool :=
  let byte_index := page_index / 8 in
  let bit_index := page_index mod 8 in
  if byte_index <? BITMAP_SIZE then
    Z.land (Z.shiftr (bitmap_byte b byte_index) bit_index) 1 =? 1
  else false.

(** ** Intrusive lists: [next] at offset 0, [prev] at offset 8 of a block.
    The C functions take [head] by reference; here the new head is returned. *)

Definition list_add (head block : Z) : K Z :=
  store64 block head ;;
  store64 (block + 8) NULL ;;
  when (negb (head =? NULL)) (store64 (head + 8) block) ;;
  mret block.

Definition list_remove (head block : Z) : K Z :=
  prev ← load64 (block + 8);
  head' ← (if negb (prev =? NULL)
           then next ← load64 block; store64 prev next ;; mret head
           else load64 block);
  next ← load64 block;
  when (negb (next =? NULL)) (prev ← load64 (block + 8); store64 (next + 8) prev) ;;
  store64 block NULL ;;
  store64 (block + 8) NULL ;;
  mret head'.

(** ** Zones *)

Definition zone0 : buddy_zone := mkZone [] [] 0 0 0 0 0.

Definition get_zone (b : buddy_st) (t : Z) : buddy_zone := nth (Z.to_nat t) (g_zones b) zone0.
Definition put_zone (t : Z) (z : buddy_zone) (b : buddy_st) : buddy_st :=
  mkBuddy (<[Z.to_nat t := z]> (g_zones b)) (g_memory_start b) (g_memory_size b)
          (g_allocation_bitmap b).
Definition upd_zone (t : Z) (f : buddy_zone -> buddy_zone) (s : kst) : kst :=
  set_buddy (put_zone t (f (get_zone (k_buddy s) t)) (k_buddy s)) s.

Definition zone_head (z : buddy_zone) (o : Z) : Z := nth (Z.to_nat o) (free_lists z) NULL.
Definition zone_count (z : buddy_zone) (o : Z) : Z := nth (Z.to_nat o) (free_counts z) 0.

Definition set_head (o h : Z) (z : buddy_zone) : buddy_zone :=
  mkZone (<[Z.to_nat o := h]> (free_lists z)) (free_counts z) (total_pages z) (free_pages z)
         (base_address z) (map_size z) (zone_lock z).
Definition set_count (o c : Z) (z : buddy_zone) : buddy_zone :=
  mkZone (free_lists z) (<[Z.to_nat o := c]> (free_counts z)) (total_pages z) (free_pages z)
         (base_address z) (map_size z) (zone_lock z).
Definition set_total_pages (p : Z) (z : buddy_zone) : buddy_zone :=
  mkZone (free_lists z) (free_counts z) p (free_pages z) (base_address z) (map_size z) (zone_lock z).
Definition set_free_pages (p : Z) (z : buddy_zone) : buddy_zone :=
  mkZone (free_lists z) (free_counts z) (total_pages z) p (base_address z) (map_size z) (zone_lock z).
Definition set_zone_lock (l : Z) (z : buddy_zone) : buddy_zone :=
  mkZone (free_lists z) (free_counts z) (total_pages z) (free_pages z) (base_address z) (map_size z) l.

Definition zone_acquire (t : Z) : K unit :=
  acquire_var (fun s => zone_lock (get_zone (k_buddy s) t)) (fun l => upd_zone t (set_zone_lock l)).
Definition zone_release (t : Z) : K unit :=
  release_var (fun l => upd_zone t (set_zone_lock l)).

(** [list_add(&zone->free_lists[o], block); zone->free_counts[o]++] *)
Definition zone_push (t o block : Z) : K unit :=
  h ← gets (fun s => zone_head (get_zone (k_buddy s) t) o);
  h' ← list_add h block;
  modify (upd_zone t (set_head o h')) ;;
  modify (upd_zone t (fun z => set_count o (u64 (zone_count z o + 1)) z)).

(** [list_remove(&zone->free_lists[o], block); zone->free_counts[o]--] *)
Definition zone_unlink (t o block : Z) : K unit :=
  h ← gets (fun s => zone_head (get_zone (k_buddy s) t) o);
  h' ← list_remove h block;
  modify (upd_zone t (set_head o h')) ;;
  modify (upd_zone t (fun z => set_count o (u64 (zone_count z o - 1)) z)).

(** ** Initialisation *)

(** The inner loop of [buddy_init]: the largest order, from 10 down, whose block
    fits in the remaining pages and is aligned at the current page. *)
Fixpoint init_order (order : nat) (page_index remaining : Z) : Z :=
  match order with
  | O => 0
  | S o =>
      let order_pages := order_size (Z.of_nat order) in
      if (remaining <? order_pages) || negb (Z.land page_index (order_pages - 1) =? 0)
      then init_order o page_index remaining
      else Z.of_nat order
  end.

Definition reset_zone (memory_start : Z) (z : buddy_zone) : buddy_zone :=
  mkZone (replicate 11 NULL) (replicate 11 0) 0 0 memory_start BITMAP_SIZE 0.

Definition init_body : Z * Z -> K ((Z * Z) + unit) := fun '(current_addr, remaining_pages) =>
  if 0 <? remaining_pages then
    b ← gets k_buddy;
    let order := init_order 10 (addr_to_page_index b current_addr) remaining_pages in
    let order_pages := order_size order in
    zone_push BUDDY_ZONE_UNMOVABLE order current_addr ;;
    mret (inl (u64 (current_addr + pages_to_bytes order_pages), u64 (remaining_pages - order_pages)))
  else mret (inr tt).

(** The loop that clears the 1 MiB static bitmap is the empty map: a byte that
    is not in the map is 0. *)
Definition buddy_init (memory_start memory_size : Z) : K unit :=
  modify (fun s => set_buddy (mkBuddy (g_zones (k_buddy s)) memory_start memory_size ∅) s) ;;
  for_range 0 BUDDY_ZONE_COUNT (fun z => modify (upd_zone z (reset_zone memory_start))) ;;
  let total := bytes_to_pages memory_size in
  modify (upd_zone BUDDY_ZONE_UNMOVABLE (set_total_pages total)) ;;
  modify (upd_zone BUDDY_ZONE_UNMOVABLE (set_free_pages total)) ;;
  while (memory_start, total) init_body.

(** ** Allocation *)

(** First loop of [buddy_alloc_pages]: the first order with a free block. *)
Definition find_order_body (t : Z) (current_order : Z) : K (Z + Z) :=
  if current_order <=? BUDDY_MAX_ORDER then
    h ← gets (fun s => zone_head (get_zone (k_buddy s) t) current_order);
    mret (if h =? NULL then inl (current_order + 1) else inr current_order)
  else mret (inr current_order).

(** Second loop: give back the upper half until the block has the wanted order. *)
Definition split_body (t order block : Z) (current_order : Z) : K (Z + unit) :=
  if order <? current_order then
    let current_order := current_order - 1 in
    let buddy_addr := u64 (block + pages_to_bytes (order_size current_order)) in
    zone_push t current_order buddy_addr ;;
    mret (inl current_order)
  else mret (inr tt).

Definition buddy_alloc_pages (order zone_type : Z) : K Z :=
  if BUDDY_MAX_ORDER <? order then mret 0 else
  let t := if BUDDY_ZONE_COUNT <=? zone_type then BUDDY_ZONE_UNMOVABLE else zone_type in
  zone_acquire t ;;
  current_order ← while order (find_order_body t);
  if BUDDY_MAX_ORDER <? current_order then zone_release t ;; mret 0 else
  block ← gets (fun s => zone_head (get_zone (k_buddy s) t) current_order);
  zone_unlink t current_order block ;;
  while current_order (split_body t order block) ;;
  b ← gets k_buddy;
  set_allocation_bit (addr_to_page_index b block) order ;;
  modify (upd_zone t (fun z => set_free_pages (u64 (free_pages z - order_size order)) z)) ;;
  zone_release t ;;
  mret block.

(** ** Deallocation *)

(** The search of a free list for the buddy. *)
Definition find_body (buddy_addr : Z) (current : Z) : K (Z + Z) :=
  if current =? NULL then mret (inr NULL)
  else if current =? buddy_addr then mret (inr current)
  else next ← load64 current; mret (inl next).

Definition out_of_range (b : buddy_st) (addr : Z) : bool :=
  (addr <? g_memory_start b) || (u64 (g_memory_start b + g_memory_size b) <=? addr).

Definition merge_body (t : Z) : Z * Z -> K ((Z * Z) + (Z * Z)) := fun '(current_addr, current_order) =>
  if current_order <? BUDDY_MAX_ORDER then
    b ← gets k_buddy;
    let buddy_addr := get_buddy_address b current_addr current_order in
    if out_of_range b buddy_addr then mret (inr (current_addr, current_order)) else
    if test_allocation_bit b (addr_to_page_index b buddy_addr)
    then mret (inr (current_addr, current_order)) else
    buddy_block ← while (zone_head (get_zone b t) current_order) (find_body buddy_addr);
    if buddy_block =? NULL then mret (inr (current_addr, current_order)) else
    zone_unlink t current_order buddy_block ;;
    mret (inl (if buddy_addr <? current_addr then buddy_addr else current_addr, current_order + 1))
  else mret (inr (current_addr, current_order)).

Definition buddy_free_pages (address order : Z) : K unit :=
  if BUDDY_MAX_ORDER <? order then mret tt else
  if address =? 0 then mret tt else
  b ← gets k_buddy;
  if out_of_range b address then mret tt else
  if negb (address mod BUDDY_PAGE_SIZE =? 0) then mret tt else
  let t := BUDDY_ZONE_UNMOVABLE in
  zone_acquire t ;;
  clear_allocation_bit (addr_to_page_index b address) order ;;
  r ← while (address, order) (merge_body t);
  let '(current_addr, current_order) := r in
  zone_push t current_order current_addr ;;
  modify (upd_zone t (fun z => set_free_pages (u64 (free_pages z + order_size order)) z)) ;;
  zone_release t.

(** ** Statistics *)

Definition sum_zones (f : buddy_zone -> Z) : K Z :=
  for_fold 3 0 0 (fun z total =>
    zone_acquire z ;;
    v ← gets (fun s => f (get_zone (k_buddy s) z));
    zone_release z ;;
    mret (u64 (total + v))).

Definition buddy_get_free_pages : K Z := sum_zones free_pages.
Definition buddy_get_total_pages : K Z := sum_zones total_pages.

(** [free_count] is a non-null pointer; [None] means it was not written. *)
Definition buddy_get_order_stats (order : Z) : K (option Z) :=
  if BUDDY_MAX_ORDER <? order then mret None else
  c ← sum_zones (fun z => zone_count z order); mret (Some c).

(** ** Allocation with GFP flags (include/mm/gfp.h) *)

Definition GFP_KERNEL : Z := 0x00.
Definition GFP_ATOMIC : Z := 0x01.
Definition GFP_NOWAIT : Z := 0x02.
Definition GFP_ZERO : Z := 0x04.
Definition GFP_DMA : Z := 0x08.
Definition GFP_UNMOVABLE : Z := 0x00.
Definition GFP_RECLAIMABLE : Z := 0x10.
Definition GFP_MOVABLE : Z := 0x20.

Definition GFP_KERNEL_ZERO : Z := Z.lor GFP_KERNEL GFP_ZERO.
Definition GFP_ATOMIC_ZERO : Z := Z.lor GFP_ATOMIC GFP_ZERO.
Definition GFP_ZONE_MASK : Z := 0x30.
Definition GFP_GET_ZONE (flags : Z) : Z :=
  if negb (Z.land flags GFP_MOVABLE =? 0) then BUDDY_ZONE_MOVABLE
  else if negb (Z.land flags GFP_RECLAIMABLE =? 0) then BUDDY_ZONE_RECLAIMABLE
  else BUDDY_ZONE_UNMOVABLE.

(** The zone [buddy_alloc_pages_flags] selects. *)
Definition gfp_zone (flags : Z) : Z :=
  if negb (Z.land flags GFP_MOVABLE =? 0) then BUDDY_ZONE_MOVABLE
  else if negb (Z.land flags GFP_RECLAIMABLE =? 0) then BUDDY_ZONE_RECLAIMABLE
  else BUDDY_ZONE_UNMOVABLE.

Definition buddy_alloc_pages_flags (order flags : Z) : K Z :=
  addr ← buddy_alloc_pages order (gfp_zone flags);
  if addr =? 0 then mret 0 else
  when (negb (Z.land flags GFP_ZERO =? 0))
    (for_range 0 (u64 (order_size order * BUDDY_PAGE_SIZE)) (fun i => store8 (addr + i) 0)) ;;
  mret addr.

(** ** Diagnostics.  The functions compute figures they do not print or return. *)

(** The bounded walk of [buddy_dump_zone]: at most 100 nodes. *)
Definition dump_walk : Z * Z -> K ((Z * Z) + Z) := fun '(current, block_count) =>
  if negb (current =? NULL) && (block_count <? 100) then
    next ← load64 current;
    mret (inl (next, block_count + 1))
  else mret (inr block_count).

Definition buddy_dump_zone (zone_type : Z) : K unit :=
  if BUDDY_ZONE_COUNT <=? zone_type then mret tt else
  zone_acquire zone_type ;;
  for_range 0 (BUDDY_MAX_ORDER + 1) (fun order =>
    z ← gets (fun s => get_zone (k_buddy s) zone_type);
    when (0 <? zone_count z order)
      (_ ← while (zone_head z order, 0) dump_walk; mret tt)) ;;
  zone_release zone_type.

Definition buddy_dump_stats : K unit :=
  total ← buddy_get_total_pages;
  free ← buddy_get_free_pages;
  for_range 0 (BUDDY_MAX_ORDER + 1) (fun order => _ ← buddy_get_order_stats order; mret tt) ;;
  for_range 0 BUDDY_ZONE_COUNT (fun z => zone_acquire z ;; zone_release z).
