(* ===== verification/BuddyInv.v ===== *)
(** The invariant of the buddy allocator and the two moves every operation is
    made of: linking a block into a free list and unlinking one from it. *)
From S2P Require Import Prelude Machine DList Buddy.

(** ** Blocks *)

(** Bytes of a block of order [o]. *)
Definition sz (o : Z) : Z := 4096 * 2 ^ o.

(** A block at [a] of order [o] in a region of [n] pages from [st]: inside the
    region and aligned to its size, counted from the start of the region. *)
Definition blk_ok (st n a o : Z) : Prop :=
  0 <= o <= 10 /\ st <= a /\ (a - st) mod sz o = 0 /\ a + sz o <= st + 4096 * n.

Definition disj (a o a' o' : Z) : Prop := a + sz o <= a' \/ a' + sz o' <= a.

(** The region: page aligned, not at address 0, and below the end of the address
    space. *)
Definition geo (st n : Z) : Prop :=
  0 < st /\ st mod 4096 = 0 /\ 0 <= n /\ st + 4096 * n < 2 ^ 64.

Lemma order_size_pow o : 0 <= o -> order_size o = 2 ^ o.
Proof. intros. unfold order_size. rewrite Z.shiftl_mul_pow2 by lia. lia. Qed.

Lemma pow2_orders o : 0 <= o <= 10 -> 1 <= 2 ^ o <= 1024.
Proof.
  intros. split; [apply (Z.pow_le_mono_r 2 0 o); lia|].
  apply (Z.pow_le_mono_r 2 o 10); lia.
Qed.
Lemma sz_orders o : 0 <= o <= 10 -> 4096 <= sz o <= 4194304.
Proof. intros. unfold sz. pose proof (pow2_orders o). lia. Qed.
Lemma sz_succ o : 0 <= o -> sz (o + 1) = 2 * sz o.
Proof. intros. unfold sz. rewrite Z.pow_add_r by lia. lia. Qed.

Lemma pages_to_bytes_order o : 0 <= o <= 10 -> pages_to_bytes (order_size o) = sz o.
Proof.
  intros. unfold pages_to_bytes, sz, BUDDY_PAGE_SIZE. rewrite order_size_pow by lia.
  pose proof (pow2_orders o). usimpl. lia.
Qed.

(** ** Ghost view: [fl t o] is the free list of order [o] of zone [t]. *)
Abbreviation lists := (Z -> Z -> list Z).

Definition fupd (fl : lists) (t o : Z) (l : list Z) : lists :=
  fun t' o' => if (t' =? t) && (o' =? o) then l else fl t' o'.

Lemma fupd_eq fl t o l : fupd fl t o l t o = l.
Proof. unfold fupd. by rewrite !Z.eqb_refl. Qed.
Lemma fupd_ne fl t o l t' o' : (t', o') <> (t, o) -> fupd fl t o l t' o' = fl t' o'.
Proof.
  intros H. unfold fupd. destruct (Z.eqb_spec t' t), (Z.eqb_spec o' o); simpl; congruence.
Qed.
Lemma fupd_cases fl t o l t' o' :
  (t' = t /\ o' = o /\ fupd fl t o l t' o' = l) \/
  ((t', o') <> (t, o) /\ fupd fl t o l t' o' = fl t' o').
Proof.
  destruct (decide ((t', o') = (t, o))) as [[= -> ->]|Hne].
  - left. by rewrite fupd_eq.
  - right. by rewrite fupd_ne.
Qed.

(** The bytes held by the free lists. *)
Definition covered (fl : lists) (x : Z) : Prop :=
  exists t o a, a ∈ fl t o /\ within a (sz o) x.

Record blocks_ok (st n : Z) (fl : lists) : Prop := {
  bo_ok t o a : a ∈ fl t o -> 0 <= t < 3 /\ blk_ok st n a o;
  bo_nodup t o : NoDup (fl t o);
  bo_disj t o a t' o' a' :
    a ∈ fl t o -> a' ∈ fl t' o' -> (t, o, a) <> (t', o', a') -> disj a o a' o'
}.

(** A block that belongs to no free list. *)
Definition held (st n : Z) (fl : lists) (a o : Z) : Prop :=
  blk_ok st n a o /\ forall t' o' a', a' ∈ fl t' o' -> disj a o a' o'.

Lemma blk_ok_addr st n a o : geo st n -> blk_ok st n a o ->
  0 < a /\ a + sz o < 2 ^ 64 /\ a mod 4096 = 0.
Proof.
  intros (Hst & Hm & Hn & Hb) (Ho & Ha & Hmod & Hle). pose proof (sz_orders o Ho).
  split; [lia|]. split; [lia|].
  assert (Hd : (4096 | a - st)).
  { apply (Z.divide_trans _ (sz o)); [|by apply Z.mod_divide; [lia|]].
    exists (2 ^ o). unfold sz. lia. }
  replace a with ((a - st) + st) by lia. rewrite Z.add_mod by lia.
  apply Z.mod_divide in Hd; [|lia]. by rewrite Hd, Hm.
Qed.

Section blocks.
Context (st n : Z) (fl : lists).
Hypothesis Hgeo : geo st n.
Hypothesis Hok : blocks_ok st n fl.

Lemma push_blocks t o a :
  0 <= t < 3 -> held st n fl a o -> blocks_ok st n (fupd fl t o (a :: fl t o)).
Proof.
  intros Ht [Hb Hd]. pose proof (sz_orders o (proj1 Hb)) as Hsz. split.
  - intros t' o' a' Hin. destruct (fupd_cases fl t o (a :: fl t o) t' o') as [(-> & -> & E)|[_ E]];
      rewrite E in Hin; [|by apply Hok].
    apply elem_of_cons in Hin as [->|Hin]; [done|by apply Hok].
  - intros t' o'. destruct (fupd_cases fl t o (a :: fl t o) t' o') as [(-> & -> & ->)|[_ ->]];
      [|by apply Hok].
    apply NoDup_cons. split; [|by apply Hok].
    intros Hin. specialize (Hd _ _ _ Hin). unfold disj in Hd. lia.
  - assert (Hsym : forall x p y q, disj x p y q -> disj y q x p) by (unfold disj; lia).
    assert (Hmem : forall t' o' a', a' ∈ fupd fl t o (a :: fl t o) t' o' ->
              (t', o', a') = (t, o, a) \/ a' ∈ fl t' o').
    { intros t' o' a' Hin.
      destruct (fupd_cases fl t o (a :: fl t o) t' o') as [(-> & -> & E)|[_ E]];
        rewrite E in Hin; [|by right].
      apply elem_of_cons in Hin as [->|Hin]; [by left|by right]. }
    intros t1 o1 a1 t2 o2 a2 H1 H2 Hne.
    destruct (Hmem _ _ _ H1) as [[= -> -> ->]|H1'], (Hmem _ _ _ H2) as [[= -> -> ->]|H2'].
    + done.
    + by eapply Hd.
    + apply Hsym. by eapply Hd.
    + by eapply bo_disj.
Qed.

Lemma covered_push t o a x :
  covered (fupd fl t o (a :: fl t o)) x <-> covered fl x \/ within a (sz o) x.
Proof.
  split.
  - intros (t' & o' & b & Hin & Hx).
    destruct (fupd_cases fl t o (a :: fl t o) t' o') as [(-> & -> & E)|[_ E]]; rewrite E in Hin.
    + apply elem_of_cons in Hin as [->|Hin]; [by right|]. left. by exists t, o, b.
    + left. by exists t', o', b.
  - intros [(t' & o' & b & Hin & Hx)|Hx].
    + exists t', o', b. split; [|done].
      destruct (fupd_cases fl t o (a :: fl t o) t' o') as [(-> & -> & ->)|[_ ->]]; [by right|done].
    + exists t, o, a. rewrite fupd_eq. split; [left|done].
Qed.

Section unlink.
Context (t o a : Z) (l1 l2 : list Z).
Hypothesis Hl : fl t o = l1 ++ a :: l2.

Lemma unlink_in : a ∈ fl t o.
Proof. rewrite Hl. eauto with inlist. Qed.

Lemma unlink_sub t' o' b : b ∈ fupd fl t o (l1 ++ l2) t' o' ->
  b ∈ fl t' o' /\ (t', o', b) <> (t, o, a).
Proof.
  intros Hin. destruct (fupd_cases fl t o (l1 ++ l2) t' o') as [(-> & -> & E)|[Hne E]];
    rewrite E in Hin; [|split; [done|congruence]].
  pose proof (bo_nodup _ _ _ Hok t o) as Hnd. rewrite Hl in Hnd |- *.
  apply NoDup_app in Hnd as (_ & Hd & Hnd). apply NoDup_cons in Hnd as [Hn2 _].
  apply elem_of_app in Hin as [Hin|Hin]; (split; [eauto with inlist|]); intros [= ->].
  - apply (Hd a); [done|left].
  - done.
Qed.

Lemma unlink_blocks : blocks_ok st n (fupd fl t o (l1 ++ l2)).
Proof.
  split.
  - intros t' o' b Hb. apply unlink_sub in Hb as [Hb _]. by apply Hok.
  - intros t' o'. destruct (fupd_cases fl t o (l1 ++ l2) t' o') as [(-> & -> & ->)|[_ ->]];
      [|by apply Hok].
    pose proof (bo_nodup _ _ _ Hok t o) as Hnd. rewrite Hl in Hnd.
    rewrite NoDup_app in Hnd |- *. destruct Hnd as (H1 & Hd & H2).
    apply NoDup_cons in H2 as [_ H2]. split; [done|]. split; [|done].
    intros x Hx Hx2. apply (Hd x Hx). by right.
  - intros t1 o1 a1 t2 o2 a2 H1 H2 Hne.
    apply unlink_sub in H1 as [H1 _]. apply unlink_sub in H2 as [H2 _].
    by eapply bo_disj.
Qed.

Lemma unlink_held : held st n (fupd fl t o (l1 ++ l2)) a o.
Proof.
  split; [by eapply Hok, unlink_in|].
  intros t' o' b Hb. apply unlink_sub in Hb as [Hb Hne].
  eapply bo_disj; [done|apply unlink_in|done|congruence].
Qed.

Lemma covered_unlink x :
  covered fl x <-> covered (fupd fl t o (l1 ++ l2)) x \/ within a (sz o) x.
Proof.
  split.
  - intros (t' & o' & b & Hin & Hx).
    destruct (decide ((t', o') = (t, o))) as [[= -> ->]|Hne].
    + rewrite Hl in Hin. destruct (decide (b = a)) as [->|Hba]; [by right|].
      left. exists t, o, b. rewrite fupd_eq. split; [|done].
      apply elem_of_app in Hin as [Hin|Hin]; [eauto with inlist|].
      apply elem_of_cons in Hin as [->|Hin]; [done|eauto with inlist].
    + left. exists t', o', b. by rewrite fupd_ne.
  - intros [(t' & o' & b & Hin & Hx)|Hx].
    + apply unlink_sub in Hin as [Hin _]. by exists t', o', b.
    + exists t, o, a. split; [apply unlink_in|done].
Qed.
End unlink.

(** Nodes of one list satisfy the side conditions of the DList lemmas. *)
Lemma list_separated t o : separated 16 (fl t o).
Proof.
  split.
  - intros a Ha. destruct (bo_ok _ _ _ Hok _ _ _ Ha) as [_ Hb].
    pose proof (blk_ok_addr _ _ _ _ Hgeo Hb). pose proof (sz_orders o (proj1 Hb)). lia.
  - intros a b Ha Hb Hne. destruct (bo_ok _ _ _ Hok _ _ _ Ha) as [_ Hba].
    pose proof (sz_orders o (proj1 Hba)).
    assert (disj a o b o) as Hd by (eapply bo_disj; [done|exact Ha|exact Hb|congruence]).
    unfold disj in Hd. lia.
Qed.

(** A free list never holds more blocks than the region has pages. *)
Lemma list_length_bound t o : Z.of_nat (length (fl t o)) <= n.
Proof.
  destruct Hgeo as (Hst & _ & Hn & _).
  assert (Hinc : map (fun a => (a - st) / 4096) (fl t o) ⊆ seqZ 0 n).
  { intros p Hp. apply list_elem_of_fmap in Hp as (a & -> & Ha).
    destruct (bo_ok _ _ _ Hok _ _ _ Ha) as [_ (Ho & H1 & H2 & H3)].
    pose proof (sz_orders o Ho). apply elem_of_seqZ.
    split; [apply Z.div_pos; lia|]. apply Z.div_lt_upper_bound; lia. }
  assert (Hnd : NoDup (map (fun a => (a - st) / 4096) (fl t o))).
  { apply NoDup_fmap_2_strong; [|by apply Hok].
    intros a b Ha Hb Heq. destruct (decide (a = b)) as [|Hne]; [done|].
    assert (disj a o b o) as Hd by (eapply bo_disj; [done|exact Ha|exact Hb|congruence]).
    destruct (bo_ok _ _ _ Hok _ _ _ Ha) as [_ Hba].
    destruct (bo_ok _ _ _ Hok _ _ _ Hb) as [_ Hbb].
    pose proof (sz_orders o (proj1 Hba)).
    unfold disj in Hd. exfalso.
    pose proof (Z.div_mod (a - st) 4096 ltac:(lia)). pose proof (Z.div_mod (b - st) 4096 ltac:(lia)).
    pose proof (Z.mod_pos_bound (a - st) 4096 ltac:(lia)).
    pose proof (Z.mod_pos_bound (b - st) 4096 ltac:(lia)). lia. }
  pose proof (NoDup_submseteq _ _ Hnd Hinc) as Hsub. apply submseteq_length in Hsub.
  rewrite length_fmap, length_seqZ in Hsub. lia.
Qed.
End blocks.

(** ** Zones and the state invariant *)

Record zone_inv (m : mem) (z : buddy_zone) (fz : Z -> list Z) : Prop := {
  zi_heads : length (free_lists z) = 11%nat;
  zi_counts : length (free_counts z) = 11%nat;
  zi_list o : 0 <= o <= 10 -> dll 0 8 m NULL (zone_head z o) (fz o);
  zi_count o : 0 <= o <= 10 -> zone_count z o = Z.of_nat (length (fz o))
}.

(** What holds between any two moves of an operation. *)
Record core (b : buddy_st) (m : mem) (n : Z) (fl : lists) : Prop := {
  c_geo : geo (g_memory_start b) n;
  c_size : 4096 * (n - 1) < g_memory_size b <= 4096 * n;
  c_zones : length (g_zones b) = 3%nat;
  c_blocks : blocks_ok (g_memory_start b) n fl;
  c_zone t : 0 <= t < 3 -> zone_inv m (get_zone b t) (fl t)
}.

(** The parts of the state a move does not touch. *)
Record same_meta (b b' : buddy_st) : Prop := {
  sm_start : g_memory_start b' = g_memory_start b;
  sm_size : g_memory_size b' = g_memory_size b;
  sm_bitmap : g_allocation_bitmap b' = g_allocation_bitmap b;
  sm_free t : free_pages (get_zone b' t) = free_pages (get_zone b t);
  sm_total t : total_pages (get_zone b' t) = total_pages (get_zone b t);
  sm_lock t : zone_lock (get_zone b' t) = zone_lock (get_zone b t)
}.

#[export] Instance same_meta_preorder : PreOrder same_meta.
Proof.
  split; [done|]. intros x y z [] []. split; try congruence; intros; congruence.
Qed.

Lemma get_put_zone b t t' z : length (g_zones b) = 3%nat -> 0 <= t < 3 -> 0 <= t' ->
  get_zone (put_zone t z b) t' = if t' =? t then z else get_zone b t'.
Proof.
  intros Hlen Ht Ht'. unfold get_zone, put_zone. cbn [g_zones].
  destruct (Z.eqb_spec t' t) as [->|Hne].
  - apply nth_lookup_Some. apply list_lookup_insert_eq. lia.
  - rewrite !nth_lookup, list_lookup_insert_ne by lia. done.
Qed.

Lemma put_put_zone b t z z' : put_zone t z (put_zone t z' b) = put_zone t z b.
Proof. unfold put_zone. simpl. by rewrite list_insert_insert_eq. Qed.

Lemma upd_upd_zone t f g s : length (g_zones (k_buddy s)) = 3%nat -> 0 <= t < 3 ->
  upd_zone t f (upd_zone t g s) = upd_zone t (fun z => f (g z)) s.
Proof.
  intros Hlen Ht. unfold upd_zone. cbn [k_buddy set_buddy].
  rewrite get_put_zone, Z.eqb_refl by lia. by rewrite put_put_zone.
Qed.

Lemma upd_zone_length t f s :
  length (g_zones (k_buddy (upd_zone t f s))) = length (g_zones (k_buddy s)).
Proof. unfold upd_zone, put_zone. simpl. apply length_insert. Qed.

Lemma zone_head_set z o h o' : length (free_lists z) = 11%nat -> 0 <= o <= 10 -> 0 <= o' <= 10 ->
  zone_head (set_head o h z) o' = if o' =? o then h else zone_head z o'.
Proof.
  intros Hlen Ho Ho'. unfold zone_head, set_head. cbn [free_lists].
  destruct (Z.eqb_spec o' o) as [->|Hne].
  - apply nth_lookup_Some, list_lookup_insert_eq. lia.
  - rewrite !nth_lookup, list_lookup_insert_ne by lia. done.
Qed.
Lemma zone_count_set z o c o' : length (free_counts z) = 11%nat -> 0 <= o <= 10 -> 0 <= o' <= 10 ->
  zone_count (set_count o c z) o' = if o' =? o then c else zone_count z o'.
Proof.
  intros Hlen Ho Ho'. unfold zone_count, set_count. cbn [free_counts].
  destruct (Z.eqb_spec o' o) as [->|Hne].
  - apply nth_lookup_Some, list_lookup_insert_eq. lia.
  - rewrite !nth_lookup, list_lookup_insert_ne by lia. done.
Qed.

(** ** The two moves, run *)

Lemma list_add_exec h a s :
  list_add h a s = Done a (set_mem (link_front 0 8 (k_mem s) h a) s).
Proof.
  unfold list_add, link_front, store64, when. rewrite !Z.add_0_r.
  by destruct (negb (h =? NULL)).
Qed.

Lemma list_remove_exec h a s :
  list_remove h a s = Done (unlink_head 0 8 (k_mem s) h a) (set_mem (unlink 0 8 (k_mem s) a) s).
Proof.
  unfold list_remove, unlink_head, unlink, store64, load64, when.
  unfold mbind, M_bind, gets, modify, mret, M_ret. rewrite !Z.add_0_r.
  destruct (negb (load 8 (k_mem s) (a + 8) =? NULL)); cbn [k_mem set_mem];
    destruct (negb (_ =? NULL)); reflexivity.
Qed.

Definition pushed (o a : Z) (z : buddy_zone) : buddy_zone :=
  set_count o (u64 (zone_count z o + 1)) (set_head o a z).
Definition unlinked (o h : Z) (z : buddy_zone) : buddy_zone :=
  set_count o (u64 (zone_count z o - 1)) (set_head o h z).

(** The state after a move of zone [t]. *)
Definition moved (t : Z) (f : buddy_zone -> buddy_zone) (m : mem) (s : kst) : kst :=
  set_buddy (put_zone t (f (get_zone (k_buddy s) t)) (k_buddy s)) (set_mem m s).

Lemma zone_push_exec t o a s : length (g_zones (k_buddy s)) = 3%nat -> 0 <= t < 3 ->
  zone_push t o a s =
    Done tt (moved t (pushed o a)
               (link_front 0 8 (k_mem s) (zone_head (get_zone (k_buddy s) t) o) a) s).
Proof.
  intros Hlen Ht. unfold zone_push, mbind, M_bind, gets. rewrite list_add_exec. unfold modify.
  by rewrite upd_upd_zone.
Qed.

Lemma zone_unlink_exec t o a s : length (g_zones (k_buddy s)) = 3%nat -> 0 <= t < 3 ->
  zone_unlink t o a s =
    Done tt (moved t (unlinked o (unlink_head 0 8 (k_mem s) (zone_head (get_zone (k_buddy s) t) o) a))
               (unlink 0 8 (k_mem s) a) s).
Proof.
  intros Hlen Ht. unfold zone_unlink, mbind, M_bind, gets. rewrite list_remove_exec. unfold modify.
  by rewrite upd_upd_zone.
Qed.

Lemma moved_meta t f m s :
  length (g_zones (k_buddy s)) = 3%nat -> 0 <= t < 3 ->
  (forall z, free_pages (f z) = free_pages z /\ total_pages (f z) = total_pages z /\
             zone_lock (f z) = zone_lock z) ->
  same_meta (k_buddy s) (k_buddy (moved t f m s)).
Proof.
  intros Hlen Ht Hf. destruct (Hf (get_zone (k_buddy s) t)) as (H1 & H2 & H3).
  assert (Hz : forall t', get_zone (k_buddy (moved t f m s)) t' = get_zone (k_buddy s) t' \/
             t' = t /\ get_zone (k_buddy (moved t f m s)) t' = f (get_zone (k_buddy s) t) \/
             Z.to_nat t' = Z.to_nat t /\ get_zone (k_buddy s) t' = get_zone (k_buddy s) t /\
             get_zone (k_buddy (moved t f m s)) t' = f (get_zone (k_buddy s) t)).
  { intros t'. unfold moved. cbn [k_buddy set_buddy].
    destruct (decide (0 <= t')).
    - rewrite get_put_zone by lia. destruct (Z.eqb_spec t' t); auto.
    - replace (get_zone (put_zone t (f (get_zone (k_buddy s) t)) (k_buddy s)) t')
        with (get_zone (put_zone t (f (get_zone (k_buddy s) t)) (k_buddy s)) 0)
        by (unfold get_zone; by replace (Z.to_nat t') with (Z.to_nat 0) by lia).
      replace (get_zone (k_buddy s) t') with (get_zone (k_buddy s) 0)
        by (unfold get_zone; by replace (Z.to_nat t') with (Z.to_nat 0) by lia).
      rewrite get_put_zone by lia. destruct (Z.eqb_spec 0 t) as [<-|]; [|auto].
      right; right. split; [lia|auto]. }
  split; try done; intros t'; destruct (Hz t') as [->|[(-> & ->)|(_ & -> & ->)]]; done.
Qed.

Section moves.
Context (s : kst) (n : Z) (fl : lists).
Hypothesis Hc : core (k_buddy s) (k_mem s) n fl.
Let st := g_memory_start (k_buddy s).

(** A zone invariant survives a memory change confined to bytes that are in no
    node of its lists. *)
Lemma zone_inv_frame t m' :
  0 <= t < 3 ->
  (forall o a, a ∈ fl t o -> agree (within a 16) (k_mem s) m') ->
  zone_inv m' (get_zone (k_buddy s) t) (fl t).
Proof.
  intros Ht Hag. destruct (c_zone _ _ _ _ Hc t Ht) as [H1 H2 H3 H4].
  split; [done|done| |done]. intros o Ho.
  eapply (dll_frame_nodes 0 8 16); try lia; [apply Hag|]. auto.
Qed.

(** Linking a held block. *)
Section push.
Context (t o a : Z).
Hypothesis Ht : 0 <= t < 3.
Hypothesis Hheld : held st n fl a o.
Let head := zone_head (get_zone (k_buddy s) t) o.
Let m' := link_front 0 8 (k_mem s) head a.

Lemma push_head : head <> NULL -> head ∈ fl t o.
Proof using Hc Ht Hheld.
  intros Hn. pose proof (zi_list _ _ _ (c_zone _ _ _ _ Hc t Ht) o (proj1 (proj1 Hheld))) as Hl. fold head in Hl.
  destruct (fl t o); simpl in Hl; [done|]. destruct Hl as [-> _]. left.
Qed.

Lemma push_agree : agree (fun x => ~ within a 16 x /\ (head <> NULL -> ~ within head 16 x)) (k_mem s) m'.
Proof using. apply link_front_agree; lia. Qed.

(** The nodes of the other lists are not touched. *)
Lemma push_node t' o' b : b ∈ fl t' o' -> (t', o') <> (t, o) -> agree (within b 16) (k_mem s) m'.
Proof using Hc Ht Hheld.
  intros Hb Hne. eapply agree_mono; [|exact push_agree]. intros x Hx. pose proof (c_blocks _ _ _ _ Hc) as Hblk.
  destruct (bo_ok _ _ _ Hblk _ _ _ Hb) as [_ [Ho' _]]. pose proof (sz_orders o' Ho'). pose proof (sz_orders o (proj1 (proj1 Hheld))). split.
  - pose proof (proj2 Hheld _ _ _ Hb) as Hd. unfold disj, within in *. lia.
  - intros Hn. assert (disj b o' head o) as Hd by (eapply (bo_disj _ _ _ Hblk); [exact Hb|by apply push_head|congruence]).
    unfold disj, within in *. lia.
Qed.

Lemma push_zone : zone_inv m' (pushed o a (get_zone (k_buddy s) t)) (fupd fl t o (a :: fl t o) t).
Proof using Hc Ht Hheld.
  pose proof (proj1 (proj1 Hheld)) as Ho. pose proof (push_blocks _ _ _ (c_blocks _ _ _ _ Hc) t o a Ht Hheld) as Hblk'.
  destruct (c_zone _ _ _ _ Hc t Ht) as [H1 H2 H3 H4]. split.
  - unfold pushed. simpl. by rewrite length_insert.
  - unfold pushed. simpl. by rewrite length_insert.
  - intros o' Ho'. unfold pushed. change (zone_head (set_count o ?c ?z) o') with (zone_head z o').
    rewrite zone_head_set by done. destruct (Z.eqb_spec o' o) as [->|Hno].
    + rewrite fupd_eq. apply (link_front_dll 0 8 16); try lia; [| |by apply H3]; rewrite <- (fupd_eq fl t o (a :: fl t o)).
      * by eapply list_separated; [apply (c_geo _ _ _ _ Hc)|].
      * by apply Hblk'.
    + rewrite fupd_ne by congruence. eapply (dll_frame_nodes 0 8 16); try lia; [|by apply H3].
      intros b Hb. eapply push_node; [done|congruence].
  - intros o' Ho'. unfold pushed. rewrite zone_count_set by done. destruct (Z.eqb_spec o' o) as [->|Hno]; [|rewrite fupd_ne by congruence; by apply H4].
    rewrite fupd_eq, H4 by done. simpl length. pose proof (list_length_bound st n _ (c_geo _ _ _ _ Hc) (c_blocks _ _ _ _ Hc) t o).
    destruct (c_geo _ _ _ _ Hc) as (Hg0 & _ & Hg1 & Hg). usimpl. lia.
Qed.

Lemma push_core :
  core (k_buddy (moved t (pushed o a) m' s)) m' n (fupd fl t o (a :: fl t o)) /\
  agree (fun x => ~ covered fl x /\ ~ within a (sz o) x) (k_mem s) m'.
Proof using Hc Ht Hheld.
  pose proof (sz_orders o (proj1 (proj1 Hheld))) as Hso. destruct Hc as [Hgeo Hsize Hlen Hblk Hz]. split; [split|]; try done.
  - unfold moved, put_zone. cbn [k_buddy set_buddy g_zones]. by rewrite length_insert.
  - by apply (push_blocks _ _ _ Hblk).
  - intros t' Ht'. unfold moved. cbn [k_buddy set_buddy]. rewrite get_put_zone by lia. destruct (Z.eqb_spec t' t) as [->|Hne]; [exact push_zone|].
    assert (Heq : fupd fl t o (a :: fl t o) t' = fl t') by (unfold fupd; by rewrite (proj2 (Z.eqb_neq t' t))).
    rewrite Heq. apply zone_inv_frame; [done|]. intros o' b Hb. eapply push_node; [done|congruence].
  - eapply agree_mono; [|exact push_agree]. intros x [Hx1 Hx2]. split; [unfold within in *; lia|].
    intros Hn Hx. apply Hx1. eexists t, o, _. split; [by apply push_head|]. unfold within in *. lia.
Qed.
End push.

(** Unlinking a block. *)
Lemma unlink_core t o a l1 l2 :
  0 <= t < 3 -> 0 <= o <= 10 -> fl t o = l1 ++ a :: l2 ->
  let m' := unlink 0 8 (k_mem s) a in
  let h := unlink_head 0 8 (k_mem s) (zone_head (get_zone (k_buddy s) t) o) a in
  core (k_buddy (moved t (unlinked o h) m' s)) m' n (fupd fl t o (l1 ++ l2)) /\
  held st n (fupd fl t o (l1 ++ l2)) a o /\
  agree (fun x => ~ covered fl x) (k_mem s) m'.
Proof.
  intros Ht Ho Hl m' h. destruct Hc as [Hgeo Hsize Hlen Hblk Hz].
  destruct (Hz t Ht) as [H1 H2 H3 H4]. specialize (H3 o Ho) as Hd0.
  pose proof (list_separated _ _ _ Hgeo Hblk t o) as Hsep.
  pose proof (bo_nodup _ _ _ Hblk t o) as Hnd. rewrite Hl in Hsep, Hnd, Hd0.
  assert (Hag : agree (outside 16 (l1 ++ a :: l2)) (k_mem s) m').
  { eapply (unlink_agree 0 8 16); try lia; [exact Hsep|done|done]. }
  assert (Hnode : forall t' o' b, b ∈ fl t' o' -> (t', o') <> (t, o) ->
            agree (within b 16) (k_mem s) m').
  { intros t' o' b Hb Hne. eapply agree_mono; [|exact Hag]. intros x Hx c Hcin Hxc.
    rewrite <- Hl in Hcin. destruct (bo_ok _ _ _ Hblk _ _ _ Hb) as [_ [Ho' _]].
    pose proof (sz_orders o' Ho'). pose proof (sz_orders o Ho).
    assert (disj b o' c o) as Hd by (eapply (bo_disj _ _ _ Hblk); [exact Hb|exact Hcin|congruence]).
    unfold disj, within in *. lia. }
  split; [split|split]; try done.
  - unfold moved, put_zone. cbn [k_buddy set_buddy g_zones]. by rewrite length_insert.
  - by apply unlink_blocks with (a := a).
  - intros t' Ht'. unfold moved. cbn [k_buddy set_buddy]. rewrite get_put_zone by lia.
    destruct (Z.eqb_spec t' t) as [->|Hne].
    + split.
      * unfold unlinked. simpl. by rewrite length_insert.
      * unfold unlinked. simpl. by rewrite length_insert.
      * intros o' Ho'. unfold unlinked.
        change (zone_head (set_count o ?c ?z) o') with (zone_head z o').
        rewrite zone_head_set by done. destruct (Z.eqb_spec o' o) as [->|Hno].
        -- rewrite fupd_eq. eapply (unlink_dll 0 8 16); try lia; [exact Hsep|done|done].
        -- rewrite fupd_ne by congruence. eapply (dll_frame_nodes 0 8 16); try lia; [|by apply H3].
           intros b Hb. eapply Hnode; [done|congruence].
      * intros o' Ho'. unfold unlinked. rewrite zone_count_set by done.
        destruct (Z.eqb_spec o' o) as [->|Hno].
        -- rewrite fupd_eq, H4, Hl by done. rewrite !length_app. simpl length.
           pose proof (list_length_bound st n _ Hgeo Hblk t o) as Hb. destruct Hgeo as (Hg0 & _ & Hg1 & Hg).
           rewrite Hl, length_app in Hb. simpl length in Hb. usimpl. lia.
        -- rewrite fupd_ne by congruence. by apply H4.
    + assert (Heq : fupd fl t o (l1 ++ l2) t' = fl t').
      { unfold fupd. by rewrite (proj2 (Z.eqb_neq t' t)). }
      rewrite Heq. apply zone_inv_frame; [done|]. intros o' b Hb.
      eapply Hnode; [done|congruence].
  - by apply unlink_held.
  - eapply agree_mono; [|exact Hag]. intros x Hx c Hcin Hxc. apply Hx.
    exists t, o, c. rewrite Hl. split; [done|]. pose proof (sz_orders o Ho).
    unfold within in *. lia.
Qed.
End moves.
