(* ===== verification/BuddySpec.v ===== *)
(** What the buddy allocator promises, stated on its free lists alone: a
    functional specification of allocation and deallocation, and the facts about
    it that the clients of the allocator use.  BuddyThms proves that the code
    implements it. *)
From S2P Require Import Prelude Machine Buddy BuddyInv.

(** ** Counting pages *)

(** Pages held by the free lists of one zone. *)
Definition pages_of (fz : Z -> list Z) : Z :=
  zsum (fun o => Z.of_nat (length (fz o)) * 2 ^ o) (seqZ 0 11).

Lemma pages_of_upd fl t o l : 0 <= o <= 10 ->
  pages_of (fupd fl t o l t) =
  pages_of (fl t) + (Z.of_nat (length l) - Z.of_nat (length (fl t o))) * 2 ^ o.
Proof.
  intros Ho. unfold pages_of.
  rewrite (zsum_upd (fun o => Z.of_nat (length (fl t o)) * 2 ^ o)
             (fun p => Z.of_nat (length (fupd fl t o l t p)) * 2 ^ p) _ o).
  - rewrite fupd_eq. lia.
  - apply NoDup_seqZ.
  - apply elem_of_seqZ. lia.
  - intros p Hp. by rewrite fupd_ne by congruence.
Qed.

Lemma pages_of_nonneg fz : 0 <= pages_of fz.
Proof.
  unfold pages_of. induction (seqZ 0 11) as [|o l IH]; simpl; [lia|].
  pose proof (Z.pow_nonneg 2 o ltac:(lia)). nia.
Qed.

(** Disjoint blocks of a region of [n] pages hold at most [n] pages. *)
Section bound.
Context {Key : Type} `{EqDecision Key} (addr ord : Key -> Z) (st n : Z).

Lemma disjoint_blocks_bound (ks : list Key) :
  geo st n -> NoDup ks -> (forall k, k ∈ ks -> blk_ok st n (addr k) (ord k)) ->
  (forall k k', k ∈ ks -> k' ∈ ks -> k <> k' -> disj (addr k) (ord k) (addr k') (ord k')) ->
  zsum (fun k => 2 ^ ord k) ks <= n.
Proof.
  intros Hgeo Hnd Hok Hdisj.
  set (pages := fun k => seqZ (addr k / 4096) (2 ^ ord k)).
  assert (Hpg : forall k p, k ∈ ks -> p ∈ pages k ->
            addr k <= 4096 * p /\ 4096 * p + 4096 <= addr k + sz (ord k)).
  { intros k p Hk Hp. unfold pages in Hp. apply elem_of_seqZ in Hp.
    pose proof (blk_ok_addr _ _ _ _ Hgeo (Hok k Hk)) as (_ & _ & Hm).
    pose proof (Z.div_mod (addr k) 4096 ltac:(lia)). unfold sz. lia. }
  assert (Hndp : NoDup (ks ≫= pages)).
  { apply NoDup_bind; [|intros; apply NoDup_seqZ|done].
    intros k1 k2 p H1 H2 Hp1 Hp2. destruct (decide (k1 = k2)) as [|Hne]; [done|].
    pose proof (Hdisj _ _ H1 H2 Hne) as Hd. pose proof (Hpg _ _ H1 Hp1).
    pose proof (Hpg _ _ H2 Hp2). unfold disj in Hd. lia. }
  assert (Hinc : (ks ≫= pages) ⊆ seqZ (st / 4096) n).
  { intros p Hp. apply list_elem_of_bind in Hp as (k & Hp & Hk).
    pose proof (Hpg _ _ Hk Hp) as Hb. destruct (Hok k Hk) as (_ & H1 & _ & H2).
    destruct Hgeo as (H3 & H4 & H5 & H6). pose proof (Z.div_mod st 4096 ltac:(lia)).
    apply elem_of_seqZ. lia. }
  pose proof (submseteq_length _ _ (NoDup_submseteq _ _ Hndp Hinc)) as Hlen.
  rewrite length_seqZ in Hlen.
  assert (Hsum : Z.of_nat (length (ks ≫= pages)) = zsum (fun k => 2 ^ ord k) ks).
  { clear - Hok. induction ks as [|k ks' IH]; [done|]. csimpl.
    rewrite length_app. unfold pages at 1. rewrite length_seqZ.
    destruct (Hok k ltac:(left)) as (Ho & _). pose proof (pow2_orders _ Ho).
    rewrite Nat2Z.inj_add, IH; [lia|]. intros k' Hk'. apply Hok. by right. }
  destruct Hgeo as (_ & _ & Hn & _). lia.
Qed.
End bound.

(** All free blocks, as (zone, order, address). *)
Definition block_list (fl : lists) : list (Z * Z * Z) :=
  t ← seqZ 0 3; o ← seqZ 0 11; (fun a => (t, o, a)) <$> fl t o.

Lemma elem_of_block_list st n fl t o a : blocks_ok st n fl ->
  (t, o, a) ∈ block_list fl <-> a ∈ fl t o.
Proof.
  intros Hok. unfold block_list. split.
  - intros H. apply list_elem_of_bind in H as (t' & H & _).
    apply list_elem_of_bind in H as (o' & H & _).
    apply list_elem_of_fmap in H as (a' & [= -> -> ->] & Ha). done.
  - intros Ha. pose proof (bo_ok _ _ _ Hok _ _ _ Ha) as (Ht & Ho & _).
    apply list_elem_of_bind. exists t. split; [|apply elem_of_seqZ; lia].
    apply list_elem_of_bind. exists o. split; [|apply elem_of_seqZ; lia].
    apply list_elem_of_fmap. eauto.
Qed.

Lemma NoDup_block_list st n fl : blocks_ok st n fl -> NoDup (block_list fl).
Proof.
  intros Hok. unfold block_list. apply NoDup_bind; [| |apply NoDup_seqZ].
  - intros t1 t2 k _ _ H1 H2. apply list_elem_of_bind in H1 as (o1 & H1 & _).
    apply list_elem_of_bind in H2 as (o2 & H2 & _).
    apply list_elem_of_fmap in H1 as (a1 & -> & _). apply list_elem_of_fmap in H2 as (a2 & [=] & _). done.
  - intros t _. apply NoDup_bind; [| |apply NoDup_seqZ].
    + intros o1 o2 k _ _ H1 H2. apply list_elem_of_fmap in H1 as (a1 & -> & _).
      apply list_elem_of_fmap in H2 as (a2 & [=] & _). done.
    + intros o _. apply NoDup_fmap_2; [|by apply Hok]. intros ?? [=]. done.
Qed.

Lemma block_list_pages fl :
  zsum (fun k : Z * Z * Z => 2 ^ k.1.2) (block_list fl) = zsum (fun t => pages_of (fl t)) (seqZ 0 3).
Proof.
  unfold block_list. rewrite zsum_bind. apply zsum_ext. intros t _.
  rewrite zsum_bind. apply zsum_ext. intros o _. rewrite zsum_fmap. simpl.
  rewrite zsum_const. lia.
Qed.

(** The free pages of a zone fit in the region, with room for a held block. *)
Lemma pages_of_bound st n fl t : geo st n -> blocks_ok st n fl -> 0 <= t < 3 ->
  pages_of (fl t) <= n.
Proof.
  intros Hgeo Hok Ht.
  assert (H : zsum (fun k : Z * Z * Z => 2 ^ k.1.2) (block_list fl) <= n).
  { apply (disjoint_blocks_bound snd (fun k => k.1.2) st); [done|by eapply NoDup_block_list| |].
    - intros [[t' o] a] Hk. apply (elem_of_block_list st n) in Hk; [|done].
      by apply (bo_ok _ _ _ Hok) in Hk as [_ ?].
    - intros [[t1 o1] a1] [[t2 o2] a2] H1 H2 Hne.
      apply (elem_of_block_list st n) in H1; [|done]. apply (elem_of_block_list st n) in H2; [|done].
      by eapply (bo_disj _ _ _ Hok). }
  rewrite block_list_pages in H.
  change (seqZ 0 3) with [0; 1; 2] in H. simpl in H.
  pose proof (pages_of_nonneg (fl 0)). pose proof (pages_of_nonneg (fl 1)).
  pose proof (pages_of_nonneg (fl 2)).
  assert (t = 0 \/ t = 1 \/ t = 2) as [->|[->| ->]] by lia; lia.
Qed.

(** ** Allocation *)

(** The first order from [o] up, among [fuel] orders, with a free block. *)
Fixpoint first_order (fuel : nat) (fz : Z -> list Z) (o : Z) : option (Z * Z * list Z) :=
  match fuel with
  | O => None
  | S fuel => match fz o with
              | [] => first_order fuel fz (o + 1)
              | a :: rest => Some (o, a, rest)
              end
  end.

(** Splitting a block at [a] [d] times from order [c] frees its upper halves. *)
Fixpoint split_lists (d : nat) (t a c : Z) (fl : lists) : lists :=
  match d with
  | O => fl
  | S d => split_lists d t a (c - 1) (fupd fl t (c - 1) ((a + sz (c - 1)) :: fl t (c - 1)))
  end.

Definition alloc_spec (fl : lists) (t o : Z) : option (Z * lists) :=
  match first_order (Z.to_nat (11 - o)) (fl t) o with
  | None => None
  | Some (k, a, rest) => Some (a, split_lists (Z.to_nat (k - o)) t a k (fupd fl t k rest))
  end.

Lemma first_order_Some fuel fz o k a rest :
  first_order fuel fz o = Some (k, a, rest) ->
  o <= k < o + Z.of_nat fuel /\ fz k = a :: rest /\ forall j, o <= j < k -> fz j = [].
Proof.
  revert o. induction fuel as [|fuel IH]; intros o; simpl; [done|].
  destruct (fz o) as [|b l] eqn:E.
  - intros H. apply IH in H as (H1 & H2 & H3). split; [lia|]. split; [done|].
    intros j Hj. destruct (decide (j = o)) as [->|]; [done|]. apply H3. lia.
  - intros [= <- <- <-]. split; [lia|]. split; [done|]. intros; lia.
Qed.
Lemma first_order_None fuel fz o :
  first_order fuel fz o = None -> forall j, o <= j < o + Z.of_nat fuel -> fz j = [].
Proof.
  revert o. induction fuel as [|fuel IH]; intros o; simpl; [intros; lia|].
  destruct (fz o) as [|b l] eqn:E; [|done].
  intros H j Hj. destruct (decide (j = o)) as [->|]; [done|]. apply (IH (o + 1)); [done|lia].
Qed.

Lemma upper_half st n a c : 1 <= c -> blk_ok st n a c ->
  blk_ok st n a (c - 1) /\ blk_ok st n (a + sz (c - 1)) (c - 1) /\ sz c = sz (c - 1) + sz (c - 1).
Proof.
  intros Hc (Ho & H1 & H2 & H3).
  assert (Hs : sz c = sz (c - 1) + sz (c - 1)).
  { pose proof (sz_succ (c - 1) ltac:(lia)). replace (c - 1 + 1) with c in * by lia. lia. }
  pose proof (sz_orders (c - 1) ltac:(lia)).
  assert (Hd : (a - st) mod sz (c - 1) = 0).
  { apply Z.mod_divide in H2; [|lia]. apply Z.mod_divide; [lia|].
    apply (Z.divide_trans _ (sz c)); [|done]. exists 2. lia. }
  split; [|split; [|done]]; (split; [lia|]); (split; [lia|]); (split; [|lia]); [done|].
  replace (a + sz (c - 1) - st) with (a - st + 1 * sz (c - 1)) by lia.
  rewrite Z.mod_add by lia. done.
Qed.

(** One split step keeps everything. *)
Lemma split_step st n fl t a c : geo st n -> blocks_ok st n fl -> 0 <= t < 3 -> 1 <= c ->
  held st n fl a c ->
  let fl' := fupd fl t (c - 1) ((a + sz (c - 1)) :: fl t (c - 1)) in
  held st n fl (a + sz (c - 1)) (c - 1) /\ blocks_ok st n fl' /\ held st n fl' a (c - 1) /\
  (forall x, covered fl x \/ within a (sz c) x <-> covered fl' x \/ within a (sz (c - 1)) x).
Proof.
  intros Hgeo Hok Ht Hc [Hb Hd] fl'.
  destruct (upper_half st n a c Hc Hb) as (Hlo & Hhi & Hs).
  pose proof (sz_orders (c - 1) (proj1 Hlo)).
  assert (Hheld : held st n fl (a + sz (c - 1)) (c - 1)).
  { split; [done|]. intros t' o' b Hin. specialize (Hd _ _ _ Hin). unfold disj in *. lia. }
  split; [done|]. split; [by apply push_blocks|]. split.
  - split; [done|]. intros t' o' b Hin. unfold fl' in Hin.
    destruct (fupd_cases fl t (c - 1) ((a + sz (c - 1)) :: fl t (c - 1)) t' o') as [(-> & -> & E)|[_ E]];
      rewrite E in Hin; [apply elem_of_cons in Hin as [->|Hin]|];
      [unfold disj; lia| |]; specialize (Hd _ _ _ Hin); unfold disj in *; lia.
  - intros x. unfold fl'. rewrite covered_push. unfold within. split.
    + intros [Hx|Hx]; [by left; left|]. destruct (decide (x < a + sz (c - 1))); [right; lia|].
      left; right. lia.
    + intros [[Hx|Hx]|Hx]; [by left| |]; right; lia.
Qed.

Lemma split_lists_ok st n d t a c fl : geo st n -> blocks_ok st n fl -> 0 <= t < 3 ->
  Z.of_nat d <= c -> held st n fl a c ->
  let fl' := split_lists d t a c fl in
  blocks_ok st n fl' /\ held st n fl' a (c - Z.of_nat d) /\
  (forall x, covered fl x \/ within a (sz c) x <-> covered fl' x \/ within a (sz (c - Z.of_nat d)) x) /\
  pages_of (fl' t) = pages_of (fl t) + 2 ^ c - 2 ^ (c - Z.of_nat d) /\
  (forall t', t' <> t -> fl' t' = fl t').
Proof.
  intros Hgeo. revert c fl. induction d as [|d IH]; intros c fl Hok Ht Hd Hheld; cbn [split_lists].
  - change (Z.of_nat 0) with 0. rewrite Z.sub_0_r. cbv zeta. split; [done|]. split; [done|]. split; [intros x; reflexivity|].
    split; [lia|done].
  - destruct (split_step st n fl t a c) as (_ & Hok' & Hheld' & Hcov); [done|done|done|lia|done|].
    destruct (IH (c - 1) _ Hok' Ht ltac:(lia) Hheld') as (H1 & H2 & H3 & H4 & H5).
    replace (c - Z.of_nat (S d)) with (c - 1 - Z.of_nat d) by lia. cbv zeta.
    split; [done|]. split; [done|]. split; [intros x; by rewrite Hcov, H3|]. split.
    + rewrite H4. pose proof (proj1 (proj1 Hheld)).
      rewrite pages_of_upd by lia. simpl length.
      replace (2 ^ c) with (2 * 2 ^ (c - 1)) by (rewrite <- Z.pow_succ_r by lia; f_equal; lia). lia.
    + intros t' Ht'. rewrite H5 by done. unfold fupd. by rewrite (proj2 (Z.eqb_neq t' t)).
Qed.

Lemma covered_empty_pages st n fl : blocks_ok st n fl -> (forall t o, fl t o = []) <-> forall x, ~ covered fl x.
Proof.
  intros Hok. split.
  - intros H x (t & o & a & Hin & _). rewrite H in Hin. by apply not_elem_of_nil in Hin.
  - intros H t o. destruct (fl t o) as [|a l] eqn:E; [done|].
    exfalso. apply (H a). exists t, o, a. rewrite E. split; [left|].
    assert (Hin : a ∈ fl t o) by (rewrite E; left).
    apply (bo_ok _ _ _ Hok) in Hin as [_ [Ho _]]. pose proof (sz_orders o Ho). unfold within. lia.
Qed.

(** What an allocation does to the free memory. *)
Theorem alloc_spec_ok st n fl t o a fl' : geo st n -> blocks_ok st n fl -> 0 <= t < 3 -> 0 <= o ->
  alloc_spec fl t o = Some (a, fl') ->
  blocks_ok st n fl' /\ held st n fl' a o /\
  (forall x, covered fl x <-> covered fl' x \/ within a (sz o) x) /\
  pages_of (fl' t) = pages_of (fl t) - 2 ^ o /\
  (forall t', t' <> t -> fl' t' = fl t').
Proof.
  intros Hgeo Hok Ht Ho Hspec. unfold alloc_spec in Hspec.
  destruct (first_order _ (fl t) o) as [[[k b] rest]|] eqn:E; [|done]. injection Hspec as <- <-.
  apply first_order_Some in E as (Hk & Hl & _).
  pose proof (unlink_blocks st n fl Hok t k b [] rest Hl) as Hok1.
  pose proof (unlink_held st n fl Hok t k b [] rest Hl) as Hheld1.
  pose proof (covered_unlink st n fl Hok t k b [] rest Hl) as Hcov1. simpl in *.
  destruct (split_lists_ok st n (Z.to_nat (k - o)) t b k (fupd fl t k rest)) as (H1 & H2 & H3 & H4 & H5);
    [done|done|done|lia|done|].
  replace (k - Z.of_nat (Z.to_nat (k - o))) with o in * by lia.
  split; [done|]. split; [done|]. split; [intros x; by rewrite Hcov1, H3|]. split.
  - rewrite H4, pages_of_upd by lia. rewrite Hl. simpl length. lia.
  - intros t' Ht'. rewrite H5 by done. unfold fupd. by rewrite (proj2 (Z.eqb_neq t' t)).
Qed.

(** It fails only when every list that could serve it is empty. *)
Theorem alloc_spec_None fl t o : 0 <= o <= 10 ->
  alloc_spec fl t o = None <-> forall j, o <= j <= 10 -> fl t j = [].
Proof.
  intros Ho. unfold alloc_spec.
  destruct (first_order _ (fl t) o) as [[[k b] rest]|] eqn:E.
  - apply first_order_Some in E as (Hk & Hl & _). split; [done|].
    intros H. rewrite H in Hl by lia. done.
  - split; [|done]. intros _ j Hj. eapply first_order_None; [done|lia].
Qed.

(** ** Buddies *)

Lemma lxor_bit k : 0 <= k -> Z.lxor k 1 = if Z.even k then k + 1 else k - 1.
Proof.
  assert (Heven : forall j, Z.even j = true -> Z.lxor j 1 = j + 1).
  { intros j Hj. symmetry. apply Z.add_nocarry_lxor.
    change (Z.land j (Z.ones 1) = 0). rewrite Z.land_ones by lia.
    apply Z.even_spec in Hj as [q ->]. rewrite Z.mul_comm. apply Z.mod_mul. lia. }
  intros Hk. destruct (Z.even k) eqn:E; [by apply Heven|].
  assert (Hpred : Z.even (k - 1) = true).
  { rewrite <- Z.negb_odd, Z.odd_sub, <- Z.negb_even, E. done. }
  replace k with (Z.lxor (k - 1) 1) at 1 by (rewrite Heven by done; lia).
  by rewrite Z.lxor_assoc, Z.lxor_nilpotent, Z.lxor_0_r.
Qed.

Lemma lxor_order k o : 0 <= k -> 0 <= o ->
  Z.lxor (k * 2 ^ o) (2 ^ o) = (if Z.even k then k + 1 else k - 1) * 2 ^ o.
Proof.
  intros Hk Ho. rewrite <- lxor_bit by done.
  rewrite <- (Z.mul_1_l (2 ^ o)) at 2. rewrite <- !Z.shiftl_mul_pow2 by lia.
  symmetry. apply Z.shiftl_lxor.
Qed.

(** The address the code computes for the buddy of a block. *)
Lemma buddy_address_cases b n a c : geo (g_memory_start b) n -> blk_ok (g_memory_start b) n a c ->
  exists k, 0 <= k /\ a = g_memory_start b + k * sz c /\
    get_buddy_address b a c = g_memory_start b + (if Z.even k then k + 1 else k - 1) * sz c.
Proof.
  intros (Hst & _ & Hn & Hb) (Hc & H1 & H2 & H3). set (st := g_memory_start b) in *.
  pose proof (sz_orders c Hc). pose proof (pow2_orders c Hc).
  set (k := (a - st) / sz c).
  assert (Hk : a - st = sz c * k).
  { pose proof (Z.div_mod (a - st) (sz c) ltac:(lia)). unfold k. lia. }
  assert (Hk0 : 0 <= k) by (apply Z.div_pos; lia).
  exists k. split; [done|]. split; [lia|].
  unfold get_buddy_address, addr_to_page_index, page_index_to_addr. fold st.
  rewrite order_size_pow by lia. rewrite (u64_id (a - st)) by lia.
  assert (Hidx : (a - st) / BUDDY_PAGE_SIZE = k * 2 ^ c).
  { unfold BUDDY_PAGE_SIZE. rewrite Hk. unfold sz.
    replace (4096 * 2 ^ c * k) with (k * 2 ^ c * 4096) by lia. apply Z.div_mul. lia. }
  rewrite Hidx, lxor_order by lia.
  assert (Hkn : (k + 1) * sz c <= 4096 * n) by lia.
  assert (Hb' : 0 <= (if Z.even k then k + 1 else k - 1) * 2 ^ c).
  { destruct (Z.even k) eqn:E; [nia|]. assert (k <> 0) by (intros ->; done). nia. }
  assert (Hup : (if Z.even k then k + 1 else k - 1) * 2 ^ c * 4096 <= 4096 * n).
  { unfold sz in *. destruct (Z.even k); nia. }
  unfold BUDDY_PAGE_SIZE, sz in *.
  set (k' := if Z.even k then k + 1 else k - 1) in *.
  set (p := k' * 2 ^ c) in *. replace (k' * (4096 * 2 ^ c)) with (p * 4096) by lia.
  rewrite (u64_id (p * 4096)) by lia. rewrite u64_id by lia. done.
Qed.

(** A block whose buddy is also a block merges into one of the next order. *)
Lemma buddy_merge b n a c : geo (g_memory_start b) n -> c <= 9 ->
  blk_ok (g_memory_start b) n a c -> blk_ok (g_memory_start b) n (get_buddy_address b a c) c ->
  let ba := get_buddy_address b a c in
  blk_ok (g_memory_start b) n (Z.min a ba) (c + 1) /\
  sz (c + 1) = sz c + sz c /\ (ba = Z.min a ba + sz c /\ a = Z.min a ba \/
                               a = Z.min a ba + sz c /\ ba = Z.min a ba).
Proof.
  intros Hgeo Hc9 Hb Hbb ba.
  destruct (buddy_address_cases b n a c Hgeo Hb) as (k & Hk & Ha & Hba).
  fold ba in Hba, Hbb. pose proof (sz_succ c (proj1 (proj1 Hb))) as Hs.
  pose proof (sz_orders c (proj1 Hb)). set (st := g_memory_start b) in *.
  assert (Hmin : exists q, 0 <= q /\ Z.min a ba = st + q * sz (c + 1)).
  { destruct (Z.even k) eqn:E.
    - apply Z.even_spec in E as [q ->]. exists q. split; [lia|]. rewrite Hs. nia.
    - assert (Hodd : Z.odd k = true) by (rewrite <- Z.negb_even, E; done).
      apply Z.odd_spec in Hodd as [q ->]. exists q. split; [lia|]. rewrite Hs. nia. }
  destruct Hmin as (q & Hq & Hmin).
  assert (Hor : ba = a + sz c \/ ba = a - sz c) by (destruct (Z.even k); lia).
  destruct Hb as (H1 & H2 & H3 & H4), Hbb as (_ & H5 & _ & H6).
  split; [|lia]. split; [lia|]. split; [lia|]. split; [|lia].
  rewrite Hmin. replace (st + q * sz (c + 1) - st) with (q * sz (c + 1)) by lia.
  apply Z.mod_mul. lia.
Qed.

(** Being a buddy is symmetric. *)
Lemma buddy_involutive b n a c : geo (g_memory_start b) n ->
  blk_ok (g_memory_start b) n a c -> blk_ok (g_memory_start b) n (get_buddy_address b a c) c ->
  get_buddy_address b (get_buddy_address b a c) c = a.
Proof.
  intros Hgeo Hb Hbb. destruct (buddy_address_cases b n a c Hgeo Hb) as (k & Hk & Ha & Hba).
  destruct (buddy_address_cases b n _ c Hgeo Hbb) as (k' & Hk' & Ha' & Hba').
  pose proof (sz_orders c (proj1 Hb)).
  assert (k' = if Z.even k then k + 1 else k - 1) as -> by nia.
  rewrite Hba', Ha. f_equal. f_equal.
  destruct (Z.even k) eqn:E.
  - rewrite Z.add_1_r, Z.even_succ, <- Z.negb_even, E. simpl. lia.
  - rewrite Z.sub_1_r, Z.even_pred, <- Z.negb_even, E. simpl. lia.
Qed.

Lemma buddy_ne b n a c : geo (g_memory_start b) n -> blk_ok (g_memory_start b) n a c ->
  get_buddy_address b a c <> a.
Proof.
  intros Hgeo Hb Heq. destruct (buddy_address_cases b n a c Hgeo Hb) as (k & Hk & Ha & Hba).
  pose proof (sz_orders c (proj1 Hb)). destruct (Z.even k); nia.
Qed.

(** ** Deallocation *)

(** The test of the merge loop: the buddy is inside the region, its bit is clear
    and it is on the free list of this order. *)
Definition buddy_free (b : buddy_st) (fl : lists) (a c : Z) : bool :=
  let ba := get_buddy_address b a c in
  negb (out_of_range b ba) && negb (test_allocation_bit b (addr_to_page_index b ba)) &&
  bool_decide (ba ∈ fl 0 c).

(** The merge loop, at most [d] rounds from order [c]. *)
Fixpoint merge_lists (d : nat) (b : buddy_st) (fl : lists) (a c : Z) : lists * Z * Z :=
  match d with
  | O => (fl, a, c)
  | S d => if buddy_free b fl a c then
             let ba := get_buddy_address b a c in
             merge_lists d b (fupd fl 0 c (without ba (fl 0 c))) (Z.min a ba) (c + 1)
           else (fl, a, c)
  end.

Definition free_spec (b : buddy_st) (fl : lists) (a o : Z) : lists :=
  let '(fl', a', c) := merge_lists (Z.to_nat (10 - o)) b fl a o in
  fupd fl' 0 c (a' :: fl' 0 c).

Lemma buddy_free_in b fl a c : buddy_free b fl a c = true -> get_buddy_address b a c ∈ fl 0 c.
Proof. unfold buddy_free. rewrite !andb_true_iff. intros [_ H]. by apply bool_decide_eq_true in H. Qed.

(** One merge step keeps everything. *)
Lemma merge_step b n fl a c : geo (g_memory_start b) n -> blocks_ok (g_memory_start b) n fl -> c <= 9 ->
  held (g_memory_start b) n fl a c -> buddy_free b fl a c = true ->
  let ba := get_buddy_address b a c in
  let fl' := fupd fl 0 c (without ba (fl 0 c)) in
  exists l1 l2, fl 0 c = l1 ++ ba :: l2 /\ without ba (fl 0 c) = l1 ++ l2 /\
    blocks_ok (g_memory_start b) n fl' /\ held (g_memory_start b) n fl' (Z.min a ba) (c + 1) /\
    (forall x, covered fl x \/ within a (sz c) x <-> covered fl' x \/ within (Z.min a ba) (sz (c + 1)) x).
Proof.
  intros Hgeo Hok Hc [Hb Hd] Hfree ba fl'.
  apply buddy_free_in in Hfree. fold ba in Hfree.
  apply list_elem_of_split in Hfree as (l1 & l2 & Hl). exists l1, l2. split; [done|].
  assert (Hw : without ba (fl 0 c) = l1 ++ l2).
  { rewrite Hl. apply without_middle. rewrite <- Hl. apply Hok. }
  unfold fl'. rewrite Hw. split; [done|].
  pose proof (unlink_in fl 0 c ba l1 l2 Hl) as Hin.
  destruct (bo_ok _ _ _ Hok _ _ _ Hin) as [_ Hbb].
  destruct (buddy_merge b n a c Hgeo Hc Hb Hbb) as (Hm & Hs & Hor). fold ba in Hor, Hm.
  destruct (unlink_held _ n fl Hok 0 c ba l1 l2 Hl) as [_ Hd'].
  split; [by eapply unlink_blocks|]. split.
  - split; [done|]. intros t' o' x Hx. pose proof (Hd' _ _ _ Hx) as Hd1.
    apply (unlink_sub _ n fl Hok 0 c ba l1 l2 Hl) in Hx as [Hx Hne].
    pose proof (Hd _ _ _ Hx) as Hd2.
    pose proof (bo_ok _ _ _ Hok _ _ _ Hx) as [_ [Ho' _]]. pose proof (sz_orders o' Ho').
    unfold disj in *. lia.
  - intros x. rewrite (covered_unlink _ n fl Hok 0 c ba l1 l2 Hl). unfold within.
    assert (a <= x < a + sz c \/ ba <= x < ba + sz c <->
            Z.min a ba <= x < Z.min a ba + sz (c + 1)) as <- by lia. tauto.
Qed.

Lemma merge_lists_ok d b n fl a c fl' a' c' : geo (g_memory_start b) n ->
  blocks_ok (g_memory_start b) n fl -> c + Z.of_nat d <= 10 -> held (g_memory_start b) n fl a c ->
  merge_lists d b fl a c = (fl', a', c') ->
  blocks_ok (g_memory_start b) n fl' /\ held (g_memory_start b) n fl' a' c' /\
  c <= c' <= c + Z.of_nat d /\
  (forall x, covered fl x \/ within a (sz c) x <-> covered fl' x \/ within a' (sz c') x) /\
  pages_of (fl' 0) + 2 ^ c' = pages_of (fl 0) + 2 ^ c /\
  (forall t', t' <> 0 -> fl' t' = fl t') /\
  (c' < c + Z.of_nat d -> buddy_free b fl' a' c' = false) /\
  (forall o x, x ∈ fl' 0 o -> x ∈ fl 0 o).
Proof.
  intros Hgeo. revert fl a c. induction d as [|d IH]; intros fl a c Hok Hd Hheld Hm;
    cbn [merge_lists] in Hm.
  - injection Hm as <- <- <-. split; [done|]. split; [done|]. split; [lia|].
    split; [intros x; reflexivity|]. split; [lia|]. split; [done|]. split; [lia|done].
  - destruct (buddy_free b fl a c) eqn:E.
    + destruct (merge_step b n fl a c Hgeo Hok ltac:(lia) Hheld E) as (l1 & l2 & Hl & Hw & Hok' & Hheld' & Hcov).
      apply IH in Hm as (H1 & H2 & H3 & H4 & H5 & H6 & H7 & H8); [|done|lia|done].
      split; [done|]. split; [done|]. split; [lia|]. split; [intros x; by rewrite Hcov, H4|].
      pose proof (proj1 (proj1 Hheld)). split; [|split; [|split]].
      * rewrite H5, pages_of_upd, Hw, Hl, !length_app by lia. simpl length.
        rewrite Z.pow_add_r by lia. lia.
      * intros t' Ht'. rewrite H6 by done. unfold fupd. by rewrite (proj2 (Z.eqb_neq t' 0)).
      * intros Hlt. apply H7. lia.
      * intros o x Hx. apply H8 in Hx.
        destruct (fupd_cases fl 0 c (without (get_buddy_address b a c) (fl 0 c)) 0 o)
          as [(_ & -> & E2)|[_ E2]]; rewrite E2 in Hx; [|done].
        unfold without in Hx. by apply list_elem_of_filter in Hx as [_ ?].
    + injection Hm as <- <- <-. split; [done|]. split; [done|]. split; [lia|].
      split; [intros x; reflexivity|]. split; [lia|]. split; [done|]. done.
Qed.

(** What a deallocation does to the free memory. *)
Theorem free_spec_ok b n fl a o : geo (g_memory_start b) n ->
  blocks_ok (g_memory_start b) n fl -> held (g_memory_start b) n fl a o ->
  let fl' := free_spec b fl a o in
  blocks_ok (g_memory_start b) n fl' /\
  (forall x, covered fl' x <-> covered fl x \/ within a (sz o) x) /\
  pages_of (fl' 0) = pages_of (fl 0) + 2 ^ o /\
  (forall t', t' <> 0 -> fl' t' = fl t').
Proof.
  intros Hgeo Hok Hheld fl'. unfold fl', free_spec.
  destruct (merge_lists _ b fl a o) as [[fl1 a1] c1] eqn:E.
  pose proof (proj1 (proj1 Hheld)) as Ho.
  apply (merge_lists_ok _ _ n) in E as (H1 & H2 & H3 & H4 & H5 & H6 & _); [|done|done|lia|done].
  split; [apply push_blocks; [done|lia|done]|]. split; [|split].
  - intros x. rewrite covered_push. symmetry. apply H4.
  - pose proof (proj1 (proj1 H2)). rewrite pages_of_upd by lia. simpl length. lia.
  - intros t' Ht'. unfold fupd. rewrite (proj2 (Z.eqb_neq t' 0)) by done. by apply H6.
Qed.

(** ** Coalescing *)

(** No two buddies are both free: every free block is as large as it can be. *)
Definition coalesced (b : buddy_st) (fl : lists) : Prop :=
  forall c a, c <= 9 -> a ∈ fl 0 c -> get_buddy_address b a c ∉ fl 0 c.

(** The bits of the free pages are clear. *)
Definition bits_clear (b : buddy_st) (fl : lists) : Prop :=
  forall x, covered fl x -> test_allocation_bit b (addr_to_page_index b x) = false.

Lemma block_in_range b n a c : geo (g_memory_start b) n ->
  4096 * (n - 1) < g_memory_size b <= 4096 * n -> blk_ok (g_memory_start b) n a c ->
  out_of_range b a = false.
Proof.
  intros (H1 & H2 & H3 & H4) Hs (H5 & H6 & H7 & H8). pose proof (sz_orders c H5).
  unfold out_of_range. rewrite u64_id by lia.
  assert (Hd : (4096 | a - g_memory_start b)).
  { apply (Z.divide_trans _ (sz c)); [|by apply Z.mod_divide; [lia|]]. exists (2 ^ c). unfold sz. lia. }
  destruct Hd as [p Hp]. apply orb_false_iff. rewrite Z.ltb_ge, Z.leb_gt. lia.
Qed.

Theorem free_spec_coalesced b n fl a o : geo (g_memory_start b) n ->
  4096 * (n - 1) < g_memory_size b <= 4096 * n ->
  blocks_ok (g_memory_start b) n fl -> held (g_memory_start b) n fl a o ->
  bits_clear b fl -> coalesced b fl -> coalesced b (free_spec b fl a o).
Proof.
  intros Hgeo Hsize Hok Hheld Hbits Hco. unfold free_spec.
  destruct (merge_lists _ b fl a o) as [[fl1 a1] c1] eqn:E.
  pose proof (proj1 (proj1 Hheld)) as Ho.
  apply (merge_lists_ok _ _ n) in E as (H1 & H2 & H3 & _ & _ & _ & H7 & H8); [|done|done|lia|done].
  assert (Hco1 : coalesced b fl1).
  { intros c x Hc Hx Hin. exact (Hco c x Hc (H8 _ _ Hx) (H8 _ _ Hin)). }
  assert (Hnot : c1 <= 9 -> get_buddy_address b a1 c1 ∉ fl1 0 c1).
  { intros Hc Hin. specialize (H7 ltac:(lia)). unfold buddy_free in H7.
    destruct (bo_ok _ _ _ H1 _ _ _ Hin) as [_ Hbb].
    rewrite (block_in_range b n _ c1) in H7 by done.
    rewrite Hbits in H7.
    - rewrite bool_decide_eq_true_2 in H7; done.
    - exists 0, c1, (get_buddy_address b a1 c1). split; [by apply H8|].
      pose proof (sz_orders c1 (proj1 Hbb)). unfold within. lia. }
  intros c x Hc Hx Hin.
  destruct (fupd_cases fl1 0 c1 (a1 :: fl1 0 c1) 0 c) as [(_ & -> & E2)|[_ E2]];
    rewrite E2 in Hx, Hin; [|exact (Hco1 c x Hc Hx Hin)].
  apply elem_of_cons in Hx as [->|Hx].
  - apply elem_of_cons in Hin as [Heq|Hin]; [|by apply Hnot].
    by eapply (buddy_ne b n a1 c1 Hgeo (proj1 H2)).
  - apply elem_of_cons in Hin as [Heq|Hin]; [|exact (Hco1 _ _ Hc Hx Hin)].
    apply Hnot; [done|]. rewrite <- Heq.
    destruct (bo_ok _ _ _ H1 _ _ _ Hx) as [_ Hbx].
    rewrite (buddy_involutive b n); [done|done|done|]. rewrite Heq. apply H2.
Qed.
