(* ===== verification/BuddyThms.v ===== *)
(** The code of Buddy implements the specification of BuddySpec. *)
From S2P Require Import Prelude Machine DList Buddy BuddyInv BuddySpec.

(** Between two calls: the moves' invariant, every lock free, and every zone's
    page counter exact. *)
Record binv (b : buddy_st) (m : mem) (n : Z) (fl : lists) : Prop := {
  bi_core : core b m n fl;
  bi_lock t : 0 <= t < 3 -> zone_lock (get_zone b t) = 0;
  bi_free t : 0 <= t < 3 -> free_pages (get_zone b t) = pages_of (fl t)
}.

(** Only the memory and the allocator's statics differ. *)
Definition only_mb (s s' : kst) : Prop := exists m b, s' = set_buddy b (set_mem m s).

#[export] Instance only_mb_preorder : PreOrder only_mb.
Proof.
  split.
  - intros s. exists (k_mem s), (k_buddy s). by destruct s.
  - intros s1 s2 s3 (m & b & ->) (m' & b' & ->). by exists m', b'.
Qed.

(** What no call changes. *)
Definition same_region (b b' : buddy_st) : Prop :=
  g_memory_start b' = g_memory_start b /\ g_memory_size b' = g_memory_size b /\
  forall t, 0 <= t < 3 -> total_pages (get_zone b' t) = total_pages (get_zone b t).

(** ** Updates that leave the lists alone *)

Lemma core_upd b m n fl t f : core b m n fl -> 0 <= t < 3 ->
  (forall z, free_lists (f z) = free_lists z /\ free_counts (f z) = free_counts z) ->
  core (put_zone t (f (get_zone b t)) b) m n fl.
Proof.
  intros [H1 H2 H3 H4 H5] Ht Hf. destruct (Hf (get_zone b t)) as [Hf1 Hf2].
  split; try done.
  - unfold put_zone. cbn [g_zones]. by rewrite length_insert.
  - intros t' Ht'. rewrite get_put_zone by lia.
    destruct (Z.eqb_spec t' t) as [->|]; [|by apply H5].
    destruct (H5 t Ht) as [G1 G2 G3 G4].
    split; [by rewrite Hf1|by rewrite Hf2| |]; intros o Ho; unfold zone_head, zone_count;
      rewrite ?Hf1, ?Hf2; [by apply G3|by apply G4].
Qed.

Lemma put_zone_id b t : length (g_zones b) = 3%nat -> 0 <= t < 3 -> put_zone t (get_zone b t) b = b.
Proof.
  intros Hlen Ht. destruct b as [zs st sz0 bm]. unfold put_zone, get_zone. simpl in *. f_equal.
  apply list_insert_id. rewrite nth_lookup.
  destruct (lookup_lt_is_Some_2 zs (Z.to_nat t)) as [z Hz]; [lia|]. by rewrite Hz.
Qed.

Lemma core_length b m n fl : core b m n fl -> length (g_zones b) = 3%nat.
Proof. by intros []. Qed.

(** ** Taking and releasing a zone lock *)

Definition locked (t l : Z) (s : kst) : kst := upd_zone t (set_zone_lock l) s.

Lemma zone_acquire_exec t s : zone_lock (get_zone (k_buddy s) t) = 0 ->
  zone_acquire t s = Done tt (locked t 1 s).
Proof. intros H. unfold zone_acquire, acquire_var, mbind, M_bind, gets. by rewrite H. Qed.

Lemma zone_release_exec t s : zone_release t s = Done tt (locked t 0 s).
Proof. done. Qed.

Lemma locked_id t s : length (g_zones (k_buddy s)) = 3%nat -> 0 <= t < 3 ->
  zone_lock (get_zone (k_buddy s) t) = 0 -> locked t 0 (locked t 1 s) = s.
Proof.
  intros Hlen Ht Hl. unfold locked. rewrite upd_upd_zone by done. unfold upd_zone.
  assert (Heq : set_zone_lock 0 (set_zone_lock 1 (get_zone (k_buddy s) t)) = get_zone (k_buddy s) t).
  { unfold set_zone_lock. destruct (get_zone (k_buddy s) t). simpl in *. by subst. }
  rewrite Heq, put_zone_id by done. apply set_buddy_id.
Qed.

(** ** Allocation *)

Lemma find_order_spec s n fl t o : core (k_buddy s) (k_mem s) n fl -> 0 <= t < 3 -> 0 <= o <= 11 ->
  while o (find_order_body t) s =
    Done (match first_order (Z.to_nat (11 - o)) (fl t) o with Some (k, _, _) => k | None => 11 end) s.
Proof.
  intros Hc Ht Ho.
  assert (H : wp (while o (find_order_body t)) (fun k s' => s' = s /\
            k = match first_order (Z.to_nat (11 - o)) (fl t) o with Some (k, _, _) => k | None => 11 end) s).
  { apply (wp_loop (fun d x s' => s' = s /\ d = Z.to_nat (11 - x) /\ o <= x <= 11 /\
             first_order (Z.to_nat (11 - x)) (fl t) x = first_order (Z.to_nat (11 - o)) (fl t) o)
             (Z.to_nat (11 - o))); [auto with lia|lia|].
    intros d x s' (-> & -> & Hx & Heq). unfold find_order_body, BUDDY_MAX_ORDER.
    destruct (Z.leb_spec x 10).
    - apply wp_bind, wp_gets, wp_ret.
      pose proof (zi_list _ _ _ (c_zone _ _ _ _ Hc t Ht) x ltac:(lia)) as Hl.
      replace (Z.to_nat (11 - x)) with (S (Z.to_nat (11 - (x + 1)))) in Heq |- * by lia.
      cbn [first_order] in Heq. destruct (Z.eqb_spec (zone_head (get_zone (k_buddy s) t) x) NULL) as [Hz|Hz].
      + apply (dll_head_nonnull _ _ _ _ _ _ Hl) in Hz. rewrite Hz in Heq.
        exists (Z.to_nat (11 - (x + 1))). split; [lia|]. auto with lia.
      + split; [done|]. destruct (fl t x); [by destruct Hz|]. by rewrite <- Heq.
    - apply wp_ret. split; [done|]. assert (x = 11) as -> by lia. simpl in Heq. by rewrite <- Heq. }
  apply wp_Done in H as (k & s' & Hr & -> & ->). done.
Qed.

Section split.
Context (s0 : kst) (n t o block : Z) (fl0 : lists).
Hypothesis Ht : 0 <= t < 3.
Let P (x : Z) : Prop := ~ covered fl0 x.

(** Between two rounds of the splitting loop. *)
Definition split_inv (flT : lists) (d : nat) (c : Z) (s : kst) : Prop :=
  exists fl, core (k_buddy s) (k_mem s) n fl /\ c = o + Z.of_nat d /\ 0 <= o /\
    held (g_memory_start (k_buddy s)) n fl block c /\ split_lists d t block c fl = flT /\
    (forall x, covered fl0 x <-> covered fl x \/ within block (sz c) x) /\
    agree P (k_mem s0) (k_mem s) /\ same_meta (k_buddy s0) (k_buddy s) /\ only_mb s0 s.

Lemma split_loop flT d c s : split_inv flT d c s ->
  wp (while c (split_body t o block)) (fun _ => split_inv flT 0 o) s.
Proof.
  intros HI. apply (wp_loop (split_inv flT) d); [done| |].
  { destruct HI as (fl & _ & -> & ? & [[? _] _] & _). lia. }
  clear HI d c s. intros d c s (fl & Hc & Hcd & Ho & Hheld & Hsp & Hcov & Hag & Hm & Hon).
  unfold split_body. destruct (Z.ltb_spec o c) as [Hoc|Hoc]; cycle 1.
  { apply wp_ret. assert (d = 0%nat) as -> by lia. assert (c = o) as -> by lia. exists fl. do 8 (split; [done || lia|]). done. }
  destruct d as [|d]; [lia|].
  destruct Hc as [Hgeo Hsize Hlen Hblk Hz].
  destruct (split_step _ n fl t block c Hgeo Hblk Ht ltac:(lia) Hheld) as (Hh1 & _ & Hh2 & Hcov').
  pose proof (blk_ok_addr _ _ _ _ Hgeo (proj1 Hh1)).
  pose proof (proj1 (proj1 Hheld)). pose proof (sz_orders (c - 1) ltac:(lia)).
  rewrite pages_to_bytes_order by lia.
  pose proof (blk_ok_addr _ _ _ _ Hgeo (proj1 Hh2)).
  rewrite u64_id by lia.
  apply wp_bind. eapply wp_of_Done; [by apply zone_push_exec|]. apply wp_ret.
  exists d. split; [lia|].
  destruct (push_core s n fl ltac:(done) t (c - 1) (block + sz (c - 1)) Ht Hh1) as [Hc' Hag'].
  eexists. split; [exact Hc'|]. split; [lia|]. split; [done|]. split; [exact Hh2|].
  split; [exact Hsp|]. split; [intros x; by rewrite Hcov, Hcov'|]. split; [|split].
  - etrans; [exact Hag|]. eapply agree_mono; [|exact Hag']. intros x Hx. unfold P in Hx.
    rewrite Hcov in Hx. split; [tauto|]. intros Hw. apply Hx. right. unfold within in *.
    destruct (upper_half _ n block c ltac:(lia) (proj1 Hheld)) as (_ & _ & Hs). lia.
  - etrans; [exact Hm|]. apply moved_meta; [done|done|]. by intros [].
  - etrans; [exact Hon|]. unfold only_mb. eauto.
Qed.
End split.

(** The bitmap after an allocation or a free. *)
Definition bit_set (b : buddy_st) (p : Z) (v : bool) (b' : buddy_st) : Prop :=
  forall q, 0 <= q -> test_allocation_bit b' q =
    if (q =? p) && (p <? 8 * BITMAP_SIZE) then v else test_allocation_bit b q.

(** Everything an operation on the allocator promises besides its lists. *)
Record effect (s s' : kst) (n : Z) (fl' : lists) (P : Z -> Prop) : Prop := {
  ef_inv : binv (k_buddy s') (k_mem s') n fl';
  ef_mem : agree P (k_mem s) (k_mem s');
  ef_only : only_mb s s';
  ef_region : same_region (k_buddy s) (k_buddy s')
}.

Lemma test_bit_testbit b q : 0 <= q ->
  test_allocation_bit b q =
  if q / 8 <? BITMAP_SIZE then Z.testbit (bitmap_byte b (q / 8)) (q mod 8) else false.
Proof.
  intros Hq. unfold test_allocation_bit. destruct (q / 8 <? BITMAP_SIZE); [|done].
  pose proof (Z.mod_pos_bound q 8 ltac:(lia)).
  rewrite Z.testbit_odd. change 1 with (Z.ones 1) at 1. rewrite Z.land_ones by lia.
  change (2 ^ 1) with 2. rewrite Zmod_odd. by destruct (Z.odd _).
Qed.

Lemma upd_byte_bit b p q v y : 0 <= p -> 0 <= q -> p / 8 < BITMAP_SIZE ->
  (forall j, 0 <= j < 8 -> Z.testbit y j = if j =? p mod 8 then v else Z.testbit (bitmap_byte b (p / 8)) j) ->
  test_allocation_bit (set_bitmap_byte (p / 8) y b) q =
    if (q =? p) && (p <? 8 * BITMAP_SIZE) then v else test_allocation_bit b q.
Proof.
  intros Hp Hq Hlt Hy. rewrite !test_bit_testbit by done.
  pose proof (Z.mod_pos_bound q 8 ltac:(lia)). pose proof (Z.mod_pos_bound p 8 ltac:(lia)).
  pose proof (Z.div_mod q 8 ltac:(lia)). pose proof (Z.div_mod p 8 ltac:(lia)).
  unfold BITMAP_SIZE in *.
  rewrite (proj2 (Z.ltb_lt p _)) by lia. rewrite andb_true_r.
  unfold bitmap_byte, set_bitmap_byte. cbn [g_allocation_bitmap].
  destruct (decide (q / 8 = p / 8)) as [Heq|Hne].
  - rewrite Heq, lookup_insert_eq. cbn [default]. rewrite (proj2 (Z.ltb_lt _ _)) by done.
    fold (bitmap_byte b (p / 8)). rewrite Hy by done.
    destruct (Z.eqb_spec (q mod 8) (p mod 8)), (Z.eqb_spec q p); try done; lia.
  - rewrite lookup_insert_ne by done. destruct (Z.eqb_spec q p) as [->|]; done.
Qed.

Lemma bit_of_u8 x j : 0 <= j < 8 -> Z.testbit (u8 x) j = Z.testbit x j.
Proof. intros. unfold u8. apply Z.mod_pow2_bits_low. lia. Qed.
Lemma bit_of_shl1 i j : 0 <= i -> 0 <= j -> Z.testbit (Z.shiftl 1 i) j = (j =? i).
Proof.
  intros. rewrite Z.shiftl_spec by lia. destruct (Z.eqb_spec j i) as [->|Hne].
  - by rewrite Z.sub_diag.
  - destruct (decide (j < i)); [by rewrite Z.testbit_neg_r by lia|].
    change 1 with (2 ^ 0). apply Z.pow2_bits_false. lia.
Qed.

(** What [set_bit] and [clear_bit] do to the bits, and to nothing else. *)
Lemma set_bit_spec p b : 0 <= p -> bit_set b p true (set_bit p b).
Proof.
  intros Hp q Hq. unfold set_bit. destruct (Z.ltb_spec (p / 8) BITMAP_SIZE) as [Hlt|Hge].
  - apply upd_byte_bit; [done|done|done|]. intros j Hj. pose proof (Z.mod_pos_bound p 8 ltac:(lia)).
    rewrite bit_of_u8, Z.lor_spec, bit_of_shl1 by lia. by destruct (j =? p mod 8), (Z.testbit _ j).
  - pose proof (Z.div_mod p 8 ltac:(lia)). pose proof (Z.mod_pos_bound p 8 ltac:(lia)).
    rewrite (proj2 (Z.ltb_ge p _)) by lia. by rewrite andb_false_r.
Qed.

Lemma clear_bit_spec p b : 0 <= p -> bit_set b p false (clear_bit p b).
Proof.
  intros Hp q Hq. unfold clear_bit. destruct (Z.ltb_spec (p / 8) BITMAP_SIZE) as [Hlt|Hge].
  - apply upd_byte_bit; [done|done|done|]. intros j Hj. pose proof (Z.mod_pos_bound p 8 ltac:(lia)).
    rewrite bit_of_u8, Z.land_spec, Z.lnot_spec, bit_of_shl1 by lia.
    by destruct (j =? p mod 8), (Z.testbit _ j).
  - pose proof (Z.div_mod p 8 ltac:(lia)). pose proof (Z.mod_pos_bound p 8 ltac:(lia)).
    rewrite (proj2 (Z.ltb_ge p _)) by lia. by rewrite andb_false_r.
Qed.

Lemma set_bit_rest p b : g_zones (set_bit p b) = g_zones b /\
  g_memory_start (set_bit p b) = g_memory_start b /\ g_memory_size (set_bit p b) = g_memory_size b.
Proof. unfold set_bit. by destruct (_ <? _). Qed.
Lemma clear_bit_rest p b : g_zones (clear_bit p b) = g_zones b /\
  g_memory_start (clear_bit p b) = g_memory_start b /\ g_memory_size (clear_bit p b) = g_memory_size b.
Proof. unfold clear_bit. by destruct (_ <? _). Qed.

(** The invariant does not read the bitmap. *)
Lemma core_bitmap b b' m n fl : core b m n fl -> g_zones b' = g_zones b ->
  g_memory_start b' = g_memory_start b -> g_memory_size b' = g_memory_size b -> core b' m n fl.
Proof.
  intros [H1 H2 H3 H4 H5] Hz Hst Hs. split; rewrite ?Hst, ?Hs, ?Hz; try done.
  intros t Ht. unfold get_zone. rewrite Hz. by apply H5.
Qed.

Lemma get_zone_ext b b' t : g_zones b' = g_zones b -> get_zone b' t = get_zone b t.
Proof. intros H. unfold get_zone. by rewrite H. Qed.

(** Closing an operation on zone [t]: the page counter is set and the lock released. *)
Definition closed (t f : Z) (s : kst) : kst := locked t 0 (upd_zone t (set_free_pages f) s).

Lemma close_inv s0 s n fl t f : core (k_buddy s) (k_mem s) n fl -> 0 <= t < 3 ->
  (forall t', 0 <= t' < 3 -> t' <> t -> zone_lock (get_zone (k_buddy s) t') = 0 /\
                free_pages (get_zone (k_buddy s) t') = pages_of (fl t')) ->
  f = pages_of (fl t) ->
  (forall t', 0 <= t' < 3 -> total_pages (get_zone (k_buddy s) t') = total_pages (get_zone (k_buddy s0) t')) ->
  g_memory_start (k_buddy s) = g_memory_start (k_buddy s0) ->
  g_memory_size (k_buddy s) = g_memory_size (k_buddy s0) ->
  binv (k_buddy (closed t f s)) (k_mem s) n fl /\ same_region (k_buddy s0) (k_buddy (closed t f s)) /\
  g_allocation_bitmap (k_buddy (closed t f s)) = g_allocation_bitmap (k_buddy s).
Proof.
  intros Hc Ht Hoth Hf Htot Hst Hsz. pose proof (core_length _ _ _ _ Hc) as Hlen.
  unfold closed, locked. rewrite upd_upd_zone by done. unfold upd_zone. cbn [k_buddy set_buddy].
  assert (Hg : forall t', 0 <= t' < 3 ->
    get_zone (put_zone t (set_zone_lock 0 (set_free_pages f (get_zone (k_buddy s) t))) (k_buddy s)) t' =
    if t' =? t then set_zone_lock 0 (set_free_pages f (get_zone (k_buddy s) t)) else get_zone (k_buddy s) t').
  { intros t' Ht'. by rewrite get_put_zone by lia. }
  split; [split|split; [split; [|split]|]]; try done.
  - apply (core_upd _ _ _ _ t (fun z => set_zone_lock 0 (set_free_pages f z))); [done|done|]. by intros [].
  - intros t' Ht'. rewrite Hg by done. destruct (Z.eqb_spec t' t); [done|]. by apply Hoth.
  - intros t' Ht'. rewrite Hg by done. destruct (Z.eqb_spec t' t) as [->|]; [done|]. by apply Hoth.
  - intros t' Ht'. rewrite Hg by done. rewrite <- Htot by done.
    destruct (Z.eqb_spec t' t) as [->|]; done.
Qed.

Lemma locked_core t l s n fl : core (k_buddy s) (k_mem s) n fl -> 0 <= t < 3 ->
  core (k_buddy (locked t l s)) (k_mem s) n fl /\
  (forall t', 0 <= t' < 3 ->
     free_pages (get_zone (k_buddy (locked t l s)) t') = free_pages (get_zone (k_buddy s) t') /\
     total_pages (get_zone (k_buddy (locked t l s)) t') = total_pages (get_zone (k_buddy s) t') /\
     (t' <> t -> zone_lock (get_zone (k_buddy (locked t l s)) t') = zone_lock (get_zone (k_buddy s) t'))).
Proof.
  intros Hc Ht. pose proof (core_length _ _ _ _ Hc) as Hlen. split.
  - apply (core_upd _ _ _ _ t (set_zone_lock l)); [done|done|]. by intros [].
  - intros t' Ht'. unfold locked, upd_zone. cbn [k_buddy set_buddy]. rewrite get_put_zone by lia.
    destruct (Z.eqb_spec t' t) as [->|]; done.
Qed.

(** The zone an allocation uses: an unknown zone type means UNMOVABLE. *)
Definition zone_of (zone_type : Z) : Z :=
  if BUDDY_ZONE_COUNT <=? zone_type then BUDDY_ZONE_UNMOVABLE else zone_type.

Lemma zone_of_range z : 0 <= z -> 0 <= zone_of z < 3.
Proof.
  intros. unfold zone_of, BUDDY_ZONE_COUNT, BUDDY_ZONE_UNMOVABLE. destruct (Z.leb_spec 3 z); lia.
Qed.

(** What an operation that holds the lock of a zone leaves alone in every zone. *)
Record quiet (b b' : buddy_st) : Prop := {
  qt_start : g_memory_start b' = g_memory_start b;
  qt_size : g_memory_size b' = g_memory_size b;
  qt_free t : free_pages (get_zone b' t) = free_pages (get_zone b t);
  qt_total t : total_pages (get_zone b' t) = total_pages (get_zone b t);
  qt_lock t : zone_lock (get_zone b' t) = zone_lock (get_zone b t)
}.

#[export] Instance quiet_preorder : PreOrder quiet.
Proof. split; [done|]. intros x y z [] []. split; intros; congruence. Qed.
Lemma same_meta_quiet b b' : same_meta b b' -> quiet b b'.
Proof. by intros []. Qed.
Lemma set_bit_quiet p b : quiet b (set_bit p b).
Proof. unfold set_bit. by destruct (_ <? _). Qed.
Lemma clear_bit_quiet p b : quiet b (clear_bit p b).
Proof. unfold clear_bit. by destruct (_ <? _). Qed.

(** The bits depend on the bitmap only. *)
Lemma bit_ext b b' q : g_allocation_bitmap b' = g_allocation_bitmap b ->
  test_allocation_bit b' q = test_allocation_bit b q.
Proof. intros E. unfold test_allocation_bit, bitmap_byte. by rewrite E. Qed.

Lemma page_index_nonneg b a : 0 <= addr_to_page_index b a.
Proof. unfold addr_to_page_index, BUDDY_PAGE_SIZE. apply Z.div_pos; [apply u64_bound|lia]. Qed.

(** The common end of an allocation and of a deallocation in zone [t]. *)
Lemma finish s s4 n fl fl' t f P p v : binv (k_buddy s) (k_mem s) n fl -> 0 <= t < 3 ->
  core (k_buddy s4) (k_mem s4) n fl' -> quiet (k_buddy (locked t 1 s)) (k_buddy s4) ->
  (forall t', t' <> t -> fl' t' = fl t') -> f = pages_of (fl' t) ->
  agree P (k_mem s) (k_mem s4) -> only_mb s s4 -> bit_set (k_buddy s) p v (k_buddy s4) ->
  effect s (closed t f s4) n fl' P /\ bit_set (k_buddy s) p v (k_buddy (closed t f s4)).
Proof.
  intros Hinv Ht Hc Hq Hoth Hf Hag Hon Hbit.
  destruct (locked_core t 1 s n fl (bi_core _ _ _ _ Hinv) Ht) as [_ Hz1].
  destruct (close_inv s s4 n fl' t f) as (Hi & Hr & Hbm); try done.
  - intros t' Ht' Hne. destruct (Hz1 t' Ht') as (H1 & _ & H3).
    rewrite (qt_lock _ _ Hq), (qt_free _ _ Hq), H3, H1, Hoth by done.
    split; [by apply (bi_lock _ _ _ _ Hinv)|by apply (bi_free _ _ _ _ Hinv)].
  - intros t' Ht'. rewrite (qt_total _ _ Hq). by apply Hz1.
  - by rewrite (qt_start _ _ Hq).
  - by rewrite (qt_size _ _ Hq).
  - split; [split|].
    + exact Hi.
    + exact Hag.
    + etrans; [exact Hon|]. exists (k_mem s4), (k_buddy (closed t f s4)). by destruct s4.
    + exact Hr.
    + intros q Hq0. rewrite (bit_ext _ _ _ Hbm). by apply Hbit.
Qed.

Section alloc.
Context (s : kst) (n : Z) (fl : lists) (order zone_type : Z).
Hypothesis Hinv : binv (k_buddy s) (k_mem s) n fl.
Hypothesis Hz : 0 <= zone_type.
Hypothesis Ho : 0 <= order <= 10.
Let t := zone_of zone_type.

Lemma alloc_fails : alloc_spec fl t order = None -> buddy_alloc_pages order zone_type s = Done 0 s.
Proof.
  intros Hspec. pose proof (zone_of_range _ Hz) as Ht. fold t in Ht.
  unfold buddy_alloc_pages. fold (zone_of zone_type). fold t.
  unfold BUDDY_MAX_ORDER at 1. rewrite (proj2 (Z.ltb_ge 10 order)) by lia. cbv zeta.
  unfold mbind at 1, M_bind at 1. rewrite zone_acquire_exec by (by apply Hinv).
  destruct (locked_core t 1 s n fl (bi_core _ _ _ _ Hinv) Ht) as [Hc1 _].
  unfold mbind at 1, M_bind at 1.
  rewrite (find_order_spec _ n fl) by (done || lia).
  unfold alloc_spec in Hspec. destruct (first_order _ _ _) as [[[k a] rest]|]; [done|].
  change (BUDDY_MAX_ORDER <? 11) with true. cbn iota.
  unfold mbind, M_bind. rewrite zone_release_exec.
  rewrite locked_id; [done| |done|by apply Hinv]. apply (core_length _ _ _ _ (bi_core _ _ _ _ Hinv)).
Qed.

(** The end of a successful allocation: the block is marked and the zone closed. *)
Lemma alloc_commit s3 a fl' : core (k_buddy s3) (k_mem s3) n fl' -> same_meta (k_buddy (locked t 1 s)) (k_buddy s3) ->
  agree (fun x => ~ covered fl x) (k_mem (locked t 1 s)) (k_mem s3) -> only_mb s s3 ->
  pages_of (fl' t) = pages_of (fl t) - 2 ^ order -> (forall t', t' <> t -> fl' t' = fl t') ->
  wp (b ← gets k_buddy;
      set_allocation_bit (addr_to_page_index b a) order ;;
      modify (upd_zone t (fun z => set_free_pages (u64 (free_pages z - order_size order)) z)) ;;
      zone_release t ;;
      mret a)
    (fun r s' => r = a /\ effect s s' n fl' (fun x => ~ covered fl x) /\ bit_set (k_buddy s) (addr_to_page_index (k_buddy s) a) true (k_buddy s')) s3.
Proof.
  intros Hc3 Hm Hag Hon Hpages Hoth. pose proof (zone_of_range _ Hz) as Ht. fold t in Ht. pose proof (bi_core _ _ _ _ Hinv) as Hc.
  pose proof (pages_of_bound _ _ _ t (c_geo _ _ _ _ Hc) (c_blocks _ _ _ _ Hc) Ht) as Hbound. pose proof (pages_of_nonneg (fl' t)) as Hnn.
  destruct (locked_core t 1 s n fl Hc Ht) as [_ Hz1]. apply wp_bind, wp_gets.
  assert (Hidx : addr_to_page_index (k_buddy s3) a = addr_to_page_index (k_buddy s) a) by (unfold addr_to_page_index; by rewrite (sm_start _ _ Hm)).
  rewrite Hidx. pose proof (page_index_nonneg (k_buddy s) a) as Hidx0. set (p := addr_to_page_index (k_buddy s) a) in *.
  apply wp_bind, wp_modify. set (s4 := set_buddy (set_bit p (k_buddy s3)) s3).
  apply wp_bind, wp_modify, wp_bind. eapply wp_of_Done; [apply zone_release_exec|]. apply wp_ret. split; [done|].
  assert (Hq : quiet (k_buddy (locked t 1 s)) (k_buddy s4)) by (etrans; [apply same_meta_quiet, Hm|apply set_bit_quiet]).
  apply (finish s s4 n fl fl' t (u64 (free_pages (get_zone (k_buddy s4) t) - order_size order))); try done.
  - destruct (set_bit_rest p (k_buddy s3)) as (? & ? & ?). by apply (core_bitmap (k_buddy s3)).
  - destruct (Hz1 t Ht) as (Hf & _). rewrite (qt_free _ _ Hq), Hf, (bi_free _ _ _ _ Hinv) by done.
    rewrite order_size_pow by lia. destruct (c_geo _ _ _ _ Hc) as (? & ? & ? & ?). usimpl. lia.
  - destruct Hon as (m' & b' & ->). unfold only_mb. eexists _, _. reflexivity.
  - intros q Hq0. change (k_buddy s4) with (set_bit p (k_buddy s3)). rewrite (set_bit_spec p (k_buddy s3)) by done. destruct (_ && _); [done|].
    apply bit_ext. by rewrite (sm_bitmap _ _ Hm).
Qed.

Lemma alloc_succeeds a fl' : alloc_spec fl t order = Some (a, fl') ->
  exists s', buddy_alloc_pages order zone_type s = Done a s' /\
    effect s s' n fl' (fun x => ~ covered fl x) /\
    bit_set (k_buddy s) (addr_to_page_index (k_buddy s) a) true (k_buddy s').
Proof.
  intros Hspec. pose proof (zone_of_range _ Hz) as Ht. fold t in Ht.
  pose proof (bi_core _ _ _ _ Hinv) as Hc.
  destruct (alloc_spec_ok _ _ _ _ _ _ _ (c_geo _ _ _ _ Hc) (c_blocks _ _ _ _ Hc) Ht (proj1 Ho) Hspec)
    as (_ & _ & _ & Hpages & Hoth).
  apply wp_Done_eq.
  unfold buddy_alloc_pages. fold (zone_of zone_type). fold t.
  unfold BUDDY_MAX_ORDER at 1. rewrite (proj2 (Z.ltb_ge 10 order)) by lia. cbv zeta.
  apply wp_bind. eapply wp_of_Done; [apply zone_acquire_exec; by apply Hinv|].
  destruct (locked_core t 1 s n fl Hc Ht) as [Hc1 Hz1].
  set (s1 := locked t 1 s) in *.
  apply wp_bind. eapply wp_of_Done; [by apply (find_order_spec _ n fl); [| |lia]|].
  unfold alloc_spec in Hspec.
  destruct (first_order _ _ _) as [[[k b] rest]|] eqn:Efo; [|done]. injection Hspec as -> Hfl'.
  apply first_order_Some in Efo as (Hk & Hl & _).
  unfold BUDDY_MAX_ORDER. rewrite (proj2 (Z.ltb_ge 10 k)) by lia.
  apply wp_bind, wp_gets.
  assert (Hhead : zone_head (get_zone (k_buddy s1) t) k = a).
  { pose proof (zi_list _ _ _ (c_zone _ _ _ _ Hc1 t Ht) k ltac:(lia)) as Hd.
    rewrite Hl in Hd. by destruct Hd as [? _]. }
  rewrite Hhead.
  apply wp_bind. eapply wp_of_Done; [apply zone_unlink_exec; [by eapply core_length|done]|].
  destruct (unlink_core s1 n fl Hc1 t k a [] rest Ht ltac:(lia) Hl) as (Hc2 & Hh2 & Hag2).
  set (s2 := moved t _ _ s1) in *. simpl app in *.
  pose proof (covered_unlink _ n fl (c_blocks _ _ _ _ Hc) t k a [] rest Hl) as Hcov2. simpl app in Hcov2.
  assert (Hm2 : same_meta (k_buddy s1) (k_buddy s2)).
  { apply moved_meta; [by eapply core_length|done|]. by intros []. }
  apply wp_bind. eapply wp_mono.
  { apply (split_loop s2 n t order a fl Ht fl' (Z.to_nat (k - order)) k s2).
    eexists. split; [exact Hc2|]. split; [lia|]. split; [lia|].
    split; [exact Hh2|]. split; [done|]. split; [done|]. split; [done|]. split; done. }
  intros [] s3 (fl3 & Hc3 & _ & _ & _ & Hsp3 & _ & Hag3 & Hm3 & Hon3). cbn [split_lists] in Hsp3. subst fl3.
  apply alloc_commit; [done| |by etrans| |lia|done].
  - etrans; [exact Hm2|exact Hm3].
  - destruct Hon3 as (m' & b' & ->). unfold only_mb. eexists _, _. reflexivity.
Qed.
End alloc.

(** ** Deallocation *)

Lemma find_spec s n fl t o ba : core (k_buddy s) (k_mem s) n fl -> 0 <= t < 3 -> 0 <= o <= 10 ->
  ba <> NULL ->
  while (zone_head (get_zone (k_buddy s) t) o) (find_body ba) s =
    Done (if bool_decide (ba ∈ fl t o) then ba else NULL) s.
Proof.
  intros Hc Ht Ho Hba.
  assert (H : wp (while (zone_head (get_zone (k_buddy s) t) o) (find_body ba)) (fun r s' => s' = s /\
                r = if bool_decide (ba ∈ fl t o) then ba else NULL) s).
  { apply (wp_loop (fun d x s' => s' = s /\ exists l p, dll 0 8 (k_mem s) p x l /\ d = length l /\
             (ba ∈ fl t o <-> ba ∈ l)) (length (fl t o))).
    - split; [done|]. exists (fl t o), NULL. split; [|done]. by apply (c_zone _ _ _ _ Hc t Ht).
    - pose proof (list_length_bound _ _ _ (c_geo _ _ _ _ Hc) (c_blocks _ _ _ _ Hc) t o).
      destruct (c_geo _ _ _ _ Hc) as (? & _ & ? & ?). lia.
    - intros d x s' (-> & l & p & Hl & -> & Hiff). unfold find_body.
      destruct l as [|a l]; simpl in Hl.
      + rewrite (proj2 (Z.eqb_eq x NULL)) by done. apply wp_ret. split; [done|].
        rewrite bool_decide_eq_false_2; [done|]. rewrite Hiff. apply not_elem_of_nil.
      + destruct Hl as (-> & Ha & _ & Hl). rewrite (proj2 (Z.eqb_neq a NULL)) by done.
        destruct (Z.eqb_spec a ba) as [->|Hne].
        * apply wp_ret. split; [done|]. rewrite bool_decide_eq_true_2; [done|]. rewrite Hiff. left.
        * apply wp_bind, wp_gets, wp_ret. exists (length l). split; [simpl; lia|]. split; [done|].
          exists l, a. rewrite Z.add_0_r in Hl. split; [done|]. split; [done|].
          rewrite Hiff, elem_of_cons. naive_solver. }
  apply wp_Done in H as (r & s' & Hr & -> & ->). done.
Qed.

Lemma buddy_free_ext b b' fl a c : g_memory_start b' = g_memory_start b ->
  g_memory_size b' = g_memory_size b -> g_allocation_bitmap b' = g_allocation_bitmap b ->
  buddy_free b' fl a c = buddy_free b fl a c.
Proof.
  intros H1 H2 H3. unfold buddy_free, out_of_range, test_allocation_bit, bitmap_byte,
    get_buddy_address, addr_to_page_index, page_index_to_addr. by rewrite H1, H2, H3.
Qed.

Section merge.
Context (s0 : kst) (n : Z) (fl0 : lists) (a0 o0 : Z).
Let b0 := k_buddy s0.

(** Between two rounds of the merge loop, [d] of them left. *)
Definition merge_inv (res : lists * Z * Z) (d : nat) (x : Z * Z) (s : kst) : Prop :=
  exists fl, core (k_buddy s) (k_mem s) n fl /\ x.2 + Z.of_nat d = 10 /\
    held (g_memory_start b0) n fl x.1 x.2 /\ merge_lists d b0 fl x.1 x.2 = res /\
    agree (fun y => ~ covered fl0 y) (k_mem s0) (k_mem s) /\
    (forall y, covered fl y -> covered fl0 y) /\
    same_meta b0 (k_buddy s) /\ only_mb s0 s.

(** One round that finds a free buddy: it leaves its list and is absorbed. *)
Lemma merge_absorb res d ca co s fl (Q : (Z * Z) + (Z * Z) -> kst -> Prop) : let ba := get_buddy_address b0 ca co in
  core (k_buddy s) (k_mem s) n fl -> co + Z.of_nat (S d) = 10 -> held (g_memory_start b0) n fl ca co -> buddy_free b0 fl ca co = true ->
  merge_lists (S d) b0 fl ca co = res -> agree (fun y => ~ covered fl0 y) (k_mem s0) (k_mem s) -> (forall y, covered fl y -> covered fl0 y) ->
  same_meta b0 (k_buddy s) -> only_mb s0 s ->
  (forall s', merge_inv res d (if ba <? ca then ba else ca, co + 1) s' -> Q (inl (if ba <? ca then ba else ca, co + 1)) s') ->
  wp (zone_unlink 0 co ba ;; mret (inl (if ba <? ca then ba else ca, co + 1))) Q s.
Proof.
  intros ba Hc Hd Hheld Hbf Hres Hag Hsub Hm Hon HQ. pose proof (proj1 (proj1 Hheld)) as Hco. cbn [merge_lists] in Hres. rewrite Hbf in Hres. fold ba in Hres.
  assert (Hst : g_memory_start (k_buddy s) = g_memory_start b0) by apply Hm.
  destruct Hc as [Hgeo Hsize Hlen Hblk Hz] eqn:Ec. clear Ec. rewrite Hst in Hgeo, Hblk.
  destruct (merge_step b0 n fl ca co) as (l1 & l2 & Hl & Hw & Hblk' & Hheld' & Hcov); try done; [lia|]. fold ba in Hl, Hw, Hblk', Hheld', Hcov.
  apply wp_bind. eapply wp_of_Done; [by apply zone_unlink_exec|].
  destruct (unlink_core s n fl Hc 0 co ba l1 l2) as (Hc' & _ & Hag'); [done|lia|done|].
  apply wp_ret, HQ. eexists. split; [exact Hc'|]. cbn [fst snd].
  replace (if ba <? ca then ba else ca) with (Z.min ca ba) by (destruct (Z.ltb_spec ba ca); lia).
  rewrite <- Hw. split; [lia|]. split; [exact Hheld'|]. split; [exact Hres|]. split; [|split; [|split]].
  - etrans; [exact Hag|]. eapply agree_mono; [|exact Hag']. intros y Hy Hcy. by apply Hy, Hsub.
  - intros y Hy. apply Hsub. rewrite (covered_unlink _ n fl Hblk 0 co ba l1 l2 Hl), <- Hw. by left.
  - etrans; [exact Hm|]. apply moved_meta; [done|lia|]. by intros [].
  - etrans; [exact Hon|]. unfold only_mb. eauto.
Qed.

Lemma merge_loop flT aT cT d x s : merge_inv (flT, aT, cT) d x s ->
  wp (while x (merge_body 0)) (fun r s' => r = (aT, cT) /\ core (k_buddy s') (k_mem s') n flT /\
        agree (fun y => ~ covered fl0 y) (k_mem s0) (k_mem s') /\
        same_meta b0 (k_buddy s') /\ only_mb s0 s') s.
Proof.
  intros HI. apply (wp_loop (merge_inv (flT, aT, cT)) d); [done| |].
  { destruct HI as (fl & _ & Hd & [[? _] _] & _). lia. }
  clear HI d x s. intros d [ca co] s (fl & Hc & Hd & Hheld & Hres & Hag & Hsub & Hm & Hon).
  simpl in Hd, Hheld, Hres. unfold merge_body. unfold BUDDY_MAX_ORDER.
  pose proof (proj1 (proj1 Hheld)) as Hco.
  destruct (Z.ltb_spec co 10) as [Hlt|Hge]; cycle 1.
  { apply wp_ret. assert (d = 0%nat) as -> by lia. cbn [merge_lists] in Hres.
    injection Hres as -> -> ->. done. }
  destruct d as [|d]; [lia|]. pose proof Hres as Hres0. cbn [merge_lists] in Hres0.
  apply wp_bind, wp_gets.
  assert (Hgb : get_buddy_address (k_buddy s) ca co = get_buddy_address b0 ca co).
  { unfold get_buddy_address, addr_to_page_index, page_index_to_addr. by rewrite (sm_start _ _ Hm). }
  assert (Hbx : buddy_free b0 fl ca co = buddy_free (k_buddy s) fl ca co) by (symmetry; apply (buddy_free_ext b0 (k_buddy s)); apply Hm).
  rewrite Hbx in Hres0.
  assert (Hexit : buddy_free (k_buddy s) fl ca co = false ->
            wp (mret (inr (ca, co))) (fun r s' =>
              match r with
              | inl x' => exists n' : nat, (n' < S d)%nat /\ merge_inv (flT, aT, cT) n' x' s'
              | inr r => r = (aT, cT) /\ core (k_buddy s') (k_mem s') n flT /\
                  agree (fun y => ~ covered fl0 y) (k_mem s0) (k_mem s') /\
                  same_meta b0 (k_buddy s') /\ only_mb s0 s'
              end) s).
  { intros E. rewrite E in Hres0. injection Hres0 as -> -> ->. by apply wp_ret. }
  clear Hres0. unfold buddy_free in Hexit, Hbx at 2. rewrite Hgb in *. set (ba := get_buddy_address b0 ca co) in *.
  destruct (out_of_range (k_buddy s) ba) eqn:Eoor; [by apply Hexit|].
  destruct (test_allocation_bit _ _) eqn:Ebit; [by apply Hexit|]. simpl negb in *. simpl andb in *.
  assert (Hba : ba <> NULL).
  { unfold out_of_range in Eoor. apply orb_false_iff in Eoor as [Eoor _].
    apply Z.ltb_ge in Eoor. destruct (c_geo _ _ _ _ Hc). unfold NULL. lia. }
  apply wp_bind. eapply wp_of_Done; [by apply (find_spec s n fl)|].
  destruct (bool_decide (ba ∈ fl 0 co)) eqn:Ein; [|by apply Hexit]. rewrite (proj2 (Z.eqb_neq ba NULL)) by done.
  apply (merge_absorb (flT, aT, cT) d ca co s fl); try done. intros s' HI. exists d. split; [lia|exact HI].
Qed.
End merge.

(** ** The whole deallocation *)

Lemma clear_bit_lists b p fl : g_zones (clear_bit p b) = g_zones b /\
  forall m n, core b m n fl -> core (clear_bit p b) m n fl.
Proof.
  destruct (clear_bit_rest p b) as (Hz & Hst & Hs). split; [done|].
  intros m n Hc. by apply (core_bitmap b).
Qed.

(** The four guards of [buddy_free_pages]: what they reject changes nothing. *)
Definition free_rejected (b : buddy_st) (address order : Z) : bool :=
  (BUDDY_MAX_ORDER <? order) || (address =? 0) || out_of_range b address ||
  negb (address mod BUDDY_PAGE_SIZE =? 0).

Lemma free_rejects address order s : free_rejected (k_buddy s) address order = true ->
  buddy_free_pages address order s = Done tt s.
Proof.
  unfold free_rejected, buddy_free_pages. intros H.
  destruct (BUDDY_MAX_ORDER <? order); [done|]. destruct (address =? 0); [done|].
  unfold mbind, M_bind, gets. destruct (out_of_range _ _); [done|]. simpl in H. by rewrite H.
Qed.

Section free.
Context (s : kst) (n : Z) (fl : lists) (a o : Z).
Hypothesis Hinv : binv (k_buddy s) (k_mem s) n fl.
Hypothesis Hheld : held (g_memory_start (k_buddy s)) n fl a o.
Let p := addr_to_page_index (k_buddy s) a.
Let b1 := clear_bit p (k_buddy s).

Lemma held_not_rejected : free_rejected (k_buddy s) a o = false.
Proof.
  destruct (bi_core _ _ _ _ Hinv) as [Hgeo Hsize _ _ _].
  pose proof (blk_ok_addr _ _ _ _ Hgeo (proj1 Hheld)) as (H1 & H2 & H3).
  pose proof (proj1 (proj1 Hheld)) as Ho. unfold free_rejected.
  rewrite (block_in_range _ n a o) by (done || apply Hheld).
  unfold BUDDY_MAX_ORDER, BUDDY_PAGE_SIZE. rewrite H3.
  rewrite (proj2 (Z.ltb_ge 10 o)), (proj2 (Z.eqb_neq a 0)) by lia. done.
Qed.

(** The state when the merge loop starts. *)
Let s2 := set_buddy (clear_bit p (k_buddy (locked 0 1 s))) (locked 0 1 s).

Lemma free_start : core (k_buddy s2) (k_mem s2) n fl /\ quiet (k_buddy (locked 0 1 s)) (k_buddy s2) /\
  (forall d fl' x c, merge_lists d (k_buddy s2) fl' x c = merge_lists d b1 fl' x c) /\
  bit_set (k_buddy s) p false (k_buddy s2) /\ only_mb s s2.
Proof.
  destruct (locked_core 0 1 s n fl (bi_core _ _ _ _ Hinv) ltac:(lia)) as [Hc1 _].
  split; [by apply clear_bit_lists|]. split; [apply clear_bit_quiet|]. split; [|split].
  - induction d as [|d IH]; intros fl' x c; [done|]. cbn [merge_lists].
    rewrite <- (buddy_free_ext b1 (k_buddy s2)) by
      (unfold s2, b1, clear_bit, locked, upd_zone; cbn [k_buddy set_buddy]; by destruct (_ <? _)).
    assert (get_buddy_address (k_buddy s2) x c = get_buddy_address b1 x c) as ->.
    { unfold get_buddy_address, addr_to_page_index, page_index_to_addr, s2, b1, clear_bit, locked, upd_zone.
      cbn [k_buddy set_buddy]. by destruct (_ <? _). }
    by destruct (buddy_free _ _ _ _).
  - intros q Hq. unfold s2. cbn [k_buddy set_buddy].
    rewrite (clear_bit_spec p _ (page_index_nonneg _ _)) by done. destruct (_ && _); [done|]. done.
  - by exists (k_mem s), (k_buddy s2).
Qed.

Lemma free_accepts : exists s', buddy_free_pages a o s = Done tt s' /\
  effect s s' n (free_spec b1 fl a o) (fun x => ~ covered fl x /\ ~ within a (sz o) x) /\
  bit_set (k_buddy s) p false (k_buddy s').
Proof.
  pose proof (bi_core _ _ _ _ Hinv) as Hc0. pose proof (proj1 (proj1 Hheld)) as Ho.
  destruct free_start as (Hc2 & Hq2 & Hmerge & Hbit2 & Hon2). pose proof held_not_rejected as Hrej.
  destruct (merge_lists (Z.to_nat (10 - o)) b1 fl a o) as [[flT aT] cT] eqn:Em.
  assert (Hst : g_memory_start b1 = g_memory_start (k_buddy s)) by apply clear_bit_rest.
  destruct (merge_lists_ok (Z.to_nat (10 - o)) b1 n fl a o flT aT cT) as (HblkT & HheldT & HcT & HcovT & HpgT & HothT & _);
    rewrite ?Hst; try done; [apply Hc0|apply Hc0|lia|]. rewrite Hst in HblkT, HheldT.
  apply wp_Done_eq. unfold free_rejected in Hrej. apply orb_false_iff in Hrej as [Hrej H4].
  apply orb_false_iff in Hrej as [Hrej H3]. apply orb_false_iff in Hrej as [H1 H2].
  unfold buddy_free_pages. rewrite H1, H2. apply wp_bind, wp_gets. rewrite H3, H4.
  cbv zeta. apply wp_bind. eapply wp_of_Done; [apply zone_acquire_exec, Hinv; done|].
  apply wp_bind, wp_modify, wp_bind.
  eapply wp_mono.
  { apply (merge_loop s2 n fl flT aT cT (Z.to_nat (10 - o)) (a, o) s2). exists fl.
    split; [exact Hc2|]. split; [simpl; lia|]. split; [rewrite (qt_start _ _ Hq2); exact Hheld|].
    split; [by rewrite Hmerge|]. done. }
  intros r s3 (-> & Hc3 & Hag3 & Hm3 & Hon3).
  apply wp_bind. eapply wp_of_Done; [apply zone_push_exec; [by eapply core_length|done]|].
  assert (Hst3 : g_memory_start (k_buddy s3) = g_memory_start (k_buddy s)).
  { rewrite (sm_start _ _ Hm3). apply (qt_start _ _ Hq2). }
  destruct (push_core s3 n flT Hc3 0 cT aT) as (Hc4 & Hag4); [lia|by rewrite Hst3|].
  set (s4 := moved 0 _ _ s3) in *.
  apply wp_bind, wp_modify. eapply wp_of_Done; [apply zone_release_exec|]. split; [done|].
  assert (Hm4 : same_meta (k_buddy s2) (k_buddy s4)).
  { etrans; [exact Hm3|]. apply moved_meta; [by eapply core_length|done|]. by intros []. }
  destruct (locked_core 0 1 s n fl Hc0 ltac:(lia)) as [_ Hz1].
  replace (free_spec b1 fl a o) with (fupd flT 0 cT (aT :: flT 0 cT)) by (unfold free_spec; by rewrite Em).
  apply (finish s s4 n fl _ 0 (u64 (free_pages (get_zone (k_buddy s4) 0) + order_size o))); try done.
  - etrans; [exact Hq2|]. by apply same_meta_quiet.
  - intros t' Ht'. rewrite <- HothT by done. unfold fupd. by rewrite (proj2 (Z.eqb_neq t' 0)).
  - rewrite pages_of_upd by apply HheldT. simpl length. rewrite (sm_free _ _ Hm4), (qt_free _ _ Hq2).
    destruct (Hz1 0 ltac:(lia)) as (-> & _). rewrite (bi_free _ _ _ _ Hinv), order_size_pow by lia.
    pose proof (pages_of_bound _ _ _ 0 (c_geo _ _ _ _ Hc0) (push_blocks _ _ _ HblkT 0 cT aT ltac:(lia) HheldT) ltac:(lia)) as Hb.
    rewrite pages_of_upd in Hb by apply HheldT. simpl length in Hb. pose proof (pages_of_nonneg (fl 0)).
    pose proof (pow2_orders o Ho). destruct (c_geo _ _ _ _ Hc0) as (? & ? & ? & ?). usimpl. lia.
  - etrans; [|eapply agree_mono; [|exact Hag4]].
    + eapply agree_mono; [|exact Hag3]. intros x. tauto.
    + intros x Hx. specialize (HcovT x). tauto.
  - etrans; [exact Hon2|]. etrans; [exact Hon3|]. by eexists _, _.
  - intros q Hq. rewrite <- Hbit2 by done. apply bit_ext, Hm4.
Qed.
End free.
