(* ===== verification/BuddyInit.v ===== *)
(** What [buddy_init] establishes: the invariant of the allocator with every
    page of the region on the free lists of the UNMOVABLE zone. *)
From S2P Require Import Prelude Machine DList Buddy BuddyInv BuddySpec BuddyThms.

(** [init_order] picks the largest order that fits and is aligned. *)
Lemma init_order_spec k r d : 0 <= k -> 1 <= r ->
  let o := init_order d k r in
  0 <= o <= Z.of_nat d /\ 2 ^ o <= r /\ k mod 2 ^ o = 0 /\
  forall c, o < c <= Z.of_nat d -> r < 2 ^ c \/ k mod 2 ^ c <> 0.
Proof.
  intros Hk Hr. induction d as [|d IH]; cbn [init_order].
  - split; [lia|]. split; [simpl; lia|]. split; [by rewrite Z.mod_1_r|lia].
  - rewrite order_size_pow by lia.
    assert (Hl : Z.land k (2 ^ Z.of_nat (S d) - 1) = k mod 2 ^ Z.of_nat (S d)).
    { rewrite Z.sub_1_r, <- Z.ones_equiv. apply Z.land_ones. lia. }
    rewrite Hl. destruct (Z.ltb_spec r (2 ^ Z.of_nat (S d))) as [Hlt|Hge]; cbn [orb].
    + destruct IH as (H1 & H2 & H3 & H4). split; [lia|]. split; [done|]. split; [done|].
      intros c Hc. destruct (decide (c = Z.of_nat (S d))) as [->|]; [by left|]. apply H4. lia.
    + destruct (Z.eqb_spec (k mod 2 ^ Z.of_nat (S d)) 0) as [Hz|Hnz]; cbn [negb].
      * split; [lia|]. split; [done|]. split; [done|]. lia.
      * destruct IH as (H1 & H2 & H3 & H4). split; [lia|]. split; [done|]. split; [done|].
        intros c Hc. destruct (decide (c = Z.of_nat (S d))) as [->|]; [by right|]. apply H4. lia.
Qed.

(** One round of the initial greedy split.  [aligned k r]: the remaining [r] pages
    start at a multiple of every order that fits in them. *)
Definition aligned (k r : Z) : Prop := forall c, 0 <= c <= 10 -> 2 ^ c <= r -> k mod 2 ^ c = 0.

Lemma mod_pow_le k c d : 0 <= c <= d -> k mod 2 ^ d = 0 -> k mod 2 ^ c = 0.
Proof.
  intros Hcd H. apply Z.mod_divide in H; [|lia]. apply Z.mod_divide; [lia|].
  etrans; [|exact H]. exists (2 ^ (d - c)). rewrite <- Z.pow_add_r by lia. f_equal. lia.
Qed.

Lemma init_order_aligned k r : 0 <= k -> 1 <= r -> aligned k r ->
  let o := init_order 10 k r in
  0 <= o <= 10 /\ 2 ^ o <= r /\ k mod 2 ^ o = 0 /\ (o <= 9 -> r < 2 ^ (o + 1)) /\
  aligned (k + 2 ^ o) (r - 2 ^ o).
Proof.
  intros Hk Hr Hal o. destruct (init_order_spec k r 10 Hk Hr) as (H1 & H2 & H3 & H4). fold o in H1, H2, H3, H4.
  assert (H5 : o <= 9 -> r < 2 ^ (o + 1)).
  { intros Ho. destruct (H4 (o + 1) ltac:(lia)) as [H|H]; [done|].
    destruct (Z.lt_ge_cases r (2 ^ (o + 1))) as [|Hge]; [done|]. by destruct H; apply Hal; [lia|]. }
  split; [lia|]. split; [done|]. split; [done|]. split; [done|].
  intros c Hc Hle. assert (c <= o).
  { destruct (decide (o = 10)); [lia|]. specialize (H5 ltac:(lia)). rewrite Z.pow_add_r in H5 by lia.
    destruct (Z.le_gt_cases c o); [done|]. pose proof (Z.pow_le_mono_r 2 o c). lia. }
  rewrite Z.add_mod, (mod_pow_le k c o) by lia.
  rewrite (mod_pow_le (2 ^ o) c o) by (lia || by apply Z.mod_same; lia). done.
Qed.

(** ** The loop *)

Section init.
Context (st n : Z) (s0 : kst).
Hypothesis Hgeo : geo st n.

(** The lists built so far hold the first [k] pages, and at most one block of
    each order below 10. *)
Record built (fl : lists) (k : Z) : Prop := {
  bu_cov x : covered fl x <-> st <= x < st + 4096 * k;
  bu_zone t o : t <> 0 -> fl t o = [];
  bu_pages : pages_of (fl 0) = k;
  bu_single c : c <= 9 -> fl 0 c <> [] -> length (fl 0 c) = 1%nat /\ n - k < 2 ^ c
}.

Definition init_inv (d : nat) (x : Z * Z) (s : kst) : Prop :=
  exists fl k, core (k_buddy s) (k_mem s) n fl /\ g_memory_start (k_buddy s) = st /\
    x = (st + 4096 * k, n - k) /\ 0 <= k <= n /\ Z.of_nat d = n - k /\
    aligned k (n - k) /\ built fl k /\
    agree (fun y => ~ (st <= y < st + 4096 * n)) (k_mem s0) (k_mem s) /\
    same_meta (k_buddy s0) (k_buddy s) /\ only_mb s0 s.

Lemma built_held fl k o : blocks_ok st n fl -> built fl k -> 0 <= k -> 0 <= o <= 10 ->
  2 ^ o <= n - k -> k mod 2 ^ o = 0 -> held st n fl (st + 4096 * k) o.
Proof.
  intros Hok [Hcov _ _ _] Hk Ho Hle Hal. split.
  - split; [done|]. split; [lia|]. split; [|unfold sz; lia].
    replace (st + 4096 * k - st) with (4096 * k) by lia. unfold sz.
    rewrite Z.mul_mod_distr_l by lia. lia.
  - intros t' o' a' Hin. pose proof (bo_ok _ _ _ Hok _ _ _ Hin) as [_ [Ho' _]].
    pose proof (sz_orders o' Ho'). right.
    assert (covered fl (a' + sz o' - 1)) as Hc%Hcov.
    { exists t', o', a'. split; [done|]. unfold within. lia. }
    lia.
Qed.

Lemma built_push fl k o : built fl k -> 0 <= k -> 0 <= o <= 10 -> 2 ^ o <= n - k ->
  (o <= 9 -> n - k < 2 ^ (o + 1)) ->
  built (fupd fl 0 o ((st + 4096 * k) :: fl 0 o)) (k + 2 ^ o).
Proof.
  intros [Hcov Hz Hp Hs] Hk Ho Hle Hmax. split.
  - intros x. rewrite covered_push, Hcov. unfold within, sz. lia.
  - intros t o' Ht. rewrite fupd_ne by congruence. by apply Hz.
  - rewrite pages_of_upd by done. simpl length. lia.
  - intros c Hc Hne. destruct (fupd_cases fl 0 o ((st + 4096 * k) :: fl 0 o) 0 c) as [(_ & -> & E)|[_ E]];
      rewrite E in Hne |- *.
    + specialize (Hmax ltac:(lia)). rewrite Z.pow_add_r in Hmax by lia.
      destruct (decide (fl 0 o = [])) as [->|Hn0]; [simpl; lia|].
      destruct (Hs o ltac:(lia) Hn0). lia.
    + destruct (Hs c Hc Hne) as [? ?]. lia.
Qed.

Lemma init_loop d x s : init_inv d x s ->
  wp (while x init_body) (fun _ s' => exists fl, core (k_buddy s') (k_mem s') n fl /\ built fl n /\
    g_memory_start (k_buddy s') = st /\
    agree (fun y => ~ (st <= y < st + 4096 * n)) (k_mem s0) (k_mem s') /\
    same_meta (k_buddy s0) (k_buddy s') /\ only_mb s0 s') s.
Proof.
  intros HI. destruct Hgeo as (Hg1 & Hg2 & Hg3 & Hg4).
  apply (wp_loop init_inv d); [done| |].
  { destruct HI as (fl & k & _ & _ & _ & Hk & Hd & _). lia. }
  clear HI d x s. intros d x s (fl & k & Hc & Hst & -> & Hk & Hd & Hal & Hb & Hag & Hm & Hon).
  unfold init_body. destruct (Z.ltb_spec 0 (n - k)) as [Hr|Hr]; cycle 1.
  { apply wp_ret. assert (k = n) as -> by lia. by exists fl. }
  apply wp_bind, wp_gets. cbv zeta.
  assert (Hidx : addr_to_page_index (k_buddy s) (st + 4096 * k) = k).
  { unfold addr_to_page_index, BUDDY_PAGE_SIZE. rewrite Hst.
    replace (st + 4096 * k - st) with (k * 4096) by lia. usimpl. by apply Z.div_mul. }
  rewrite Hidx. destruct (init_order_aligned k (n - k) ltac:(lia) ltac:(lia) Hal) as (Ho & Hle & Hmod & Hmax & Hal').
  set (o := init_order 10 k (n - k)) in *.
  pose proof (c_blocks _ _ _ _ Hc) as Hblk. rewrite Hst in Hblk.
  pose proof (built_held fl k o Hblk Hb ltac:(lia) Ho Hle Hmod) as Hheld.
  rewrite pages_to_bytes_order, order_size_pow by lia. pose proof (sz_orders o Ho).
  apply wp_bind. eapply wp_of_Done; [apply zone_push_exec; [by eapply core_length|done]|].
  destruct (push_core s n fl Hc 0 o (st + 4096 * k) ltac:(lia)) as (Hc' & Hag'); [by rewrite Hst|].
  apply wp_ret. pose proof (pow2_orders o Ho). exists (Z.to_nat (n - (k + 2 ^ o))). split; [lia|].
  eexists _, (k + 2 ^ o). split; [exact Hc'|]. split; [done|].
  assert (Hszo : sz o = 4096 * 2 ^ o) by done.
  split; [rewrite !u64_id by lia; f_equal; lia|]. split; [lia|]. split; [lia|].
  replace (n - (k + 2 ^ o)) with (n - k - 2 ^ o) by lia. split; [done|].
  split; [apply built_push; try done; lia|]. split; [|split].
  - etrans; [exact Hag|]. eapply agree_mono; [|exact Hag']. intros y Hy.
    pose proof (bu_cov _ _ Hb y) as Hy'. split; [intros ?%Hy'; lia|]. unfold within. lia.
  - etrans; [exact Hm|]. apply moved_meta; [by eapply core_length|done|]. by intros [].
  - etrans; [exact Hon|]. by eexists _, _.
Qed.
End init.

(** ** The state the loop starts from *)

Definition fresh_zone (st total : Z) : buddy_zone :=
  mkZone (replicate 11 NULL) (replicate 11 0) total total st BITMAP_SIZE 0.

Definition fresh_buddy (st size : Z) : buddy_st :=
  mkBuddy [fresh_zone st (bytes_to_pages size); fresh_zone st 0; fresh_zone st 0] st size ∅.

Lemma init_prefix st size s : length (g_zones (k_buddy s)) = 3%nat ->
  buddy_init st size s =
  while (st, bytes_to_pages size) init_body (set_buddy (fresh_buddy st size) s).
Proof.
  intros Hlen. unfold buddy_init, for_range. change (Z.to_nat (BUDDY_ZONE_COUNT - 0)) with 3%nat.
  cbn [for_nat]. unfold mbind, M_bind, modify, mret, M_ret. cbv zeta.
  destruct (g_zones (k_buddy s)) as [|z0 [|z1 [|z2 [|? ?]]]] eqn:Ez; try discriminate.
  f_equal.
Qed.

Definition no_blocks : lists := fun _ _ => [].

Lemma fresh_core st n size m : geo st n -> 4096 * (n - 1) < size <= 4096 * n ->
  core (fresh_buddy st size) m n no_blocks.
Proof.
  intros Hgeo Hsize. split; [done|done|done| |].
  - split; [|constructor|]; intros *; unfold no_blocks; by intros ?%not_elem_of_nil.
  - intros t Ht. assert (exists tot, get_zone (fresh_buddy st size) t = fresh_zone st tot) as [tot ->].
    { unfold get_zone. assert (t = 0 \/ t = 1 \/ t = 2) as [->|[->| ->]] by lia; eexists; reflexivity. }
    split; [done|done| |]; intros o Ho; unfold no_blocks, zone_head, zone_count, fresh_zone; cbn [free_lists free_counts];
      rewrite nth_lookup, lookup_replicate_2 by lia; done.
Qed.

Lemma built_nil st n : built st n no_blocks 0.
Proof.
  split; [|done|done|done]. intros x. split; [|lia].
  intros (t & o & a & Hin & _). by apply not_elem_of_nil in Hin.
Qed.

Lemma pages_of_empty fz : (forall o, fz o = []) -> pages_of fz = 0.
Proof.
  intros H. unfold pages_of. induction (seqZ 0 11) as [|o l IH]; simpl; [done|]. rewrite H, IH. simpl. lia.
Qed.

(** Everything [buddy_init] establishes; [n] is the number of pages. *)
Lemma init_succeeds st size s : length (g_zones (k_buddy s)) = 3%nat ->
  let n := bytes_to_pages size in
  geo st n -> 4096 * (n - 1) < size <= 4096 * n ->
  exists s' fl, buddy_init st size s = Done tt s' /\ binv (k_buddy s') (k_mem s') n fl /\
    g_memory_start (k_buddy s') = st /\ g_memory_size (k_buddy s') = size /\
    (forall x, covered fl x <-> st <= x < st + 4096 * n) /\
    (forall t o, t <> 0 -> fl t o = []) /\ pages_of (fl 0) = n /\
    coalesced (k_buddy s') fl /\ (forall q, test_allocation_bit (k_buddy s') q = false) /\
    (forall t, 0 <= t < 3 -> total_pages (get_zone (k_buddy s') t) = if t =? 0 then n else 0) /\
    agree (fun y => ~ (st <= y < st + 4096 * n)) (k_mem s) (k_mem s') /\ only_mb s s'.
Proof.
  intros Hlen n Hgeo Hsize. rewrite init_prefix by done. set (s0 := set_buddy (fresh_buddy st size) s).
  assert (Hw : wp (while (st, n) init_body) (fun _ s' => exists fl, core (k_buddy s') (k_mem s') n fl /\
     built st n fl n /\ g_memory_start (k_buddy s') = st /\
     agree (fun y => ~ (st <= y < st + 4096 * n)) (k_mem s0) (k_mem s') /\
     same_meta (k_buddy s0) (k_buddy s') /\ only_mb s0 s') s0).
  { destruct Hgeo as (? & ? & ? & ?). apply (init_loop st n s0 ltac:(done) (Z.to_nat n)). exists no_blocks, 0.
    split; [by apply fresh_core|]. split; [done|]. split; [f_equal; lia|]. split; [lia|].
    split; [lia|]. split; [intros c Hc _; apply Z.mod_0_l; lia|]. split; [apply built_nil|]. done. }
  apply wp_Done in Hw as ([] & s' & Hrun & fl & Hc & Hb & Hst & Hag & Hm & Hon).
  exists s', fl. split; [exact Hrun|].
  assert (Hz0 : forall t, 0 <= t < 3 -> zone_lock (get_zone (k_buddy s0) t) = 0 /\
     free_pages (get_zone (k_buddy s0) t) = (if t =? 0 then n else 0) /\
     total_pages (get_zone (k_buddy s0) t) = if t =? 0 then n else 0).
  { intros t Ht. assert (t = 0 \/ t = 1 \/ t = 2) as [->|[->| ->]] by lia; done. }
  split; [split; [done| |]|].
  - intros t Ht. rewrite (sm_lock _ _ Hm). by apply Hz0.
  - intros t Ht. rewrite (sm_free _ _ Hm). destruct (Hz0 t Ht) as (_ & -> & _).
    destruct (Z.eqb_spec t 0) as [->|Hne]; [symmetry; apply Hb|].
    symmetry. apply pages_of_empty. intros o. by apply (bu_zone _ _ _ _ Hb).
  - split; [done|]. split; [apply Hm|]. split; [apply Hb|]. split; [apply Hb|]. split; [apply Hb|].
    split; [|split; [|split; [|split; [done|]]]].
    + intros c a Hc9 Ha Hin. destruct (bu_single _ _ _ _ Hb c Hc9) as [Hl _]; [by intros E; rewrite E in Ha; apply not_elem_of_nil in Ha|].
      destruct (fl 0 c) as [|y [|? ?]] eqn:Efl; try done. apply list_elem_of_singleton in Ha as ->.
      apply list_elem_of_singleton in Hin.
      apply (buddy_ne (k_buddy s') n y c); [by rewrite Hst| |done].
      eapply (bo_ok _ _ _ (c_blocks _ _ _ _ Hc) 0 c y). rewrite Efl. eauto with inlist.
    + intros q. unfold test_allocation_bit, bitmap_byte. rewrite (sm_bitmap _ _ Hm).
      destruct (_ <? _); [|done]. change (g_allocation_bitmap (k_buddy s0)) with (∅ : gmap Z Z).
      by rewrite lookup_empty, Z.land_0_l || rewrite lookup_empty, Z.shiftr_0_l.
    + intros t Ht. rewrite (sm_total _ _ Hm). by apply Hz0.
    + etrans; [|exact Hon]. by exists (k_mem s), (k_buddy s0).
Qed.
