(* ===== verification/BuddyTrace.v ===== *)
(** Clients of the buddy allocator: every sequence of allocations, deallocations
    of allocated blocks and writes to allocated memory, from [buddy_init] on.
    The invariant of such histories says that the allocated blocks and the free
    lists partition the region and that no two free buddies are left unmerged. *)
From S2P Require Import Prelude Machine DList Buddy BuddyInv BuddySpec BuddyThms BuddyInit.

(** ** Splitting leaves no two free buddies *)

Lemma sub_coalesced b fl fl' : (forall c x, x ∈ fl' 0 c -> x ∈ fl 0 c) -> coalesced b fl -> coalesced b fl'.
Proof. intros Hsub Hco c a Hc Ha Hin. exact (Hco c a Hc (Hsub _ _ Ha) (Hsub _ _ Hin)). Qed.

Lemma push_coalesced b n fl a c : geo (g_memory_start b) n ->
  (forall o x, x ∈ fl 0 o -> blk_ok (g_memory_start b) n x o) ->
  blk_ok (g_memory_start b) n a c -> coalesced b fl ->
  (c <= 9 -> get_buddy_address b a c ∉ fl 0 c) -> coalesced b (fupd fl 0 c (a :: fl 0 c)).
Proof.
  intros Hgeo Hbl Ha Hco Hnot c' x Hc Hx Hin.
  destruct (fupd_cases fl 0 c (a :: fl 0 c) 0 c') as [(_ & -> & E)|[_ E]]; rewrite E in Hx, Hin;
    [|exact (Hco c' x Hc Hx Hin)].
  apply elem_of_cons in Hx as [->|Hx].
  - apply elem_of_cons in Hin as [Heq|Hin]; [|by apply Hnot]. by apply (buddy_ne b n a c Hgeo).
  - apply elem_of_cons in Hin as [Heq|Hin]; [|exact (Hco _ _ Hc Hx Hin)].
    apply Hnot; [done|]. rewrite <- Heq. rewrite (buddy_involutive b n); [done|done|by apply Hbl|].
    by rewrite Heq.
Qed.

Lemma split_coalesced b n d a c fl : geo (g_memory_start b) n -> blocks_ok (g_memory_start b) n fl ->
  Z.of_nat d <= c -> held (g_memory_start b) n fl a c -> coalesced b fl ->
  coalesced b (split_lists d 0 a c fl).
Proof.
  intros Hgeo. revert c fl. induction d as [|d IH]; intros c fl Hok Hd Hheld Hco; cbn [split_lists]; [done|].
  destruct (split_step _ n fl 0 a c Hgeo Hok ltac:(lia) ltac:(lia) Hheld) as (Hu & Hok' & Hheld' & _).
  apply IH; [done|lia|done|]. pose proof (proj1 (proj1 Hheld)) as Hc.
  apply (push_coalesced b n); [done|intros o x Hx; apply (bo_ok _ _ _ Hok _ _ _ Hx)|apply Hu|done|].
  intros _ Hin. destruct (upper_half _ n a c ltac:(lia) (proj1 Hheld)) as (Hlo & _ & _).
  destruct (buddy_address_cases b n _ (c - 1) Hgeo (proj1 Hu)) as (k & Hk & Ha & Hba).
  destruct Hheld as [(_ & _ & Hmod & _) Hd'].
  (* the upper half has an odd index, so its buddy is the block being split *)
  assert (Hodd : Z.even k = false).
  { apply Z.mod_divide in Hmod as [q Hq]; [|pose proof (sz_orders c Hc); lia].
    pose proof (sz_succ (c - 1) ltac:(lia)) as Hs. replace (c - 1 + 1) with c in Hs by lia.
    pose proof (sz_orders (c - 1) ltac:(lia)). assert (k = 2 * q + 1) as -> by nia.
    rewrite Z.even_add, Z.even_mul. done. }
  rewrite Hodd in Hba.
  assert (Heq : get_buddy_address b (a + sz (c - 1)) (c - 1) = a) by lia.
  rewrite Heq in Hin. specialize (Hd' _ _ _ Hin). pose proof (sz_orders c Hc).
  pose proof (sz_orders (c - 1) ltac:(lia)). unfold disj in Hd'. lia.
Qed.

Lemma alloc_coalesced b n fl t o a fl' : geo (g_memory_start b) n ->
  blocks_ok (g_memory_start b) n fl -> 0 <= t < 3 -> 0 <= o -> coalesced b fl ->
  alloc_spec fl t o = Some (a, fl') -> coalesced b fl'.
Proof.
  intros Hgeo Hok Ht Ho Hco Hspec. unfold alloc_spec in Hspec.
  destruct (first_order _ (fl t) o) as [[[k x] rest]|] eqn:E; [|done]. injection Hspec as <- <-.
  apply first_order_Some in E as (Hk & Hl & _).
  pose proof (unlink_blocks _ n fl Hok t k x [] rest Hl) as Hok1.
  pose proof (unlink_held _ n fl Hok t k x [] rest Hl) as Hheld1. simpl app in *.
  assert (Hco1 : coalesced b (fupd fl t k rest)).
  { eapply sub_coalesced; [|exact Hco]. intros c y Hy.
    destruct (fupd_cases fl t k rest 0 c) as [(<- & -> & E)|[_ E]]; rewrite E in Hy; [|done].
    rewrite Hl. by right. }
  destruct (decide (t = 0)) as [->|Hne].
  - apply (split_coalesced b n); [done|done|lia|done|done].
  - destruct (split_lists_ok _ n (Z.to_nat (k - o)) t x k (fupd fl t k rest) Hgeo Hok1 Ht ltac:(lia) Hheld1)
      as (_ & _ & _ & _ & Hz).
    eapply sub_coalesced; [|exact Hco1]. intros c y Hy. by rewrite Hz in Hy by done.
Qed.

(** ** Histories *)

Abbreviation blocks := (list (Z * Z)).

Definition in_block (A : blocks) (x : Z) : Prop := exists a o, (a, o) ∈ A /\ within a (sz o) x.
Definition block_pages (A : blocks) : Z := zsum (fun ao => 2 ^ ao.2) A.

(** One step of a client that owns the blocks [A]. *)
Inductive client_step : kst * blocks -> kst * blocks -> Prop :=
| cs_alloc order zone_type r s s' A : 0 <= order -> 0 <= zone_type ->
    buddy_alloc_pages order zone_type s = Done r s' ->
    client_step (s, A) (s', if r =? 0 then A else (r, order) :: A)
| cs_free address order s s' A1 A2 :
    buddy_free_pages address order s = Done tt s' ->
    client_step (s, A1 ++ (address, order) :: A2) (s', A1 ++ A2)
| cs_free_bad address order s s' A : free_rejected (k_buddy s) address order = true ->
    buddy_free_pages address order s = Done tt s' -> client_step (s, A) (s', A)
| cs_write m s A : agree (fun x => ~ in_block A x) (k_mem s) m -> client_step (s, A) (set_mem m s, A).

Record hist (st size n : Z) (s : kst) (A : blocks) (fl : lists) : Prop := {
  hi_inv : binv (k_buddy s) (k_mem s) n fl;
  hi_start : g_memory_start (k_buddy s) = st;
  hi_size : g_memory_size (k_buddy s) = size;
  hi_total t : 0 <= t < 3 -> total_pages (get_zone (k_buddy s) t) = if t =? 0 then n else 0;
  hi_zone t o : t <> 0 -> fl t o = [];
  hi_held a o : (a, o) ∈ A -> held st n fl a o;
  hi_nodup : NoDup A;
  hi_disj a o a' o' : (a, o) ∈ A -> (a', o') ∈ A -> (a, o) <> (a', o') -> disj a o a' o';
  hi_cover x : st <= x < st + 4096 * n -> covered fl x \/ in_block A x;
  hi_pages : pages_of (fl 0) + block_pages A = n;
  hi_bits q : 0 <= q -> test_allocation_bit (k_buddy s) q = true ->
              exists a o, (a, o) ∈ A /\ q = (a - st) / 4096;
  hi_coal : coalesced (k_buddy s) fl
}.

Lemma page_index_of st n a o b : geo st n -> blk_ok st n a o -> g_memory_start b = st ->
  forall x, within a (sz o) x -> addr_to_page_index b x = (x - st) / 4096.
Proof.
  intros (H1 & H2 & H3 & H4) (H5 & H6 & H7 & H8) Hst x Hx. unfold addr_to_page_index, BUDDY_PAGE_SIZE, within in *.
  rewrite Hst. usimpl. done.
Qed.

(** A free block has a clear bit on every page. *)
Lemma hist_bits_clear st size n s A fl : hist st size n s A fl -> bits_clear (k_buddy s) fl.
Proof.
  intros H x (t & o & a & Hin & Hx).
  pose proof (bi_core _ _ _ _ (hi_inv _ _ _ _ _ _ H)) as Hc. pose proof (hi_start _ _ _ _ _ _ H) as Hst.
  pose proof (c_geo _ _ _ _ Hc) as Hgeo. rewrite Hst in Hgeo.
  destruct (bo_ok _ _ _ (c_blocks _ _ _ _ Hc) _ _ _ Hin) as [_ Hbk]. rewrite Hst in Hbk.
  destruct (test_allocation_bit _ _) eqn:E; [|done]. exfalso.
  apply (hi_bits _ _ _ _ _ _ H) in E as (a' & o' & HinA & Hq); [|apply page_index_nonneg].
  rewrite (page_index_of st n a o) in Hq by done.
  destruct (hi_held _ _ _ _ _ _ H _ _ HinA) as [Hb' Hd]. specialize (Hd _ _ _ Hin).
  destruct Hbk as (Ho1 & _ & Hm1 & _), Hb' as (Ho2 & _ & Hm2 & _).
  assert (Hdv : forall c y, 0 <= c -> (y - st) mod sz c = 0 -> exists k, y - st = 4096 * k).
  { intros c y Hc0 Hm. apply Z.mod_divide in Hm as [k Hk]; [|unfold sz; lia]. exists (k * 2 ^ c). unfold sz in Hk. lia. }
  destruct (Hdv o a ltac:(lia) Hm1) as [k1 Hk1], (Hdv o' a' ltac:(lia) Hm2) as [k2 Hk2].
  rewrite Hk2, Z.mul_comm, Z.div_mul in Hq by lia. unfold disj, within, sz in *.
  pose proof (Z.div_mod (x - st) 4096 ltac:(lia)). pose proof (Z.mod_pos_bound (x - st) 4096 ltac:(lia)). nia.
Qed.

(** ** Each step keeps the invariant *)

Lemma alloc_bad_order order zone_type s : 10 < order -> buddy_alloc_pages order zone_type s = Done 0 s.
Proof. intros H. unfold buddy_alloc_pages, BUDDY_MAX_ORDER. by rewrite (proj2 (Z.ltb_lt 10 order)) by lia. Qed.

Lemma bit_set_false b p v b' q : bit_set b p v b' -> 0 <= q -> test_allocation_bit b' q = true ->
  test_allocation_bit b q = true /\ (v = false -> p < 8 * BITMAP_SIZE -> q <> p) \/ v = true /\ q = p.
Proof.
  intros Hb Hq. rewrite Hb by done. destruct (Z.eqb_spec q p) as [->|Hne]; cbn [andb].
  - destruct (Z.ltb_spec p (8 * BITMAP_SIZE)).
    + intros ->. by right.
    + intros H1. left. split; [done|]. intros _ H2. lia.
  - intros H. left. by split.
Qed.

Lemma NoDup_middle {A} (l1 l2 : list A) x : NoDup (l1 ++ x :: l2) -> NoDup (l1 ++ l2).
Proof.
  rewrite !NoDup_app. intros (H1 & H2 & [_ H3]%NoDup_cons). split; [done|]. split; [|done].
  intros y Hy Hy2. apply (H2 y Hy). by right.
Qed.

Lemma coalesced_ext b b' fl : g_memory_start b' = g_memory_start b -> coalesced b fl -> coalesced b' fl.
Proof.
  intros E H c a Hc Ha. unfold get_buddy_address, addr_to_page_index, page_index_to_addr. rewrite E. by apply H.
Qed.

Lemma set_bit_index b q : 0 <= q -> test_allocation_bit b q = true -> q < 8 * BITMAP_SIZE.
Proof.
  intros Hq. unfold test_allocation_bit. destruct (Z.ltb_spec (q / 8) BITMAP_SIZE); [|done].
  pose proof (Z.div_mod q 8 ltac:(lia)). pose proof (Z.mod_pos_bound q 8 ltac:(lia)). lia.
Qed.

Lemma bits_clear_clear p b fl : 0 <= p -> bits_clear b fl -> bits_clear (clear_bit p b) fl.
Proof.
  intros Hp H x Hx. assert (addr_to_page_index (clear_bit p b) x = addr_to_page_index b x) as ->.
  { unfold addr_to_page_index. by rewrite (proj1 (proj2 (clear_bit_rest p b))). }
  rewrite (clear_bit_spec p b) by (done || apply page_index_nonneg). destruct (_ && _); [done|]. by apply H.
Qed.

(** Two blocks are apart when they share no byte. *)
Lemma disj_bytes a o b ob : 0 <= o <= 10 -> 0 <= ob <= 10 ->
  (forall x, within a (sz o) x -> ~ within b (sz ob) x) -> disj a o b ob.
Proof.
  intros Ho Hob Hno. pose proof (sz_orders o Ho). pose proof (sz_orders ob Hob).
  unfold disj. destruct (decide (b <= a)); [pose proof (Hno a)|pose proof (Hno b)]; unfold within in *; lia.
Qed.

Lemma disj_sym a o b ob : disj a o b ob -> disj b ob a o.
Proof. unfold disj. lia. Qed.

Lemma held_covered st n fl a o : blocks_ok st n fl ->
  held st n fl a o <-> blk_ok st n a o /\ forall x, within a (sz o) x -> ~ covered fl x.
Proof.
  intros Hok. split.
  - intros [Hb Hd]. split; [done|]. intros x Hx (t & o' & y & Hy & Hyx).
    specialize (Hd _ _ _ Hy). unfold disj, within in *. lia.
  - intros [Hb Hno]. split; [done|]. intros t o' y Hy.
    apply disj_bytes; [apply Hb|apply (bo_ok _ _ _ Hok _ _ _ Hy)|].
    intros x Hx Hyx. apply (Hno x Hx). by exists t, o', y.
Qed.

Section steps.
Context (st size n : Z).

Lemma block_nonzero s A fl a o : hist st size n s A fl -> blk_ok st n a o -> 0 < a.
Proof.
  intros H [Ho Ha]. pose proof (c_geo _ _ _ _ (bi_core _ _ _ _ (hi_inv _ _ _ _ _ _ H))) as (Hg & _).
  rewrite (hi_start _ _ _ _ _ _ H) in Hg. lia.
Qed.

Lemma page_of_block s A fl a o : hist st size n s A fl -> blk_ok st n a o ->
  addr_to_page_index (k_buddy s) a = (a - st) / 4096.
Proof.
  intros H Hb. pose proof (c_geo _ _ _ _ (bi_core _ _ _ _ (hi_inv _ _ _ _ _ _ H))) as Hg.
  rewrite (hi_start _ _ _ _ _ _ H) in Hg. pose proof (sz_orders o (proj1 Hb)).
  eapply (page_index_of st n a o); [done|done|by eapply hi_start|]. unfold within. lia.
Qed.

Lemma hist_alloc_ok s A fl o t a fl' s' : hist st size n s A fl -> 0 <= o <= 10 -> 0 <= t < 3 ->
  alloc_spec fl t o = Some (a, fl') -> effect s s' n fl' (fun x => ~ covered fl x) ->
  bit_set (k_buddy s) (addr_to_page_index (k_buddy s) a) true (k_buddy s') ->
  hist st size n s' ((a, o) :: A) fl'.
Proof.
  intros H Ho Ht Hspec He Hbit. pose proof H as [Hinv Hst Hsz Htot Hz Hheld Hnd Hdj Hcov Hpg Hbits Hco].
  destruct (bi_core _ _ _ _ Hinv) as [Hgeo _ _ Hblk _].
  destruct (alloc_spec_ok _ n fl t o a fl' Hgeo Hblk Ht ltac:(lia) Hspec) as (Hblk' & Hha & Hcov' & Hpg' & Hoth).
  rewrite Hst in *. pose proof (ef_region _ _ _ _ _ He) as (Hs1 & Hs2 & Hs3).
  assert (Ht0 : t = 0).
  { destruct (decide (t = 0)) as [|Hne]; [done|]. exfalso.
    unfold alloc_spec in Hspec. destruct (first_order _ _ _) as [[[k b] rest]|] eqn:E; [|done].
    apply first_order_Some in E as (_ & E & _). by rewrite Hz in E. }
  subst t. pose proof (sz_orders o Ho) as Hso.
  assert (Hnew : forall b ob, (b, ob) ∈ A -> disj b ob a o).
  { intros b ob Hin. destruct (proj1 (held_covered _ _ _ _ _ Hblk) (Hheld _ _ Hin)) as [Hb Hno].
    apply disj_bytes; [apply Hb|done|]. intros x Hx Hax. apply (Hno x Hx), Hcov'. by right. }
  split; try done; try congruence.
  - apply He.
  - intros t' Ht'. rewrite Hs3 by done. by apply Htot.
  - intros t o' Hne. rewrite Hoth by done. by apply Hz.
  - intros b ob Hin. apply elem_of_cons in Hin as [[= -> ->]|Hin]; [done|].
    destruct (proj1 (held_covered _ _ _ _ _ Hblk) (Hheld _ _ Hin)) as [Hb Hno].
    apply held_covered; [done|]. split; [done|]. intros x Hx Hc. apply (Hno x Hx), Hcov'. by left.
  - apply NoDup_cons. split; [|done]. intros Hin%Hnew. unfold disj in Hin. lia.
  - intros b ob c oc Hb Hc' Hne. apply elem_of_cons in Hb as [[= -> ->]|Hb]; apply elem_of_cons in Hc'.
    + destruct Hc' as [[= -> ->]|Hc']; [done|]. specialize (Hnew _ _ Hc'). unfold disj in *. lia.
    + destruct Hc' as [[= -> ->]|Hc']; [by apply Hnew|by apply Hdj].
  - intros x Hx. destruct (Hcov x Hx) as [Hc|(b & ob & Hin & Hbx)].
    + apply Hcov' in Hc as [Hc|Hc]; [by left|]. right. exists a, o. split; [left|done].
    + right. exists b, ob. split; [by right|done].
  - unfold block_pages in *. cbn [zsum snd]. lia.
  - intros q Hq Ht1. apply (bit_set_false _ _ _ _ q Hbit) in Ht1 as [[Ht1 _]|[_ ->]]; [| |done].
    + destruct (Hbits q Hq Ht1) as (b & ob & Hin & Heq). exists b, ob. split; [by right|done].
    + exists a, o. split; [left|]. by eapply page_of_block; [|apply Hha].
  - assert (Hco' : coalesced (k_buddy s) fl') by (apply (alloc_coalesced _ n fl 0 o a); rewrite ?Hst; done || lia).
    intros c x Hc Hx. unfold get_buddy_address, addr_to_page_index, page_index_to_addr.
    rewrite Hs1. by apply Hco'.
Qed.

Lemma hist_free_ok s A1 A2 fl a o s' : hist st size n s (A1 ++ (a, o) :: A2) fl ->
  let fl' := free_spec (clear_bit (addr_to_page_index (k_buddy s) a) (k_buddy s)) fl a o in
  effect s s' n fl' (fun x => ~ covered fl x /\ ~ within a (sz o) x) ->
  bit_set (k_buddy s) (addr_to_page_index (k_buddy s) a) false (k_buddy s') ->
  hist st size n s' (A1 ++ A2) fl'.
Proof.
  intros H fl' He Hbit. pose proof H as [Hinv Hst Hsz Htot Hz Hheld Hnd Hdj Hcov Hpg Hbits Hco].
  destruct (bi_core _ _ _ _ Hinv) as [Hgeo Hsize _ Hblk _].
  set (p := addr_to_page_index (k_buddy s) a) in *. set (b1 := clear_bit p (k_buddy s)) in *.
  destruct (clear_bit_rest p (k_buddy s)) as (_ & Hst1 & Hsz1). fold b1 in Hst1, Hsz1.
  assert (Hin : (a, o) ∈ A1 ++ (a, o) :: A2) by eauto with inlist.
  assert (Hsub : forall x, x ∈ A1 ++ A2 -> x ∈ A1 ++ (a, o) :: A2 /\ x <> (a, o)).
  { apply NoDup_app in Hnd as (_ & Hd & [Hn _]%NoDup_cons). intros x [Hx|Hx]%elem_of_app.
    - split; [eauto with inlist|]. intros ->. apply (Hd _ Hx). left.
    - split; [eauto with inlist|]. by intros ->. }
  pose proof (Hheld _ _ Hin) as Hha. rewrite Hst in Hgeo, Hblk, Hst1.
  destruct (free_spec_ok b1 n fl a o) as (Hblk' & Hcov' & Hpg' & Hoth); try (by rewrite Hst1).
  fold fl' in Hblk', Hcov', Hpg', Hoth. rewrite Hst1 in Hblk'.
  pose proof (ef_region _ _ _ _ _ He) as (Hs1 & Hs2 & Hs3).
  split; try congruence.
  - apply He.
  - intros t' Ht'. rewrite Hs3 by done. by apply Htot.
  - intros t o' Hne. rewrite Hoth by done. by apply Hz.
  - intros b ob [Hb Hne]%Hsub. destruct (proj1 (held_covered _ _ _ _ _ Hblk) (Hheld _ _ Hb)) as [Hbk Hno].
    apply held_covered; [done|]. split; [done|]. intros x Hx Hc. apply Hcov' in Hc as [Hc|Hc]; [by apply (Hno x)|].
    specialize (Hdj _ _ _ _ Hb Hin Hne). unfold disj, within in *. lia.
  - by eapply NoDup_middle.
  - intros b ob c oc [Hb _]%Hsub [Hc _]%Hsub. by apply Hdj.
  - intros x Hx. destruct (Hcov x Hx) as [Hc|(b & ob & Hb & Hbx)]; [left; apply Hcov'; by left|].
    apply elem_of_app in Hb as [Hb|[[= -> ->]|Hb]%elem_of_cons].
    + right. exists b, ob. split; [eauto with inlist|done].
    + left. apply Hcov'. by right.
    + right. exists b, ob. split; [eauto with inlist|done].
  - unfold block_pages in *. rewrite zsum_app in *. cbn [zsum snd] in Hpg. lia.
  - intros q Hq Ht1. apply (bit_set_false _ _ _ _ q Hbit) in Ht1 as [[Ht1 Hqp]|[? _]]; [|done|done].
    destruct (Hbits q Hq Ht1) as (b & ob & Hb & Heq). exists b, ob. split; [|done].
    apply elem_of_app in Hb as [Hb|[[= -> ->]|Hb]%elem_of_cons]; [eauto with inlist| |eauto with inlist].
    exfalso. assert (Hp : q = p) by (rewrite Heq; symmetry; by eapply page_of_block; [|apply Hha]).
    apply Hqp; [done| |done]. rewrite <- Hp. by apply (set_bit_index (k_buddy s)).
  - apply (coalesced_ext b1); [congruence|].
    apply (free_spec_coalesced b1 n); rewrite ?Hst1, ?Hsz1; try done.
    + apply bits_clear_clear; [apply page_index_nonneg|]. by eapply hist_bits_clear.
    + by apply (coalesced_ext (k_buddy s)); [congruence|].
Qed.
End steps.

(** The invariant reads only the bytes of the free blocks. *)
Lemma core_frame b m m' n fl : core b m n fl -> agree (covered fl) m m' -> core b m' n fl.
Proof.
  intros [H1 H2 H3 H4 H5] Hag. split; try done. intros t Ht. destruct (H5 t Ht) as [G1 G2 G3 G4].
  split; try done. intros o Ho. eapply (dll_frame_nodes 0 8 16); try lia; [|by apply G3].
  intros a Ha. eapply agree_mono; [|exact Hag]. intros x Hx. exists t, o, a. split; [done|].
  pose proof (sz_orders o Ho). unfold within in *. lia.
Qed.

Lemma binv_frame b m m' n fl : binv b m n fl -> agree (covered fl) m m' -> binv b m' n fl.
Proof. intros [H1 H2 H3] Hag. split; try done. by eapply core_frame. Qed.

Lemma hist_not_both st size n s A fl x : hist st size n s A fl -> covered fl x -> ~ in_block A x.
Proof.
  intros H Hc (a & o & Hin & Hx). pose proof (bi_core _ _ _ _ (hi_inv _ _ _ _ _ _ H)) as Hco.
  pose proof (c_blocks _ _ _ _ Hco) as Hblk. rewrite (hi_start _ _ _ _ _ _ H) in Hblk.
  pose proof (hi_held _ _ _ _ _ _ H _ _ Hin) as Hh.
  apply (held_covered _ _ _ _ _ Hblk) in Hh as [_ Hno]. by apply (Hno x).
Qed.

(** Every call on a reachable state returns. *)
Lemma hist_alloc_runs st size n s A fl o z : hist st size n s A fl -> 0 <= o -> 0 <= z ->
  exists r s' fl', buddy_alloc_pages o z s = Done r s' /\
    hist st size n s' (if r =? 0 then A else (r, o) :: A) fl' /\
    (r <> 0 -> alloc_spec fl (zone_of z) o = Some (r, fl') /\
               agree (fun x => ~ covered fl x) (k_mem s) (k_mem s')) /\
    (r = 0 -> s' = s /\ (o <= 10 -> forall j, o <= j <= 10 -> fl (zone_of z) j = [])).
Proof.
  intros H Ho Hz. pose proof (hi_inv _ _ _ _ _ _ H) as Hinv. pose proof (zone_of_range z Hz) as Ht.
  destruct (Z.lt_ge_cases 10 o) as [Hgt|Hle].
  { exists 0, s, fl. rewrite alloc_bad_order by done. split; [done|]. split; [done|]. split; [done|].
    intros _. split; [done|lia]. }
  destruct (alloc_spec fl (zone_of z) o) as [[a fl']|] eqn:E.
  - destruct (alloc_succeeds s n fl o z Hinv Hz ltac:(lia) a fl' E) as (s' & Hrun & He & Hbit).
    pose proof (hist_alloc_ok st size n s A fl o _ a fl' s' H ltac:(lia) Ht E He Hbit) as H'.
    assert (a <> 0).
    { assert (0 < a); [|lia]. apply (block_nonzero st size n s' ((a, o) :: A) fl' a o H').
      apply (hi_held _ _ _ _ _ _ H'). left. }
    exists a, s', fl'. rewrite (proj2 (Z.eqb_neq a 0)) by done. split; [done|]. split; [done|].
    split; [|done]. intros _. split; [done|apply He].
  - exists 0, s, fl. split; [by apply (alloc_fails s n fl)|]. split; [done|]. split; [done|].
    intros _. split; [done|]. intros _. by apply alloc_spec_None.
Qed.

Lemma hist_free_runs st size n s A1 A2 fl a o : hist st size n s (A1 ++ (a, o) :: A2) fl ->
  exists s' fl', buddy_free_pages a o s = Done tt s' /\ hist st size n s' (A1 ++ A2) fl' /\
    (forall x, covered fl' x <-> covered fl x \/ within a (sz o) x) /\
    agree (fun x => ~ covered fl x /\ ~ within a (sz o) x) (k_mem s) (k_mem s').
Proof.
  intros H. pose proof (hi_inv _ _ _ _ _ _ H) as Hinv. pose proof (bi_core _ _ _ _ Hinv) as Hc.
  assert (Hheld : held (g_memory_start (k_buddy s)) n fl a o).
  { rewrite (hi_start _ _ _ _ _ _ H). apply (hi_held _ _ _ _ _ _ H). eauto with inlist. }
  destruct (free_accepts s n fl a o Hinv Hheld) as (s' & Hrun & He & Hbit).
  eexists s', _. split; [done|]. split; [by apply (hist_free_ok st size n s A1 A2 fl a o s')|].
  set (p := addr_to_page_index (k_buddy s) a). destruct (clear_bit_rest p (k_buddy s)) as (_ & Hst1 & _).
  destruct (free_spec_ok (clear_bit p (k_buddy s)) n fl a o) as (_ & Hcov & _); try (rewrite Hst1; done || apply Hc).
  split; [exact Hcov|apply He].
Qed.

Lemma hist_write st size n s A fl m : hist st size n s A fl ->
  agree (fun x => ~ in_block A x) (k_mem s) m -> hist st size n (set_mem m s) A fl.
Proof.
  intros H Hag. pose proof H as [Hinv Hst Hsz Htot Hz Hheld Hnd Hdj Hcov Hpg Hbits Hco].
  split; try done. apply (binv_frame _ (k_mem s)); [done|]. eapply agree_mono; [|exact Hag].
  intros x Hx. by eapply hist_not_both.
Qed.

Lemma hist_init st size s : length (g_zones (k_buddy s)) = 3%nat -> let n := bytes_to_pages size in
  geo st n -> 4096 * (n - 1) < size <= 4096 * n ->
  exists s' fl, buddy_init st size s = Done tt s' /\ hist st size n s' [] fl /\
    (forall x, covered fl x <-> st <= x < st + 4096 * n).
Proof.
  intros Hlen n Hgeo Hsize.
  destruct (init_succeeds st size s Hlen Hgeo Hsize)
    as (s' & fl & Hrun & Hinv & Hst & Hsz & Hcov & Hz & Hpg & Hco & Hbits & Htot & _).
  exists s', fl. split; [done|]. split; [|done]. split; try done.
  - intros a o []%not_elem_of_nil.
  - constructor.
  - intros a o a' o' []%not_elem_of_nil.
  - intros x Hx. left. by apply Hcov.
  - unfold block_pages. simpl. lia.
  - intros q _. by rewrite Hbits.
Qed.

(** ** Reachable states *)

(** [s] with the blocks [A] handed out is a state a client can reach. *)
Definition reachable (st size : Z) (s : kst) (A : blocks) : Prop :=
  exists s0 s1, length (g_zones (k_buddy s0)) = 3%nat /\ buddy_init st size s0 = Done tt s1 /\
    rtc client_step (s1, []) (s, A).

(** A region the allocator can manage: page aligned, above address 0, below the
    end of the address space. *)
Definition good_region (st size : Z) : Prop :=
  geo st (bytes_to_pages size) /\ 4096 * (bytes_to_pages size - 1) < size <= 4096 * bytes_to_pages size.

Lemma step_hist st size n s A s' A' fl : hist st size n s A fl -> client_step (s, A) (s', A') ->
  exists fl', hist st size n s' A' fl'.
Proof.
  intros H Hstep. inversion Hstep as [o z r ? ? ? Ho Hz Hrun|a o ? ? A1 A2 Hrun|a o ? ? ? Hrej Hrun|m ? ? Hag]; subst.
  - destruct (hist_alloc_runs st size n s A fl o z H Ho Hz) as (r' & s2 & fl' & Hrun' & H' & _).
    rewrite Hrun in Hrun'. injection Hrun' as <- <-. by exists fl'.
  - destruct (hist_free_runs st size n s A1 A2 fl a o H) as (s2 & fl' & Hrun' & H' & _).
    rewrite Hrun in Hrun'. injection Hrun' as <-. by exists fl'.
  - rewrite (free_rejects a o s Hrej) in Hrun. injection Hrun as <-. by exists fl.
  - exists fl. by apply hist_write.
Qed.

Lemma reachable_hist st size s A : good_region st size -> reachable st size s A ->
  exists fl, hist st size (bytes_to_pages size) s A fl.
Proof.
  intros [Hgeo Hsize] (s0 & s1 & Hlen & Hinit & Hsteps).
  destruct (hist_init st size s0 Hlen Hgeo Hsize) as (s1' & fl & Hinit' & H & _).
  rewrite Hinit in Hinit'. injection Hinit' as <-.
  clear Hinit. remember (s1, []) as x eqn:Ex. remember (s, A) as y eqn:Ey.
  revert s1 A s fl Ex Ey H. generalize ([] : blocks) as A1.
  induction Hsteps as [x|x [s2 A2] z Hst _ IH]; intros A1 s1 A s fl Ex Ey H; subst.
  - injection Ey as -> ->. by exists fl.
  - destruct (step_hist _ _ _ _ _ _ _ _ H Hst) as [fl2 H2].
    by apply (IH A2 s2 A s fl2 eq_refl eq_refl).
Qed.

(** ** A wholly free aligned range is one free block *)

Lemma aligned_within st a o p c r : 0 <= c <= o -> (a - st) mod sz o = 0 -> (p - st) mod sz c = 0 ->
  0 <= r < sz c -> within a (sz o) (p + r) -> a <= p /\ p + sz c <= a + sz o.
Proof.
  intros Hco Ha Hp Hr Hx. assert (Hpos : 0 < sz c) by (unfold sz; lia).
  assert (Hs : sz o = sz c * 2 ^ (o - c)).
  { unfold sz. rewrite <- Z.mul_assoc, <- Z.pow_add_r by lia. do 2 f_equal. lia. }
  pose proof (Z.pow_pos_nonneg 2 (o - c) ltac:(lia) ltac:(lia)) as Hw.
  apply Z.mod_divide in Ha as [u Hu]; [|lia]. apply Z.mod_divide in Hp as [v Hv]; [|lia].
  unfold within in Hx. rewrite Hs in *. set (w := 2 ^ (o - c)) in *. set (z := sz c) in *. clearbody w z.
  assert (u * w <= v) by nia. assert (v < u * w + w) by nia. nia.
Qed.

(** [p] is where an aligned block of order [c] could be. *)
Lemma coalesced_complete b n fl c p : geo (g_memory_start b) n -> blocks_ok (g_memory_start b) n fl ->
  (forall t o, t <> 0 -> fl t o = []) -> coalesced b fl -> 0 <= c <= 10 ->
  blk_ok (g_memory_start b) n p c -> (forall x, within p (sz c) x -> covered fl x) ->
  exists o a, c <= o /\ a ∈ fl 0 o /\ within a (sz o) p.
Proof.
  intros Hgeo Hok Hz Hco. revert p. set (st := g_memory_start b) in *.
  assert (Hcase : forall p, covered fl p -> exists o a, a ∈ fl 0 o /\ within a (sz o) p /\ blk_ok st n a o).
  { intros p (t & o & a & Hin & Hx). destruct (decide (t = 0)) as [->|Hne].
    - exists o, a. split; [done|]. split; [done|]. by apply (bo_ok _ _ _ Hok _ _ _ Hin).
    - rewrite Hz in Hin by done. by apply not_elem_of_nil in Hin. }
  intros p Hc. revert p. replace c with (Z.of_nat (Z.to_nat c)) in * by lia.
  induction (Z.to_nat c) as [|d IH]; intros p Hb Hcov.
  - destruct (Hcase p) as (o & a & Hin & Hx & Ho & _); [apply Hcov; unfold within, sz; lia|]. exists o, a. auto with lia.
  - replace (Z.of_nat (S d)) with (Z.of_nat d + 1) in * by lia. set (e := Z.of_nat d) in *.
    destruct (upper_half st n p (e + 1) ltac:(lia) Hb) as (Hlo & Hhi & Hs).
    replace (e + 1 - 1) with e in * by lia. pose proof (sz_orders e ltac:(lia)).
    destruct (IH ltac:(lia) p Hlo) as (o1 & a1 & Ho1 & Hin1 & Hx1); [intros x Hx; apply Hcov; unfold within in *; lia|].
    destruct (IH ltac:(lia) (p + sz e) Hhi) as (o2 & a2 & Ho2 & Hin2 & Hx2);
      [intros x Hx; apply Hcov; unfold within in *; lia|].
    destruct (decide (e + 1 <= o1)) as [Hle|Hgt]; [exists o1, a1; auto|].
    destruct (bo_ok _ _ _ Hok _ _ _ Hin1) as [_ (Hr1 & _ & Hm1 & _)].
    destruct (bo_ok _ _ _ Hok _ _ _ Hin2) as [_ (Hr2 & _ & Hm2 & _)].
    assert (o1 = e) as -> by lia. destruct Hb as (_ & Hb1 & Hb2 & Hb3).
    destruct (decide (e + 1 <= o2)) as [Hle|Hgt'].
    { exists o2, a2. split; [done|]. split; [done|].
      pose proof (aligned_within st a2 o2 p (e + 1) (sz e) ltac:(lia) Hm2 Hb2 ltac:(lia) Hx2). unfold within. lia. }
    assert (o2 = e) as -> by lia. exfalso.
    pose proof (aligned_within st a1 e p e 0 ltac:(lia) Hm1 (proj1 (proj2 (proj2 Hlo))) ltac:(lia)) as Ha1.
    pose proof (aligned_within st a2 e (p + sz e) e 0 ltac:(lia) Hm2 (proj1 (proj2 (proj2 Hhi))) ltac:(lia)) as Ha2.
    rewrite !Z.add_0_r in *. specialize (Ha1 Hx1). specialize (Ha2 Hx2).
    assert (a1 = p) as -> by lia. assert (a2 = p + sz e) as -> by lia.
    apply (Hco e p ltac:(lia) Hin1).
    destruct (buddy_address_cases b n p e Hgeo Hlo) as (k & Hk & Hpk & Hbk). fold st in Hpk, Hbk.
    assert (Heven : Z.even k = true).
    { apply Z.mod_divide in Hb2 as [q Hq]; [|lia]. assert (k = 2 * q) as -> by nia. by rewrite Z.even_mul. }
    rewrite Heven in Hbk. replace (get_buddy_address b p e) with (p + sz e) by lia. done.
Qed.
