(* ===== verification/BuddyProps.v ===== *)
(** The theorems about kernel/mm/buddy.c: refinement of allocation and
    deallocation to the list-level specification, initialisation, and the safety,
    completeness and coalescing of every client history. *)
From S2P Require Import Prelude Machine DList Buddy BuddyInv BuddySpec BuddyThms BuddyInit BuddyTrace.

(** ** A small machine used by the witnesses: eleven pages from 1 MiB *)
Definition demo_start : Z := 0x100000.
Definition demo_size : Z := 45056.
Definition demo_state : kst :=
  match buddy_init demo_start demo_size boot_state with Done _ s => s | Fault _ => boot_state end.

Lemma demo_region : good_region demo_start demo_size.
Proof. unfold good_region, geo. vm_compute. intuition congruence. Qed.

Lemma demo_init : buddy_init demo_start demo_size boot_state = Done tt demo_state.
Proof. vm_compute. reflexivity. Qed.

Lemma demo_reachable : reachable demo_start demo_size demo_state [].
Proof. exists boot_state, demo_state. split; [done|]. split; [apply demo_init|]. apply rtc_refl. Qed.

Lemma demo_hist : exists fl, hist demo_start demo_size 11 demo_state [] fl.
Proof. exact (reachable_hist _ _ _ _ demo_region demo_reachable). Qed.

Lemma demo_binv : exists fl, binv (k_buddy demo_state) (k_mem demo_state) 11 fl.
Proof. destruct demo_hist as [fl H]. exists fl. by eapply hi_inv. Qed.

(** ** Reading the statistics *)

Lemma zone_read_exec (f : buddy_zone -> Z) t s : length (g_zones (k_buddy s)) = 3%nat -> 0 <= t < 3 ->
  (forall l z, f (set_zone_lock l z) = f z) -> zone_lock (get_zone (k_buddy s) t) = 0 ->
  (zone_acquire t ;; v ← gets (fun s => f (get_zone (k_buddy s) t)); zone_release t ;; mret v) s
  = Done (f (get_zone (k_buddy s) t)) s.
Proof.
  intros Hlen Ht Hf Hl. unfold mbind, M_bind. rewrite zone_acquire_exec by done. unfold gets.
  rewrite zone_release_exec, locked_id by done. unfold mret, M_ret. f_equal.
  unfold locked, upd_zone. cbn [k_buddy set_buddy]. rewrite get_put_zone, Z.eqb_refl by lia. apply Hf.
Qed.

Lemma sum_zones_exec f s n fl : binv (k_buddy s) (k_mem s) n fl ->
  (forall l z, f (set_zone_lock l z) = f z) ->
  let v t := f (get_zone (k_buddy s) t) in
  sum_zones f s = Done (u64 (u64 (u64 (0 + v 0) + v 1) + v 2)) s.
Proof.
  intros [Hc Hl _] Hf v. pose proof (core_length _ _ _ _ Hc) as Hlen.
  assert (Hstep : forall t tot, 0 <= t < 3 ->
    (zone_acquire t ;; v ← gets (fun s => f (get_zone (k_buddy s) t)); zone_release t ;; mret (u64 (tot + v))) s
    = Done (u64 (tot + v t)) s).
  { intros t tot Ht. pose proof (zone_read_exec f t s Hlen Ht Hf (Hl t Ht)) as H.
    unfold mbind, M_bind in *. destruct (zone_acquire t s) as [[] s1|]; [|done].
    unfold gets in *. destruct (zone_release t s1) as [[] s2|]; [|done].
    unfold mret, M_ret in *. injection H as Hv ->. by rewrite Hv. }
  unfold sum_zones. cbn [for_fold]. unfold mbind at 1, M_bind at 1. rewrite Hstep by lia.
  unfold mbind at 1, M_bind at 1. rewrite Hstep by lia. unfold mbind at 1, M_bind at 1. by rewrite Hstep by lia.
Qed.

(** ** The properties *)

(** C1: Along every client history from [buddy_init] - allocations of any order and
    zone, frees of allocated blocks, frees that the guards reject, writes to
    allocated memory - the allocated blocks are aligned blocks of the region,
    pairwise disjoint, and together with the free lists they partition the region;
    the page counter is exact and every zone lock is free. *)
Theorem buddy_history_safe st size s A : good_region st size -> reachable st size s A ->
  exists fl, let n := bytes_to_pages size in
    binv (k_buddy s) (k_mem s) n fl /\
    (forall a o, (a, o) ∈ A -> blk_ok st n a o) /\
    (forall a o a' o', (a, o) ∈ A -> (a', o') ∈ A -> (a, o) <> (a', o') -> disj a o a' o') /\
    (forall x, st <= x < st + 4096 * n <-> covered fl x \/ in_block A x) /\
    (forall x, ~ (covered fl x /\ in_block A x)) /\
    free_pages (get_zone (k_buddy s) 0) + block_pages A = n /\
    (forall t, 0 <= t < 3 -> zone_lock (get_zone (k_buddy s) t) = 0).
Proof.
  intros Hreg Hre. destruct (reachable_hist st size s A Hreg Hre) as [fl H]. exists fl.
  pose proof (hi_inv _ _ _ _ _ _ H) as Hinv. pose proof (c_blocks _ _ _ _ (bi_core _ _ _ _ Hinv)) as Hblk.
  rewrite (hi_start _ _ _ _ _ _ H) in Hblk. cbv zeta. split; [done|]. split; [|split; [|split; [|split; [|split]]]].
  - intros a o Hin. by apply (hi_held _ _ _ _ _ _ H).
  - by apply (hi_disj _ _ _ _ _ _ H).
  - intros x. split; [apply (hi_cover _ _ _ _ _ _ H)|].
    intros [(t & o & a & Hin & Hx)|(a & o & Hin & Hx)]; unfold within in Hx.
    + destruct (bo_ok _ _ _ Hblk _ _ _ Hin) as (_ & _ & Hb). lia.
    + destruct (hi_held _ _ _ _ _ _ H _ _ Hin) as [(_ & Hb) _]. lia.
  - intros x [Hc Hb]. by eapply hist_not_both.
  - rewrite (bi_free _ _ _ _ Hinv) by lia. by eapply hi_pages.
  - apply Hinv.
Qed.

Lemma buddy_history_safe_witness :
  good_region demo_start demo_size /\ reachable demo_start demo_size demo_state [] /\
  exists fl, binv (k_buddy demo_state) (k_mem demo_state) 11 fl.
Proof.
  split; [exact demo_region|]. split; [exact demo_reachable|].
  destruct (buddy_history_safe demo_start demo_size demo_state [] demo_region demo_reachable) as (fl & H & _).
  exists fl. exact H.
Defined.

(** On a reachable state an allocation always returns.  A non-zero result is an
    aligned block disjoint from every block handed out before, no byte outside the
    free memory changes, and the result is reachable with the block added; a zero
    result leaves the state as it was and means that the order is above 10 or that
    every free list of the zone from that order up is empty. *)
Theorem buddy_alloc_correct st size s A order zone_type : good_region st size -> reachable st size s A ->
  0 <= order -> 0 <= zone_type ->
  exists r s', buddy_alloc_pages order zone_type s = Done r s' /\
    (r <> 0 -> reachable st size s' ((r, order) :: A) /\ blk_ok st (bytes_to_pages size) r order /\
       (forall a o, (a, o) ∈ A -> disj a o r order) /\
       agree (in_block A) (k_mem s) (k_mem s')) /\
    (r = 0 -> s' = s /\ (order <= 10 -> forall j, order <= j <= 10 ->
       zone_head (get_zone (k_buddy s) (zone_of zone_type)) j = NULL)).
Proof.
  intros Hreg Hre Ho Hz. destruct (reachable_hist st size s A Hreg Hre) as [fl H].
  destruct (hist_alloc_runs _ _ _ s A fl order zone_type H Ho Hz) as (r & s' & fl' & Hrun & H' & Hok & Hfail).
  exists r, s'. split; [done|]. split.
  - intros Hr. rewrite (proj2 (Z.eqb_neq r 0)) in H' by done. destruct (Hok Hr) as [_ Hag].
    split; [|split; [|split]].
    + destruct Hre as (s0 & s1 & Hlen & Hinit & Hst). exists s0, s1. split; [done|]. split; [done|].
      eapply rtc_r; [exact Hst|]. pose proof (cs_alloc order zone_type r s s' A Ho Hz Hrun) as Hs.
      rewrite (proj2 (Z.eqb_neq r 0)) in Hs by done. exact Hs.
    + apply (hi_held _ _ _ _ _ _ H'). left.
    + intros a o Hin. apply (hi_disj _ _ _ _ _ _ H'); [by right|left|].
      intros [= -> ->]. pose proof (hi_nodup _ _ _ _ _ _ H') as [Hn _]%NoDup_cons. done.
    + eapply agree_mono; [|exact Hag]. intros x Hx Hc. exact (hist_not_both _ _ _ _ _ _ _ H Hc Hx).
  - intros ->. destruct (Hfail eq_refl) as [-> Hempty]. split; [done|]. intros Ho' j Hj.
    pose proof (c_zone _ _ _ _ (bi_core _ _ _ _ (hi_inv _ _ _ _ _ _ H)) _ (zone_of_range _ Hz)) as Hzi.
    pose proof (zi_list _ _ _ Hzi j ltac:(lia)) as Hl. by rewrite Hempty in Hl by done.
Qed.

Lemma buddy_alloc_correct_witness :
  exists r s', buddy_alloc_pages 1 0 demo_state = Done r s' /\ r = 0x108000.
Proof.
  destruct (buddy_alloc_correct demo_start demo_size demo_state [] 1 0 demo_region demo_reachable
              ltac:(lia) ltac:(lia)) as (r & s' & Hrun & _).
  exists r, s'. split; [exact Hrun|]. vm_compute in Hrun. congruence.
Defined.

(** C2: The detailed allocator refines the list-level specification [alloc_spec]: the
    code's search, unlinking and splitting compute exactly the first block of the
    first non-empty order and give back its upper halves; the bitmap bit of the
    block's first page is set and no other bit changes; memory changes only in free
    blocks; everything else of the state is as before. *)
Theorem buddy_alloc_refines s n fl order zone_type : binv (k_buddy s) (k_mem s) n fl ->
  0 <= order <= 10 -> 0 <= zone_type ->
  match alloc_spec fl (zone_of zone_type) order with
  | None => buddy_alloc_pages order zone_type s = Done 0 s
  | Some (a, fl') => exists s', buddy_alloc_pages order zone_type s = Done a s' /\
      effect s s' n fl' (fun x => ~ covered fl x) /\
      bit_set (k_buddy s) (addr_to_page_index (k_buddy s) a) true (k_buddy s')
  end.
Proof.
  intros Hinv Ho Hz. destruct (alloc_spec fl (zone_of zone_type) order) as [[a fl']|] eqn:E.
  - by apply (alloc_succeeds s n fl).
  - by apply (alloc_fails s n fl).
Qed.

Lemma buddy_alloc_refines_witness : exists fl,
  match alloc_spec fl (zone_of 0) 0 with
  | None => buddy_alloc_pages 0 0 demo_state = Done 0 demo_state
  | Some (a, fl') => exists s', buddy_alloc_pages 0 0 demo_state = Done a s' /\
      effect demo_state s' 11 fl' (fun x => ~ covered fl x) /\
      bit_set (k_buddy demo_state) (addr_to_page_index (k_buddy demo_state) a) true (k_buddy s')
  end.
Proof.
  destruct demo_binv as [fl Hinv]. exists fl.
  exact (buddy_alloc_refines demo_state 11 fl 0 0 Hinv ltac:(lia) ltac:(lia)).
Defined.

(** C3: Freeing an allocated block always returns and refines the list-level
    specification [free_spec]: the code's search for the buddy, its unlinking and
    its merge loop compute exactly the merges of the specification; only free
    memory and the freed block change; only the bit of the block's first page is
    cleared; the page counter grows by the pages of the block. *)
Theorem buddy_free_refines s n fl a o : binv (k_buddy s) (k_mem s) n fl ->
  held (g_memory_start (k_buddy s)) n fl a o ->
  let p := addr_to_page_index (k_buddy s) a in
  let fl' := free_spec (clear_bit p (k_buddy s)) fl a o in
  exists s', buddy_free_pages a o s = Done tt s' /\
    effect s s' n fl' (fun x => ~ covered fl x /\ ~ within a (sz o) x) /\
    bit_set (k_buddy s) p false (k_buddy s') /\
    (forall x, covered fl' x <-> covered fl x \/ within a (sz o) x) /\
    free_pages (get_zone (k_buddy s') 0) = free_pages (get_zone (k_buddy s) 0) + 2 ^ o.
Proof.
  intros Hinv Hheld p fl'. destruct (free_accepts s n fl a o Hinv Hheld) as (s' & Hrun & He & Hbit).
  pose proof (bi_core _ _ _ _ Hinv) as Hc. destruct (clear_bit_rest p (k_buddy s)) as (_ & Hst1 & _).
  destruct (free_spec_ok (clear_bit p (k_buddy s)) n fl a o) as (_ & Hcov & Hpg & _); try (rewrite Hst1; done || apply Hc).
  exists s'. split; [exact Hrun|]. split; [exact He|]. split; [exact Hbit|]. split; [exact Hcov|].
  rewrite (bi_free _ _ _ _ (ef_inv _ _ _ _ _ He)), (bi_free _ _ _ _ Hinv) by lia. exact Hpg.
Qed.

Definition demo_alloc : kst :=
  match buddy_alloc_pages 1 0 demo_state with Done _ s => s | Fault _ => boot_state end.

Lemma demo_alloc_reachable : reachable demo_start demo_size demo_alloc [(0x108000, 1)].
Proof.
  exists boot_state, demo_state. split; [done|]. split; [apply demo_init|]. apply rtc_once.
  apply (cs_alloc 1 0 0x108000 demo_state demo_alloc []); [done|done|]. vm_compute. reflexivity.
Qed.

Lemma demo_alloc_hist : exists fl, hist demo_start demo_size 11 demo_alloc [(0x108000, 1)] fl.
Proof. exact (reachable_hist _ _ _ _ demo_region demo_alloc_reachable). Qed.

Lemma buddy_free_refines_witness :
  exists s', buddy_free_pages 0x108000 1 demo_alloc = Done tt s' /\
    free_pages (get_zone (k_buddy s') 0) = free_pages (get_zone (k_buddy demo_alloc) 0) + 2.
Proof.
  destruct demo_alloc_hist as [fl H].
  assert (Hh : held (g_memory_start (k_buddy demo_alloc)) 11 fl 0x108000 1).
  { rewrite (hi_start _ _ _ _ _ _ H). apply (hi_held _ _ _ _ _ _ H). left. }
  destruct (buddy_free_refines demo_alloc 11 fl 0x108000 1 (hi_inv _ _ _ _ _ _ H) Hh) as (s' & Hrun & _ & _ & _ & Hf).
  exists s'. split; [exact Hrun|exact Hf].
Defined.

(** The number of free pages of the UNMOVABLE zone, which only the last step of a
    deallocation changes. *)
Definition same_free (s s' : kst) : Prop :=
  length (g_zones (k_buddy s')) = length (g_zones (k_buddy s)) /\
  free_pages (get_zone (k_buddy s') 0) = free_pages (get_zone (k_buddy s) 0).

#[local] Instance same_free_preorder : PreOrder same_free.
Proof. split; [done|]. intros s1 s2 s3 [H1 H2] [H3 H4]. split; congruence. Qed.

Lemma same_free_zone f s : (forall z, free_pages (f z) = free_pages z) -> same_free s (upd_zone 0 f s).
Proof.
  intros Hf. unfold same_free, upd_zone, put_zone, get_zone. cbn [k_buddy set_buddy g_zones].
  destruct (g_zones (k_buddy s)) as [|z zs]; [done|]. split; [done|apply Hf].
Qed.

Lemma keeps_zone f : (forall z, free_pages (f z) = free_pages z) -> keeps same_free (modify (upd_zone 0 f)).
Proof. intros Hf. apply keeps_modify. intros s. by apply same_free_zone. Qed.

Lemma keeps_store n a v : keeps same_free (modify (fun s => set_mem (store n (k_mem s) a v) s)).
Proof. by apply keeps_modify. Qed.

Ltac keep := repeat match goal with
  | |- keeps _ (mret _) => apply keeps_ret; apply _
  | |- keeps _ (gets _) => apply keeps_gets; apply _
  | |- keeps _ (stop _) => apply keeps_stop
  | |- keeps _ (mbind _ _) => apply keeps_bind; [apply _| |intros ?]
  | |- keeps _ (when _ _) => apply keeps_when; [apply _|]
  | |- keeps _ (if ?b then _ else _) => destruct b
  | |- keeps _ (modify (upd_zone 0 _)) => apply keeps_zone; by intros []
  | |- keeps _ (modify (fun _ => set_mem _ _)) => apply keeps_store
  | |- keeps _ (let _ := _ in _) => cbv zeta
  end.

Lemma keeps_unlink o a : keeps same_free (zone_unlink 0 o a).
Proof. unfold zone_unlink, list_remove, load64, store64. keep. Qed.

Lemma keeps_push o a : keeps same_free (zone_push 0 o a).
Proof. unfold zone_push, list_add, store64. keep. Qed.

Lemma keeps_find buddy h : keeps same_free (while h (find_body buddy)).
Proof. apply (keeps_while same_free (find_body buddy)). intros c. unfold find_body, load64. keep. Qed.

Lemma keeps_merge x : keeps same_free (while x (merge_body BUDDY_ZONE_UNMOVABLE)).
Proof.
  apply (keeps_while same_free (merge_body _)). intros [a o]. unfold merge_body. keep; [apply keeps_find|apply keeps_unlink].
Qed.

Lemma keeps_acquire : keeps same_free (zone_acquire BUDDY_ZONE_UNMOVABLE).
Proof. unfold zone_acquire, acquire_var. change BUDDY_ZONE_UNMOVABLE with 0. cbv beta. keep. Qed.

Lemma keeps_clear p o : keeps same_free (clear_allocation_bit p o).
Proof.
  apply keeps_modify. intros s. unfold same_free, set_buddy, get_zone. cbn [k_buddy].
  destruct (clear_bit_rest p (k_buddy s)) as (E & _). by rewrite E.
Qed.

(** An accepted deallocation counts its pages as free, whatever the state of the lists. *)
Lemma free_counts_pages address order s : length (g_zones (k_buddy s)) = 3%nat -> free_rejected (k_buddy s) address order = false ->
  match buddy_free_pages address order s with
  | Done _ s' => free_pages (get_zone (k_buddy s') 0) = u64 (free_pages (get_zone (k_buddy s) 0) + order_size order)
  | Fault _ => True
  end.
Proof.
  intros Hlen Hrej. unfold free_rejected in Hrej. apply orb_false_iff in Hrej as [[[H1 H2]%orb_false_iff H3]%orb_false_iff H4].
  unfold buddy_free_pages. rewrite H1, H2. unfold mbind at 1, M_bind at 1, gets at 1. rewrite H3, H4. cbv zeta.
  pose proof (keeps_bind same_free _ _ keeps_acquire (fun _ => keeps_bind same_free _ _ (keeps_clear (addr_to_page_index (k_buddy s) address) order)
    (fun _ => keeps_bind same_free _ _ (keeps_merge (address, order)) (fun r => keeps_push r.2 r.1))) s) as Hk.
  unfold mbind, M_bind in Hk |- *. destruct (zone_acquire _ s) as [[] s1|]; [|done]. destruct (clear_allocation_bit _ _ s1) as [[] s2|]; [|done].
  destruct (while _ _ s2) as [[a o] s3|]; [|done]. cbn [fst snd] in Hk. destruct (zone_push _ _ _ s3) as [[] s4|]; [|done]. destruct Hk as [Hk1 Hk2].
  unfold zone_release, release_var. rewrite <- Hk2. unfold modify, upd_zone. cbn [k_buddy set_buddy].
  change BUDDY_ZONE_UNMOVABLE with 0.
  rewrite !get_put_zone by (unfold put_zone; cbn [g_zones]; rewrite ?length_insert; lia). done.
Qed.

(** C4: Which deallocations are refused: an order above 10, the null address, an address
    below the first byte of the region or not below its end, and a misaligned one are
    refused, and nothing at all changes; every other call has an effect - if it returns,
    its pages have been counted as free.  Nothing is assumed of the lists, so that a call
    with an address that is not allocated is covered: it is not refused. *)
Theorem buddy_free_guards address order s : length (g_zones (k_buddy s)) = 3%nat -> 0 <= order ->
  0 <= free_pages (get_zone (k_buddy s) 0) < 2 ^ 64 ->
  let start := g_memory_start (k_buddy s) in let size := g_memory_size (k_buddy s) in
  0 <= start -> 0 <= size -> start + size < 2 ^ 64 ->
  (buddy_free_pages address order s = Done tt s <->
    10 < order \/ address = 0 \/ address < start \/ start + size <= address \/ address mod 4096 <> 0) /\
  (forall s', buddy_free_pages address order s = Done tt s' -> s' <> s ->
    free_pages (get_zone (k_buddy s') 0) = (free_pages (get_zone (k_buddy s) 0) + 2 ^ order) mod 2 ^ 64).
Proof.
  intros Hlen Ho Hf start size Hst Hsz Hend.
  assert (Hrej : free_rejected (k_buddy s) address order = true <->
    10 < order \/ address = 0 \/ address < start \/ start + size <= address \/ address mod 4096 <> 0).
  { unfold free_rejected, out_of_range, BUDDY_MAX_ORDER, BUDDY_PAGE_SIZE. fold start size. rewrite u64_id by lia.
    rewrite !orb_true_iff, negb_true_iff, !Z.ltb_lt, Z.leb_le, Z.eqb_eq, Z.eqb_neq. tauto. }
  pose proof (free_counts_pages address order s Hlen) as Hcount. rewrite <- Hrej. destruct (free_rejected (k_buddy s) address order) eqn:E.
  - rewrite (free_rejects address order s E). split; [done|]. by intros s' [= <-].
  - specialize (Hcount eq_refl). assert (Ho2 : 0 <= order <= 10) by (unfold free_rejected, BUDDY_MAX_ORDER in E; apply orb_false_iff in E as [[[E%Z.ltb_ge _]%orb_false_iff _]%orb_false_iff _]; lia).
    rewrite order_size_pow in Hcount by lia. split; [split; [|done]|].
    + intros Hrun. rewrite Hrun in Hcount. pose proof (pow2_orders order Ho2) as Hp. unfold u64 in Hcount. exfalso.
      pose proof (Z.div_mod (free_pages (get_zone (k_buddy s) 0) + 2 ^ order) (2 ^ 64) ltac:(lia)) as Hd. rewrite <- Hcount in Hd.
      assert (Hq : 2 ^ order < 2 ^ 64) by lia. lia.
    + intros s' Hrun _. by rewrite Hrun in Hcount.
Qed.

Lemma buddy_free_guards_witness : buddy_free_pages 0x10B000 0 demo_alloc = Done tt demo_alloc /\ buddy_free_pages 0x10A000 0 demo_alloc <> Done tt demo_alloc.
Proof.
  assert (V : g_memory_start (k_buddy demo_alloc) = 0x100000 /\ g_memory_size (k_buddy demo_alloc) = 0xB000 /\ free_pages (get_zone (k_buddy demo_alloc) 0) = 9 /\
    length (g_zones (k_buddy demo_alloc)) = 3%nat) by (vm_compute; done). destruct V as (V1 & V2 & V3 & V4).
  assert (H : forall a, buddy_free_pages a 0 demo_alloc = Done tt demo_alloc <->
    10 < 0 \/ a = 0 \/ a < 0x100000 \/ 0x100000 + 0xB000 <= a \/ a mod 4096 <> 0).
  { intros a. pose proof (buddy_free_guards a 0 demo_alloc V4 ltac:(lia)) as H. rewrite V1, V2, V3 in H. apply H; lia. }
  rewrite !H. split; [lia|]. intros [?|[?|[?|[?|Hm]]]]; [lia..|]. by apply Hm.
Defined.

(** C5: [buddy_init] returns on any page-aligned region: every page of the region is
    then on a free list of the UNMOVABLE zone, its counters are the number of pages,
    the other zones are empty, every allocation bit is clear, no two free blocks
    are unmerged buddies, and no byte outside the region has changed. *)
Theorem buddy_init_correct st size s : length (g_zones (k_buddy s)) = 3%nat -> good_region st size ->
  let n := bytes_to_pages size in
  exists s' fl, buddy_init st size s = Done tt s' /\ binv (k_buddy s') (k_mem s') n fl /\
    (forall x, covered fl x <-> st <= x < st + 4096 * n) /\ (forall t o, t <> 0 -> fl t o = []) /\
    free_pages (get_zone (k_buddy s') 0) = n /\ total_pages (get_zone (k_buddy s') 0) = n /\
    (forall q, test_allocation_bit (k_buddy s') q = false) /\ coalesced (k_buddy s') fl /\
    agree (fun y => ~ (st <= y < st + 4096 * n)) (k_mem s) (k_mem s').
Proof.
  intros Hlen [Hgeo Hsize] n.
  destruct (init_succeeds st size s Hlen Hgeo Hsize)
    as (s' & fl & Hrun & Hinv & Hst & Hsz & Hcov & Hz & Hpg & Hco & Hbits & Htot & Hag & _).
  exists s', fl. split; [done|]. split; [done|]. split; [done|]. split; [done|].
  split; [rewrite (bi_free _ _ _ _ Hinv) by lia; exact Hpg|]. split; [apply (Htot 0); lia|]. done.
Qed.

Lemma buddy_init_correct_witness : exists s',
  buddy_init demo_start demo_size boot_state = Done tt s' /\ free_pages (get_zone (k_buddy s') 0) = 11.
Proof.
  destruct (buddy_init_correct demo_start demo_size boot_state eq_refl demo_region)
    as (s' & fl & Hrun & _ & _ & _ & Hf & _).
  exists s'. split; [exact Hrun|exact Hf].
Defined.

(** C6: No external fragmentation beyond alignment: on a reachable state, if some
    aligned range of 2^order pages holds no allocated byte, then allocating that
    order from the UNMOVABLE zone succeeds - the free buddies that make up the range
    have been merged. *)
Theorem buddy_no_fragmentation st size s A order p : good_region st size -> reachable st size s A ->
  blk_ok st (bytes_to_pages size) p order -> (forall x, within p (sz order) x -> ~ in_block A x) ->
  exists r s', buddy_alloc_pages order BUDDY_ZONE_UNMOVABLE s = Done r s' /\ r <> 0.
Proof.
  intros Hreg Hre Hb Hfree. destruct (reachable_hist st size s A Hreg Hre) as [fl H].
  pose proof (bi_core _ _ _ _ (hi_inv _ _ _ _ _ _ H)) as Hc. pose proof (proj1 Hb) as Ho.
  destruct (hist_alloc_runs _ _ _ s A fl order 0 H (proj1 Ho) ltac:(lia)) as (r & s' & fl' & Hrun & _ & _ & Hf).
  exists r, s'. split; [done|]. intros Hr. destruct (Hf Hr) as [_ Hempty].
  destruct (coalesced_complete (k_buddy s) (bytes_to_pages size) fl order p) as (o & a & Hle & Hin & _);
    rewrite ?(hi_start _ _ _ _ _ _ H); try done.
  - rewrite <- (hi_start _ _ _ _ _ _ H). apply Hc.
  - rewrite <- (hi_start _ _ _ _ _ _ H). apply Hc.
  - apply (hi_zone _ _ _ _ _ _ H).
  - apply (hi_coal _ _ _ _ _ _ H).
  - intros x Hx. destruct (hi_cover _ _ _ _ _ _ H x) as [|Hbad]; [|done|by destruct (Hfree x Hx)].
    destruct Hb as (_ & H1 & _ & H3). unfold within in Hx. lia.
  - destruct (bo_ok _ _ _ (c_blocks _ _ _ _ Hc) _ _ _ Hin) as [_ [Ho' _]].
    change (fl 0 o) with (fl (zone_of 0) o) in Hin. rewrite (Hempty (proj2 Ho) o ltac:(lia)) in Hin. by apply not_elem_of_nil in Hin.
Qed.

Lemma buddy_no_fragmentation_witness :
  exists r s', buddy_alloc_pages 3 BUDDY_ZONE_UNMOVABLE demo_alloc = Done r s' /\ r <> 0.
Proof.
  apply (buddy_no_fragmentation demo_start demo_size demo_alloc [(0x108000, 1)] 3 0x100000 demo_region
           demo_alloc_reachable).
  - unfold blk_ok. vm_compute. intuition congruence.
  - intros x Hx (a & o & [= -> ->]%list_elem_of_singleton & Hax). unfold within, sz in *. lia.
Defined.

(** The RECLAIMABLE and MOVABLE zones never hold a page: on every reachable state
    an allocation from them returns 0 and changes nothing. *)
Theorem buddy_other_zones_empty st size s A order zone_type : good_region st size -> reachable st size s A ->
  0 <= order -> zone_type = BUDDY_ZONE_RECLAIMABLE \/ zone_type = BUDDY_ZONE_MOVABLE ->
  buddy_alloc_pages order zone_type s = Done 0 s.
Proof.
  intros Hreg Hre Ho Hz. destruct (reachable_hist st size s A Hreg Hre) as [fl H].
  destruct (Z.lt_ge_cases 10 order); [by apply alloc_bad_order|].
  apply (alloc_fails s (bytes_to_pages size) fl); [apply H|destruct Hz as [->| ->]; done|lia|].
  apply alloc_spec_None; [lia|]. intros j _. apply (hi_zone _ _ _ _ _ _ H). by destruct Hz as [->| ->].
Qed.

Lemma buddy_other_zones_empty_witness :
  buddy_alloc_pages 0 BUDDY_ZONE_RECLAIMABLE demo_state = Done 0 demo_state.
Proof.
  apply (buddy_other_zones_empty demo_start demo_size demo_state [] 0 BUDDY_ZONE_RECLAIMABLE demo_region
           demo_reachable); [lia|by left].
Defined.

(** The statistics are exact and leave the state alone: the total is the number
    of pages of the region, and the free count is the total less the pages of the
    allocated blocks. *)
Theorem buddy_statistics st size s A : good_region st size -> reachable st size s A ->
  buddy_get_total_pages s = Done (bytes_to_pages size) s /\
  buddy_get_free_pages s = Done (bytes_to_pages size - block_pages A) s.
Proof.
  intros Hreg Hre. destruct (reachable_hist st size s A Hreg Hre) as [fl H].
  pose proof (hi_inv _ _ _ _ _ _ H) as Hinv. pose proof (hi_pages _ _ _ _ _ _ H) as Hp.
  pose proof (c_geo _ _ _ _ (bi_core _ _ _ _ Hinv)) as (Hg1 & _ & Hg2 & Hg3).
  pose proof (pages_of_nonneg (fl 0)) as Hnn.
  assert (Hb : 0 <= block_pages A).
  { apply zsum_nonneg. intros [a o]. apply Z.pow_nonneg. lia. }
  unfold buddy_get_total_pages, buddy_get_free_pages.
  rewrite !(sum_zones_exec _ s _ fl Hinv) by done.
  rewrite !(hi_total _ _ _ _ _ _ H), !(bi_free _ _ _ _ Hinv) by lia.
  rewrite (pages_of_empty (fl 1)), (pages_of_empty (fl 2)) by (intros o; by apply (hi_zone _ _ _ _ _ _ H)).
  cbn [Z.eqb]. rewrite !Z.add_0_r, !Z.add_0_l.
  rewrite !(u64_id (bytes_to_pages size)), !(u64_id (pages_of (fl 0))) by lia.
  split; f_equal. lia.
Qed.

Lemma buddy_statistics_witness :
  buddy_get_total_pages demo_alloc = Done 11 demo_alloc /\ buddy_get_free_pages demo_alloc = Done 9 demo_alloc.
Proof. exact (buddy_statistics demo_start demo_size demo_alloc [(0x108000, 1)] demo_region demo_alloc_reachable). Defined.

Lemma sz_size o : 0 <= o <= 10 -> u64 (order_size o * BUDDY_PAGE_SIZE) = sz o.
Proof. intros H. by apply (pages_to_bytes_order o). Qed.

(** The zone depends on the two zone bits only, and is the one [GFP_GET_ZONE] of gfp.h names;
    the compound flags ask for zeroed pages of the default zone. *)
Lemma gfp_zone_bits flags : gfp_zone flags = GFP_GET_ZONE (Z.land flags GFP_ZONE_MASK).
Proof. unfold gfp_zone, GFP_GET_ZONE. by rewrite <- !Z.land_assoc. Qed.

Lemma gfp_compound : forallb (fun f => (gfp_zone f =? BUDDY_ZONE_UNMOVABLE) && negb (Z.land f GFP_ZERO =? 0)) [GFP_KERNEL_ZERO; GFP_ATOMIC_ZERO; Z.lor GFP_UNMOVABLE GFP_ZERO] = true.
Proof. reflexivity. Qed.

(** [buddy_alloc_pages_flags] on a reachable state: the zone flags select the
    zone, so a MOVABLE or RECLAIMABLE request gets nothing; a block it returns is
    recorded as allocated, is all zero bytes when [GFP_ZERO] is given, and no
    allocated byte has changed. *)
Theorem buddy_flags_correct st size s A order flags : good_region st size -> reachable st size s A ->
  0 <= order -> 0 <= flags ->
  exists r s', buddy_alloc_pages_flags order flags s = Done r s' /\
    (gfp_zone flags <> BUDDY_ZONE_UNMOVABLE -> r = 0) /\ (r = 0 -> s' = s) /\
    (r <> 0 -> reachable st size s' ((r, order) :: A) /\ agree (in_block A) (k_mem s) (k_mem s') /\
       (Z.land flags GFP_ZERO <> 0 -> forall x, within r (sz order) x -> mget (k_mem s') x = 0)).
Proof.
  intros Hreg Hre Ho Hf. destruct (reachable_hist st size s A Hreg Hre) as [fl H].
  assert (Hz : 0 <= gfp_zone flags /\ (gfp_zone flags <> BUDDY_ZONE_UNMOVABLE ->
             zone_of (gfp_zone flags) <> 0)).
  { unfold gfp_zone. destruct (negb _); [done|]. by destruct (negb _). }
  destruct (hist_alloc_runs _ _ _ s A fl order _ H Ho (proj1 Hz)) as (r & s' & fl' & Hrun & H' & Hok & Hfail).
  unfold buddy_alloc_pages_flags, mbind, M_bind. rewrite Hrun.
  destruct (Z.eqb_spec r 0) as [->|Hr].
  { exists 0, s'. split; [done|]. split; [done|]. split; [|done]. intros _. by destruct (Hfail eq_refl). }
  destruct (Hok Hr) as [Hspec Hag]. pose proof (hi_held _ _ _ _ _ _ H' r order ltac:(left)) as [[Ho' _] _].
  assert (Hnz : gfp_zone flags <> BUDDY_ZONE_UNMOVABLE -> r = 0).
  { intros Hne. unfold alloc_spec in Hspec. destruct (first_order _ _ _) as [[[k a] rest]|] eqn:E; [|done].
    apply first_order_Some in E as (_ & E & _). rewrite (hi_zone _ _ _ _ _ _ H) in E by (by apply Hz). done. }
  assert (Hre' : reachable st size s' ((r, order) :: A)).
  { destruct Hre as (s0 & s1 & Hlen & Hinit & Hst). exists s0, s1. split; [done|]. split; [done|].
    eapply rtc_r; [exact Hst|]. pose proof (cs_alloc order _ r s s' A Ho (proj1 Hz) Hrun) as Hs.
    rewrite (proj2 (Z.eqb_neq r 0)) in Hs by done. exact Hs. }
  assert (HagA : agree (in_block A) (k_mem s) (k_mem s')).
  { eapply agree_mono; [|exact Hag]. intros x Hx Hc. exact (hist_not_both _ _ _ _ _ _ _ H Hc Hx). }
  destruct (Z.eqb_spec (Z.land flags GFP_ZERO) 0) as [Hzf|Hzf]; cbn [negb when].
  { exists r, s'. unfold when. split; [done|]. done. }
  rewrite sz_size by done.
  assert (Hw : wp (for_range 0 (sz order) (fun i => store8 (r + i) 0)) (fun _ s2 =>
    reachable st size s2 ((r, order) :: A) /\ agree (in_block A) (k_mem s) (k_mem s2) /\
    forall x, within r (sz order) x -> mget (k_mem s2) x = 0) s').
  { apply wp_fill8; [pose proof (sz_orders order Ho'); lia|]. intros m Hm Hzero. split; [|split; [|done]].
    - destruct Hre' as (s0 & s1 & Hlen & Hinit & Hst). exists s0, s1. split; [done|]. split; [done|].
      eapply rtc_r; [exact Hst|]. apply cs_write. eapply agree_mono; [|exact Hm].
      intros x Hx Hin. apply Hx. exists r, order. split; [left|done].
    - etrans; [exact HagA|]. eapply agree_mono; [|exact Hm]. intros x (a & o & Hin & Hx) Hin2.
      assert (disj a o r order) as Hd; [|unfold disj, within in *; lia].
      apply (hi_disj _ _ _ _ _ _ H'); [by right|left|]. intros [= -> ->].
      pose proof (hi_nodup _ _ _ _ _ _ H') as [Hn _]%NoDup_cons. done. }
  apply wp_Done in Hw as ([] & s2 & Hrun2 & Hre2 & Hag2 & Hzero).
  exists r, s2. unfold when. rewrite Hrun2. split; [done|]. split; [done|]. done.
Qed.

Lemma buddy_flags_correct_witness : exists r s',
  buddy_alloc_pages_flags 0 GFP_ZERO demo_state = Done r s' /\ (r = 0 -> s' = demo_state).
Proof.
  destruct (buddy_flags_correct demo_start demo_size demo_state [] 0 GFP_ZERO demo_region demo_reachable
              ltac:(lia) ltac:(done)) as (r & s' & Hrun & _ & Hf & _).
  exists r, s'. split; [exact Hrun|exact Hf].
Defined.

(** A counting loop whose body leaves the state alone does too. *)
Lemma for_range_id lo hi (body : Z -> K unit) s : lo <= hi ->
  (forall j, lo <= j < hi -> body j s = Done tt s) -> for_range lo hi body s = Done tt s.
Proof.
  intros Hle Hb.
  assert (H : wp (for_range lo hi body) (fun _ s' => s' = s) s).
  { apply (wp_for_range (fun _ s' => s' = s)); [done|done| |done].
    intros j s' Hj ->. eapply wp_of_Done; [by apply Hb|done]. }
  apply wp_Done in H as ([] & s' & Hrun & ->). done.
Qed.

Lemma order_stats_exec s n fl o : binv (k_buddy s) (k_mem s) n fl -> 0 <= o <= 10 ->
  buddy_get_order_stats o s =
  Done (Some (Z.of_nat (length (fl 0 o)) + Z.of_nat (length (fl 1 o)) + Z.of_nat (length (fl 2 o)))) s.
Proof.
  intros Hinv Ho. pose proof (bi_core _ _ _ _ Hinv) as Hc. unfold buddy_get_order_stats, BUDDY_MAX_ORDER.
  rewrite (proj2 (Z.ltb_ge 10 o)) by lia. unfold mbind, M_bind.
  rewrite (sum_zones_exec _ s n fl Hinv) by done.
  assert (Hcnt : forall t, 0 <= t < 3 -> zone_count (get_zone (k_buddy s) t) o = Z.of_nat (length (fl t o))).
  { intros t Ht. by apply (zi_count _ _ _ (c_zone _ _ _ _ Hc t Ht)). }
  rewrite !Hcnt by lia.
  destruct (c_geo _ _ _ _ Hc) as (Hg1 & _ & Hg2 & Hg3).
  pose proof (list_length_bound _ _ _ (c_geo _ _ _ _ Hc) (c_blocks _ _ _ _ Hc) 0 o).
  pose proof (list_length_bound _ _ _ (c_geo _ _ _ _ Hc) (c_blocks _ _ _ _ Hc) 1 o).
  pose proof (list_length_bound _ _ _ (c_geo _ _ _ _ Hc) (c_blocks _ _ _ _ Hc) 2 o).
  rewrite Z.add_0_l, (u64_id (Z.of_nat (length (fl 0 o)))) by lia.
  rewrite (u64_id (Z.of_nat (length (fl 0 o)) + Z.of_nat (length (fl 1 o)))) by lia.
  rewrite u64_id by lia. done.
Qed.

Lemma dump_walk_exec {l} h s : dll 0 8 (k_mem s) NULL h l -> exists c, while (h, 0) dump_walk s = Done c s.
Proof.
  intros Hl.
  assert (H : wp (while (h, 0) dump_walk) (fun _ s' => s' = s) s).
  { apply (wp_loop (fun d x s' => s' = s /\ 0 <= x.2 <= 100 /\ d = Z.to_nat (100 - x.2)) 100); [done|lia|].
    intros d [x c] s' (-> & Hc & ->). cbn [fst snd] in *. unfold dump_walk.
    destruct (negb (x =? NULL)); [|done]. destruct (Z.ltb_spec c 100); [|done].
    cbn [andb]. apply wp_bind, wp_gets, wp_ret. cbn [snd]. exists (Z.to_nat (100 - (c + 1))). auto with lia. }
  apply wp_Done in H as (c & s' & Hrun & ->). by exists c.
Qed.

(** [buddy_get_order_stats] counts the blocks of the order on all free lists, and
    the two dump functions return with the state as it was. *)
Theorem buddy_diagnostics s n fl : binv (k_buddy s) (k_mem s) n fl ->
  (forall o, 0 <= o <= 10 -> buddy_get_order_stats o s =
     Done (Some (Z.of_nat (length (fl 0 o)) + Z.of_nat (length (fl 1 o)) + Z.of_nat (length (fl 2 o)))) s) /\
  buddy_dump_stats s = Done tt s /\ forall t, 0 <= t -> buddy_dump_zone t s = Done tt s.
Proof.
  intros Hinv. split; [|split].
  - intros o Ho. by apply order_stats_exec with n.
  - unfold buddy_dump_stats, buddy_get_total_pages, buddy_get_free_pages, mbind, M_bind.
    rewrite !(sum_zones_exec _ s n fl Hinv) by done.
    rewrite for_range_id; [|done|].
    + apply for_range_id; [done|]. intros t Ht. rewrite zone_acquire_exec by (by apply Hinv).
      rewrite zone_release_exec. rewrite locked_id; [done|by eapply core_length, Hinv|done|by apply Hinv].
    + intros o Ho. unfold BUDDY_MAX_ORDER in Ho. by rewrite (order_stats_exec s n fl o Hinv ltac:(lia)).
  - intros t Ht. unfold buddy_dump_zone. destruct (Z.leb_spec BUDDY_ZONE_COUNT t) as [|Hlt]; [done|].
    unfold BUDDY_ZONE_COUNT in Hlt. unfold mbind, M_bind. rewrite zone_acquire_exec by (apply Hinv; lia).
    destruct (locked_core t 1 s n fl (bi_core _ _ _ _ Hinv) ltac:(lia)) as [Hc1 _].
    rewrite for_range_id; [|done|].
    + rewrite zone_release_exec, locked_id; [done|by eapply core_length, Hinv|lia|apply Hinv; lia].
    + intros o Ho. unfold BUDDY_MAX_ORDER in Ho. unfold gets, when. destruct (0 <? zone_count _ o); [|done].
      pose proof (zi_list _ _ _ (c_zone _ _ _ _ Hc1 t ltac:(lia)) o ltac:(lia)) as Hl.
      by destruct (dump_walk_exec _ (locked t 1 s) Hl) as [c ->].
Qed.

Lemma buddy_diagnostics_witness :
  buddy_dump_stats demo_alloc = Done tt demo_alloc /\ buddy_dump_zone 0 demo_alloc = Done tt demo_alloc.
Proof.
  destruct demo_alloc_hist as [fl H].
  destruct (buddy_diagnostics demo_alloc 11 fl (hi_inv _ _ _ _ _ _ H)) as (_ & H1 & H2).
  split; [exact H1|exact (H2 0 ltac:(lia))].
Defined.
