(* ===== verification/PageAlloc.v ===== *)
(** The interface between the page allocators and their clients: what a source of
    blocks of a fixed order promises.  The clients' theorems are proved against
    the class; the instances below discharge it for the buddy allocator, and the
    file Pmm for the frame allocator. *)
From S2P Require Import Prelude Machine DList Buddy BuddyInv BuddySpec BuddyThms BuddyInit BuddyTrace.

(** The statics of the components above the allocators are as before. *)
Definition same_statics (s s' : kst) : Prop :=
  k_slab s' = k_slab s /\ k_heap s' = k_heap s /\ k_cow s' = k_cow s /\ k_dp s' = k_dp s /\ k_pc s' = k_pc s.

#[export] Instance same_statics_preorder : PreOrder same_statics.
Proof.
  split; [done|]. intros x y z (H1 & H2 & H3 & H4 & H5) (G1 & G2 & G3 & G4 & G5).
  unfold same_statics. by rewrite G1, G2, G3, G4, G5.
Qed.

Lemma only_mb_statics s s' : only_mb s s' -> same_statics s s'.
Proof. intros (m & b & ->). done. Qed.

(** The widest physical address of the architecture: 52 bits. *)
Definition PHYS_LIMIT : Z := 2 ^ 52.

(** A region of physical memory. *)
Definition phys_region (st size : Z) : Prop :=
  good_region st size /\ st + 4096 * bytes_to_pages size <= PHYS_LIMIT.

(** A block of order 0 is one page. *)
Lemma sz_0 : sz 0 = 4096.
Proof. done. Qed.

(** A block the allocator can have handed out, seen from outside. *)
Definition page_block (a o : Z) : Prop :=
  0 <= o <= 10 /\ 0 < a /\ a mod 4096 = 0 /\ a + sz o <= PHYS_LIMIT.

(** [pa_inv s A] : in [s] the allocator is consistent and the clients own exactly
    the blocks [A]. *)
Class PageAllocator (o : Z) (alloc : K Z) (free : Z -> K unit) := {
  pa_inv : kst -> blocks -> Prop;
  pa_block s A a o' : pa_inv s A -> (a, o') ∈ A -> page_block a o';
  pa_nodup s A : pa_inv s A -> NoDup A;
  pa_disj s A a o1 b o2 : pa_inv s A -> (a, o1) ∈ A -> (b, o2) ∈ A -> (a, o1) <> (b, o2) -> disj a o1 b o2;
  pa_alloc s A : pa_inv s A ->
    exists r s', alloc s = Done r s' /\ same_statics s s' /\
      ((r = 0 /\ s' = s) \/
       (page_block r o /\ pa_inv s' ((r, o) :: A) /\ (r, o) ∉ A /\
        agree (in_block A) (k_mem s) (k_mem s')));
  pa_free s A1 a A2 : pa_inv s (A1 ++ (a, o) :: A2) ->
    exists s', free a s = Done tt s' /\ same_statics s s' /\ pa_inv s' (A1 ++ A2) /\
      agree (in_block (A1 ++ A2)) (k_mem s) (k_mem s');
  (** Clients write their own blocks and their own statics freely. *)
  pa_frame s s' A : pa_inv s A -> agree (fun x => ~ in_block A x) (k_mem s) (k_mem s') ->
    k_buddy s' = k_buddy s -> k_pmm s' = k_pmm s -> pa_inv s' A
}.

(** What a client may expect of any other allocation function over the same pages:
    one of order [o] that keeps the invariant [inv]. *)
Definition serves (inv : kst -> blocks -> Prop) (o : Z) (alloc : K Z) : Prop :=
  forall s A, inv s A -> exists r s', alloc s = Done r s' /\ same_statics s s' /\
    ((r = 0 /\ s' = s) \/
     (page_block r o /\ inv s' ((r, o) :: A) /\ (r, o) ∉ A /\ agree (in_block A) (k_mem s) (k_mem s'))).

(** ** Consequences for clients *)
Section client.
Context {o : Z} {alloc : K Z} {free : Z -> K unit} `{PA : PageAllocator o alloc free}.

Lemma pa_write s m A : pa_inv s A -> agree (fun x => ~ in_block A x) (k_mem s) m -> pa_inv (set_mem m s) A.
Proof. intros H Hag. by apply (pa_frame s). Qed.

(** A store inside an owned block. *)
Lemma pa_store s A n a v b ob : pa_inv s A -> (b, ob) ∈ A -> b <= a -> a + Z.of_nat n <= b + sz ob ->
  pa_inv (set_mem (store n (k_mem s) a v) s) A.
Proof.
  intros H Hin H1 H2. apply pa_write; [done|]. apply agree_store. intros x Hx Hw. apply Hx.
  exists b, ob. split; [done|]. unfold within in *. lia.
Qed.

(** Freeing, with the owned blocks as a set. *)
Lemma pa_free_in s A a : pa_inv s A -> (a, o) ∈ A ->
  exists s' A', free a s = Done tt s' /\ same_statics s s' /\ pa_inv s' A' /\
    (forall x, x ∈ A' <-> x ∈ A /\ x <> (a, o)) /\ agree (in_block A') (k_mem s) (k_mem s').
Proof.
  intros H Hin. apply list_elem_of_split in Hin as (A1 & A2 & ->). pose proof (pa_nodup _ _ H) as Hnd.
  destruct (pa_free s A1 a A2 H) as (s' & Hrun & Hst & H' & Hag). exists s', (A1 ++ A2).
  split; [done|]. split; [done|]. split; [done|]. split; [|done]. intros x.
  apply NoDup_app in Hnd as (_ & Hd & [Hn _]%NoDup_cons). rewrite !elem_of_app, elem_of_cons. split.
  - intros [Hx|Hx]; (split; [tauto|]); intros ->; [|done]. apply (Hd _ Hx). left.
  - intros [[Hx|[Hx|Hx]] Hne]; tauto.
Qed.

Lemma pa_new_disj s A r o' : pa_inv s ((r, o') :: A) -> (r, o') ∉ A ->
  forall b ob, (b, ob) ∈ A -> disj r o' b ob.
Proof.
  intros H Hn b ob Hin. eapply pa_disj; [done|left|by right|]. intros E. by rewrite E in Hn.
Qed.
End client.

(** Distinct pages below the physical limit are less than 2^52 in number. *)
Lemma pages_length (l : list Z) : NoDup l -> (forall a, a ∈ l -> page_block a 0) -> Z.of_nat (length l) <= 2 ^ 40.
Proof.
  intros Hnd Hb.
  assert (Hinc : map (fun a => a / 4096) l ⊆ seqZ 0 (2 ^ 40)).
  { intros p Hp. apply list_elem_of_fmap in Hp as (a & -> & Ha). destruct (Hb a Ha) as (_ & H1 & H2 & H3).
    unfold sz, PHYS_LIMIT in H3. apply elem_of_seqZ. split; [apply Z.div_pos; lia|].
    apply Z.div_lt_upper_bound; lia. }
  assert (Hnd' : NoDup (map (fun a => a / 4096) l)).
  { apply NoDup_fmap_2_strong; [|done]. intros a b Ha Hb' Heq. destruct (Hb a Ha) as (_ & _ & H2 & _).
    destruct (Hb b Hb') as (_ & _ & H2' & _). simpl in Heq.
    pose proof (Z.div_mod a 4096 ltac:(lia)). pose proof (Z.div_mod b 4096 ltac:(lia)). lia. }
  pose proof (NoDup_submseteq _ _ Hnd' Hinc) as Hsub. apply submseteq_length in Hsub.
  rewrite length_fmap, length_seqZ in Hsub. lia.
Qed.

(** ** The buddy allocator as a source of blocks of one order *)

Definition bd_inv (s : kst) (A : blocks) : Prop :=
  exists st size fl, phys_region st size /\ hist st size (bytes_to_pages size) s A fl.

Lemma block_page st size a o : phys_region st size -> blk_ok st (bytes_to_pages size) a o -> page_block a o.
Proof.
  intros [[Hgeo _] Hlim] Hb. pose proof (blk_ok_addr _ _ _ _ Hgeo Hb) as (H1 & _ & H3).
  destruct Hb as (H4 & H5 & H6 & H7). repeat split; try done; lia.
Qed.

Section buddy.
Context (s : kst) (A : blocks).
Hypothesis H : bd_inv s A.

Lemma bd_block a o : (a, o) ∈ A -> page_block a o.
Proof.
  destruct H as (st & size & fl & Hreg & Hh). intros Hin.
  pose proof (hi_held _ _ _ _ _ _ Hh _ _ Hin) as [Hb _]. by eapply block_page.
Qed.

Lemma bd_nodup : NoDup A.
Proof. destruct H as (st & size & fl & _ & Hh). apply (hi_nodup _ _ _ _ _ _ Hh). Qed.

Lemma bd_disj a o1 b o2 : (a, o1) ∈ A -> (b, o2) ∈ A -> (a, o1) <> (b, o2) -> disj a o1 b o2.
Proof. destruct H as (st & size & fl & _ & Hh). apply (hi_disj _ _ _ _ _ _ Hh). Qed.

Lemma alloc_statics o z r s' : buddy_alloc_pages o z s = Done r s' -> 0 <= o -> 0 <= z ->
  k_pmm s' = k_pmm s /\ same_statics s s'.
Proof.
  destruct H as (st & size & fl & _ & Hh). intros Hrun Ho Hz.
  destruct (Z.lt_ge_cases 10 o) as [Hgt|Hle].
  { rewrite alloc_bad_order in Hrun by done. by injection Hrun as _ <-. }
  pose proof (hi_inv _ _ _ _ _ _ Hh) as Hinv.
  destruct (alloc_spec fl (zone_of z) o) as [[a fl']|] eqn:E.
  - destruct (alloc_succeeds s _ fl o z Hinv Hz ltac:(lia) a fl' E) as (s2 & Hrun2 & He & _).
    rewrite Hrun in Hrun2. injection Hrun2 as _ ->. destruct (ef_only _ _ _ _ _ He) as (m & b & ->). done.
  - rewrite (alloc_fails s _ fl o z Hinv Hz ltac:(lia) E) in Hrun. by injection Hrun as _ <-.
Qed.

Lemma bd_alloc o z : 0 <= o -> 0 <= z ->
  exists r s', buddy_alloc_pages o z s = Done r s' /\ k_pmm s' = k_pmm s /\ same_statics s s' /\
    ((r = 0 /\ s' = s) \/
     (page_block r o /\ bd_inv s' ((r, o) :: A) /\ (r, o) ∉ A /\ agree (in_block A) (k_mem s) (k_mem s'))).
Proof.
  intros Ho Hz. destruct H as (st & size & fl & Hreg & Hh).
  destruct (hist_alloc_runs _ _ _ s A fl o z Hh Ho Hz) as (r & s' & fl' & Hrun & Hh' & Hok & Hfail).
  destruct (alloc_statics o z r s' Hrun Ho Hz) as [Hp Hst].
  exists r, s'. split; [done|]. split; [done|]. split; [done|].
  destruct (Z.eqb_spec r 0) as [->|Hr]; [left; by destruct (Hfail eq_refl)|right].
  destruct (Hok Hr) as [_ Hag]. pose proof (hi_held _ _ _ _ _ _ Hh' r o ltac:(left)) as [Hb _].
  split; [by eapply block_page|]. split; [by exists st, size, fl'|]. split.
  - by pose proof (hi_nodup _ _ _ _ _ _ Hh') as [Hn _]%NoDup_cons.
  - eapply agree_mono; [|exact Hag]. intros x Hx Hc. exact (hist_not_both _ _ _ _ _ _ _ Hh Hc Hx).
Qed.
End buddy.

Lemma bd_free s A1 a o A2 : bd_inv s (A1 ++ (a, o) :: A2) ->
  exists s', buddy_free_pages a o s = Done tt s' /\ k_pmm s' = k_pmm s /\ same_statics s s' /\
    bd_inv s' (A1 ++ A2) /\ agree (in_block (A1 ++ A2)) (k_mem s) (k_mem s').
Proof.
  intros (st & size & fl & Hreg & Hh).
  destruct (hist_free_runs _ _ _ s A1 A2 fl a o Hh) as (s' & fl' & Hrun & Hh' & Hcov & Hag).
  exists s'. split; [done|].
  assert (Ho : only_mb s s').
  { assert (Hheld : held (g_memory_start (k_buddy s)) (bytes_to_pages size) fl a o).
    { rewrite (hi_start _ _ _ _ _ _ Hh). apply (hi_held _ _ _ _ _ _ Hh). eauto with inlist. }
    destruct (free_accepts s _ fl a o (hi_inv _ _ _ _ _ _ Hh) Hheld) as (s2 & Hrun2 & He & _).
    rewrite Hrun in Hrun2. injection Hrun2 as ->. apply He. }
  split; [by destruct Ho as (m & b & ->)|]. split; [by apply only_mb_statics|].
  split; [by exists st, size, fl'|]. eapply agree_mono; [|exact Hag].
  intros x Hx. split; intros Hc.
  - apply (hist_not_both _ _ _ _ _ _ x Hh' ltac:(apply Hcov; by left) Hx).
  - apply (hist_not_both _ _ _ _ _ _ x Hh' ltac:(apply Hcov; by right) Hx).
Qed.

Lemma bd_frame s s' A : bd_inv s A -> agree (fun x => ~ in_block A x) (k_mem s) (k_mem s') ->
  k_buddy s' = k_buddy s -> bd_inv s' A.
Proof.
  intros (st & size & fl & Hreg & Hh) Hag Hb. exists st, size, fl. split; [done|].
  pose proof (hist_write _ _ _ s A fl (k_mem s') Hh Hag) as [G1 G2 G3 G4 G5 G6 G7 G8 G9 G10 G11 G12].
  cbn [k_buddy k_mem set_mem] in *. split; rewrite ?Hb; done.
Qed.

#[export] Program Instance buddy_allocator o z (Ho : 0 <= o) (Hz : 0 <= z) :
  PageAllocator o (buddy_alloc_pages o z) (fun a => buddy_free_pages a o) := {| pa_inv := bd_inv |}.
Next Obligation. intros. by eapply bd_block. Qed.
Next Obligation. intros. by eapply bd_nodup. Qed.
Next Obligation. intros. by eapply bd_disj. Qed.
Next Obligation.
  intros o z Ho Hz s A H. destruct (bd_alloc s A H o z Ho Hz) as (r & s' & H1 & _ & H2 & H3). eauto.
Qed.
Next Obligation.
  intros o z Ho Hz s A1 a A2 H. destruct (bd_free s A1 a o A2 H) as (s' & H1 & _ & H2 & H3 & H4). eauto.
Qed.
Next Obligation. intros o z Ho Hz s s' A H Hag Hb _. by apply (bd_frame s). Qed.

(** Every zone and every order of the buddy allocator serves its clients. *)
Lemma buddy_serves o z : 0 <= o -> 0 <= z -> serves bd_inv o (buddy_alloc_pages o z).
Proof.
  intros Ho Hz s A H. destruct (bd_alloc s A H o z Ho Hz) as (r & s' & H1 & _ & H2 & H3). eauto.
Qed.
