(* ===== verification/Pmm.v ===== *)
(** kernel/mm/pmm.c: the frame allocator over the buddy allocator, and the choice
    of the managed region from the multiboot memory map. *)
From S2P Require Import Prelude Machine DList Buddy BuddyInv BuddySpec BuddyThms BuddyInit BuddyTrace BuddyProps PageAlloc.

Definition FRAME_SIZE : Z := 4096.

Definition set_pmm_total (v : Z) (s : kst) : kst :=
  set_pmm (mkPmm v (g_pmm_free (k_pmm s)) (g_buddy_initialized (k_pmm s))) s.
Definition set_pmm_free (v : Z) (s : kst) : kst :=
  set_pmm (mkPmm (g_pmm_total (k_pmm s)) v (g_buddy_initialized (k_pmm s))) s.
Definition set_buddy_initialized (v : Z) (s : kst) : kst :=
  set_pmm (mkPmm (g_pmm_total (k_pmm s)) (g_pmm_free (k_pmm s)) v) s.

(** [multiboot_mmap_entry_t]: packed, addr at 0, len at 8, type at 16, 24 bytes. *)
Definition MMAP_ENTRY_SIZE : Z := 24.

(** One round of the walk over the memory map; the locals are [p], [memory_start]
    and [memory_size]. *)
Definition mmap_body (end_ : Z) : Z * Z * Z -> K ((Z * Z * Z) + (Z * Z)) :=
  fun '(p, memory_start, memory_size) =>
  if p <? end_ then
    len ← load64 (p + 8);
    modify (fun s => set_pmm_total (u64 (g_pmm_total (k_pmm s) + len)) s) ;;
    type ← load32 (p + 16);
    addr ← load64 p;
    let '(memory_start, memory_size) :=
      if (type =? 1) && (memory_size <? len) then (addr, len) else (memory_start, memory_size) in
    mret (inl (p + MMAP_ENTRY_SIZE, memory_start, memory_size))
  else mret (inr (memory_start, memory_size)).

(** The map lies in memory, so [p + mmap_size] does not wrap. *)
Definition pmm_init (mmap mmap_size : Z) : K unit :=
  modify (set_pmm_total 0) ;;
  modify (set_pmm_free 0) ;;
  r ← while (mmap, 0, 0) (mmap_body (mmap + mmap_size));
  let '(memory_start, memory_size) := r in
  when (0 <? memory_size)
    (buddy_init memory_start memory_size ;;
     modify (set_buddy_initialized 1) ;;
     modify (set_pmm_free memory_size)).

Definition pmm_alloc_frame : K Z :=
  init ← gets (fun s => g_buddy_initialized (k_pmm s));
  if init =? 0 then mret 0 else
  frame ← buddy_alloc_pages 0 BUDDY_ZONE_UNMOVABLE;
  if frame =? 0 then mret 0 else
  free ← gets (fun s => g_pmm_free (k_pmm s));
  when (FRAME_SIZE <=? free) (modify (set_pmm_free (u64 (free - FRAME_SIZE)))) ;;
  mret frame.

Definition pmm_free_frame (frame : Z) : K unit :=
  init ← gets (fun s => g_buddy_initialized (k_pmm s));
  if init =? 0 then mret tt else
  if frame =? 0 then mret tt else
  buddy_free_pages frame 0 ;;
  modify (fun s => set_pmm_free (u64 (g_pmm_free (k_pmm s) + FRAME_SIZE)) s).

Definition pmm_get_total_memory : K Z := gets (fun s => g_pmm_total (k_pmm s)).

Definition pmm_get_free_memory : K Z :=
  init ← gets (fun s => g_buddy_initialized (k_pmm s));
  if negb (init =? 0) then
    pages ← buddy_get_free_pages;
    mret (u64 (pages * FRAME_SIZE))
  else gets (fun s => g_pmm_free (k_pmm s)).

(** ** The frame allocator implements the page-allocator interface *)

Definition pmm_inv (s : kst) (A : blocks) : Prop := bd_inv s A /\ g_buddy_initialized (k_pmm s) <> 0.

Lemma set_pmm_hist st size n s A fl p : hist st size n s A fl -> hist st size n (set_pmm p s) A fl.
Proof. intros [G1 G2 G3 G4 G5 G6 G7 G8 G9 G10 G11 G12]. by split. Qed.

Lemma set_pmm_bd s A p : bd_inv s A -> bd_inv (set_pmm p s) A.
Proof. intros (st & size & fl & Hreg & Hh). exists st, size, fl. split; [done|by apply set_pmm_hist]. Qed.

Lemma pmm_alloc_ok s A : pmm_inv s A ->
  exists r s', pmm_alloc_frame s = Done r s' /\ same_statics s s' /\
    ((r = 0 /\ s' = s) \/
     (page_block r 0 /\ pmm_inv s' ((r, 0) :: A) /\ (r, 0) ∉ A /\ agree (in_block A) (k_mem s) (k_mem s'))).
Proof.
  intros [Hbd Hi]. destruct (bd_alloc s A Hbd 0 BUDDY_ZONE_UNMOVABLE) as (r & s' & Hrun & Hp & Hst & Hcase); [done|done|].
  unfold pmm_alloc_frame, mbind, M_bind, gets. rewrite (proj2 (Z.eqb_neq _ 0)) by done. rewrite Hrun.
  destruct Hcase as [[-> ->]|(Hb & Hbd' & Hn & Hag)]; [exists 0, s; auto|].
  assert (Hr : r <> 0) by (destruct Hb as (_ & ? & _); lia). rewrite (proj2 (Z.eqb_neq r 0)) by done.
  assert (Hgen : forall p, g_buddy_initialized p <> 0 ->
    same_statics s (set_pmm p s') /\ pmm_inv (set_pmm p s') ((r, 0) :: A)).
  { intros p Hp'. split; [exact Hst|]. split; [by apply set_pmm_bd|done]. }
  unfold when. destruct (FRAME_SIZE <=? _).
  - eexists r, _. split; [reflexivity|]. unfold set_pmm_free.
    destruct (Hgen (mkPmm (g_pmm_total (k_pmm s')) (u64 (g_pmm_free (k_pmm s') - FRAME_SIZE))
                 (g_buddy_initialized (k_pmm s')))) as [H1 H2]; [simpl; by rewrite Hp|].
    split; [exact H1|]. right. auto.
  - eexists r, _. split; [reflexivity|]. split; [done|]. right. split; [done|]. split; [|done].
    split; [done|]. by rewrite Hp.
Qed.

Lemma pmm_free_ok s A1 a A2 : pmm_inv s (A1 ++ (a, 0) :: A2) ->
  exists s', pmm_free_frame a s = Done tt s' /\ same_statics s s' /\ pmm_inv s' (A1 ++ A2) /\
    agree (in_block (A1 ++ A2)) (k_mem s) (k_mem s').
Proof.
  intros [Hbd Hi]. destruct (bd_free s A1 a 0 A2 Hbd) as (s' & Hrun & Hp & Hst & Hbd' & Hag).
  destruct (bd_block _ _ Hbd a 0 ltac:(eauto with inlist)) as (_ & Ha & _).
  unfold pmm_free_frame, mbind, M_bind, gets. rewrite (proj2 (Z.eqb_neq _ 0)) by done.
  rewrite (proj2 (Z.eqb_neq a 0)) by lia. rewrite Hrun. unfold modify.
  eexists. split; [reflexivity|]. split; [exact Hst|]. split; [|exact Hag].
  split; [by apply set_pmm_bd|]. simpl. by rewrite Hp.
Qed.

#[export] Program Instance pmm_allocator : PageAllocator 0 pmm_alloc_frame pmm_free_frame :=
  {| pa_inv := pmm_inv |}.
Next Obligation. intros s A a o [Hbd _]. by eapply bd_block. Qed.
Next Obligation. intros s A [Hbd _]. by eapply bd_nodup. Qed.
Next Obligation. intros s A a o1 b o2 [Hbd _]. by eapply bd_disj. Qed.
Next Obligation. intros s A H. by apply pmm_alloc_ok. Qed.
Next Obligation. intros s A1 a A2 H. by apply pmm_free_ok. Qed.
Next Obligation.
  intros s s' A [Hbd Hi] Hag Hb Hp. split; [by apply (bd_frame s)|by rewrite Hp].
Qed.

(** ** The choice of the region *)

Record mmap_entry := mkEntry { me_addr : Z; me_len : Z; me_type : Z }.

(** The entries stored from [p] on. *)
Fixpoint mmap_at (m : mem) (p : Z) (es : list mmap_entry) : Prop :=
  match es with
  | [] => True
  | e :: es => load 8 m p = me_addr e /\ load 8 m (p + 8) = me_len e /\
               load 4 m (p + 16) = me_type e /\ mmap_at m (p + MMAP_ENTRY_SIZE) es
  end.

(** The first usable entry of the greatest length. *)
Definition pick_region (r : Z * Z) (e : mmap_entry) : Z * Z :=
  if (me_type e =? 1) && (r.2 <? me_len e) then (me_addr e, me_len e) else r.
Definition select_region (es : list mmap_entry) : Z * Z := foldl pick_region (0, 0) es.

Definition mmap_total (es : list mmap_entry) : Z := u64 (zsum me_len es).

Lemma mmap_loop es p end_ st0 sz0 tot s : mmap_at (k_mem s) p es ->
  p + MMAP_ENTRY_SIZE * Z.of_nat (length es) - MMAP_ENTRY_SIZE < end_ <= p + MMAP_ENTRY_SIZE * Z.of_nat (length es) ->
  Z.of_nat (length es) < 2 ^ 64 -> g_pmm_total (k_pmm s) = u64 tot ->
  while (p, st0, sz0) (mmap_body end_) s =
    Done (foldl pick_region (st0, sz0) es) (set_pmm_total (u64 (tot + zsum me_len es)) s).
Proof.
  intros Hat Hend Hlen Htot.
  assert (H : wp (while (p, st0, sz0) (mmap_body end_)) (fun r s' =>
    r = foldl pick_region (st0, sz0) es /\ s' = set_pmm_total (u64 (tot + zsum me_len es)) s) s).
  { apply (wp_loop (fun d x s' => exists es1 es2, es = es1 ++ es2 /\ d = length es2 /\
      mmap_at (k_mem s) x.1.1 es2 /\ x.1.1 = p + MMAP_ENTRY_SIZE * Z.of_nat (length es1) /\
      s' = set_pmm_total (u64 (tot + zsum me_len es1)) s /\ (x.1.2, x.2) = foldl pick_region (st0, sz0) es1)
      (length es)); [|done|].
    { exists [], es. split; [done|]. split; [done|]. split; [done|]. split; [simpl; lia|]. split; [|done].
      simpl. rewrite Z.add_0_r, <- Htot. destruct s as [? ? [] ? ? ? ? ?]. done. }
    intros d [[q st] sz] s' (es1 & es2 & Hes & -> & Hq & Hqe & -> & Hf). cbn [fst snd] in *.
    rewrite Hes, length_app in Hend. unfold mmap_body, MMAP_ENTRY_SIZE in *.
    destruct es2 as [|e es2]; simpl length in Hend.
    - rewrite (proj2 (Z.ltb_ge q end_)) by lia. apply wp_ret. rewrite Hes, app_nil_r, <- Hf. done.
    - rewrite (proj2 (Z.ltb_lt q end_)) by lia. destruct Hq as (H1 & H2 & H3 & Hq).
      unfold load64, load32. wp_go. cbn [k_mem set_pmm_total set_pmm]. rewrite H1, H2, H3.
      change (if (me_type e =? 1) && (sz <? me_len e) then (me_addr e, me_len e) else (st, sz))
        with (pick_region (st, sz) e).
      destruct (pick_region (st, sz) e) as [st' sz'] eqn:E. apply wp_ret.
      exists (length es2). split; [simpl; lia|]. exists (es1 ++ [e]), es2. cbn [fst snd].
      split; [by rewrite <- app_assoc|]. split; [done|]. split; [done|].
      split; [rewrite length_app; simpl; lia|]. split.
      + unfold set_pmm_total. cbn [k_pmm set_pmm g_pmm_total g_pmm_free g_buddy_initialized].
        assert (u64 (u64 (tot + zsum me_len es1) + me_len e) = u64 (tot + zsum me_len (es1 ++ [e]))) as ->; [|done].
        rewrite zsum_app. cbn [zsum]. unfold u64. rewrite Zplus_mod_idemp_l. f_equal. lia.
      + rewrite foldl_app, <- Hf. cbn [foldl]. by rewrite E. }
  apply wp_Done in H as (r & s' & Hrun & -> & ->). exact Hrun.
Qed.

Lemma select_region_sound es r : r.2 <= (foldl pick_region r es).2 /\
  (forall e, e ∈ es -> me_type e = 1 -> me_len e <= (foldl pick_region r es).2) /\
  (foldl pick_region r es = r \/
   exists e, e ∈ es /\ me_type e = 1 /\ foldl pick_region r es = (me_addr e, me_len e)).
Proof.
  revert r. induction es as [|e es IH]; intros r; cbn [foldl].
  - split; [lia|]. split; [by intros e ?%not_elem_of_nil|by left].
  - destruct (IH (pick_region r e)) as (H1 & H2 & H3).
    assert (Hp : r.2 <= (pick_region r e).2 /\ (me_type e = 1 -> me_len e <= (pick_region r e).2) /\
                 (pick_region r e = r \/ me_type e = 1 /\ pick_region r e = (me_addr e, me_len e))).
    { unfold pick_region. destruct (Z.eqb_spec (me_type e) 1), (Z.ltb_spec r.2 (me_len e)); simpl; auto with lia. }
    destruct Hp as (P1 & P2 & P3). split; [lia|]. split.
    + intros e' [->|Hin]%elem_of_cons Ht; [specialize (P2 Ht); lia|by apply H2].
    + destruct H3 as [H3|(e' & Hin & Ht & H3)].
      * rewrite H3. destruct P3 as [P3|[P3 P4]]; [by left|]. right. exists e. split; [left|done].
      * right. exists e'. split; [by right|done].
Qed.

(** The walk of [pmm_init], then what it does with the region it chose. *)
Lemma pmm_init_splits es mmap mmap_size s : mmap_at (k_mem s) mmap es ->
  24 * Z.of_nat (length es) - 24 < mmap_size <= 24 * Z.of_nat (length es) -> Z.of_nat (length es) < 2 ^ 64 ->
  let r := select_region es in pmm_init mmap mmap_size s = when (0 <? r.2)
    (buddy_init r.1 r.2 ;; modify (set_buddy_initialized 1) ;; modify (set_pmm_free r.2))
    (set_pmm_total (mmap_total es) (set_pmm_free 0 (set_pmm_total 0 s))).
Proof.
  intros Hat Hsz Hlen r. set (s1 := set_pmm_free 0 (set_pmm_total 0 s)).
  assert (Hloop : while (mmap, 0, 0) (mmap_body (mmap + mmap_size)) s1 =
            Done r (set_pmm_total (mmap_total es) s1)).
  { rewrite (mmap_loop es mmap (mmap + mmap_size) 0 0 0 s1); [done|done| |done|done]. unfold MMAP_ENTRY_SIZE. lia. }
  unfold pmm_init, mbind, M_bind, modify. fold s1. rewrite Hloop. by destruct r.
Qed.

(** [pmm_init] with a usable region. *)
Lemma pmm_init_runs es mmap mmap_size s : mmap_at (k_mem s) mmap es ->
  24 * Z.of_nat (length es) - 24 < mmap_size <= 24 * Z.of_nat (length es) -> Z.of_nat (length es) < 2 ^ 64 ->
  length (g_zones (k_buddy s)) = 3%nat -> let r := select_region es in 0 < r.2 -> phys_region r.1 r.2 ->
  exists s', pmm_init mmap mmap_size s = Done tt s' /\
    g_pmm_total (k_pmm s') = mmap_total es /\ g_pmm_free (k_pmm s') = r.2 /\
    pmm_inv s' [] /\ g_memory_start (k_buddy s') = r.1 /\ g_memory_size (k_buddy s') = r.2 /\ same_statics s s' /\
    agree (fun x => ~ (r.1 <= x < r.1 + 4096 * bytes_to_pages r.2)) (k_mem s) (k_mem s').
Proof.
  intros Hat Hsz Hlen Hz r Hpos [[Hgeo Hsize] Hlim]. rewrite (pmm_init_splits es) by done. fold r.
  set (s2 := set_pmm_total _ _). rewrite (proj2 (Z.ltb_lt 0 r.2)) by done. unfold when.
  destruct (init_succeeds r.1 r.2 s2 Hz Hgeo Hsize) as
    (s3 & fl & Hrun & _ & Hst & Hs3 & _ & _ & _ & _ & _ & _ & Hag & Hon).
  destruct (hist_init r.1 r.2 s2 Hz Hgeo Hsize) as (s3' & fl' & Hrun' & Hh & _).
  rewrite Hrun in Hrun'. injection Hrun' as <-.
  unfold mbind, M_bind. rewrite Hrun. unfold modify. eexists. split; [reflexivity|].
  destruct Hon as (m & b & ->). cbn in Hst, Hs3, Hag |- *. split; [done|]. split; [done|]. split; [|done].
  split; [|done]. exists r.1, r.2, fl'. split; [done|].
  apply (set_pmm_hist _ _ _ _ _ _ (mkPmm (mmap_total es) r.2 1)) in Hh. exact Hh.
Qed.

(** ** The properties *)

(** C11: [pmm_init] walks the whole memory map, sums its lengths modulo 2^64, and
    hands the usable region of the greatest length to the buddy allocator: when
    that region is one the allocator can manage, the frame allocator is then
    initialised, with no frame handed out; with no usable region nothing but the
    totals changes. *)
Theorem pmm_init_correct es mmap mmap_size s : mmap_at (k_mem s) mmap es ->
  24 * Z.of_nat (length es) - 24 < mmap_size <= 24 * Z.of_nat (length es) -> Z.of_nat (length es) < 2 ^ 64 ->
  length (g_zones (k_buddy s)) = 3%nat ->
  let r := select_region es in
  (forall e, e ∈ es -> me_type e = 1 -> me_len e <= r.2) /\
  (0 < r.2 -> exists e, e ∈ es /\ me_type e = 1 /\ r = (me_addr e, me_len e)) /\
  (r.2 = 0 -> exists s', pmm_init mmap mmap_size s = Done tt s' /\
     g_pmm_total (k_pmm s') = mmap_total es /\ k_mem s' = k_mem s /\ k_buddy s' = k_buddy s) /\
  (0 < r.2 -> phys_region r.1 r.2 -> exists s', pmm_init mmap mmap_size s = Done tt s' /\
     g_pmm_total (k_pmm s') = mmap_total es /\ g_pmm_free (k_pmm s') = r.2 /\
     pmm_inv s' [] /\ g_memory_start (k_buddy s') = r.1 /\ g_memory_size (k_buddy s') = r.2).
Proof.
  intros Hat Hsz Hlen Hz r. destruct (select_region_sound es (0, 0)) as (_ & Hmax & Hpick).
  fold (select_region es) in Hmax, Hpick. fold r in Hmax, Hpick. split; [exact Hmax|]. split; [|split].
  - intros Hpos. destruct Hpick as [E|He]; [|done]. rewrite E in Hpos. simpl in Hpos. lia.
  - intros E. rewrite (pmm_init_splits es) by done. fold r. rewrite E. eexists. split; [reflexivity|done].
  - intros Hpos Hreg. destruct (pmm_init_runs es mmap mmap_size s) as (s' & Hrun & H1 & H2 & H3 & H4 & H5 & _); try done. exists s'. auto 10.
Qed.

Lemma demo_phys : phys_region demo_start demo_size.
Proof. split; [exact demo_region|]. by vm_compute. Qed.

(** A memory map of two entries at address 64. *)
Definition demo_map : list mmap_entry := [mkEntry 0 0x9000 2; mkEntry demo_start demo_size 1].
Definition demo_map_mem : mem :=
  let put m p e := store 4 (store 8 (store 8 m p (me_addr e)) (p + 8) (me_len e)) (p + 16) (me_type e) in
  put (put ∅ 64 (mkEntry 0 0x9000 2)) 88 (mkEntry demo_start demo_size 1).

Lemma pmm_init_correct_witness : exists s', pmm_init 64 48 (set_mem demo_map_mem boot_state) = Done tt s' /\
  g_pmm_free (k_pmm s') = demo_size /\ pmm_inv s' [].
Proof.
  destruct (pmm_init_correct demo_map 64 48 (set_mem demo_map_mem boot_state)) as (_ & _ & _ & H).
  - vm_compute. repeat split.
  - simpl. lia.
  - simpl. lia.
  - done.
  - destruct (H ltac:(done) demo_phys) as (s' & Hrun & _ & Hf & Hi & _). exists s'. split; [exact Hrun|auto].
Defined.

(** The frame allocator meets the page-allocator interface and reports its free
    memory exactly: with the blocks [A] handed out, an allocation gives a fresh
    page-aligned frame without touching them or fails changing nothing, freeing
    a handed-out frame gives it back, and [pmm_get_free_memory] is the size of
    the pages that are not handed out. *)
Theorem pmm_frames_correct st size s A : phys_region st size -> reachable st size s A ->
  g_buddy_initialized (k_pmm s) <> 0 ->
  pmm_inv s A /\
  pmm_get_free_memory s = Done (4096 * (bytes_to_pages size - block_pages A)) s /\
  (exists r s', pmm_alloc_frame s = Done r s' /\
     (r = 0 /\ s' = s \/ page_block r 0 /\ pmm_inv s' ((r, 0) :: A) /\ (forall a o, (a, o) ∈ A -> disj r 0 a o) /\
                         agree (in_block A) (k_mem s) (k_mem s'))) /\
  (forall A1 a A2, A = A1 ++ (a, 0) :: A2 -> exists s', pmm_free_frame a s = Done tt s' /\
     pmm_inv s' (A1 ++ A2) /\ agree (in_block (A1 ++ A2)) (k_mem s) (k_mem s')).
Proof.
  intros Hreg Hre Hi. destruct (reachable_hist st size s A (proj1 Hreg) Hre) as [fl H].
  assert (Hp : pmm_inv s A) by (split; [by exists st, size, fl|done]). split; [done|]. split; [|split].
  - unfold pmm_get_free_memory, mbind, M_bind, gets. rewrite (proj2 (Z.eqb_neq _ 0)) by done. cbn [negb].
    pose proof (hi_pages _ _ _ _ _ _ H) as Hpg. pose proof (pages_of_nonneg (fl 0)) as Hnn.
    assert (Hb : 0 <= block_pages A) by (apply zsum_nonneg; intros [? ?]; apply Z.pow_nonneg; lia).
    pose proof (hi_inv _ _ _ _ _ _ H) as Hinv. destruct (c_geo _ _ _ _ (bi_core _ _ _ _ Hinv)) as (Hg1 & _ & Hg2 & Hg3).
    unfold buddy_get_free_pages. rewrite (sum_zones_exec _ s _ fl Hinv) by done.
    rewrite !(bi_free _ _ _ _ Hinv) by lia.
    rewrite (pages_of_empty (fl 1)), (pages_of_empty (fl 2)) by (intros o; by apply (hi_zone _ _ _ _ _ _ H)).
    rewrite !Z.add_0_r, Z.add_0_l, !(u64_id (pages_of (fl 0))) by lia.
    unfold mret, M_ret, FRAME_SIZE. f_equal. rewrite u64_id by lia. lia.
  - destruct (pmm_alloc_ok s A Hp) as (r & s' & Hrun & _ & Hcase). exists r, s'. split; [exact Hrun|].
    destruct Hcase as [?|(H1 & H2 & H3 & H4)]; [by left|right]. split; [done|]. split; [done|]. split; [|done].
    intros a o Hin. by apply (pa_new_disj (PA := pmm_allocator) s' A r 0 H2 H3).
  - intros A1 a A2 ->. destruct (pmm_free_ok s A1 a A2 Hp) as (s' & Hrun & _ & H2 & H3). by exists s'.
Qed.

Definition demo_pmm : kst := set_buddy_initialized 1 demo_state.

Lemma demo_pmm_inv : pmm_inv demo_pmm [].
Proof.
  destruct demo_hist as [fl H]. split; [|done]. exists demo_start, demo_size, fl. split; [exact demo_phys|].
  exact (set_pmm_hist _ _ _ _ _ _ (k_pmm demo_pmm) H).
Qed.

Lemma demo_pmm_reachable : reachable demo_start demo_size demo_pmm [].
Proof.
  exists (set_pmm (mkPmm 0 0 1) boot_state), demo_pmm. split; [done|]. split; [|apply rtc_refl].
  vm_compute. reflexivity.
Qed.

Lemma pmm_frames_correct_witness : pmm_get_free_memory demo_pmm = Done 45056 demo_pmm.
Proof.
  destruct (pmm_frames_correct demo_start demo_size demo_pmm [] demo_phys demo_pmm_reachable) as (_ & H & _);
    [done|]. exact H.
Defined.
