(* ===== verification/Zoned.v ===== *)
(** The allocators when every zone may hold blocks.  [buddy_init] puts all memory in the
    UNMOVABLE zone and no call moves a block to another, so the histories of BuddyTrace never
    see a block of the MOVABLE or of the RECLAIMABLE zone.  The operations do not depend on
    that: here are the two page-allocator interfaces over an invariant that says nothing of the
    zones, and a state in which a page was moved to another zone. *)
From S2P Require Import Prelude Machine DList Buddy BuddyInv BuddySpec BuddyThms BuddyTrace BuddyProps PageAlloc Pmm.

(** The blocks [A] are out, and no byte of them is in a free list of any zone. *)
Record owned (st n : Z) (s : kst) (A : blocks) (fl : lists) : Prop := {
  ow_inv : binv (k_buddy s) (k_mem s) n fl;
  ow_start : g_memory_start (k_buddy s) = st;
  ow_held a o : (a, o) ∈ A -> held st n fl a o;
  ow_nodup : NoDup A;
  ow_disj a o a' o' : (a, o) ∈ A -> (a', o') ∈ A -> (a, o) <> (a', o') -> disj a o a' o'
}.

Definition zd_inv (s : kst) (A : blocks) : Prop :=
  exists st n fl, st + 4096 * n <= PHYS_LIMIT /\ owned st n s A fl.

Lemma bd_zoned s A : bd_inv s A -> zd_inv s A.
Proof. intros (st & size & fl & [_ Hl] & [H1 H2 _ _ _ H3 H4 H5 _ _ _ _]). by exists st, (bytes_to_pages size), fl. Qed.

Section owned.
Context (st n : Z) (s : kst) (A : blocks) (fl : lists).
Hypothesis H : owned st n s A fl.

Lemma ow_geo : geo st n.
Proof using H. rewrite <- (ow_start _ _ _ _ _ H). apply (c_geo _ _ _ _ (bi_core _ _ _ _ (ow_inv _ _ _ _ _ H))). Qed.

Lemma ow_blocks : blocks_ok st n fl.
Proof using H. rewrite <- (ow_start _ _ _ _ _ H). apply (c_blocks _ _ _ _ (bi_core _ _ _ _ (ow_inv _ _ _ _ _ H))). Qed.

Lemma ow_not_both x : covered fl x -> ~ in_block A x.
Proof using H.
  intros Hc (a & o & Hin & Hx). by destruct (proj1 (held_covered _ _ _ _ _ ow_blocks) (ow_held _ _ _ _ _ H _ _ Hin)) as [_ Hno]; apply (Hno x).
Qed.

(** A block leaves the free lists, whatever its zone. *)
Lemma ow_take o t a fl' s' : 0 <= o <= 10 -> 0 <= t < 3 -> alloc_spec fl t o = Some (a, fl') ->
  effect s s' n fl' (fun x => ~ covered fl x) -> owned st n s' ((a, o) :: A) fl'.
Proof using H.
  intros Ho Ht Hspec He. destruct (alloc_spec_ok _ n fl t o a fl' ow_geo ow_blocks Ht ltac:(lia) Hspec) as (Hblk' & Hha & Hcov' & _).
  pose proof (sz_orders o Ho) as Hso. pose proof (ow_held _ _ _ _ _ H) as Hheld.
  assert (Hnew : forall b ob, (b, ob) ∈ A -> disj b ob a o).
  { intros b ob Hin. destruct (proj1 (held_covered _ _ _ _ _ ow_blocks) (Hheld _ _ Hin)) as [Hb Hno].
    apply disj_bytes; [apply Hb|done|]. intros x Hx Hax. apply (Hno x Hx), Hcov'. by right. }
  split.
  - apply He.
  - rewrite (proj1 (ef_region _ _ _ _ _ He)). apply H.
  - intros b ob [[= -> ->]|Hin]%elem_of_cons; [done|].
    destruct (proj1 (held_covered _ _ _ _ _ ow_blocks) (Hheld _ _ Hin)) as [Hb Hno].
    apply held_covered; [done|]. split; [done|]. intros x Hx Hc. apply (Hno x Hx), Hcov'. by left.
  - apply NoDup_cons. split; [|apply H]. intros Hin%Hnew. unfold disj in Hin. lia.
  - intros b ob c oc [[= -> ->]|Hb]%elem_of_cons [[= -> ->]|Hc]%elem_of_cons Hne; [done|by apply disj_sym, Hnew|by apply Hnew|by eapply ow_disj].
Qed.
End owned.

(** A block of [A] comes back to the free lists. *)
Lemma ow_give st n s A1 A2 a o fl fl' s' : owned st n s (A1 ++ (a, o) :: A2) fl -> blocks_ok st n fl' ->
  (forall x, covered fl' x <-> covered fl x \/ within a (sz o) x) ->
  binv (k_buddy s') (k_mem s') n fl' -> g_memory_start (k_buddy s') = st -> owned st n s' (A1 ++ A2) fl'.
Proof.
  intros H Hblk' Hcov' Hi Hst. pose proof (ow_nodup _ _ _ _ _ H) as Hnd. assert (Hin : (a, o) ∈ A1 ++ (a, o) :: A2) by eauto with inlist.
  assert (Hsub : forall x, x ∈ A1 ++ A2 -> x ∈ A1 ++ (a, o) :: A2 /\ x <> (a, o)).
  { apply NoDup_app in Hnd as (_ & Hd & [Hn _]%NoDup_cons). intros x [Hx|Hx]%elem_of_app; (split; [eauto with inlist|]); intros ->; [|done].
    apply (Hd _ Hx). left. }
  split; [done|done| |by eapply NoDup_middle|].
  - intros b ob [Hb Hne]%Hsub. destruct (proj1 (held_covered _ _ _ _ _ (ow_blocks _ _ _ _ _ H)) (ow_held _ _ _ _ _ H _ _ Hb)) as [Hbk Hno].
    apply held_covered; [done|]. split; [done|]. intros x Hx Hc. apply Hcov' in Hc as [Hc|Hc]; [by apply (Hno x)|].
    pose proof (ow_disj _ _ _ _ _ H _ _ _ _ Hb Hin Hne) as Hd. unfold disj, within in *. lia.
  - intros b ob c oc [Hb _]%Hsub [Hc _]%Hsub. by apply (ow_disj _ _ _ _ _ H).
Qed.

Lemma zd_block s A a o : zd_inv s A -> (a, o) ∈ A -> page_block a o.
Proof.
  intros (st & n & fl & Hl & H) Hin. pose proof (ow_held _ _ _ _ _ H _ _ Hin) as [Hb _].
  pose proof (blk_ok_addr _ _ _ _ (ow_geo _ _ _ _ _ H) Hb) as (H1 & _ & H3). destruct Hb as (H4 & _ & _ & H7). repeat split; try done; lia.
Qed.

(** An allocation from any zone. *)
Lemma zd_alloc s A o z : zd_inv s A -> 0 <= o -> 0 <= z -> exists r s', buddy_alloc_pages o z s = Done r s' /\ k_pmm s' = k_pmm s /\ same_statics s s' /\
  ((r = 0 /\ s' = s) \/ (page_block r o /\ zd_inv s' ((r, o) :: A) /\ (r, o) ∉ A /\ agree (in_block A) (k_mem s) (k_mem s'))).
Proof.
  intros (st & n & fl & Hl & H) Ho Hz. destruct (Z.lt_ge_cases 10 o) as [Hgt|Hle].
  { exists 0, s. rewrite alloc_bad_order by done. split; [done|]. split; [done|]. split; [done|by left]. }
  pose proof (ow_inv _ _ _ _ _ H) as Hinv. destruct (alloc_spec fl (zone_of z) o) as [[a fl']|] eqn:E.
  - destruct (alloc_succeeds s n fl o z Hinv Hz ltac:(lia) a fl' E) as (s' & Hrun & He & _).
    pose proof (ow_take st n s A fl H o _ a fl' s' ltac:(lia) (zone_of_range z Hz) E He) as H'.
    assert (Hi' : zd_inv s' ((a, o) :: A)) by (by exists st, n, fl'). exists a, s'. split; [done|].
    destruct (ef_only _ _ _ _ _ He) as (m & b & Es). split; [by rewrite Es|]. split; [by rewrite Es|]. right.
    split; [by apply (zd_block s' ((a, o) :: A)); [|left]|]. split; [done|]. split.
    + by pose proof (ow_nodup _ _ _ _ _ H') as [Hn _]%NoDup_cons.
    + eapply agree_mono; [|apply He]. intros x Hx Hc. exact (ow_not_both _ _ _ _ _ H x Hc Hx).
  - exists 0, s. split; [by apply (alloc_fails s n fl)|]. split; [done|]. split; [done|by left].
Qed.

Lemma zd_free s A1 a o A2 : zd_inv s (A1 ++ (a, o) :: A2) -> exists s', buddy_free_pages a o s = Done tt s' /\ k_pmm s' = k_pmm s /\
  same_statics s s' /\ zd_inv s' (A1 ++ A2) /\ agree (in_block (A1 ++ A2)) (k_mem s) (k_mem s').
Proof.
  intros (st & n & fl & Hl & H). pose proof (ow_inv _ _ _ _ _ H) as Hinv. pose proof (ow_start _ _ _ _ _ H) as Hst.
  pose proof (ow_held _ _ _ _ _ H a o ltac:(eauto with inlist)) as Hheld. rewrite <- Hst in Hheld.
  destruct (free_accepts s n fl a o Hinv Hheld) as (s' & Hrun & He & _). set (p := addr_to_page_index (k_buddy s) a) in *.
  destruct (clear_bit_rest p (k_buddy s)) as (_ & Hst1 & _).
  destruct (free_spec_ok (clear_bit p (k_buddy s)) n fl a o) as (Hblk' & Hcov' & _); try (rewrite Hst1; done || apply (bi_core _ _ _ _ Hinv)).
  rewrite Hst1, Hst in Hblk'. assert (Hst' : g_memory_start (k_buddy s') = st) by (rewrite <- Hst; apply He).
  pose proof (ow_give st n s A1 A2 a o fl _ s' H Hblk' Hcov' (ef_inv _ _ _ _ _ He) Hst') as H'.
  exists s'. split; [done|]. destruct (ef_only _ _ _ _ _ He) as (m & b & Es). split; [by rewrite Es|]. split; [by rewrite Es|]. split.
  - eexists st, n, _. by split.
  - eapply agree_mono; [|apply He]. intros x Hx. split; intros Hc; apply (ow_not_both _ _ _ _ _ H' x); try done; apply Hcov'; [by left|by right].
Qed.

Lemma zd_frame s s' A : zd_inv s A -> agree (fun x => ~ in_block A x) (k_mem s) (k_mem s') -> k_buddy s' = k_buddy s -> zd_inv s' A.
Proof.
  intros (st & n & fl & Hl & H) Hag Hb. exists st, n, fl. split; [done|]. pose proof H as [H1 H2 H3 H4 H5]. split; rewrite ?Hb; try done.
  apply (binv_frame _ (k_mem s)); [done|]. eapply agree_mono; [|exact Hag]. intros x Hx. by eapply ow_not_both.
Qed.

Lemma zd_serves o z : 0 <= o -> 0 <= z -> serves zd_inv o (buddy_alloc_pages o z).
Proof. intros Ho Hz s A Hi. destruct (zd_alloc s A o z Hi Ho Hz) as (r & s' & H1 & _ & H2 & H3). eauto. Qed.

(** ** The interfaces *)

Program Definition zoned_buddy o z (Ho : 0 <= o) (Hz : 0 <= z) : PageAllocator o (buddy_alloc_pages o z) (fun a => buddy_free_pages a o) :=
  {| pa_inv := zd_inv |}.
Next Obligation. intros. by eapply zd_block. Qed.
Next Obligation. intros o z _ _ s A (st & n & fl & _ & H). apply H. Qed.
Next Obligation. intros o z _ _ s A a o1 b o2 (st & n & fl & _ & H). apply H. Qed.
Next Obligation. intros o z Ho Hz. by apply zd_serves. Qed.
Next Obligation. intros o z Ho Hz s A1 a A2 H. destruct (zd_free s A1 a o A2 H) as (s' & H1 & _ & H2 & H3 & H4). eauto. Qed.
Next Obligation. intros o z Ho Hz s s' A H Hag Hb _. by apply (zd_frame s). Qed.

Definition zp_inv (s : kst) (A : blocks) : Prop := zd_inv s A /\ g_buddy_initialized (k_pmm s) <> 0.

Lemma pmm_zoned s A : pmm_inv s A -> zp_inv s A.
Proof. intros [H Hi]. split; [by apply bd_zoned|done]. Qed.

Lemma zp_alloc s A : zp_inv s A -> exists r s', pmm_alloc_frame s = Done r s' /\ same_statics s s' /\
  ((r = 0 /\ s' = s) \/ (page_block r 0 /\ zp_inv s' ((r, 0) :: A) /\ (r, 0) ∉ A /\ agree (in_block A) (k_mem s) (k_mem s'))).
Proof.
  intros [Hbd Hi]. destruct (zd_alloc s A 0 BUDDY_ZONE_UNMOVABLE Hbd) as (r & s' & Hrun & Hp & Hst & Hcase); [done|done|].
  unfold pmm_alloc_frame, mbind, M_bind, gets. rewrite (proj2 (Z.eqb_neq _ 0)) by done. rewrite Hrun.
  destruct Hcase as [[-> ->]|(Hb & Hbd' & Hn & Hag)]; [exists 0, s; auto|].
  assert (Hr : r <> 0) by (destruct Hb as (_ & ? & _); lia). rewrite (proj2 (Z.eqb_neq r 0)) by done.
  assert (Hgen : forall p, g_buddy_initialized p = g_buddy_initialized (k_pmm s) -> same_statics s (set_pmm p s') /\ zp_inv (set_pmm p s') ((r, 0) :: A)).
  { intros p Ep. split; [exact Hst|]. split; [by apply (zd_frame s')|by rewrite <- Ep in Hi]. }
  unfold when. destruct (FRAME_SIZE <=? _).
  - eexists r, _. split; [reflexivity|]. destruct (Hgen (mkPmm (g_pmm_total (k_pmm s')) (u64 (g_pmm_free (k_pmm s') - FRAME_SIZE))
      (g_buddy_initialized (k_pmm s')))) as [H1 H2]; [by rewrite Hp|]. split; [exact H1|]. right. auto.
  - eexists r, _. split; [reflexivity|]. split; [done|]. right. split; [done|]. split; [|done]. split; [done|by rewrite Hp].
Qed.

Lemma zp_free s A1 a A2 : zp_inv s (A1 ++ (a, 0) :: A2) -> exists s', pmm_free_frame a s = Done tt s' /\ same_statics s s' /\ zp_inv s' (A1 ++ A2) /\
  agree (in_block (A1 ++ A2)) (k_mem s) (k_mem s').
Proof.
  intros [Hbd Hi]. destruct (zd_free s A1 a 0 A2 Hbd) as (s' & Hrun & Hp & Hst & Hbd' & Hag).
  destruct (zd_block _ _ a 0 Hbd ltac:(eauto with inlist)) as (_ & Ha & _).
  unfold pmm_free_frame, mbind, M_bind, gets. rewrite (proj2 (Z.eqb_neq _ 0)) by done. rewrite (proj2 (Z.eqb_neq a 0)) by lia. rewrite Hrun. unfold modify.
  eexists. split; [reflexivity|]. split; [exact Hst|]. split; [|exact Hag]. split; [by apply (zd_frame s')|simpl; by rewrite Hp].
Qed.

Program Definition zoned_pmm : PageAllocator 0 pmm_alloc_frame pmm_free_frame := {| pa_inv := zp_inv |}.
Next Obligation. intros s A a o [Hbd _]. by eapply zd_block. Qed.
Next Obligation. intros s A [(st & n & fl & _ & H) _]. apply H. Qed.
Next Obligation. intros s A a o1 b o2 [(st & n & fl & _ & H) _]. apply H. Qed.
Next Obligation. intros s A H. by apply zp_alloc. Qed.
Next Obligation. intros s A1 a A2 H. by apply zp_free. Qed.
Next Obligation. intros s s' A [Hbd Hi] Hag Hb Hp. split; [by apply (zd_frame s)|by rewrite Hp]. Qed.

Lemma zp_serves z : 0 <= z -> serves zp_inv 0 (buddy_alloc_pages 0 z).
Proof.
  intros Hz s A [Hi Hp]. destruct (zd_alloc s A 0 z Hi ltac:(lia) Hz) as (r & s' & Hrun & Ep & Hst & Hc). exists r, s'. split; [done|]. split; [done|].
  destruct Hc as [?|(H1 & H2 & H3)]; [by left|right]. split; [done|]. split; [|done]. split; [done|by rewrite Ep].
Qed.

(** ** A page moved to another zone *)

(** The end of a deallocation, into the zone [t]: the page at [a] becomes a free block of it. *)
Definition give_page (t a : Z) (s : kst) : kst :=
  let s1 := locked t 1 s in
  let s2 := moved t (pushed 0 a) (link_front 0 8 (k_mem s1) (zone_head (get_zone (k_buddy s1) t) 0) a) s1 in
  closed t (u64 (free_pages (get_zone (k_buddy s2) t) + 1)) s2.

Lemma give_page_zoned t s A1 a A2 : 0 <= t < 3 -> zd_inv s (A1 ++ (a, 0) :: A2) -> zd_inv (give_page t a s) (A1 ++ A2) /\
  k_pmm (give_page t a s) = k_pmm s /\ same_statics s (give_page t a s) /\ agree (in_block (A1 ++ A2)) (k_mem s) (k_mem (give_page t a s)).
Proof.
  intros Ht (st & n & fl & Hl & H). pose proof (ow_inv _ _ _ _ _ H) as Hinv. pose proof (bi_core _ _ _ _ Hinv) as Hc.
  destruct (locked_core t 1 s n fl Hc Ht) as [Hc1 Hz1]. set (s1 := locked t 1 s) in *.
  assert (Hst1 : g_memory_start (k_buddy s1) = st) by exact (ow_start _ _ _ _ _ H).
  pose proof (ow_held _ _ _ _ _ H a 0 ltac:(eauto with inlist)) as Hheld.
  destruct (push_core s1 n fl Hc1 t 0 a Ht) as [Hc2 Hag2]; [by rewrite Hst1|]. set (m2 := link_front _ _ _ _ _) in *. set (s2 := moved t (pushed 0 a) m2 s1) in *.
  assert (Hm : same_meta (k_buddy s1) (k_buddy s2)) by (apply moved_meta; [by eapply core_length|done|by intros []]).
  pose proof (push_blocks st n fl (ow_blocks _ _ _ _ _ H) t 0 a Ht Hheld) as Hblk'.
  destruct (finish s s2 n fl _ t (u64 (free_pages (get_zone (k_buddy s2) t) + 1)) (fun x => ~ covered fl x /\ ~ within a (sz 0) x) (8 * BITMAP_SIZE) true Hinv Ht Hc2)
    as [He _].
  - by apply same_meta_quiet.
  - intros t' Hne. unfold fupd. by rewrite (proj2 (Z.eqb_neq t' t)).
  - destruct (Hz1 t Ht) as (Hf & _). rewrite (sm_free _ _ Hm), Hf, (bi_free _ _ _ _ Hinv) by done.
    pose proof (pages_of_bound _ _ _ t (ow_geo _ _ _ _ _ H) Hblk' Ht) as Hb. pose proof (pages_of_nonneg (fl t)).
    rewrite pages_of_upd in Hb |- * by lia. simpl length in *. destruct (ow_geo _ _ _ _ _ H) as (? & _ & ? & ?). change (2 ^ 0) with 1 in *. usimpl. lia.
  - exact Hag2.
  - by exists m2, (k_buddy s2).
  - intros q Hq. rewrite (bit_ext _ _ q (sm_bitmap _ _ Hm)). rewrite Z.ltb_irrefl, andb_false_r. done.
  - destruct (ef_only _ _ _ _ _ He) as (m & b & Es). change (closed t _ s2) with (give_page t a s) in He, Es.
    assert (H' : owned st n (give_page t a s) (A1 ++ A2) (fupd fl t 0 (a :: fl t 0))).
    { apply (ow_give st n s A1 A2 a 0 fl); [done|done|apply covered_push|apply He|]. rewrite (proj1 (ef_region _ _ _ _ _ He)). apply H. }
    split; [by exists st, n, (fupd fl t 0 (a :: fl t 0))|]. split; [by rewrite Es|]. split; [by rewrite Es|].
    eapply agree_mono; [|apply He]. intros x Hx. split; intros Hw; apply (ow_not_both _ _ _ _ _ H' x); try done; apply covered_push; [by left|by right].
Qed.
