(* ===== verification/Vmm.v ===== *)
(** kernel/mm/vmm.c: four-level page tables in physical memory.  The walk of the
    code is related to a translation function on memories; mapping a page changes
    the translation of that page and of no other. *)
From S2P Require Import Prelude Machine DList Buddy BuddyInv BuddyTrace PageAlloc Pmm.

#[local] Opaque load store.

Definition PAGE_SIZE : Z := 4096.
Definition PT_ENTRIES : Z := 512.
Definition VMM_FLAG_PRESENT : Z := 0x001.
Definition VMM_FLAG_WRITABLE : Z := 0x002.
Definition VMM_FLAG_USER : Z := 0x004.
Definition VMM_FLAG_NO_EXECUTE : Z := Z.shiftl 1 63.
(** The mask 0x000FFFFFFFFFF000 of the code. *)
Definition ADDR_MASK : Z := 0x000FFFFFFFFFF000.

Definition ADDR_PML4_INDEX (x : Z) : Z := Z.land (Z.shiftr x 39) 0x1FF.
Definition ADDR_PDPT_INDEX (x : Z) : Z := Z.land (Z.shiftr x 30) 0x1FF.
Definition ADDR_PD_INDEX (x : Z) : Z := Z.land (Z.shiftr x 21) 0x1FF.
Definition ADDR_PT_INDEX (x : Z) : Z := Z.land (Z.shiftr x 12) 0x1FF.

Definition present (e : Z) : bool := negb (Z.land e VMM_FLAG_PRESENT =? 0).

Definition get_or_alloc (table index : Z) : K Z :=
  e ← load64 (table + 8 * index);
  if present e then mret (Z.land e ADDR_MASK) else
  frame ← pmm_alloc_frame;
  if frame =? 0 then mret 0 else
  for_range 0 (PAGE_SIZE / 8) (fun i => store64 (frame + 8 * i) 0) ;;
  store64 (table + 8 * index) (Z.lor (Z.lor frame VMM_FLAG_PRESENT) VMM_FLAG_WRITABLE) ;;
  e ← load64 (table + 8 * index);
  mret (Z.land e ADDR_MASK).

Definition vmm_init : K unit := mret tt.

Definition vmm_create_address_space : K Z :=
  frame ← pmm_alloc_frame;
  if frame =? 0 then mret 0 else
  for_range 0 (PAGE_SIZE / 8) (fun i => store64 (frame + 8 * i) 0) ;;
  mret frame.

Definition vmm_switch_address_space (pml4 : Z) : K unit := mret tt.

(** The leaf entry; [flags] is 32 bits wide. *)
Definition leaf_entry (phys flags : Z) : Z :=
  Z.lor (Z.lor (Z.land phys ADDR_MASK) (Z.land flags 0xFFF)) VMM_FLAG_PRESENT.

Definition vmm_map_page (pml4 virt phys flags : Z) : K unit :=
  pdpt ← get_or_alloc pml4 (ADDR_PML4_INDEX virt);
  if pdpt =? 0 then mret tt else
  pd ← get_or_alloc pdpt (ADDR_PDPT_INDEX virt);
  if pd =? 0 then mret tt else
  pt ← get_or_alloc pd (ADDR_PD_INDEX virt);
  if pt =? 0 then mret tt else
  store64 (pt + 8 * ADDR_PT_INDEX virt) (leaf_entry phys flags).

Definition vmm_unmap_page (pml4 virt : Z) : K unit :=
  e ← load64 (pml4 + 8 * ADDR_PML4_INDEX virt);
  if negb (present e) then mret tt else
  let pdpt := Z.land e ADDR_MASK in
  e ← load64 (pdpt + 8 * ADDR_PDPT_INDEX virt);
  if negb (present e) then mret tt else
  let pd := Z.land e ADDR_MASK in
  e ← load64 (pd + 8 * ADDR_PD_INDEX virt);
  if negb (present e) then mret tt else
  let pt := Z.land e ADDR_MASK in
  store64 (pt + 8 * ADDR_PT_INDEX virt) 0.

Definition vmm_get_physical_address (pml4 virt : Z) : K Z :=
  e ← load64 (pml4 + 8 * ADDR_PML4_INDEX virt);
  if negb (present e) then mret 0 else
  let pdpt := Z.land e ADDR_MASK in
  e ← load64 (pdpt + 8 * ADDR_PDPT_INDEX virt);
  if negb (present e) then mret 0 else
  let pd := Z.land e ADDR_MASK in
  e ← load64 (pd + 8 * ADDR_PD_INDEX virt);
  if negb (present e) then mret 0 else
  let pt := Z.land e ADDR_MASK in
  e ← load64 (pt + 8 * ADDR_PT_INDEX virt);
  if negb (present e) then mret 0 else
  mret (Z.lor (Z.land e ADDR_MASK) (Z.land virt 0xFFF)).

(** ** Entries *)

Lemma mask_bit j : 0 <= j -> Z.testbit ADDR_MASK j = (12 <=? j) && (j <? 52).
Proof.
  intros Hj. change ADDR_MASK with (Z.shiftl (Z.ones 40) 12). rewrite Z.shiftl_spec by done.
  destruct (Z.leb_spec 12 j) as [H|H]; [|by rewrite Z.testbit_neg_r by lia].
  rewrite Z.testbit_ones_nonneg by lia. destruct (Z.ltb_spec (j - 12) 40), (Z.ltb_spec j 52); done || lia.
Qed.

Lemma aligned_bit f j : f mod 4096 = 0 -> 0 <= j < 12 -> Z.testbit f j = false.
Proof.
  intros Hf Hj. rewrite <- (Z.mod_pow2_bits_low f 12 j) by lia. change (2 ^ 12) with 4096.
  by rewrite Hf, Z.testbit_0_l.
Qed.

(** The address and the flags of an entry do not interfere. *)
Lemma entry_addr f k : f mod 4096 = 0 -> 0 <= f < 2 ^ 52 -> 0 <= k < 2 ^ 12 -> Z.land (Z.lor f k) ADDR_MASK = f.
Proof.
  intros Hf Hb Hk. apply Z.bits_inj'. intros j Hj. rewrite Z.land_spec, Z.lor_spec, mask_bit by done.
  destruct (Z.leb_spec 12 j); [|rewrite andb_false_r; symmetry; by apply aligned_bit].
  rewrite (high_bit k 12 j) by lia. rewrite orb_false_r.
  destruct (Z.ltb_spec j 52); [by rewrite andb_true_r|]. rewrite (high_bit f 52 j) by lia. done.
Qed.

Lemma entry_bound f k : 0 <= f < 2 ^ 52 -> 0 <= k < 2 ^ 12 -> 0 <= Z.lor f k < 2 ^ 64.
Proof.
  intros Hf Hk. assert (0 <= Z.lor f k) by (apply Z.lor_nonneg; lia). split; [done|].
  destruct (decide (Z.lor f k = 0)) as [->|]; [lia|]. apply Z.log2_lt_pow2; [lia|].
  rewrite Z.log2_lor by lia. destruct (decide (f = 0)) as [->|], (decide (k = 0)) as [->|]; simpl;
    try (pose proof (proj1 (Z.log2_lt_pow2 f 52 ltac:(lia)) ltac:(lia)));
    try (pose proof (proj1 (Z.log2_lt_pow2 k 12 ltac:(lia)) ltac:(lia))); lia.
Qed.

Lemma entry_present f k : Z.testbit k 0 = true -> present (Z.lor f k) = true.
Proof.
  intros Hk. unfold present. change VMM_FLAG_PRESENT with (Z.ones 1). rewrite Z.land_ones by lia.
  destruct (Z.eqb_spec (Z.lor f k mod 2 ^ 1) 0) as [E|]; [|done].
  assert (Hb : Z.testbit (Z.lor f k) 0 = true) by (rewrite Z.lor_spec, Hk; apply orb_true_r).
  rewrite <- (Z.mod_pow2_bits_low _ 1) in Hb by lia. by rewrite E in Hb.
Qed.

Lemma land_bound x k : 0 <= k -> 0 <= Z.land x (Z.ones k) < 2 ^ k.
Proof. intros. rewrite Z.land_ones by done. apply Z.mod_pos_bound. lia. Qed.

Lemma mask_addr x : 0 <= Z.land x ADDR_MASK < 2 ^ 52 /\ Z.land x ADDR_MASK mod 4096 = 0.
Proof.
  split.
  - replace (Z.land x ADDR_MASK) with (Z.land (Z.land x ADDR_MASK) (Z.ones 52)); [by apply land_bound|].
    rewrite <- Z.land_assoc. f_equal.
  - change 4096 with (2 ^ 12). rewrite <- Z.land_ones by lia. rewrite <- Z.land_assoc. apply Z.land_0_r.
Qed.

(** ** Translation as a function of the memory *)

Definition entry (m : mem) (t i : Z) : Z := load 8 m (t + 8 * i).
Definition descend (m : mem) (t i : Z) : option Z :=
  if present (entry m t i) then Some (Z.land (entry m t i) ADDR_MASK) else None.

(** The page table that holds the leaf entry of a virtual address. *)
Definition pt_of (m : mem) (pml4 v : Z) : option Z :=
  pdpt ← descend m pml4 (ADDR_PML4_INDEX v);
  pd ← descend m pdpt (ADDR_PDPT_INDEX v);
  descend m pd (ADDR_PD_INDEX v).

Definition translate (m : mem) (pml4 v : Z) : option Z :=
  pt ← pt_of m pml4 v;
  page ← descend m pt (ADDR_PT_INDEX v);
  Some (Z.lor page (Z.land v 0xFFF)).

Lemma index_bound x k : 0 <= Z.land (Z.shiftr x k) 0x1FF < 512.
Proof. apply (land_bound (Z.shiftr x k) 9). lia. Qed.

(** [vmm_get_physical_address] computes the translation, 0 when there is none. *)
Lemma get_physical_exec pml4 v s :
  vmm_get_physical_address pml4 v s = Done (default 0 (translate (k_mem s) pml4 v)) s.
Proof.
  unfold vmm_get_physical_address, translate, pt_of, descend, entry, load64, mbind, M_bind, gets, option_bind.
  destruct (present (load 8 (k_mem s) (pml4 + _))); [|done]. cbn [negb].
  destruct (present (load 8 (k_mem s) (_ + 8 * ADDR_PDPT_INDEX v))); [|done]. cbn [negb].
  destruct (present (load 8 (k_mem s) (_ + 8 * ADDR_PD_INDEX v))); [|done]. cbn [negb].
  destruct (present (load 8 (k_mem s) (_ + 8 * ADDR_PT_INDEX v))); done.
Qed.

(** ** Well-formed trees of tables

    [N] lists the table pages with their levels: 4 for the PML4, 1 for the page
    tables.  Every present entry above level 1 points to a table of the level
    below, and no two entries point to the same one. *)

Abbreviation tables := (list (Z * Z)).

Record tree (m : mem) (N : tables) : Prop := {
  tr_level l t : (l, t) ∈ N -> 1 <= l <= 4;
  tr_page t l : (l, t) ∈ N -> page_block t 0;
  tr_one l t l' t' : (l, t) ∈ N -> (l', t') ∈ N -> l = l' /\ t = t' \/ disj t 0 t' 0;
  tr_child l t i c : (l, t) ∈ N -> 2 <= l -> 0 <= i < 512 -> descend m t i = Some c -> (l - 1, c) ∈ N;
  tr_unique l t i l' t' i' c : (l, t) ∈ N -> (l', t') ∈ N -> 2 <= l -> 2 <= l' ->
    0 <= i < 512 -> 0 <= i' < 512 -> descend m t i = Some c -> descend m t' i' = Some c -> t = t' /\ i = i'
}.

(** The bytes of the table pages. *)
Definition in_tables (N : tables) (x : Z) : Prop := exists l t, (l, t) ∈ N /\ within t 4096 x.

Lemma descend_Some m t i c : descend m t i = Some c -> Z.land (load 8 m (t + 8 * i)) ADDR_MASK = c.
Proof. unfold descend, entry. destruct (present _); [by intros [= <-]|discriminate]. Qed.

Lemma descend_agree m m' t i : agree (within t 4096) m m' -> 0 <= i < 512 -> descend m' t i = descend m t i.
Proof.
  intros Hag Hi. unfold descend, entry. rewrite (load_agree 8 m m'); [done|].
  eapply agree_mono; [|exact Hag]. unfold within. lia.
Qed.

Lemma descend_zero m t i : (forall x, within t 4096 x -> mget m x = 0) -> 0 <= i < 512 -> descend m t i = None.
Proof.
  intros Hz Hi. unfold descend, entry. rewrite load_zero; [done|]. intros x Hx. apply Hz. unfold within in *. lia.
Qed.

Lemma descend_store_ne m t i t' i' v : 0 <= i < 512 -> 0 <= i' < 512 -> t = t' /\ i <> i' \/ disj t 0 t' 0 ->
  descend (store 8 m (t + 8 * i) v) t' i' = descend m t' i'.
Proof.
  intros Hi Hi' H. unfold descend, entry. rewrite load_store_ne; [done|].
  unfold disj in H. rewrite sz_0 in H. change (Z.of_nat 8) with 8. lia.
Qed.

Lemma descend_store_eq m t i f k : f mod 4096 = 0 -> 0 <= f < 2 ^ 52 -> 0 <= k < 2 ^ 12 ->
  Z.testbit k 0 = true -> descend (store 8 m (t + 8 * i) (Z.lor f k)) t i = Some f.
Proof.
  intros H1 H2 H3 H4. unfold descend, entry. rewrite load64_store_eq by (by apply entry_bound).
  by rewrite entry_present, entry_addr.
Qed.

Section tree.
Context (m : mem) (N : tables).
Hypothesis T : tree m N.

(** Trees do not look outside their tables above level 1. *)
Lemma tree_frame m' : (forall l t, (l, t) ∈ N -> 2 <= l -> agree (within t 4096) m m') -> tree m' N.
Proof.
  intros Hag. destruct T as [H1 H2 H3 H4 H5].
  assert (E : forall l t i, (l, t) ∈ N -> 2 <= l -> 0 <= i < 512 -> descend m' t i = descend m t i).
  { intros l t i Hin Hl Hi. apply descend_agree; [by apply (Hag l)|done]. }
  split; try done.
  - intros l t i c Hin Hl Hi. rewrite (E l) by done. by apply H4.
  - intros l t i l' t' i' c Hin Hin' Hl Hl' Hi Hi'. rewrite (E l), (E l') by done. by eapply H5.
Qed.

Lemma pt_of_in l4 v pt : (4, l4) ∈ N -> pt_of m l4 v = Some pt ->
  exists l3 l2, (3, l3) ∈ N /\ (2, l2) ∈ N /\ (1, pt) ∈ N /\
    descend m l4 (ADDR_PML4_INDEX v) = Some l3 /\ descend m l3 (ADDR_PDPT_INDEX v) = Some l2 /\
    descend m l2 (ADDR_PD_INDEX v) = Some pt.
Proof.
  intros Hin H. unfold pt_of in H.
  destruct (descend m l4 (ADDR_PML4_INDEX v)) as [l3|] eqn:E4; [|done]. cbn in H.
  destruct (descend m l3 (ADDR_PDPT_INDEX v)) as [l2|] eqn:E3; [|done]. cbn in H.
  pose proof (tr_child _ _ T 4 l4 _ l3 Hin ltac:(lia) (index_bound v 39) E4) as H3.
  pose proof (tr_child _ _ T 3 l3 _ l2 H3 ltac:(lia) (index_bound v 30) E3) as H2.
  pose proof (tr_child _ _ T 2 l2 _ pt H2 ltac:(lia) (index_bound v 21) H) as H1.
  by exists l3, l2.
Qed.

(** A page table belongs to one root and one choice of the upper three indices. *)
Lemma pt_of_inj l4 l4' v v' pt : (4, l4) ∈ N -> (4, l4') ∈ N -> pt_of m l4 v = Some pt -> pt_of m l4' v' = Some pt ->
  l4 = l4' /\ ADDR_PML4_INDEX v = ADDR_PML4_INDEX v' /\ ADDR_PDPT_INDEX v = ADDR_PDPT_INDEX v' /\
  ADDR_PD_INDEX v = ADDR_PD_INDEX v'.
Proof.
  intros Hin Hin' H H'. destruct (pt_of_in _ _ _ Hin H) as (l3 & l2 & I3 & I2 & I1 & E4 & E3 & E2).
  destruct (pt_of_in _ _ _ Hin' H') as (l3' & l2' & I3' & I2' & I1' & E4' & E3' & E2').
  destruct (tr_unique _ _ T 2 l2 _ 2 l2' _ pt I2 I2' ltac:(lia) ltac:(lia) (index_bound v 21) (index_bound v' 21) E2 E2')
    as [-> Hi2].
  destruct (tr_unique _ _ T 3 l3 _ 3 l3' _ l2' I3 I3' ltac:(lia) ltac:(lia) (index_bound v 30) (index_bound v' 30) E3 E3')
    as [-> Hi3].
  by destruct (tr_unique _ _ T 4 l4 _ 4 l4' _ l3' Hin Hin' ltac:(lia) ltac:(lia) (index_bound v 39) (index_bound v' 39) E4 E4')
    as [-> Hi4].
Qed.
End tree.

Lemma tree_nil m : tree m [].
Proof.
  split.
  - by intros l t ?%not_elem_of_nil.
  - by intros t l ?%not_elem_of_nil.
  - by intros l t l' t' ?%not_elem_of_nil.
  - by intros l t i c ?%not_elem_of_nil.
  - by intros l t i l' t' i' c ?%not_elem_of_nil.
Qed.

(** A new empty root. *)
Lemma tree_add m N r : tree m N -> page_block r 0 -> (forall l t, (l, t) ∈ N -> disj r 0 t 0) ->
  (forall j, 0 <= j < 512 -> descend m r j = None) -> tree m ((4, r) :: N).
Proof.
  intros T Hr Hdj Hempty. split.
  - intros l t [[= -> ->]|H]%elem_of_cons; [lia|by eapply tr_level].
  - intros t l [[= -> ->]|H]%elem_of_cons; [done|by eapply tr_page].
  - intros l1 t1 l2 t2 [[= -> ->]|H1]%elem_of_cons [[= -> ->]|H2]%elem_of_cons; [by left| | |by eapply tr_one].
    + right. by eapply Hdj.
    + right. specialize (Hdj _ _ H1). unfold disj in *. lia.
  - intros l t i c [[= -> ->]|H]%elem_of_cons Hl Hi Hd; [by rewrite Hempty in Hd|]. right. by eapply tr_child.
  - intros l1 t1 i1 l2 t2 i2 c [[= -> ->]|H1]%elem_of_cons [[= -> ->]|H2]%elem_of_cons Hl1 Hl2 Hi1 Hi2 D1 D2;
      try (by rewrite Hempty in D1); try (by rewrite Hempty in D2).
    by eapply (tr_unique _ _ T l1 t1 i1 l2 t2 i2).
Qed.

(** Translation reads table pages only. *)
Lemma translate_ext m m' N l4 v : tree m N -> (4, l4) ∈ N ->
  (forall l t i, (l, t) ∈ N -> 0 <= i < 512 -> descend m' t i = descend m t i) ->
  pt_of m' l4 v = pt_of m l4 v /\ translate m' l4 v = translate m l4 v.
Proof.
  intros T Hin E.
  assert (Hpt : pt_of m' l4 v = pt_of m l4 v).
  { unfold pt_of. rewrite (E 4 l4 (ADDR_PML4_INDEX v) Hin (index_bound v 39)).
    destruct (descend m l4 (ADDR_PML4_INDEX v)) as [l3|] eqn:E4; [|done]. cbn.
    pose proof (tr_child _ _ T 4 l4 _ l3 Hin ltac:(lia) (index_bound v 39) E4) as H3.
    rewrite (E 3 l3 (ADDR_PDPT_INDEX v) H3 (index_bound v 30)).
    destruct (descend m l3 (ADDR_PDPT_INDEX v)) as [l2|] eqn:E3; [|done]. cbn.
    pose proof (tr_child _ _ T 3 l3 _ l2 H3 ltac:(lia) (index_bound v 30) E3) as H2.
    by rewrite (E 2 l2 (ADDR_PD_INDEX v) H2 (index_bound v 21)). }
  split; [done|]. unfold translate. rewrite Hpt. destruct (pt_of m l4 v) as [pt|] eqn:Ept; [|done]. cbn.
  destruct (pt_of_in m N T l4 v pt Hin Ept) as (l3 & l2 & _ & _ & I1 & _).
  by rewrite (E 1 pt (ADDR_PT_INDEX v) I1 (index_bound v 12)).
Qed.

(** ** Adding an empty table under a non-present entry *)
Section grow.
Context (m m' : mem) (N : tables) (l t i r : Z).
Hypothesis T : tree m N.
Hypothesis Hin : (l, t) ∈ N.
Hypothesis Hl : 2 <= l.
Hypothesis Hi : 0 <= i < 512.
Hypothesis Hnone : descend m t i = None.
Hypothesis Hr : page_block r 0.
Hypothesis Hfresh : forall l' t', (l', t') ∈ N -> disj r 0 t' 0.
Hypothesis Hold : forall l' t' j, (l', t') ∈ N -> 0 <= j < 512 -> (t', j) <> (t, i) -> descend m' t' j = descend m t' j.
Hypothesis Hnew : descend m' t i = Some r.
Hypothesis Hempty : forall j, 0 <= j < 512 -> descend m' r j = None.

Lemma fresh_notin l' : (l', r) ∉ N.
Proof. intros H. specialize (Hfresh _ _ H). unfold disj in Hfresh. rewrite sz_0 in Hfresh. lia. Qed.

Lemma grow_old l' t' j c : (l', t') ∈ N -> 0 <= j < 512 -> descend m t' j = Some c -> descend m' t' j = Some c.
Proof.
  intros H1 H2 H3. rewrite (Hold l'); [done|done|done|]. intros [= -> ->]. by rewrite Hnone in H3.
Qed.

Lemma grow_inv l' t' j c : (l', t') ∈ N -> 0 <= j < 512 -> descend m' t' j = Some c ->
  descend m t' j = Some c \/ (t', j) = (t, i) /\ c = r.
Proof.
  intros H1 H2 H3. destruct (decide ((t', j) = (t, i))) as [E|Hne].
  - right. split; [done|]. injection E as -> ->. congruence.
  - left. by rewrite <- (Hold l').
Qed.

Lemma grow_tree : tree m' ((l - 1, r) :: N).
Proof.
  pose proof (tr_level _ _ T _ _ Hin) as Hlev. split.
  - intros l' t' [[= -> ->]|H]%elem_of_cons; [lia|by eapply tr_level].
  - intros t' l' [[= -> ->]|H]%elem_of_cons; [done|by eapply tr_page].
  - intros l1 t1 l2 t2 [[= -> ->]|H1]%elem_of_cons [[= -> ->]|H2]%elem_of_cons; [by left| | |by eapply tr_one].
    + right. by eapply Hfresh.
    + right. specialize (Hfresh _ _ H1). unfold disj in *. lia.
  - intros l' t' j c [[= -> ->]|H]%elem_of_cons H2 Hj Hd; [by rewrite Hempty in Hd|].
    destruct (grow_inv l' t' j c H Hj Hd) as [Hd'|[[= -> ->] ->]].
    + right. by eapply tr_child.
    + destruct (tr_one _ _ T _ _ _ _ Hin H) as [[-> _]|Hdj]; [left|].
      unfold disj in Hdj. rewrite sz_0 in Hdj. lia.
  - intros l1 t1 j1 l2 t2 j2 c [[= -> ->]|H1]%elem_of_cons [[= -> ->]|H2]%elem_of_cons Hl1 Hl2 Hj1 Hj2 D1 D2;
      try (by rewrite Hempty in D1); try (by rewrite Hempty in D2).
    destruct (grow_inv l1 t1 j1 c H1 Hj1 D1) as [D1'|[[= -> ->] ->]],
      (grow_inv l2 t2 j2 _ H2 Hj2 D2) as [D2'|[[= -> ->] E]].
    + by eapply (tr_unique _ _ T l1 t1 j1 l2 t2 j2).
    + subst c. destruct (fresh_notin (l1 - 1)). exact (tr_child _ _ T l1 t1 j1 r H1 Hl1 Hj1 D1').
    + destruct (fresh_notin (l2 - 1)). exact (tr_child _ _ T l2 t2 j2 r H2 Hl2 Hj2 D2').
    + done.
Qed.

Lemma pt_of_steps m0 l4 v : pt_of m0 l4 v =
  (pd ← (pdpt ← descend m0 l4 (ADDR_PML4_INDEX v); descend m0 pdpt (ADDR_PDPT_INDEX v));
   descend m0 pd (ADDR_PD_INDEX v)).
Proof. unfold pt_of. by destruct (descend m0 l4 _). Qed.

(** The two walks side by side. *)
Definition step_rel (l' : Z) (o o' : option Z) : Prop :=
  (o' = o /\ forall c, o = Some c -> (l', c) ∈ N) \/ (o = None /\ o' = Some r).

Lemma grow_step l' o o' j : 2 <= l' -> 0 <= j < 512 -> step_rel l' o o' ->
  step_rel (l' - 1) (c ← o; descend m c j) (c ← o'; descend m' c j).
Proof.
  intros Hl' Hj [[-> Hc]|[-> ->]]; cbn.
  - destruct o as [c|]; cbn; [|by left]. specialize (Hc c eq_refl).
    destruct (descend m c j) as [d|] eqn:E.
    + left. rewrite (grow_old l' c j d) by done. split; [done|]. intros ? [= <-]. by eapply tr_child.
    + destruct (descend m' c j) as [d|] eqn:E'; [|by left].
      destruct (grow_inv l' c j d Hc Hj E') as [?|[_ ->]]; [congruence|by right].
  - rewrite Hempty by done. by left.
Qed.

Lemma grow_translate l4 v : (4, l4) ∈ N -> translate m' l4 v = translate m l4 v.
Proof.
  intros H4. assert (R4 : step_rel 4 (Some l4) (Some l4)) by (left; split; [done|]; by intros ? [= <-]).
  pose proof (grow_step 4 _ _ (ADDR_PML4_INDEX v) ltac:(lia) (index_bound v 39) R4) as R3.
  pose proof (grow_step 3 _ _ (ADDR_PDPT_INDEX v) ltac:(lia) (index_bound v 30) R3) as R2.
  pose proof (grow_step 2 _ _ (ADDR_PD_INDEX v) ltac:(lia) (index_bound v 21) R2) as R1.
  cbn in R1. unfold translate. rewrite !pt_of_steps.
  destruct R1 as [[E Hc]|[E1 E2]].
  - rewrite E. match goal with |- context [?o ≫= (fun pt => descend m pt (ADDR_PT_INDEX v) ≫= _)] => destruct o as [pt|] eqn:Ept end; [|done]. cbn.
    rewrite (Hold 1 pt (ADDR_PT_INDEX v)); [done|by apply Hc|exact (index_bound v 12)|].
    intros [= -> _]. destruct (tr_one _ _ T _ _ _ _ Hin (Hc _ eq_refl)) as [[? _]|Hdj]; [lia|].
    unfold disj in Hdj. rewrite sz_0 in Hdj. lia.
  - rewrite E1, E2. cbn. rewrite Hempty; [done|exact (index_bound v 12)].
Qed.
End grow.

(** ** Writing a leaf entry *)

(** The virtual page number: bits 12 to 47. *)
Definition page_of (v : Z) : Z := Z.land (Z.shiftr v 12) (Z.ones 36).

Lemma index_div v k : 0 <= k -> Z.land (Z.shiftr v k) 0x1FF = v / 2 ^ k mod 512.
Proof. intros Hk. change 0x1FF with (Z.ones 9). by rewrite Z.land_ones, Z.shiftr_div_pow2 by lia. Qed.

(** Two addresses are on the same page when their four indices agree. *)
Lemma page_of_indices v w : page_of v = page_of w <->
  ADDR_PML4_INDEX v = ADDR_PML4_INDEX w /\ ADDR_PDPT_INDEX v = ADDR_PDPT_INDEX w /\
  ADDR_PD_INDEX v = ADDR_PD_INDEX w /\ ADDR_PT_INDEX v = ADDR_PT_INDEX w.
Proof.
  unfold page_of, ADDR_PML4_INDEX, ADDR_PDPT_INDEX, ADDR_PD_INDEX, ADDR_PT_INDEX.
  rewrite !index_div, !Z.land_ones, !Z.shiftr_div_pow2 by lia.
  change (2 ^ 39) with (2 ^ 12 * 2 ^ 27). change (2 ^ 30) with (2 ^ 12 * 2 ^ 18).
  change (2 ^ 21) with (2 ^ 12 * 2 ^ 9). rewrite <- !Z.div_div by lia.
  generalize (v / 2 ^ 12) as x, (w / 2 ^ 12) as y. intros x y.
  change (2 ^ 36) with 68719476736. change (2 ^ 27) with 134217728. change (2 ^ 18) with 262144. change (2 ^ 9) with 512.
  split; intros H; Z.div_mod_to_equations; lia.
Qed.

Section leaf.
Context (m : mem) (N : tables) (pml4 virt pt w : Z).
Hypothesis T : tree m N.
Hypothesis Hroot : (4, pml4) ∈ N.
Hypothesis Hpt : pt_of m pml4 virt = Some pt.
Let m' := store 8 m (pt + 8 * ADDR_PT_INDEX virt) w.

Lemma leaf_in : (1, pt) ∈ N.
Proof. by destruct (pt_of_in m N T pml4 virt pt Hroot Hpt) as (l3 & l2 & _ & _ & H & _). Qed.

(** Another table, or another slot of this one, reads as before. *)
Lemma leaf_other l t j : (l, t) ∈ N -> 0 <= j < 512 -> t <> pt \/ j <> ADDR_PT_INDEX virt ->
  descend m' t j = descend m t j.
Proof.
  intros Hin Hj Hne. apply descend_store_ne; [apply index_bound|done|].
  destruct (tr_one _ _ T _ _ _ _ leaf_in Hin) as [[_ E]|Hd]; [left|by right].
  split; [done|]. destruct Hne as [Hne|Hne]; [by destruct Hne|]. intros E2. by apply Hne.
Qed.

Lemma leaf_upper l t : (l, t) ∈ N -> 2 <= l -> t <> pt.
Proof.
  intros Hin Hl ->. destruct (tr_one _ _ T _ _ _ _ leaf_in Hin) as [[? _]|Hd]; [lia|].
  unfold disj in Hd. rewrite sz_0 in Hd. lia.
Qed.

Lemma leaf_tree : tree m' N.
Proof.
  apply (tree_frame m N T). intros l t Hin Hl. apply agree_store. intros x Hx Hw.
  pose proof (index_bound virt 12) as Hi. change (Z.land (Z.shiftr virt 12) 511) with (ADDR_PT_INDEX virt) in Hi.
  destruct (tr_one _ _ T _ _ _ _ leaf_in Hin) as [[? _]|Hd]; [lia|].
  unfold disj, within in *. rewrite sz_0 in Hd. change (Z.of_nat 8) with 8 in Hw. lia.
Qed.

Lemma leaf_pt_of l4 v : (4, l4) ∈ N -> pt_of m' l4 v = pt_of m l4 v.
Proof.
  intros H4. unfold pt_of.
  rewrite (leaf_other 4 l4 (ADDR_PML4_INDEX v) H4 (index_bound v 39)) by (left; by eapply leaf_upper).
  destruct (descend m l4 (ADDR_PML4_INDEX v)) as [l3|] eqn:E4; [|done]. cbn.
  pose proof (tr_child _ _ T 4 l4 _ l3 H4 ltac:(lia) (index_bound v 39) E4) as H3.
  rewrite (leaf_other 3 l3 (ADDR_PDPT_INDEX v) H3 (index_bound v 30)) by (left; by eapply leaf_upper).
  destruct (descend m l3 (ADDR_PDPT_INDEX v)) as [l2|] eqn:E3; [|done]. cbn.
  pose proof (tr_child _ _ T 3 l3 _ l2 H3 ltac:(lia) (index_bound v 30) E3) as H2.
  by rewrite (leaf_other 2 l2 (ADDR_PD_INDEX v) H2 (index_bound v 21)) by (left; by eapply leaf_upper).
Qed.

Lemma leaf_translate l4 v : (4, l4) ∈ N -> translate m' l4 v =
  if bool_decide (l4 = pml4 /\ page_of v = page_of virt)
  then (page ← descend m' pt (ADDR_PT_INDEX virt); Some (Z.lor page (Z.land v 0xFFF)))
  else translate m l4 v.
Proof.
  intros H4. unfold translate. rewrite leaf_pt_of by done.
  case_bool_decide as Hsame.
  - destruct Hsame as [-> Hp]. apply page_of_indices in Hp as (E4 & E3 & E2 & E1).
    assert (pt_of m pml4 v = Some pt) as ->; [|cbn; by rewrite E1].
    rewrite <- Hpt. unfold pt_of. by rewrite E4, E3, E2.
  - destruct (pt_of m l4 v) as [q|] eqn:Eq; [|done]. cbn.
    destruct (pt_of_in m N T l4 v q H4 Eq) as (_ & _ & _ & _ & Hq & _).
    rewrite (leaf_other 1 q (ADDR_PT_INDEX v) Hq (index_bound v 12)); [done|].
    destruct (decide (q = pt)) as [->|]; [right|by left]. intros E1. apply Hsame.
    destruct (pt_of_inj m N T l4 pml4 v virt pt H4 Hroot Eq Hpt) as (-> & E4 & E3 & E2).
    split; [done|]. by apply page_of_indices.
Qed.
End leaf.

(** ** The operations, over any frame allocator that meets the interface *)
Section ops.
Context `{PA : PageAllocator 0 pmm_alloc_frame pmm_free_frame}.

(** The tables [N] are pages the memory manager owns. *)
Record vm_inv (s : kst) (A : blocks) (N : tables) : Prop := {
  vi_alloc : pa_inv s A;
  vi_tree : tree (k_mem s) N;
  vi_own l t : (l, t) ∈ N -> (t, 0) ∈ A
}.

(** The bytes clients keep: owned, and not in a table. *)
Definition client (A : blocks) (N : tables) (x : Z) : Prop := in_block A x /\ ~ in_tables N x.

(** The tables of [N'] that are not in [N] lie in pages nobody owned. *)
Definition fresh_tables (A : blocks) (N N' : tables) : Prop :=
  forall l t x, (l, t) ∈ N' -> within t 4096 x -> (l, t) ∈ N \/ ~ in_block A x.

(** What growing the tree leaves alone. *)
Record grown (s s' : kst) (A A' : blocks) (N N' : tables) : Prop := {
  gw_inv : vm_inv s' A' N';
  gw_blocks : A ⊆ A';
  gw_tables : N ⊆ N';
  gw_statics : same_statics s s';
  gw_client : agree (client A N) (k_mem s) (k_mem s');
  gw_walk l t i c : (l, t) ∈ N -> 0 <= i < 512 ->
     descend (k_mem s) t i = Some c -> descend (k_mem s') t i = Some c;
  gw_translate l4 v : (4, l4) ∈ N -> translate (k_mem s') l4 v = translate (k_mem s) l4 v;
  gw_new b o : (b, o) ∈ A' -> (b, o) ∈ A \/ exists l, (l, b) ∈ N' /\ o = 0;
  gw_fresh : fresh_tables A N N'
}.

Lemma grown_refl s A N : vm_inv s A N -> grown s s A A N N.
Proof. intros H. split; try done; by left. Qed.

Lemma in_block_mono A A' x : A ⊆ A' -> in_block A x -> in_block A' x.
Proof. intros Hs (b & o & Hb & Hx). exists b, o. auto. Qed.

Lemma grown_trans s s1 s2 A A1 A2 N N1 N2 :
  grown s s1 A A1 N N1 -> grown s1 s2 A1 A2 N1 N2 -> grown s s2 A A2 N N2.
Proof.
  intros [I1 B1 T1 S1 C1 W1 X1 Y1 Z1] [I2 B2 T2 S2 C2 W2 X2 Y2 Z2]. split; [done| | | | | | | |].
  - by etrans.
  - by etrans.
  - by etrans.
  - etrans; [exact C1|]. eapply agree_mono; [|exact C2]. intros x [Hb Hn]. split.
    + by eapply in_block_mono.
    + intros (l & t & Ht & Hxt). destruct (Z1 l t x Ht Hxt) as [Ht0|]; [|done]. apply Hn. by exists l, t.
  - intros l t i c Hin Hi Hd. apply (W2 l); [by apply T1|done|]. by apply (W1 l).
  - intros l4 v Hin. rewrite X2 by (by apply T1). by apply X1.
  - intros b o Hb. destruct (Y2 b o Hb) as [Hb1|?]; [|by right].
    destruct (Y1 b o Hb1) as [?|(l & Hl & ->)]; [by left|]. right. exists l. split; [by apply T2|done].
  - intros l t x Ht Hx. destruct (Z2 l t x Ht Hx) as [Ht1|Hn]; [by apply (Z1 l t x)|].
    right. intros Hb. apply Hn. by eapply in_block_mono.
Qed.

(** A new page, zeroed, is an empty table. *)
Lemma new_page s A N : vm_inv s A N ->
  wp pmm_alloc_frame (fun r s' => (r = 0 /\ s' = s /\ pmm_alloc_frame s = Done 0 s) \/
    r <> 0 /\ page_block r 0 /\ same_statics s s' /\
    (forall b o, (b, o) ∈ A -> disj r 0 b o) /\
    wp (for_range 0 (PAGE_SIZE / 8) (fun i => store64 (r + 8 * i) 0)) (fun _ s2 =>
      same_statics s s2 /\ pa_inv s2 ((r, 0) :: A) /\ agree (in_block A) (k_mem s) (k_mem s2) /\
      forall x, within r 4096 x -> mget (k_mem s2) x = 0) s') s.
Proof.
  intros [Ha Ht Ho]. destruct (pa_alloc s A Ha) as (r & s' & Hrun & Hst & Hcase).
  eapply wp_of_Done; [exact Hrun|]. destruct Hcase as [[-> ->]|(Hb & Ha' & Hn & Hag)]; [by left|right].
  assert (Hr : r <> 0) by (destruct Hb as (_ & ? & _); lia).
  assert (Hdj : forall b o, (b, o) ∈ A -> disj r 0 b o) by (intros b o Hin; by apply (pa_new_disj s' A r 0)).
  split; [done|]. split; [done|]. split; [done|]. split; [done|].
  change (PAGE_SIZE / 8) with 512. apply wp_fill64; [lia|]. intros m Hm Hz. change (8 * 512) with 4096 in Hm, Hz.
  split; [done|]. split; [|split; [|done]].
  - apply pa_write; [done|]. eapply agree_mono; [|exact Hm]. intros x Hx Hin. apply Hx.
    exists r, 0. split; [left|done].
  - etrans; [exact Hag|]. eapply agree_mono; [|exact Hm]. intros x (b & o & Hin & Hx) Hxr.
    specialize (Hdj _ _ Hin). unfold disj, within in *. rewrite sz_0 in Hdj. lia.
Qed.

Lemma get_or_alloc_ok s A N l t i : vm_inv s A N -> (l, t) ∈ N -> 2 <= l -> 0 <= i < 512 ->
  wp (get_or_alloc t i) (fun r s' => exists A' N', grown s s' A A' N N' /\
    (r = 0 /\ pmm_alloc_frame s' = Done 0 s' \/
     (l - 1, r) ∈ N' /\ r <> 0 /\ descend (k_mem s') t i = Some r)) s.
Proof.
  intros Hinv Hin Hl Hi. pose proof (vi_tree _ _ _ Hinv) as T. unfold get_or_alloc, load64.
  apply wp_bind, wp_gets. destruct (present (load 8 (k_mem s) (t + 8 * i))) eqn:Ep.
  { apply wp_ret. exists A, N. split; [by apply grown_refl|]. right.
    assert (Hd : descend (k_mem s) t i = Some (Z.land (load 8 (k_mem s) (t + 8 * i)) ADDR_MASK)).
    { unfold descend, entry. by rewrite Ep. }
    pose proof (tr_child _ _ T l t i _ Hin Hl Hi Hd) as Hc. split; [done|]. split; [|done].
    destruct (tr_page _ _ T _ _ Hc) as (_ & ? & _). lia. }
  assert (Hnone : descend (k_mem s) t i = None) by (unfold descend, entry; by rewrite Ep).
  apply wp_bind. eapply wp_mono; [by apply (new_page s A N)|]. intros r s1 [(-> & -> & Hfull)|(Hr & Hb & Hst1 & Hdj & Hzero)].
  { apply wp_ret. exists A, N. split; [by apply grown_refl|by left]. }
  rewrite (proj2 (Z.eqb_neq r 0)) by done. apply wp_bind. eapply wp_mono; [exact Hzero|]. cbv beta.
  intros _ s2 (Hst & Ha & Hag & Hz). unfold store64. apply wp_bind, wp_modify, wp_bind, wp_gets, wp_ret.
  cbn [k_mem set_mem]. set (m' := store 8 (k_mem s2) _ _).
  destruct Hb as (_ & Hr0 & Hrm & Hrl). pose proof (vi_own _ _ _ Hinv _ _ Hin) as HtA.
  assert (Htr : disj r 0 t 0) by (by apply Hdj). unfold PHYS_LIMIT in Hrl. rewrite sz_0 in Hrl.
  assert (Hnew : descend m' t i = Some r).
  { unfold m'. rewrite <- Z.lor_assoc. change (Z.lor VMM_FLAG_PRESENT VMM_FLAG_WRITABLE) with 3.
    apply (descend_store_eq (k_mem s2) t i r 3); [exact Hrm|lia|lia|reflexivity]. }
  rewrite (descend_Some m' t i r Hnew).
  assert (Hne' : forall t' j, 0 <= j < 512 -> t = t' /\ i <> j \/ disj t 0 t' 0 ->
            descend m' t' j = descend (k_mem s2) t' j).
  { intros t' j Hj H. by apply descend_store_ne. }
  assert (Hout : agree (fun x => ~ within (t + 8 * i) 8 x) (k_mem s2) m') by (by apply agree_store).
  clearbody m'.
  assert (HownN : forall l' t', (l', t') ∈ N -> disj r 0 t' 0) by (intros l' t' H'; apply Hdj; by eapply vi_own).
  assert (Hold : forall l' t' j, (l', t') ∈ N -> 0 <= j < 512 -> (t', j) <> (t, i) ->
            descend m' t' j = descend (k_mem s) t' j).
  { intros l' t' j H' Hj Hne. rewrite Hne'; [|done|].
    - apply descend_agree; [|done]. eapply agree_mono; [|exact Hag]. intros x Hx. exists t', 0.
      split; [by eapply vi_own|]. exact Hx.
    - destruct (tr_one _ _ T _ _ _ _ Hin H') as [[_ <-]|Hd]; [left|by right]. split; [done|].
      intros E. exact (Hne (f_equal2 pair eq_refl (eq_sym E))). }
  assert (Hempty : forall j, 0 <= j < 512 -> descend m' r j = None).
  { intros j Hj. rewrite Hne'; [|done|right; unfold disj in *; lia]. by apply descend_zero. }
  assert (Hpb : page_block r 0) by (repeat split; unfold PHYS_LIMIT; rewrite ?sz_0; lia).
  exists ((r, 0) :: A), ((l - 1, r) :: N). split; [|right; split; [left|split; [exact Hr|exact Hnew]]]. split.
  - split.
    + apply pa_write; [done|]. eapply agree_mono; [|exact Hout]. intros x Hx Hw. apply Hx. exists t, 0.
      split; [by right|]. rewrite sz_0. unfold within in *. lia.
    + exact (grow_tree (k_mem s) m' N l t i r T Hin Hl Hpb HownN Hold Hnew Hempty).
    + intros l' t' [[= -> ->]|H']%elem_of_cons; [left|right; by eapply vi_own].
  - by apply list_subseteq_cons.
  - by apply list_subseteq_cons.
  - exact Hst.
  - intros x [Hxb Hxn]. cbn [k_mem set_mem]. rewrite Hout; [by apply Hag|].
    intros Hw. apply Hxn. exists l, t. split; [done|]. unfold within in *. lia.
  - intros l' t' j c H' Hj Hd. exact (grow_old (k_mem s) m' N t i Hnone Hold l' t' j c H' Hj Hd).
  - intros l4 v H4. exact (grow_translate (k_mem s) m' N l t i r T Hin Hl Hnone Hold Hnew Hempty l4 v H4).
  - intros b o [[= -> ->]|H']%elem_of_cons; [right|by left]. exists (l - 1). split; [left|done].
  - intros l' t' x [[= -> ->]|H']%elem_of_cons Hx; [right|by left].
    intros (b & o & Hbo & Hxb). specialize (Hdj _ _ Hbo). unfold disj, within in *. rewrite sz_0 in Hdj. lia.
Qed.

(** The leaf the code writes. *)
Lemma leaf_descend m pt i phys flags :
  descend (store 8 m (pt + 8 * i) (leaf_entry phys flags)) pt i = Some (Z.land phys ADDR_MASK).
Proof.
  unfold leaf_entry. rewrite <- Z.lor_assoc. destruct (mask_addr phys) as [Hb Hm].
  assert (Hf : 0 <= Z.lor (Z.land flags 0xFFF) VMM_FLAG_PRESENT < 2 ^ 12).
  { change 0xFFF with (Z.ones 12). pose proof (land_bound flags 12 ltac:(lia)).
    replace (Z.lor (Z.land flags (Z.ones 12)) VMM_FLAG_PRESENT)
      with (Z.land (Z.lor flags VMM_FLAG_PRESENT) (Z.ones 12)); [by apply land_bound|].
    by rewrite Z.land_lor_distr_l. }
  apply descend_store_eq; [exact Hm|exact Hb|exact Hf|].
  rewrite Z.lor_spec. change (Z.testbit VMM_FLAG_PRESENT 0) with true. apply orb_true_r.
Qed.

(** A store to a leaf keeps the invariant and changes one page's translation. *)
Lemma leaf_store_ok s A N pml4 virt pt w : vm_inv s A N -> (4, pml4) ∈ N ->
  pt_of (k_mem s) pml4 virt = Some pt ->
  let m' := store 8 (k_mem s) (pt + 8 * ADDR_PT_INDEX virt) w in
  vm_inv (set_mem m' s) A N /\ agree (client A N) (k_mem s) m' /\
  forall l4 v, (4, l4) ∈ N -> translate m' l4 v =
    if bool_decide (l4 = pml4 /\ page_of v = page_of virt)
    then (page ← descend m' pt (ADDR_PT_INDEX virt); Some (Z.lor page (Z.land v 0xFFF)))
    else translate (k_mem s) l4 v.
Proof.
  intros [Ha T Ho] Hin Hpt m'. pose proof (leaf_in _ _ _ _ _ T Hin Hpt) as H1.
  pose proof (index_bound virt 12) as Hi. change (Z.land (Z.shiftr virt 12) 511) with (ADDR_PT_INDEX virt) in Hi.
  assert (Hpage : forall x, within (pt + 8 * ADDR_PT_INDEX virt) (Z.of_nat 8) x -> within pt 4096 x).
  { unfold within. lia. }
  split; [split|split].
  - apply pa_write; [done|]. apply agree_store. intros x Hx Hw. apply Hx. exists pt, 0.
    split; [by eapply Ho|]. by apply Hpage.
  - by apply (leaf_tree _ _ pml4 virt pt).
  - done.
  - apply agree_store. intros x [_ Hx] Hw. apply Hx. exists 1, pt. split; [done|]. by apply Hpage.
  - intros l4 v H4. by apply (leaf_translate (k_mem s) N pml4 virt pt w).
Qed.

(** What [vmm_map_page] promises of its final state. *)
Definition map_post (s : kst) (A : blocks) (N : tables) (pml4 virt phys : Z) (s' : kst) : Prop :=
  exists A' N', vm_inv s' A' N' /\
    A ⊆ A' /\ N ⊆ N' /\ fresh_tables A N N' /\ same_statics s s' /\ agree (client A N) (k_mem s) (k_mem s') /\
    ((forall l4 v, (4, l4) ∈ N -> translate (k_mem s') l4 v =
        if bool_decide (l4 = pml4 /\ page_of v = page_of virt)
        then Some (Z.lor (Z.land phys ADDR_MASK) (Z.land v 0xFFF)) else translate (k_mem s) l4 v) \/
     (pmm_alloc_frame s' = Done 0 s' /\
      forall l4 v, (4, l4) ∈ N -> translate (k_mem s') l4 v = translate (k_mem s) l4 v)).

(** An allocation failed on the way down. *)
Lemma map_fail s A N pml4 virt phys s1 A1 N1 : grown s s1 A A1 N N1 -> pmm_alloc_frame s1 = Done 0 s1 ->
  map_post s A N pml4 virt phys s1.
Proof.
  intros [G1 G2 G3 G4 G5 G6 G7 _ G8] Hf. exists A1, N1. do 6 (split; [done|]). right. split; [exact Hf|exact G7].
Qed.

(** The page table was reached and its leaf written. *)
Lemma map_leaf s A N pml4 virt phys flags s3 A3 N3 pt : grown s s3 A A3 N N3 -> (4, pml4) ∈ N ->
  pt_of (k_mem s3) pml4 virt = Some pt ->
  map_post s A N pml4 virt phys
    (set_mem (store 8 (k_mem s3) (pt + 8 * ADDR_PT_INDEX virt) (leaf_entry phys flags)) s3).
Proof.
  intros G Hin Hpt.
  destruct (leaf_store_ok s3 A3 N3 pml4 virt pt (leaf_entry phys flags) (gw_inv _ _ _ _ _ _ G)
    (gw_tables _ _ _ _ _ _ G _ Hin) Hpt) as (Hi' & Hag' & Htr').
  exists A3, N3. split; [exact Hi'|]. split; [apply G|]. split; [apply G|].
  split; [apply G|]. split; [apply (gw_statics _ _ _ _ _ _ G)|].
  split.
  - etrans; [apply (gw_client _ _ _ _ _ _ G)|]. eapply agree_mono; [|exact Hag'].
    intros x [Hb Hn]. split; [apply (in_block_mono A); [apply G|done]|].
    intros (l & t & Ht & Hx). destruct (gw_fresh _ _ _ _ _ _ G l t x Ht Hx) as [H0|]; [|done]. apply Hn. by exists l, t.
  - left. intros l4 v H4. cbn [k_mem set_mem]. rewrite Htr' by (by apply (gw_tables _ _ _ _ _ _ G)).
    rewrite leaf_descend. cbn. by rewrite (gw_translate _ _ _ _ _ _ G l4 v H4).
Qed.

Lemma vmm_map_runs s A N pml4 virt phys flags : vm_inv s A N -> (4, pml4) ∈ N ->
  wp (vmm_map_page pml4 virt phys flags) (fun _ s' => map_post s A N pml4 virt phys s') s.
Proof.
  intros Hinv Hin.
  pose proof (index_bound virt 39 : 0 <= ADDR_PML4_INDEX virt < 512) as B4.
  pose proof (index_bound virt 30 : 0 <= ADDR_PDPT_INDEX virt < 512) as B3.
  pose proof (index_bound virt 21 : 0 <= ADDR_PD_INDEX virt < 512) as B2.
  unfold vmm_map_page. apply wp_bind.
  eapply wp_mono; [apply (get_or_alloc_ok s A N 4 pml4 _ Hinv Hin ltac:(lia) B4)|].
  intros l3 s1 (A1 & N1 & G1 & [[-> Hf]|(I3 & Hl3 & E4)]); [apply wp_ret; by eapply map_fail|].
  rewrite (proj2 (Z.eqb_neq l3 0)) by done. apply wp_bind.
  eapply wp_mono; [apply (get_or_alloc_ok s1 A1 N1 3 l3 _ (gw_inv _ _ _ _ _ _ G1) I3 ltac:(lia) B3)|].
  intros l2 s2 (A2 & N2 & G2 & Hc2). pose proof (grown_trans _ _ _ _ _ _ _ _ _ G1 G2) as G12.
  destruct Hc2 as [[-> Hf]|(I2 & Hl2 & E3)]; [apply wp_ret; by eapply map_fail|].
  rewrite (proj2 (Z.eqb_neq l2 0)) by done. apply wp_bind.
  eapply wp_mono; [apply (get_or_alloc_ok s2 A2 N2 2 l2 _ (gw_inv _ _ _ _ _ _ G2) I2 ltac:(lia) B2)|].
  intros l1 s3 (A3 & N3 & G3 & Hc3). pose proof (grown_trans _ _ _ _ _ _ _ _ _ G12 G3) as G.
  destruct Hc3 as [[-> Hf]|(I1 & Hl1 & E2)]; [apply wp_ret; by eapply map_fail|].
  rewrite (proj2 (Z.eqb_neq l1 0)) by done. apply wp_modify.
  assert (Hpt : pt_of (k_mem s3) pml4 virt = Some l1).
  { unfold pt_of.
    rewrite (gw_walk _ _ _ _ _ _ G3 4 pml4 _ l3 (gw_tables _ _ _ _ _ _ G12 _ Hin) B4).
    - cbn. rewrite (gw_walk _ _ _ _ _ _ G3 3 l3 _ l2 (gw_tables _ _ _ _ _ _ G2 _ I3) B3); [|exact E3]. exact E2.
    - exact (gw_walk _ _ _ _ _ _ G2 4 pml4 _ l3 (gw_tables _ _ _ _ _ _ G1 _ Hin) B4 E4). }
  by apply (map_leaf s A N pml4 virt phys flags s3 A3 N3 l1).
Qed.

(** C7: [vmm_map_page] always returns.  Either it maps: afterwards the page of [virt]
    translates to the frame [phys] with the offset kept, and every other page, in
    this and in every other address space, translates as before; or the frame
    allocator is exhausted and no translation has changed.  In both cases the tables
    stay a well-formed tree of owned pages, the new ones fresh, and no byte outside
    them changes. *)
Theorem vmm_map_page_correct s A N pml4 virt phys flags : vm_inv s A N -> (4, pml4) ∈ N ->
  exists s' A' N', vmm_map_page pml4 virt phys flags s = Done tt s' /\ vm_inv s' A' N' /\
    A ⊆ A' /\ N ⊆ N' /\ fresh_tables A N N' /\ same_statics s s' /\ agree (client A N) (k_mem s) (k_mem s') /\
    ((forall l4 v, (4, l4) ∈ N -> translate (k_mem s') l4 v =
        if bool_decide (l4 = pml4 /\ page_of v = page_of virt)
        then Some (Z.lor (Z.land phys ADDR_MASK) (Z.land v 0xFFF)) else translate (k_mem s) l4 v) \/
     (pmm_alloc_frame s' = Done 0 s' /\
      forall l4 v, (4, l4) ∈ N -> translate (k_mem s') l4 v = translate (k_mem s) l4 v)).
Proof.
  intros Hinv Hin. pose proof (vmm_map_runs s A N pml4 virt phys flags Hinv Hin) as H.
  apply wp_Done in H as ([] & s' & Hrun & A' & N' & H). by exists s', A', N'.
Qed.

(** [vmm_unmap_page] always returns; afterwards the page of [virt] has no
    translation, every other page of every address space translates as before, and
    no byte outside the tables has changed. *)
Theorem vmm_unmap_page_correct s A N pml4 virt : vm_inv s A N -> (4, pml4) ∈ N ->
  exists s', vmm_unmap_page pml4 virt s = Done tt s' /\ vm_inv s' A N /\ mem_only s s' /\
    agree (client A N) (k_mem s) (k_mem s') /\
    forall l4 v, (4, l4) ∈ N -> translate (k_mem s') l4 v =
      if bool_decide (l4 = pml4 /\ page_of v = page_of virt) then None else translate (k_mem s) l4 v.
Proof.
  intros Hinv Hin.
  assert (Hrun : vmm_unmap_page pml4 virt s = Done tt (match pt_of (k_mem s) pml4 virt with
    | Some pt => set_mem (store 8 (k_mem s) (pt + 8 * ADDR_PT_INDEX virt) 0) s | None => s end)).
  { unfold vmm_unmap_page, pt_of, descend, entry, load64, mbind, M_bind, gets, option_bind.
    destruct (present (load 8 (k_mem s) (pml4 + _))); [|done]. cbn [negb].
    destruct (present (load 8 (k_mem s) (_ + 8 * ADDR_PDPT_INDEX virt))); [|done]. cbn [negb].
    by destruct (present (load 8 (k_mem s) (_ + 8 * ADDR_PD_INDEX virt))). }
  destruct (pt_of (k_mem s) pml4 virt) as [pt|] eqn:Hpt.
  - destruct (leaf_store_ok s A N pml4 virt pt 0 Hinv Hin Hpt) as (Hi' & Hag' & Htr').
    eexists. split; [exact Hrun|]. split; [exact Hi'|]. split; [done|]. split; [exact Hag'|].
    intros l4 v H4. rewrite Htr' by done. case_bool_decide; [|done].
    unfold descend, entry. by rewrite load64_store_eq.
  - exists s. split; [exact Hrun|]. split; [done|]. split; [reflexivity|]. split; [done|].
    intros l4 v H4. case_bool_decide as Hs; [|done]. destruct Hs as [-> Hp].
    apply page_of_indices in Hp as (E4 & E3 & E2 & _). unfold translate.
    assert (pt_of (k_mem s) pml4 v = pt_of (k_mem s) pml4 virt) as ->; [|by rewrite Hpt].
    unfold pt_of. by rewrite E4, E3, E2.
Qed.

Lemma vmm_create_runs s A N : vm_inv s A N ->
  wp vmm_create_address_space (fun r s' => same_statics s s' /\
    (r = 0 /\ s' = s /\ pmm_alloc_frame s = Done 0 s \/
     vm_inv s' ((r, 0) :: A) ((4, r) :: N) /\ agree (in_block A) (k_mem s) (k_mem s') /\
     (forall v, translate (k_mem s') r v = None) /\
     forall l4 v, (4, l4) ∈ N -> translate (k_mem s') l4 v = translate (k_mem s) l4 v)) s.
Proof.
  intros Hinv. pose proof (vi_tree _ _ _ Hinv) as T.
  unfold vmm_create_address_space. apply wp_bind. eapply wp_mono; [by apply (new_page s A N)|].
  intros r s1 [(-> & -> & Hfull)|(Hr & Hb & Hst1 & Hdj & Hzero)]; [apply wp_ret; split; [done|by left]|].
  rewrite (proj2 (Z.eqb_neq r 0)) by done. apply wp_bind. eapply wp_mono; [exact Hzero|]. cbv beta.
  intros _ s2 (Hst & Ha & Hag & Hz). apply wp_ret. split; [done|]. right.
  assert (Hempty : forall j, 0 <= j < 512 -> descend (k_mem s2) r j = None) by (intros j Hj; by apply descend_zero).
  assert (Hold : forall l t, (l, t) ∈ N -> agree (within t 4096) (k_mem s) (k_mem s2)).
  { intros l t Ht. eapply agree_mono; [|exact Hag]. intros x Hx. exists t, 0. split; [by eapply vi_own|exact Hx]. }
  split; [split|split; [done|split]].
  - done.
  - apply tree_add; [|done| |done].
    + apply (tree_frame (k_mem s)); [done|]. intros l t Ht _. by eapply Hold.
    + intros l t Ht. apply Hdj. by eapply vi_own.
  - intros l t [[= -> ->]|Ht]%elem_of_cons; [left|right; by eapply vi_own].
  - intros v. unfold translate, pt_of. by rewrite (Hempty (ADDR_PML4_INDEX v) (index_bound v 39)).
  - intros l4 v H4. apply (translate_ext (k_mem s) (k_mem s2) N); [done|done|].
    intros l t i Ht Hi. apply descend_agree; [by eapply Hold|done].
Qed.

(** C10: [vmm_create_address_space] always returns: a zero result means that the frame
    allocator is exhausted; otherwise the result is the root of a new address space
    in which nothing is mapped, every existing address space translates as before
    and no byte the clients own changes. *)
Theorem vmm_create_correct s A N : vm_inv s A N ->
  exists r s', vmm_create_address_space s = Done r s' /\ same_statics s s' /\
    (r = 0 /\ s' = s /\ pmm_alloc_frame s = Done 0 s \/
     vm_inv s' ((r, 0) :: A) ((4, r) :: N) /\ agree (in_block A) (k_mem s) (k_mem s') /\
     (forall v, translate (k_mem s') r v = None) /\
     forall l4 v, (4, l4) ∈ N -> translate (k_mem s') l4 v = translate (k_mem s) l4 v).
Proof.
  intros Hinv. pose proof (vmm_create_runs s A N Hinv) as H.
  apply wp_Done in H as (r & s' & H). by exists r, s'.
Qed.
End ops.

(** [vmm_get_physical_address] computes the translation of the address, 0 when it
    is not mapped, in any state and without changing it. *)
Theorem vmm_get_physical_correct pml4 virt s :
  vmm_get_physical_address pml4 virt s = Done (default 0 (translate (k_mem s) pml4 virt)) s.
Proof. apply get_physical_exec. Qed.

(** ** Witnesses: an address space on the eleven-page machine *)

Definition demo_root : Z := 0x10a000.
Definition demo_vm : kst :=
  final (vmm_create_address_space demo_pmm) boot_state.

Lemma demo_vm_start : vm_inv demo_pmm [] [].
Proof.
  split; [exact demo_pmm_inv|apply tree_nil|intros l t H; exfalso; exact (not_elem_of_nil _ H)].
Qed.

Lemma demo_vm_run : vmm_create_address_space demo_pmm = Done demo_root demo_vm.
Proof. apply run_final. vm_compute. reflexivity. Qed.

Lemma demo_vm_inv : vm_inv demo_vm [(demo_root, 0)] [(4, demo_root)].
Proof.
  pose proof (vmm_create_runs _ _ _ demo_vm_start) as H. unfold wp in H. rewrite demo_vm_run in H.
  destruct H as (_ & [(H & _)|(H & _)]); [discriminate H|exact H].
Qed.

Lemma vmm_create_correct_witness : exists r s', vmm_create_address_space demo_pmm = Done r s' /\ same_statics demo_pmm s'.
Proof.
  destruct (vmm_create_correct demo_pmm [] [] demo_vm_start) as (r & s' & Hrun & Hst & _).
  exists r, s'. split; [exact Hrun|exact Hst].
Defined.

Lemma vmm_map_page_correct_witness :
  exists s' A' N', vmm_map_page demo_root 0x400000 0x7000 3 demo_vm = Done tt s' /\ vm_inv s' A' N'.
Proof.
  destruct (vmm_map_page_correct demo_vm [(demo_root, 0)] [(4, demo_root)] demo_root 0x400000 0x7000 3
              demo_vm_inv ltac:(left)) as (s' & A' & N' & Hrun & Hi & _).
  exists s', A', N'. split; [exact Hrun|exact Hi].
Defined.

Lemma vmm_unmap_page_correct_witness : exists s', vmm_unmap_page demo_root 0x400000 demo_vm = Done tt s' /\
  vm_inv s' [(demo_root, 0)] [(4, demo_root)].
Proof.
  destruct (vmm_unmap_page_correct demo_vm [(demo_root, 0)] [(4, demo_root)] demo_root 0x400000
              demo_vm_inv ltac:(left)) as (s' & Hrun & Hi & _).
  exists s'. split; [exact Hrun|exact Hi].
Defined.
