(* ===== verification/Cow.v ===== *)
(** kernel/mm/cow.c: copy-on-write pages and their reference counts.  The table of
    chains is related to a list of (node, page, count) per bucket. *)
From S2P Require Import Prelude Machine DList Buddy BuddyInv BuddyTrace PageAlloc Pmm Vmm.

#[local] Opaque load store.

Definition COW_FLAG_MASK : Z := 0x200.
Definition COW_HASH_SIZE : Z := 1024.
Definition COW_HASH_MASK : Z := COW_HASH_SIZE - 1.

(** Field offsets of [page_ref_t]. *)
Definition REF_PHYS : Z := 0.
Definition REF_COUNT : Z := 8.
Definition REF_LOCK : Z := 12.
Definition REF_NEXT : Z := 16.

(** [phys_addr & ~0xFFFULL] *)
Definition page_align (phys : Z) : Z := Z.land phys (Z.lnot 0xFFF).

Definition cow_hash (phys : Z) : Z := u32 (Z.land (Z.shiftr (page_align phys) 12) COW_HASH_MASK).

Definition cow_head (c : cow_st) (h : Z) : Z := default NULL (cow_hash_table c !! h).
Definition set_cow_head (h v : Z) (s : kst) : kst :=
  set_cow (mkCow (<[h := v]> (cow_hash_table (k_cow s))) (cow_global_lock (k_cow s))) s.
Definition set_cow_lock (l : Z) (s : kst) : kst := set_cow (mkCow (cow_hash_table (k_cow s)) l) s.

Definition cow_lock_acquire : K unit := acquire_var (fun s => cow_global_lock (k_cow s)) set_cow_lock.
Definition cow_lock_release : K unit := release_var set_cow_lock.

Definition cow_init : K unit :=
  for_range 0 COW_HASH_SIZE (fun i => modify (set_cow_head i NULL)) ;;
  modify (set_cow_lock 0).

(** The pointer to the entry, 0 when a table on the way is missing. *)
Definition cow_get_pte (pml4 virt : Z) : K Z :=
  e ← load64 (pml4 + 8 * Z.land (Z.shiftr virt 39) 0x1FF);
  if negb (present e) then mret 0 else
  let pdpt := Z.land e ADDR_MASK in
  e ← load64 (pdpt + 8 * Z.land (Z.shiftr virt 30) 0x1FF);
  if negb (present e) then mret 0 else
  let pd := Z.land e ADDR_MASK in
  e ← load64 (pd + 8 * Z.land (Z.shiftr virt 21) 0x1FF);
  if negb (present e) then mret 0 else
  let pt := Z.land e ADDR_MASK in
  mret (pt + 8 * Z.land (Z.shiftr virt 12) 0x1FF).

(** The search of a chain. *)
Definition find_ref (phys ref : Z) : K (Z + Z) :=
  if ref =? NULL then mret (inr NULL) else
  p ← load64 (ref + REF_PHYS);
  if p =? phys then mret (inr ref) else
  next ← load64 (ref + REF_NEXT);
  mret (inl next).

Definition cow_get_ref (phys : Z) : K Z :=
  let phys := page_align phys in
  let hash := cow_hash phys in
  cow_lock_acquire ;;
  head ← gets (fun s => cow_head (k_cow s) hash);
  ref ← while head (find_ref phys);
  if negb (ref =? NULL) then cow_lock_release ;; mret ref else
  ref ← buddy_alloc_pages 0 BUDDY_ZONE_UNMOVABLE;
  if ref =? NULL then cow_lock_release ;; mret NULL else
  store64 (ref + REF_PHYS) phys ;;
  store32 (ref + REF_COUNT) 0 ;;
  spinlock_init (ref + REF_LOCK) ;;
  head ← gets (fun s => cow_head (k_cow s) hash);
  store64 (ref + REF_NEXT) head ;;
  modify (set_cow_head hash ref) ;;
  cow_lock_release ;;
  mret ref.

(** [spinlock_acquire(&ref->lock); ref->ref_count += d; spinlock_release(&ref->lock)] *)
Definition ref_add (ref d : Z) : K unit :=
  spinlock_acquire (ref + REF_LOCK) ;;
  c ← load32 (ref + REF_COUNT);
  store32 (ref + REF_COUNT) (u32 (c + d)) ;;
  spinlock_release (ref + REF_LOCK).

Definition is_cow (e : Z) : bool := negb (Z.land e COW_FLAG_MASK =? 0).

(** The entry of a page that becomes copy-on-write. *)
Definition cow_entry (e : Z) : Z := Z.lor (Z.land e (u64 (Z.lnot VMM_FLAG_WRITABLE))) COW_FLAG_MASK.
(** The entry of a page that becomes private again. *)
Definition private_entry (e : Z) : Z :=
  Z.land (Z.lor e VMM_FLAG_WRITABLE) (u64 (Z.lnot COW_FLAG_MASK)).

Definition cow_mark_page (pml4 virt : Z) : K Z :=
  if pml4 =? 0 then mret (-1) else
  pte ← cow_get_pte pml4 virt;
  if pte =? 0 then mret (-1) else
  e ← load64 pte;
  if negb (present e) then mret (-1) else
  ref ← cow_get_ref (Z.land e ADDR_MASK);
  if ref =? NULL then mret (-1) else
  ref_add ref 1 ;;
  store64 pte (cow_entry e) ;;
  mret 0.

Definition cow_handle_fault (pml4 virt : Z) : K Z :=
  pte ← cow_get_pte pml4 virt;
  if pte =? 0 then mret (-1) else
  e ← load64 pte;
  if negb (present e) then mret (-1) else
  if negb (is_cow e) then mret (-1) else
  let old_phys := Z.land e ADDR_MASK in
  ref ← cow_get_ref old_phys;
  if ref =? NULL then mret (-1) else
  spinlock_acquire (ref + REF_LOCK) ;;
  ref_count ← load32 (ref + REF_COUNT);
  if ref_count =? 1 then
    store32 (ref + REF_COUNT) (u32 (ref_count - 1)) ;;
    spinlock_release (ref + REF_LOCK) ;;
    store64 pte (private_entry e) ;;
    mret 0
  else
    store32 (ref + REF_COUNT) (u32 (ref_count - 1)) ;;
    spinlock_release (ref + REF_LOCK) ;;
    new_phys ← buddy_alloc_pages 0 BUDDY_ZONE_UNMOVABLE;
    if new_phys =? 0 then ref_add ref 1 ;; mret (-1) else
    for_range 0 4096 (fun i => b ← load8 (old_phys + i); store8 (new_phys + i) b) ;;
    store64 pte (private_entry (Z.lor (Z.land new_phys ADDR_MASK) (Z.land e 0xFFF))) ;;
    mret 0.

Definition cow_increment_ref (phys : Z) : K unit :=
  ref ← cow_get_ref phys;
  if ref =? NULL then mret tt else ref_add ref 1.

(** The search of [cow_decrement_ref] keeps the previous node. *)
Definition find_prev (phys : Z) : Z * Z -> K ((Z * Z) + (Z * Z)) := fun '(ref, prev) =>
  if ref =? NULL then mret (inr (NULL, prev)) else
  p ← load64 (ref + REF_PHYS);
  if p =? phys then mret (inr (ref, prev)) else
  next ← load64 (ref + REF_NEXT);
  mret (inl (next, ref)).

Definition cow_decrement_ref (phys : Z) : K unit :=
  let phys := page_align phys in
  let hash := cow_hash phys in
  cow_lock_acquire ;;
  head ← gets (fun s => cow_head (k_cow s) hash);
  r ← while (head, NULL) (find_prev phys);
  let '(ref, prev) := r in
  if ref =? NULL then cow_lock_release else
  spinlock_acquire (ref + REF_LOCK) ;;
  c ← load32 (ref + REF_COUNT);
  store32 (ref + REF_COUNT) (u32 (c - 1)) ;;
  count ← load32 (ref + REF_COUNT);
  spinlock_release (ref + REF_LOCK) ;;
  if count =? 0 then
    next ← load64 (ref + REF_NEXT);
    (if negb (prev =? NULL) then store64 (prev + REF_NEXT) next
     else modify (set_cow_head hash next)) ;;
    cow_lock_release ;;
    buddy_free_pages phys 0 ;;
    buddy_free_pages ref 0
  else cow_lock_release.

Definition cow_get_ref_count (phys : Z) : K Z :=
  let phys := page_align phys in
  let hash := cow_hash phys in
  cow_lock_acquire ;;
  head ← gets (fun s => cow_head (k_cow s) hash);
  ref ← while head (find_ref phys);
  if ref =? NULL then cow_lock_release ;; mret 0 else
  spinlock_acquire (ref + REF_LOCK) ;;
  count ← load32 (ref + REF_COUNT);
  spinlock_release (ref + REF_LOCK) ;;
  cow_lock_release ;;
  mret count.

(** ** The table, abstractly *)

Record refnode := mkRef { rn_node : Z; rn_phys : Z; rn_count : Z }.

(** The chains: one list per bucket. *)
Abbreviation chains := (Z -> list refnode).

Fixpoint chain (m : mem) (h : Z) (l : list refnode) : Prop :=
  match l with
  | [] => h = NULL
  | r :: l => h = rn_node r /\ h <> NULL /\ load 8 m (h + REF_PHYS) = rn_phys r /\
              load 4 m (h + REF_COUNT) = rn_count r /\ load 4 m (h + REF_LOCK) = 0 /\
              chain m (load 8 m (h + REF_NEXT)) l
  end.

Fixpoint find_node (p : Z) (l : list refnode) : option refnode :=
  match l with
  | [] => None
  | r :: l => if rn_phys r =? p then Some r else find_node p l
  end.

(** The reference count of a page: 0 when the page has no entry. *)
Definition count_of (C : chains) (phys : Z) : Z :=
  match find_node (page_align phys) (C (cow_hash phys)) with Some r => rn_count r | None => 0 end.

Record cow_tab (c : cow_st) (m : mem) (A : blocks) (C : chains) : Prop := {
  ct_lock : cow_global_lock c = 0;
  ct_chain b : chain m (cow_head c b) (C b);
  ct_own b r : r ∈ C b -> (rn_node r, 0) ∈ A;
  ct_key b r : r ∈ C b -> page_align (rn_phys r) = rn_phys r /\ cow_hash (rn_phys r) = b;
  ct_nodup b : NoDup (rn_node <$> C b);
  ct_phys b : NoDup (rn_phys <$> C b);
  ct_inj b r b' r' : r ∈ C b -> r' ∈ C b' -> rn_node r = rn_node r' -> b = b'
}.

(** The bytes of the nodes' pages. *)
Definition in_nodes (C : chains) (x : Z) : Prop := exists b r, r ∈ C b /\ within (rn_node r) 4096 x.

Lemma chain_frame m m' h l : (forall r, r ∈ l -> agree (within (rn_node r) 24) m m') -> chain m h l -> chain m' h l.
Proof.
  revert h. induction l as [|r l IH]; intros h Hag; [done|]. intros (-> & H1 & H2 & H3 & H4 & H5).
  assert (Hr : agree (within (rn_node r) 24) m m') by (apply Hag; left).
  assert (E : forall (n : nat) (k : Z), 0 <= k -> k + Z.of_nat n <= 24 ->
    load n m' (rn_node r + k) = load n m (rn_node r + k)).
  { intros n k H0 Hk. apply load_agree. eapply agree_mono; [|exact Hr]. unfold within. lia. }
  cbn [chain]. unfold REF_PHYS, REF_COUNT, REF_LOCK, REF_NEXT in *. rewrite !E by lia.
  do 5 (split; [done|]). apply IH; [|done]. intros r' Hr'. apply Hag. by right.
Qed.

Lemma find_node_Some p l r : find_node p l = Some r -> r ∈ l /\ rn_phys r = p.
Proof.
  induction l as [|q l IH]; [done|]. simpl. destruct (Z.eqb_spec (rn_phys q) p) as [E|].
  - intros [= ->]. split; [left|done].
  - intros H. destruct (IH H) as [? ?]. split; [by right|done].
Qed.
Lemma find_node_None p l : find_node p l = None -> forall r, r ∈ l -> rn_phys r <> p.
Proof.
  induction l as [|q l IH]; simpl; [by intros _ r ?%not_elem_of_nil|].
  destruct (Z.eqb_spec (rn_phys q) p) as [|Hne]; [done|]. intros H r [->|Hin]%elem_of_cons; [done|by apply IH].
Qed.

(** The search loop. *)
Lemma find_ref_exec p h l s : chain (k_mem s) h l -> Z.of_nat (length l) < 2 ^ 64 ->
  while h (find_ref p) s = Done (match find_node p l with Some r => rn_node r | None => NULL end) s.
Proof.
  intros Hc Hlen.
  assert (H : wp (while h (find_ref p)) (fun r s' => s' = s /\
    r = match find_node p l with Some r => rn_node r | None => NULL end) s).
  { apply (wp_loop (fun d x s' => s' = s /\ exists l', chain (k_mem s) x l' /\ d = length l' /\
      find_node p l' = find_node p l) (length l)); [by split; [|exists l]|done|].
    intros d x s' (-> & l' & Hx & -> & Hf). unfold find_ref. destruct l' as [|r l'].
    - simpl in Hx. subst x. cbn [Z.eqb]. apply wp_ret. split; [done|]. by rewrite <- Hf.
    - destruct Hx as (-> & Hn & Hp & _ & _ & Hx). rewrite (proj2 (Z.eqb_neq _ _)) by done.
      apply wp_bind, wp_gets. rewrite Hp. simpl in Hf. destruct (Z.eqb_spec (rn_phys r) p).
      + apply wp_ret. split; [done|]. by rewrite <- Hf.
      + apply wp_bind, wp_gets, wp_ret. exists (length l'). split; [simpl; lia|]. split; [done|].
        by exists l'. }
  apply wp_Done in H as (r & s' & Hrun & -> & ->). exact Hrun.
Qed.

(** The search that keeps the previous node. *)
Fixpoint find_split (p prev : Z) (l : list refnode) : Z * Z :=
  match l with
  | [] => (NULL, prev)
  | r :: l => if rn_phys r =? p then (rn_node r, prev) else find_split p (rn_node r) l
  end.

Lemma find_prev_exec p h l s : chain (k_mem s) h l -> Z.of_nat (length l) < 2 ^ 64 ->
  while (h, NULL) (find_prev p) s = Done (find_split p NULL l) s.
Proof.
  intros Hc Hlen.
  assert (H : wp (while (h, NULL) (find_prev p)) (fun r s' => s' = s /\ r = find_split p NULL l) s).
  { apply (wp_loop (fun d x s' => s' = s /\ exists l', chain (k_mem s) x.1 l' /\ d = length l' /\
      find_split p x.2 l' = find_split p NULL l) (length l)); [by split; [|exists l]|done|].
    intros d [x prev] s' (-> & l' & Hx & -> & Hf). cbn [fst snd] in *. unfold find_prev. destruct l' as [|r l'].
    - simpl in Hx. subst x. cbn [Z.eqb NULL]. apply wp_ret. split; [done|]. by rewrite <- Hf.
    - destruct Hx as (-> & Hn & Hp & _ & _ & Hx). rewrite (proj2 (Z.eqb_neq _ _)) by done.
      apply wp_bind, wp_gets. rewrite Hp. simpl in Hf. destruct (Z.eqb_spec (rn_phys r) p).
      + apply wp_ret. split; [done|]. by rewrite <- Hf.
      + apply wp_bind, wp_gets, wp_ret. exists (length l'). split; [simpl; lia|]. split; [done|].
        by exists l'. }
  apply wp_Done in H as (r & s' & Hrun & -> & ->). exact Hrun.
Qed.

(** Where the entry is, and the node before it (NULL at the head). *)
Lemma find_split_Some p prev l nd : find_node p l = Some nd ->
  exists l1 l2, l = l1 ++ nd :: l2 /\
    find_split p prev l = (rn_node nd, match last l1 with Some q => rn_node q | None => prev end).
Proof.
  revert prev. induction l as [|r l IH]; intros prev; [done|]. simpl.
  destruct (Z.eqb_spec (rn_phys r) p) as [E|Hne].
  - intros [= ->]. by exists [], l.
  - intros H. destruct (IH (rn_node r) H) as (l1 & l2 & -> & E). exists (r :: l1), l2. split; [done|].
    rewrite E. f_equal. destruct l1 as [|q l1]; [done|]. rewrite last_cons_cons.
    destruct (last (q :: l1)) eqn:El; [done|]. by apply last_None in El.
Qed.
Lemma find_split_None p prev l : find_node p l = None -> (find_split p prev l).1 = NULL.
Proof. revert prev. induction l as [|r l IH]; intros prev; [done|]. simpl. destruct (_ =? _); [done|]. apply IH. Qed.

(** Unlinking a node: at the head, or by writing the previous node's next field. *)
Lemma chain_tail m h l1 l2 : chain m h (l1 ++ l2) -> exists h', chain m h' l2.
Proof.
  revert h. induction l1 as [|r l1 IH]; intros h; [by exists h|]. intros (_ & _ & _ & _ & _ & H). by eapply IH.
Qed.

Lemma chain_unlink m h l1 q nd l2 : chain m h (l1 ++ q :: nd :: l2) ->
  (forall r r', r ∈ l1 ++ q :: nd :: l2 -> r' ∈ l1 ++ q :: nd :: l2 -> rn_node r = rn_node r' \/ disj (rn_node r) 0 (rn_node r') 0) ->
  NoDup (rn_node <$> l1 ++ q :: nd :: l2) ->
  chain (store 8 m (rn_node q + REF_NEXT) (load 8 m (rn_node nd + REF_NEXT))) h (l1 ++ q :: l2).
Proof.
  intros Hc Hdj Hnd. set (m' := store 8 m _ _).
  assert (Hout : forall r, r ∈ l1 ++ q :: nd :: l2 -> rn_node r <> rn_node q -> agree (within (rn_node r) 24) m m').
  { intros r Hr Hne. apply agree_store. intros x Hx Hw. change (Z.of_nat 8) with 8 in Hw. unfold REF_NEXT, within in *.
    destruct (Hdj r q Hr ltac:(eauto with inlist)) as [|Hd]; [done|]. unfold disj in Hd. rewrite sz_0 in Hd. lia. }
  assert (Hq : forall n k, 0 <= k -> k + Z.of_nat n <= 16 -> load n m' (rn_node q + k) = load n m (rn_node q + k)).
  { intros n k H0 Hk. apply load_store_ne. unfold REF_NEXT. change (Z.of_nat 8) with 8. lia. }
  assert (Hnext : load 8 m' (rn_node q + REF_NEXT) = load 8 m (rn_node nd + REF_NEXT)).
  { apply load64_store_eq, load64_bound. }
  clearbody m'. rewrite fmap_app, fmap_cons in Hnd. revert h Hc. induction l1 as [|r l1 IH]; intros h; cbn [app chain].
  - intros (-> & H1 & H2 & H3 & H4 & H5 & _ & _ & _ & _ & Hl). unfold REF_PHYS, REF_COUNT, REF_LOCK in *.
    rewrite !Hq, Hnext by (change (Z.of_nat 8) with 8; change (Z.of_nat 4) with 4; lia). do 5 (split; [done|]).
    rewrite H5 in Hl. apply (chain_frame m); [|exact Hl]. intros r Hr. apply Hout; [eauto with inlist|].
    intros E. apply NoDup_app in Hnd as (_ & _ & [Hn _]%NoDup_cons). apply Hn. rewrite <- E.
    apply list_elem_of_fmap. exists r. split; [done|by right].
  - intros (-> & H1 & H2 & H3 & H4 & H5).
    assert (Hr : agree (within (rn_node r) 24) m m').
    { apply Hout; [left|]. intros E. apply NoDup_app in Hnd as (_ & Hn & _).
      apply (Hn (rn_node r)); [left|]. rewrite E. left. }
    assert (E : forall n k, 0 <= k -> k + Z.of_nat n <= 24 -> load n m' (rn_node r + k) = load n m (rn_node r + k)).
    { intros n k H0 Hk. apply load_agree. eapply agree_mono; [|exact Hr]. unfold within. lia. }
    unfold REF_PHYS, REF_COUNT, REF_LOCK, REF_NEXT in *.
    rewrite !E by (change (Z.of_nat 8) with 8; change (Z.of_nat 4) with 4; lia).
    do 5 (split; [done|]). apply IH; [| | |done].
    + intros a b Ha Hb. apply Hdj; by right.
    + cbn in Hnd. by apply NoDup_cons in Hnd as [_ ?].
    + intros a Ha. apply Hout. by right.
Qed.

(** ** Updating a count *)

(** The memory after [ref_add] style access that leaves count [v]. *)
Definition ref_cell (m : mem) (ref v : Z) : mem :=
  store 4 (store 4 (store 4 m (ref + REF_LOCK) 1) (ref + REF_COUNT) v) (ref + REF_LOCK) 0.

Lemma ref_cell_agree m ref v : agree (fun x => ~ within (ref + 8) 8 x) m (ref_cell m ref v).
Proof.
  unfold ref_cell, REF_LOCK, REF_COUNT. intros x Hx. unfold within in Hx.
  rewrite !mget_store_out by (unfold within; change (Z.of_nat 4) with 4; lia). done.
Qed.

Lemma ref_cell_count m ref v : 0 <= v < 2 ^ 32 -> load 4 (ref_cell m ref v) (ref + REF_COUNT) = v.
Proof.
  intros Hv. unfold ref_cell, REF_LOCK, REF_COUNT. rewrite load_store_ne by (change (Z.of_nat 4) with 4; lia).
  by apply load32_store_eq.
Qed.

Lemma ref_cell_lock m ref v : load 4 (ref_cell m ref v) (ref + REF_LOCK) = 0.
Proof. unfold ref_cell. by rewrite load32_store_eq. Qed.

Lemma ref_add_exec ref d s : load 4 (k_mem s) (ref + REF_LOCK) = 0 ->
  ref_add ref d s =
    Done tt (set_mem (ref_cell (k_mem s) ref (u32 (load 4 (k_mem s) (ref + REF_COUNT) + d))) s).
Proof.
  intros Hl. unfold ref_add, spinlock_acquire, spinlock_release, load32, store32, mbind, M_bind, gets, modify.
  rewrite Hl. cbn [Z.eqb k_mem set_mem].
  rewrite (load_store_ne 4 4 (k_mem s)) by (unfold REF_COUNT, REF_LOCK; change (Z.of_nat 4) with 4; lia). done.
Qed.

Definition set_count_of (n c : Z) (r : refnode) : refnode :=
  if rn_node r =? n then mkRef n (rn_phys r) c else r.
Definition set_counts (n c : Z) (C : chains) : chains := fun b => set_count_of n c <$> C b.

Lemma set_count_node n c r : rn_node (set_count_of n c r) = rn_node r.
Proof. unfold set_count_of. destruct (Z.eqb_spec (rn_node r) n); simpl; congruence. Qed.
Lemma set_count_phys n c r : rn_phys (set_count_of n c r) = rn_phys r.
Proof. unfold set_count_of. by destruct (_ =? _). Qed.

Lemma chain_set m m' h l n c : chain m h l ->
  (forall r, r ∈ l -> rn_node r <> n -> disj (rn_node r) 0 n 0) ->
  agree (fun x => ~ within (n + 8) 8 x) m m' -> load 4 m' (n + REF_COUNT) = c -> load 4 m' (n + REF_LOCK) = 0 ->
  chain m' h (set_count_of n c <$> l).
Proof.
  intros Hc Hdj Hag Hcnt Hlk. revert h Hc. induction l as [|r l IH]; intros h; [done|].
  intros (-> & H1 & H2 & H3 & H4 & H5). rewrite fmap_cons. cbn [chain]. rewrite set_count_node, set_count_phys.
  assert (E : forall (k : nat) a, a + Z.of_nat k <= n + 8 \/ n + 16 <= a -> load k m' a = load k m a).
  { intros k a Ha. apply load_agree. eapply agree_mono; [|exact Hag]. unfold within. lia. }
  assert (Hl : chain m' (load 8 m (rn_node r + REF_NEXT)) (set_count_of n c <$> l)).
  { apply IH; [|done]. intros r' Hr'. apply Hdj. by right. }
  unfold set_count_of at 1. destruct (Z.eqb_spec (rn_node r) n) as [En|Hne].
  - rewrite En in *. unfold REF_PHYS, REF_NEXT in *. rewrite !(E 8%nat) by (change (Z.of_nat 8) with 8; lia).
    do 5 (split; [done|]). done.
  - pose proof (Hdj r ltac:(left) Hne) as Hd. unfold disj in Hd. rewrite sz_0 in Hd.
    unfold REF_PHYS, REF_COUNT, REF_LOCK, REF_NEXT in *.
    rewrite !(E 8%nat), !(E 4%nat) by (change (Z.of_nat 8) with 8; change (Z.of_nat 4) with 4; lia).
    do 5 (split; [done|]). done.
Qed.

Lemma find_set_count n c p l : find_node p (set_count_of n c <$> l) = set_count_of n c <$> find_node p l.
Proof.
  induction l as [|r l IH]; [done|]. rewrite fmap_cons. cbn [find_node]. rewrite set_count_phys.
  by destruct (rn_phys r =? p).
Qed.

(** ** The bits of an entry *)

Lemma flag_bit e k : 0 <= k -> negb (Z.land e (2 ^ k) =? 0) = Z.testbit e k.
Proof.
  intros Hk. destruct (Z.testbit e k) eqn:E.
  - destruct (Z.eqb_spec (Z.land e (2 ^ k)) 0) as [H|]; [|done].
    assert (Hb : Z.testbit (Z.land e (2 ^ k)) k = true) by (by rewrite Z.land_spec, E, Z.pow2_bits_true).
    by rewrite H, Z.testbit_0_l in Hb.
  - assert (Z.land e (2 ^ k) = 0) as ->; [|done]. apply Z.bits_inj'. intros j Hj.
    rewrite Z.land_spec, Z.testbit_0_l. destruct (decide (j = k)) as [->|Hne]; [by rewrite E|].
    rewrite Z.pow2_bits_false by congruence. apply andb_false_r.
Qed.

Lemma present_bit e : present e = Z.testbit e 0.
Proof. apply (flag_bit e 0). lia. Qed.
Lemma is_cow_bit e : is_cow e = Z.testbit e 9.
Proof. apply (flag_bit e 9). lia. Qed.

(** Clearing one bit of a 64-bit word. *)
Lemma not_bit k j : 0 <= k < 64 -> 0 <= j -> Z.testbit (Z.ldiff (Z.ones 64) (2 ^ k)) j = (j <? 64) && negb (j =? k).
Proof.
  intros Hk Hj. rewrite Z.ldiff_spec, Z.testbit_ones_nonneg by lia. f_equal. f_equal.
  destruct (Z.eqb_spec j k) as [->|]; [apply Z.pow2_bits_true; lia|]. apply Z.pow2_bits_false. congruence.
Qed.

Lemma private_bits e j : 0 <= e < 2 ^ 64 -> 0 <= j ->
  Z.testbit (private_entry e) j = (Z.testbit e j || (j =? 1)) && negb (j =? 9).
Proof.
  intros He Hj. unfold private_entry.
  change (u64 (Z.lnot COW_FLAG_MASK)) with (Z.ldiff (Z.ones 64) (2 ^ 9)).
  rewrite Z.land_spec, Z.lor_spec, not_bit by lia. change VMM_FLAG_WRITABLE with (2 ^ 1).
  replace (Z.testbit (2 ^ 1) j) with (j =? 1).
  - destruct (Z.ltb_spec j 64); [done|]. rewrite (high_bit e 64 j) by lia.
    by rewrite (proj2 (Z.eqb_neq j 1)) by lia.
  - destruct (Z.eqb_spec j 1) as [->|]; [symmetry; apply Z.pow2_bits_true; lia|].
    symmetry. apply Z.pow2_bits_false. congruence.
Qed.

Lemma cow_entry_bits e j : 0 <= e < 2 ^ 64 -> 0 <= j ->
  Z.testbit (cow_entry e) j = (Z.testbit e j && negb (j =? 1)) || (j =? 9).
Proof.
  intros He Hj. unfold cow_entry.
  change (u64 (Z.lnot VMM_FLAG_WRITABLE)) with (Z.ldiff (Z.ones 64) (2 ^ 1)).
  rewrite Z.lor_spec, Z.land_spec, not_bit by lia. change COW_FLAG_MASK with (2 ^ 9).
  replace (Z.testbit (2 ^ 9) j) with (j =? 9).
  - destruct (Z.ltb_spec j 64); [done|]. by rewrite (high_bit e 64 j) by lia.
  - destruct (Z.eqb_spec j 9) as [->|]; [symmetry; apply Z.pow2_bits_true; lia|].
    symmetry. apply Z.pow2_bits_false. congruence.
Qed.

(** Changing flag bits keeps the frame address. *)
Lemma same_addr e e' : (forall j, 12 <= j < 52 -> Z.testbit e' j = Z.testbit e j) ->
  Z.land e' ADDR_MASK = Z.land e ADDR_MASK.
Proof.
  intros H. apply Z.bits_inj'. intros j Hj. rewrite !Z.land_spec, mask_bit by done.
  destruct (Z.leb_spec 12 j), (Z.ltb_spec j 52); cbn [andb]; rewrite ?andb_false_r; try done.
  by rewrite !andb_true_r, H by lia.
Qed.

Lemma bits_bound x : 0 <= x -> (forall j, 64 <= j -> Z.testbit x j = false) -> x < 2 ^ 64.
Proof.
  intros Hx H. destruct (Z.lt_ge_cases x (2 ^ 64)) as [|Hge]; [done|]. exfalso.
  pose proof (Z.log2_le_mono (2 ^ 64) x Hge) as Hl. rewrite Z.log2_pow2 in Hl by lia.
  specialize (H _ Hl). rewrite Z.bit_log2 in H by lia. done.
Qed.

Lemma private_entry_spec e : 0 <= e < 2 ^ 64 -> 0 <= private_entry e < 2 ^ 64 /\
  present (private_entry e) = present e /\ Z.testbit (private_entry e) 1 = true /\
  is_cow (private_entry e) = false /\ Z.land (private_entry e) ADDR_MASK = Z.land e ADDR_MASK.
Proof.
  intros He. assert (H0 : 0 <= private_entry e).
  { apply Z.land_nonneg. left. apply Z.lor_nonneg. split; [lia|done]. }
  split; [split; [done|]|split; [|split; [|split]]].
  - apply bits_bound; [done|]. intros j Hj. rewrite private_bits, (high_bit e 64 j) by lia.
    by rewrite (proj2 (Z.eqb_neq j 1)) by lia.
  - rewrite !present_bit, private_bits by lia. by rewrite orb_false_r, andb_true_r.
  - rewrite private_bits by lia. by rewrite orb_true_r.
  - rewrite is_cow_bit, private_bits by lia. by rewrite andb_false_r.
  - apply same_addr. intros j Hj. rewrite private_bits by lia.
    rewrite (proj2 (Z.eqb_neq j 1)), (proj2 (Z.eqb_neq j 9)) by lia. by rewrite orb_false_r, andb_true_r.
Qed.

Lemma cow_entry_spec e : 0 <= e < 2 ^ 64 -> 0 <= cow_entry e < 2 ^ 64 /\
  present (cow_entry e) = present e /\ Z.testbit (cow_entry e) 1 = false /\
  is_cow (cow_entry e) = true /\ Z.land (cow_entry e) ADDR_MASK = Z.land e ADDR_MASK.
Proof.
  intros He. assert (H0 : 0 <= cow_entry e).
  { apply Z.lor_nonneg. split; [apply Z.land_nonneg; left; lia|done]. }
  split; [split; [done|]|split; [|split; [|split]]].
  - apply bits_bound; [done|]. intros j Hj. rewrite cow_entry_bits, (high_bit e 64 j) by lia.
    by rewrite (proj2 (Z.eqb_neq j 9)) by lia.
  - rewrite !present_bit, cow_entry_bits by lia. by rewrite andb_true_r, orb_false_r.
  - rewrite cow_entry_bits by lia. by rewrite andb_false_r.
  - rewrite is_cow_bit, cow_entry_bits by lia. by rewrite orb_true_r.
  - apply same_addr. intros j Hj. rewrite cow_entry_bits by lia.
    rewrite (proj2 (Z.eqb_neq j 1)), (proj2 (Z.eqb_neq j 9)) by lia. by rewrite orb_false_r, andb_true_r.
Qed.

(** The entry of the copy: the new frame with the low flags of the old entry. *)
Definition copied_entry (new e : Z) : Z := Z.lor (Z.land new ADDR_MASK) (Z.land e 0xFFF).

Lemma copied_entry_spec new e : new mod 4096 = 0 -> 0 <= new < 2 ^ 52 -> 0 <= e < 2 ^ 64 ->
  0 <= copied_entry new e < 2 ^ 64 /\ present (copied_entry new e) = present e /\
  Z.land (copied_entry new e) ADDR_MASK = new.
Proof.
  intros Hm Hn He. unfold copied_entry.
  assert (Hnew : Z.land new ADDR_MASK = new).
  { rewrite <- (Z.lor_0_r new) at 1. apply entry_addr; [done|done|lia]. }
  rewrite Hnew. change 0xFFF with (Z.ones 12). pose proof (land_bound e 12 ltac:(lia)) as Hb.
  split; [by apply entry_bound|]. split; [|by apply entry_addr].
  rewrite !present_bit, Z.lor_spec, Z.land_spec. rewrite (aligned_bit new 0) by (done || lia). cbn [orb].
  rewrite Z.testbit_ones_nonneg by lia. apply andb_true_r.
Qed.

(** ** The operations, over any allocator of pages *)
Section ops.
Context `{PA : PageAllocator 0 (buddy_alloc_pages 0 BUDDY_ZONE_UNMOVABLE) (fun a => buddy_free_pages a 0)}.

Definition cow_inv (s : kst) (A : blocks) (C : chains) : Prop :=
  pa_inv s A /\ cow_tab (k_cow s) (k_mem s) A C.

Lemma node_written m r p hd : 0 <= p < 2 ^ 64 -> 0 <= hd < 2 ^ 64 ->
  let m' := store 8 (store 4 (store 4 (store 8 m (r + REF_PHYS) p) (r + REF_COUNT) 0) (r + REF_LOCK) 0)
              (r + REF_NEXT) hd in
  agree (fun x => ~ within r 24 x) m m' /\ load 8 m' (r + REF_PHYS) = p /\ load 4 m' (r + REF_COUNT) = 0 /\
  load 4 m' (r + REF_LOCK) = 0 /\ load 8 m' (r + REF_NEXT) = hd.
Proof.
  intros Hp Hh m'. unfold m', REF_PHYS, REF_COUNT, REF_LOCK, REF_NEXT. change (Z.of_nat 8) with 8 in *.
  split; [|repeat split].
  - intros x Hx. unfold within in Hx.
    rewrite !mget_store_out by (unfold within; change (Z.of_nat 4) with 4; change (Z.of_nat 8) with 8; lia). done.
  - rewrite !load_store_ne by (change (Z.of_nat 4) with 4; change (Z.of_nat 8) with 8; lia). by apply load64_store_eq.
  - rewrite !load_store_ne by (change (Z.of_nat 4) with 4; change (Z.of_nat 8) with 8; lia). by apply load32_store_eq.
  - rewrite !load_store_ne by (change (Z.of_nat 4) with 4; change (Z.of_nat 8) with 8; lia). by apply load32_store_eq.
  - by apply load64_store_eq.
Qed.

Lemma cow_locked_id s : cow_global_lock (k_cow s) = 0 -> set_cow_lock 0 (set_cow_lock 1 s) = s.
Proof. destruct s as [? ? ? ? ? [t l] ? ?]. cbn. by intros ->. Qed.

Lemma chain_length s A C b : cow_inv s A C -> Z.of_nat (length (C b)) < 2 ^ 64.
Proof.
  intros [Ha T]. pose proof (pages_length (rn_node <$> C b) (ct_nodup _ _ _ _ T b)) as H.
  rewrite length_fmap in H. assert (2 ^ 40 < 2 ^ 64) by lia. enough (Z.of_nat (length (C b)) <= 2 ^ 40) by lia.
  apply H. intros a (r & -> & Hr)%list_elem_of_fmap. eapply pa_block; [done|]. by eapply ct_own.
Qed.

Lemma cow_search p s A C : cow_inv s A C ->
  while (cow_head (k_cow s) (cow_hash p)) (find_ref (page_align p)) (set_cow_lock 1 s) =
  Done (match find_node (page_align p) (C (cow_hash p)) with Some r => rn_node r | None => NULL end) (set_cow_lock 1 s).
Proof.
  intros [Ha T]. apply (find_ref_exec _ _ _ (set_cow_lock 1 s)); [apply (ct_chain _ _ _ _ T)|].
  by apply (chain_length s A).
Qed.

Lemma node_nonnull s A C b r : cow_inv s A C -> r ∈ C b -> rn_node r <> NULL.
Proof.
  intros [Ha T] Hr. destruct (pa_block s A (rn_node r) 0 Ha (ct_own _ _ _ _ T _ _ Hr)) as (_ & H & _).
  unfold NULL. lia.
Qed.

Lemma head_bound s A C h : cow_inv s A C -> 0 <= cow_head (k_cow s) h < 2 ^ 64.
Proof.
  intros [Ha T]. pose proof (ct_chain _ _ _ _ T h) as Hc. destruct (C h) as [|r l] eqn:El; cbn [chain] in Hc.
  - rewrite Hc. unfold NULL. lia.
  - destruct Hc as (-> & _). destruct (pa_block s A (rn_node r) 0 Ha) as (_ & H1 & _ & H3).
    + apply (ct_own _ _ _ _ T h). rewrite El. left.
    + unfold PHYS_LIMIT in H3. rewrite sz_0 in H3. lia.
Qed.

(** A new node at the head of its bucket. *)
Definition add_node (h : Z) (nd : refnode) (C : chains) : chains :=
  fun b => if b =? h then nd :: C b else C b.

Lemma cow_hash_align p : cow_hash (page_align p) = cow_hash p.
Proof. unfold cow_hash, page_align. by rewrite <- Z.land_assoc, Z.land_diag. Qed.
Lemma page_align_idem p : page_align (page_align p) = page_align p.
Proof. unfold page_align. by rewrite <- Z.land_assoc, Z.land_diag. Qed.

Lemma add_node_tab c m m' A C r p : cow_tab c m A C -> (forall b o, (b, o) ∈ A -> disj r 0 b o) -> r <> NULL ->
  page_align p = p -> find_node p (C (cow_hash p)) = None -> agree (in_block A) m m' ->
  load 8 m' (r + REF_PHYS) = p -> load 4 m' (r + REF_COUNT) = 0 -> load 4 m' (r + REF_LOCK) = 0 ->
  load 8 m' (r + REF_NEXT) = cow_head c (cow_hash p) ->
  cow_tab (mkCow (<[cow_hash p := r]> (cow_hash_table c)) 0) m' ((r, 0) :: A) (add_node (cow_hash p) (mkRef r p 0) C).
Proof.
  intros [T1 T2 T3 T4 T5 T6 T7] Hdj Hr Hp Hnone Hag L1 L2 L3 L4.
  assert (Hold : forall b, chain m' (cow_head c b) (C b)).
  { intros b. apply (chain_frame m); [|done]. intros q Hq. eapply agree_mono; [|exact Hag].
    intros x Hx. exists (rn_node q), 0. split; [by eapply T3|]. unfold within in *. rewrite sz_0. lia. }
  assert (Hin : forall b q, q ∈ add_node (cow_hash p) (mkRef r p 0) C b ->
            (b = cow_hash p /\ q = mkRef r p 0) \/ q ∈ C b).
  { intros b q. unfold add_node. destruct (Z.eqb_spec b (cow_hash p)); [|by right].
    intros [->|H]%elem_of_cons; [by left|by right]. }
  assert (Hne : forall b q, q ∈ C b -> rn_node q <> r).
  { intros b q Hq E. pose proof (Hdj _ _ (T3 _ _ Hq)) as Hd. unfold disj in Hd. rewrite sz_0 in Hd. lia. }
  split; [done| | | | | |].
  - intros b. unfold cow_head, add_node. cbn [cow_hash_table]. destruct (Z.eqb_spec b (cow_hash p)) as [->|Hb].
    + rewrite lookup_insert_eq. change (default NULL (Some r)) with r. cbn [chain rn_node rn_phys rn_count]. do 5 (split; [done|]). rewrite L4. apply Hold.
    + rewrite lookup_insert_ne by congruence. apply Hold.
  - intros b q [[-> ->]|H]%Hin; [left|right; by eapply T3].
  - intros b q [[-> ->]|H]%Hin; [done|by apply T4].
  - intros b. unfold add_node. destruct (b =? cow_hash p); [|apply T5]. rewrite fmap_cons. apply NoDup_cons.
    split; [|apply T5]. intros (q & E & Hq)%list_elem_of_fmap. by destruct (Hne _ _ Hq).
  - intros b. unfold add_node. destruct (Z.eqb_spec b (cow_hash p)) as [->|]; [|apply T6].
    rewrite fmap_cons. apply NoDup_cons. split; [|apply T6]. intros (q & E & Hq)%list_elem_of_fmap.
    by destruct (find_node_None _ _ Hnone q Hq).
  - intros b q b' q' [[-> ->]|H]%Hin [[-> ->]|H']%Hin; cbn [rn_node]; intros E; [done| | |by eapply T7].
    + by destruct (Hne _ _ H').
    + by destruct (Hne _ _ H).
Qed.

(** What [cow_get_ref] returns: the node of the page, found or made. *)
Record ref_post (s : kst) (A : blocks) (C : chains) (p r : Z) (s' : kst) (A' : blocks) (C' : chains) : Prop := {
  rp_inv : cow_inv s' A' C';
  rp_blocks : A' = A \/ (A' = (r, 0) :: A /\ forall b o, (b, o) ∈ A -> disj r 0 b o);
  rp_mem : agree (in_block A) (k_mem s) (k_mem s');
  rp_node : exists nd, find_node (page_align p) (C' (cow_hash p)) = Some nd /\ rn_node nd = r /\
              rn_count nd = count_of C p;
  rp_count q : count_of C' q = count_of C q;
  rp_fresh x : in_nodes C' x -> in_nodes C x \/ ~ in_block A x
}.

(** The allocator has no page left, whatever the other components hold. *)
Definition exhausted (s : kst) : Prop := exists s1, k_buddy s1 = k_buddy s /\
  k_pmm s1 = k_pmm s /\ buddy_alloc_pages 0 BUDDY_ZONE_UNMOVABLE s1 = Done 0 s1.

(** The entry of [p] written into the fresh page [r] and linked in front of its chain. *)
Lemma new_node_post s s1 A C p r s2 : cow_inv s A C -> find_node (page_align p) (C (cow_hash p)) = None ->
  page_block r 0 -> pa_inv s1 ((r, 0) :: A) -> (r, 0) ∉ A -> agree (in_block A) (k_mem s) (k_mem s1) ->
  k_buddy s2 = k_buddy s1 -> k_pmm s2 = k_pmm s1 ->
  k_cow s2 = mkCow (<[cow_hash p := r]> (cow_hash_table (k_cow s))) 0 ->
  agree (fun x => ~ within r 24 x) (k_mem s1) (k_mem s2) -> load 8 (k_mem s2) (r + REF_PHYS) = page_align p ->
  load 4 (k_mem s2) (r + REF_COUNT) = 0 -> load 4 (k_mem s2) (r + REF_LOCK) = 0 ->
  load 8 (k_mem s2) (r + REF_NEXT) = cow_head (k_cow s) (cow_hash p) ->
  ref_post s A C p r s2 ((r, 0) :: A) (add_node (cow_hash p) (mkRef r (page_align p) 0) C).
Proof.
  intros [Ha T] Ef Hb Ha' Hnew Hag Eb Ep Ec Hm L1 L2 L3 L4.
  assert (Hr : r <> NULL) by (destruct Hb as (_ & ? & _); unfold NULL; lia).
  assert (Hdj : forall b o, (b, o) ∈ A -> disj r 0 b o) by (intros b o Hin; by apply (pa_new_disj s1 A r 0)).
  assert (HagA : agree (in_block A) (k_mem s) (k_mem s2)).
  { etrans; [exact Hag|]. eapply agree_mono; [|exact Hm]. intros x (b & o & Hin & Hx) Hw.
    specialize (Hdj _ _ Hin). unfold disj, within in *. rewrite sz_0 in Hdj. lia. }
  split.
  - split.
    + apply (pa_frame s1); [done| |done|done]. eapply agree_mono; [|exact Hm]. intros x Hx Hw. apply Hx.
      exists r, 0. split; [left|]. unfold within in *. rewrite sz_0. lia.
    + rewrite Ec, <- (cow_hash_align p).
      apply (add_node_tab _ (k_mem s)); try done; [by apply page_align_idem|by rewrite cow_hash_align|by rewrite cow_hash_align].
  - by right.
  - exact HagA.
  - eexists. unfold add_node. rewrite Z.eqb_refl. cbn [find_node rn_phys]. rewrite Z.eqb_refl.
    split; [reflexivity|]. split; [done|]. unfold count_of. by rewrite Ef.
  - intros q. unfold count_of, add_node. destruct (Z.eqb_spec (cow_hash q) (cow_hash p)) as [Eh|]; [|done].
    cbn [find_node rn_phys]. destruct (Z.eqb_spec (page_align p) (page_align q)) as [Eq|]; [|done].
    rewrite <- Eq, Eh, Ef. done.
  - intros x (b & q & Hq & Hx). unfold add_node in Hq. destruct (b =? cow_hash p); [|left; by exists b, q].
    apply elem_of_cons in Hq as [->|Hq]; [right|left; by exists b, q]. intros (b' & o & Hin & Hx').
    cbn [rn_node] in Hx. specialize (Hdj _ _ Hin). unfold disj, within in *. rewrite sz_0 in Hdj. lia.
Qed.

Lemma cow_get_ref_ok s A C p : cow_inv s A C -> 0 <= page_align p < 2 ^ 64 ->
  wp (cow_get_ref p) (fun r s' =>
    (r = NULL /\ s' = s /\ exhausted s) \/
    (r <> NULL /\ exists A' C', ref_post s A C p r s' A' C')) s.
Proof.
  intros Hinv Hp. pose proof Hinv as [Ha T]. unfold cow_get_ref, cow_lock_acquire, acquire_var.
  apply wp_bind, wp_bind, wp_gets. rewrite (ct_lock _ _ _ _ T). cbn [Z.eqb]. apply wp_modify, wp_bind, wp_gets, wp_bind.
  rewrite cow_hash_align. change (cow_head (k_cow (set_cow_lock 1 s)) (cow_hash p)) with (cow_head (k_cow s) (cow_hash p)).
  eapply wp_of_Done; [by apply (cow_search p s A C)|].
  destruct (find_node (page_align p) (C (cow_hash p))) as [nd|] eqn:Ef.
  { destruct (find_node_Some _ _ _ Ef) as [Hnd _]. pose proof (node_nonnull _ _ _ _ _ Hinv Hnd) as Hn.
    rewrite (proj2 (Z.eqb_neq _ _)) by done. cbn [negb]. apply wp_bind. eapply wp_of_Done; [reflexivity|].
    rewrite cow_locked_id by apply T. apply wp_ret. right. split; [done|]. exists A, C. split; try done.
    - by left.
    - exists nd. split; [done|]. split; [done|]. unfold count_of. by rewrite Ef.
    - by left. }
  cbn [Z.eqb NULL negb]. assert (Ha1 : pa_inv (set_cow_lock 1 s) A) by (by apply (pa_frame s)).
  destruct (pa_alloc _ A Ha1) as (r & s1 & Hrun & Hst & Hcase).
  apply wp_bind. eapply wp_of_Done; [exact Hrun|]. destruct Hcase as [[-> ->]|(Hb & Ha' & Hnew & Hag)].
  { cbn [Z.eqb NULL]. apply wp_bind. eapply wp_of_Done; [reflexivity|].
    rewrite cow_locked_id by apply T. apply wp_ret. left. split; [done|]. split; [done|].
    by exists (set_cow_lock 1 s). }
  assert (Hr : r <> NULL) by (destruct Hb as (_ & ? & _); unfold NULL; lia).
  rewrite (proj2 (Z.eqb_neq r NULL)) by done. unfold store64, store32, spinlock_init, store32.
  do 3 (apply wp_bind, wp_modify). apply wp_bind, wp_gets. do 2 (apply wp_bind, wp_modify). apply wp_bind.
  eapply wp_of_Done; [reflexivity|]. apply wp_ret. right. split; [done|].
  destruct Hst as (_ & _ & Hcow & _). cbn [k_mem k_cow set_mem set_cow set_cow_head set_cow_lock cow_hash_table].
  set (hd := cow_head (k_cow s1) (cow_hash p)).
  set (m' := store 8 _ (r + REF_NEXT) hd).
  assert (Hm' : agree (fun x => ~ within r 24 x) (k_mem s1) m' /\ load 8 m' (r + REF_PHYS) = page_align p /\
    load 4 m' (r + REF_COUNT) = 0 /\ load 4 m' (r + REF_LOCK) = 0 /\ load 8 m' (r + REF_NEXT) = hd).
  { unfold m'. apply node_written; [done|]. unfold hd. rewrite Hcow. exact (head_bound s A C (cow_hash p) Hinv). }
  clearbody m'. destruct Hm' as (Hm & L1 & L2 & L3 & L4).
  exists ((r, 0) :: A), (add_node (cow_hash p) (mkRef r (page_align p) 0) C).
  apply (new_node_post s s1); try done.
  - cbn [k_cow set_cow_lock set_cow_head set_cow set_mem]. by rewrite Hcow.
  - etrans; [exact L4|]. unfold hd. by rewrite Hcow.
Qed.

(** Writing a count. *)
Lemma node_eq s A C b r b' r' : cow_inv s A C -> r ∈ C b -> r' ∈ C b' -> rn_node r = rn_node r' -> b = b' /\ r = r'.
Proof.
  intros [_ T] Hr Hr' E. pose proof (ct_inj _ _ _ _ T _ _ _ _ Hr Hr' E) as <-. split; [done|].
  by apply (NoDup_fmap_elem rn_node (C b)); [apply T| | |].
Qed.

Lemma set_cell_ok s A C b nd v : cow_inv s A C -> nd ∈ C b -> 0 <= v < 2 ^ 32 ->
  cow_inv (set_mem (ref_cell (k_mem s) (rn_node nd) v) s) A (set_counts (rn_node nd) v C).
Proof.
  intros Hinv Hnd Hv. pose proof Hinv as [Ha [T1 T2 T3 T4 T5 T6 T7]]. pose proof (ref_cell_agree (k_mem s) (rn_node nd) v) as Hag.
  assert (Hin : forall b' q, q ∈ set_counts (rn_node nd) v C b' ->
            exists r, q = set_count_of (rn_node nd) v r /\ r ∈ C b').
  { intros b' q Hq. by apply list_elem_of_fmap in Hq. }
  split; [|split].
  - apply pa_write; [done|]. eapply agree_mono; [|exact Hag]. intros x Hx Hw. apply Hx.
    exists (rn_node nd), 0. split; [by eapply T3|]. unfold within in *. rewrite sz_0. lia.
  - done.
  - intros b'. cbn [k_cow k_mem set_mem]. eapply (chain_set (k_mem s)); [apply T2| |exact Hag|by apply ref_cell_count|apply ref_cell_lock].
    intros r Hr Hne. eapply pa_disj; [exact Ha|by eapply T3|by eapply T3|congruence].
  - intros b' q (r & -> & Hr)%Hin. rewrite set_count_node. by eapply T3.
  - intros b' q (r & -> & Hr)%Hin. rewrite set_count_phys. by apply T4.
  - intros b'. unfold set_counts. rewrite <- list_fmap_compose.
    rewrite (list_fmap_ext (rn_node ∘ set_count_of (rn_node nd) v) rn_node); [apply T5|].
    intros i r _. apply set_count_node.
  - intros b'. unfold set_counts. rewrite <- list_fmap_compose.
    rewrite (list_fmap_ext (rn_phys ∘ set_count_of (rn_node nd) v) rn_phys); [apply T6|].
    intros i r _. apply set_count_phys.
  - intros b1 q1 b2 q2 (r1 & -> & Hr1)%Hin (r2 & -> & Hr2)%Hin. rewrite !set_count_node. by apply T7.
Qed.

Lemma align_hash p q : page_align p = page_align q -> cow_hash p = cow_hash q.
Proof. unfold cow_hash. by intros ->. Qed.

Lemma set_cell_count s A C p nd v q : cow_inv s A C -> find_node (page_align p) (C (cow_hash p)) = Some nd ->
  count_of (set_counts (rn_node nd) v C) q = if page_align q =? page_align p then v else count_of C q.
Proof.
  intros Hinv Hf. destruct (find_node_Some _ _ _ Hf) as [Hnd Hp]. unfold count_of, set_counts. rewrite find_set_count.
  destruct (Z.eqb_spec (page_align q) (page_align p)) as [E|Hne].
  - rewrite (align_hash q p E), E, Hf. cbn. unfold set_count_of. by rewrite Z.eqb_refl.
  - destruct (find_node (page_align q) (C (cow_hash q))) as [r|] eqn:Er; [|done]. cbn.
    destruct (find_node_Some _ _ _ Er) as [Hr Hq]. unfold set_count_of.
    destruct (Z.eqb_spec (rn_node r) (rn_node nd)) as [E|]; [|done].
    destruct (node_eq s A C _ _ _ _ Hinv Hr Hnd E) as [_ ->]. congruence.
Qed.

Lemma node_lock s A C b nd : cow_inv s A C -> nd ∈ C b ->
  load 4 (k_mem s) (rn_node nd + REF_LOCK) = 0 /\ load 4 (k_mem s) (rn_node nd + REF_COUNT) = rn_count nd.
Proof.
  intros [_ T] Hnd. pose proof (ct_chain _ _ _ _ T b) as Hc. revert Hc. generalize (cow_head (k_cow s) b).
  induction (C b) as [|r l IH]; intros h; [by apply not_elem_of_nil in Hnd|].
  intros (-> & _ & _ & Hcnt & Hlk & Hl). apply elem_of_cons in Hnd as [->|Hnd]; [done|]. by eapply IH.
Qed.

Lemma node_count_bound s A C b nd : cow_inv s A C -> nd ∈ C b -> 0 <= rn_count nd < 2 ^ 32.
Proof. intros Hinv Hnd. destruct (node_lock _ _ _ _ _ Hinv Hnd) as [_ <-]. apply load32_bound. Qed.

(** The bytes the clients of the table own. *)
Definition cow_client (A : blocks) (C : chains) (x : Z) : Prop := in_block A x /\ ~ in_nodes C x.

(** [ref_add] on a node of the table. *)
Lemma ref_add_ok s A C p nd d : cow_inv s A C -> find_node (page_align p) (C (cow_hash p)) = Some nd ->
  exists m', ref_add (rn_node nd) d s = Done tt (set_mem m' s) /\
    let C' := set_counts (rn_node nd) (u32 (rn_count nd + d)) C in
    cow_inv (set_mem m' s) A C' /\ agree (fun x => ~ in_nodes C x) (k_mem s) m' /\
    forall q, count_of C' q = if page_align q =? page_align p then u32 (rn_count nd + d) else count_of C q.
Proof.
  intros Hinv Hf. destruct (find_node_Some _ _ _ Hf) as [Hnd Hp]. destruct (node_lock _ _ _ _ _ Hinv Hnd) as [Hl Hc].
  eexists. split; [rewrite ref_add_exec by done; rewrite Hc; reflexivity|]. cbv zeta.
  split; [apply (set_cell_ok s A C (cow_hash p)); [done|done|apply u32_bound]|]. split.
  - eapply agree_mono; [|apply ref_cell_agree]. intros x Hx Hw. apply Hx. exists (cow_hash p), nd.
    split; [done|]. unfold within in *. lia.
  - intros q. by apply (set_cell_count s A).
Qed.

Lemma align_bound p : 0 <= p < 2 ^ 64 -> 0 <= page_align p < 2 ^ 64.
Proof.
  intros Hp. unfold page_align. change 0xFFF with (Z.ones 12). rewrite <- Z.ldiff_land, Z.ldiff_ones_r by lia.
  rewrite Z.shiftr_div_pow2, Z.shiftl_mul_pow2 by lia. pose proof (Z.div_mod p (2 ^ 12) ltac:(lia)).
  pose proof (Z.mod_pos_bound p (2 ^ 12) ltac:(lia)). assert (0 <= p / 2 ^ 12) by (apply Z.div_pos; lia). lia.
Qed.

(** What a change of one count promises. *)
Definition counted (s : kst) (A : blocks) (C : chains) (p v : Z) (s' : kst) : Prop :=
  exists A' C', cow_inv s' A' C' /\ A ⊆ A' /\ agree (cow_client A C) (k_mem s) (k_mem s') /\
    forall q, count_of C' q = if page_align q =? page_align p then v else count_of C q.

(** ** Initialisation *)

Lemma empty_tab c m A : (forall b, cow_head c b = NULL) -> cow_global_lock c = 0 -> cow_tab c m A (fun _ => []).
Proof.
  intros He Hl. split; try done.
  - intros b r H. by apply not_elem_of_nil in H.
  - intros b r H. by apply not_elem_of_nil in H.
  - intros b. apply NoDup_nil_2.
  - intros b. apply NoDup_nil_2.
  - intros b r b' r' H. by apply not_elem_of_nil in H.
Qed.

(** [cow_init] empties every bucket and frees the lock, whatever they held, and
    touches nothing else: every page then counts 0. *)
Theorem cow_init_correct s A : pa_inv s A ->
  (forall b, ~ 0 <= b < COW_HASH_SIZE -> cow_hash_table (k_cow s) !! b = None) ->
  exists s', cow_init s = Done tt s' /\ s' = set_cow (k_cow s') s /\ cow_inv s' A (fun _ => []) /\
    forall q, count_of (fun _ => []) q = 0.
Proof.
  intros Ha Hout.
  assert (H : wp cow_init (fun _ s' => s' = set_cow (k_cow s') s /\ cow_inv s' A (fun _ => [])) s).
  { unfold cow_init. apply wp_bind. apply (wp_for_range (fun i s' => s' = set_cow (k_cow s') s /\
      (forall b, ~ 0 <= b < COW_HASH_SIZE -> cow_hash_table (k_cow s') !! b = None) /\
      forall b, 0 <= b < i -> cow_head (k_cow s') b = NULL)).
    - unfold COW_HASH_SIZE. lia.
    - split; [by destruct s|]. split; [done|lia].
    - intros i s' Hi (E & Hn & Hz). apply wp_modify. split; [rewrite E; by destruct s|].
      cbn [k_cow set_cow_head set_cow cow_hash_table]. split.
      + intros b Hb. rewrite lookup_insert_ne by lia. by apply Hn.
      + intros b Hb. unfold cow_head. cbn [cow_hash_table]. destruct (decide (b = i)) as [->|].
        * by rewrite lookup_insert_eq.
        * rewrite lookup_insert_ne by done. apply Hz. lia.
    - intros s' (E & Hn & Hz). apply wp_modify. split; [rewrite E; by destruct s|]. split.
      + rewrite E. by apply (pa_frame s).
      + apply empty_tab; [|done]. intros b. destruct (decide (0 <= b < COW_HASH_SIZE)) as [Hb|Hb]; [by apply Hz|].
        unfold cow_head. cbn. by rewrite Hn. }
  apply wp_Done in H as ([] & s' & Hrun & E & Hi). by exists s'.
Qed.

(** [cow_increment_ref] always returns.  Either the page's count is one more
    (modulo 2^32, a page without an entry counting 0) and every other page's count is
    as before, with no byte outside the nodes changed; or no page is left for a new
    entry and nothing changed. *)
Theorem cow_increment_correct s A C p : cow_inv s A C -> 0 <= p < 2 ^ 64 ->
  exists s', cow_increment_ref p s = Done tt s' /\
    (counted s A C p (u32 (count_of C p + 1)) s' \/ s' = s /\ exhausted s).
Proof.
  intros Hinv Hp. pose proof (cow_get_ref_ok s A C p Hinv (align_bound p Hp)) as H.
  apply wp_Done in H as (r & s1 & Hrun & Hcase). unfold cow_increment_ref, mbind, M_bind. rewrite Hrun.
  destruct Hcase as [(-> & -> & He)|(Hr & A1 & C1 & [Hi Hb Hm (nd & Hf & <- & Hc) Hq Hfr])].
  { cbn [Z.eqb NULL]. exists s. split; [done|by right]. }
  rewrite (proj2 (Z.eqb_neq _ NULL)) by done.
  destruct (ref_add_ok s1 A1 C1 p nd 1 Hi Hf) as (m' & -> & Hi' & Hag & Hcnt).
  eexists. split; [reflexivity|]. left. eexists A1, _. split; [exact Hi'|].
  split; [destruct Hb as [->|[-> _]]; [done|by apply list_subseteq_cons]|]. split.
  - etrans; [eapply agree_mono; [|exact Hm]; by intros x [Hx _]|]. eapply agree_mono; [|exact Hag].
    intros x [Hx Hn] Hx'. by destruct (Hfr x Hx').
  - intros q. rewrite Hcnt, Hc, Hq. done.
Qed.

(** [cow_get_ref_count] returns the page's count, 0 for a page without an entry;
    no byte changes. *)
Theorem cow_count_correct s A C p : cow_inv s A C ->
  exists m', cow_get_ref_count p s = Done (count_of C p) (set_mem m' s) /\ agree (fun _ => True) (k_mem s) m' /\
    cow_inv (set_mem m' s) A C.
Proof.
  intros Hinv. pose proof Hinv as [Ha T].
  assert (H : wp (cow_get_ref_count p) (fun r s' => r = count_of C p /\ exists m', s' = set_mem m' s /\
    agree (fun _ => True) (k_mem s) m') s).
  { unfold cow_get_ref_count, cow_lock_acquire, acquire_var.
    apply wp_bind, wp_bind, wp_gets. rewrite (ct_lock _ _ _ _ T). cbn [Z.eqb]. apply wp_modify, wp_bind, wp_gets, wp_bind.
    rewrite cow_hash_align. change (cow_head (k_cow (set_cow_lock 1 s)) (cow_hash p)) with (cow_head (k_cow s) (cow_hash p)).
    eapply wp_of_Done; [by apply (cow_search p s A C)|]. unfold count_of.
    destruct (find_node (page_align p) (C (cow_hash p))) as [nd|] eqn:Ef.
    - destruct (find_node_Some _ _ _ Ef) as [Hnd _]. pose proof (node_nonnull _ _ _ _ _ Hinv Hnd) as Hn.
      destruct (node_lock _ _ _ _ _ Hinv Hnd) as [Hl Hc].
      rewrite (proj2 (Z.eqb_neq _ _)) by done. unfold spinlock_acquire, spinlock_release, load32, store32.
      apply wp_bind, wp_bind, wp_gets. cbn [k_mem set_cow_lock set_cow]. rewrite Hl. cbn [Z.eqb].
      apply wp_modify, wp_bind, wp_gets, wp_bind, wp_modify, wp_bind. eapply wp_of_Done; [reflexivity|]. apply wp_ret.
      cbn [k_mem set_mem set_cow_lock set_cow]. split.
      + by rewrite load_store_ne by (unfold REF_COUNT, REF_LOCK; change (Z.of_nat 4) with 4; lia).
      + eexists. split; [|by apply relock_agree].
        exact (f_equal (set_mem _) (cow_locked_id s (ct_lock _ _ _ _ T))).
    - cbn [Z.eqb NULL]. apply wp_bind. eapply wp_of_Done; [reflexivity|]. apply wp_ret. split; [done|].
      exists (k_mem s). split; [|done]. rewrite set_mem_id. exact (cow_locked_id s (ct_lock _ _ _ _ T)). }
  apply wp_Done in H as (r & s' & Hrun & -> & m' & -> & Hag). exists m'. split; [exact Hrun|]. split; [done|].
  split; [apply pa_write; [done|]; by eapply agree_mono; [|exact Hag]|].
  destruct T as [T1 T2 T3 T4 T5 T6 T7]. split; try done. intros b. cbn [k_mem k_cow set_mem].
  apply (chain_frame (k_mem s)); [|done]. intros r _. by eapply agree_mono; [|exact Hag].
Qed.

(** ** Removing an entry *)

Definition remove_node (h p : Z) (C : chains) : chains :=
  fun b => if b =? h then filter (fun r => rn_phys r <> p) (C b) else C b.

Lemma filter_middle p l1 nd l2 : NoDup (rn_phys <$> l1 ++ nd :: l2) -> rn_phys nd = p ->
  filter (fun r => rn_phys r <> p) (l1 ++ nd :: l2) = l1 ++ l2.
Proof.
  intros Hnd <-. rewrite fmap_app, fmap_cons in Hnd. apply NoDup_app in Hnd as (_ & H1 & [H2 _]%NoDup_cons).
  rewrite filter_app, filter_cons_False by (intros H; by apply H).
  rewrite !filter_all; [done| |].
  - intros r Hr E. apply H2. rewrite <- E. by apply list_elem_of_fmap_2.
  - intros r Hr E. apply (H1 (rn_phys r)); [by apply list_elem_of_fmap_2|]. rewrite E. left.
Qed.

Lemma sub_tab c m c' m' A C C' : cow_tab c m A C -> cow_global_lock c' = 0 ->
  (forall b, chain m' (cow_head c' b) (C' b)) -> (forall b, sublist (C' b) (C b)) -> cow_tab c' m' A C'.
Proof.
  intros [T1 T2 T3 T4 T5 T6 T7] Hlk Hc Hsub.
  assert (Hin : forall b r, r ∈ C' b -> r ∈ C b) by (intros b r Hr; by eapply elem_of_sublist).
  split; try done.
  - intros b r Hr. by eapply T3, Hin.
  - intros b r Hr. by apply T4, Hin.
  - intros b. eapply sublist_NoDup; [apply T5|]. by apply fmap_sublist.
  - intros b. eapply sublist_NoDup; [apply T6|]. by apply fmap_sublist.
  - intros b r b' r' Hr Hr'. apply T7; by apply Hin.
Qed.

(** The state after the code unlinked the entry whose predecessor is [prev]. *)
Definition unlinked_state (h prev next : Z) (s : kst) : kst :=
  if negb (prev =? NULL) then set_mem (store 8 (k_mem s) (prev + REF_NEXT) next) s else set_cow_head h next s.

Lemma nodes_apart s A C b r r' : cow_inv s A C -> r ∈ C b -> r' ∈ C b -> rn_node r = rn_node r' \/ disj (rn_node r) 0 (rn_node r') 0.
Proof.
  intros [Ha T] Hr Hr'. destruct (decide (rn_node r = rn_node r')); [by left|right].
  eapply pa_disj; [exact Ha|by eapply ct_own|by eapply ct_own|congruence].
Qed.

Lemma unlink_ok s A C p nd : cow_inv s A C -> let h := cow_hash p in
  find_node (page_align p) (C h) = Some nd ->
  let s' := unlinked_state h (find_split (page_align p) NULL (C h)).2 (load 8 (k_mem s) (rn_node nd + REF_NEXT)) s in
  cow_inv s' A (remove_node h (page_align p) C) /\ agree (fun x => ~ in_nodes C x) (k_mem s) (k_mem s') /\
  k_pmm s' = k_pmm s.
Proof.
  intros Hinv h Hf s'. pose proof Hinv as [Ha T]. destruct (find_node_Some _ _ _ Hf) as [Hnd Hp].
  destruct (find_split_Some _ NULL _ _ Hf) as (l1 & l2 & Hl & Es). unfold s'. rewrite Es. cbn [snd].
  pose proof (ct_phys _ _ _ _ T h) as Hph. pose proof (ct_nodup _ _ _ _ T h) as Hno. pose proof (ct_chain _ _ _ _ T h) as Hch.
  assert (Hrm : remove_node h (page_align p) C h = l1 ++ l2).
  { unfold remove_node. rewrite Z.eqb_refl, Hl. apply filter_middle; [by rewrite <- Hl|done]. }
  assert (Hother : forall b, b <> h -> remove_node h (page_align p) C b = C b).
  { intros b Hb. unfold remove_node. by rewrite (proj2 (Z.eqb_neq b h)). }
  assert (Hsub : forall b, sublist (remove_node h (page_align p) C b) (C b)).
  { intros b. unfold remove_node. destruct (b =? h); [apply sublist_filter|done]. }
  unfold unlinked_state. destruct (last l1) as [q|] eqn:El.
  - apply last_Some in El as [l1' ->]. rewrite <- app_assoc in Hl, Hrm. cbn [app] in Hl, Hrm.
    assert (Hq : q ∈ C h) by (rewrite Hl; eauto with inlist).
    rewrite (proj2 (Z.eqb_neq _ _)) by (by eapply node_nonnull). cbn [negb].
    assert (Hag : agree (fun x => ~ within (rn_node q) 24 x) (k_mem s)
              (store 8 (k_mem s) (rn_node q + REF_NEXT) (load 8 (k_mem s) (rn_node nd + REF_NEXT)))).
    { apply agree_store. intros x Hx Hw. apply Hx. change (Z.of_nat 8) with 8 in Hw. unfold REF_NEXT, within in *. lia. }
    split; [split|split; [|done]].
    + apply pa_write; [done|]. eapply agree_mono; [|exact Hag]. intros x Hx Hw. apply Hx.
      exists (rn_node q), 0. split; [by eapply ct_own|]. unfold within in *. rewrite sz_0. lia.
    + cbn [k_cow k_mem set_mem]. rewrite Hl in Hch, Hno.
      assert (Hc : forall b, chain (store 8 (k_mem s) (rn_node q + REF_NEXT) (load 8 (k_mem s) (rn_node nd + REF_NEXT)))
                (cow_head (k_cow s) b) (remove_node h (page_align p) C b)).
      { intros b. destruct (decide (b = h)) as [->|Hb].
        - rewrite Hrm. apply chain_unlink; [done| |done]. intros r r' Hr Hr'. eapply nodes_apart; [done| |]; by rewrite Hl.
        - rewrite Hother by done. apply (chain_frame (k_mem s)); [|apply T]. intros r Hr.
          eapply agree_mono; [|exact Hag]. intros x Hx Hw.
          assert (disj (rn_node r) 0 (rn_node q) 0) as Hd.
          { eapply pa_disj; [exact Ha|by eapply ct_own|by eapply ct_own|]. intros [= E]. by destruct Hb; eapply ct_inj. }
          unfold disj, within in *. rewrite sz_0 in Hd. lia. }
      by apply (sub_tab (k_cow s) (k_mem s) _ _ A C); [|apply T| |].
    + eapply agree_mono; [|exact Hag]. intros x Hx Hw. apply Hx. exists h, q. split; [done|].
      unfold within in *. lia.
  - apply last_None in El as ->. cbn [app] in Hl, Hrm. cbn [Z.eqb NULL negb].
    split; [split|split; [done|done]].
    + by apply (pa_frame s).
    + rewrite Hl in Hch. destruct Hch as (E & _ & _ & _ & _ & Hch). rewrite E in Hch.
      apply (sub_tab (k_cow s) (k_mem s) _ _ A C); [done|apply T| |done].
      intros b. unfold cow_head. cbn [k_cow k_mem set_cow_head set_cow cow_hash_table]. destruct (decide (b = h)) as [->|Hb].
      * rewrite lookup_insert_eq, Hrm. exact Hch.
      * rewrite lookup_insert_ne, Hother by congruence. apply T.
Qed.

(** Freeing a page that holds no node. *)
Lemma free_keeps s A C a : cow_inv s A C -> (a, 0) ∈ A -> (forall b r, r ∈ C b -> rn_node r <> a) ->
  exists s' A', buddy_free_pages a 0 s = Done tt s' /\ cow_inv s' A' C /\
    (forall x, x ∈ A' <-> x ∈ A /\ x <> (a, 0)) /\ agree (in_block A') (k_mem s) (k_mem s').
Proof.
  intros [Ha T] Hin Hno. destruct (pa_free_in s A a Ha Hin) as (s' & A' & Hrun & Hst & Ha' & Hiff & Hag).
  exists s', A'. split; [done|]. split; [|done]. split; [done|]. destruct Hst as (_ & _ & -> & _).
  assert (Hown : forall b r, r ∈ C b -> (rn_node r, 0) ∈ A').
  { intros b r Hr. apply Hiff. split; [by eapply ct_own|]. intros [= E]. by eapply Hno. }
  destruct T as [T1 T2 T3 T4 T5 T6 T7]. split; try done. intros b.
  apply (chain_frame (k_mem s)); [|done]. intros r Hr. eapply agree_mono; [|exact Hag].
  intros x Hx. exists (rn_node r), 0. split; [by eapply Hown|]. unfold within in *. rewrite sz_0. lia.
Qed.

Lemma find_split_set n c p prev l : find_split p prev (set_count_of n c <$> l) = find_split p prev l.
Proof.
  revert prev. induction l as [|r l IH]; intros prev; [done|]. rewrite fmap_cons. cbn [find_split].
  rewrite set_count_phys, set_count_node. by destruct (_ =? _).
Qed.

Lemma find_filter p q l : find_node q (filter (fun r => rn_phys r <> p) l) = if q =? p then None else find_node q l.
Proof.
  induction l as [|r l IH]; [by destruct (q =? p)|]. destruct (decide (rn_phys r = p)) as [E|Hne].
  - rewrite filter_cons_False by (intros H; by apply H). rewrite IH. cbn [find_node].
    destruct (Z.eqb_spec q p) as [->|Hqp]; [done|]. by rewrite (proj2 (Z.eqb_neq (rn_phys r) q)) by congruence.
  - rewrite filter_cons_True by done. cbn [find_node]. rewrite IH. destruct (Z.eqb_spec q p) as [->|]; [|done].
    by rewrite (proj2 (Z.eqb_neq (rn_phys r) p)) by done.
Qed.

(** The entry is unlinked, then its page and its node are given back. *)
Lemma release_entry s A C p nd : cow_inv s A C -> let h := cow_hash p in
  find_node (page_align p) (C h) = Some nd ->
  (page_align p, 0) ∈ A -> (forall b r, r ∈ C b -> rn_node r <> page_align p) ->
  let s2 := unlinked_state h (find_split (page_align p) NULL (C h)).2 (load 8 (k_mem s) (rn_node nd + REF_NEXT)) s in
  exists s' A', (cow_lock_release ;; buddy_free_pages (page_align p) 0 ;; buddy_free_pages (rn_node nd) 0)
      (set_cow_lock 1 s2) = Done tt s' /\ cow_inv s' A' (remove_node h (page_align p) C) /\
    (forall x, x ∈ A' <-> x ∈ A /\ x <> (page_align p, 0) /\ x <> (rn_node nd, 0)) /\
    agree (fun x => in_block A' x /\ ~ in_nodes C x) (k_mem s) (k_mem s').
Proof.
  intros Hinv h Hf HpA Hpn s2. destruct (unlink_ok s A C p nd Hinv Hf) as (Hi2 & Hag2 & _). fold h s2 in Hi2, Hag2.
  destruct (find_node_Some _ _ _ Hf) as [Hnd Hph].
  assert (Hsub : forall b r, r ∈ remove_node h (page_align p) C b -> r ∈ C b /\ (b = h -> rn_phys r <> page_align p)).
  { intros b r. unfold remove_node. destruct (Z.eqb_spec b h); [|done]. by intros [? ?]%list_elem_of_filter. }
  destruct (free_keeps s2 A _ (page_align p) Hi2 HpA) as (s3 & A3 & Hrun3 & Hi3 & Hiff3 & Hag3).
  { intros b r [Hr _]%Hsub. by eapply Hpn. }
  destruct (free_keeps s3 A3 _ (rn_node nd) Hi3) as (s4 & A4 & Hrun4 & Hi4 & Hiff4 & Hag4).
  { apply Hiff3. split; [by eapply ct_own; [apply Hinv|]|]. intros [= E]. by eapply Hpn. }
  { intros b r [Hr Hne]%Hsub E. destruct (node_eq s A C _ _ _ _ Hinv Hr Hnd E) as [-> ->]. by apply Hne. }
  exists s4, A4. split.
  { unfold mbind, M_bind. change (cow_lock_release (set_cow_lock 1 s2)) with (Done tt (set_cow_lock 0 (set_cow_lock 1 s2))).
    rewrite cow_locked_id by (apply (ct_lock _ _ _ _ (proj2 Hi2))). by rewrite Hrun3. }
  split; [exact Hi4|]. split.
  - intros x. rewrite Hiff4, Hiff3. tauto.
  - etrans; [eapply agree_mono; [|exact Hag2]; by intros x [_ Hx]|]. etrans.
    + eapply agree_mono; [|exact Hag3]. intros x [(b & o & Hb & Hx) _]. exists b, o. split; [|done]. by apply Hiff4 in Hb as [Hb _].
    + eapply agree_mono; [|exact Hag4]. by intros x [Hx _].
Qed.

(** What the lookup and decrement of the entry [nd] leave: the state before the test
    for zero, with the table lock still held. *)
Lemma decrement_prefix s A C p nd : cow_inv s A C -> find_node (page_align p) (C (cow_hash p)) = Some nd ->
  let v := u32 (rn_count nd - 1) in
  let s1 := set_mem (ref_cell (k_mem s) (rn_node nd) v) s in
  cow_decrement_ref p s =
    (if v =? 0 then
       (cow_lock_release ;; buddy_free_pages (page_align p) 0 ;; buddy_free_pages (rn_node nd) 0)
         (set_cow_lock 1 (unlinked_state (cow_hash p) (find_split (page_align p) NULL (C (cow_hash p))).2
            (load 8 (k_mem s1) (rn_node nd + REF_NEXT)) s1))
     else cow_lock_release (set_cow_lock 1 s1)).
Proof.
  intros Hinv Hf v s1. pose proof Hinv as [Ha T]. destruct (find_node_Some _ _ _ Hf) as [Hnd Hp].
  pose proof (node_nonnull _ _ _ _ _ Hinv Hnd) as Hn. destruct (node_lock _ _ _ _ _ Hinv Hnd) as [Hl Hc].
  destruct (find_split_Some _ NULL _ _ Hf) as (l1 & l2 & _ & Es).
  unfold cow_decrement_ref, cow_lock_acquire, acquire_var, mbind, M_bind, gets, modify.
  rewrite (ct_lock _ _ _ _ T), cow_hash_align. cbn [Z.eqb].
  change (cow_head (k_cow (set_cow_lock 1 s)) (cow_hash p)) with (cow_head (k_cow s) (cow_hash p)).
  rewrite (find_prev_exec _ _ (C (cow_hash p)) (set_cow_lock 1 s)) by (apply T || by eapply chain_length).
  rewrite Es. rewrite (proj2 (Z.eqb_neq (rn_node nd) NULL)) by done.
  unfold spinlock_acquire, spinlock_release, load32, load64, store32, store64, mbind, M_bind, gets, modify.
  cbn [k_mem set_cow_lock set_cow]. rewrite Hl. cbn [Z.eqb k_mem set_mem].
  rewrite (load_store_ne 4 4 (k_mem s)) by (unfold REF_COUNT, REF_LOCK; change (Z.of_nat 4) with 4; lia).
  rewrite Hc. fold v. rewrite load32_store_eq by apply u32_bound.
  change (store 4 (store 4 (store 4 (k_mem s) (rn_node nd + REF_LOCK) 1) (rn_node nd + REF_COUNT) v)
            (rn_node nd + REF_LOCK) 0) with (ref_cell (k_mem s) (rn_node nd) v).
  destruct (v =? 0); [|reflexivity]. cbn [snd]. unfold unlinked_state.
  destruct (negb _); reflexivity.
Qed.

(** What a client holds after an entry has been released was in no node before. *)
Lemma released_client s A A' C p nd v x : cow_inv s A C -> nd ∈ C (cow_hash p) -> rn_phys nd = page_align p ->
  (forall y, y ∈ A' -> y ∈ A /\ y <> (rn_node nd, 0)) ->
  cow_client A' (remove_node (cow_hash p) (page_align p) (set_counts (rn_node nd) v C)) x -> ~ in_nodes C x.
Proof.
  intros [Ha T] Hnd Hph Hin' [(b & o & Hb & Hbx) Hnx] (b' & r & Hr & Hrx). apply Hin' in Hb as [Hb Hbn].
  destruct (decide (rn_node r = rn_node nd)) as [E|Hne].
  - rewrite E in Hrx. assert (disj b o (rn_node nd) 0) as Hd.
    { eapply pa_disj; [exact Ha|exact Hb|by eapply ct_own|done]. }
    unfold disj, within in *. rewrite sz_0 in Hd. lia.
  - apply Hnx. exists b', (set_count_of (rn_node nd) v r). rewrite set_count_node. split; [|done].
    unfold remove_node. assert (Hin : set_count_of (rn_node nd) v r ∈ set_counts (rn_node nd) v C b') by (by apply list_elem_of_fmap_2).
    destruct (Z.eqb_spec b' (cow_hash p)) as [->|]; [|done]. apply list_elem_of_filter. split; [|done].
    rewrite set_count_phys. intros E. apply Hne. f_equal.
    apply (NoDup_fmap_elem rn_phys (C (cow_hash p))); [apply T|done|done|congruence].
Qed.

(** C9: [cow_decrement_ref] on a page without an entry does nothing.  Otherwise the
    count drops by one modulo 2^32; when it reaches zero - the page being an owned
    page that holds no node - the entry is gone and exactly the page and the entry's
    node are given back to the allocator.  All other counts stay. *)
Theorem cow_decrement_correct s A C p : cow_inv s A C -> 0 <= p < 2 ^ 64 ->
  match find_node (page_align p) (C (cow_hash p)) with
  | None => cow_decrement_ref p s = Done tt s
  | Some nd =>
      let v := u32 (count_of C p - 1) in
      (v <> 0 -> exists s', cow_decrement_ref p s = Done tt s' /\ counted s A C p v s') /\
      (v = 0 -> (page_align p, 0) ∈ A -> (forall b r, r ∈ C b -> rn_node r <> page_align p) ->
       exists s' A' C', cow_decrement_ref p s = Done tt s' /\ cow_inv s' A' C' /\
         (forall x, x ∈ A' <-> x ∈ A /\ x <> (page_align p, 0) /\ x <> (rn_node nd, 0)) /\
         find_node (page_align p) (C' (cow_hash p)) = None /\
         (forall q, page_align q <> page_align p -> count_of C' q = count_of C q) /\
         agree (cow_client A' C') (k_mem s) (k_mem s'))
  end.
Proof.
  intros Hinv Hp. pose proof Hinv as [Ha T].
  destruct (find_node (page_align p) (C (cow_hash p))) as [nd|] eqn:Ef; cycle 1.
  { unfold cow_decrement_ref, cow_lock_acquire, acquire_var, mbind, M_bind, gets, modify.
    rewrite (ct_lock _ _ _ _ T), cow_hash_align. cbn [Z.eqb].
    change (cow_head (k_cow (set_cow_lock 1 s)) (cow_hash p)) with (cow_head (k_cow s) (cow_hash p)).
    rewrite (find_prev_exec _ _ (C (cow_hash p)) (set_cow_lock 1 s)) by (apply T || by eapply chain_length).
    pose proof (find_split_None _ NULL _ Ef) as E. destruct (find_split _ _ _) as [a b]. cbn [fst] in E. subst a.
    exact (f_equal (Done tt) (cow_locked_id s (ct_lock _ _ _ _ T))). }
  cbv zeta. assert (Hcount : count_of C p = rn_count nd) by (unfold count_of; by rewrite Ef). rewrite Hcount.
  destruct (find_node_Some _ _ _ Ef) as [Hnd Hph].
  pose proof (decrement_prefix s A C p nd Hinv Ef) as Hpre. cbv zeta in Hpre.
  pose proof (set_cell_ok s A C _ nd (u32 (rn_count nd - 1)) Hinv Hnd (u32_bound _)) as Hi1.
  pose proof (ref_cell_agree (k_mem s) (rn_node nd) (u32 (rn_count nd - 1))) as Hag1.
  set (v := u32 (rn_count nd - 1)) in *. set (s1 := set_mem (ref_cell (k_mem s) (rn_node nd) v) s) in *.
  assert (Hag1' : agree (fun x => ~ in_nodes C x) (k_mem s) (k_mem s1)).
  { eapply agree_mono; [|exact Hag1]. intros x Hx Hw. apply Hx. exists (cow_hash p), nd. split; [done|].
    unfold within in *. lia. }
  assert (Hcnt1 : forall q, count_of (set_counts (rn_node nd) v C) q = if page_align q =? page_align p then v else count_of C q).
  { intros q. by apply (set_cell_count s A). }
  split.
  - intros Hv. rewrite (proj2 (Z.eqb_neq v 0)) in Hpre by done.
    exists s1. split; [rewrite Hpre; exact (f_equal (fun x => Done tt (set_mem (k_mem s1) x)) (cow_locked_id s (ct_lock _ _ _ _ T)))|].
    exists A, (set_counts (rn_node nd) v C). split; [exact Hi1|]. split; [done|]. split; [|done].
    eapply agree_mono; [|exact Hag1']. by intros x [_ Hx].
  - intros Hv HpA Hpn. rewrite (proj2 (Z.eqb_eq v 0)) in Hpre by done.
    assert (Ef1 : find_node (page_align p) (set_counts (rn_node nd) v C (cow_hash p)) = Some (set_count_of (rn_node nd) v nd)).
    { unfold set_counts. by rewrite find_set_count, Ef. }
    destruct (release_entry s1 A (set_counts (rn_node nd) v C) p _ Hi1 Ef1 HpA) as (s' & A' & Hrun & Hi' & Hiff & Hag').
    { intros b r (q & -> & Hq)%list_elem_of_fmap. rewrite set_count_node. by eapply Hpn. }
    rewrite set_count_node in Hrun, Hiff. unfold set_counts in Hrun at 1. rewrite find_split_set in Hrun.
    eexists s', A', _. split; [rewrite Hpre; exact Hrun|]. split; [exact Hi'|]. split; [exact Hiff|]. split; [|split].
    + unfold remove_node. rewrite Z.eqb_refl, find_filter. by rewrite Z.eqb_refl.
    + intros q Hq. specialize (Hcnt1 q). rewrite (proj2 (Z.eqb_neq _ _) Hq) in Hcnt1. rewrite <- Hcnt1.
      unfold count_of at 1, remove_node. destruct (cow_hash q =? cow_hash p); [|done].
      rewrite find_filter, (proj2 (Z.eqb_neq _ _) Hq). done.
    + assert (Hx : forall x, cow_client A' (remove_node (cow_hash p) (page_align p) (set_counts (rn_node nd) v C)) x ->
                ~ in_nodes C x).
      { intros x. apply (released_client s A); try done. intros y Hy. apply Hiff in Hy. tauto. }
      etrans; [eapply agree_mono; [|exact Hag1']; apply Hx|]. eapply agree_mono; [|exact Hag'].
      intros x Hcx. split; [by destruct Hcx|]. intros (b & r & (q & -> & Hq)%list_elem_of_fmap & Hw).
      rewrite set_count_node in Hw. apply (Hx x Hcx). by exists b, q.
Qed.

(** ** Faults on copy-on-write pages *)

(** The table of counts and the page tables together: no node is a table. *)
Record cow_vm (s : kst) (A : blocks) (C : chains) (N : tables) : Prop := {
  cv_cow : cow_inv s A C;
  cv_tree : tree (k_mem s) N;
  cv_own l t : (l, t) ∈ N -> (t, 0) ∈ A;
  cv_apart b r l t : r ∈ C b -> (l, t) ∈ N -> rn_node r <> t
}.

(** What every step of the handler keeps: the tables and all translations. *)
Definition vm_same (m m' : mem) (N : tables) : Prop :=
  (forall l t i, (l, t) ∈ N -> 0 <= i < 512 -> entry m' t i = entry m t i) /\
  (forall l4 v, (4, l4) ∈ N -> pt_of m' l4 v = pt_of m l4 v /\ translate m' l4 v = translate m l4 v).

Lemma vm_same_refl m N : vm_same m m N.
Proof. done. Qed.
Lemma vm_same_trans m1 m2 m3 N : vm_same m1 m2 N -> vm_same m2 m3 N -> vm_same m1 m3 N.
Proof.
  intros [E1 T1] [E2 T2]. split.
  - intros l t i Hin Hi. by rewrite (E2 l), (E1 l).
  - intros l4 v Hin. destruct (T1 l4 v Hin), (T2 l4 v Hin). split; congruence.
Qed.

Lemma tree_keep m m' N : tree m N -> (forall l t, (l, t) ∈ N -> agree (within t 4096) m m') ->
  tree m' N /\ vm_same m m' N.
Proof.
  intros T Hag. split; [apply (tree_frame m N T); intros l t Hin _; by eapply Hag|]. split.
  - intros l t i Hin Hi. unfold entry. apply load_agree. eapply agree_mono; [|by eapply Hag].
    unfold within. change (Z.of_nat 8) with 8. lia.
  - intros l4 v Hin. apply (translate_ext m m' N); [done|done|]. intros l t i Ht Hi.
    apply descend_agree; [by eapply Hag|done].
Qed.

(** A step that touches neither nodes nor tables. *)
Lemma cow_vm_frame s s' A A' C N : cow_vm s A C N -> pa_inv s' A' -> k_cow s' = k_cow s -> A ⊆ A' ->
  agree (fun x => in_nodes C x \/ in_tables N x) (k_mem s) (k_mem s') ->
  cow_vm s' A' C N /\ vm_same (k_mem s) (k_mem s') N.
Proof.
  intros [[Ha T] Ht Ho Hd] Ha' Hc Hsub Hag.
  destruct (tree_keep (k_mem s) (k_mem s') N Ht) as [Ht' Hs].
  { intros l t Hin. eapply agree_mono; [|exact Hag]. intros x Hx. right. by exists l, t. }
  split; [|done]. split; [|done|intros l t Hin; by eapply Hsub, Ho|done].
  split; [done|]. rewrite Hc. destruct T as [T1 T2 T3 T4 T5 T6 T7]. split; try done.
  - intros b. apply (chain_frame (k_mem s)); [|done]. intros r Hr. eapply agree_mono; [|exact Hag].
    intros x Hx. left. exists b, r. split; [done|]. unfold within in *. lia.
  - intros b r Hr. by eapply Hsub, T3.
Qed.

(** A step that writes one node. *)
Lemma cow_vm_node s m' A C C' N : cow_vm s A C N -> cow_inv (set_mem m' s) A C' ->
  (forall b r, r ∈ C' b -> exists r', r' ∈ C b /\ rn_node r' = rn_node r) ->
  agree (fun x => ~ in_nodes C x) (k_mem s) m' ->
  cow_vm (set_mem m' s) A C' N /\ vm_same (k_mem s) m' N.
Proof.
  intros [[Ha T] Ht Ho Hd] Hi Hn Hag.
  destruct (tree_keep (k_mem s) m' N Ht) as [Ht' Hs].
  { intros l t Hin. eapply agree_mono; [|exact Hag]. intros x Hx (b & r & Hr & Hw).
    assert (disj (rn_node r) 0 t 0) as Hdj.
    { eapply pa_disj; [exact Ha|by eapply ct_own|by eapply Ho|]. intros [= E]. by eapply Hd. }
    unfold disj, within in *. rewrite sz_0 in Hdj. lia. }
  split; [|done]. split; [done|done|done|].
  intros b r l t Hr Hin E. destruct (Hn _ _ Hr) as (r' & Hr' & E'). eapply (Hd b r' l t); [done|done|congruence].
Qed.

Lemma set_counts_nodes n c C b r : r ∈ set_counts n c C b -> exists r', r' ∈ C b /\ rn_node r' = rn_node r.
Proof. intros (q & -> & Hq)%list_elem_of_fmap. exists q. by rewrite set_count_node. Qed.

Lemma cow_get_pte_exec pml4 v s : cow_get_pte pml4 v s =
  Done (match pt_of (k_mem s) pml4 v with Some pt => pt + 8 * ADDR_PT_INDEX v | None => 0 end) s.
Proof.
  unfold cow_get_pte, pt_of, descend, entry, load64, mbind, M_bind, gets, option_bind,
    ADDR_PML4_INDEX, ADDR_PDPT_INDEX, ADDR_PD_INDEX.
  destruct (present (load 8 (k_mem s) (pml4 + _))); [|done]. cbn [negb].
  destruct (present (load 8 (k_mem s) (_ + 8 * Z.land (Z.shiftr v 30) 511))); [|done]. cbn [negb].
  by destruct (present (load 8 (k_mem s) (_ + 8 * Z.land (Z.shiftr v 21) 511))).
Qed.

(** [cow_get_ref] in the presence of page tables. *)
Lemma cow_get_ref_vm s A C N p : cow_vm s A C N -> 0 <= page_align p < 2 ^ 64 ->
  wp (cow_get_ref p) (fun r s' =>
    (r = NULL /\ s' = s /\ exhausted s) \/
    (r <> NULL /\ exists A' C', ref_post s A C p r s' A' C' /\ cow_vm s' A' C' N /\
       vm_same (k_mem s) (k_mem s') N)) s.
Proof.
  intros Hv Hp. pose proof Hv as [Hi Ht Ho Hd]. pose proof Hi as [Ha T].
  eapply wp_mono; [by apply (cow_get_ref_ok s A C)|]. intros r s' [?|(Hr & A' & C' & Hpost)]; [by left|right].
  split; [done|]. exists A', C'. split; [done|]. pose proof Hpost as [Hi' Hb Hm _ _ Hfr].
  destruct (tree_keep (k_mem s) (k_mem s') N Ht) as [Ht' Hs].
  { intros l t Hin. eapply agree_mono; [|exact Hm]. intros x Hx. exists t, 0. split; [by eapply Ho|exact Hx]. }
  split; [|done]. split; [done|done| |].
  - intros l t Hin. destruct Hb as [->|[-> _]]; [|right]; by eapply Ho.
  - intros b q l t Hq Hin E. destruct (Hfr t) as [(b' & q' & Hq' & Hw)|Hn].
    + exists b, q. split; [done|]. rewrite E. unfold within. lia.
    + assert (disj (rn_node q') 0 t 0) as Hdj.
      { eapply pa_disj; [exact Ha|by eapply ct_own|by eapply Ho|]. intros [= E']. by eapply Hd. }
      unfold disj, within in *. rewrite sz_0 in Hdj. lia.
    + apply Hn. exists t, 0. split; [by eapply Ho|]. rewrite sz_0. unfold within. lia.
Qed.

(** Writing a leaf entry in the presence of the table of counts. *)
Lemma cow_vm_leaf s A C N pml4 virt pt w : cow_vm s A C N -> (4, pml4) ∈ N ->
  pt_of (k_mem s) pml4 virt = Some pt -> 0 <= w < 2 ^ 64 -> present w = true ->
  let m' := store 8 (k_mem s) (pt + 8 * ADDR_PT_INDEX virt) w in
  cow_vm (set_mem m' s) A C N /\ agree (fun x => ~ in_tables N x) (k_mem s) m' /\
  pt_of m' pml4 virt = Some pt /\ entry m' pt (ADDR_PT_INDEX virt) = w /\
  forall l4 v, (4, l4) ∈ N -> translate m' l4 v =
    if bool_decide (l4 = pml4 /\ page_of v = page_of virt)
    then Some (Z.lor (Z.land w ADDR_MASK) (Z.land v 0xFFF)) else translate (k_mem s) l4 v.
Proof.
  intros Hv Hin Hpt Hw Hp m'. pose proof Hv as [Hi T Ho Hd]. pose proof Hi as [Ha Tc].
  pose proof (leaf_in _ _ _ _ _ T Hin Hpt) as H1. pose proof (index_bound virt 12 : 0 <= ADDR_PT_INDEX virt < 512) as Bi.
  assert (Hag : agree (fun x => ~ in_tables N x) (k_mem s) m').
  { apply agree_store. intros x Hx Hwx. apply Hx. exists 1, pt. split; [done|].
    change (Z.of_nat 8) with 8 in Hwx. unfold within in *. lia. }
  assert (Hentry : entry m' pt (ADDR_PT_INDEX virt) = w) by (by apply load64_store_eq).
  split; [split|split; [done|split; [|split; [done|]]]].
  - split.
    + apply pa_write; [done|]. eapply agree_mono; [|exact Hag]. intros x Hx (l & t & Ht & Hxt). apply Hx.
      exists t, 0. split; [by eapply Ho|exact Hxt].
    + apply (sub_tab (k_cow s) (k_mem s) _ _ A C); [done|apply Tc| |done]. intros b.
      apply (chain_frame (k_mem s)); [|apply Tc]. intros r Hr. eapply agree_mono; [|exact Hag].
      intros x Hx (l & t & Ht & Hxt). assert (disj (rn_node r) 0 t 0) as Hdj.
      { eapply pa_disj; [exact Ha|by eapply ct_own|by eapply Ho|]. intros [= E]. by eapply Hd. }
      unfold disj, within in *. rewrite sz_0 in Hdj. lia.
  - by apply (leaf_tree _ _ pml4 virt pt).
  - done.
  - done.
  - rewrite <- Hpt. by apply (leaf_pt_of (k_mem s) N pml4 virt pt w T Hin Hpt pml4 virt).
  - intros l4 v H4. etrans; [exact (leaf_translate (k_mem s) N pml4 virt pt w T Hin Hpt l4 v H4)|]. fold m'.
    unfold descend at 1. rewrite Hentry, Hp. done.
Qed.

(** The bytes that belong to neither component. *)
Definition others (A : blocks) (C : chains) (N : tables) (x : Z) : Prop :=
  in_block A x /\ ~ in_nodes C x /\ ~ in_tables N x.

(** [cow_mark_page] on a mapped page either fails for want of a page, changing
    nothing, or makes the entry read-only and copy-on-write for the same frame, and
    counts one more reference to the frame and no other; no translation and no byte
    outside the nodes and the tables changes. *)
Theorem cow_mark_correct s A C N pml4 virt pt : cow_vm s A C N -> (4, pml4) ∈ N ->
  pt_of (k_mem s) pml4 virt = Some pt -> let i := ADDR_PT_INDEX virt in let e := entry (k_mem s) pt i in
  present e = true ->
  exists r s', cow_mark_page pml4 virt s = Done r s' /\
    (r = -1 /\ s' = s /\ exhausted s \/
     r = 0 /\ exists A' C', cow_vm s' A' C' N /\ A ⊆ A' /\
       (let e' := entry (k_mem s') pt i in present e' = true /\ is_cow e' = true /\ Z.testbit e' 1 = false /\
          Z.land e' ADDR_MASK = Z.land e ADDR_MASK) /\
       (forall q, count_of C' q = if page_align q =? page_align (Z.land e ADDR_MASK)
                                  then u32 (count_of C (Z.land e ADDR_MASK) + 1) else count_of C q) /\
       (forall l4 v, (4, l4) ∈ N -> translate (k_mem s') l4 v = translate (k_mem s) l4 v) /\
       agree (others A C N) (k_mem s) (k_mem s')).
Proof.
  intros Hv Hin Hpt i e Hp. pose proof (leaf_in _ _ _ _ _ (cv_tree _ _ _ _ Hv) Hin Hpt) as H1.
  pose proof (index_bound virt 12 : 0 <= i < 512) as Bi. destruct (mask_addr e) as [Hmb Hmm].
  set (old := Z.land e ADDR_MASK) in *.
  destruct (pa_block s A pt 0 (proj1 (cv_cow _ _ _ _ Hv)) (cv_own _ _ _ _ Hv _ _ H1)) as (_ & Hpt0 & _).
  destruct (pa_block s A pml4 0 (proj1 (cv_cow _ _ _ _ Hv)) (cv_own _ _ _ _ Hv _ _ Hin)) as (_ & Hpm0 & _).
  pose proof (cow_get_ref_vm s A C N old Hv (align_bound old ltac:(lia))) as H.
  apply wp_Done in H as (r & s1 & Hrun & Hcase).
  unfold cow_mark_page, mbind, M_bind. rewrite (proj2 (Z.eqb_neq pml4 0)) by lia.
  rewrite cow_get_pte_exec, Hpt. fold i. rewrite (proj2 (Z.eqb_neq (pt + 8 * i) 0)) by lia.
  unfold load64, gets. change (load 8 (k_mem s) (pt + 8 * i)) with e. rewrite Hp. cbn [negb]. fold old. rewrite Hrun.
  destruct Hcase as [(-> & -> & He)|(Hr & A1 & C1 & [Hi1 Hb Hm (nd & Hf & <- & Hc) Hq Hfr] & Hv1 & Hs1)].
  { exists (-1), s. split; [done|]. by left. }
  rewrite (proj2 (Z.eqb_neq _ NULL)) by done.
  destruct (ref_add_ok s1 A1 C1 old nd 1 Hi1 Hf) as (m2 & -> & Hi2 & Hag2 & Hcnt).
  destruct (cow_vm_node s1 m2 A1 C1 _ N Hv1 Hi2 (set_counts_nodes _ _ _) Hag2) as [Hv2 Hs2].
  destruct (vm_same_trans _ _ _ _ Hs1 Hs2) as [He12 Ht12].
  assert (He : 0 <= e < 2 ^ 64) by apply load64_bound.
  destruct (cow_entry_spec e He) as (Hce & Hcp & Hcw & Hcc & Hca).
  assert (Hpt2 : pt_of (k_mem (set_mem m2 s1)) pml4 virt = Some pt) by (rewrite <- Hpt; exact (proj1 (Ht12 pml4 virt Hin))).
  destruct (cow_vm_leaf _ A1 _ N pml4 virt pt (cow_entry e) Hv2 Hin Hpt2 Hce) as (Hv3 & Hag3 & Hpt3 & Hentry & Htr);
    [by rewrite Hcp|].
  unfold store64, modify. eexists 0, _. split; [reflexivity|]. right. split; [done|].
  exists A1, (set_counts (rn_node nd) (u32 (rn_count nd + 1)) C1). split; [exact Hv3|].
  split; [destruct Hb as [->|[-> _]]; [done|by apply list_subseteq_cons]|]. split; [|split; [|split]].
  - cbn [k_mem set_mem] in *. fold i in Hentry. rewrite Hentry. rewrite Hcp. done.
  - intros q. by rewrite Hcnt, Hc, Hq.
  - intros l4 v H4. cbn [k_mem set_mem] in *. rewrite Htr by done. case_bool_decide as Hsame; [|by apply Ht12].
    destruct Hsame as [-> Hpg]. rewrite Hca. symmetry. apply page_of_indices in Hpg as (E4 & E3 & E2 & E1).
    unfold translate. assert (pt_of (k_mem s) pml4 v = Some pt) as -> by (rewrite <- Hpt; unfold pt_of; by rewrite E4, E3, E2).
    cbn. unfold descend. rewrite E1. fold i e. by rewrite Hp.
  - cbn [k_mem set_mem] in *. etrans; [eapply agree_mono; [|exact Hm]; by intros x [Hx _]|].
    etrans; [eapply agree_mono; [|exact Hag2]|eapply agree_mono; [|exact Hag3]; by intros x (_ & _ & Hx)].
    intros x (Hx & Hn & _) Hx'. by destruct (Hfr x Hx').
Qed.

(** What a handled fault promises of the new entry [e'] of a page whose frame was
    [old], counted [c] times. *)
Definition private_page (s s' : kst) (A A' : blocks) (old c e' : Z) : Prop :=
  let new := Z.land e' ADDR_MASK in
  present e' = true /\ Z.testbit e' 1 = true /\ is_cow e' = false /\
  (c = 1 -> new = old) /\
  (c <> 1 -> (new, 0) ∈ A' /\ (new, 0) ∉ A /\
     forall i, 0 <= i < 4096 -> mget (k_mem s') (new + i) = mget (k_mem s) (old + i)).

(** The state after the entry of the faulting page was found and its count taken. *)
Definition fault_post (s : kst) (A : blocks) (C : chains) (N : tables) (pml4 virt pt : Z) (r : Z) (s' : kst) : Prop :=
  let i := ADDR_PT_INDEX virt in let e := entry (k_mem s) pt i in let old := Z.land e ADDR_MASK in
  exists A' C', cow_vm s' A' C' N /\ A ⊆ A' /\ agree (others A C N) (k_mem s) (k_mem s') /\
   (r = -1 /\ exhausted s' /\ (forall q, count_of C' q = count_of C q) /\
      (forall l4 v, (4, l4) ∈ N -> translate (k_mem s') l4 v = translate (k_mem s) l4 v) \/
    r = 0 /\ private_page s s' A A' old (count_of C old) (entry (k_mem s') pt i) /\
      (forall q, count_of C' q = if page_align q =? page_align old then u32 (count_of C old - 1) else count_of C q) /\
      (forall l4 v, (4, l4) ∈ N -> translate (k_mem s') l4 v =
         if bool_decide (l4 = pml4 /\ page_of v = page_of virt)
         then Some (Z.lor (Z.land (entry (k_mem s') pt i) ADDR_MASK) (Z.land v 0xFFF))
         else translate (k_mem s) l4 v)).

(** Between the count update and the new entry. *)
Record fault_mid (s : kst) (A : blocks) (C : chains) (N : tables) (old : Z) (s2 : kst) (A2 : blocks) (C2 : chains) : Prop := {
  fm_vm : cow_vm s2 A2 C2 N;
  fm_blocks : A ⊆ A2;
  fm_same : vm_same (k_mem s) (k_mem s2) N;
  fm_others : agree (others A C N) (k_mem s) (k_mem s2);
  fm_count q : count_of C2 q = if page_align q =? page_align old then u32 (count_of C old - 1) else count_of C q;
  fm_fresh x : in_nodes C2 x -> in_nodes C x \/ ~ in_block A x
}.

Section phase2.
Context (s : kst) (A : blocks) (C : chains) (N : tables) (pml4 virt pt : Z).
Let i := ADDR_PT_INDEX virt.
Let e := entry (k_mem s) pt i.
Let old := Z.land e ADDR_MASK.
Hypothesis Hroot : (4, pml4) ∈ N.
Hypothesis Hpt : pt_of (k_mem s) pml4 virt = Some pt.
Hypothesis Hpres : present e = true.

(** The last store of both paths. *)
Lemma fault_store s2 A2 C2 w : fault_mid s A C N old s2 A2 C2 -> 0 <= w < 2 ^ 64 -> present w = true ->
  let s3 := set_mem (store 8 (k_mem s2) (pt + 8 * i) w) s2 in
  agree (fun x => ~ in_tables N x) (k_mem s2) (k_mem s3) /\
  (private_page s s3 A A2 old (count_of C old) w -> fault_post s A C N pml4 virt pt 0 s3).
Proof.
  intros [Hv Hsub Hs Ho Hq Hfr] Hw Hp s3.
  assert (Hpt2 : pt_of (k_mem s2) pml4 virt = Some pt) by (rewrite <- Hpt; exact (proj1 (proj2 Hs pml4 virt Hroot))).
  destruct (cow_vm_leaf s2 A2 C2 N pml4 virt pt w Hv Hroot Hpt2 Hw Hp) as (Hv3 & Hag3 & Hpt3 & Hentry & Htr).
  split; [exact Hag3|]. intros Hpriv. exists A2, C2. split; [exact Hv3|]. split; [done|]. split.
  - etrans; [exact Ho|]. eapply agree_mono; [|exact Hag3]. by intros x (_ & _ & Hx).
  - right. split; [done|]. cbn [k_mem set_mem s3]. fold i in Hentry |- *. unfold s3 in *. cbn [k_mem set_mem].
    rewrite Hentry. split; [exact Hpriv|]. split; [exact Hq|]. intros l4 v H4. rewrite Htr by done.
    case_bool_decide; [done|]. by apply (proj2 Hs).
Qed.

Lemma fault_single s2 A2 C2 : fault_mid s A C N old s2 A2 C2 -> count_of C old = 1 ->
  fault_post s A C N pml4 virt pt 0 (set_mem (store 8 (k_mem s2) (pt + 8 * i) (private_entry e)) s2).
Proof.
  intros Hm Hc. assert (He : 0 <= e < 2 ^ 64) by apply load64_bound.
  destruct (private_entry_spec e He) as (Hb & Hp & Hw & Hcw & Haddr).
  destruct (fault_store s2 A2 C2 (private_entry e) Hm Hb) as [_ H]; [by rewrite Hp|]. apply H.
  split; [by rewrite Hp|]. split; [done|]. split; [done|]. split; [intros _; exact Haddr|]. by intros Hne.
Qed.

(** No page for the copy: the count is put back. *)
Lemma fault_restore s2 A2 C2 nd : fault_mid s A C N old s2 A2 C2 -> exhausted s2 ->
  find_node (page_align old) (C2 (cow_hash old)) = Some nd -> 0 <= count_of C old < 2 ^ 32 ->
  exists s3, ref_add (rn_node nd) 1 s2 = Done tt s3 /\ fault_post s A C N pml4 virt pt (-1) s3.
Proof.
  intros [Hv Hsub Hs Ho Hq Hfr] Hex Hf Hcb.
  destruct (ref_add_ok s2 A2 C2 old nd 1 (cv_cow _ _ _ _ Hv) Hf) as (m3 & Hrun & Hi3 & Hag3 & Hcnt3).
  destruct (cow_vm_node s2 m3 A2 C2 _ N Hv Hi3 (set_counts_nodes _ _ _) Hag3) as [Hv3 Hs3].
  eexists. split; [exact Hrun|]. eexists A2, _. split; [exact Hv3|]. split; [done|]. split.
  - etrans; [exact Ho|]. eapply agree_mono; [|exact Hag3]. intros x (Hx & Hn & _) Hx'. by destruct (Hfr x Hx').
  - left. split; [done|]. split; [exact Hex|]. split.
    + intros q. rewrite Hcnt3, Hq. destruct (Z.eqb_spec (page_align q) (page_align old)) as [E|]; [|done].
      assert (Hnd : rn_count nd = u32 (count_of C old - 1)).
      { pose proof (Hq old) as Ho2. rewrite Z.eqb_refl in Ho2. unfold count_of at 1 in Ho2. by rewrite Hf in Ho2. }
      rewrite Hnd. unfold count_of at 2. rewrite E, (align_hash q old E). fold (count_of C old).
      unfold u32. rewrite Zplus_mod_idemp_l. rewrite Z.sub_add. by apply Z.mod_small.
    + intros l4 v H4. destruct (vm_same_trans _ _ _ _ Hs Hs3) as [_ Ht]. by apply Ht.
Qed.

(** The copy. *)
Lemma fault_copy s2 A2 C2 s3 new : fault_mid s A C N old s2 A2 C2 -> count_of C old <> 1 ->
  page_block new 0 -> pa_inv s3 ((new, 0) :: A2) -> (new, 0) ∉ A2 -> agree (in_block A2) (k_mem s2) (k_mem s3) ->
  same_statics s2 s3 -> (old, 0) ∈ A -> (forall x, within old 4096 x -> ~ in_nodes C x /\ ~ in_tables N x) ->
  wp (for_range 0 4096 (fun j => b ← load8 (old + j); store8 (new + j) b) ;;
      store64 (pt + 8 * i) (private_entry (Z.lor (Z.land new ADDR_MASK) (Z.land e 0xFFF))) ;; mret 0)
     (fun r s' => fault_post s A C N pml4 virt pt r s') s3.
Proof.
  intros Hm Hc Hnb Ha3 Hnew Hag3 Hst Hold Hown. pose proof Hm as [Hv Hsub Hs Ho Hq Hfr].
  assert (Hdj : forall b o, (b, o) ∈ A2 -> disj new 0 b o) by (intros b o; by apply (pa_new_disj s3 A2 new 0)).
  pose proof (Hdj old 0 (Hsub _ Hold)) as Hdo. unfold disj in Hdo. rewrite sz_0 in Hdo.
  apply wp_bind, wp_copy8; [lia|lia|]. intros m4 Hag4 Hcopy. apply wp_bind, wp_modify, wp_ret.
  set (s4 := set_mem m4 s3).
  assert (Hnewx : forall b o x, (b, o) ∈ A2 -> within b (sz o) x -> ~ within new 4096 x).
  { intros b o x Hb Hx Hw. specialize (Hdj b o Hb). unfold disj, within in *. rewrite sz_0 in Hdj. lia. }
  assert (Hag : agree (in_block A2) (k_mem s2) m4).
  { etrans; [exact Hag3|]. eapply agree_mono; [|exact Hag4]. intros x (b & o & Hb & Hx). by eapply Hnewx. }
  destruct (cow_vm_frame s2 s4 A2 ((new, 0) :: A2) C2 N Hv) as [Hv4 Hs4].
  { apply pa_write; [done|]. eapply agree_mono; [|exact Hag4]. intros x Hx Hw. apply Hx. exists new, 0. split; [left|exact Hw]. }
  { unfold s4. cbn [k_cow set_mem]. by destruct Hst as (_ & _ & -> & _). }
  { by apply list_subseteq_cons. }
  { eapply agree_mono; [|exact Hag]. intros x [(b & r & Hr & Hx)|(l & t & Ht & Hx)].
    - exists (rn_node r), 0. split; [by eapply (ct_own _ _ _ _ (proj2 (cv_cow _ _ _ _ Hv)))|exact Hx].
    - exists t, 0. split; [by eapply (cv_own _ _ _ _ Hv)|exact Hx]. }
  assert (Hm4 : fault_mid s A C N old s4 ((new, 0) :: A2) C2).
  { split; [done|intros z Hz; right; by apply Hsub|by eapply vm_same_trans| |done|done].
    etrans; [exact Ho|]. eapply agree_mono; [|exact Hag]. intros x ((b & o & Hb & Hx) & _ & _).
    exists b, o. split; [by apply Hsub|done]. }
  destruct Hnb as (_ & Hn0 & Hnm & Hnl). unfold PHYS_LIMIT in Hnl. rewrite sz_0 in Hnl.
  assert (He : 0 <= e < 2 ^ 64) by apply load64_bound.
  destruct (copied_entry_spec new e Hnm ltac:(lia) He) as (Hcb & Hcp & Hca). unfold copied_entry in *.
  destruct (private_entry_spec _ Hcb) as (Hb & Hp & Hw & Hcw & Haddr).
  destruct (fault_store s4 _ C2 (private_entry (Z.lor (Z.land new ADDR_MASK) (Z.land e 0xFFF))) Hm4 Hb) as [Hlast H];
    [by rewrite Hp, Hcp|]. apply H. clear H.
  split; [by rewrite Hp, Hcp|]. split; [done|]. split; [done|]. split; [by intros|]. intros _.
  rewrite Haddr, Hca. split; [left|]. split; [intros Hin; by apply Hnew, Hsub|]. intros j Hj.
  rewrite Hlast; [|intros (l & t & Ht & Hx); apply (Hnewx t 0 (new + j)); [by eapply (cv_own _ _ _ _ Hv)|exact Hx|unfold within; lia]].
  unfold s4. cbn [k_mem set_mem]. rewrite Hcopy by done.
  assert (Hoj : within old 4096 (old + j)) by (unfold within; lia).
  rewrite (Hag3 (old + j)) by (exists old, 0; split; [by apply Hsub|exact Hoj]).
  apply Ho. split; [exists old, 0; split; [done|exact Hoj]|]. by apply Hown.
Qed.

(** Finding the entry, and taking one reference off it. *)
Lemma fault_begin A1 C1 s1 nd : cow_vm s1 A1 C1 N -> ref_post s A C old (rn_node nd) s1 A1 C1 ->
  vm_same (k_mem s) (k_mem s1) N -> find_node (page_align old) (C1 (cow_hash old)) = Some nd ->
  rn_count nd = count_of C old ->
  let v := u32 (count_of C old - 1) in
  fault_mid s A C N old (set_mem (ref_cell (k_mem s1) (rn_node nd) v) s1) A1 (set_counts (rn_node nd) v C1).
Proof.
  intros Hv1 [Hi1 Hb Hm _ Hq Hfr] Hs1 Hf Hc v. destruct (find_node_Some _ _ _ Hf) as [Hnd _].
  pose proof (set_cell_ok s1 A1 C1 _ nd v Hi1 Hnd (u32_bound _)) as Hi2.
  pose proof (ref_cell_agree (k_mem s1) (rn_node nd) v) as Hag2. set (m2 := ref_cell _ _ _) in *. clearbody m2.
  assert (Hag : agree (fun x => ~ in_nodes C1 x) (k_mem s1) m2).
  { eapply agree_mono; [|exact Hag2]. intros x Hx Hw. apply Hx. exists (cow_hash old), nd. split; [done|].
    unfold within in *. lia. }
  destruct (cow_vm_node s1 m2 A1 C1 _ N Hv1 Hi2 (set_counts_nodes _ _ _) Hag) as [Hv2 Hs2].
  split; [exact Hv2|destruct Hb as [->|[-> _]]; [done|by apply list_subseteq_cons]|by eapply vm_same_trans| | |].
  - etrans; [eapply agree_mono; [|exact Hm]; by intros x [Hx _]|]. eapply agree_mono; [|exact Hag].
    intros x (Hx & Hn & _) Hx'. by destruct (Hfr x Hx').
  - intros q. rewrite (set_cell_count s1 A1 C1 old nd v q Hi1 Hf). by rewrite Hq.
  - intros x (b & r & (r' & -> & Hr)%list_elem_of_fmap & Hx). rewrite set_count_node in Hx.
    apply Hfr. by exists b, r'.
Qed.

(** The handler up to the test of the count. *)
Lemma fault_prefix s1 ref c : is_cow e = true -> 0 < pt -> 0 <= i -> cow_get_ref old s = Done ref s1 -> ref <> NULL ->
  load 4 (k_mem s1) (ref + REF_LOCK) = 0 -> load 4 (k_mem s1) (ref + REF_COUNT) = c ->
  cow_handle_fault pml4 virt s =
   (if c =? 1 then store64 (pt + 8 * i) (private_entry e) ;; mret 0
    else new ← buddy_alloc_pages 0 BUDDY_ZONE_UNMOVABLE;
         if new =? 0 then ref_add ref 1 ;; mret (-1) else
         for_range 0 4096 (fun j => b ← load8 (old + j); store8 (new + j) b) ;;
         store64 (pt + 8 * i) (private_entry (Z.lor (Z.land new ADDR_MASK) (Z.land e 0xFFF))) ;; mret 0)
     (set_mem (ref_cell (k_mem s1) ref (u32 (c - 1))) s1).
Proof.
  intros Hcow Hpt0 Hi Hrun Href Hl Hcnt. unfold cow_handle_fault, mbind, M_bind.
  rewrite cow_get_pte_exec, Hpt. fold i. rewrite (proj2 (Z.eqb_neq (pt + 8 * i) 0)) by lia.
  unfold load64, gets. change (load 8 (k_mem s) (pt + 8 * i)) with e. rewrite Hpres, Hcow. cbn [negb]. fold old.
  rewrite Hrun, (proj2 (Z.eqb_neq ref NULL)) by done.
  unfold spinlock_acquire, mbind, M_bind, load32, gets. rewrite Hl. cbn [Z.eqb].
  unfold store32 at 1, modify, gets. cbn [k_mem set_mem].
  rewrite load_store_ne by (unfold REF_COUNT, REF_LOCK; change (Z.of_nat 4) with 4; lia). rewrite Hcnt.
  destruct (c =? 1); reflexivity.
Qed.
End phase2.

(** C8: a write fault on a present copy-on-write page whose frame is owned and holds no
    node or table.  Either no page is left (nothing changes but the zero-count entry
    that may have been added), or the page becomes private: writable, no longer
    copy-on-write; a frame counted once is kept, a shared one is replaced by a fresh
    page with the same 4096 bytes; the frame's count drops by one, every other count
    stays; no other address is translated differently; no byte of a client changes.
    A page that is not mapped, or not copy-on-write, is refused unchanged. *)
Theorem cow_fault_correct s A C N pml4 virt : cow_vm s A C N -> (4, pml4) ∈ N ->
  match pt_of (k_mem s) pml4 virt with
  | None => cow_handle_fault pml4 virt s = Done (-1) s
  | Some pt =>
      let e := entry (k_mem s) pt (ADDR_PT_INDEX virt) in let old := Z.land e ADDR_MASK in
      if negb (present e && is_cow e) then cow_handle_fault pml4 virt s = Done (-1) s else
      (old, 0) ∈ A -> (forall x, within old 4096 x -> ~ in_nodes C x /\ ~ in_tables N x) ->
      exists r s', cow_handle_fault pml4 virt s = Done r s' /\
        (fault_post s A C N pml4 virt pt r s' \/ r = -1 /\ s' = s /\ exhausted s)
  end.
Proof.
  intros Hv Hin. destruct (pt_of (k_mem s) pml4 virt) as [pt|] eqn:Hpt; cycle 1.
  { unfold cow_handle_fault, mbind, M_bind. by rewrite cow_get_pte_exec, Hpt. }
  cbv zeta. set (e := entry (k_mem s) pt (ADDR_PT_INDEX virt)). set (old := Z.land e ADDR_MASK).
  pose proof (leaf_in _ _ _ _ _ (cv_tree _ _ _ _ Hv) Hin Hpt) as H1.
  pose proof (index_bound virt 12 : 0 <= ADDR_PT_INDEX virt < 512) as Bi.
  destruct (pa_block s A pt 0 (proj1 (cv_cow _ _ _ _ Hv)) (cv_own _ _ _ _ Hv _ _ H1)) as (_ & Hpt0 & _).
  destruct (present e && is_cow e) eqn:Ep; cbn [negb]; cycle 1.
  { unfold cow_handle_fault, mbind, M_bind. rewrite cow_get_pte_exec, Hpt, (proj2 (Z.eqb_neq (pt + _) 0)) by lia.
    unfold load64, gets. change (load 8 (k_mem s) (pt + 8 * ADDR_PT_INDEX virt)) with e.
    destruct (present e); [|done]. cbn [andb negb] in *. by rewrite Ep. }
  apply andb_true_iff in Ep as [Hp Hcow]. intros Hold Hown. destruct (mask_addr e) as [Hmb Hmm]. fold old in Hmb, Hmm.
  pose proof (cow_get_ref_vm s A C N old Hv (align_bound old ltac:(lia))) as H.
  apply wp_Done in H as (r & s1 & Hrun & Hcase).
  destruct Hcase as [(-> & -> & He)|(Hr & A1 & C1 & Hpost & Hv1 & Hs1)].
  { exists (-1), s. split; [|by right]. unfold cow_handle_fault, mbind, M_bind.
    rewrite cow_get_pte_exec, Hpt, (proj2 (Z.eqb_neq (pt + _) 0)) by lia.
    unfold load64, gets. change (load 8 (k_mem s) (pt + 8 * ADDR_PT_INDEX virt)) with e. rewrite Hp, Hcow. cbn [negb].
    fold old. by rewrite Hrun. }
  pose proof Hpost as [Hi1 _ _ (nd & Hf & Hnode & Hc) _ _]. subst r.
  destruct (find_node_Some _ _ _ Hf) as [Hnd _]. destruct (node_lock _ _ _ _ _ Hi1 Hnd) as [Hl Hcnt].
  pose proof (node_count_bound _ _ _ _ _ Hi1 Hnd) as Hcb. rewrite Hc in Hcb, Hcnt.
  pose proof (fault_begin s A C N virt pt A1 C1 s1 nd Hv1 Hpost Hs1 Hf Hc) as Hmid. cbv zeta in Hmid.
  rewrite (fault_prefix s pml4 virt pt Hpt Hp s1 _ _ Hcow Hpt0 (proj1 Bi) Hrun Hr Hl Hcnt).
  fold e old in Hmid |- *. set (s2 := set_mem _ s1) in *. clearbody s2.
  destruct (Z.eqb_spec (count_of C old) 1) as [E|Hne].
  { eexists 0, _. split; [reflexivity|]. left. by eapply (fault_single s A C N pml4 virt pt). }
  destruct (pa_alloc s2 A1 (proj1 (cv_cow _ _ _ _ (fm_vm _ _ _ _ _ _ _ _ Hmid)))) as (new & s3 & Hal & Hst & Hac).
  unfold mbind at 1, M_bind at 1. rewrite Hal. destruct Hac as [[-> ->]|(Hnb & Ha3 & Hnew & Hag3)].
  - cbn [Z.eqb]. assert (Hf2 : find_node (page_align old) (set_counts (rn_node nd) (u32 (count_of C old - 1)) C1 (cow_hash old))
        = Some (set_count_of (rn_node nd) (u32 (count_of C old - 1)) nd)) by (unfold set_counts; by rewrite find_set_count, Hf).
    destruct (fault_restore s A C N pml4 virt pt s2 A1 _ (set_count_of (rn_node nd) (u32 (count_of C old - 1)) nd) Hmid) as (s4 & Hadd & Hfp);
      [by exists s2|exact Hf2|done|]. rewrite set_count_node in Hadd.
    exists (-1), s4. unfold mbind, M_bind. rewrite Hadd. split; [done|by left].
  - rewrite (proj2 (Z.eqb_neq new 0)) by (destruct Hnb as (_ & ? & _); lia).
    pose proof (fault_copy s A C N pml4 virt pt Hin Hpt Hp s2 A1 _ s3 new Hmid Hne Hnb Ha3 Hnew Hag3 Hst Hold Hown) as H.
    apply wp_Done in H as (r & s4 & Hrun4 & Hfp). exists r, s4. split; [exact Hrun4|by left].
Qed.
End ops.

(** ** Witnesses: a shared page on the eleven-page machine *)

#[local] Instance demo_allocator : PageAllocator 0 (buddy_alloc_pages 0 BUDDY_ZONE_UNMOVABLE)
  (fun a => buddy_free_pages a 0) := buddy_allocator 0 BUDDY_ZONE_UNMOVABLE ltac:(done) ltac:(done).

(** An address space and one frame. *)
Definition demo_frame : Z := 0x108000.
Definition demo_owned : kst := final (pmm_alloc_frame demo_vm) boot_state.

Lemma demo_owned_inv : vm_inv demo_owned [(demo_frame, 0); (demo_root, 0)] [(4, demo_root)].
Proof.
  pose proof demo_vm_inv as [Ha Ht Ho].
  assert (Hrun : pmm_alloc_frame demo_vm = Done demo_frame demo_owned) by (apply run_final; vm_compute; reflexivity).
  destruct (pa_alloc (PageAllocator := pmm_allocator) demo_vm _ Ha) as (r & s' & Hrun' & _ & Hc).
  rewrite Hrun in Hrun'. apply Done_inj in Hrun' as [<- <-]. destruct Hc as [[H _]|(_ & Ha' & _ & Hag)].
  - exfalso. vm_compute in H. discriminate H.
  - split; [exact Ha'| |].
    + apply (tree_frame (k_mem demo_vm)); [done|]. intros l t Hin _. eapply agree_mono; [|exact Hag].
      intros x Hx. exists t, 0. split; [by eapply Ho|exact Hx].
    + intros l t Hin. right. by eapply Ho.
Qed.

(** The frame mapped copy-on-write at 0x400000. *)
Definition demo_mapped : kst := final (vmm_map_page demo_root 0x400000 demo_frame 0x207 demo_owned) boot_state.

Lemma demo_mapped_vm : exists A N, cow_vm demo_mapped A (fun _ => []) N /\ (4, demo_root) ∈ N /\
  (demo_frame, 0) ∈ A /\ forall x, within demo_frame 4096 x -> ~ in_nodes (fun _ => []) x /\ ~ in_tables N x.
Proof.
  pose proof (vmm_map_runs _ _ _ demo_root 0x400000 demo_frame 0x207 demo_owned_inv ltac:(left)) as H.
  assert (Hrun : vmm_map_page demo_root 0x400000 demo_frame 0x207 demo_owned = Done tt demo_mapped)
    by (apply run_final; vm_compute; reflexivity).
  unfold wp in H. rewrite Hrun in H. destruct H as (A & N & [[Ha _] Ht Ho] & HA & HN & Hfr & Hst & _).
  assert (Hn0 : forall b r, ~ r ∈ (fun _ : Z => @nil refnode) b) by (intros b r; apply not_elem_of_nil).
  exists A, N. split; [split|split; [apply HN; left|split; [apply HA; left|]]].
  - split; [exact Ha|]. apply empty_tab; destruct Hst as (_ & _ & -> & _); [intros b|]; by vm_compute.
  - exact Ht.
  - exact Ho.
  - intros b r l t Hr. by destruct (Hn0 b r).
  - intros x Hx. split; [intros (b & r & Hr & _); by destruct (Hn0 b r)|].
    intros (l & t & Hin & Hw). destruct (Hfr l t x Hin Hw) as [[= -> ->]%list_elem_of_singleton|Hn].
    + unfold within in *. change demo_frame with 0x108000 in Hx. unfold demo_root in Hw. lia.
    + apply Hn. exists demo_frame, 0. split; [left|exact Hx].
Qed.

Lemma demo_mapped_inv : exists A, cow_inv demo_mapped A (fun _ => []) /\ (demo_frame, 0) ∈ A.
Proof. destruct demo_mapped_vm as (A & N & Hv & _ & Hin & _). exists A. split; [apply Hv|exact Hin]. Qed.

(** The frame counted once. *)
Lemma demo_shared : exists s A C nd, cow_inv s A C /\
  find_node (page_align demo_frame) (C (cow_hash demo_frame)) = Some nd /\ count_of C demo_frame = 1 /\
  (page_align demo_frame, 0) ∈ A /\ forall b r, r ∈ C b -> rn_node r <> page_align demo_frame.
Proof.
  destruct demo_mapped_inv as (A & Hinv & Hin).
  pose proof (cow_get_ref_ok demo_mapped A _ demo_frame Hinv (align_bound demo_frame ltac:(vm_compute; split; done))) as H.
  apply wp_Done in H as (r & s1 & Hrun & [(Hr & Hs & _)|(Hr & A1 & C1 & [Hi Hb Hm (nd & Hf & Hn & Hc) Hq Hfr])]).
  { exfalso. assert (Hrr : result (cow_get_ref demo_frame demo_mapped) <> Some 0) by (vm_compute; discriminate).
    apply Hrr. rewrite Hrun. by rewrite Hr. }
  clear Hrun. subst r. destruct (ref_add_ok s1 A1 C1 demo_frame nd 1 Hi Hf) as (m' & _ & Hi' & _ & Hcnt).
  rewrite Hc in Hi', Hcnt. exists (set_mem m' s1), A1. eexists. exists (set_count_of (rn_node nd) 1 nd).
  split; [exact Hi'|]. split; [|split; [|split]].
  - unfold set_counts. by rewrite find_set_count, Hf.
  - by rewrite Hcnt, Z.eqb_refl.
  - destruct Hb as [->|[-> _]]; [exact Hin|by right].
  - intros b r (q & -> & Hqr)%list_elem_of_fmap. rewrite set_count_node. intros E.
    destruct (Hfr (rn_node q)) as [(b' & r' & Hr' & _)|Hout].
    + exists b, q. split; [exact Hqr|]. unfold within. lia.
    + by apply not_elem_of_nil in Hr'.
    + apply Hout. exists demo_frame, 0. split; [exact Hin|]. rewrite E. rewrite sz_0. unfold within.
      change (page_align demo_frame) with demo_frame. lia.
Qed.

Lemma cow_increment_correct_witness : exists s', cow_increment_ref demo_frame demo_mapped = Done tt s'.
Proof.
  destruct demo_mapped_inv as (A & Hinv & _).
  destruct (cow_increment_correct demo_mapped A _ demo_frame Hinv ltac:(vm_compute; split; done)) as (s' & H & _).
  exists s'. exact H.
Defined.

Lemma cow_count_correct_witness : exists s A C m', count_of C demo_frame = 1 /\
  cow_get_ref_count demo_frame s = Done 1 (set_mem m' s) /\ cow_inv s A C.
Proof.
  destruct demo_shared as (s & A & C & nd & Hinv & _ & Hc & _).
  destruct (cow_count_correct s A C demo_frame Hinv) as (m' & Hrun & _). rewrite Hc in Hrun.
  exists s, A, C, m'. split; [exact Hc|]. split; [exact Hrun|exact Hinv].
Defined.

Lemma cow_decrement_correct_witness : exists s A C s' A' C', cow_inv s A C /\ count_of C demo_frame = 1 /\
  cow_decrement_ref demo_frame s = Done tt s' /\ cow_inv s' A' C' /\ (demo_frame, 0) ∉ A'.
Proof.
  destruct demo_shared as (s & A & C & nd & Hinv & Hf & Hc & Hin & Hne).
  pose proof (cow_decrement_correct s A C demo_frame Hinv ltac:(vm_compute; split; done)) as H.
  rewrite Hf in H. destruct H as [_ H]. rewrite Hc in H.
  destruct (H eq_refl Hin Hne) as (s' & A' & C' & Hrun & Hi' & HA & _).
  exists s, A, C, s', A', C'. split; [exact Hinv|]. split; [exact Hc|]. split; [exact Hrun|]. split; [exact Hi'|].
  intros Hb. apply HA in Hb as (_ & Hb & _). apply Hb. reflexivity.
Defined.

Lemma cow_mark_correct_witness : exists r s', cow_mark_page demo_root 0x400000 demo_mapped = Done r s'.
Proof.
  destruct demo_mapped_vm as (A & N & Hv & Hroot & _).
  destruct (cow_mark_correct demo_mapped A _ N demo_root 0x400000
    (default 0 (pt_of (k_mem demo_mapped) demo_root 0x400000)) Hv Hroot) as (r & s' & H & _).
  - vm_compute. reflexivity.
  - vm_compute. reflexivity.
  - exists r, s'. exact H.
Defined.

Lemma cow_fault_correct_witness : exists r s', cow_handle_fault demo_root 0x400000 demo_mapped = Done r s'.
Proof.
  destruct demo_mapped_vm as (A & N & Hv & Hroot & Hin & Hout).
  pose proof (cow_fault_correct demo_mapped A _ N demo_root 0x400000 Hv Hroot) as H.
  destruct (pt_of (k_mem demo_mapped) demo_root 0x400000) as [pt|] eqn:Hpt.
  - assert (He : entry (k_mem demo_mapped) pt (ADDR_PT_INDEX 0x400000) = 0x108207).
    { assert (Hx : (p ← pt_of (k_mem demo_mapped) demo_root 0x400000;
                    Some (entry (k_mem demo_mapped) p (ADDR_PT_INDEX 0x400000))) = Some 0x108207)
        by (vm_compute; reflexivity).
      rewrite Hpt in Hx. exact (f_equal (default 0) Hx). }
    rewrite He in H. destruct (H Hin Hout) as (r & s' & Hrun & _). exists r, s'. exact Hrun.
  - exfalso. assert (Hx : pt_of (k_mem demo_mapped) demo_root 0x400000 <> None) by (vm_compute; discriminate).
    apply Hx. exact Hpt.
Defined.

Lemma cow_init_correct_witness : exists s', cow_init demo_mapped = Done tt s'.
Proof.
  destruct demo_mapped_inv as (A & Hinv & _).
  destruct (cow_init_correct demo_mapped A (proj1 Hinv)) as (s' & H & _).
  - intros b _. vm_compute. reflexivity.
  - exists s'. exact H.
Defined.
