(* ===== verification/KString.v ===== *)
(** kernel/lib/string.c: the byte-array and C-string functions over the modelled
    memory.  A C string is a list of non-zero bytes followed by a zero byte. *)
From S2P Require Import Prelude Machine.

#[local] Opaque load store.

Definition memset (dest c n : Z) : K Z :=
  for_range 0 n (fun i => store8 (dest + i) c) ;; mret dest.

Definition memcpy (dest src n : Z) : K Z :=
  for_range 0 n (fun i => b ← load8 (src + i); store8 (dest + i) b) ;; mret dest.

(** The second loop runs [i] from [n] down to 1. *)
Definition memmove (dest src n : Z) : K Z :=
  (if dest <? src then for_range 0 n (fun i => b ← load8 (src + i); store8 (dest + i) b)
   else if src <? dest then
     for_range 0 n (fun k => let i := n - k in b ← load8 (src + (i - 1)); store8 (dest + (i - 1)) b)
   else mret tt) ;;
  mret dest.

Definition memcmp (s1 s2 n : Z) : K Z :=
  while 0 (fun i =>
    if i <? n then
      a ← load8 (s1 + i);
      b ← load8 (s2 + i);
      mret (if negb (a =? b) then inr (a - b) else inl (i + 1))
    else mret (inr 0)).

Definition strlen (str : Z) : K Z :=
  while 0 (fun l =>
    if str =? NULL then mret (inr l) else
    c ← load8 (str + l);
    mret (if c =? 0 then inr l else inl (l + 1))).

(** [while ( *d++ = *src++ );] *)
Definition copy_through : Z * Z -> K ((Z * Z) + unit) := fun '(d, src) =>
  c ← load8 src;
  store8 d c ;;
  mret (if c =? 0 then inr tt else inl (d + 1, src + 1)).

Definition strcpy (dest src : Z) : K Z := while (dest, src) copy_through ;; mret dest.

Definition strncpy (dest src n : Z) : K Z :=
  i ← while 0 (fun i =>
    if i <? n then
      c ← load8 (src + i);
      if c =? 0 then mret (inr i) else store8 (dest + i) c ;; mret (inl (i + 1))
    else mret (inr i));
  for_range i n (fun i => store8 (dest + i) 0) ;;
  mret dest.

Definition strcmp (s1 s2 : Z) : K Z :=
  '(s1, s2) ← while (s1, s2) (fun '(s1, s2) =>
    a ← load8 s1;
    b ← load8 s2;
    mret (if negb (a =? 0) && (a =? b) then inl (s1 + 1, s2 + 1) else inr (s1, s2)));
  a ← load8 s1;
  b ← load8 s2;
  mret (a - b).

Definition strncmp (s1 s2 n : Z) : K Z :=
  while 0 (fun i =>
    if i <? n then
      a ← load8 (s1 + i);
      b ← load8 (s2 + i);
      mret (if negb (a =? b) || (a =? 0) || (b =? 0) then inr (a - b) else inl (i + 1))
    else mret (inr 0)).

Definition strcat (dest src : Z) : K Z :=
  d ← while dest (fun d => c ← load8 d; mret (if c =? 0 then inr d else inl (d + 1)));
  while (d, src) copy_through ;;
  mret dest.

(** ** Specifications *)

(** The string [l] stored at [a]. *)
Definition cstr (m : mem) (a : Z) (l : list Z) : Prop :=
  Forall (fun c => c <> 0) l /\
  forall i, (i <= length l)%nat -> mget m (a + Z.of_nat i) = nth i l 0.

(** [r] is the outcome of comparing [f] and [g] at the indices below [n]: the
    difference at the first index where they differ. *)
Definition compares (f g : nat -> Z) (n : nat) (r : Z) : Prop :=
  (r = 0 /\ forall i, (i < n)%nat -> f i = g i) \/
  exists i, (i < n)%nat /\ (forall j, (j < i)%nat -> f j = g j) /\ f i <> g i /\ r = f i - g i.

Lemma cstr_char m a l i : cstr m a l -> (i <= length l)%nat -> mget m (a + Z.of_nat i) = nth i l 0.
Proof. intros [_ H]. apply H. Qed.

Lemma cstr_end l i : Forall (fun c => c <> 0) l -> (i <= length l)%nat -> nth i l 0 = 0 -> i = length l.
Proof.
  intros Hn Hi Hz. destruct (decide (i < length l)%nat) as [Hlt|]; [|lia].
  pose proof (nth_In l 0 Hlt) as Hin. rewrite Hz in Hin. apply list_elem_of_In in Hin.
  rewrite Forall_forall in Hn. by destruct (Hn 0 Hin).
Qed.

Lemma cstr_frame m m' a l : agree (within a (Z.of_nat (length l) + 1)) m m' -> cstr m a l -> cstr m' a l.
Proof.
  intros Hag [Hn Hc]. split; [done|]. intros i Hi. rewrite Hag by (unfold within; lia). by apply Hc.
Qed.

(** Comparisons that reach the end of both strings compare the strings. *)
Lemma compares_eq l1 l2 r n : Forall (fun c => c <> 0) l1 -> Forall (fun c => c <> 0) l2 ->
  (length l1 < n)%nat -> compares (fun i => nth i l1 0) (fun i => nth i l2 0) n r -> r = 0 <-> l1 = l2.
Proof.
  intros H1 H2 Hn [[-> Heq]|(i & Hi & Heq & Hne & ->)]; split; try done; try lia.
  - intros _. assert (Hlen : length l1 = length l2).
    { destruct (decide (length l1 <= length l2)%nat) as [Hle|Hgt].
      - apply cstr_end; [done|done|]. rewrite <- Heq by done. by apply nth_overflow.
      - symmetry. apply cstr_end; [done|lia|]. rewrite Heq by lia. apply nth_overflow. lia. }
    apply (nth_ext _ _ 0 0 Hlen). intros i Hi. apply Heq. lia.
  - by intros ->.
Qed.

(** ** The array functions *)

(** [memset] writes the low byte of [c] to the [n] bytes at [dest] and to no other. *)
Theorem memset_correct dest c n s : 0 <= n -> exists m,
  memset dest c n s = Done dest (set_mem m s) /\ agree (fun x => ~ within dest n x) (k_mem s) m /\
  forall x, within dest n x -> mget m x = u8 c.
Proof.
  intros Hn. assert (H : wp (memset dest c n) (fun r s' => r = dest /\ exists m, s' = set_mem m s /\
    agree (fun x => ~ within dest n x) (k_mem s) m /\ forall x, within dest n x -> mget m x = u8 c) s).
  { unfold memset. apply wp_bind, wp_fill8; [done|]. intros m Hag Hm. apply wp_ret. split; [done|]. by exists m. }
  apply wp_Done in H as (r & s' & Hrun & -> & m & -> & H). by exists m.
Qed.

(** What a copy of [n] bytes promises. *)
Definition copied (m m' : mem) (dest src n : Z) : Prop :=
  agree (fun x => ~ within dest n x) m m' /\ forall i, 0 <= i < n -> mget m' (dest + i) = mget m (src + i).

(** One step of a copying loop. *)
Lemma wp_move b d sv (Q : unit -> kst -> Prop) s : mget (k_mem s) b = sv ->
  Q tt (set_mem (store 1 (k_mem s) d sv) s) -> wp (c ← load8 b; store8 d c) Q s.
Proof. intros <- H. apply wp_bind, wp_gets, wp_modify. by rewrite load1. Qed.

Lemma wp_forward dest src n s (Q : unit -> kst -> Prop) : 0 <= n -> dest <= src \/ src + n <= dest ->
  (forall m, copied (k_mem s) m dest src n -> Q tt (set_mem m s)) ->
  wp (for_range 0 n (fun i => b ← load8 (src + i); store8 (dest + i) b)) Q s.
Proof.
  intros Hn Hd HQ. apply (wp_for_range (fun i s' => exists m, s' = set_mem m s /\ copied (k_mem s) m dest src i)).
  - done.
  - exists (k_mem s). rewrite set_mem_id. split; [done|]. split; [done|lia].
  - intros i s' Hi (m & -> & Hag & Hc). eapply (wp_move _ _ (mget (k_mem s) (src + i))).
    { apply Hag. unfold within. lia. }
    eexists. split; [reflexivity|]. cbn [k_mem set_mem]. split.
    + intros x Hx. rewrite store1. unfold within in Hx. rewrite (proj2 (Z.eqb_neq x _)) by lia.
      apply Hag. unfold within. lia.
    + intros j Hj. rewrite store1. destruct (Z.eqb_spec (dest + j) (dest + i)) as [E|Hne].
      * assert (j = i) as -> by lia. apply u8_id, mget_bound.
      * apply Hc. lia.
  - intros s' (m & -> & Hc). by apply HQ.
Qed.

Lemma wp_backward dest src n s (Q : unit -> kst -> Prop) : 0 <= n -> src <= dest ->
  (forall m, copied (k_mem s) m dest src n -> Q tt (set_mem m s)) ->
  wp (for_range 0 n (fun k => let i := n - k in b ← load8 (src + (i - 1)); store8 (dest + (i - 1)) b)) Q s.
Proof.
  intros Hn Hd HQ. apply (wp_for_range (fun k s' => exists m, s' = set_mem m s /\
    agree (fun x => ~ within (dest + (n - k)) k x) (k_mem s) m /\
    forall i, n - k <= i < n -> mget m (dest + i) = mget (k_mem s) (src + i))).
  - done.
  - exists (k_mem s). rewrite set_mem_id. split; [done|]. split; [done|lia].
  - intros k s' Hk (m & -> & Hag & Hc). eapply (wp_move _ _ (mget (k_mem s) (src + (n - k - 1)))).
    { apply Hag. unfold within. lia. }
    eexists. split; [reflexivity|]. cbn [k_mem set_mem]. split.
    + intros x Hx. rewrite store1. unfold within in Hx. rewrite (proj2 (Z.eqb_neq x _)) by lia.
      apply Hag. unfold within. lia.
    + intros j Hj. rewrite store1. destruct (Z.eqb_spec (dest + j) (dest + (n - k - 1))) as [E|Hne].
      * assert (j = n - k - 1) as -> by lia. apply u8_id, mget_bound.
      * apply Hc. lia.
  - intros s' (m & -> & Hag & Hc). apply HQ. split.
    + eapply agree_mono; [|exact Hag]. unfold within. lia.
    + intros i Hi. apply Hc. lia.
Qed.

(** C17: [memmove] copies [n] bytes for every placement of the two ranges, overlapping
    or not; [memcpy] does so when the destination does not start inside the source
    range's tail it has still to read. *)
Theorem memmove_correct dest src n s : 0 <= n ->
  (exists m, memmove dest src n s = Done dest (set_mem m s) /\ copied (k_mem s) m dest src n) /\
  (dest <= src \/ src + n <= dest ->
     exists m, memcpy dest src n s = Done dest (set_mem m s) /\ copied (k_mem s) m dest src n).
Proof.
  intros Hn.
  assert (Hpost : forall c : K Z, wp c (fun r s' => r = dest /\ exists m, s' = set_mem m s /\ copied (k_mem s) m dest src n) s ->
    exists m, c s = Done dest (set_mem m s) /\ copied (k_mem s) m dest src n).
  { intros c H. apply wp_Done in H as (r & s' & Hrun & -> & m & -> & H). by exists m. }
  split; [|intros Hd]; apply Hpost.
  - unfold memmove. apply wp_bind. destruct (Z.ltb_spec dest src); [|destruct (Z.ltb_spec src dest)].
    + apply wp_forward; [done|lia|]. intros m Hm. apply wp_ret. split; [done|]. by exists m.
    + apply wp_backward; [done|lia|]. intros m Hm. apply wp_ret. split; [done|]. by exists m.
    + apply wp_ret, wp_ret. split; [done|]. exists (k_mem s). rewrite set_mem_id. split; [done|].
      split; [done|]. intros i Hi. f_equal. lia.
  - unfold memcpy. apply wp_bind, wp_forward; [done|done|]. intros m Hm. apply wp_ret. split; [done|]. by exists m.
Qed.

(** [memcmp] returns the difference at the first of the [n] positions where the
    arrays differ, 0 when there is none, and writes nothing. *)
Theorem memcmp_correct s1 s2 n s : (Z.of_nat n < 2 ^ 64) -> exists r,
  memcmp s1 s2 (Z.of_nat n) s = Done r s /\
  compares (fun i => mget (k_mem s) (s1 + Z.of_nat i)) (fun i => mget (k_mem s) (s2 + Z.of_nat i)) n r.
Proof.
  intros Hn. assert (H : wp (memcmp s1 s2 (Z.of_nat n)) (fun r s' => s' = s /\
    compares (fun i => mget (k_mem s) (s1 + Z.of_nat i)) (fun i => mget (k_mem s) (s2 + Z.of_nat i)) n r) s).
  { unfold memcmp. apply (wp_loop (fun d i s' => s' = s /\ exists k, i = Z.of_nat k /\ (k + d = n)%nat /\
      forall j, (j < k)%nat -> mget (k_mem s) (s1 + Z.of_nat j) = mget (k_mem s) (s2 + Z.of_nat j)) n); [|done|].
    - split; [done|]. exists 0%nat. split; [done|]. split; [done|lia].
    - intros d i s' (-> & k & -> & Hk & Heq). destruct (Z.ltb_spec (Z.of_nat k) (Z.of_nat n)).
      + apply wp_bind, wp_gets, wp_bind, wp_gets. rewrite !load1. apply wp_ret.
        destruct (Z.eqb_spec (mget (k_mem s) (s1 + Z.of_nat k)) (mget (k_mem s) (s2 + Z.of_nat k))) as [E|Hne].
        * cbn [negb]. exists (d - 1)%nat. split; [lia|]. split; [done|]. exists (S k). split; [lia|]. split; [lia|].
          intros j Hj. destruct (decide (j = k)) as [->|]; [done|]. apply Heq. lia.
        * cbn [negb]. split; [done|]. right. exists k. split; [lia|]. done.
      + apply wp_ret. split; [done|]. left. split; [done|]. intros j Hj. apply Heq. lia. }
  apply wp_Done in H as (r & s' & Hrun & -> & H). by exists r.
Qed.

(** ** The string functions *)

(** The end of a string, found one character at a time. *)
Lemma wp_find_end {X} (body : X -> K (X + X)) x0 (at_ : nat -> X) a l s (Q : X -> kst -> Prop) :
  x0 = at_ 0%nat -> cstr (k_mem s) a l -> Z.of_nat (length l) < 2 ^ 64 ->
  (forall k (Q' : X + X -> kst -> Prop),
     Q' (if mget (k_mem s) (a + Z.of_nat k) =? 0 then inr (at_ k) else inl (at_ (S k))) s -> wp (body (at_ k)) Q' s) ->
  Q (at_ (length l)) s -> wp (while x0 body) Q s.
Proof.
  intros -> Hc Hlen Hb HQ.
  apply (wp_loop (fun d x s' => s' = s /\ exists k, x = at_ k /\ (k + d = length l)%nat) (length l)); [|done|].
  - split; [done|]. by exists 0%nat.
  - intros d x s' (-> & k & -> & Hk). apply Hb. rewrite (cstr_char _ _ l) by (done || lia).
    destruct (Z.eqb_spec (nth k l 0) 0) as [E|Hne].
    + by rewrite (cstr_end l k (proj1 Hc) ltac:(lia) E).
    + assert (k <> length l) by (intros ->; apply Hne, nth_overflow; lia).
      exists (d - 1)%nat. split; [lia|]. split; [done|]. exists (S k). split; [done|lia].
Qed.

(** [strlen] of a stored string is its length; of NULL it is 0. *)
Theorem strlen_correct a l s : cstr (k_mem s) a l -> Z.of_nat (length l) < 2 ^ 64 ->
  strlen a s = Done (if a =? NULL then 0 else Z.of_nat (length l)) s.
Proof.
  intros Hc Hlen. assert (H : wp (strlen a) (fun r s' => s' = s /\ r = if a =? NULL then 0 else Z.of_nat (length l)) s).
  { unfold strlen. destruct (Z.eqb_spec a NULL) as [->|Hn].
    - apply (wp_loop (fun d x s' => s' = s /\ x = 0) 0); [done|done|]. intros d x s' [-> ->]. by apply wp_ret.
    - apply (wp_find_end _ 0 Z.of_nat a l); [done|done|done| |done]. intros k Q' HQ.
      apply wp_bind, wp_gets. rewrite load1. apply wp_ret. destruct (_ =? 0); [done|].
      by replace (Z.of_nat k + 1) with (Z.of_nat (S k)) by lia. }
  apply wp_Done in H as (r & s' & Hrun & -> & ->). exact Hrun.
Qed.

(** The copying loop of [strcpy] and [strcat]. *)
Lemma wp_copy_through d src l s (Q : unit -> kst -> Prop) : cstr (k_mem s) src l ->
  Z.of_nat (length l) < 2 ^ 64 ->
  d + Z.of_nat (length l) + 1 <= src \/ src + Z.of_nat (length l) + 1 <= d ->
  (forall m, copied (k_mem s) m d src (Z.of_nat (length l) + 1) -> Q tt (set_mem m s)) ->
  wp (while (d, src) copy_through) Q s.
Proof.
  intros Hc Hlen Hd HQ.
  apply (wp_loop (fun n x s' => exists k m, x = (d + Z.of_nat k, src + Z.of_nat k) /\ (k + n = length l)%nat /\
    s' = set_mem m s /\ copied (k_mem s) m d src (Z.of_nat k)) (length l)); [|done|].
  - exists 0%nat, (k_mem s). rewrite set_mem_id. split; [f_equal; lia|]. split; [done|]. split; [done|]. split; [done|lia].
  - intros n x s' (k & m & -> & Hk & -> & Hag & Hcp). unfold copy_through.
    apply wp_bind, wp_gets, wp_bind, wp_modify, wp_ret. cbn [k_mem set_mem]. rewrite load1.
    assert (Hch : mget m (src + Z.of_nat k) = nth k l 0).
    { rewrite Hag by (unfold within; lia). apply (cstr_char _ _ l); [done|lia]. }
    rewrite Hch. assert (Hnew : copied (k_mem s) (store 1 m (d + Z.of_nat k) (nth k l 0)) d src (Z.of_nat k + 1)).
    { split.
      - intros x Hx. rewrite store1. unfold within in Hx. rewrite (proj2 (Z.eqb_neq x _)) by lia.
        apply Hag. unfold within. lia.
      - intros i Hi. rewrite store1. destruct (Z.eqb_spec (d + i) (d + Z.of_nat k)) as [E|Hne].
        + assert (i = Z.of_nat k) as -> by lia. rewrite <- Hch, u8_id by apply mget_bound. apply Hag. unfold within. lia.
        + apply Hcp. lia. }
    destruct (Z.eqb_spec (nth k l 0) 0) as [E|Hne].
    + apply HQ. by rewrite <- (cstr_end l k (proj1 Hc) ltac:(lia) E).
    + assert (k <> length l) by (intros ->; apply Hne, nth_overflow; lia).
      exists (n - 1)%nat. split; [lia|]. eexists (S k), _. split; [f_equal; lia|]. split; [lia|]. split; [done|].
      by replace (Z.of_nat (S k)) with (Z.of_nat k + 1) by lia.
Qed.

Lemma copied_cstr m m' d src l : copied m m' d src (Z.of_nat (length l) + 1) -> cstr m src l -> cstr m' d l.
Proof.
  intros [_ H] [Hn Hc]. split; [done|]. intros i Hi. rewrite H by lia. by apply Hc.
Qed.

(** [strcpy] and [strcat] on stored strings that do not overlap: the destination
    then holds the source, or its old string followed by the source; the source
    still holds its string and nothing else changes. *)
Theorem strcpy_strcat_correct dest src ld ls s : cstr (k_mem s) src ls -> cstr (k_mem s) dest ld ->
  let n := Z.of_nat (length ld) in let k := Z.of_nat (length ls) in
  n < 2 ^ 64 -> k < 2 ^ 64 -> dest + n + k + 1 <= src \/ src + k + 1 <= dest ->
  (exists m, strcpy dest src s = Done dest (set_mem m s) /\ cstr m dest ls /\ cstr m src ls /\
     agree (fun x => ~ within dest (k + 1) x) (k_mem s) m) /\
  (exists m, strcat dest src s = Done dest (set_mem m s) /\ cstr m dest (ld ++ ls) /\ cstr m src ls /\
     agree (fun x => ~ within (dest + n) (k + 1) x) (k_mem s) m).
Proof.
  intros Hs Hd n k Hn Hk Hsep.
  assert (Hsrc : forall d m, (dest <= d <= dest + n) -> copied (k_mem s) m d src (k + 1) -> cstr m src ls).
  { intros d m Hb [Hag _]. apply (cstr_frame (k_mem s)); [|done]. eapply agree_mono; [|exact Hag].
    unfold within. fold k. lia. }
  split.
  - assert (H : wp (strcpy dest src) (fun r s' => r = dest /\ exists m, s' = set_mem m s /\
      copied (k_mem s) m dest src (k + 1)) s).
    { unfold strcpy. apply wp_bind, (wp_copy_through dest src ls); [done|done|fold k; lia|].
      intros m Hm. apply wp_ret. split; [done|]. by exists m. }
    apply wp_Done in H as (r & s' & Hrun & -> & m & -> & Hcp). exists m. split; [done|].
    split; [by eapply copied_cstr|]. split; [by apply (Hsrc dest); [lia|]|apply Hcp].
  - assert (H : wp (strcat dest src) (fun r s' => r = dest /\ exists m, s' = set_mem m s /\
      copied (k_mem s) m (dest + n) src (k + 1)) s).
    { unfold strcat. apply wp_bind.
      apply (wp_find_end _ dest (fun k => dest + Z.of_nat k) dest ld); [lia|done|done| |].
      - intros i Q' HQ. apply wp_bind, wp_gets. rewrite load1. apply wp_ret. destruct (_ =? 0); [done|].
        by replace (dest + Z.of_nat i + 1) with (dest + Z.of_nat (S i)) by lia.
      - fold n. apply wp_bind, (wp_copy_through (dest + n) src ls); [done|done|fold k; lia|].
        intros m Hm. apply wp_ret. split; [done|]. by exists m. }
    apply wp_Done in H as (r & s' & Hrun & -> & m & -> & Hcp). exists m. split; [done|].
    split; [|split; [by apply (Hsrc (dest + n)); [lia|]|apply Hcp]].
    pose proof (copied_cstr _ _ _ _ _ Hcp Hs) as [Hnz Hc]. split; [by apply Forall_app; split; [apply Hd|]|].
    intros i Hi. rewrite length_app in Hi. destruct (decide (i < length ld)%nat).
    + rewrite app_nth1 by done. destruct Hcp as [Hag _]. rewrite Hag by (unfold within; lia).
      apply (cstr_char _ _ ld); [done|lia].
    + rewrite app_nth2 by lia. rewrite <- Hc by lia. f_equal. lia.
Qed.

(** The first [k] characters of the padded string are written. *)
Definition ncopied (m m' : mem) (dest : Z) (l : list Z) (k : nat) : Prop :=
  agree (fun x => ~ within dest (Z.of_nat k) x) m m' /\
  forall i, (i < k)%nat -> mget m' (dest + Z.of_nat i) = nth i l 0.

Lemma ncopied_step m m' dest l k v : ncopied m m' dest l k -> v = nth k l 0 -> 0 <= v < 2 ^ 8 ->
  ncopied m (store 1 m' (dest + Z.of_nat k) v) dest l (S k).
Proof.
  intros [Hag Hc] Hv Hb. split.
  - intros x Hx. rewrite store1. unfold within in Hx. rewrite (proj2 (Z.eqb_neq x _)) by lia.
    apply Hag. unfold within. lia.
  - intros i Hi. rewrite store1. destruct (Z.eqb_spec (dest + Z.of_nat i) (dest + Z.of_nat k)).
    + assert (i = k) as -> by lia. by rewrite u8_id.
    + apply Hc. lia.
Qed.

Lemma wp_pad m dest l k n s (Q : unit -> kst -> Prop) : (k <= n)%nat -> k = n \/ k = length l ->
  ncopied m (k_mem s) dest l k -> (forall m', ncopied m m' dest l n -> Q tt (set_mem m' s)) ->
  wp (for_range (Z.of_nat k) (Z.of_nat n) (fun i => store8 (dest + i) 0)) Q s.
Proof.
  intros Hk Hkn Hm HQ.
  apply (wp_for_range (fun i s' => exists j m', i = Z.of_nat j /\ (k <= j)%nat /\ s' = set_mem m' s /\ ncopied m m' dest l j)).
  - lia.
  - exists k, (k_mem s). by rewrite set_mem_id.
  - intros i s' Hi (j & m' & -> & Hj & -> & Hc). apply wp_modify. cbn [k_mem set_mem].
    eexists (S j), _. split; [lia|]. split; [lia|]. split; [reflexivity|].
    apply ncopied_step; [done| |done]. by rewrite nth_overflow by lia.
  - intros s' (j & m' & Hj & _ & -> & Hc). apply Nat2Z.inj in Hj as <-. by apply HQ.
Qed.

(** [strncpy] writes exactly [n] bytes: the string's first [n] characters, padded
    with zeros when the string is shorter (and then the copy is the whole string). *)
Theorem strncpy_correct dest src l n s : cstr (k_mem s) src l -> Z.of_nat n < 2 ^ 64 ->
  dest + Z.of_nat n <= src \/ src + Z.of_nat (length l) + 1 <= dest ->
  exists m, strncpy dest src (Z.of_nat n) s = Done dest (set_mem m s) /\ ncopied (k_mem s) m dest l n /\
    ((length l < n)%nat -> cstr m dest l).
Proof.
  intros Hs Hn Hd.
  assert (H : wp (strncpy dest src (Z.of_nat n)) (fun r s' => r = dest /\ exists m, s' = set_mem m s /\
    ncopied (k_mem s) m dest l n) s).
  { unfold strncpy. apply wp_bind.
    assert (Hpad : forall k m, (k <= n)%nat -> k = n \/ k = length l -> ncopied (k_mem s) m dest l k ->
      wp (for_range (Z.of_nat k) (Z.of_nat n) (fun i => store8 (dest + i) 0) ;; mret dest)
        (fun r s' => r = dest /\ exists m, s' = set_mem m s /\ ncopied (k_mem s) m dest l n) (set_mem m s)).
    { intros k m Hk Hkn Hm. apply wp_bind, (wp_pad (k_mem s) dest l k n); [done|done|done|].
      intros m' Hm'. apply wp_ret. split; [done|]. by exists m'. }
    apply (wp_loop (fun d x s' => exists k m, x = Z.of_nat k /\ (k + d = n)%nat /\ (k <= length l)%nat /\
      s' = set_mem m s /\ ncopied (k_mem s) m dest l k) n); [|done|].
    - exists 0%nat, (k_mem s). rewrite set_mem_id. repeat split; try done; lia.
    - intros d x s' (k & m & -> & Hk & Hl & -> & Hm). pose proof Hm as [Hag _].
      destruct (Z.ltb_spec (Z.of_nat k) (Z.of_nat n)) as [Hlt|Hge]; [|apply wp_ret; apply Hpad; [lia|lia|done]].
      apply wp_bind, wp_gets. cbn [k_mem set_mem]. rewrite load1.
      assert (Hch : mget m (src + Z.of_nat k) = nth k l 0).
      { rewrite Hag by (unfold within; lia). by apply (cstr_char _ _ l). }
      rewrite Hch. destruct (Z.eqb_spec (nth k l 0) 0) as [E|Hne].
      { apply wp_ret. apply Hpad; [lia| |done]. right. apply cstr_end; [apply Hs|done|done]. }
      apply wp_bind, wp_modify, wp_ret. cbn [k_mem set_mem].
      assert (k <> length l) by (intros ->; apply Hne, nth_overflow; lia).
      exists (d - 1)%nat. split; [lia|]. eexists (S k), _. split; [lia|]. split; [lia|]. split; [lia|].
      split; [reflexivity|]. apply ncopied_step; [done|done|]. rewrite <- Hch. apply mget_bound. }
  apply wp_Done in H as (r & s' & Hrun & -> & m & -> & Hag & Hc). exists m. split; [done|]. split; [done|].
  intros Hlt. split; [apply Hs|]. intros i Hi. apply Hc. lia.
Qed.

(** Whatever the source holds, [strncpy] ends, having written only its [n] bytes. *)
Lemma wp_strncpy dest src n s (Q : Z -> kst -> Prop) : 0 <= n < 2 ^ 64 ->
  (forall m, agree (fun x => ~ within dest n x) (k_mem s) m -> Q dest (set_mem m s)) -> wp (strncpy dest src n) Q s.
Proof.
  intros Hn HQ. unfold strncpy. apply wp_bind.
  assert (Hpad : forall k m, 0 <= k <= n -> agree (fun x => ~ within dest n x) (k_mem s) m ->
    wp (for_range k n (fun i => store8 (dest + i) 0) ;; mret dest) Q (set_mem m s)).
  { intros k m Hk Hm. apply wp_bind.
    apply (wp_for_range (fun _ s' => exists m', s' = set_mem m' s /\ agree (fun x => ~ within dest n x) (k_mem s) m')); [lia| | |].
    - by exists m.
    - intros j s' Hj (m' & -> & Hm'). apply wp_modify. eexists. split; [reflexivity|]. etrans; [exact Hm'|].
      apply agree_store. intros x Hx Hw. change (Z.of_nat 1) with 1 in Hw. unfold within in *. lia.
    - intros s' (m' & -> & Hm'). apply wp_ret. by apply HQ. }
  apply (wp_loop (fun d i s' => 0 <= i <= n /\ Z.of_nat d = n - i /\ exists m, s' = set_mem m s /\
    agree (fun x => ~ within dest n x) (k_mem s) m) (Z.to_nat n)); [|lia|].
  - split; [lia|]. split; [lia|]. exists (k_mem s). by rewrite set_mem_id.
  - intros d i s' (Hi & Hd & m & -> & Hm). destruct (Z.ltb_spec i n); [|apply wp_ret; by apply Hpad].
    apply wp_bind, wp_gets. destruct (_ =? 0); [apply wp_ret; by apply Hpad|].
    apply wp_bind, wp_modify, wp_ret. exists (d - 1)%nat. split; [lia|]. split; [lia|]. split; [lia|].
    eexists. split; [reflexivity|]. etrans; [exact Hm|].
    apply agree_store. intros x Hx Hw. change (Z.of_nat 1) with 1 in Hw. unfold within in *. lia.
Qed.

(** ** Comparing strings *)
Section compare.
Context (a b : Z) (la lb : list Z) (s : kst).
Hypothesis Ha : cstr (k_mem s) a la.
Hypothesis Hb : cstr (k_mem s) b lb.

(** The first [k] characters are equal and none is the final zero. *)
Definition same_prefix (k : nat) : Prop :=
  forall j, (j < k)%nat -> nth j la 0 = nth j lb 0 /\ nth j la 0 <> 0.

Lemma prefix_chars k : same_prefix k ->
  mget (k_mem s) (a + Z.of_nat k) = nth k la 0 /\ mget (k_mem s) (b + Z.of_nat k) = nth k lb 0 /\ (k <= length la)%nat.
Proof.
  intros Hk. assert (Hle : forall l, (forall j, (j < k)%nat -> nth j l 0 <> 0) -> (k <= length l)%nat).
  { intros l Hl. destruct (decide (k <= length l)%nat) as [|Hgt]; [done|]. exfalso.
    apply (Hl (length l)); [lia|]. apply nth_overflow. lia. }
  assert (k <= length la)%nat by (apply Hle; intros j Hj; apply (Hk j Hj)).
  assert (k <= length lb)%nat by (apply Hle; intros j Hj; destruct (Hk j Hj) as [<- ?]; done).
  split; [by apply (cstr_char _ _ la)|]. split; [by apply (cstr_char _ _ lb)|done].
Qed.

Lemma prefix_step k : same_prefix k -> nth k la 0 = nth k lb 0 -> nth k la 0 <> 0 -> same_prefix (S k).
Proof. intros Hk E Hn j Hj. destruct (decide (j = k)) as [->|]; [done|]. apply Hk. lia. Qed.

(** The comparison ends at [k]: the characters differ, or both strings end there. *)
Lemma prefix_stop k n : same_prefix k -> (k < n <= S (length la))%nat ->
  nth k la 0 <> nth k lb 0 \/ nth k la 0 = 0 ->
  compares (fun i => nth i la 0) (fun i => nth i lb 0) n (nth k la 0 - nth k lb 0).
Proof.
  intros Hk Hn Hstop. destruct (decide (nth k la 0 = nth k lb 0)) as [E|Hne].
  - left. split; [lia|]. intros j Hj. destruct (decide (j = k)) as [->|]; [done|]. apply Hk.
    destruct Hstop as [|Z0]; [done|]. destruct (prefix_chars k Hk) as (_ & _ & Hle).
    pose proof (cstr_end la k (proj1 Ha) Hle Z0). lia.
  - right. exists k. split; [lia|]. split; [intros j Hj; by apply Hk|done].
Qed.

Lemma strcmp_runs : Z.of_nat (length la) < 2 ^ 64 ->
  wp (strcmp a b) (fun r s' => s' = s /\ compares (fun i => nth i la 0) (fun i => nth i lb 0) (S (length la)) r) s.
Proof.
  intros Hlen. unfold strcmp. apply wp_bind.
  apply (wp_loop (fun d x s' => s' = s /\ exists k, x = (a + Z.of_nat k, b + Z.of_nat k) /\
    (k + d = length la)%nat /\ same_prefix k) (length la)); [|done|].
  - split; [done|]. exists 0%nat. split; [f_equal; lia|]. split; [done|]. intros j Hj. lia.
  - intros d x s' (-> & k & -> & Hk & Heq). destruct (prefix_chars k Heq) as (E1 & E2 & Hle).
    apply wp_bind, wp_gets, wp_bind, wp_gets. rewrite !load1, E1, E2. apply wp_ret.
    destruct (negb (nth k la 0 =? 0) && (nth k la 0 =? nth k lb 0)) eqn:Ec.
    + apply andb_true_iff in Ec as [Hnz%negb_true_iff%Z.eqb_neq E%Z.eqb_eq].
      assert (k <> length la) by (intros ->; apply Hnz, nth_overflow; lia).
      exists (d - 1)%nat. split; [lia|]. split; [done|]. exists (S k). split; [f_equal; lia|]. split; [lia|].
      by apply prefix_step.
    + apply wp_bind, wp_gets, wp_bind, wp_gets. rewrite !load1, E1, E2. apply wp_ret. split; [done|].
      apply prefix_stop; [done|lia|]. apply andb_false_iff in Ec as [H%negb_false_iff%Z.eqb_eq|H%Z.eqb_neq]; auto.
Qed.

Lemma strncmp_runs n : Z.of_nat n < 2 ^ 64 ->
  wp (strncmp a b (Z.of_nat n)) (fun r s' => s' = s /\
    compares (fun i => nth i la 0) (fun i => nth i lb 0) (min n (S (length la))) r) s.
Proof.
  intros Hn. unfold strncmp.
  apply (wp_loop (fun d x s' => s' = s /\ exists k, x = Z.of_nat k /\ (k + d = n)%nat /\ same_prefix k) n); [|done|].
  - split; [done|]. exists 0%nat. split; [done|]. split; [done|]. intros j Hj. lia.
  - intros d x s' (-> & k & -> & Hk & Heq). destruct (prefix_chars k Heq) as (E1 & E2 & Hle).
    destruct (Z.ltb_spec (Z.of_nat k) (Z.of_nat n)); cycle 1.
    { apply wp_ret. split; [done|]. left. split; [done|]. intros j Hj. apply Heq. lia. }
    apply wp_bind, wp_gets, wp_bind, wp_gets. rewrite !load1, E1, E2. apply wp_ret.
    destruct (Z.eqb_spec (nth k la 0) (nth k lb 0)) as [E|Hne]; cbn [negb orb].
    + rewrite <- E. destruct (Z.eqb_spec (nth k la 0) 0) as [Z0|Hnz]; cbn [orb].
      * split; [done|]. rewrite E at 2. apply prefix_stop; [done|lia|by right].
      * exists (d - 1)%nat. split; [lia|]. split; [done|]. exists (S k).
        split; [lia|]. split; [lia|]. by apply prefix_step.
    + split; [done|]. apply prefix_stop; [done|lia|by left].
Qed.
End compare.

(** C18: [strcmp] compares whole strings and [strncmp] their first [n] characters: each
    returns the difference of the first characters that differ, a shorter string
    ending in a zero; [strcmp] is 0 exactly for equal strings. *)
Theorem strcmp_correct a b la lb s : cstr (k_mem s) a la -> cstr (k_mem s) b lb -> Z.of_nat (length la) < 2 ^ 64 ->
  (exists r, strcmp a b s = Done r s /\
     compares (fun i => nth i la 0) (fun i => nth i lb 0) (S (length la)) r /\ (r = 0 <-> la = lb)) /\
  (forall n, Z.of_nat n < 2 ^ 64 -> exists r, strncmp a b (Z.of_nat n) s = Done r s /\
     compares (fun i => nth i la 0) (fun i => nth i lb 0) (min n (S (length la))) r).
Proof.
  intros Ha Hb Hla. split.
  - pose proof (strcmp_runs a b la lb s Ha Hb Hla) as H. apply wp_Done in H as (r & s' & Hrun & -> & Hr).
    exists r. split; [done|]. split; [done|].
    apply (compares_eq _ _ _ (S (length la))); [apply Ha|apply Hb|lia|done].
  - intros n Hn. pose proof (strncmp_runs a b la lb s Ha Hb n Hn) as H.
    apply wp_Done in H as (r & s' & Hrun & -> & Hr). by exists r.
Qed.

(** ** Witnesses: two strings in memory *)

(** "ab" at 100 and "a" at 200. *)
Definition demo_text : kst := set_mem (store 1 (store 1 (store 1 ∅ 100 97) 101 98) 200 97) boot_state.

Lemma demo_ab : cstr (k_mem demo_text) 100 [97; 98].
Proof. split; [by repeat constructor|]. intros i Hi. do 3 (destruct i as [|i]; [by vm_compute|]). simpl in Hi. lia. Qed.
Lemma demo_a : cstr (k_mem demo_text) 200 [97].
Proof. split; [by repeat constructor|]. intros i Hi. do 2 (destruct i as [|i]; [by vm_compute|]). simpl in Hi. lia. Qed.

Lemma memset_correct_witness : exists m, memset 300 65 16 demo_text = Done 300 (set_mem m demo_text) /\ mget m 307 = 65.
Proof.
  destruct (memset_correct 300 65 16 demo_text ltac:(lia)) as (m & Hrun & _ & Hm). exists m. split; [exact Hrun|].
  rewrite Hm by (unfold within; lia). reflexivity.
Defined.

Lemma memmove_correct_witness : exists m, memmove 101 100 2 demo_text = Done 101 (set_mem m demo_text) /\
  mget m 102 = 98.
Proof.
  destruct (memmove_correct 101 100 2 demo_text ltac:(lia)) as [(m & Hrun & _ & Hm) _]. exists m. split; [exact Hrun|].
  etransitivity; [exact (Hm 1 ltac:(lia))|]. vm_compute. reflexivity.
Defined.

Lemma memcmp_correct_witness : exists r, memcmp 100 200 (Z.of_nat 1) demo_text = Done r demo_text.
Proof. destruct (memcmp_correct 100 200 1 demo_text ltac:(lia)) as (r & H & _). exists r. exact H. Defined.

Lemma strlen_correct_witness : strlen 100 demo_text = Done 2 demo_text.
Proof. exact (strlen_correct 100 [97; 98] demo_text demo_ab ltac:(vm_compute; reflexivity)). Defined.

Lemma strcpy_strcat_correct_witness : exists m, strcat 200 100 demo_text = Done 200 (set_mem m demo_text) /\
  cstr m 200 [97; 97; 98].
Proof.
  destruct (strcpy_strcat_correct 200 100 [97] [97; 98] demo_text demo_ab demo_a ltac:(vm_compute; reflexivity)
    ltac:(vm_compute; reflexivity) ltac:(right; vm_compute; discriminate)) as [_ (m & H1 & H2 & _)].
  exists m. split; [exact H1|exact H2].
Defined.

Lemma strncpy_correct_witness : exists m, strncpy 300 100 (Z.of_nat 8) demo_text = Done 300 (set_mem m demo_text) /\
  cstr m 300 [97; 98].
Proof.
  destruct (strncpy_correct 300 100 [97; 98] 8 demo_text demo_ab ltac:(vm_compute; reflexivity)
    ltac:(right; vm_compute; discriminate)) as (m & H1 & _ & H2).
  exists m. split; [exact H1|]. apply H2. simpl. lia.
Defined.

Lemma strcmp_correct_witness : exists r, strcmp 100 200 demo_text = Done r demo_text /\ r <> 0.
Proof.
  destruct (strcmp_correct 100 200 [97; 98] [97] demo_text demo_ab demo_a ltac:(vm_compute; reflexivity))
    as [(r & H1 & _ & H2) _].
  exists r. split; [exact H1|]. intros E. apply H2 in E. discriminate E.
Defined.
