(* ===== verification/Spinlock.v ===== *)
(** kernel/core/spinlock.c and kernel/atomic.h, with any number of threads on the
    x86 memory model: each thread has a FIFO buffer of its own stores, a locked
    instruction and a fence wait until it is drained.  The theorems justify the
    sequential reading of the locks in the other files: the code between acquire and
    release runs as if no other thread existed. *)
From S2P Require Import Prelude Machine.

Abbreviation thread := nat.

(** ** The hardware *)

(** Shared memory and store buffers, oldest store first. *)
Record hw := mkHw { hw_mem : Z -> Z; hw_buf : thread -> list (Z * Z) }.

Definition upd {A B} `{EqDecision A} (f : A -> B) (a : A) (v : B) : A -> B :=
  fun x => if decide (x = a) then v else f x.

(** What the owner of the buffer [b] reads. *)
Fixpoint view (m : Z -> Z) (b : list (Z * Z)) : Z -> Z :=
  match b with
  | [] => m
  | (a, v) :: b => view (upd m a v) b
  end.

(** [lock cmpxchgl]: the previous value and the memory afterwards; only with a
    drained buffer. *)
Definition atomic_compare_and_swap (m : Z -> Z) (ptr expected desired : Z) : Z * (Z -> Z) :=
  (m ptr, if m ptr =? expected then upd m ptr desired else m).

(** [lock xaddl]: likewise; nothing in the kernel calls it. *)
Definition atomic_fetch_and_add (m : Z -> Z) (ptr value : Z) : Z * (Z -> Z) := (m ptr, upd m ptr (u32 (m ptr + value))).

(** [movl] from memory *)
Definition atomic_load (h : hw) (i : thread) (ptr : Z) : Z := view (hw_mem h) (hw_buf h i) ptr.

(** [movl] to memory *)
Definition atomic_store (h : hw) (i : thread) (ptr value : Z) : hw :=
  mkHw (hw_mem h) (upd (hw_buf h) i (hw_buf h i ++ [(ptr, value)])).

(** [mfence] completes only when the thread's buffer is drained. *)
Definition memory_barrier (h : hw) (i : thread) : Prop := hw_buf h i = [].

(** ** The lock, one machine step at a time *)

Inductive pc :=
  | Outside                  (* not using the lock *)
  | AcquireCas               (* spinlock_acquire, before the compare-and-swap *)
  | AcquireSpin              (* its inner loop, before the load *)
  | AcquireFence             (* its memory_barrier *)
  | TryCas                   (* spinlock_try_acquire, before the compare-and-swap *)
  | TryFence                 (* its memory_barrier *)
  | Inside                   (* between acquire and release *)
  | ReleaseFence             (* spinlock_release, its memory_barrier *)
  | ReleaseStore.            (* before the store of 0 *)

(** What a thread does to the data that the lock protects. *)
Inductive event := Read (i : thread) (a v : Z) | Write (i : thread) (a v : Z).

Record conf := mkConf { c_hw : hw; c_pc : thread -> pc }.

Section lock.
Context (L : Z).    (* &lock->locked *)

Definition at_pc (c : conf) (i : thread) (p : pc) : conf := mkConf (c_hw c) (upd (c_pc c) i p).
Definition with_mem (c : conf) (m : Z -> Z) : conf := mkConf (mkHw m (hw_buf (c_hw c))) (c_pc c).

(** One step of [spinlock_acquire]: where the thread is next, and the memory. *)
Definition spinlock_acquire_step (c : conf) (i : thread) : conf -> Prop := fun c' =>
  match c_pc c i with
  | AcquireCas => memory_barrier (c_hw c) i /\
      let '(prev, m) := atomic_compare_and_swap (hw_mem (c_hw c)) L 0 1 in
      c' = at_pc (with_mem c m) i (if negb (prev =? 0) then AcquireSpin else AcquireFence)
  | AcquireSpin =>
      c' = at_pc c i (if negb (atomic_load (c_hw c) i L =? 0) then AcquireSpin else AcquireCas)
  | AcquireFence => memory_barrier (c_hw c) i /\ c' = at_pc c i Inside
  | _ => False
  end.

Definition spinlock_try_acquire_step (c : conf) (i : thread) : conf -> Prop := fun c' =>
  match c_pc c i with
  | TryCas => memory_barrier (c_hw c) i /\
      let '(prev, m) := atomic_compare_and_swap (hw_mem (c_hw c)) L 0 1 in
      c' = at_pc (with_mem c m) i (if prev =? 0 then TryFence else Outside)
  | TryFence => memory_barrier (c_hw c) i /\ c' = at_pc c i Inside
  | _ => False
  end.

Definition spinlock_release_step (c : conf) (i : thread) : conf -> Prop := fun c' =>
  match c_pc c i with
  | ReleaseFence => memory_barrier (c_hw c) i /\ c' = at_pc c i ReleaseStore
  | ReleaseStore => c' = at_pc (mkConf (atomic_store (c_hw c) i L 0) (c_pc c)) i Outside
  | _ => False
  end.

Inductive step : conf -> list event -> conf -> Prop :=
  | st_call i p c : c_pc c i = Outside -> p = AcquireCas \/ p = TryCas -> step c [] (at_pc c i p)
  | st_acquire i c c' : spinlock_acquire_step c i c' -> step c [] c'
  | st_try i c c' : spinlock_try_acquire_step c i c' -> step c [] c'
  | st_read i a c : c_pc c i = Inside -> a <> L ->
      step c [Read i a (atomic_load (c_hw c) i a)] c
  | st_write i a v c : c_pc c i = Inside -> a <> L ->
      step c [Write i a v] (mkConf (atomic_store (c_hw c) i a v) (c_pc c))
  | st_leave i c : c_pc c i = Inside -> step c [] (at_pc c i ReleaseFence)
  | st_release i c c' : spinlock_release_step c i c' -> step c [] c'
  | st_flush i a v b c : hw_buf (c_hw c) i = (a, v) :: b ->
      step c [] (mkConf (mkHw (upd (hw_mem (c_hw c)) a v) (upd (hw_buf (c_hw c)) i b)) (c_pc c)).

(** Executions, with the accesses to the protected data in order. *)
Inductive exec (c0 : conf) : list event -> conf -> Prop :=
  | ex_nil : exec c0 [] c0
  | ex_step tr c evs c' : exec c0 tr c -> step c evs c' -> exec c0 (tr ++ evs) c'.

(** After [spinlock_init]: the word is 0, nothing is buffered, nobody is using it. *)
Definition spinlock_init_conf (m : Z -> Z) : conf := mkConf (mkHw (upd m L 0) (fun _ => [])) (fun _ => Outside).

(** The sequential meaning of the accesses: each read sees the last write before it. *)
Fixpoint memory_after (m : Z -> Z) (tr : list event) : Z -> Z :=
  match tr with
  | [] => m
  | Read _ _ _ :: tr => memory_after m tr
  | Write _ a v :: tr => memory_after (upd m a v) tr
  end.

(** ** The invariant *)

(** The thread does not use the lock, or is still waiting for it. *)
Definition waiting (p : pc) : bool :=
  match p with Outside | AcquireCas | AcquireSpin | TryCas => true | _ => false end.

(** The buffer of the thread that holds the lock: the data it wrote, or the store
    that gives the lock back. *)
Definition holder_buf (p : pc) (b : list (Z * Z)) : Prop :=
  match p with
  | Inside | ReleaseFence => Forall (fun w => w.1 <> L) b
  | AcquireFence | TryFence | ReleaseStore => b = []
  | _ => b = [(L, 0)]
  end.

(** [g] is the protected data as its accesses so far define it. *)
Inductive lock_inv (g : Z -> Z) (c : conf) : Prop :=
  | li_free : hw_mem (c_hw c) L = 0 -> (forall i, hw_buf (c_hw c) i = [] /\ waiting (c_pc c i) = true) ->
      (forall a, a <> L -> hw_mem (c_hw c) a = g a) -> lock_inv g c
  | li_held h : hw_mem (c_hw c) L = 1 ->
      (forall i, i <> h -> hw_buf (c_hw c) i = [] /\ waiting (c_pc c i) = true) ->
      holder_buf (c_pc c h) (hw_buf (c_hw c) h) ->
      (forall a, a <> L -> atomic_load (c_hw c) h a = g a) -> lock_inv g c.

Lemma upd_eq {A B} `{EqDecision A} (f : A -> B) a v : upd f a v a = v.
Proof. unfold upd. by rewrite decide_True. Qed.
Lemma upd_ne {A B} `{EqDecision A} (f : A -> B) a v x : x <> a -> upd f a v x = f x.
Proof. intros. unfold upd. by rewrite decide_False. Qed.

(** The values that [n] additions of 1 to a counter return, by whatever threads. *)
Fixpoint tickets (n : nat) (m : Z -> Z) (ptr : Z) : list Z :=
  match n with
  | O => []
  | S n => let '(prev, m') := atomic_fetch_and_add m ptr 1 in prev :: tickets n m' ptr
  end.

(** A counter of requests hands out consecutive numbers, modulo 2^32: no two of fewer than
    2^32 requests get the same one. *)
Lemma tickets_are n m ptr : 0 <= m ptr < 2 ^ 32 -> tickets n m ptr = (fun k => u32 (m ptr + k)) <$> seqZ 0 (Z.of_nat n).
Proof.
  revert m. induction n as [|n IH]; intros m Hm; [done|]. cbn [tickets atomic_fetch_and_add]. rewrite IH by (rewrite upd_eq; apply u32_bound).
  rewrite upd_eq. rewrite (seqZ_cons 0 (Z.of_nat (S n))) by lia. cbn [fmap list_fmap]. rewrite Z.add_0_r, (u32_id (m ptr)) by done. f_equal.
  replace (Z.pred (Z.of_nat (S n))) with (Z.of_nat n) by lia. change (Z.succ 0) with (1 + 0). rewrite <- (fmap_add_seqZ 1 0), <- list_fmap_compose. apply list_fmap_ext. intros _ k _. cbn.
  unfold u32. rewrite Zplus_mod_idemp_l. f_equal. lia.
Qed.

Lemma tickets_distinct n m ptr : 0 <= m ptr < 2 ^ 32 -> Z.of_nat n <= 2 ^ 32 -> NoDup (tickets n m ptr).
Proof.
  intros Hm Hn. rewrite tickets_are by done. apply NoDup_fmap_2_strong; [|apply NoDup_seqZ]. intros j k Hj%elem_of_seqZ Hk%elem_of_seqZ E.
  unfold u32 in E. pose proof (Z.div_mod (m ptr + j) (2 ^ 32) ltac:(lia)). pose proof (Z.div_mod (m ptr + k) (2 ^ 32) ltac:(lia)). nia.
Qed.

Lemma view_app m b a v x : view m (b ++ [(a, v)]) x = if decide (x = a) then v else view m b x.
Proof.
  revert m. induction b as [|[a' v'] b IH]; intros m; simpl; [|apply IH]. done.
Qed.
Lemma view_ext m m' b x : (forall y, y = x -> m y = m' y) -> view m b x = view m' b x.
Proof.
  revert m m'. induction b as [|[a v] b IH]; intros m m' H; simpl; [by apply H|].
  apply IH. intros y ->. unfold upd. case_decide; [done|by apply H].
Qed.
Lemma view_other m b x : Forall (fun w => w.1 <> x) b -> view m b x = m x.
Proof.
  intros H. revert m. induction H as [|[a v] b Hne _ IH]; intros m; simpl; [done|].
  rewrite IH. apply upd_ne. by apply not_eq_sym.
Qed.

(** A thread that is past its compare-and-swap holds the lock. *)
Lemma holder_unique g c i : lock_inv g c -> waiting (c_pc c i) = false ->
  hw_mem (c_hw c) L = 1 /\ (forall j, j <> i -> hw_buf (c_hw c) j = [] /\ waiting (c_pc c j) = true) /\
  holder_buf (c_pc c i) (hw_buf (c_hw c) i) /\ forall a, a <> L -> atomic_load (c_hw c) i a = g a.
Proof.
  intros [Hm Hall Hg|h Hm Hall Hb Hg] Hw; [destruct (Hall i) as [_ E]; congruence|].
  assert (i = h) as ->; [|done]. destruct (decide (i = h)) as [|Hne]; [done|]. destruct (Hall i Hne). congruence.
Qed.

(** The program counter of one thread moves; nothing else does. *)
Lemma inv_at_pc g c i p : lock_inv g c ->
  (waiting (c_pc c i) = true -> waiting p = true) ->
  (forall b, holder_buf (c_pc c i) b -> b = hw_buf (c_hw c) i -> holder_buf p b) -> lock_inv g (at_pc c i p).
Proof.
  intros [Hm Hall Hg|h Hm Hall Hb Hg] Hw Hh; [left|apply (li_held g _ h)]; try done; cbn [c_hw c_pc at_pc].
  - intros j. destruct (Hall j) as [? ?]. split; [done|].
    destruct (decide (j = i)) as [->|]; [rewrite upd_eq; auto|by rewrite upd_ne].
  - intros j Hj. destruct (Hall j Hj) as [? ?]. split; [done|].
    destruct (decide (j = i)) as [->|]; [rewrite upd_eq; auto|by rewrite upd_ne].
  - destruct (decide (h = i)) as [->|]; [rewrite upd_eq; by apply Hh|by rewrite upd_ne].
Qed.

(** A drained thread tries the compare-and-swap: it gets the lock, or nothing changes. *)
Lemma inv_cas g c i p q : lock_inv g c -> memory_barrier (c_hw c) i -> waiting (c_pc c i) = true ->
  waiting p = true -> q = AcquireFence \/ q = TryFence ->
  let '(prev, m) := atomic_compare_and_swap (hw_mem (c_hw c)) L 0 1 in
  lock_inv g (at_pc (with_mem c m) i (if prev =? 0 then q else p)).
Proof.
  intros Hinv Hb Hw Hp Hq. unfold atomic_compare_and_swap, memory_barrier in *.
  destruct Hinv as [Hm Hall Hg|h Hm Hall Hbuf Hg]; rewrite Hm; cbn [Z.eqb Pos.eqb].
  - apply (li_held g _ i); cbn [c_hw c_pc at_pc with_mem hw_mem hw_buf].
    + apply upd_eq.
    + intros j Hj. rewrite upd_ne by done. apply Hall.
    + rewrite upd_eq, Hb. by destruct Hq as [-> | ->].
    + intros a Ha. unfold atomic_load. cbn. rewrite Hb. cbn [view]. rewrite upd_ne by done. by apply Hg.
  - assert (h <> i) by (intros ->; rewrite Hb in Hbuf; by destruct (c_pc c i)).
    destruct c as [[m b] pcs]. apply (inv_at_pc g (mkConf (mkHw m b) pcs)); [by apply (li_held g _ h)|done|].
    cbn [c_pc c_hw hw_buf] in *. intros b' Hb' ->. rewrite Hb in Hb'. by destruct (pcs i).
Qed.

Lemma inv_acquire g c i c' : lock_inv g c -> spinlock_acquire_step c i c' -> lock_inv g c'.
Proof.
  intros Hinv H. unfold spinlock_acquire_step in H. destruct (c_pc c i) eqn:Ep; try done.
  - destruct H as [Hb ->]. pose proof (inv_cas g c i AcquireSpin AcquireFence Hinv Hb) as Hc. rewrite Ep in Hc.
    unfold atomic_compare_and_swap in Hc. replace (if negb (_ =? 0) then AcquireSpin else AcquireFence)
      with (if hw_mem (c_hw c) L =? 0 then AcquireFence else AcquireSpin) by (by destruct (_ =? 0)). apply Hc; auto.
  - rewrite H. apply inv_at_pc; [done| |]; rewrite Ep; by destruct (negb _).
  - destruct H as [Hb ->]. apply inv_at_pc; [done| |]; rewrite Ep; [done|]. intros b _ ->. rewrite Hb. constructor.
Qed.

Lemma inv_try g c i c' : lock_inv g c -> spinlock_try_acquire_step c i c' -> lock_inv g c'.
Proof.
  intros Hinv H. unfold spinlock_try_acquire_step in H. destruct (c_pc c i) eqn:Ep; try done.
  - destruct H as [Hb ->]. pose proof (inv_cas g c i Outside TryFence Hinv Hb) as Hc. rewrite Ep in Hc.
    unfold atomic_compare_and_swap in Hc. apply Hc; auto.
  - destruct H as [Hb ->]. apply inv_at_pc; [done| |]; rewrite Ep; [done|]. intros b _ ->. rewrite Hb. constructor.
Qed.

Lemma inv_release g c i c' : lock_inv g c -> spinlock_release_step c i c' -> lock_inv g c'.
Proof.
  intros Hinv H. unfold spinlock_release_step in H. destruct (c_pc c i) eqn:Ep; try done.
  - destruct H as [Hb ->]. apply inv_at_pc; [done| |]; rewrite Ep; [done|]. by intros b _ ->.
  - rewrite H. destruct (holder_unique g c i Hinv) as (Hm & Hall & Hb & Hg); [by rewrite Ep|].
    rewrite Ep in Hb. cbn in Hb. apply (li_held g _ i); cbn [c_hw c_pc at_pc atomic_store hw_mem hw_buf].
    + done.
    + intros j Hj. rewrite !upd_ne by done. by apply Hall.
    + by rewrite !upd_eq, Hb.
    + intros a Ha. rewrite <- (Hg a Ha). unfold atomic_load. cbn. rewrite upd_eq, Hb. cbn. by rewrite upd_ne.
Qed.

Lemma inv_write g c i a v : lock_inv g c -> c_pc c i = Inside -> a <> L ->
  lock_inv (upd g a v) (mkConf (atomic_store (c_hw c) i a v) (c_pc c)).
Proof.
  intros Hinv Ep Ha. destruct (holder_unique g c i Hinv) as (Hm & Hall & Hb & Hg); [by rewrite Ep|].
  rewrite Ep in Hb. cbn in Hb. apply (li_held _ _ i); cbn [c_hw c_pc atomic_store hw_mem hw_buf].
  - done.
  - intros j Hj. rewrite upd_ne by done. by apply Hall.
  - rewrite Ep, upd_eq. cbn. apply Forall_app. split; [done|]. by constructor.
  - intros x Hx. unfold atomic_load, atomic_store. cbn [hw_mem hw_buf c_hw]. rewrite upd_eq, view_app. unfold upd.
    case_decide; [done|]. by apply Hg.
Qed.

Lemma inv_flush g c i a v b : lock_inv g c -> hw_buf (c_hw c) i = (a, v) :: b ->
  lock_inv g (mkConf (mkHw (upd (hw_mem (c_hw c)) a v) (upd (hw_buf (c_hw c)) i b)) (c_pc c)).
Proof.
  intros [Hm Hall Hg|h Hm Hall Hb Hg] Hbuf; [destruct (Hall i); congruence|].
  assert (i = h) as <- by (destruct (decide (i = h)) as [|Hne]; [done|destruct (Hall i Hne); congruence]).
  unfold atomic_load in Hg. rewrite Hbuf in Hb, Hg. cbn [view] in Hg.
  destruct (decide (waiting (c_pc c i) = true)) as [Hw|Hw].
  - assert ((a, v) = (L, 0) /\ b = []) as [[= -> ->] ->] by (destruct (c_pc c i); try done; by injection Hb as -> -> ->).
    left; cbn [c_hw c_pc hw_mem hw_buf].
    + apply upd_eq.
    + intros j. destruct (decide (j = i)) as [->|]; [by rewrite upd_eq|rewrite upd_ne by done; by apply Hall].
    + exact Hg.
  - assert (Hnl : a <> L /\ Forall (fun w => w.1 <> L) b /\ (c_pc c i = Inside \/ c_pc c i = ReleaseFence)).
    { destruct (c_pc c i); try done; cbn in Hb; apply Forall_cons in Hb as [? ?]; auto. }
    destruct Hnl as (Ha & Hf & Hp). apply (li_held _ _ i); cbn [c_hw c_pc hw_mem hw_buf].
    + by rewrite upd_ne by (by apply not_eq_sym).
    + intros j Hj. rewrite upd_ne by done. by apply Hall.
    + rewrite upd_eq. by destruct Hp as [-> | ->].
    + intros x Hx. unfold atomic_load. cbn [hw_mem hw_buf]. rewrite upd_eq. by apply Hg.
Qed.

(** Every step keeps the invariant, and reads see the sequential contents. *)
Lemma step_inv g c evs c' : lock_inv g c -> step c evs c' ->
  lock_inv (memory_after g evs) c' /\ forall i a v, Read i a v ∈ evs -> v = g a.
Proof.
  intros Hinv Hs.
  assert (Hnone : forall i a v, Read i a v ∈ [] -> v = g a) by (by intros i a v H%not_elem_of_nil).
  destruct Hs as [i p c Ep Hp|i c c' H|i c c' H|i a c Ep Ha|i a v c Ep Ha|i c Ep|i c c' H|i a v b c Hb]; cbn [memory_after].
  - split; [|done]. apply inv_at_pc; [done| |]; rewrite Ep; by destruct Hp as [-> | ->].
  - split; [by eapply inv_acquire|done].
  - split; [by eapply inv_try|done].
  - split; [done|]. intros i' a' v' [= -> -> ->]%list_elem_of_singleton.
    destruct (holder_unique g c i Hinv) as (_ & _ & _ & Hg); [by rewrite Ep|]. by apply Hg.
  - split; [by apply inv_write|]. by intros i' a' v' H%list_elem_of_singleton.
  - split; [|done]. apply inv_at_pc; [done| |]; by rewrite Ep.
  - split; [by eapply inv_release|done].
  - split; [by apply inv_flush|done].
Qed.

Lemma memory_after_app m tr evs : memory_after m (tr ++ evs) = memory_after (memory_after m tr) evs.
Proof. revert m. induction tr as [|[i a v|i a v] tr IH]; intros m; simpl; auto. Qed.

Lemma init_inv m : lock_inv (upd m L 0) (spinlock_init_conf m).
Proof. left; [apply upd_eq|done|done]. Qed.

Lemma exec_inv m tr c : exec (spinlock_init_conf m) tr c -> lock_inv (memory_after (upd m L 0) tr) c.
Proof.
  induction 1 as [|tr c evs c' _ IH Hs]; [apply init_inv|].
  rewrite memory_after_app. by apply (step_inv _ c).
Qed.

(** C15: On every execution of any number of threads from an initialised lock, on
    the store-buffered memory: at most one thread is between its successful
    compare-and-swap and the end of its release, and every access to the
    protected data reads what the accesses before it, taken one after the other,
    would have left - the critical sections are sequentially consistent. *)
Theorem spinlock_correct m tr c : exec (spinlock_init_conf m) tr c ->
  (forall i j, waiting (c_pc c i) = false -> waiting (c_pc c j) = false -> i = j) /\
  (forall tr1 i a v tr2, tr = tr1 ++ Read i a v :: tr2 -> v = memory_after (upd m L 0) tr1 a) /\
  (hw_mem (c_hw c) L = 0 \/ hw_mem (c_hw c) L = 1).
Proof.
  intros He. split; [|split].
  - intros i j Hi Hj. destruct (holder_unique _ c i (exec_inv _ _ _ He) Hi) as (_ & Hall & _).
    destruct (decide (j = i)) as [|Hne]; [done|]. destruct (Hall j Hne). congruence.
  - induction He as [|tr c evs c' He IH Hs]; intros tr1 i a v tr2 E; [by destruct tr1|].
    destruct (step_inv _ c evs c' (exec_inv _ _ _ He) Hs) as [_ Hr].
    assert (Hone : evs = [] \/ exists e, evs = [e]) by (destruct Hs; eauto).
    destruct Hone as [->|[e ->]]; [rewrite app_nil_r in E; by apply (IH tr1 i a v tr2)|].
    destruct tr2 as [|e' tr2' _] using rev_ind.
    + apply app_inj_tail in E as [-> ->]. apply (Hr i). left.
    + rewrite app_comm_cons, app_assoc in E. apply app_inj_tail in E as [-> _]. by apply (IH tr1 i a v tr2').
  - destruct (exec_inv _ _ _ He); auto.
Qed.

(** ** Progress *)

Definition next (c c' : conf) : Prop := exists evs, step c evs c'.

Lemma next_inv g c c' : lock_inv g c -> rtc next c c' -> exists g', lock_inv g' c'.
Proof.
  intros Hinv Hr. revert g Hinv. induction Hr as [c|c c1 c' [evs Hs] _ IH]; intros g Hinv; [by exists g|].
  destruct (step_inv g c evs c1 Hinv Hs) as [H _]. by eapply IH.
Qed.

(** A buffer can always be drained. *)
Lemma drain c i : exists c', rtc next c c' /\ hw_buf (c_hw c') i = [] /\ c_pc c' = c_pc c.
Proof.
  remember (hw_buf (c_hw c) i) as b eqn:E. revert c E. induction b as [|[a v] b IH]; intros c E; [by exists c|].
  destruct (IH (mkConf (mkHw (upd (hw_mem (c_hw c)) a v) (upd (hw_buf (c_hw c)) i b)) (c_pc c))) as (c' & Hr & Hb & Hp).
  { cbn. by rewrite upd_eq. }
  exists c'. split; [|done]. eapply rtc_l; [|exact Hr]. eexists. by apply st_flush.
Qed.

(** A thread between its fences and the end of its release gets to [Outside], the
    others staying where they are. *)
Definition moved (c c' : conf) (h : thread) (p : pc) : Prop :=
  rtc next c c' /\ c_pc c' h = p /\ forall i, i <> h -> c_pc c' i = c_pc c i.

Lemma moved_trans c1 c2 c3 h p q : moved c1 c2 h p -> moved c2 c3 h q -> moved c1 c3 h q.
Proof.
  intros (R1 & _ & O1) (R2 & P2 & O2). split; [by etrans|]. split; [done|]. intros i Hi. by rewrite O2, O1.
Qed.

Lemma moved_drained c h : exists c', moved c c' h (c_pc c h) /\ hw_buf (c_hw c') h = [].
Proof.
  destruct (drain c h) as (c' & Hr & Hb & Hp). exists c'. split; [|done]. split; [done|]. by rewrite Hp.
Qed.

Lemma moved_step c h p evs : step c evs (at_pc c h p) -> moved c (at_pc c h p) h p.
Proof.
  intros Hs. split; [apply rtc_once; by exists evs|]. cbn [c_pc at_pc]. split; [apply upd_eq|].
  intros i Hi. by apply upd_ne.
Qed.

Lemma enter_fence c h : c_pc c h = AcquireFence \/ c_pc c h = TryFence -> exists c', moved c c' h Inside.
Proof.
  intros Hp. destruct (moved_drained c h) as (c1 & M1 & Hb). pose proof M1 as (_ & P1 & _).
  exists (at_pc c1 h Inside). eapply moved_trans; [exact M1|]. apply (moved_step c1 h Inside []).
  destruct Hp as [Hp|Hp]; rewrite Hp in P1.
  - apply (st_acquire h). unfold spinlock_acquire_step. by rewrite P1.
  - apply (st_try h). unfold spinlock_try_acquire_step. by rewrite P1.
Qed.

Lemma leave c h : c_pc c h = Inside -> exists c', moved c c' h ReleaseFence.
Proof. intros Hp. eexists. eapply moved_step. by apply st_leave. Qed.

Lemma release c h : c_pc c h = ReleaseFence -> exists c', moved c c' h ReleaseStore.
Proof.
  intros Hp. destruct (moved_drained c h) as (c1 & M1 & Hb). pose proof M1 as (_ & P1 & _). rewrite Hp in P1.
  exists (at_pc c1 h ReleaseStore). eapply moved_trans; [exact M1|]. apply (moved_step c1 h _ []).
  apply (st_release h). unfold spinlock_release_step. by rewrite P1.
Qed.

Lemma store_zero c h : c_pc c h = ReleaseStore -> exists c', moved c c' h Outside.
Proof.
  intros Hp. eexists. split; [apply rtc_once; exists []; apply (st_release h); unfold spinlock_release_step; by rewrite Hp|].
  cbn [c_pc at_pc]. split; [apply upd_eq|]. intros i Hi. by apply upd_ne.
Qed.

Lemma lock_finish c h : waiting (c_pc c h) = false -> exists c', moved c c' h Outside.
Proof.
  assert (Hstore : forall c, c_pc c h = ReleaseStore -> exists c', moved c c' h Outside) by (intros; by apply store_zero).
  assert (Hrel : forall c, c_pc c h = ReleaseFence -> exists c', moved c c' h Outside).
  { intros c0 Hp. destruct (release c0 h Hp) as (c1 & M1). pose proof M1 as (_ & P1 & _).
    destruct (Hstore c1 P1) as (c2 & M2). exists c2. by eapply moved_trans. }
  assert (Hin : forall c, c_pc c h = Inside -> exists c', moved c c' h Outside).
  { intros c0 Hp. destruct (leave c0 h Hp) as (c1 & M1). pose proof M1 as (_ & P1 & _).
    destruct (Hrel c1 P1) as (c2 & M2). exists c2. by eapply moved_trans. }
  intros Hw. destruct (c_pc c h) eqn:Ep; try done; auto.
  - destruct (enter_fence c h ltac:(by left)) as (c1 & M1). pose proof M1 as (_ & P1 & _).
    destruct (Hin c1 P1) as (c2 & M2). exists c2. by eapply moved_trans.
  - destruct (enter_fence c h ltac:(by right)) as (c1 & M1). pose proof M1 as (_ & P1 & _).
    destruct (Hin c1 P1) as (c2 & M2). exists c2. by eapply moved_trans.
Qed.

(** The lock can become free, with a waiting thread still where it was. *)
Lemma free_up g c i : lock_inv g c -> waiting (c_pc c i) = true ->
  exists c', rtc next c c' /\ c_pc c' i = c_pc c i /\ hw_mem (c_hw c') L = 0 /\ hw_buf (c_hw c') i = [].
Proof.
  assert (Hflush : forall g c h, lock_inv g c -> waiting (c_pc c h) = true -> hw_mem (c_hw c) L = 1 ->
    holder_buf (c_pc c h) (hw_buf (c_hw c) h) -> (forall j, j <> h -> hw_buf (c_hw c) j = []) ->
    exists c', rtc next c c' /\ c_pc c' = c_pc c /\ hw_mem (c_hw c') L = 0 /\ forall j, hw_buf (c_hw c') j = []).
  { intros g0 c0 h Hinv Hw Hm Hb Ho. assert (Hb' : hw_buf (c_hw c0) h = [(L, 0)]) by (by destruct (c_pc c0 h)).
    eexists. split; [apply rtc_once; eexists; by apply (st_flush h)|]. cbn [c_hw hw_mem hw_buf c_pc]. split; [done|].
    split; [apply upd_eq|]. intros j. destruct (decide (j = h)) as [->|]; [by rewrite upd_eq|].
    rewrite upd_ne by done. by apply Ho. }
  intros Hinv Hw. pose proof Hinv as [Hm Hall Hg|h Hm Hall Hb Hg]; [exists c; split; [done|]; split; [done|]; split; [done|]; apply Hall|].
  destruct (waiting (c_pc c h)) eqn:Eh.
  { destruct (Hflush g c h Hinv Eh Hm Hb) as (c' & R & P & Z0 & B); [intros j Hj; by apply Hall|].
    exists c'. rewrite P. auto. }
  assert (Hne : i <> h) by (intros ->; congruence).
  destruct (lock_finish c h Eh) as (c1 & R1 & P1 & O1). destruct (next_inv g c c1 Hinv R1) as [g1 Hinv1].
  assert (Hw1 : waiting (c_pc c1 i) = true) by (by rewrite O1).
  pose proof Hinv1 as [Hm1 Hall1 _|h1 Hm1 Hall1 Hb1 _].
  { exists c1. rewrite O1 by done. split; [done|]. split; [done|]. split; [done|]. apply Hall1. }
  destruct (waiting (c_pc c1 h1)) eqn:E1.
  - destruct (Hflush g1 c1 h1 Hinv1 E1 Hm1 Hb1) as (c' & R & P & Z0 & B); [intros j Hj; by apply Hall1|].
    exists c'. rewrite P, O1 by done. split; [by etrans|auto].
  - exfalso. destruct (decide (h1 = h)) as [->|Hn]; [by rewrite P1 in E1|].
    destruct (Hall h1 Hn) as [_ E]. rewrite O1 in E1 by done. congruence.
Qed.

(** C16: No deadlock: on every execution, from every state, a thread that is in
    [spinlock_acquire] can still get in - the threads ahead of it, and it, have steps
    that take it there. *)
Theorem spinlock_progress m tr c i : exec (spinlock_init_conf m) tr c ->
  c_pc c i = AcquireCas \/ c_pc c i = AcquireSpin ->
  exists tr' c', exec (spinlock_init_conf m) (tr ++ tr') c' /\ c_pc c' i = Inside.
Proof.
  intros He Hi. assert (Hexec : forall c c', rtc next c c' -> forall tr, exec (spinlock_init_conf m) tr c ->
    exists tr', exec (spinlock_init_conf m) (tr ++ tr') c').
  { clear. induction 1 as [c|c c1 c' [evs Hs] _ IH]; intros tr He; [exists []; by rewrite app_nil_r|].
    destruct (IH _ (ex_step _ tr c evs c1 He Hs)) as [tr' H]. exists (evs ++ tr'). by rewrite app_assoc. }
  assert (Hin : exists c', rtc next c c' /\ c_pc c' i = Inside).
  { destruct (free_up _ c i (exec_inv _ _ _ He)) as (c1 & R1 & P1 & Z1 & B1); [by destruct Hi as [-> | ->]|].
    assert (Hcas : exists c2, rtc next c1 c2 /\ c_pc c2 i = AcquireCas /\ hw_mem (c_hw c2) L = 0 /\ hw_buf (c_hw c2) i = []).
    { destruct Hi as [Hi|Hi]; rewrite Hi in P1; [by exists c1|]. exists (at_pc c1 i AcquireCas). split; [|by cbn; rewrite upd_eq].
      apply rtc_once. exists []. apply (st_acquire i). unfold spinlock_acquire_step, atomic_load. rewrite P1, B1. cbn. by rewrite Z1. }
    destruct Hcas as (c2 & R2 & P2 & Z2 & B2).
    assert (R3 : next c2 (at_pc (with_mem c2 (upd (hw_mem (c_hw c2)) L 1)) i AcquireFence)).
    { exists []. apply (st_acquire i). unfold spinlock_acquire_step, atomic_compare_and_swap. rewrite P2, Z2. done. }
    destruct (enter_fence (at_pc (with_mem c2 (upd (hw_mem (c_hw c2)) L 1)) i AcquireFence) i) as (c3 & M3 & P3 & _).
    { left. cbn. apply upd_eq. }
    exists c3. split; [|done]. etrans; [exact R1|]. etrans; [exact R2|]. eapply rtc_l; [exact R3|exact M3]. }
  destruct Hin as (c' & R & P). destruct (Hexec c c' R tr He) as [tr' H]. by exists tr', c'.
Qed.
End lock.

(** ** Witnesses: thread 1 waits while thread 0 has the lock *)

Definition demo0 : conf := spinlock_init_conf 8 (fun _ => 0).
Definition demo1 : conf := at_pc demo0 0%nat AcquireCas.
Definition demo2 : conf := at_pc (with_mem demo1 (upd (hw_mem (c_hw demo1)) 8 1)) 0%nat AcquireFence.
Definition demo3 : conf := at_pc demo2 0%nat Inside.
Definition demo4 : conf := at_pc demo3 1%nat AcquireCas.
Definition demo5 : conf := mkConf (atomic_store (c_hw demo4) 0%nat 100 7) (c_pc demo4).

Lemma demo_exec : exec 8 demo0 [Write 0 100 7; Read 0 100 7] demo5.
Proof.
  apply (ex_step 8 demo0 [Write 0 100 7] demo5 [Read 0 100 7]); [|by apply (st_read 8 0%nat 100 demo5)].
  apply (ex_step 8 demo0 [] demo4 [Write 0 100 7]); [|by apply (st_write 8 0%nat 100 7 demo4)].
  apply (ex_step 8 demo0 [] demo3 [] demo4); [|by apply (st_call 8 1%nat); [|left]].
  apply (ex_step 8 demo0 [] demo2 [] demo3); [|by apply (st_acquire 8 0%nat)].
  apply (ex_step 8 demo0 [] demo1 [] demo2); [|by apply (st_acquire 8 0%nat)].
  apply (ex_step 8 demo0 [] demo0 [] demo1); [apply ex_nil|by apply (st_call 8 0%nat); [|left]].
Qed.

Lemma spinlock_correct_witness : hw_mem (c_hw demo5) 8 = 0 \/ hw_mem (c_hw demo5) 8 = 1.
Proof. destruct (spinlock_correct 8 (fun _ => 0) _ demo5 demo_exec) as (_ & _ & H). exact H. Defined.

Lemma spinlock_progress_witness : exists tr c, exec 8 demo0 tr c /\ c_pc c 1%nat = Inside.
Proof.
  destruct (spinlock_progress 8 (fun _ => 0) _ demo5 1%nat demo_exec ltac:(left; reflexivity)) as (tr & c' & H & Hi).
  exists ([Write 0 100 7; Read 0 100 7] ++ tr), c'. split; [exact H|exact Hi].
Defined.
