(* ===== verification/SList.v ===== *)
(** Singly linked lists in memory, shared by the slab, pool and demand-paging
    components: insertion at the head, unlinking, and the walk to a node. *)
From S2P Require Import Prelude Machine.

#[local] Opaque load store.

Section sll.
Context (off : Z).

(** The link fields of distinct nodes do not overlap. *)
Definition spaced (l : list Z) : Prop :=
  forall a b, a ∈ l -> b ∈ l -> a = b \/ a + 8 <= b \/ b + 8 <= a.

Lemma spaced_sub l l' : l ⊆ l' -> spaced l' -> spaced l.
Proof. intros Hs H a b Ha Hb. apply H; by apply Hs. Qed.

Lemma sll_bound m h l : sll off m h l -> (forall a, a ∈ l -> 0 <= a < 2 ^ 64) -> 0 <= h < 2 ^ 64.
Proof.
  destruct l as [|a l]; simpl; [intros -> _; unfold NULL; lia|]. intros (-> & _) H. apply H. left.
Qed.

Lemma sll_nonnull m h l a : sll off m h l -> a ∈ l -> a <> NULL.
Proof.
  revert h. induction l as [|b l IH]; intros h H Hin; [by apply not_elem_of_nil in Hin|].
  destruct H as (-> & Hn & H). apply elem_of_cons in Hin as [->|Hin]; [done|by eapply IH].
Qed.

(** [a->next = h], with [a] a new node. *)
Lemma sll_push m h l a : sll off m h l -> a <> NULL -> 0 <= h < 2 ^ 64 ->
  (forall b, b ∈ l -> a + 8 <= b \/ b + 8 <= a) -> sll off (store 8 m (a + off) h) a (a :: l).
Proof.
  intros H Ha Hh Hsep. split; [done|]. split; [done|]. rewrite load64_store_eq by done.
  apply (sll_frame off m); [|done]. intros b Hb. apply agree_store. intros x Hx Hw.
  pose proof (Hsep b Hb). change (Z.of_nat 8) with 8 in Hw. unfold within in *. lia.
Qed.

Lemma sll_head m h a l : sll off m h (a :: l) -> h = a /\ a <> NULL /\ sll off m (load 8 m (a + off)) l.
Proof. done. Qed.

Lemma sll_suffix m h l1 l2 : sll off m h (l1 ++ l2) -> exists h', sll off m h' l2.
Proof. revert h. induction l1 as [|a l1 IH]; intros h; [by exists h|]. intros (_ & _ & H). by eapply IH. Qed.

(** [q->next = a->next], with [a] the node after [q]. *)
Lemma sll_unlink m h l1 q a l2 : sll off m h (l1 ++ q :: a :: l2) -> spaced (l1 ++ q :: a :: l2) ->
  NoDup (l1 ++ q :: a :: l2) ->
  sll off (store 8 m (q + off) (load 8 m (a + off))) h (l1 ++ q :: l2).
Proof.
  intros H Hsp Hnd. set (m' := store 8 m _ _).
  assert (Hout : forall b, b ∈ l1 ++ q :: a :: l2 -> b <> q -> agree (within (b + off) 8) m m').
  { intros b Hb Hne. apply agree_store. intros x Hx Hw. change (Z.of_nat 8) with 8 in Hw.
    destruct (Hsp b q Hb ltac:(eauto with inlist)) as [|Hd]; [done|]. unfold within in *. lia. }
  assert (Hq : load 8 m' (q + off) = load 8 m (a + off)) by apply load64_store_eq, load64_bound.
  clearbody m'. revert h H. induction l1 as [|b l1 IH]; intros h; cbn [app sll].
  - intros (-> & Hn & Ea & Ha & H). split; [done|]. split; [done|]. rewrite Hq.
    apply (sll_frame off m); [|done]. intros b Hb. apply Hout; [eauto with inlist|]. intros ->.
    apply NoDup_cons in Hnd as [Hnd _]. apply Hnd. by right.
  - intros (-> & Hn & H). assert (Hbq : b <> q).
    { intros ->. apply NoDup_cons in Hnd as [Hnd _]. apply Hnd. eauto with inlist. }
    split; [done|]. split; [done|]. rewrite (load_agree 8 m m') by (apply Hout; [left|done]).
    apply IH; [|by apply NoDup_cons in Hnd as [_ ?]| |done].
    + intros x y Hx Hy. apply Hsp; by right.
    + intros x Hx. apply Hout. by right.
Qed.
End sll.

(** ** Slots *)

(** The first [n] slots of [size] bytes from [base], the last one first, as the loops
    that thread a free list through them leave them. *)
Fixpoint slots (size base : Z) (n : nat) : list Z :=
  match n with O => [] | S k => (base + Z.of_nat k * size) :: slots size base k end.

Lemma slots_elem size base n o : o ∈ slots size base n <-> exists i, 0 <= i < Z.of_nat n /\ o = base + i * size.
Proof.
  induction n as [|n IH]; cbn [slots].
  - split; [by intros ?%not_elem_of_nil|]. intros (i & Hi & _). lia.
  - rewrite elem_of_cons, IH. split.
    + intros [->|(i & Hi & ->)]; [exists (Z.of_nat n)|exists i]; lia.
    + intros (i & Hi & ->). destruct (decide (i = Z.of_nat n)) as [->|]; [by left|right]. exists i. lia.
Qed.
Lemma slots_length size base n : length (slots size base n) = n.
Proof. induction n; simpl; auto. Qed.
Lemma slots_nodup size base n : 0 < size -> NoDup (slots size base n).
Proof.
  intros Hs. induction n as [|n IH]; cbn [slots]; [constructor|]. apply NoDup_cons. split; [|done].
  intros (i & Hi & E)%slots_elem. nia.
Qed.
