(* ===== verification/Slab.v ===== *)
(** kernel/mm/slab.c: object caches.  A cache is a page holding a [slab_cache_t]; its
    slabs are pages that start with a [slab_t] and keep their free objects in a
    linked list threaded through the objects themselves. *)
From S2P Require Import Prelude Machine DList Buddy BuddyInv BuddyTrace PageAlloc KString.

#[local] Opaque load store.

Definition CACHE_LINE_SIZE : Z := 64.
Definition MAX_CPUS : Z := 8.
Definition SLAB_CACHE_NAME_MAX : Z := 32.
Definition SLAB_CPU_CACHE_SIZE : Z := 16.

(** Field offsets of [slab_t]. *)
Definition S_NEXT : Z := 0.
Definition S_FREE_LIST : Z := 8.
Definition S_IN_USE : Z := 16.
Definition S_TOTAL : Z := 20.
Definition S_OBJECTS : Z := 24.
Definition SIZEOF_SLAB : Z := 32.

(** Field offsets of [slab_cache_t]. *)
Definition C_NAME : Z := 0.
Definition C_OBJECT_SIZE : Z := 32.
Definition C_ALIGN : Z := 40.
Definition C_OBJECTS_PER_SLAB : Z := 48.
Definition C_COLOR_NEXT : Z := 52.
Definition C_FULL : Z := 56.
Definition C_PARTIAL : Z := 64.
Definition C_FREE : Z := 72.
Definition C_ALLOCATIONS : Z := 80.
Definition C_FREES : Z := 88.
Definition C_HITS : Z := 96.
Definition C_LOCK : Z := 104.
Definition C_CPU : Z := 112.
Definition C_NEXT : Z := 240.
Definition SIZEOF_CACHE : Z := 248.

(** Field offsets of [slab_cpu_cache_t]. *)
Definition U_OBJECTS : Z := 0.
Definition U_AVAILABLE : Z := 8.
Definition U_LIMIT : Z := 12.
Definition cpu_cache (cache cpu : Z) : Z := cache + C_CPU + 16 * cpu.

Definition set_cache_list (v : Z) (s : kst) : kst := set_slab (mkSlabSt v (g_cache_list_lock (k_slab s))) s.
Definition set_cache_list_lock (v : Z) (s : kst) : kst := set_slab (mkSlabSt (g_cache_list (k_slab s)) v) s.
Definition cache_list_acquire : K unit := acquire_var (fun s => g_cache_list_lock (k_slab s)) set_cache_list_lock.
Definition cache_list_release : K unit := release_var set_cache_list_lock.

Definition slab_init : K unit :=
  modify (set_cache_list_lock 0) ;;
  modify (set_cache_list NULL).

Definition align_up (size alignment : Z) : Z :=
  Z.land (u64 (size + alignment - 1)) (u64 (Z.lnot (alignment - 1))).

Definition slab_cache_create (name size align : Z) : K Z :=
  if name =? NULL then mret NULL else
  if size =? 0 then mret NULL else
  if BUDDY_PAGE_SIZE <? size then mret NULL else
  let align := if align =? 0 then 8 else align in
  cache ← buddy_alloc_pages 0 BUDDY_ZONE_UNMOVABLE;
  if cache =? 0 then
    _ ← buddy_get_free_pages;
    _ ← buddy_get_total_pages;
    mret NULL
  else
  _ ← memset cache 0 SIZEOF_CACHE;
  _ ← strncpy (cache + C_NAME) name (SLAB_CACHE_NAME_MAX - 1);
  store8 (cache + C_NAME + (SLAB_CACHE_NAME_MAX - 1)) 0 ;;
  let object_size := align_up size align in
  store64 (cache + C_OBJECT_SIZE) object_size ;;
  store64 (cache + C_ALIGN) align ;;
  let usable_size := BUDDY_PAGE_SIZE - SIZEOF_SLAB in
  if object_size =? 0 then stop DivideError else
  store32 (cache + C_OBJECTS_PER_SLAB) (u32 (usable_size / object_size)) ;;
  objects_per_slab ← load32 (cache + C_OBJECTS_PER_SLAB);
  when (objects_per_slab =? 0) (store32 (cache + C_OBJECTS_PER_SLAB) 1) ;;
  store32 (cache + C_COLOR_NEXT) 0 ;;
  store64 (cache + C_FULL) NULL ;;
  store64 (cache + C_PARTIAL) NULL ;;
  store64 (cache + C_FREE) NULL ;;
  store64 (cache + C_ALLOCATIONS) 0 ;;
  store64 (cache + C_FREES) 0 ;;
  store64 (cache + C_HITS) 0 ;;
  spinlock_init (cache + C_LOCK) ;;
  for_range 0 MAX_CPUS (fun i =>
    store64 (cpu_cache cache i + U_OBJECTS) NULL ;;
    store32 (cpu_cache cache i + U_AVAILABLE) 0 ;;
    store32 (cpu_cache cache i + U_LIMIT) SLAB_CPU_CACHE_SIZE) ;;
  cache_list_acquire ;;
  head ← gets (fun s => g_cache_list (k_slab s));
  store64 (cache + C_NEXT) head ;;
  modify (set_cache_list cache) ;;
  cache_list_release ;;
  mret cache.

(** [slab_t **current]: the static head, or the [next] field of a cache. *)
Definition read_link (current : option Z) : K Z :=
  match current with None => gets (fun s => g_cache_list (k_slab s)) | Some c => load64 (c + C_NEXT) end.
Definition write_link (current : option Z) (v : Z) : K unit :=
  match current with None => modify (set_cache_list v) | Some c => store64 (c + C_NEXT) v end.

Definition unlink_cache (cache : Z) : K unit :=
  while None (fun current =>
    c ← read_link current;
    if c =? NULL then mret (inr tt) else
    if c =? cache then next ← load64 (cache + C_NEXT); write_link current next ;; mret (inr tt)
    else mret (inl (Some c))).

(** [while (slab) { next = slab->next; buddy_free_pages(slab, 0); slab = next; }] *)
Definition free_slabs (slab : Z) : K unit :=
  while slab (fun slab =>
    if slab =? NULL then mret (inr tt) else
    next ← load64 (slab + S_NEXT);
    buddy_free_pages slab 0 ;;
    mret (inl next)).

Definition slab_cache_destroy (cache : Z) : K unit :=
  if cache =? NULL then mret tt else
  cache_list_acquire ;;
  unlink_cache cache ;;
  cache_list_release ;;
  spinlock_acquire (cache + C_LOCK) ;;
  slab ← load64 (cache + C_FULL); free_slabs slab ;;
  slab ← load64 (cache + C_PARTIAL); free_slabs slab ;;
  slab ← load64 (cache + C_FREE); free_slabs slab ;;
  for_range 0 MAX_CPUS (fun i =>
    objects ← load64 (cpu_cache cache i + U_OBJECTS);
    when (negb (objects =? NULL)) (buddy_free_pages objects 0)) ;;
  spinlock_release (cache + C_LOCK) ;;
  buddy_free_pages cache 0.

(** The initialisation of a new slab; the remainder by zero is a divide error. *)
Definition slab_format (cache slab : Z) : K unit :=
  store64 (slab + S_NEXT) NULL ;;
  store32 (slab + S_IN_USE) 0 ;;
  objects_per_slab ← load32 (cache + C_OBJECTS_PER_SLAB);
  store32 (slab + S_TOTAL) objects_per_slab ;;
  color_next ← load32 (cache + C_COLOR_NEXT);
  object_size ← load64 (cache + C_OBJECT_SIZE);
  let spare := u64 (BUDDY_PAGE_SIZE - SIZEOF_SLAB - u64 (objects_per_slab * object_size)) in
  if spare =? 0 then stop DivideError else
  let color_offset := u32 (color_next * CACHE_LINE_SIZE) mod spare in
  store32 (cache + C_COLOR_NEXT) (u32 (color_next + 1) mod 8) ;;
  store64 (slab + S_OBJECTS) (u64 (slab + SIZEOF_SLAB + color_offset)) ;;
  store64 (slab + S_FREE_LIST) NULL ;;
  for_range 0 objects_per_slab (fun i =>
    objects ← load64 (slab + S_OBJECTS);
    object_size ← load64 (cache + C_OBJECT_SIZE);
    let obj := u64 (objects + i * object_size) in
    free_list ← load64 (slab + S_FREE_LIST);
    store64 obj free_list ;;
    store64 (slab + S_FREE_LIST) obj).

Definition slab_create (cache : Z) : K Z :=
  slab ← buddy_alloc_pages 0 BUDDY_ZONE_RECLAIMABLE;
  if slab =? 0 then mret NULL else
  slab_format cache slab ;;
  mret slab.

Definition slab_alloc_from_slab (cache slab : Z) : K Z :=
  if slab =? NULL then mret NULL else
  obj ← load64 (slab + S_FREE_LIST);
  if obj =? NULL then mret NULL else
  next ← load64 obj;
  store64 (slab + S_FREE_LIST) next ;;
  in_use ← load32 (slab + S_IN_USE);
  store32 (slab + S_IN_USE) (u32 (in_use + 1)) ;;
  mret obj.

(** [while (current && current->next != slab) current = current->next;] *)
Definition find_before (slab current : Z) : K Z :=
  while current (fun current =>
    if current =? NULL then mret (inr current) else
    next ← load64 (current + S_NEXT);
    mret (if next =? slab then inr current else inl next)).

Definition slab_move_to_list (from_list to_list slab : Z) : K unit :=
  head ← load64 from_list;
  (if head =? slab then
     next ← load64 (slab + S_NEXT);
     store64 from_list next
   else
     current ← find_before slab head;
     when (negb (current =? NULL)) (
       next ← load64 (slab + S_NEXT);
       store64 (current + S_NEXT) next)) ;;
  head ← load64 to_list;
  store64 (slab + S_NEXT) head ;;
  store64 to_list slab.

(** Taking an object from a slab on the partial list, and retiring the slab to the
    full list when that was its last object. *)
Definition take_from (cache slab : Z) : K Z :=
  obj ← slab_alloc_from_slab cache slab;
  in_use ← load32 (slab + S_IN_USE);
  total ← load32 (slab + S_TOTAL);
  when (in_use =? total) (slab_move_to_list (cache + C_PARTIAL) (cache + C_FULL) slab) ;;
  mret obj.

(** [slab->next = cache->slabs_partial; cache->slabs_partial = slab;] *)
Definition push_partial (cache slab : Z) : K unit :=
  head ← load64 (cache + C_PARTIAL);
  store64 (slab + S_NEXT) head ;;
  store64 (cache + C_PARTIAL) slab.

Definition bump64 (a : Z) : K unit := v ← load64 a; store64 a (u64 (v + 1)).

Definition slab_alloc (cache : Z) : K Z :=
  if cache =? NULL then mret NULL else
  let cpu := cpu_cache cache 0 in
  available ← load32 (cpu + U_AVAILABLE);
  if 0 <? available then
    store32 (cpu + U_AVAILABLE) (u32 (available - 1)) ;;
    available ← load32 (cpu + U_AVAILABLE);
    objects ← load64 (cpu + U_OBJECTS);
    obj ← load64 (objects + 8 * available);
    bump64 (cache + C_HITS) ;;
    bump64 (cache + C_ALLOCATIONS) ;;
    mret obj
  else
  spinlock_acquire (cache + C_LOCK) ;;
  slab ← load64 (cache + C_PARTIAL);
  obj ← (if negb (slab =? NULL) then take_from cache slab
         else
           slab ← load64 (cache + C_FREE);
           if negb (slab =? NULL) then
             next ← load64 (slab + S_NEXT);
             store64 (cache + C_FREE) next ;;
             push_partial cache slab ;;
             take_from cache slab
           else
             slab ← slab_create cache;
             if negb (slab =? NULL) then push_partial cache slab ;; take_from cache slab
             else mret NULL);
  when (negb (obj =? NULL)) (bump64 (cache + C_ALLOCATIONS)) ;;
  spinlock_release (cache + C_LOCK) ;;
  mret obj.

(** The search of one list. *)
Definition find_slab (obj slab : Z) : K Z :=
  while slab (fun slab =>
    if slab =? NULL then mret (inr NULL) else
    if (slab <=? obj) && (obj <? u64 (slab + BUDDY_PAGE_SIZE)) then mret (inr slab) else
    next ← load64 (slab + S_NEXT);
    mret (inl next)).

Definition slab_find_for_object (cache object : Z) : K Z :=
  slab ← load64 (cache + C_FULL);
  slab ← find_slab object slab;
  if negb (slab =? NULL) then mret slab else
  slab ← load64 (cache + C_PARTIAL);
  find_slab object slab.

Definition slab_free_to_slab (cache slab object : Z) : K unit :=
  free_list ← load64 (slab + S_FREE_LIST);
  store64 object free_list ;;
  store64 (slab + S_FREE_LIST) object ;;
  in_use ← load32 (slab + S_IN_USE);
  store32 (slab + S_IN_USE) (u32 (in_use - 1)).

(** Giving an object back to its slab, which moves to the list it then belongs to. *)
Definition give_back (cache slab object : Z) : K unit :=
  in_use ← load32 (slab + S_IN_USE);
  total ← load32 (slab + S_TOTAL);
  slab_free_to_slab cache slab object ;;
  (if in_use =? total then slab_move_to_list (cache + C_FULL) (cache + C_PARTIAL) slab
   else
     in_use ← load32 (slab + S_IN_USE);
     when (in_use =? 0) (slab_move_to_list (cache + C_PARTIAL) (cache + C_FREE) slab)).

Definition slab_free (cache object : Z) : K unit :=
  if cache =? NULL then mret tt else
  if object =? NULL then mret tt else
  let cpu := cpu_cache cache 0 in
  available ← load32 (cpu + U_AVAILABLE);
  limit ← load32 (cpu + U_LIMIT);
  cached ← (if available <? limit then
    objects ← load64 (cpu + U_OBJECTS);
    (if objects =? NULL then
       array ← buddy_alloc_pages 0 BUDDY_ZONE_UNMOVABLE;
       when (negb (array =? 0)) (store64 (cpu + U_OBJECTS) array)
     else mret tt) ;;
    objects ← load64 (cpu + U_OBJECTS);
    if negb (objects =? NULL) then
      available ← load32 (cpu + U_AVAILABLE);
      store64 (objects + 8 * available) object ;;
      store32 (cpu + U_AVAILABLE) (u32 (available + 1)) ;;
      bump64 (cache + C_FREES) ;;
      mret true
    else mret false
  else mret false);
  if cached : bool then mret tt else
  spinlock_acquire (cache + C_LOCK) ;;
  slab ← slab_find_for_object cache object;
  when (negb (slab =? NULL)) (give_back cache slab object ;; bump64 (cache + C_FREES)) ;;
  spinlock_release (cache + C_LOCK).

Definition slab_cpu_cache_refill (cache cpu_id : Z) : K Z :=
  let cpu := cpu_cache cache cpu_id in
  objects ← load64 (cpu + U_OBJECTS);
  ok ← (if objects =? NULL then
    array ← buddy_alloc_pages 0 BUDDY_ZONE_UNMOVABLE;
    if array =? 0 then mret false else store64 (cpu + U_OBJECTS) array ;; mret true
  else mret true);
  if negb ok then mret (-1) else
  spinlock_acquire (cache + C_LOCK) ;;
  limit ← load32 (cpu + U_LIMIT);
  let batch_size := if limit / 2 =? 0 then 1 else limit / 2 in
  refilled ← while 0 (fun refilled =>
    available ← load32 (cpu + U_AVAILABLE);
    limit ← load32 (cpu + U_LIMIT);
    if (refilled <? batch_size) && (available <? limit) then
      slab ← load64 (cache + C_PARTIAL);
      obj ← (if negb (slab =? NULL) then take_from cache slab
             else
               slab ← load64 (cache + C_FREE);
               if negb (slab =? NULL) then
                 next ← load64 (slab + S_NEXT);
                 store64 (cache + C_FREE) next ;;
                 push_partial cache slab ;;
                 slab_alloc_from_slab cache slab
               else
                 slab ← slab_create cache;
                 if negb (slab =? NULL) then push_partial cache slab ;; slab_alloc_from_slab cache slab
                 else mret NULL);
      if obj =? NULL then mret (inr refilled) else
      objects ← load64 (cpu + U_OBJECTS);
      available ← load32 (cpu + U_AVAILABLE);
      store64 (objects + 8 * available) obj ;;
      store32 (cpu + U_AVAILABLE) (u32 (available + 1)) ;;
      mret (inl (refilled + 1))
    else mret (inr refilled));
  spinlock_release (cache + C_LOCK) ;;
  mret (if 0 <? refilled then 0 else -1).

Definition slab_cpu_cache_drain (cache cpu_id : Z) : K unit :=
  let cpu := cpu_cache cache cpu_id in
  available ← load32 (cpu + U_AVAILABLE);
  objects ← load64 (cpu + U_OBJECTS);
  if (available =? 0) || (objects =? NULL) then mret tt else
  spinlock_acquire (cache + C_LOCK) ;;
  limit ← load32 (cpu + U_LIMIT);
  let batch_size := if limit / 2 =? 0 then 1 else limit / 2 in
  available ← load32 (cpu + U_AVAILABLE);
  let to_drain := if batch_size <? available then batch_size else available in
  for_range 0 to_drain (fun i =>
    available ← load32 (cpu + U_AVAILABLE);
    objects ← load64 (cpu + U_OBJECTS);
    object ← load64 (objects + 8 * (available - 1));
    store32 (cpu + U_AVAILABLE) (u32 (available - 1)) ;;
    slab ← slab_find_for_object cache object;
    when (negb (slab =? NULL)) (give_back cache slab object)) ;;
  spinlock_release (cache + C_LOCK).

(** [if (p) *p = v;] *)
Definition store_if (p v : Z) : K unit := when (negb (p =? NULL)) (store64 p v).

Definition slab_get_stats (cache allocs frees hits : Z) : K unit :=
  if cache =? NULL then mret tt else
  spinlock_acquire (cache + C_LOCK) ;;
  v ← load64 (cache + C_ALLOCATIONS); store_if allocs v ;;
  v ← load64 (cache + C_FREES); store_if frees v ;;
  v ← load64 (cache + C_HITS); store_if hits v ;;
  spinlock_release (cache + C_LOCK).
