(* ===== verification/SlabInv.v ===== *)
(** The slab caches, abstractly: a cache's three lists of slabs, the free objects of
    each slab, the per-CPU array and the objects its clients hold; and the invariant
    that ties them to memory. *)
From S2P Require Import Prelude Machine DList Buddy BuddyInv BuddyTrace PageAlloc KString SList Slab.

#[local] Opaque load store.

(** A slab: its page, the address of its first object, its free objects in order. *)
Record slab := mkSlab { sl_page : Z; sl_base : Z; sl_free : list Z }.

(** The lists of a cache, by the offset of the field that heads them. *)
Abbreviation lists_of := (Z -> list slab).

Definition list_field (f : Z) : Prop := f = C_FULL \/ f = C_PARTIAL \/ f = C_FREE.
Definition all_slabs (L : lists_of) : list slab := L C_FULL ++ L C_PARTIAL ++ L C_FREE.
Definition in_lists (L : lists_of) (sl : slab) : Prop := exists f, list_field f /\ sl ∈ L f.

(** The three lists determine everything. *)
Definition setL (L : lists_of) (f : Z) (l : list slab) : lists_of := fun g => if g =? f then l else L g.

Ltac soff :=
  unfold cpu_cache in *;
  unfold S_NEXT, S_FREE_LIST, S_IN_USE, S_TOTAL, S_OBJECTS, SIZEOF_SLAB, C_NAME, C_OBJECT_SIZE, C_ALIGN,
    C_OBJECTS_PER_SLAB, C_COLOR_NEXT, C_FULL, C_PARTIAL, C_FREE, C_ALLOCATIONS, C_FREES, C_HITS, C_LOCK, C_CPU,
    C_NEXT, SIZEOF_CACHE, U_OBJECTS, U_AVAILABLE, U_LIMIT in *;
  change (Z.of_nat 8) with 8 in *; change (Z.of_nat 4) with 4 in *; change (Z.of_nat 1) with 1 in *.

Ltac sarith := soff; unfold within in *; lia.

Lemma elem_all_slabs L sl : sl ∈ all_slabs L <-> in_lists L sl.
Proof.
  unfold all_slabs, in_lists, list_field. rewrite !elem_of_app. split.
  - intros [H|[H|H]]; eauto 10.
  - intros (f & [-> | [-> | ->]] & H); auto.
Qed.

Section rep.
(** The object size, the number of objects of a slab, the value of the lock word. *)
Context (osz ops lk : Z).

Definition is_slot (sl : slab) (o : Z) : Prop := exists i, 0 <= i < ops /\ o = sl_base sl + i * osz.

(** The sizes a cache can work with: a free object holds a link, the objects fit and
    leave room for colouring. *)
Definition good_sizes : Prop := 8 <= osz /\ 1 <= ops /\ ops * osz < 4064.

(** What the memory of a slab says. *)
Record slab_ok (m : mem) (sl : slab) : Prop := {
  so_free : sll 0 m (load 8 m (sl_page sl + S_FREE_LIST)) (sl_free sl);
  so_use : load 4 m (sl_page sl + S_IN_USE) = ops - Z.of_nat (length (sl_free sl));
  so_total : load 4 m (sl_page sl + S_TOTAL) = ops;
  so_base : sl_page sl + SIZEOF_SLAB <= sl_base sl;
  so_end : sl_base sl + ops * osz <= sl_page sl + 4096;
  so_slots o : o ∈ sl_free sl -> is_slot sl o;
  so_nodup : NoDup (sl_free sl);
  so_page : 0 < sl_page sl < 2 ^ 52
}.

(** The bytes of a slab that the allocator reads. *)
Definition slab_bytes (sl : slab) (x : Z) : Prop :=
  within (sl_page sl + S_FREE_LIST) 16 x \/ exists o, o ∈ sl_free sl /\ within o 8 x.

(** The header of a cache, its lists and counters aside. *)
Record header_ok (m : mem) (c arr : Z) (cpu : list Z) : Prop := {
  ho_size : load 8 m (c + C_OBJECT_SIZE) = osz;
  ho_count : load 4 m (c + C_OBJECTS_PER_SLAB) = ops;
  ho_lock : load 4 m (c + C_LOCK) = lk;
  ho_array : load 8 m (cpu_cache c 0 + U_OBJECTS) = arr;
  ho_avail : load 4 m (cpu_cache c 0 + U_AVAILABLE) = Z.of_nat (length cpu);
  ho_limit : load 4 m (cpu_cache c 0 + U_LIMIT) = SLAB_CPU_CACHE_SIZE;
  ho_cpu i o : cpu !! i = Some o -> load 8 m (arr + 8 * Z.of_nat i) = o;
  ho_length : Z.of_nat (length cpu) <= SLAB_CPU_CACHE_SIZE;
  ho_empty : arr = 0 -> cpu = [];
  ho_others i : 1 <= i < MAX_CPUS -> load 8 m (cpu_cache c i + U_OBJECTS) = 0
}.

Definition header_bytes (c arr : Z) (x : Z) : Prop :=
  within (c + C_OBJECT_SIZE) 20 x \/ within (c + C_LOCK) 136 x \/ (arr <> 0 /\ within arr 128 x).

Definition lists_ok (m : mem) (c : Z) (L : lists_of) : Prop :=
  forall f, list_field f -> sll S_NEXT m (load 8 m (c + f)) (sl_page <$> L f).

(** The bytes the lists of slabs are made of. *)
Definition list_bytes (c : Z) (L : lists_of) (x : Z) : Prop :=
  within (c + C_FULL) 24 x \/ exists sl, in_lists L sl /\ within (sl_page sl) 8 x.

(** The pages a cache owns: its own, the per-CPU array, the slabs. *)
Definition cache_pages (c arr : Z) (L : lists_of) : list Z :=
  c :: (if arr =? 0 then [] else [arr]) ++ (sl_page <$> all_slabs L).

(** ** Frames *)

Lemma slot_room m sl o : slab_ok m sl -> good_sizes -> is_slot sl o ->
  sl_page sl + 32 <= o /\ o + osz <= sl_page sl + 4096.
Proof.
  intros [_ _ _ Hb He _ _ _] (G1 & G2 & G3) (i & Hi & ->). soff.
  assert (0 <= i * osz) by nia. assert (i * osz + osz <= ops * osz) by nia. lia.
Qed.

Lemma slot_apart sl o o' : is_slot sl o -> is_slot sl o' -> 8 <= osz -> o = o' \/ o + osz <= o' \/ o' + osz <= o.
Proof.
  intros (i & Hi & ->) (j & Hj & ->) Ho. destruct (decide (i = j)) as [->|]; [by left|right].
  destruct (Z.lt_ge_cases i j); [left|right]; nia.
Qed.

Lemma slab_frame m m' sl : good_sizes -> agree (slab_bytes sl) m m' -> slab_ok m sl -> slab_ok m' sl.
Proof.
  intros G Hag [H1 H2 H3 H4 H5 H6 H7 H8].
  assert (E : forall (n : nat) k, 8 <= k -> k + Z.of_nat n <= 24 -> load n m' (sl_page sl + k) = load n m (sl_page sl + k)).
  { intros n k Hk Hn. apply load_agree. eapply agree_mono; [|exact Hag]. intros x Hx. left. sarith. }
  split; try done; try (by rewrite (E 4%nat) by sarith).
  rewrite (E 8%nat) by sarith. apply (sll_frame 0 m); [|done]. intros o Ho. eapply agree_mono; [|exact Hag].
  intros x Hx. right. exists o. split; [done|]. rewrite Z.add_0_r in Hx. done.
Qed.

Lemma slab_bytes_page m sl x : slab_ok m sl -> good_sizes -> slab_bytes sl x ->
  within (sl_page sl) 4096 x /\ ~ within (sl_page sl) 8 x.
Proof.
  intros Hs G [Hx|(o & Ho & Hx)]; [sarith|]. destruct (slot_room m sl o Hs G (so_slots _ _ Hs o Ho)).
  destruct G. sarith.
Qed.

Lemma header_frame m m' c arr cpu : agree (header_bytes c arr) m m' -> header_ok m c arr cpu -> header_ok m' c arr cpu.
Proof.
  intros Hag [H1 H2 H3 H4 H5 H6 H7 H8 H9 H10].
  split; try done; try (rewrite (load_agree _ m m'); [done|]; eapply agree_mono; [|exact Hag];
    intros x Hx; unfold header_bytes; sarith); cycle 1.
  { intros i Hi. rewrite (load_agree _ m m'); [by apply H10|]; eapply agree_mono; [|exact Hag].
    intros x Hx. unfold header_bytes, MAX_CPUS in *. sarith. }
  intros i o Hi. rewrite <- (H7 i o Hi). apply load_agree. eapply agree_mono; [|exact Hag].
  intros x Hx. right; right. pose proof (lookup_lt_Some _ _ _ Hi). split.
  - intros E0. by rewrite (H9 E0) in Hi.
  - unfold within, SLAB_CPU_CACHE_SIZE in *. lia.
Qed.

Lemma lists_frame m m' c L : agree (list_bytes c L) m m' -> lists_ok m c L -> lists_ok m' c L.
Proof.
  intros Hag H f Hf. rewrite (load_agree 8 m m').
  - apply (sll_frame S_NEXT m); [|by apply H]. intros p (sl & -> & Hsl)%list_elem_of_fmap.
    eapply agree_mono; [|exact Hag]. intros x Hx. right. exists sl. split; [by exists f|]. sarith.
  - eapply agree_mono; [|exact Hag]. intros x Hx. left. destruct Hf as [-> | [-> | ->]]; sarith.
Qed.

(** ** The invariant *)

(** The objects that are in no free list. *)
Definition handed (L : lists_of) (o : Z) : Prop := exists sl, in_lists L sl /\ is_slot sl o /\ o ∉ sl_free sl.

(** How free a slab is decides its list. *)
Record classes (L : lists_of) : Prop := {
  cl_full sl : sl ∈ L C_FULL -> sl_free sl = [];
  cl_partial sl : sl ∈ L C_PARTIAL -> sl_free sl <> [];
  cl_free sl : sl ∈ L C_FREE -> Z.of_nat (length (sl_free sl)) = ops
}.

Context `{PA : PageAllocator 0 (buddy_alloc_pages 0 BUDDY_ZONE_UNMOVABLE) (fun a => buddy_free_pages a 0)}.
Context (G : good_sizes).

(** [cpu] are the objects in the per-CPU array, [H] those the clients hold. *)
Record slab_core (s : kst) (A : blocks) (c arr : Z) (L : lists_of) (cpu H : list Z) : Prop := {
  sc_alloc : pa_inv s A;
  sc_header : header_ok (k_mem s) c arr cpu;
  sc_lists : lists_ok (k_mem s) c L;
  sc_slabs sl : in_lists L sl -> slab_ok (k_mem s) sl;
  sc_nodup : NoDup (cache_pages c arr L);
  sc_own p : p ∈ cache_pages c arr L -> (p, 0) ∈ A;
  sc_client : NoDup (cpu ++ H);
  sc_objects o : o ∈ cpu ++ H <-> handed L o
}.

Record slab_inv (s : kst) (A : blocks) (c arr : Z) (L : lists_of) (cpu H : list Z) : Prop := {
  si_core : slab_core s A c arr L cpu H;
  si_classes : classes L
}.

(** What the clients of the allocator may use: blocks that are not the cache's, and
    the objects they hold. *)
Definition slab_client (A : blocks) (c arr : Z) (L : lists_of) (H : list Z) (x : Z) : Prop :=
  (in_block A x /\ forall p, p ∈ cache_pages c arr L -> ~ within p 4096 x) \/ exists o, o ∈ H /\ within o osz x.

Lemma in_pages_slab c arr L sl : in_lists L sl -> sl_page sl ∈ cache_pages c arr L.
Proof.
  intros Hin. apply elem_of_cons. right. apply elem_of_app. right. apply list_elem_of_fmap.
  exists sl. split; [done|]. by apply elem_all_slabs.
Qed.
Lemma in_pages_cache c arr L : c ∈ cache_pages c arr L.
Proof. left. Qed.
Lemma in_pages_array c arr L : arr <> 0 -> arr ∈ cache_pages c arr L.
Proof. intros Ha. right. apply elem_of_app. left. rewrite (proj2 (Z.eqb_neq arr 0)) by done. left. Qed.

Section core.
Context (s : kst) (A : blocks) (c arr : Z) (L : lists_of) (cpu H : list Z).
Hypothesis Hc : slab_core s A c arr L cpu H.

Lemma page_range p : p ∈ cache_pages c arr L -> 0 < p /\ p mod 4096 = 0 /\ p + 4096 <= 2 ^ 52.
Proof.
  intros Hp. destruct (pa_block s A p 0 (sc_alloc _ _ _ _ _ _ _ Hc)) as (_ & H1 & H2 & H3).
  { by eapply sc_own. } unfold PHYS_LIMIT in H3. rewrite sz_0 in H3. lia.
Qed.

Lemma page_apart p q : p ∈ cache_pages c arr L -> q ∈ cache_pages c arr L -> p <> q -> p + 4096 <= q \/ q + 4096 <= p.
Proof.
  intros Hp Hq Hne. assert (Hd : disj p 0 q 0).
  { eapply pa_disj; [by eapply sc_alloc|by eapply sc_own|by eapply sc_own|]. by intros [= E]. }
  unfold disj in Hd. rewrite sz_0 in Hd. exact Hd.
Qed.

Lemma nodup_slabs : NoDup (sl_page <$> all_slabs L).
Proof.
  pose proof (sc_nodup _ _ _ _ _ _ _ Hc) as Hn. unfold cache_pages in Hn. apply NoDup_cons in Hn as [_ Hn].
  by apply NoDup_app in Hn as (_ & _ & Hn).
Qed.

Lemma same_slab sl sl' : in_lists L sl -> in_lists L sl' -> sl_page sl = sl_page sl' -> sl = sl'.
Proof.
  intros H1 H2. apply (NoDup_fmap_elem sl_page (all_slabs L)); [apply nodup_slabs|by apply elem_all_slabs|by apply elem_all_slabs].
Qed.

Lemma slab_not_cache sl : in_lists L sl -> sl_page sl <> c.
Proof.
  intros Hin E. pose proof (sc_nodup _ _ _ _ _ _ _ Hc) as Hn. apply NoDup_cons in Hn as [Hn _]. apply Hn.
  rewrite <- E. apply elem_of_app. right. apply list_elem_of_fmap. exists sl. split; [done|by apply elem_all_slabs].
Qed.
Lemma slab_not_array sl : in_lists L sl -> arr <> 0 -> sl_page sl <> arr.
Proof.
  intros Hin Ha E. pose proof (sc_nodup _ _ _ _ _ _ _ Hc) as Hn. apply NoDup_cons in Hn as [_ Hn].
  apply NoDup_app in Hn as (_ & Hn & _). apply (Hn arr); [rewrite (proj2 (Z.eqb_neq arr 0)) by done; left|].
  rewrite <- E. apply list_elem_of_fmap. exists sl. split; [done|by apply elem_all_slabs].
Qed.
Lemma array_not_cache : arr <> 0 -> arr <> c.
Proof.
  intros Ha E. pose proof (sc_nodup _ _ _ _ _ _ _ Hc) as Hn. apply NoDup_cons in Hn as [Hn _]. apply Hn.
  rewrite (proj2 (Z.eqb_neq arr 0)) by done. rewrite E. left.
Qed.

Lemma slabs_apart sl sl' : in_lists L sl -> in_lists L sl' -> sl_page sl <> sl_page sl' ->
  sl_page sl + 4096 <= sl_page sl' \/ sl_page sl' + 4096 <= sl_page sl.
Proof. intros H1 H2. by apply page_apart; apply in_pages_slab. Qed.
Lemma slab_cache_apart sl : in_lists L sl -> sl_page sl + 4096 <= c \/ c + 4096 <= sl_page sl.
Proof. intros H1. apply page_apart; [by apply in_pages_slab|apply in_pages_cache|by apply slab_not_cache]. Qed.
Lemma slab_array_apart sl : in_lists L sl -> arr <> 0 -> sl_page sl + 4096 <= arr \/ arr + 4096 <= sl_page sl.
Proof. intros H1 H2. apply page_apart; [by apply in_pages_slab|by apply in_pages_array|by apply slab_not_array]. Qed.
Lemma array_apart : arr <> 0 -> arr + 4096 <= c \/ c + 4096 <= arr.
Proof. intros H1. apply page_apart; [by apply in_pages_array|apply in_pages_cache|by apply array_not_cache]. Qed.

(** The header, the lists and the slabs occupy different bytes. *)
Lemma header_away x sl : in_lists L sl -> header_bytes c arr x -> ~ within (sl_page sl) 4096 x.
Proof.
  intros Hin Hx. pose proof (slab_cache_apart sl Hin). destruct Hx as [Hx|[Hx|[Ha Hx]]]; [sarith|sarith|].
  pose proof (slab_array_apart sl Hin Ha). sarith.
Qed.

Lemma pages_in x p : p ∈ cache_pages c arr L -> within p 4096 x -> in_block A x.
Proof. intros Hp Hx. exists p, 0. split; [by eapply sc_own|]. rewrite sz_0. exact Hx. Qed.

(** A write that keeps every byte the cache reads. *)
Definition cache_bytes (x : Z) : Prop :=
  header_bytes c arr x \/ list_bytes c L x \/ exists sl, in_lists L sl /\ slab_bytes sl x.

Lemma slab_core_frame m' : agree (fun x => cache_bytes x \/ ~ in_block A x) (k_mem s) m' ->
  slab_core (set_mem m' s) A c arr L cpu H.
Proof.
  intros Hag. destruct Hc as [C1 C2 C3 C4 C5 C6 C7 C8]. split; try done; cbn [k_mem set_mem].
  - apply pa_write; [done|]. eapply agree_mono; [|exact Hag]. intros x Hx. by right.
  - apply (header_frame (k_mem s)); [|done]. eapply agree_mono; [|exact Hag]. intros x Hx. left. by left.
  - apply (lists_frame (k_mem s)); [|done]. eapply agree_mono; [|exact Hag]. intros x Hx. left. right. by left.
  - intros sl Hsl. apply (slab_frame (k_mem s)); [done| |by apply C4]. eapply agree_mono; [|exact Hag].
    intros x Hx. left. right. right. by exists sl.
Qed.

(** A write to the counters of the cache. *)
Lemma core_counter m' : agree (fun x => ~ within (c + C_ALLOCATIONS) 24 x) (k_mem s) m' ->
  slab_core (set_mem m' s) A c arr L cpu H.
Proof.
  intros Hag. apply slab_core_frame. eapply agree_mono; [|exact Hag]. intros x [Hx|Hx] Hw.
  - destruct Hx as [[Hx|[Hx|[Ha Hx]]]|[[Hx|(sl & Hsl & Hx)]|(sl & Hsl & Hx)]]; [sarith|sarith| |sarith| |].
    + pose proof (array_apart Ha). sarith.
    + pose proof (slab_cache_apart sl Hsl). sarith.
    + pose proof (slab_cache_apart sl Hsl). apply (slab_bytes_page (k_mem s)) in Hx as [Hx _]; [sarith|by apply Hc|done].
  - apply Hx. apply (pages_in x c); [apply in_pages_cache|]. sarith.
Qed.
End core.
End rep.
