(* ===== verification/SlabThms.v ===== *)
(** The operations of the slab caches keep the invariant of SlabInv and do what they
    promise to the objects. *)
From S2P Require Import Prelude Machine DList Buddy BuddyInv BuddyTrace PageAlloc KString SList Slab SlabInv.

#[local] Opaque load store.

(** ** Moving slabs between lists *)

Lemma find_before_ok s l1 q a l2 h : sll S_NEXT (k_mem s) h (l1 ++ q :: a :: l2) -> NoDup (l1 ++ q :: a :: l2) ->
  Z.of_nat (length l1) < 2 ^ 64 -> find_before a h s = Done q s.
Proof.
  intros Hs Hnd Hlen.
  assert (H : wp (find_before a h) (fun r s' => s' = s /\ r = q) s).
  { unfold find_before. apply (wp_loop (fun d x s' => s' = s /\ exists l, sll S_NEXT (k_mem s) x (l ++ q :: a :: l2) /\
      length l = d /\ NoDup (l ++ q :: a :: l2)) (length l1)); [by split; [|exists l1]|done|].
    intros d x s' (-> & l & Hx & <- & Hn). destruct l as [|b l].
    - destruct Hx as (-> & Hq & Ha & _). rewrite (proj2 (Z.eqb_neq q NULL)) by done.
      apply wp_bind, wp_gets, wp_ret. rewrite Ha, Z.eqb_refl. done.
    - destruct Hx as (-> & Hb & Hx). rewrite (proj2 (Z.eqb_neq b NULL)) by done.
      apply wp_bind, wp_gets, wp_ret. rewrite (proj2 (Z.eqb_neq _ a)).
      + exists (length l). split; [simpl; lia|]. split; [done|]. exists l. split; [done|]. split; [done|].
        by apply NoDup_cons in Hn as [_ Hn].
      + intros E. apply NoDup_cons in Hn as [_ Hn]. destruct l as [|b' l]; destruct Hx as (Hx & _).
        * rewrite Hx in E. subst. apply NoDup_cons in Hn as [Hn _]. apply Hn. left.
        * rewrite Hx in E. subst. apply NoDup_cons in Hn as [Hn _]. apply Hn. apply elem_of_app. right. right. left. }
  apply wp_Done in H as (r & s' & Hrun & -> & ->). exact Hrun.
Qed.

Section links.
Context (c : Z) (P : list Z).
Hypothesis Papart : forall p q, p ∈ P -> q ∈ P -> p = q \/ p + 4096 <= q \/ q + 4096 <= p.
Hypothesis Pcache : forall p, p ∈ P -> p + 4096 <= c \/ c + 4096 <= p.
Hypothesis Prange : forall p, p ∈ P -> 0 < p < 2 ^ 52.

Abbreviation page_lists := (Z -> list Z).

Definition plists_ok (m : mem) (F : page_lists) : Prop :=
  forall f, list_field f -> sll S_NEXT m (load 8 m (c + f)) (F f) /\ F f ⊆ P.

Definition link_bytes (x : Z) : Prop := within (c + C_FULL) 24 x \/ exists p, p ∈ P /\ within p 8 x.

Definition setP (F : page_lists) (f : Z) (l : list Z) : page_lists := fun g => if g =? f then l else F g.

Lemma Pspaced l : l ⊆ P -> spaced l.
Proof. intros Hl a b Ha Hb. destruct (Papart a b) as [|[|]]; [by apply Hl|by apply Hl|by left|right; lia|right; lia]. Qed.

(** Writing the head field [f]: the other lists stay. *)
Lemma head_store m f v g l : list_field f -> list_field g -> f <> g -> l ⊆ P ->
  sll S_NEXT m (load 8 m (c + g)) l ->
  sll S_NEXT (store 8 m (c + f) v) (load 8 (store 8 m (c + f) v) (c + g)) l.
Proof.
  intros Hf Hg Hne Hl H. rewrite load_store_ne.
  - apply (sll_frame S_NEXT m); [|done]. intros p Hp. apply agree_store. intros x Hx Hw.
    pose proof (Pcache p (Hl p Hp)). destruct Hf as [-> | [-> | ->]]; sarith.
  - destruct Hf as [-> | [-> | ->]], Hg as [-> | [-> | ->]]; soff; lia.
Qed.

(** Writing the head field [f] with the head of a list. *)
Lemma head_store_eq m f h l : list_field f -> l ⊆ P -> sll S_NEXT m h l ->
  sll S_NEXT (store 8 m (c + f) h) (load 8 (store 8 m (c + f) h) (c + f)) l.
Proof.
  intros Hf Hl H. rewrite load64_store_eq.
  - apply (sll_frame S_NEXT m); [|done]. intros p Hp. apply agree_store. intros x Hx Hw.
    pose proof (Pcache p (Hl p Hp)). destruct Hf as [-> | [-> | ->]]; sarith.
  - eapply sll_bound; [exact H|]. intros a Ha. pose proof (Prange a (Hl a Ha)). lia.
Qed.

Lemma head_agree m f v : list_field f -> agree (fun x => ~ link_bytes x) m (store 8 m (c + f) v).
Proof.
  intros Hf. apply agree_store. intros x Hx Hw. apply Hx. left. destruct Hf as [-> | [-> | ->]]; sarith.
Qed.
Lemma next_agree m p v : p ∈ P -> agree (fun x => ~ link_bytes x) m (store 8 m (p + S_NEXT) v).
Proof. intros Hp. apply agree_store. intros x Hx Hw. apply Hx. right. exists p. split; [done|]. sarith. Qed.

(** Writing the link of [p] leaves the lists [p] is not in. *)
Lemma next_store m p v h l : p ∈ P -> p ∉ l -> l ⊆ P -> sll S_NEXT m h l -> sll S_NEXT (store 8 m (p + S_NEXT) v) h l.
Proof.
  intros Hp Hn Hl H. apply (sll_frame S_NEXT m); [|done]. intros q Hq. apply agree_store. intros x Hx Hw.
  destruct (Papart p q Hp (Hl q Hq)) as [->|Hd]; [done|]. sarith.
Qed.
Lemma next_head m p v f : p ∈ P -> list_field f -> load 8 (store 8 m (p + S_NEXT) v) (c + f) = load 8 m (c + f).
Proof.
  intros Hp Hf. apply load_store_ne. pose proof (Pcache p Hp). destruct Hf as [-> | [-> | ->]]; soff; lia.
Qed.

(** [p] becomes the head of the list [f]. *)
Lemma push_ok m F f p : plists_ok m F -> list_field f -> p ∈ P -> (forall g, list_field g -> p ∉ F g) ->
  let m' := store 8 (store 8 m (p + S_NEXT) (load 8 m (c + f))) (c + f) p in
  plists_ok m' (setP F f (p :: F f)) /\ agree (fun x => ~ link_bytes x) m m'.
Proof.
  intros HF Hf Hp Hn m'. destruct (HF f Hf) as [Hl Hsub].
  assert (Hsub' : p :: F f ⊆ P) by (intros q [->|Hq]%elem_of_cons; [done|by apply Hsub]).
  split; [|etrans; [by apply next_agree|by apply head_agree]]. intros g Hg. unfold setP.
  destruct (Z.eqb_spec g f) as [->|Hne].
  - split; [|done]. apply head_store_eq; [done|done|]. apply sll_push; [done| | |].
    + pose proof (Prange p Hp). unfold NULL. lia.
    + apply load64_bound.
    + intros b Hb. destruct (Papart p b Hp (Hsub b Hb)) as [->|]; [by destruct (Hn f Hf)|lia].
  - destruct (HF g Hg) as [Hg1 Hg2]. split; [|done]. apply head_store; [done|done|congruence|done|].
    rewrite next_head by done. apply next_store; auto.
Qed.

(** [p] leaves the list [f]. *)
Lemma slab_unlink_ok s F f l1 p l2 (Q : unit -> kst -> Prop) : plists_ok (k_mem s) F -> list_field f ->
  F f = l1 ++ p :: l2 -> NoDup (F f) -> (forall g, list_field g -> g <> f -> p ∉ F g) ->
  (forall g b, list_field g -> g <> f -> b ∈ F f -> b ∉ F g) -> Z.of_nat (length (F f)) < 2 ^ 64 ->
  (forall m', plists_ok m' (setP F f (l1 ++ l2)) -> agree (fun x => ~ link_bytes x) (k_mem s) m' -> Q tt (set_mem m' s)) ->
  wp (let head := load 8 (k_mem s) (c + f) in
      if head =? p then next ← load64 (p + S_NEXT); store64 (c + f) next
      else current ← find_before p head;
           when (negb (current =? NULL)) (next ← load64 (p + S_NEXT); store64 (current + S_NEXT) next)) Q s.
Proof.
  intros HF Hf HFf Hnd Hp Hdis Hlen HQ. cbv zeta. destruct (HF f Hf) as [Hl Hsub]. rewrite HFf in Hl, Hsub, Hnd, Hlen.
  destruct l1 as [|b l1 _] using rev_ind.
  - destruct Hl as (Hh & _ & Hl). rewrite Hh, Z.eqb_refl. apply wp_bind, wp_gets, wp_modify. apply HQ.
    + intros g Hg. unfold setP. destruct (Z.eqb_spec g f) as [->|Hne].
      * split; [|intros q Hq; apply Hsub; by right]. apply head_store_eq; [done| |done]. intros q Hq. apply Hsub. by right.
      * destruct (HF g Hg) as [Hg1 Hg2]. split; [|done]. by apply head_store.
    + by apply head_agree.
  - rewrite <- app_assoc in Hl, Hsub, Hnd, Hlen. cbn [app] in *.
    assert (Hne : load 8 (k_mem s) (c + f) <> p).
    { intros E. destruct l1 as [|b' l1]; destruct Hl as (Hh & _); rewrite Hh in E; subst.
      - apply NoDup_cons in Hnd as [Hnd _]. apply Hnd. left.
      - apply NoDup_cons in Hnd as [Hnd _]. apply Hnd. apply elem_of_app. right. right. left. }
    rewrite (proj2 (Z.eqb_neq _ _) Hne). apply wp_bind.
    eapply wp_of_Done; [apply (find_before_ok s l1 b p l2 _ Hl Hnd); rewrite length_app in Hlen; lia|].
    assert (Hb : b ∈ P) by (apply Hsub; eauto with inlist). pose proof (Prange b Hb).
    rewrite (proj2 (Z.eqb_neq b NULL)) by (unfold NULL; lia). unfold when. cbn [negb].
    apply wp_bind, wp_gets, wp_modify. apply HQ.
    + intros g Hg. rewrite next_head by done. unfold setP. destruct (Z.eqb_spec g f) as [->|Hng].
      * rewrite <- app_assoc. cbn [app]. split; [|intros q Hq; apply Hsub; set_solver].
        apply sll_unlink; [done|by apply Pspaced|done].
      * destruct (HF g Hg) as [Hg1 Hg2]. split; [|done]. apply next_store; [done| |done|done].
        apply Hdis; [done|done|]. rewrite HFf, <- app_assoc. cbn. eauto with inlist.
    + by apply next_agree.
Qed.
End links.

Section ops.
Context (osz ops lk : Z).
Context `{PA : PageAllocator 0 (buddy_alloc_pages 0 BUDDY_ZONE_UNMOVABLE) (fun a => buddy_free_pages a 0)}.
Context (G : good_sizes osz ops).
Abbreviation core := (slab_core osz ops lk).

(** ** Steps that keep the invariant *)

Lemma perm_lists L L' sl : all_slabs L' ≡ₚ all_slabs L -> in_lists L' sl <-> in_lists L sl.
Proof. intros Hp. by rewrite <- !elem_all_slabs, Hp. Qed.

Lemma perm_pages c arr L L' : all_slabs L' ≡ₚ all_slabs L -> cache_pages c arr L' ≡ₚ cache_pages c arr L.
Proof. intros Hp. unfold cache_pages. by rewrite Hp. Qed.

(** A write to the links that rearranges the lists. *)
Lemma core_relink s A c arr L L' cpu H m' : core s A c arr L cpu H -> all_slabs L' ≡ₚ all_slabs L ->
  agree (fun x => ~ list_bytes c L x) (k_mem s) m' -> lists_ok m' c L' -> core (set_mem m' s) A c arr L' cpu H.
Proof.
  intros Hc Hp Hag HL. pose proof Hc as [C1 C2 C3 C4 C5 C6 C7 C8].
  assert (Hlb : forall x, list_bytes c L x -> in_block A x).
  { intros x [Hx|(sl & Hsl & Hx)].
    - apply (pages_in _ _ _ s A c arr L cpu H Hc x c); [apply in_pages_cache|]. sarith.
    - apply (pages_in _ _ _ s A c arr L cpu H Hc x (sl_page sl)); [by apply in_pages_slab|]. sarith. }
  split; cbn [k_mem set_mem k_buddy k_pmm].
  - apply pa_write; [done|]. eapply agree_mono; [|exact Hag]. intros x Hx Hb. by apply Hx, Hlb.
  - apply (header_frame osz ops lk (k_mem s)); [|done]. eapply agree_mono; [|exact Hag]. intros x Hx [Hb|(sl & Hsl & Hb)].
    + destruct Hx as [Hx|[Hx|[Ha Hx]]]; [sarith|sarith|].
      pose proof (array_apart _ _ _ s A c arr L cpu H Hc Ha). sarith.
    + apply (header_away _ _ _ s A c arr L cpu H Hc x sl Hsl Hx). sarith.
  - done.
  - intros sl Hsl. apply (perm_lists L L') in Hsl; [|done]. apply (slab_frame osz ops (k_mem s)); [done| |by apply C4].
    eapply agree_mono; [|exact Hag]. intros x Hx Hb.
    apply (slab_bytes_page osz ops (k_mem s)) in Hx as [Hx1 Hx2]; [|by apply C4|done].
    destruct Hb as [Hb|(sl' & Hsl' & Hb)].
    + pose proof (slab_cache_apart _ _ _ s A c arr L cpu H Hc sl Hsl). sarith.
    + destruct (decide (sl_page sl = sl_page sl')) as [E|Hne]; [by rewrite E in Hx2|].
      pose proof (slabs_apart _ _ _ s A c arr L cpu H Hc sl sl' Hsl Hsl' Hne). sarith.
  - by rewrite perm_pages.
  - intros p Hpp. apply C6. by rewrite <- (perm_pages c arr L L' Hp).
  - done.
  - intros o. rewrite C8. unfold handed. by setoid_rewrite (perm_lists L L' _ Hp).
Qed.

(** The three lists as page lists. *)
Definition pagesF (L : lists_of) : Z -> list Z := fun f => sl_page <$> L f.

Lemma core_links s A c arr L cpu H : core s A c arr L cpu H ->
  let P := sl_page <$> all_slabs L in
  (forall p q, p ∈ P -> q ∈ P -> p = q \/ p + 4096 <= q \/ q + 4096 <= p) /\
  (forall p, p ∈ P -> p + 4096 <= c \/ c + 4096 <= p) /\ (forall p, p ∈ P -> 0 < p < 2 ^ 52) /\
  plists_ok c P (k_mem s) (pagesF L).
Proof.
  intros Hc P.
  assert (HP : forall p, p ∈ P -> exists sl, in_lists L sl /\ p = sl_page sl).
  { intros p (sl & -> & Hsl)%list_elem_of_fmap. exists sl. split; [by apply elem_all_slabs|done]. }
  split; [|split; [|split]].
  - intros p q (sl & Hsl & ->)%HP (sl' & Hsl' & ->)%HP. destruct (decide (sl_page sl = sl_page sl')); [by left|right].
    by apply (slabs_apart _ _ _ s A c arr L cpu H Hc).
  - intros p (sl & Hsl & ->)%HP. by apply (slab_cache_apart _ _ _ s A c arr L cpu H Hc).
  - intros p (sl & Hsl & ->)%HP. apply (so_page osz ops (k_mem s) sl). by apply Hc.
  - intros f Hf. split; [by apply Hc|]. intros p (sl & -> & Hsl)%list_elem_of_fmap. apply list_elem_of_fmap.
    exists sl. split; [done|]. apply elem_all_slabs. by exists f.
Qed.

Lemma link_list_bytes c L x : link_bytes c (sl_page <$> all_slabs L) x <-> list_bytes c L x.
Proof.
  unfold link_bytes, list_bytes. split; (intros [?|H]; [by left|right]).
  - destruct H as (p & (sl & -> & Hsl)%list_elem_of_fmap & Hx). exists sl. split; [by apply elem_all_slabs|done].
  - destruct H as (sl & Hsl & Hx). exists (sl_page sl). split; [|done]. apply list_elem_of_fmap. exists sl.
    split; [done|by apply elem_all_slabs].
Qed.

(** Moving one slab permutes the slabs. *)
Lemma move_perm L f1 f2 l1 sl l2 : list_field f1 -> list_field f2 -> f1 <> f2 -> L f1 = l1 ++ sl :: l2 ->
  all_slabs (setL (setL L f1 (l1 ++ l2)) f2 (sl :: L f2)) ≡ₚ all_slabs L.
Proof.
  intros Hf1 Hf2 Hne HL. unfold all_slabs, setL.
  destruct Hf1 as [-> | [-> | ->]], Hf2 as [-> | [-> | ->]]; try done; cbn [Z.eqb C_FULL C_PARTIAL C_FREE Pos.eqb] in *;
    rewrite HL; solve_Permutation.
Qed.

(** Different lists share no slab. *)
Lemma lists_disjoint s A c arr L cpu H f g sl : core s A c arr L cpu H -> list_field f -> list_field g -> f <> g ->
  sl ∈ L f -> sl_page sl ∉ pagesF L g.
Proof.
  intros Hc Hf Hg Hne Hsl (sl' & E & Hsl')%list_elem_of_fmap.
  pose proof (nodup_slabs _ _ _ s A c arr L cpu H Hc) as Hn. unfold all_slabs in Hn. rewrite !fmap_app in Hn.
  apply NoDup_app in Hn as (_ & H1 & Hn). apply NoDup_app in Hn as (_ & H2 & _).
  apply (list_elem_of_fmap_2 sl_page) in Hsl, Hsl'. rewrite E in Hsl. setoid_rewrite elem_of_app in H1.
  destruct Hf as [-> | [-> | ->]], Hg as [-> | [-> | ->]]; try done;
    try (by destruct (H1 _ Hsl); auto); try (by destruct (H1 _ Hsl'); auto); by destruct (H2 _ Hsl) || destruct (H2 _ Hsl').
Qed.

Lemma list_nodup s A c arr L cpu H f : core s A c arr L cpu H -> list_field f -> NoDup (pagesF L f).
Proof.
  intros Hc Hf. pose proof (nodup_slabs _ _ _ s A c arr L cpu H Hc) as Hn. unfold all_slabs in Hn. rewrite !fmap_app in Hn.
  apply NoDup_app in Hn as (N1 & _ & Hn). apply NoDup_app in Hn as (N2 & _ & N3).
  by destruct Hf as [-> | [-> | ->]].
Qed.

Lemma list_length s A c arr L cpu H f : core s A c arr L cpu H -> list_field f -> Z.of_nat (length (pagesF L f)) < 2 ^ 64.
Proof.
  intros Hc Hf. enough (Z.of_nat (length (pagesF L f)) <= 2 ^ 40) by lia.
  apply pages_length; [by eapply list_nodup|]. intros p (sl & -> & Hsl)%list_elem_of_fmap.
  apply (pa_block s A). { apply Hc. } eapply sc_own; [exact Hc|]. apply in_pages_slab. by exists f.
Qed.

Lemma core_move s A c arr L cpu H f1 f2 l1 sl l2 : core s A c arr L cpu H ->
  list_field f1 -> list_field f2 -> f1 <> f2 -> L f1 = l1 ++ sl :: l2 ->
  exists m', slab_move_to_list (c + f1) (c + f2) (sl_page sl) s = Done tt (set_mem m' s) /\
    core (set_mem m' s) A c arr (setL (setL L f1 (l1 ++ l2)) f2 (sl :: L f2)) cpu H /\
    agree (fun x => ~ list_bytes c L x) (k_mem s) m'.
Proof.
  intros Hc Hf1 Hf2 Hne HL. destruct (core_links _ _ _ _ _ _ _ Hc) as (H1 & H2 & H3 & H4).
  assert (Hsl : sl ∈ L f1) by (rewrite HL; eauto with inlist).
  assert (HF : pagesF L f1 = (sl_page <$> l1) ++ sl_page sl :: (sl_page <$> l2)) by (unfold pagesF; by rewrite HL, fmap_app).
  assert (Hw : wp (slab_move_to_list (c + f1) (c + f2) (sl_page sl)) (fun _ s' => exists m', s' = set_mem m' s /\
    agree (fun x => ~ list_bytes c L x) (k_mem s) m' /\
    lists_ok m' c (setL (setL L f1 (l1 ++ l2)) f2 (sl :: L f2))) s).
  { unfold slab_move_to_list. apply wp_bind, wp_gets, wp_bind.
    apply (slab_unlink_ok c _ H1 H2 H3 s (pagesF L) f1 (sl_page <$> l1) (sl_page sl) (sl_page <$> l2)); try done.
    - by eapply list_nodup.
    - intros g Hg Hgf. eapply lists_disjoint; [exact Hc|exact Hf1|done|congruence|done].
    - intros g b Hg Hgf (sl' & -> & Hsl')%list_elem_of_fmap. eapply lists_disjoint; [exact Hc|exact Hf1|done|congruence|done].
    - by eapply list_length.
    - intros m1 Hm1 Hag1. apply wp_bind, wp_gets, wp_bind, wp_modify, wp_modify. cbn [k_mem set_mem].
      destruct (push_ok c _ H1 H2 H3 m1 _ f2 (sl_page sl) Hm1 Hf2) as [Hok Hag].
      + apply list_elem_of_fmap. exists sl. split; [done|]. apply elem_all_slabs. by exists f1.
      + intros g Hg. unfold setP. destruct (Z.eqb_spec g f1) as [->|Hgf].
        * pose proof (list_nodup _ _ _ _ _ _ _ f1 Hc Hf1) as Hn. rewrite HF in Hn. apply NoDup_app in Hn as (_ & Ha & Hb).
          apply NoDup_cons in Hb as [Hb _]. rewrite elem_of_app. intros [Hin|Hin]; [|done]. apply (Ha _ Hin). left.
        * eapply lists_disjoint; [exact Hc|exact Hf1|done|congruence|done].
      + eexists. split; [reflexivity|]. split.
        * eapply agree_mono; [|etrans; [exact Hag1|exact Hag]]. intros x Hx Hb. by apply Hx, link_list_bytes.
        * intros g Hg. destruct (Hok g Hg) as [Hs _]. unfold setP, setL in *. destruct (g =? f2) eqn:Eg2.
          { rewrite fmap_cons. rewrite (proj2 (Z.eqb_neq f2 f1)) in Hs by congruence. exact Hs. }
          destruct (g =? f1) eqn:Eg1; [by rewrite fmap_app|exact Hs]. }
  apply wp_Done in Hw as ([] & s' & Hrun & m' & -> & Hag & HL'). exists m'. split; [exact Hrun|]. split; [|done].
  by apply (core_relink s A c arr L); [|apply move_perm| |].
Qed.

(** ** Changing the free list of one slab *)

Definition with_free (fr : list Z) (sl : slab) : slab := mkSlab (sl_page sl) (sl_base sl) fr.
Definition set_free (p : Z) (fr : list Z) (L : lists_of) : lists_of :=
  fun f => (fun sl => if sl_page sl =? p then with_free fr sl else sl) <$> L f.

Lemma set_free_pages p fr L f : sl_page <$> set_free p fr L f = sl_page <$> L f.
Proof.
  unfold set_free. rewrite <- list_fmap_compose. apply list_fmap_ext. intros i sl _. simpl.
  by destruct (sl_page sl =? p).
Qed.

Lemma set_free_all p fr L : sl_page <$> all_slabs (set_free p fr L) = sl_page <$> all_slabs L.
Proof. unfold all_slabs. by rewrite !fmap_app, !set_free_pages. Qed.

Lemma in_set_free s A c arr L cpu H sl fr x : core s A c arr L cpu H -> in_lists L sl ->
  in_lists (set_free (sl_page sl) fr L) x <->
  x = with_free fr sl \/ in_lists L x /\ sl_page x <> sl_page sl.
Proof.
  intros Hc Hsl. split.
  - intros (f & Hf & (y & -> & Hy)%list_elem_of_fmap).
    assert (Hin : in_lists L y) by (by exists f). destruct (Z.eqb_spec (sl_page y) (sl_page sl)) as [E|Hne].
    + left. by rewrite (same_slab _ _ _ s A c arr L cpu H Hc y sl Hin Hsl E).
    + right. done.
  - intros [->|[(f & Hf & Hx) Hne]].
    + destruct Hsl as (f & Hf & Hx). exists f. split; [done|]. apply list_elem_of_fmap. exists sl.
      by rewrite Z.eqb_refl.
    + exists f. split; [done|]. apply list_elem_of_fmap. exists x. by rewrite (proj2 (Z.eqb_neq _ _)).
Qed.

Lemma core_update s A c arr L cpu H sl fr H' m' : core s A c arr L cpu H -> in_lists L sl ->
  agree (fun x => ~ within (sl_page sl + 8) 4088 x) (k_mem s) m' -> slab_ok osz ops m' (with_free fr sl) ->
  NoDup (cpu ++ H') -> (forall o, o ∈ cpu ++ H' <-> handed osz ops (set_free (sl_page sl) fr L) o) ->
  core (set_mem m' s) A c arr (set_free (sl_page sl) fr L) cpu H'.
Proof.
  intros Hc Hsl Hag Hok Hnd Hob. pose proof Hc as [C1 C2 C3 C4 C5 C6 C7 C8].
  assert (Hpages : cache_pages c arr (set_free (sl_page sl) fr L) = cache_pages c arr L).
  { unfold cache_pages. by rewrite set_free_all. }
  split; cbn [k_mem set_mem]; rewrite ?Hpages; try done.
  - apply pa_write; [done|]. eapply agree_mono; [|exact Hag]. intros x Hx Hw. apply Hx.
    apply (pages_in _ _ _ s A c arr L cpu H Hc x (sl_page sl)); [by apply in_pages_slab|]. sarith.
  - apply (header_frame osz ops lk (k_mem s)); [|done]. eapply agree_mono; [|exact Hag]. intros x Hx Hw.
    apply (header_away _ _ _ s A c arr L cpu H Hc x sl Hsl Hx). sarith.
  - intros f Hf. rewrite set_free_pages. revert f Hf. apply (lists_frame (k_mem s)); [|done].
    eapply agree_mono; [|exact Hag]. intros x [Hx|(sl' & Hsl' & Hx)] Hw.
    + pose proof (slab_cache_apart _ _ _ s A c arr L cpu H Hc sl Hsl). sarith.
    + destruct (decide (sl_page sl = sl_page sl')) as [E|Hne]; [rewrite <- E in Hx; sarith|].
      pose proof (slabs_apart _ _ _ s A c arr L cpu H Hc sl sl' Hsl Hsl' Hne). sarith.
  - intros x Hx. apply (in_set_free s A c arr L cpu H) in Hx as [->|[Hx Hne]]; [done| |done|done].
    apply (slab_frame osz ops (k_mem s)); [done| |by apply C4]. eapply agree_mono; [|exact Hag]. intros y Hy Hw.
    apply (slab_bytes_page osz ops (k_mem s)) in Hy as [Hy _]; [|by apply C4|done].
    pose proof (slabs_apart _ _ _ s A c arr L cpu H Hc x sl Hx Hsl Hne). sarith.
Qed.

Lemma handed_set_free s A c arr L cpu H sl fr o : core s A c arr L cpu H -> in_lists L sl ->
  handed osz ops (set_free (sl_page sl) fr L) o <->
  (is_slot osz ops sl o /\ o ∉ fr) \/
  exists sl', in_lists L sl' /\ sl_page sl' <> sl_page sl /\ is_slot osz ops sl' o /\ o ∉ sl_free sl'.
Proof.
  intros Hc Hsl. unfold handed. split.
  - intros (x & Hx & Hs & Hn). apply (in_set_free s A c arr L cpu H) in Hx as [->|[Hx Hne]]; [by left| |done|done].
    right. by exists x.
  - intros [[Hs Hn]|(x & Hx & Hne & Hs & Hn)].
    + exists (with_free fr sl). split; [|done]. apply (in_set_free s A c arr L cpu H); [done|done|by left].
    + exists x. split; [|done]. apply (in_set_free s A c arr L cpu H); [done|done|by right].
Qed.

Lemma handed_split s A c arr L cpu H sl o : core s A c arr L cpu H -> in_lists L sl ->
  handed osz ops L o <-> (is_slot osz ops sl o /\ o ∉ sl_free sl) \/
  exists sl', in_lists L sl' /\ sl_page sl' <> sl_page sl /\ is_slot osz ops sl' o /\ o ∉ sl_free sl'.
Proof.
  intros Hc Hsl. split.
  - intros (x & Hx & Hs & Hn). destruct (decide (sl_page x = sl_page sl)) as [E|Hne]; [|right; by exists x].
    left. by rewrite <- (same_slab _ _ _ s A c arr L cpu H Hc x sl Hx Hsl E).
  - intros [[Hs Hn]|(x & Hx & Hne & Hs & Hn)]; [by exists sl|by exists x].
Qed.

(** A slot lies in the page of its slab, so it names the slab. *)
Lemma slot_page s A c arr L cpu H sl sl' o : core s A c arr L cpu H -> in_lists L sl -> in_lists L sl' ->
  is_slot osz ops sl o -> is_slot osz ops sl' o -> sl_page sl = sl_page sl'.
Proof.
  intros Hc H1 H2 S1 S2. destruct (decide (sl_page sl = sl_page sl')) as [|Hne]; [done|].
  pose proof (slabs_apart _ _ _ s A c arr L cpu H Hc sl sl' H1 H2 Hne).
  pose proof (slot_room osz ops (k_mem s) sl o (sc_slabs _ _ _ _ _ _ _ _ _ _ Hc sl H1) G S1).
  pose proof (slot_room osz ops (k_mem s) sl' o (sc_slabs _ _ _ _ _ _ _ _ _ _ Hc sl' H2) G S2).
  destruct G. lia.
Qed.

(** The free list loses its head, or gains one. *)
Lemma slab_pop m sl o fr : slab_ok osz ops m sl -> sl_free sl = o :: fr ->
  let m' := store 4 (store 8 m (sl_page sl + S_FREE_LIST) (load 8 m o)) (sl_page sl + S_IN_USE)
              (u32 (load 4 m (sl_page sl + S_IN_USE) + 1)) in
  slab_ok osz ops m' (with_free fr sl) /\ agree (fun x => ~ within (sl_page sl + 8) 16 x) m m'.
Proof.
  intros Hok Hfr m'. pose proof Hok as [H1 H2 H3 H4 H5 H6 H7 H8]. rewrite Hfr in *. destruct H1 as (E & Ho & H1).
  rewrite Z.add_0_r in H1.
  assert (Hag : agree (fun x => ~ within (sl_page sl + 8) 16 x) m m').
  { unfold m'. intros x Hx. rewrite !mget_store_out by sarith. done. }
  split; [|done]. apply NoDup_cons in H7 as [Hn7 H7]. pose proof (load32_bound m (sl_page sl + S_IN_USE)) as Hb.
  assert (Hlen : Z.of_nat (length (o :: fr)) = Z.of_nat (length fr) + 1) by (simpl; lia).
  destruct G as (G1 & G2 & G3). assert (ops < 2 ^ 32) by nia.
  split; cbn [with_free sl_page sl_base sl_free]; try done.
  - replace (load 8 m' (sl_page sl + S_FREE_LIST)) with (load 8 m o); cycle 1.
    { unfold m'. rewrite load_store_ne by sarith. symmetry. apply load64_store_eq, load64_bound. }
    apply (sll_frame 0 m); [|done]. intros x Hx. eapply agree_mono; [|exact Hag]. intros y Hy Hw.
    destruct (slot_room osz ops m sl x Hok G (H6 x ltac:(by right))). sarith.
  - unfold m'. rewrite load32_store_eq by apply u32_bound. rewrite H2, Hlen in *. rewrite u32_id by lia. lia.
  - unfold m'. rewrite !load_store_ne by sarith. done.
  - intros x Hx. apply H6. by right.
Qed.

Lemma slab_push m sl o : slab_ok osz ops m sl -> is_slot osz ops sl o -> o ∉ sl_free sl ->
  let m1 := store 8 (store 8 m o (load 8 m (sl_page sl + S_FREE_LIST))) (sl_page sl + S_FREE_LIST) o in
  let m' := store 4 m1 (sl_page sl + S_IN_USE) (u32 (load 4 m1 (sl_page sl + S_IN_USE) - 1)) in
  slab_ok osz ops m' (with_free (o :: sl_free sl) sl) /\
  agree (fun x => ~ within (sl_page sl + 8) 16 x /\ ~ within o 8 x) m m' /\
  load 4 m1 (sl_page sl + S_IN_USE) = load 4 m (sl_page sl + S_IN_USE).
Proof.
  intros Hok Hs Hn m1 m'. pose proof Hok as [H1 H2 H3 H4 H5 H6 H7 H8].
  destruct (slot_room osz ops m sl o Hok G Hs) as [R1 R2]. pose proof G as (G1 & G2 & G3).
  assert (Hag : agree (fun x => ~ within (sl_page sl + 8) 16 x /\ ~ within o 8 x) m m').
  { unfold m', m1. intros x [Hx Hx']. rewrite !mget_store_out by sarith. done. }
  assert (Huse : load 4 m1 (sl_page sl + S_IN_USE) = load 4 m (sl_page sl + S_IN_USE)).
  { unfold m1. rewrite !load_store_ne by sarith. done. }
  split; [|done]. pose proof (load32_bound m (sl_page sl + S_IN_USE)) as Hb.
  assert (Hlt : Z.of_nat (length (sl_free sl)) + 1 <= ops).
  { rewrite <- (Z2Nat.id ops) by lia. rewrite <- (length_seqZ 0 ops).
    assert (Hsub : (o :: sl_free sl) ⊆+ ((fun i => sl_base sl + i * osz) <$> seqZ 0 ops)).
    { apply NoDup_submseteq; [by apply NoDup_cons|]. intros x Hx. apply list_elem_of_fmap.
      assert (Hsx : is_slot osz ops sl x) by (apply elem_of_cons in Hx as [->|Hx]; [done|by apply H6]).
      destruct Hsx as (i & Hi & ->). exists i. split; [done|]. apply elem_of_seqZ. lia. }
    apply submseteq_length in Hsub. rewrite length_fmap in Hsub. simpl in Hsub. lia. }
  split; cbn [with_free sl_page sl_base sl_free]; try done.
  - assert (Hhead : load 8 m' (sl_page sl + S_FREE_LIST) = o).
    { unfold m', m1. rewrite load_store_ne by sarith. apply load64_store_eq. lia. }
    rewrite Hhead. split; [done|]. split; [unfold NULL; lia|].
    replace (load 8 m' (o + 0)) with (load 8 m (sl_page sl + S_FREE_LIST)); cycle 1.
    { unfold m', m1. rewrite Z.add_0_r, !load_store_ne by sarith. symmetry. apply load64_store_eq, load64_bound. }
    apply (sll_frame 0 m); [|done]. intros x Hx. eapply agree_mono; [|exact Hag]. intros y Hy.
    destruct (slot_room osz ops m sl x Hok G (H6 x Hx)). split; [sarith|].
    destruct (slot_apart osz ops sl o x Hs (H6 x Hx) G1) as [->|Hd]; [done|]. sarith.
  - unfold m'. rewrite load32_store_eq by apply u32_bound. rewrite Huse, H2 in *. simpl length. rewrite u32_id by lia. lia.
  - unfold m', m1. rewrite !load_store_ne by sarith. done.
  - intros x [->|Hx]%elem_of_cons; [done|by apply H6].
  - by apply NoDup_cons.
Qed.

(** ** Objects *)

Lemma held_slot s A c arr L cpu H o : core s A c arr L cpu H -> o ∈ cpu ++ H ->
  exists sl, in_lists L sl /\ is_slot osz ops sl o /\ o ∉ sl_free sl /\ sl_page sl + 32 <= o /\ o + osz <= sl_page sl + 4096.
Proof.
  intros Hc Ho. apply (sc_objects _ _ _ _ _ _ _ _ _ _ Hc) in Ho as (sl & H1 & H2 & H3). exists sl.
  do 3 (split; [done|]). apply (slot_room osz ops (k_mem s)); [|done|done]. by apply Hc.
Qed.

(** The clients' bytes are none of the cache's own. *)
Lemma client_away s A c arr L cpu H x : core s A c arr L cpu H -> slab_client osz A c arr L H x ->
  ~ within c 4096 x /\ (arr <> 0 -> ~ within arr 4096 x) /\ (forall sl, in_lists L sl -> ~ within (sl_page sl) 32 x) /\
  ~ list_bytes c L x.
Proof.
  intros Hc Hx.
  assert (Hall : ~ within c 4096 x /\ (arr <> 0 -> ~ within arr 4096 x) /\ (forall sl, in_lists L sl -> ~ within (sl_page sl) 32 x)).
  { destruct Hx as [[_ Hx]|(o & Ho & Hx)].
    - split; [apply Hx, in_pages_cache|]. split; [intros Ha; by apply Hx, in_pages_array|].
      intros sl Hsl Hw. apply (Hx (sl_page sl)); [by apply in_pages_slab|]. sarith.
    - destruct (held_slot s A c arr L cpu H o Hc ltac:(set_solver)) as (sl & Hsl & _ & _ & R1 & R2). pose proof G as (G1 & _).
      split; [pose proof (slab_cache_apart _ _ _ s A c arr L cpu H Hc sl Hsl); sarith|]. split.
      + intros Ha. pose proof (slab_array_apart _ _ _ s A c arr L cpu H Hc sl Hsl Ha). sarith.
      + intros sl' Hsl'. destruct (decide (sl_page sl = sl_page sl')) as [E|Hne]; [rewrite <- E; sarith|].
        pose proof (slabs_apart _ _ _ s A c arr L cpu H Hc sl sl' Hsl Hsl' Hne). sarith. }
  destruct Hall as (H1 & H2 & H3). do 3 (split; [done|]). intros [Hl|(sl & Hsl & Hl)]; [sarith|].
  apply (H3 sl Hsl). sarith.
Qed.

Lemma client_mono A c arr L L' H H' x : (forall p, p ∈ cache_pages c arr L' -> p ∈ cache_pages c arr L) -> H ⊆ H' ->
  slab_client osz A c arr L H x -> slab_client osz A c arr L' H' x.
Proof.
  intros Hp HH [[Hx Hn]|(o & Ho & Hx)]; [left|right].
  - split; [done|]. intros p Hp'. by apply Hn, Hp.
  - exists o. split; [by apply HH|done].
Qed.

Lemma core_take s A c arr L cpu H sl o fr : core s A c arr L cpu H -> in_lists L sl -> sl_free sl = o :: fr ->
  exists m', slab_alloc_from_slab c (sl_page sl) s = Done o (set_mem m' s) /\
    core (set_mem m' s) A c arr (set_free (sl_page sl) fr L) cpu (o :: H) /\
    agree (slab_client osz A c arr L H) (k_mem s) m' /\ o <> NULL.
Proof.
  intros Hc Hsl Hfr. pose proof (sc_slabs _ _ _ _ _ _ _ _ _ _ Hc sl Hsl) as Hok.
  destruct (slab_pop (k_mem s) sl o fr Hok Hfr) as [Hok' Hag]. set (m' := store 4 _ _ _) in *.
  pose proof (so_free _ _ _ _ Hok) as Hl. rewrite Hfr in Hl. destruct Hl as (E & Hon & _).
  assert (Hrun : slab_alloc_from_slab c (sl_page sl) s = Done o (set_mem m' s)).
  { unfold slab_alloc_from_slab, load64, load32, store64, store32, mbind, M_bind, gets, modify.
    rewrite (proj2 (Z.eqb_neq (sl_page sl) NULL)) by (pose proof (so_page _ _ _ _ Hok); unfold NULL; lia).
    rewrite E, (proj2 (Z.eqb_neq o NULL)) by done. cbn [k_mem set_mem]. unfold m'.
    rewrite load_store_ne by sarith. done. }
  clearbody m'. exists m'. split; [done|].
  assert (Hnd : o ∉ fr /\ NoDup fr) by (pose proof (so_nodup _ _ _ _ Hok) as Hn; rewrite Hfr in Hn; by apply NoDup_cons in Hn).
  assert (Hso : is_slot osz ops sl o) by (apply (so_slots _ _ _ _ Hok); rewrite Hfr; left).
  split; [|split; [|done]].
  - apply (core_update s A c arr L cpu H sl fr); [done|done| |done| |].
    + eapply agree_mono; [|exact Hag]. intros x Hx. sarith.
    + rewrite <- Permutation_middle. apply NoDup_cons. split; [|apply Hc]. intros Ho. apply (sc_objects _ _ _ _ _ _ _ _ _ _ Hc) in Ho.
      apply (handed_split s A c arr L cpu H sl) in Ho as [[_ Ho]|(sl' & Hsl' & Hne & Hs' & _)]; [|by apply Hne, (slot_page s A c arr L cpu H sl' sl o)|done|done].
      apply Ho. rewrite Hfr. left.
    + intros x. rewrite (handed_set_free s A c arr L cpu H sl fr) by done.
      assert (Hx : x ∈ cpu ++ o :: H <-> x = o \/ x ∈ cpu ++ H) by set_solver. rewrite Hx.
      rewrite (sc_objects _ _ _ _ _ _ _ _ _ _ Hc x), (handed_split s A c arr L cpu H sl x) by done. rewrite Hfr. split.
      * intros [->|[[Hs Hn]|Hx']]; [left; by split; [|apply Hnd]|left|by right]. split; [done|]. set_solver.
      * intros [[Hs Hn]|Hx']; [|by right; right]. destruct (decide (x = o)) as [->|]; [by left|right; left].
        split; [done|]. set_solver.
  - eapply agree_mono; [|exact Hag]. intros x Hx Hw. destruct (client_away s A c arr L cpu H x Hc Hx) as (_ & _ & Hs & _).
    apply (Hs sl Hsl). sarith.
Qed.

Lemma core_give s A c arr L cpu H1 o H2 sl : core s A c arr L cpu (H1 ++ o :: H2) -> in_lists L sl ->
  is_slot osz ops sl o -> o ∉ sl_free sl ->
  exists m', slab_free_to_slab c (sl_page sl) o s = Done tt (set_mem m' s) /\
    core (set_mem m' s) A c arr (set_free (sl_page sl) (o :: sl_free sl) L) cpu (H1 ++ H2) /\
    agree (slab_client osz A c arr L (H1 ++ H2)) (k_mem s) m'.
Proof.
  intros Hc Hsl Hso Hn. pose proof (sc_slabs _ _ _ _ _ _ _ _ _ _ Hc sl Hsl) as Hok.
  destruct (slab_push (k_mem s) sl o Hok Hso Hn) as (Hok' & Hag & Huse).
  pose proof (slot_room osz ops _ _ _ Hok G Hso) as [R1 R2]. pose proof G as (G1 & _).
  set (m1 := store 8 (store 8 _ _ _) _ _) in *. set (m' := store 4 _ _ _) in *.
  assert (Hrun : slab_free_to_slab c (sl_page sl) o s = Done tt (set_mem m' s)) by done.
  clearbody m'. clear Huse m1. exists m'. split; [done|].
  assert (Hperm : cpu ++ H1 ++ o :: H2 ≡ₚ o :: cpu ++ H1 ++ H2) by solve_Permutation.
  pose proof (sc_client _ _ _ _ _ _ _ _ _ _ Hc) as Hnd. rewrite Hperm in Hnd. apply NoDup_cons in Hnd as [Hno Hnd].
  split.
  - apply (core_update s A c arr L cpu (H1 ++ o :: H2) sl); [done|done| |done|done|].
    + eapply agree_mono; [|exact Hag]. intros x Hx. split; sarith.
    + intros x. rewrite (handed_set_free s A c arr L cpu (H1 ++ o :: H2) sl) by done.
      assert (Hx : x ∈ cpu ++ H1 ++ H2 <-> x <> o /\ x ∈ cpu ++ H1 ++ o :: H2).
      { rewrite Hperm. split; [|set_solver]. intros Hx. split; [by intros ->|set_solver]. }
      rewrite Hx, (sc_objects _ _ _ _ _ _ _ _ _ _ Hc x), (handed_split s A c arr L cpu (H1 ++ o :: H2) sl x) by done. split.
      * intros [Hne [[Hs Hf]|Hx']]; [left|by right]. split; [done|]. set_solver.
      * intros [[Hs Hf]|(sl' & Hsl' & Hne & Hs & Hf)].
        -- split; [set_solver|]. left. split; [done|]. set_solver.
        -- split; [|right; by exists sl']. intros ->. apply Hne. by apply (slot_page s A c arr L cpu (H1 ++ o :: H2) sl' sl o).
  - eapply agree_mono; [|exact Hag]. intros x Hx.
    destruct (client_away s A c arr L cpu (H1 ++ o :: H2) x Hc) as (_ & _ & Hs & _).
    { eapply client_mono; [| |exact Hx]; [done|set_solver]. }
    split; [intros Hw; apply (Hs sl Hsl); sarith|]. destruct Hx as [[_ Hx]|(o' & Ho' & Hx)].
    + intros Hw. apply (Hx (sl_page sl)); [by apply in_pages_slab|]. sarith.
    + assert (o' <> o) by (intros ->; apply Hno; set_solver).
      destruct (held_slot s A c arr L cpu (H1 ++ o :: H2) o' Hc ltac:(set_solver)) as (sl' & Hsl' & Hs' & _ & R3 & R4).
      destruct (decide (sl_page sl' = sl_page sl)) as [E|Hne].
      * rewrite (same_slab _ _ _ s A c arr L cpu _ Hc sl' sl Hsl' Hsl E) in Hs'.
        destruct (slot_apart osz ops sl o o' Hso Hs' G1) as [->|Hd]; [done|]. sarith.
      * pose proof (slabs_apart _ _ _ s A c arr L cpu _ Hc sl' sl Hsl' Hsl Hne). sarith.
Qed.

(** ** Choosing the list *)

Lemma set_free_in s A c arr L cpu H f sl fr g x : core s A c arr L cpu H -> list_field f -> sl ∈ L f ->
  list_field g -> x ∈ set_free (sl_page sl) fr L g ->
  (g = f /\ x = with_free fr sl) \/ (x ∈ L g /\ sl_page x <> sl_page sl).
Proof.
  intros Hc Hf Hsl Hg (y & -> & Hy)%list_elem_of_fmap. destruct (Z.eqb_spec (sl_page y) (sl_page sl)) as [E|Hne]; [|by right].
  left. assert (y = sl) as -> by (apply (same_slab _ _ _ s A c arr L cpu H Hc); [by exists g|by exists f|done]).
  split; [|done]. destruct (decide (g = f)) as [|Hne]; [done|]. exfalso.
  apply (lists_disjoint s A c arr L cpu H f g sl Hc Hf Hg); [congruence|done|by apply list_elem_of_fmap_2].
Qed.

(** The list of [sl] with its free objects replaced. *)
Lemma set_free_middle s A c arr L cpu H f sl fr l1 l2 : core s A c arr L cpu H -> list_field f -> L f = l1 ++ sl :: l2 ->
  set_free (sl_page sl) fr L f = l1 ++ with_free fr sl :: l2.
Proof.
  intros Hc Hf HL. pose proof (list_nodup s A c arr L cpu H f Hc Hf) as Hn. unfold pagesF in Hn.
  rewrite HL, fmap_app, fmap_cons in Hn. apply NoDup_app in Hn as (_ & H1 & Hn). apply NoDup_cons in Hn as [H2 _].
  unfold set_free. rewrite HL, fmap_app, fmap_cons, Z.eqb_refl.
  assert (Hid : forall l : list slab, (forall x, x ∈ l -> sl_page x <> sl_page sl) ->
    (fun x => if sl_page x =? sl_page sl then with_free fr x else x) <$> l = l).
  { intros l Hl. rewrite <- (list_fmap_id l) at 2. apply list_fmap_ext. intros i x Hx.
    rewrite (proj2 (Z.eqb_neq _ _)); [done|]. apply Hl. by eapply list_elem_of_lookup_2. }
  rewrite !Hid; [done| |]; intros x Hx E.
  - apply H2. rewrite <- E. by apply list_elem_of_fmap_2.
  - apply (H1 (sl_page x)); [by apply list_elem_of_fmap_2|]. rewrite E. left.
Qed.

Lemma all_pages_same L L' c arr : sl_page <$> all_slabs L' ≡ₚ sl_page <$> all_slabs L ->
  cache_pages c arr L' ≡ₚ cache_pages c arr L.
Proof. intros Hp. unfold cache_pages. by rewrite Hp. Qed.

(** After one object more or less, the slab goes to the list of its class. *)
Lemma moved_classes s A c arr L cpu H f f' l1 sl l2 fr : core s A c arr L cpu H -> classes ops L ->
  list_field f -> list_field f' -> f <> f' -> L f = l1 ++ sl :: l2 ->
  (f' = C_FULL -> fr = []) -> (f' = C_PARTIAL -> fr <> []) -> (f' = C_FREE -> Z.of_nat (length fr) = ops) ->
  let L1 := set_free (sl_page sl) fr L in
  classes ops (setL (setL L1 f (l1 ++ l2)) f' (with_free fr sl :: L1 f')).
Proof.
  intros Hc Hcl Hf Hf' Hne HL K1 K2 K3 L1. assert (Hsl : sl ∈ L f) by (rewrite HL; eauto with inlist).
  assert (Hin : forall g x, list_field g -> x ∈ setL (setL L1 f (l1 ++ l2)) f' (with_free fr sl :: L1 f') g ->
    (g = f' /\ x = with_free fr sl) \/ x ∈ L g).
  { intros g x Hg. unfold setL. destruct (Z.eqb_spec g f') as [->|Hg1].
    - intros [->|Hx]%elem_of_cons; [by left|right].
      destruct (set_free_in s A c arr L cpu H f sl fr f' x Hc Hf Hsl Hf' Hx) as [[E _]|[Hx' _]]; [congruence|done].
    - destruct (Z.eqb_spec g f) as [->|Hg2].
      + intros Hx. right. rewrite HL. set_solver.
      + intros Hx. right. destruct (set_free_in s A c arr L cpu H f sl fr g x Hc Hf Hsl Hg Hx) as [[E _]|[Hx' _]]; [congruence|done]. }
  destruct Hcl as [D1 D2 D3]. split; intros x Hx; apply Hin in Hx; unfold list_field; auto.
  - destruct Hx as [[E ->]|Hx]; [by apply K1|by apply D1].
  - destruct Hx as [[E ->]|Hx]; [by apply K2|by apply D2].
  - destruct Hx as [[E ->]|Hx]; [by apply K3|by apply D3].
Qed.

(** The slab keeps its list. *)
Lemma kept_classes s A c arr L cpu H sl fr : core s A c arr L cpu H -> classes ops L -> sl ∈ L C_PARTIAL -> fr <> [] ->
  classes ops (set_free (sl_page sl) fr L).
Proof.
  intros Hc [D1 D2 D3] Hsl Hfr.
  assert (Hin : forall g x, list_field g -> x ∈ set_free (sl_page sl) fr L g ->
    (g = C_PARTIAL /\ x = with_free fr sl) \/ x ∈ L g).
  { intros g x Hg Hx. destruct (set_free_in s A c arr L cpu H C_PARTIAL sl fr g x Hc) as [?|[? _]]; auto. by right; left. }
  split; intros x Hx; apply Hin in Hx; unfold list_field; auto.
  - destruct Hx as [[E ->]|Hx]; [done|by apply D1].
  - destruct Hx as [[E ->]|Hx]; [done|by apply D2].
  - destruct Hx as [[E ->]|Hx]; [done|by apply D3].
Qed.

(** What an operation that hands out the object [o] leaves. *)
Definition taken (s : kst) (A : blocks) (c arr : Z) (L : lists_of) (cpu H : list Z) (o : Z) (s' : kst) : Prop :=
  exists m' L', s' = set_mem m' s /\ slab_inv osz ops lk s' A c arr L' cpu (o :: H) /\ o <> NULL /\
    cache_pages c arr L' ≡ₚ cache_pages c arr L /\ agree (slab_client osz A c arr L H) (k_mem s) m'.

Lemma take_from_ok s A c arr L cpu H sl rest : slab_inv osz ops lk s A c arr L cpu H -> L C_PARTIAL = sl :: rest ->
  exists o s', take_from c (sl_page sl) s = Done o s' /\ taken s A c arr L cpu H o s'.
Proof.
  intros [Hc Hcl] HL. assert (Hsl : sl ∈ L C_PARTIAL) by (rewrite HL; left).
  assert (HFP : list_field C_PARTIAL /\ list_field C_FULL) by (unfold list_field; auto). destruct HFP as [HFP HFF].
  assert (Hin : in_lists L sl) by (by exists C_PARTIAL).
  destruct (sl_free sl) as [|o fr] eqn:Hfr; [by destruct (cl_partial _ _ Hcl sl Hsl)|].
  destruct (core_take s A c arr L cpu H sl o fr Hc Hin Hfr) as (m1 & Hrun & Hc1 & Hag & Hon).
  assert (Hin1 : in_lists (set_free (sl_page sl) fr L) (with_free fr sl)).
  { apply (in_set_free s A c arr L cpu H); [done|done|by left]. }
  pose proof (sc_slabs _ _ _ _ _ _ _ _ _ _ Hc1 _ Hin1) as Hok. pose proof (so_use _ _ _ _ Hok) as Hu.
  pose proof (so_total _ _ _ _ Hok) as Ht. cbn [with_free sl_page sl_free k_mem set_mem] in Hu, Ht.
  unfold take_from, mbind, M_bind. rewrite Hrun. unfold load32, gets. cbn [k_mem set_mem]. rewrite Hu, Ht.
  assert (Hpg : sl_page <$> all_slabs (set_free (sl_page sl) fr L) ≡ₚ sl_page <$> all_slabs L) by (by rewrite set_free_all).
  unfold when. destruct (Z.eqb_spec (ops - Z.of_nat (length fr)) ops) as [E|Hne].
  - assert (fr = []) as -> by (destruct fr; [done|simpl in E; lia]).
    pose proof (set_free_middle s A c arr L cpu H C_PARTIAL sl [] [] rest Hc HFP HL) as HL1.
    destruct (core_move _ A c arr _ cpu (o :: H) C_PARTIAL C_FULL [] (with_free [] sl) rest Hc1 HFP HFF ltac:(done) HL1)
      as (m2 & Hmv & Hc2 & Hag2). cbn [with_free sl_page] in Hmv. rewrite Hmv.
    eexists o, _. split; [reflexivity|]. eexists m2, _. split; [done|]. split; [split; [exact Hc2|]|].
    + apply (moved_classes s A c arr L cpu H C_PARTIAL C_FULL [] sl rest []); auto; done.
    + split; [done|]. split.
      * apply all_pages_same. etrans; [|exact Hpg]. by rewrite move_perm.
      * etrans; [exact Hag|]. eapply agree_mono; [|exact Hag2]. intros x Hx.
        apply (client_away _ A c arr _ cpu (o :: H) x Hc1). eapply client_mono; [| |exact Hx]; [|set_solver].
        intros p Hp. unfold cache_pages in *. by rewrite set_free_all in Hp.
  - eexists o, _. split; [reflexivity|]. eexists m1, _. split; [done|]. split; [split; [exact Hc1|]|].
    + apply (kept_classes s A c arr L cpu H); [done|done|done|]. intros ->. simpl in Hne. lia.
    + split; [done|]. split; [by apply all_pages_same|done].
Qed.

(** ** A new slab *)

(** The loop that threads the free list. *)
Lemma thread_ok s c r base (Q : unit -> kst -> Prop) :
  load 8 (k_mem s) (r + S_OBJECTS) = base -> load 8 (k_mem s) (c + C_OBJECT_SIZE) = osz ->
  load 8 (k_mem s) (r + S_FREE_LIST) = NULL -> 0 < r -> r + 4096 <= 2 ^ 52 -> r + 4096 <= c \/ c + 4096 <= r ->
  r + 32 <= base -> base + ops * osz <= r + 4096 ->
  (forall m, agree (fun x => ~ within (r + S_FREE_LIST) 8 x /\ ~ within (r + 32) 4064 x) (k_mem s) m ->
     sll 0 m (load 8 m (r + S_FREE_LIST)) (slots osz base (Z.to_nat ops)) -> Q tt (set_mem m s)) ->
  wp (for_range 0 ops (fun i =>
    objects ← load64 (r + S_OBJECTS);
    object_size ← load64 (c + C_OBJECT_SIZE);
    let obj := u64 (objects + i * object_size) in
    free_list ← load64 (r + S_FREE_LIST);
    store64 obj free_list ;;
    store64 (r + S_FREE_LIST) obj)) Q s.
Proof.
  intros Hb Ho Hf Hr0 Hr1 Hrc Hb0 Hb1 HQ. pose proof G as (G1 & G2 & G3).
  apply (wp_for_range (fun i s' => exists k m, i = Z.of_nat k /\ s' = set_mem m s /\
    agree (fun x => ~ within (r + S_FREE_LIST) 8 x /\ ~ within (r + 32) 4064 x) (k_mem s) m /\
    sll 0 m (load 8 m (r + S_FREE_LIST)) (slots osz base k))).
  - lia.
  - exists 0%nat, (k_mem s). rewrite set_mem_id. done.
  - intros i s' Hi (k & m & -> & -> & Hag & Hl).
    assert (Hslot : r + 32 <= base + Z.of_nat k * osz /\ base + Z.of_nat k * osz + 8 <= r + 4096) by nia.
    apply wp_bind, wp_gets, wp_bind, wp_gets, wp_bind, wp_gets, wp_bind, wp_modify, wp_modify. cbn [k_mem set_mem].
    replace (load 8 m (r + S_OBJECTS)) with base; cycle 1.
    { rewrite <- Hb. symmetry. apply load_agree. eapply agree_mono; [|exact Hag]. intros x Hx. split; sarith. }
    replace (load 8 m (c + C_OBJECT_SIZE)) with osz; cycle 1.
    { rewrite <- Ho. symmetry. apply load_agree. eapply agree_mono; [|exact Hag]. intros x Hx. split; sarith. }
    rewrite u64_id by lia. set (obj := base + Z.of_nat k * osz) in *.
    eexists (S k), _. split; [lia|]. split; [reflexivity|]. split.
    + intros x [Hx Hx']. rewrite !mget_store_out by sarith. by apply Hag.
    + rewrite load64_store_eq by lia. cbn [slots]. fold obj.
      apply (sll_frame 0 (store 8 m obj (load 8 m (r + S_FREE_LIST)))).
      { intros o Hin. apply agree_store. intros x Hx. assert (r + 32 <= o) by (apply elem_of_cons in Hin as
          [->|(i & Hi' & ->)%slots_elem]; [lia|nia]). sarith. }
      rewrite <- (Z.add_0_r obj) at 1. apply sll_push; [done|unfold NULL; lia|apply load64_bound|].
      intros o (i & Hi' & ->)%slots_elem. unfold obj. right. nia.
  - intros s' (k & m & Hk & -> & Hag & Hl). apply HQ; [done|]. rewrite Hk, Nat2Z.id. done.
Qed.

Lemma slab_format_ok s c arr cpu r : header_ok osz ops lk (k_mem s) c arr cpu -> 0 < r -> r + 4096 <= 2 ^ 52 ->
  r + 4096 <= c \/ c + 4096 <= r ->
  wp (slab_format c r) (fun _ s' => exists m' base, s' = set_mem m' s /\
    agree (fun x => ~ within r 4096 x /\ ~ within (c + C_COLOR_NEXT) 4 x) (k_mem s) m' /\
    slab_ok osz ops m' (mkSlab r base (slots osz base (Z.to_nat ops)))) s.
Proof.
  intros Hh Hr0 Hr1 Hrc. pose proof G as (G1 & G2 & G3). assert (Hops : ops < 2 ^ 32) by nia.
  pose proof (ho_size _ _ _ _ _ _ _ Hh) as Hsz. pose proof (ho_count _ _ _ _ _ _ _ Hh) as Hct.
  unfold slab_format, store64, store32. do 2 apply wp_bind, wp_modify. apply wp_bind, wp_gets, wp_bind, wp_modify.
  apply wp_bind, wp_gets, wp_bind, wp_gets. cbn [k_mem set_mem].
  rewrite !(load_store_ne 4) by sarith. rewrite !(load_store_ne 8) by sarith. rewrite Hsz, Hct.
  rewrite (u64_id (ops * osz)) by nia. unfold BUDDY_PAGE_SIZE, SIZEOF_SLAB. rewrite u64_id by lia.
  rewrite (proj2 (Z.eqb_neq (4096 - 32 - ops * osz) 0)) by lia.
  set (col := u32 (_ * CACHE_LINE_SIZE) mod _).
  assert (Hcol : 0 <= col < 4064 - ops * osz).
  { unfold col. replace (4096 - 32 - ops * osz) with (4064 - ops * osz) by lia. apply Z.mod_pos_bound. lia. }
  clearbody col. do 3 apply wp_bind, wp_modify. cbn [k_mem set_mem]. rewrite u64_id by lia.
  set (m0 := store 8 (store 8 _ (r + S_OBJECTS) _) (r + S_FREE_LIST) NULL).
  assert (Hm0 : agree (fun x => ~ within r 32 x /\ ~ within (c + C_COLOR_NEXT) 4 x) (k_mem s) m0 /\
    load 8 m0 (r + S_OBJECTS) = r + 32 + col /\ load 8 m0 (r + S_FREE_LIST) = NULL /\
    load 4 m0 (r + S_IN_USE) = 0 /\ load 4 m0 (r + S_TOTAL) = ops /\ load 8 m0 (c + C_OBJECT_SIZE) = osz).
  { unfold m0. split; [intros x [Hx Hx']; rewrite !mget_store_out by sarith; done|].
    split; [rewrite load_store_ne by sarith; apply load64_store_eq; lia|].
    split; [by apply load64_store_eq|].
    split; [rewrite !load_store_ne by sarith; rewrite load32_store_eq by lia; done|].
    split; [rewrite !load_store_ne by sarith; rewrite load32_store_eq by lia; done|].
    rewrite !load_store_ne by sarith. done. }
  clearbody m0. destruct Hm0 as (Hag0 & L1 & L2 & L3 & L4 & L5).
  eapply (thread_ok (set_mem m0 s) c r (r + 32 + col)); try done; try lia.
  intros m Hag Hl. exists m, (r + 32 + col). split; [done|]. cbn [k_mem set_mem] in Hag. split.
  { etrans; [eapply agree_mono; [|exact Hag0]|eapply agree_mono; [|exact Hag]]; intros x [Hx Hx']; split; sarith. }
  assert (E : forall k, 16 <= k <= 20 -> load 4 m (r + k) = load 4 m0 (r + k)).
  { intros k Hk. apply load_agree. eapply agree_mono; [|exact Hag]. intros x Hx. split; sarith. }
  split; cbn [sl_page sl_base sl_free]; try done; try (soff; lia).
  - rewrite slots_length, Z2Nat.id by lia. rewrite E by (soff; lia). rewrite L3. lia.
  - rewrite E by (soff; lia). done.
  - intros o (i & Hi & ->)%slots_elem. exists i. split; [|done]. rewrite Z2Nat.id in Hi by lia. done.
  - apply slots_nodup. lia.
Qed.

(** The allocator gave out another page, which the cache does not use yet. *)
Lemma core_grow s s1 A r c arr L cpu H : core s A c arr L cpu H -> pa_inv s1 ((r, 0) :: A) ->
  agree (in_block A) (k_mem s) (k_mem s1) -> core s1 ((r, 0) :: A) c arr L cpu H.
Proof.
  intros Hc Ha Hag.
  assert (Hb : forall x, cache_bytes c arr L x -> in_block A x).
  { intros x [[Hx|[Hx|[Ha' Hx]]]|[[Hx|(sl & Hsl & Hx)]|(sl & Hsl & Hx)]].
    - apply (pages_in _ _ _ s A c arr L cpu H Hc x c); [apply in_pages_cache|sarith].
    - apply (pages_in _ _ _ s A c arr L cpu H Hc x c); [apply in_pages_cache|sarith].
    - apply (pages_in _ _ _ s A c arr L cpu H Hc x arr); [by apply in_pages_array|sarith].
    - apply (pages_in _ _ _ s A c arr L cpu H Hc x c); [apply in_pages_cache|sarith].
    - apply (pages_in _ _ _ s A c arr L cpu H Hc x (sl_page sl)); [by apply in_pages_slab|sarith].
    - apply (pages_in _ _ _ s A c arr L cpu H Hc x (sl_page sl)); [by apply in_pages_slab|].
      apply (slab_bytes_page osz ops (k_mem s)) in Hx as [Hx _]; [done|by apply Hc|done]. }
  destruct Hc as [C1 C2 C3 C4 C5 C6 C7 C8]. split; try done.
  - apply (header_frame osz ops lk (k_mem s)); [|done]. eapply agree_mono; [|exact Hag]. intros x Hx. apply Hb. by left.
  - apply (lists_frame (k_mem s)); [|done]. eapply agree_mono; [|exact Hag]. intros x Hx. apply Hb. by right; left.
  - intros sl Hsl. apply (slab_frame osz ops (k_mem s)); [done| |by apply C4]. eapply agree_mono; [|exact Hag].
    intros x Hx. apply Hb. right; right. by exists sl.
  - intros p Hp. right. by apply C6.
Qed.

(** A page that was just handed out is nobody's memory yet. *)
Lemma fresh_far s A r c arr L cpu H : core s ((r, 0) :: A) c arr L cpu H -> (r, 0) ∉ A ->
  (forall p, p ∈ cache_pages c arr L -> (p, 0) ∈ A) ->
  forall p, p ∈ cache_pages c arr L -> p + 4096 <= r \/ r + 4096 <= p.
Proof.
  intros Hc Hr Hown p Hp. assert (Hd : disj p 0 r 0).
  { eapply pa_disj; [apply Hc|right; by apply Hown|left|]. intros [= ->]. by apply Hr, Hown. }
  unfold disj in Hd. rewrite sz_0 in Hd. lia.
Qed.

Lemma fresh_client s A r c arr L cpu H x : core s ((r, 0) :: A) c arr L cpu H -> (r, 0) ∉ A ->
  (forall p, p ∈ cache_pages c arr L -> (p, 0) ∈ A) -> slab_client osz A c arr L H x ->
  slab_client osz ((r, 0) :: A) c arr L H x /\ ~ within r 4096 x.
Proof.
  intros Hc Hr Hown Hx. split.
  - destruct Hx as [[(b & o & Hb & Hx) Hn]|Hx]; [left; split; [exists b, o; split; [by right|done]|done]|by right].
  - intros Hw. destruct Hx as [[(b & o & Hb & Hx) _]|(o & Ho & Hx)].
    + assert (Hd : disj b o r 0) by (eapply pa_disj; [apply Hc|by right|left|]; intros [= -> ->]; by apply Hr).
      unfold disj in Hd. rewrite sz_0 in Hd. sarith.
    + destruct (held_slot s _ c arr L cpu H o Hc ltac:(set_solver)) as (sl & Hsl & _ & _ & R1 & R2). destruct G.
      pose proof (fresh_far s A r c arr L cpu H Hc Hr Hown _ (in_pages_slab c arr L sl Hsl)). sarith.
Qed.

(** Formatting the page changes nothing the cache reads. *)
Lemma core_format s A r c arr L cpu H m1 : core s ((r, 0) :: A) c arr L cpu H -> (r, 0) ∉ A ->
  (forall p, p ∈ cache_pages c arr L -> (p, 0) ∈ A) ->
  agree (fun x => ~ within r 4096 x /\ ~ within (c + C_COLOR_NEXT) 4 x) (k_mem s) m1 ->
  core (set_mem m1 s) ((r, 0) :: A) c arr L cpu H.
Proof.
  intros Hc Hr Hown Hag. pose proof (fresh_far s A r c arr L cpu H Hc Hr Hown) as Hfar.
  apply (slab_core_frame osz ops lk G s ((r, 0) :: A) c arr L cpu H Hc). eapply agree_mono; [|exact Hag]. intros x Hx.
  pose proof (Hfar c (in_pages_cache _ _ _)) as Hrc. destruct Hx as [Hx|Hx]; cycle 1.
  { split; intros Hw; apply Hx; [exists r, 0; split; [left|rewrite sz_0; exact Hw]|].
    apply (pages_in _ _ _ s _ c arr L cpu H Hc x c); [apply in_pages_cache|]. sarith. }
  destruct Hx as [[Hx|[Hx|[Ha Hx]]]|[[Hx|(sl & Hsl & Hx)]|(sl & Hsl & Hx)]]; try (split; sarith).
  - pose proof (Hfar arr (in_pages_array _ _ _ Ha)). pose proof (array_apart _ _ _ s _ c arr L cpu H Hc Ha). split; sarith.
  - pose proof (Hfar _ (in_pages_slab c arr L sl Hsl)). pose proof (slab_cache_apart _ _ _ s _ c arr L cpu H Hc sl Hsl). split; sarith.
  - apply (slab_bytes_page osz ops (k_mem s)) in Hx as [Hx _]; [|by apply Hc|done].
    pose proof (Hfar _ (in_pages_slab c arr L sl Hsl)). pose proof (slab_cache_apart _ _ _ s _ c arr L cpu H Hc sl Hsl). split; sarith.
Qed.

(** Linking a full-free slab [new] in front of the partial list. *)
Lemma core_link s A c arr L cpu H new : core s A c arr L cpu H -> (sl_page new, 0) ∈ A ->
  sl_page new ∉ cache_pages c arr L -> slab_ok osz ops (k_mem s) new ->
  (forall o, is_slot osz ops new o -> o ∈ sl_free new) ->
  exists m2, push_partial c (sl_page new) s = Done tt (set_mem m2 s) /\
    core (set_mem m2 s) A c arr (setL L C_PARTIAL (new :: L C_PARTIAL)) cpu H /\
    agree (fun x => ~ within (c + C_FULL) 24 x /\ ~ within (sl_page new) 8 x) (k_mem s) m2.
Proof.
  intros Hc Hr Hnp Hok Hall. set (r := sl_page new) in *.
  assert (Hfar : forall p, p ∈ cache_pages c arr L -> p + 4096 <= r \/ r + 4096 <= p).
  { intros p Hp. assert (Hd : disj p 0 r 0) by (eapply pa_disj; [apply Hc|by eapply sc_own|done|]; intros [= ->]; done).
    unfold disj in Hd. rewrite sz_0 in Hd. lia. }
  destruct (core_links _ _ _ _ _ _ _ Hc) as (H1 & H2 & H3 & H4). set (P := sl_page <$> all_slabs L) in *.
  assert (HP : forall p, p ∈ P -> p ∈ cache_pages c arr L) by (intros p Hp; right; apply elem_of_app; by right).
  destruct (push_ok c (r :: P)) with (m := k_mem s) (F := pagesF L) (f := C_PARTIAL) (p := r) as [Hpok _].
  { intros p q [->|Hp]%elem_of_cons [->|Hq]%elem_of_cons; [by left| | |by apply H1].
    - pose proof (Hfar q (HP q Hq)). lia.
    - pose proof (Hfar p (HP p Hp)). lia. }
  { intros p [->|Hp]%elem_of_cons; [|by apply H2]. pose proof (Hfar c (in_pages_cache _ _ _)). lia. }
  { intros p [->|Hp]%elem_of_cons; [apply (so_page _ _ _ _ Hok)|by apply H3]. }
  { intros f Hf. destruct (H4 f Hf) as [Hf1 Hf2]. split; [done|]. intros p Hp. right. by apply Hf2. }
  { unfold list_field. auto. }
  { left. }
  { intros g Hg Hin. apply Hnp, HP. by apply (H4 g Hg). }
  eexists. split; [reflexivity|]. set (m2 := store 8 _ (c + C_PARTIAL) r) in *.
  assert (Hag2 : agree (fun x => ~ within (c + C_FULL) 24 x /\ ~ within r 8 x) (k_mem s) m2).
  { unfold m2. intros x [Hx Hx']. rewrite !mget_store_out by sarith. done. }
  clearbody m2. split; [|done].
  assert (Hin : forall x, in_lists (setL L C_PARTIAL (new :: L C_PARTIAL)) x <-> x = new \/ in_lists L x).
  { intros x. rewrite <- !elem_all_slabs. unfold all_slabs, setL. cbn. set_solver. }
  assert (Hpages : cache_pages c arr (setL L C_PARTIAL (new :: L C_PARTIAL)) ≡ₚ r :: cache_pages c arr L).
  { assert (Hp : all_slabs (setL L C_PARTIAL (new :: L C_PARTIAL)) ≡ₚ new :: all_slabs L).
    { unfold all_slabs, setL. cbn. by rewrite <- Permutation_middle. }
    unfold cache_pages. rewrite Hp, fmap_cons, <- Permutation_middle. apply Permutation_swap. }
  pose proof (Hfar c (in_pages_cache _ _ _)) as Hrc.
  pose proof Hc as [C1 C2 C3 C4 C5 C6 C7 C8]. split; cbn [k_mem set_mem].
  - apply pa_write; [exact C1|]. eapply agree_mono; [|exact Hag2]. intros x Hx. split; intros Hw; apply Hx.
    + apply (pages_in _ _ _ s _ c arr L cpu H Hc x c); [apply in_pages_cache|]. sarith.
    + exists r, 0. split; [done|]. rewrite sz_0. sarith.
  - apply (header_frame osz ops lk (k_mem s)); [|done]. eapply agree_mono; [|exact Hag2]. intros x [Hx|[Hx|[Ha Hx]]].
    + split; sarith.
    + split; sarith.
    + pose proof (array_apart _ _ _ s _ c arr L cpu H Hc Ha). pose proof (Hfar arr (in_pages_array _ _ _ Ha)). split; sarith.
  - intros f Hf. destruct (Hpok f Hf) as [Hs _]. unfold setL, setP, pagesF in *. by destruct (f =? C_PARTIAL).
  - assert (Hkeep : forall sl, slab_ok osz ops (k_mem s) sl -> sl_page sl = r \/ sl_page sl + 4096 <= r \/ r + 4096 <= sl_page sl ->
      sl_page sl + 4096 <= c \/ c + 4096 <= sl_page sl -> slab_ok osz ops m2 sl).
    { intros sl Hs Hsep Hsc. apply (slab_frame osz ops (k_mem s)); [done| |done]. eapply agree_mono; [|exact Hag2]. intros x Hx.
      apply (slab_bytes_page osz ops (k_mem s)) in Hx as [Hx1 Hx2]; [|done|done]. split; [sarith|].
      intros Hw. destruct Hsep as [E|?]; [by rewrite E in Hx2|]. sarith. }
    intros x [->|Hx]%Hin; [apply Hkeep; [done|by left|fold r; lia]|].
    apply Hkeep; [by apply C4|right; by apply (Hfar _ (in_pages_slab c arr L x Hx))|by apply (slab_cache_apart _ _ _ s _ c arr L cpu H Hc)].
  - rewrite Hpages. by apply NoDup_cons.
  - intros p Hp. rewrite Hpages in Hp. apply elem_of_cons in Hp as [->|Hp]; [done|by apply C6].
  - done.
  - intros o. rewrite C8. unfold handed. split; intros (x & Hx & Hs & Hn).
    + exists x. split; [apply Hin; by right|done].
    + apply Hin in Hx as [->|Hx]; [|by exists x]. by destruct (Hn (Hall o Hs)).
Qed.
End ops.
