(* ===== verification/SlabProps.v ===== *)
(** The slab caches as their clients see them: objects that do not overlap, are
    handed to one client at a time, and keep their contents until they are freed. *)
From S2P Require Import Prelude Machine DList Buddy BuddyInv BuddyTrace PageAlloc KString SList Slab SlabInv SlabThms.

#[local] Opaque load store.

Section ops.
Context (osz ops : Z).
Context `{PA : PageAllocator 0 (buddy_alloc_pages 0 BUDDY_ZONE_UNMOVABLE) (fun a => buddy_free_pages a 0)}.
Context (G : good_sizes osz ops).
Abbreviation core lk := (slab_core osz ops lk).
Abbreviation inv lk := (slab_inv osz ops lk).

(** ** The lock and the counters *)

Lemma header_lock lk lk' m c arr cpu : 0 <= lk' < 2 ^ 32 -> header_ok osz ops lk m c arr cpu ->
  (arr <> 0 -> arr + 4096 <= c \/ c + 4096 <= arr) ->
  header_ok osz ops lk' (store 4 m (c + C_LOCK) lk') c arr cpu.
Proof.
  intros Hb [H1 H2 H3 H4 H5 H6 H7 H8 H9 H10] Ha. split; try done; try (by rewrite load_store_ne by sarith).
  - by apply load32_store_eq.
  - intros i o Hi. rewrite <- (H7 i o Hi). apply load_store_ne. pose proof (lookup_lt_Some _ _ _ Hi).
    assert (arr <> 0) by (intros E; by rewrite (H9 E) in Hi). unfold SLAB_CPU_CACHE_SIZE in *. sarith.
  - intros i Hi. rewrite <- (H10 i Hi). unfold MAX_CPUS in Hi. apply load_store_ne. sarith.
Qed.

(** Writing the lock word. *)
Lemma inv_lock lk lk' s A c arr L cpu H : 0 <= lk' < 2 ^ 32 -> inv lk s A c arr L cpu H ->
  let m' := store 4 (k_mem s) (c + C_LOCK) lk' in
  inv lk' (set_mem m' s) A c arr L cpu H /\ agree (slab_client osz A c arr L H) (k_mem s) m'.
Proof.
  intros Hb [Hc Hcl] m'. assert (Hag : agree (fun x => ~ within (c + C_LOCK) 4 x) (k_mem s) m').
  { unfold m'. intros x Hx. rewrite mget_store_out by sarith. done. }
  split; [split; [|done]|].
  - pose proof Hc as [C1 C2 C3 C4 C5 C6 C7 C8]. split; try done; cbn [k_mem set_mem].
    + apply pa_write; [done|]. eapply agree_mono; [|exact Hag]. intros x Hx Hw. apply Hx.
      apply (pages_in _ _ _ s A c arr L cpu H Hc x c); [apply in_pages_cache|]. sarith.
    + apply (header_lock lk); [done|done|]. intros Ha. pose proof (array_apart _ _ _ s A c arr L cpu H Hc Ha). lia.
    + apply (lists_frame (k_mem s)); [|done]. eapply agree_mono; [|exact Hag]. intros x [Hx|(sl & Hsl & Hx)]; [sarith|].
      pose proof (slab_cache_apart _ _ _ s A c arr L cpu H Hc sl Hsl). sarith.
    + intros sl Hsl. apply (slab_frame osz ops (k_mem s)); [done| |by apply C4]. eapply agree_mono; [|exact Hag].
      intros x Hx. apply (slab_bytes_page osz ops (k_mem s)) in Hx as [Hx _]; [|by apply C4|done].
      pose proof (slab_cache_apart _ _ _ s A c arr L cpu H Hc sl Hsl). sarith.
  - eapply agree_mono; [|exact Hag]. intros x Hx.
    destruct (client_away osz ops lk G s A c arr L cpu H x Hc Hx) as (Hn & _). sarith.
Qed.

(** Counting an operation. *)
Lemma inv_bump lk s A c arr L cpu H f : inv lk s A c arr L cpu H -> f = C_ALLOCATIONS \/ f = C_FREES \/ f = C_HITS ->
  exists m', bump64 (c + f) s = Done tt (set_mem m' s) /\ inv lk (set_mem m' s) A c arr L cpu H /\
    agree (slab_client osz A c arr L H) (k_mem s) m' /\ agree (fun x => ~ within (c + C_ALLOCATIONS) 24 x) (k_mem s) m'.
Proof.
  intros [Hc Hcl] Hf. unfold bump64, load64, store64, mbind, M_bind, gets, modify. eexists. split; [reflexivity|].
  assert (Hag : agree (fun x => ~ within (c + C_ALLOCATIONS) 24 x) (k_mem s)
    (store 8 (k_mem s) (c + f) (u64 (load 8 (k_mem s) (c + f) + 1)))).
  { apply agree_store. intros x Hx Hw. destruct Hf as [-> | [-> | ->]]; sarith. }
  split; [split; [|done]|split; [|done]].
  - by apply (core_counter osz ops lk G s A c arr L cpu H Hc).
  - eapply agree_mono; [|exact Hag]. intros x Hx.
    destruct (client_away osz ops lk G s A c arr L cpu H x Hc Hx) as (Hn & _). sarith.
Qed.

(** ** The per-CPU array *)

Lemma core_header lk s A c arr L cpu H cpu' H' m' : core lk s A c arr L cpu H ->
  agree (fun x => ~ within (c + C_CPU) 16 x /\ (arr <> 0 -> ~ within arr 128 x)) (k_mem s) m' ->
  header_ok osz ops lk m' c arr cpu' -> cpu' ++ H' ≡ₚ cpu ++ H -> core lk (set_mem m' s) A c arr L cpu' H'.
Proof.
  intros Hc Hag Hh Hp. pose proof Hc as [C1 C2 C3 C4 C5 C6 C7 C8]. split; try done; cbn [k_mem set_mem].
  - apply pa_write; [done|]. eapply agree_mono; [|exact Hag]. intros x Hx. split; [intros Hw|intros Ha Hw]; apply Hx.
    + apply (pages_in _ _ _ s A c arr L cpu H Hc x c); [apply in_pages_cache|]. sarith.
    + apply (pages_in _ _ _ s A c arr L cpu H Hc x arr); [by apply in_pages_array|]. sarith.
  - apply (lists_frame (k_mem s)); [|done]. eapply agree_mono; [|exact Hag]. intros x [Hx|(sl & Hsl & Hx)].
    + split; [sarith|]. intros Ha. pose proof (array_apart _ _ _ s A c arr L cpu H Hc Ha). sarith.
    + pose proof (slab_cache_apart _ _ _ s A c arr L cpu H Hc sl Hsl). split; [sarith|].
      intros Ha. pose proof (slab_array_apart _ _ _ s A c arr L cpu H Hc sl Hsl Ha). sarith.
  - intros sl Hsl. apply (slab_frame osz ops (k_mem s)); [done| |by apply C4]. eapply agree_mono; [|exact Hag].
    intros x Hx. apply (slab_bytes_page osz ops (k_mem s)) in Hx as [Hx _]; [|by apply C4|done].
    pose proof (slab_cache_apart _ _ _ s A c arr L cpu H Hc sl Hsl). split; [sarith|].
    intros Ha. pose proof (slab_array_apart _ _ _ s A c arr L cpu H Hc sl Hsl Ha). sarith.
  - by rewrite Hp.
  - intros o. by rewrite Hp.
Qed.

(** The last object of the array is handed out. *)
Lemma cpu_pop lk s A c arr L cpu o H : inv lk s A c arr L (cpu ++ [o]) H ->
  let m' := store 4 (k_mem s) (cpu_cache c 0 + U_AVAILABLE) (Z.of_nat (length cpu)) in
  inv lk (set_mem m' s) A c arr L cpu (o :: H) /\ agree (slab_client osz A c arr L H) (k_mem s) m' /\
  load 8 m' (arr + 8 * Z.of_nat (length cpu)) = o /\ load 8 m' (cpu_cache c 0 + U_OBJECTS) = arr.
Proof.
  intros [Hc Hcl] m'. pose proof (sc_header _ _ _ _ _ _ _ _ _ _ Hc) as Hh. pose proof Hh as [H1 H2 H3 H4 H5 H6 H7 H8 H9 H10].
  assert (Ha : arr <> 0) by (intros E; apply H9 in E; by destruct cpu).
  pose proof (array_apart _ _ _ s A c arr L _ H Hc Ha) as Hap. rewrite length_app in H5, H8. simpl in H5, H8.
  unfold SLAB_CPU_CACHE_SIZE in *.
  assert (Hlk : forall i, (i < 16)%nat -> load 8 m' (arr + 8 * Z.of_nat i) = load 8 (k_mem s) (arr + 8 * Z.of_nat i)).
  { intros i Hi. apply load_store_ne. sarith. }
  assert (Hag : agree (fun x => ~ within (c + C_CPU) 16 x) (k_mem s) m').
  { apply agree_store. intros x Hx Hw. sarith. }
  split; [|split; [|split]].
  - split; [|done]. apply (core_header lk s A c arr L (cpu ++ [o]) H); [done| | |by rewrite <- app_assoc].
    + eapply agree_mono; [|exact Hag]. by intros x [Hx _].
    + split; try done; try (unfold m'; by rewrite load_store_ne by sarith).
      * unfold m'. apply load32_store_eq. lia.
      * intros i x Hi. pose proof (lookup_lt_Some _ _ _ Hi). rewrite Hlk by lia. apply H7. by apply lookup_app_l_Some.
      * unfold SLAB_CPU_CACHE_SIZE. lia.
      * intros i Hi. rewrite <- (H10 i Hi). unfold MAX_CPUS in Hi. apply load_store_ne. sarith.
  - eapply agree_mono; [|exact Hag]. intros x Hx.
    destruct (client_away osz ops lk G s A c arr L _ H x Hc Hx) as (Hn & _). sarith.
  - rewrite Hlk by lia. apply H7. by apply list_lookup_middle.
  - unfold m'. by rewrite load_store_ne by sarith.
Qed.

(** ** Allocation *)

(** What handing out [o] leaves, other pages possibly having been taken. *)
Definition handed_out (lk : Z) (s : kst) (A : blocks) (c arr : Z) (L : lists_of) (H : list Z) (o : Z) (s' : kst) : Prop :=
  o <> NULL /\ same_statics s s' /\ exists A' L' cpu', inv lk s' A' c arr L' cpu' (o :: H) /\ A ⊆ A' /\
    (forall p, p ∈ cache_pages c arr L' -> p ∈ cache_pages c arr L \/ (p, 0) ∉ A).

(** The slab to allocate from, in the order the code tries. *)
Definition pick (c : Z) : K Z :=
  slab ← load64 (c + C_PARTIAL);
  if negb (slab =? NULL) then take_from c slab
  else
    slab ← load64 (c + C_FREE);
    if negb (slab =? NULL) then
      next ← load64 (slab + S_NEXT);
      store64 (c + C_FREE) next ;;
      push_partial c slab ;;
      take_from c slab
    else
      slab ← slab_create c;
      if negb (slab =? NULL) then push_partial c slab ;; take_from c slab
      else mret NULL.

Lemma head_page lk s A c arr L cpu H f : core lk s A c arr L cpu H -> list_field f ->
  load 8 (k_mem s) (c + f) = match L f with [] => NULL | sl :: _ => sl_page sl end.
Proof. intros Hc Hf. pose proof (sc_lists _ _ _ _ _ _ _ _ _ _ Hc f Hf) as Hl. destruct (L f); [done|]. apply Hl. Qed.

Lemma slab_nonnull lk s A c arr L cpu H sl : core lk s A c arr L cpu H -> in_lists L sl -> sl_page sl <> NULL.
Proof.
  intros Hc Hin. pose proof (so_page _ _ _ _ (sc_slabs _ _ _ _ _ _ _ _ _ _ Hc sl Hin)). unfold NULL. lia.
Qed.

Lemma taken_out lk s A c arr L cpu H o s' : taken osz ops lk s A c arr L cpu H o s' ->
  handed_out lk s A c arr L H o s' /\ agree (slab_client osz A c arr L H) (k_mem s) (k_mem s').
Proof.
  intros (m' & L' & -> & Hi & Ho & Hp & Hag). split; [|done]. split; [done|]. split; [done|].
  exists A, L', cpu. split; [done|]. split; [done|]. intros p Hpp. left. by rewrite <- Hp.
Qed.

(** Allocation from the partial list. *)
Lemma pick_partial lk s A c arr L cpu H sl rest : inv lk s A c arr L cpu H -> L C_PARTIAL = sl :: rest ->
  wp (take_from c (sl_page sl)) (fun o s' => handed_out lk s A c arr L H o s' /\
    agree (slab_client osz A c arr L H) (k_mem s) (k_mem s')) s.
Proof.
  intros Hi HL. destruct (take_from_ok osz ops lk G s A c arr L cpu H sl rest Hi HL) as (o & s' & Hrun & Ht).
  eapply wp_of_Done; [exact Hrun|]. by eapply taken_out.
Qed.

(** Allocation from a wholly free slab, which becomes partial. *)
Lemma pick_free lk s A c arr L cpu H sl rest : inv lk s A c arr L cpu H -> L C_PARTIAL = [] -> L C_FREE = sl :: rest ->
  wp (next ← load64 (sl_page sl + S_NEXT); store64 (c + C_FREE) next ;; push_partial c (sl_page sl) ;; take_from c (sl_page sl))
    (fun o s' => handed_out lk s A c arr L H o s' /\ agree (slab_client osz A c arr L H) (k_mem s) (k_mem s')) s.
Proof.
  intros [Hc Hcl] HP HF. assert (HFF : list_field C_FREE /\ list_field C_PARTIAL) by (unfold list_field; auto).
  destruct HFF as [HFF HFP].
  destruct (core_move osz ops lk G s A c arr L cpu H C_FREE C_PARTIAL [] sl rest Hc HFF HFP ltac:(done) HF)
    as (m1 & Hrun & Hc1 & Hag).
  set (L1 := setL _ C_PARTIAL _) in *.
  assert (Hmv : (next ← load64 (sl_page sl + S_NEXT); store64 (c + C_FREE) next ;; push_partial c (sl_page sl)) s =
    Done tt (set_mem m1 s)).
  { rewrite <- Hrun. unfold slab_move_to_list, push_partial, load64, store64, mbind, M_bind, gets, modify.
    pose proof (head_page lk s A c arr L cpu H C_FREE Hc HFF) as E. rewrite HF in E. rewrite E, Z.eqb_refl. done. }
  assert (Hi1 : inv lk (set_mem m1 s) A c arr L1 cpu H).
  { split; [done|]. destruct Hcl as [D1 D2 D3]. split; intros x Hx; unfold L1, setL in Hx; cbn in Hx.
    - by apply D1.
    - rewrite HP in Hx. apply list_elem_of_singleton in Hx as ->. intros E.
      assert (Hn : Z.of_nat (length (sl_free sl)) = ops) by (apply D3; rewrite HF; left). rewrite E in Hn.
      destruct G as (_ & G2 & _). simpl in Hn. lia.
    - apply D3. rewrite HF. by right. }
  destruct (take_from_ok osz ops lk G _ A c arr L1 cpu H sl [] Hi1) as (o & s' & Hrun2 & Ht).
  { unfold L1, setL. cbn. by rewrite HP. }
  assert (Hall : wp (next ← load64 (sl_page sl + S_NEXT); store64 (c + C_FREE) next ;; push_partial c (sl_page sl) ;; take_from c (sl_page sl))
    (fun r s2 => r = o /\ s2 = s') s).
  { unfold wp. unfold mbind, M_bind in *. unfold load64, gets, store64, modify in *. rewrite Hmv. by rewrite Hrun2. }
  eapply wp_mono; [exact Hall|]. intros r s2 [-> ->]. destruct (taken_out lk _ A c arr L1 cpu H o s' Ht) as [(Ho & Hst & A' & L' & cpu' & Hi' & HA & Hpp) Hag'].
  assert (Hperm : cache_pages c arr L1 ≡ₚ cache_pages c arr L).
  { apply perm_pages. unfold L1. by apply (move_perm L C_FREE C_PARTIAL [] sl rest). }
  split; [split; [done|]; split; [done|]; exists A', L', cpu'; split; [done|]; split; [done|]|].
  - intros p Hp. destruct (Hpp p Hp) as [Hq|Hq]; [left|by right]. by rewrite <- Hperm.
  - etrans; [eapply agree_mono; [|exact Hag]|eapply agree_mono; [|exact Hag']]; intros x Hx.
    + by destruct (client_away osz ops lk G s A c arr L cpu H x Hc Hx) as (_ & _ & _ & Hn).
    + eapply client_mono; [| |exact Hx]; [|done]. intros p Hp. by rewrite <- Hperm.
Qed.

(** A fresh page becomes a slab of the partial list. *)
Lemma link_new lk s s1 A r c arr L cpu H : inv lk s A c arr L cpu H -> page_block r 0 -> pa_inv s1 ((r, 0) :: A) ->
  (r, 0) ∉ A -> agree (in_block A) (k_mem s) (k_mem s1) ->
  exists new m2 m3, slab_format c r s1 = Done tt (set_mem m2 s1) /\ push_partial c r (set_mem m2 s1) = Done tt (set_mem m3 s1) /\
    sl_page new = r /\ inv lk (set_mem m3 s1) ((r, 0) :: A) c arr (setL L C_PARTIAL (new :: L C_PARTIAL)) cpu H /\
    agree (slab_client osz A c arr L H) (k_mem s) m3.
Proof.
  intros [Hc Hcl] (_ & Hr0 & _ & Hr1) Ha1 Hnew Hag1. pose proof G as (G1 & G2 & G3). rewrite sz_0 in Hr1. unfold PHYS_LIMIT in Hr1.
  pose proof (core_grow osz ops lk G s s1 A r c arr L cpu H Hc Ha1 Hag1) as Hc1.
  pose proof (sc_own _ _ _ _ _ _ _ _ _ _ Hc) as Hown.
  pose proof (fresh_far osz ops lk s1 A r c arr L cpu H Hc1 Hnew Hown c (in_pages_cache _ _ _)) as Hrc.
  destruct (wp_Done _ _ _ (slab_format_ok osz ops lk G s1 c arr cpu r (sc_header _ _ _ _ _ _ _ _ _ _ Hc1) ltac:(lia) ltac:(lia) ltac:(lia)))
    as ([] & s2 & Hrun2 & m2 & base & -> & Hag2 & Hok).
  pose proof (core_format osz ops lk G s1 A r c arr L cpu H m2 Hc1 Hnew Hown Hag2) as Hc2.
  set (new := mkSlab r base _) in *.
  assert (Hall : forall o, is_slot osz ops new o -> o ∈ sl_free new).
  { intros o (i & Hi & ->). cbn. apply slots_elem. exists i. rewrite Z2Nat.id by lia. done. }
  assert (Hnp : r ∉ cache_pages c arr L) by (intros Hp; apply Hnew; by apply Hown).
  destruct (core_link osz ops lk G (set_mem m2 s1) ((r, 0) :: A) c arr L cpu H new Hc2 ltac:(left) Hnp Hok Hall)
    as (m3 & Hpush & Hc3 & Hag3). exists new, m2, m3. split; [done|]. split; [done|]. split; [done|]. split; [split; [exact Hc3|]|].
  - destruct Hcl as [D1 D2 D3]. split; intros x Hx; unfold setL in Hx; cbn in Hx; auto.
    apply elem_of_cons in Hx as [->|Hx]; [|auto]. cbn. intros E.
    assert (Hln : length (slots osz base (Z.to_nat ops)) = Z.to_nat ops) by apply slots_length. rewrite E in Hln. simpl in Hln. lia.
  - assert (Hfresh : forall x, slab_client osz A c arr L H x -> ~ within c 4096 x /\ ~ within r 4096 x).
    { intros x Hx. destruct (fresh_client osz ops lk G s1 A r c arr L cpu H x Hc1 Hnew Hown Hx) as [Hx' Hxr].
      split; [|done]. by destruct (client_away osz ops lk G s1 _ c arr L cpu H x Hc1 Hx') as (Hn & _). }
    etrans; [eapply agree_mono; [|exact Hag1]|]; [|etrans; [eapply agree_mono; [|exact Hag2]|eapply agree_mono; [|exact Hag3]]]; intros x Hx.
    + destruct Hx as [[Hx _]|(o' & Ho' & Hx)]; [done|].
      destruct (held_slot osz ops lk G s A c arr L cpu H o' Hc ltac:(set_solver)) as (sl & Hsl & _ & _ & R1 & R2).
      apply (pages_in _ _ _ s A c arr L cpu H Hc x (sl_page sl)); [by apply in_pages_slab|]. sarith.
    + destruct (Hfresh x Hx) as [Hx' Hxr]. split; [done|]. sarith.
    + destruct (Hfresh x Hx) as [Hx' Hxr]. cbn [new sl_page]. split; sarith.
Qed.

(** The pages of a cache that got one more slab. *)
Lemma linked_pages c arr L new p : p ∈ cache_pages c arr (setL L C_PARTIAL (new :: L C_PARTIAL)) <->
  p = sl_page new \/ p ∈ cache_pages c arr L.
Proof.
  unfold cache_pages. rewrite !elem_of_cons, !elem_of_app.
  assert (Hq : p ∈ sl_page <$> all_slabs (setL L C_PARTIAL (new :: L C_PARTIAL)) <-> p = sl_page new \/ p ∈ sl_page <$> all_slabs L).
  { unfold all_slabs, setL. cbn. rewrite !fmap_app. set_solver. }
  rewrite Hq. tauto.
Qed.

(** The page source of the slabs. *)
Context (Hslab : serves pa_inv 0 (buddy_alloc_pages 0 BUDDY_ZONE_RECLAIMABLE)).

(** Allocation from a new slab. *)
Lemma pick_new lk s A c arr L cpu H : inv lk s A c arr L cpu H -> L C_PARTIAL = [] ->
  wp (slab ← slab_create c; if negb (slab =? NULL) then push_partial c slab ;; take_from c slab else mret NULL)
    (fun o s' => (o = NULL /\ s' = s /\ buddy_alloc_pages 0 BUDDY_ZONE_RECLAIMABLE s = Done 0 s) \/
      (handed_out lk s A c arr L H o s' /\ agree (slab_client osz A c arr L H) (k_mem s) (k_mem s'))) s.
Proof.
  intros Hi HP. pose proof (si_core _ _ _ _ _ _ _ _ _ _ Hi) as Hc.
  destruct (Hslab s A (sc_alloc _ _ _ _ _ _ _ _ _ _ Hc)) as (r & s1 & Hal & Hst & Hcase).
  apply wp_bind. unfold slab_create. apply wp_bind. eapply wp_of_Done; [exact Hal|].
  destruct Hcase as [[-> ->]|(Hb & Ha1 & Hnew & Hag1)]; [apply wp_ret, wp_ret; by left|].
  rewrite (proj2 (Z.eqb_neq r 0)) by (destruct Hb; lia).
  destruct (link_new lk s s1 A r c arr L cpu H Hi Hb Ha1 Hnew Hag1) as (new & m2 & m3 & Hfmt & Hpush & Hpg & Hi3 & Hag3).
  apply wp_bind. eapply wp_of_Done; [exact Hfmt|]. apply wp_ret. rewrite (proj2 (Z.eqb_neq r NULL)) by (unfold NULL; destruct Hb; lia).
  cbn [negb]. apply wp_bind. eapply wp_of_Done; [exact Hpush|]. rewrite HP in Hi3. set (L1 := setL L C_PARTIAL [new]) in *.
  assert (HL1 : L1 C_PARTIAL = [new]) by (unfold L1, setL; by rewrite Z.eqb_refl).
  rewrite <- Hpg. eapply wp_mono; [by apply (pick_partial lk (set_mem m3 s1) ((r, 0) :: A) c arr L1 cpu H new [])|].
  intros o s4 [(Ho & Hst4 & A' & L' & cpu' & Hi' & HA & Hpp) Hag4]. right.
  assert (Hpages : forall p, p ∈ cache_pages c arr L1 <-> p = r \/ p ∈ cache_pages c arr L).
  { intros p. rewrite <- Hpg. unfold L1. rewrite <- HP. apply linked_pages. }
  split; [split; [done|]; split; [by etrans|]; exists A', L', cpu'; split; [done|]; split|].
  - intros b Hb'. apply HA. by right.
  - intros p Hp. destruct (Hpp p Hp) as [Hq|Hq]; [|right; intros Hb'; apply Hq; by right].
    apply Hpages in Hq as [->|Hq]; [by right|by left].
  - etrans; [exact Hag3|]. eapply agree_mono; [|exact Hag4]. intros x Hx.
    pose proof (core_grow osz ops lk G s s1 A r c arr L cpu H Hc Ha1 Hag1) as Hc1.
    destruct (fresh_client osz ops lk G s1 A r c arr L cpu H x Hc1 Hnew (sc_own _ _ _ _ _ _ _ _ _ _ Hc) Hx) as [Hx' Hxr].
    destruct Hx' as [[Hb' Hn]|Hx']; [left|by right]. split; [done|]. intros p [->|Hp]%Hpages; [done|by apply Hn].
Qed.

Lemma pick_ok lk s A c arr L cpu H : inv lk s A c arr L cpu H ->
  wp (pick c) (fun o s' => (o = NULL /\ s' = s /\ L C_PARTIAL = [] /\ L C_FREE = [] /\
       buddy_alloc_pages 0 BUDDY_ZONE_RECLAIMABLE s = Done 0 s) \/
     (handed_out lk s A c arr L H o s' /\ agree (slab_client osz A c arr L H) (k_mem s) (k_mem s'))) s.
Proof.
  intros Hi. pose proof (si_core _ _ _ _ _ _ _ _ _ _ Hi) as Hc. unfold pick.
  assert (HFF : list_field C_FREE /\ list_field C_PARTIAL) by (unfold list_field; auto). destruct HFF as [HFF HFP].
  apply wp_bind, wp_gets. rewrite (head_page lk s A c arr L cpu H C_PARTIAL Hc HFP).
  destruct (L C_PARTIAL) as [|sl rest] eqn:EP; cycle 1.
  { rewrite (proj2 (Z.eqb_neq _ NULL)) by (eapply slab_nonnull; [exact Hc|]; exists C_PARTIAL; rewrite EP; split; [done|left]).
    cbn [negb]. eapply wp_mono; [by apply (pick_partial lk s A c arr L cpu H sl rest)|]. intros o s' Ho. by right. }
  rewrite Z.eqb_refl. cbn [negb]. apply wp_bind, wp_gets. rewrite (head_page lk s A c arr L cpu H C_FREE Hc HFF).
  destruct (L C_FREE) as [|sl rest] eqn:EF; cycle 1.
  { rewrite (proj2 (Z.eqb_neq _ NULL)) by (eapply slab_nonnull; [exact Hc|]; exists C_FREE; rewrite EF; split; [done|left]).
    cbn [negb]. eapply wp_mono; [by apply (pick_free lk s A c arr L cpu H sl rest)|]. intros o s' Ho. by right. }
  rewrite Z.eqb_refl. cbn [negb]. eapply wp_mono; [by apply (pick_new lk s A c arr L cpu H)|].
  intros o s' [(-> & -> & Hx)|Ho]; [left|by right]. done.
Qed.

(** Two objects that are out are apart. *)
Lemma held_apart lk s A c arr L cpu H o1 o2 : core lk s A c arr L cpu H -> o1 ∈ cpu ++ H -> o2 ∈ cpu ++ H -> o1 <> o2 ->
  o1 + osz <= o2 \/ o2 + osz <= o1.
Proof.
  intros Hc H1 H2 Hne. destruct (held_slot osz ops lk G s A c arr L cpu H o1 Hc H1) as (sl & Hs & Hi & _ & R1 & R2).
  destruct (held_slot osz ops lk G s A c arr L cpu H o2 Hc H2) as (sl' & Hs' & Hi' & _ & R1' & R2').
  destruct (decide (sl_page sl = sl_page sl')) as [E|E].
  - rewrite <- (same_slab _ _ _ s A c arr L cpu H Hc sl sl' Hs Hs' E) in Hi'. destruct G as [G1 _].
    destruct (slot_apart osz ops sl o1 o2 Hi Hi' G1) as [?|?]; [done|lia].
  - pose proof (slabs_apart _ _ _ s A c arr L cpu H Hc sl sl' Hs Hs' E). lia.
Qed.

(** The bytes of a page the cache has taken are not those of another block. *)
Lemma new_page_out s A A' p x : pa_inv s A' -> A ⊆ A' -> (p, 0) ∈ A' -> (p, 0) ∉ A -> in_block A x -> ~ within p 4096 x.
Proof.
  intros Hi HA Hp Hn (b & ob & Hb & Hx) Hw.
  assert (Hd : disj p 0 b ob). { eapply pa_disj; [done|done|by apply HA|]. intros E. by rewrite E in Hn. }
  unfold disj in Hd. rewrite sz_0 in Hd. unfold within in *. lia.
Qed.

(** What the clients had is still theirs, and the new object is none of it. *)
Lemma handed_client lk s A c arr L H o s' : handed_out lk s A c arr L H o s' -> exists A' L' cpu',
  inv lk s' A' c arr L' cpu' (o :: H) /\ A ⊆ A' /\
  (forall x, slab_client osz A c arr L H x -> slab_client osz A' c arr L' (o :: H) x) /\
  (forall x, slab_client osz A c arr L H x -> ~ within o osz x).
Proof.
  intros (Ho & Hst & A' & L' & cpu' & Hi & HA & Hpp). exists A', L', cpu'. split; [done|]. split; [done|].
  pose proof (si_core _ _ _ _ _ _ _ _ _ _ Hi) as Hc. pose proof (sc_alloc _ _ _ _ _ _ _ _ _ _ Hc) as Hpa.
  assert (Hout : forall x p, p ∈ cache_pages c arr L' -> in_block A x ->
    (forall q, q ∈ cache_pages c arr L -> ~ within q 4096 x) -> ~ within p 4096 x).
  { intros x p Hp Hb Hn. destruct (Hpp p Hp) as [Hq|Hq]; [by apply Hn|].
    apply (new_page_out s' A A' p x Hpa HA); [|done|done]. by apply (sc_own _ _ _ _ _ _ _ _ _ _ Hc). }
  split; intros x [[Hb Hn]|(o' & Ho' & Hx)].
  - left. split; [|intros p Hp; by apply Hout]. destruct Hb as (b & ob & Hb & Hw). exists b, ob. split; [by apply HA|done].
  - right. exists o'. split; [by right|done].
  - destruct (held_slot osz ops lk G s' A' c arr L' cpu' (o :: H) o Hc ltac:(apply elem_of_app; right; left))
      as (sl & Hs & _ & _ & R1 & R2).
    intros Hw. apply (Hout x (sl_page sl) (in_pages_slab c arr L' sl Hs) Hb Hn). unfold within in *. lia.
  - pose proof (sc_client _ _ _ _ _ _ _ _ _ _ Hc) as Hnd. apply NoDup_app in Hnd as (_ & _ & [Hno _]%NoDup_cons).
    assert (o <> o') by (intros ->; done).
    pose proof (held_apart lk s' A' c arr L' cpu' (o :: H) o o' Hc ltac:(apply elem_of_app; right; left)
      ltac:(apply elem_of_app; right; by right) ltac:(done)). unfold within in *. lia.
Qed.

Lemma acquire_ok s c : load 4 (k_mem s) (c + C_LOCK) = 0 ->
  spinlock_acquire (c + C_LOCK) s = Done tt (set_mem (store 4 (k_mem s) (c + C_LOCK) 1) s).
Proof. intros E. unfold spinlock_acquire, load32, mbind, M_bind, gets. by rewrite E. Qed.

Lemma release_ok s c : spinlock_release (c + C_LOCK) s = Done tt (set_mem (store 4 (k_mem s) (c + C_LOCK) 0) s).
Proof. done. Qed.

Lemma statics_set_mem m s s' : same_statics s s' -> same_statics s (set_mem m s').
Proof. done. Qed.

(** What an allocation gives: no object, or one that was no client's. *)
Definition allocated (s : kst) (A : blocks) (c arr : Z) (L : lists_of) (cpu H : list Z) (o : Z) (s' : kst) : Prop :=
  same_statics s s' /\ agree (slab_client osz A c arr L H) (k_mem s) (k_mem s') /\
  ((o = NULL /\ inv 0 s' A c arr L cpu H /\ cpu = [] /\ L C_PARTIAL = [] /\ L C_FREE = [] /\
      buddy_alloc_pages 0 BUDDY_ZONE_RECLAIMABLE (set_mem (store 4 (k_mem s) (c + C_LOCK) 1) s) =
        Done 0 (set_mem (store 4 (k_mem s) (c + C_LOCK) 1) s)) \/
   (o <> NULL /\ (forall x, slab_client osz A c arr L H x -> ~ within o osz x) /\
      exists A' L' cpu', inv 0 s' A' c arr L' cpu' (o :: H) /\ A ⊆ A')).

(** From the array: two counters are bumped. *)
Lemma alloc_cached s A c arr L cpu o H : inv 0 s A c arr L (cpu ++ [o]) H ->
  exists s', slab_alloc c s = Done o s' /\ allocated s A c arr L (cpu ++ [o]) H o s'.
Proof.
  intros Hi. pose proof (sc_header _ _ _ _ _ _ _ _ _ _ (si_core _ _ _ _ _ _ _ _ _ _ Hi)) as Hh.
  pose proof (ho_avail _ _ _ _ _ _ _ Hh) as Hav. pose proof (ho_length _ _ _ _ _ _ _ Hh) as Hln.
  unfold SLAB_CPU_CACHE_SIZE in Hln. rewrite length_app in Hav, Hln. cbn [length] in Hav, Hln.
  destruct (cpu_pop 0 s A c arr L cpu o H Hi) as (Hi1 & Hag1 & Ho & Harr).
  unfold slab_alloc. rewrite (proj2 (Z.eqb_neq c NULL)); cycle 1.
  { unfold NULL. pose proof (page_range _ _ _ s A c arr L _ H (si_core _ _ _ _ _ _ _ _ _ _ Hi) c (in_pages_cache c arr L)). lia. }
  unfold load32, load64, store32, mbind, M_bind, gets, modify. rewrite Hav.
  replace (0 <? Z.of_nat (length cpu + 1)) with true by (symmetry; apply Z.ltb_lt; lia).
  replace (Z.of_nat (length cpu + 1) - 1) with (Z.of_nat (length cpu)) by lia. rewrite u32_id by lia.
  cbn [k_mem set_mem]. set (m1 := store 4 (k_mem s) _ _) in *.
  assert (Hn : load 4 m1 (cpu_cache c 0 + U_AVAILABLE) = Z.of_nat (length cpu)) by (apply load32_store_eq; lia).
  clearbody m1. rewrite Hn, Harr, Ho.
  destruct (inv_bump 0 _ A c arr L cpu (o :: H) C_HITS Hi1 ltac:(auto)) as (m2 & Hb2 & Hi2 & Hag2 & _).
  rewrite Hb2. destruct (inv_bump 0 _ A c arr L cpu (o :: H) C_ALLOCATIONS Hi2 ltac:(auto)) as (m3 & Hb3 & Hi3 & Hag3 & _).
  rewrite Hb3. eexists. split; [reflexivity|].
  assert (Hm : forall x, slab_client osz A c arr L H x -> slab_client osz A c arr L (o :: H) x).
  { intros x Hx. eapply client_mono; [| |exact Hx]; [done|set_solver]. }
  split; [by apply statics_set_mem|]. split.
  - etrans; [exact Hag1|]. etrans; [eapply agree_mono; [exact Hm|exact Hag2]|eapply agree_mono; [exact Hm|exact Hag3]].
  - right. assert (Hout : handed_out 0 s A c arr L H o (set_mem m3 s)).
    { split; [|split; [done|exists A, L, cpu; split; [done|]; split; [done|auto]]].
      destruct (held_slot osz ops 0 G _ A c arr L _ _ o (si_core _ _ _ _ _ _ _ _ _ _ Hi3) ltac:(apply elem_of_app; right; left))
        as (sl & Hs & _ & _ & R1 & _).
      pose proof (so_page _ _ _ _ (sc_slabs _ _ _ _ _ _ _ _ _ _ (si_core _ _ _ _ _ _ _ _ _ _ Hi3) sl Hs)). unfold NULL. lia. }
    destruct (handed_client 0 s A c arr L H o _ Hout) as (A' & L' & cpu' & H1 & H2 & _ & H3).
    split; [apply Hout|]. split; [exact H3|]. by exists A', L', cpu'.
Qed.

(** From the slabs, under the lock. *)
Lemma alloc_locked s A c arr L H : inv 0 s A c arr L [] H ->
  wp (spinlock_acquire (c + C_LOCK) ;; obj ← pick c; when (negb (obj =? NULL)) (bump64 (c + C_ALLOCATIONS)) ;;
      spinlock_release (c + C_LOCK) ;; mret obj) (allocated s A c arr L [] H) s.
Proof.
  intros Hi. pose proof (sc_header _ _ _ _ _ _ _ _ _ _ (si_core _ _ _ _ _ _ _ _ _ _ Hi)) as Hh.
  apply wp_bind. eapply wp_of_Done; [apply acquire_ok, Hh|].
  destruct (inv_lock 0 1 s A c arr L [] H ltac:(lia) Hi) as [Hi1 Hag1]. cbn zeta in Hi1, Hag1.
  set (m1 := store 4 (k_mem s) (c + C_LOCK) 1) in *.
  apply wp_bind. eapply wp_mono; [by apply (pick_ok 1 _ A c arr L [] H)|].
  intros o s2 [(-> & -> & HP & HF & Hb)|(Hout & Hag2)].
  - rewrite Z.eqb_refl. cbn [negb when]. apply wp_bind, wp_ret, wp_bind. eapply wp_of_Done; [apply release_ok|]. apply wp_ret.
    destruct (inv_lock 1 0 _ A c arr L [] H ltac:(lia) Hi1) as [Hi2 Hag2]. cbn zeta in Hi2, Hag2.
    split; [done|]. split; [by etrans|]. left. done.
  - rewrite (proj2 (Z.eqb_neq o NULL)) by apply Hout. cbn [negb when].
    destruct (handed_client 1 _ A c arr L H o s2 Hout) as (A' & L' & cpu' & Hi2 & HA & Hmono & Hfresh).
    destruct (inv_bump 1 s2 A' c arr L' cpu' (o :: H) C_ALLOCATIONS Hi2 ltac:(auto)) as (m3 & Hb3 & Hi3 & Hag3 & _).
    apply wp_bind. eapply wp_of_Done; [exact Hb3|]. apply wp_bind. eapply wp_of_Done; [apply release_ok|]. apply wp_ret.
    destruct (inv_lock 1 0 _ A' c arr L' cpu' (o :: H) ltac:(lia) Hi3) as [Hi4 Hag4]. cbn zeta in Hi4, Hag4.
    split; [apply statics_set_mem, statics_set_mem; apply Hout|]. split.
    + etrans; [exact Hag1|]. etrans; [exact Hag2|].
      etrans; [eapply agree_mono; [exact Hmono|exact Hag3]|eapply agree_mono; [exact Hmono|exact Hag4]].
    + right. split; [apply Hout|]. split; [exact Hfresh|]. by exists A', L', cpu'.
Qed.

Lemma alloc_runs s A c arr L cpu H : inv 0 s A c arr L cpu H ->
  exists o s', slab_alloc c s = Done o s' /\ allocated s A c arr L cpu H o s'.
Proof.
  intros Hi. destruct cpu as [|o cpu' _] using rev_ind.
  - apply wp_Done. pose proof (sc_header _ _ _ _ _ _ _ _ _ _ (si_core _ _ _ _ _ _ _ _ _ _ Hi)) as Hh.
    unfold slab_alloc. rewrite (proj2 (Z.eqb_neq c NULL)); cycle 1.
    { unfold NULL. pose proof (page_range _ _ _ s A c arr L _ H (si_core _ _ _ _ _ _ _ _ _ _ Hi) c (in_pages_cache c arr L)). lia. }
    apply wp_bind, wp_gets. rewrite (ho_avail _ _ _ _ _ _ _ Hh). cbn [length]. change (0 <? Z.of_nat 0) with false. cbv iota.
    by apply (alloc_locked s A c arr L H).
  - exists o. by apply alloc_cached.
Qed.

(** C12: [slab_alloc] on a consistent cache always returns.  It gives either NULL, and then
    the array and the lists had no free object and the page source no page, or an
    object that overlaps nothing the clients have; every byte the clients have keeps
    its contents and the cache stays consistent.  Of a NULL cache it gives NULL. *)
Theorem slab_alloc_correct : (forall s, slab_alloc NULL s = Done NULL s) /\
  forall s A c arr L cpu H, inv 0 s A c arr L cpu H ->
    exists o s', slab_alloc c s = Done o s' /\ allocated s A c arr L cpu H o s'.
Proof. split; [done|]. intros s A c arr L cpu H. apply alloc_runs. Qed.
End ops.
