(* ===== verification/SlabFree.v ===== *)
(** Freeing an object of a slab cache: into the per-CPU array while it has room,
    otherwise back to its slab, which moves to the list it then belongs to. *)
From S2P Require Import Prelude Machine DList Buddy BuddyInv BuddyTrace PageAlloc KString SList Slab SlabInv SlabThms SlabProps.

#[local] Opaque load store.

Section ops.
Context (osz ops : Z).
Context `{PA : PageAllocator 0 (buddy_alloc_pages 0 BUDDY_ZONE_UNMOVABLE) (fun a => buddy_free_pages a 0)}.
Context (G : good_sizes osz ops).
Abbreviation core lk := (slab_core osz ops lk).
Abbreviation inv lk := (slab_inv osz ops lk).

(** ** The per-CPU array *)

(** The array's page, the first time it is needed. *)
Lemma core_array lk s s1 A r c L H : core lk s A c 0 L [] H -> pa_inv s1 ((r, 0) :: A) -> (r, 0) ∉ A -> r <> 0 ->
  agree (in_block A) (k_mem s) (k_mem s1) ->
  let m' := store 8 (k_mem s1) (cpu_cache c 0 + U_OBJECTS) r in
  core lk (set_mem m' s1) ((r, 0) :: A) c r L [] H /\
  agree (slab_client osz A c 0 L H) (k_mem s) m' /\
  (forall x, slab_client osz A c 0 L H x -> slab_client osz ((r, 0) :: A) c r L H x).
Proof.
  intros Hc Ha1 Hnew Hr Hag m'. pose proof (core_grow osz ops lk G s s1 A r c 0 L [] H Hc Ha1 Hag) as Hc1.
  pose proof (sc_own _ _ _ _ _ _ _ _ _ _ Hc) as Hown.
  assert (Hag' : agree (fun x => ~ within (c + C_CPU) 8 x) (k_mem s1) m').
  { apply agree_store. intros x Hx Hw. sarith. }
  assert (Hpg : cache_pages c r L ≡ₚ r :: cache_pages c 0 L).
  { unfold cache_pages. rewrite (proj2 (Z.eqb_neq r 0)) by done. cbn. apply perm_swap. }
  destruct Hc1 as [C1 C2 C3 C4 C5 C6 C7 C8]. split; [|split].
  - split; try done; cbn [k_mem set_mem].
    + apply pa_write; [done|]. eapply agree_mono; [|exact Hag']. intros x Hx Hw. apply Hx.
      exists c, 0. split; [right; apply Hown, in_pages_cache|]. rewrite sz_0. sarith.
    + destruct C2 as [H1 H2 H3 H4 H5 H6 H7 H8 H9 H10].
      split; try done; try (unfold m'; by rewrite load_store_ne by sarith).
      * unfold m'. apply load64_store_eq. destruct (pa_block _ _ r 0 Ha1 ltac:(left)) as (_ & R1 & _ & R2).
        unfold PHYS_LIMIT in R2. rewrite sz_0 in R2. lia.
      * intros i Hi. rewrite <- (H10 i Hi). unfold MAX_CPUS in Hi. apply load_store_ne. sarith.
    + apply (lists_frame (k_mem s1)); [|done]. eapply agree_mono; [|exact Hag']. intros x [Hx|(sl & Hsl & Hx)]; [sarith|].
      pose proof (slab_cache_apart _ _ _ s A c 0 L [] H Hc sl Hsl). sarith.
    + intros sl Hsl. apply (slab_frame osz ops (k_mem s1)); [done| |by apply C4]. eapply agree_mono; [|exact Hag'].
      intros x Hx. apply (slab_bytes_page osz ops (k_mem s1)) in Hx as [Hx _]; [|by apply C4|done].
      pose proof (slab_cache_apart _ _ _ s A c 0 L [] H Hc sl Hsl). sarith.
    + rewrite Hpg. apply NoDup_cons. split; [|done]. intros Hp. apply Hnew. by apply Hown.
    + intros p. rewrite Hpg, elem_of_cons. intros [->|Hp]; [left|right; by apply Hown].
  - etrans; [eapply agree_mono; [|exact Hag]|eapply agree_mono; [|exact Hag']].
    + intros x [[Hb _]|(o & Ho & Hx)]; [done|].
      destruct (held_slot osz ops lk G s A c 0 L [] H o Hc Ho) as (sl & Hsl & _ & _ & R1 & R2).
      apply (pages_in _ _ _ s A c 0 L [] H Hc x (sl_page sl)); [by apply in_pages_slab|]. sarith.
    + intros x Hx. destruct (client_away osz ops lk G s A c 0 L [] H x Hc Hx) as (Hn & _). sarith.
  - intros x [[Hb Hn]|Hx]; [left|by right]. split.
    + destruct Hb as (b & ob & Hb & Hw). exists b, ob. split; [by right|done].
    + intros p. rewrite Hpg, elem_of_cons. intros [->|Hp]; [|by apply Hn].
      apply (new_page_out s1 A ((r, 0) :: A) r x Ha1); [set_solver|left|done|done].
Qed.

(** The object goes to the end of the array. *)
Lemma cpu_push lk s A c arr L cpu H1 o H2 : inv lk s A c arr L cpu (H1 ++ o :: H2) -> arr <> 0 ->
  Z.of_nat (length cpu) < SLAB_CPU_CACHE_SIZE ->
  let m1 := store 8 (k_mem s) (arr + 8 * Z.of_nat (length cpu)) o in
  let m' := store 4 m1 (cpu_cache c 0 + U_AVAILABLE) (Z.of_nat (length cpu) + 1) in
  inv lk (set_mem m' s) A c arr L (cpu ++ [o]) (H1 ++ H2) /\ agree (slab_client osz A c arr L (H1 ++ o :: H2)) (k_mem s) m' /\
  load 4 m1 (cpu_cache c 0 + U_AVAILABLE) = Z.of_nat (length cpu).
Proof.
  intros [Hc Hcl] Ha Hlt m1 m'. unfold SLAB_CPU_CACHE_SIZE in Hlt.
  pose proof (sc_header _ _ _ _ _ _ _ _ _ _ Hc) as [K1 K2 K3 K4 K5 K6 K7 K8 K9 K10].
  pose proof (array_apart _ _ _ s A c arr L _ _ Hc Ha) as Hap.
  destruct (held_slot osz ops lk G s A c arr L cpu _ o Hc ltac:(apply elem_of_app; right; eauto with inlist)) as (sl & Hsl & _ & _ & R1 & R2).
  pose proof (so_page _ _ _ _ (sc_slabs _ _ _ _ _ _ _ _ _ _ Hc sl Hsl)) as Hpg. destruct G as (G1 & _).
  assert (Hag : agree (fun x => ~ within (c + C_CPU) 16 x /\ ~ within arr 128 x) (k_mem s) m').
  { unfold m', m1. intros x [X1 X2]. rewrite !mget_store_out by sarith. done. }
  assert (E1 : forall (n : nat) a, a + Z.of_nat n <= arr \/ arr + 128 <= a -> load n m1 a = load n (k_mem s) a).
  { intros n a Hn. unfold m1. apply load_store_ne. sarith. }
  split; [split; [|done]|split].
  - apply (core_header osz ops G lk s A c arr L cpu (H1 ++ o :: H2)); [done| | |].
    + eapply agree_mono; [|exact Hag]. intros x [X1 X2]. split; [done|by apply X2].
    + split; try done; try (unfold m'; rewrite load_store_ne by sarith; by rewrite E1 by sarith).
      * unfold m'. rewrite length_app, load32_store_eq by lia. cbn [length]. lia.
      * intros i x Hi. unfold m'. rewrite load_store_ne by (apply lookup_lt_Some in Hi; rewrite length_app in Hi; cbn [length] in Hi; sarith).
        apply lookup_app_Some in Hi as [Hi|[Hge Hi]].
        -- rewrite <- (K7 i x Hi). unfold m1. apply load_store_ne. apply lookup_lt_Some in Hi. sarith.
        -- apply list_lookup_singleton_Some in Hi as [Hi <-]. unfold m1. replace i with (length cpu) by lia.
           apply load64_store_eq. sarith.
      * rewrite length_app. cbn [length]. unfold SLAB_CPU_CACHE_SIZE. lia.
      * intros i Hi. rewrite <- (K10 i Hi). unfold MAX_CPUS in Hi. unfold m', m1. rewrite !load_store_ne by sarith. done.
    + rewrite <- app_assoc. apply Permutation_app_head. cbn [app]. apply Permutation_middle.
  - eapply agree_mono; [|exact Hag]. intros x Hx.
    destruct (client_away osz ops lk G s A c arr L cpu _ x Hc Hx) as (Hn & Hn2 & _). specialize (Hn2 Ha). sarith.
  - rewrite E1 by sarith. exact K5.
Qed.

(** ** Finding the slab of an object *)

Lemma find_slab_ok s (l : list slab) o h : sll S_NEXT (k_mem s) h (sl_page <$> l) ->
  (forall x, x ∈ l -> 0 < sl_page x < 2 ^ 52) -> Z.of_nat (length l) < 2 ^ 64 - 1 ->
  exists r, find_slab o h s = Done r s /\
    ((r = NULL /\ forall x, x ∈ l -> ~ within (sl_page x) 4096 o) \/
     exists x, x ∈ l /\ r = sl_page x /\ within (sl_page x) 4096 o).
Proof.
  intros Hl Hr Hlen.
  assert (Hwp : wp (find_slab o h) (fun r s' => s' = s /\
    ((r = NULL /\ forall x, x ∈ l -> ~ within (sl_page x) 4096 o) \/
     exists x, x ∈ l /\ r = sl_page x /\ within (sl_page x) 4096 o)) s); cycle 1.
  { apply wp_Done in Hwp as (r & s' & Hrun & -> & Hx). by exists r. }
  unfold find_slab. apply (wp_loop (fun n cur s' => s' = s /\ exists l1 l2, l = l1 ++ l2 /\ length l2 = n /\
    sll S_NEXT (k_mem s) cur (sl_page <$> l2) /\ forall x, x ∈ l1 -> ~ within (sl_page x) 4096 o) (length l)); [|lia|].
  { split; [done|]. exists [], l. split; [done|]. split; [done|]. split; [done|]. by intros x ?%not_elem_of_nil. }
  intros n cur s' (-> & l1 & [|x l2] & -> & <- & Hs & Hno).
  - cbn in Hs. subst cur. rewrite Z.eqb_refl. apply wp_ret. split; [done|]. left. by rewrite app_nil_r.
  - destruct Hs as (-> & Hn & Hs). rewrite (proj2 (Z.eqb_neq _ _) Hn).
    pose proof (Hr x ltac:(apply elem_of_app; right; left)) as Hx.
    rewrite u64_id by (unfold BUDDY_PAGE_SIZE; lia). unfold BUDDY_PAGE_SIZE.
    destruct ((sl_page x <=? o) && (o <? sl_page x + 4096)) eqn:E.
    + apply wp_ret. split; [done|]. right. exists x. split; [apply elem_of_app; right; left|]. split; [done|].
      unfold within. lia.
    + apply wp_bind, wp_gets, wp_ret. exists (length l2). split; [simpl; lia|]. split; [done|].
      exists (l1 ++ [x]), l2. rewrite <- app_assoc. split; [done|]. split; [done|]. split; [done|].
      intros y [Hy|Hy%list_elem_of_singleton]%elem_of_app; [by apply Hno|]. subst y. unfold within. lia.
Qed.

(** A slab on the free list has no object out. *)
Lemma free_slab_all m sl o : slab_ok osz ops m sl -> Z.of_nat (length (sl_free sl)) = ops -> is_slot osz ops sl o -> o ∈ sl_free sl.
Proof.
  intros Hs Hn Ho. destruct G as (G1 & G2 & _).
  set (all := slots osz (sl_base sl) (Z.to_nat ops)).
  assert (Hin : forall x, x ∈ all <-> is_slot osz ops sl x).
  { intros x. unfold all. rewrite slots_elem. unfold is_slot. rewrite Z2Nat.id by lia. done. }
  assert (Hp : sl_free sl ≡ₚ all).
  { apply submseteq_length_Permutation.
    - apply NoDup_submseteq; [apply Hs|]. intros x Hx. apply Hin. by apply (so_slots _ _ _ _ Hs).
    - unfold all. rewrite (slots_length osz). lia. }
  rewrite Hp. by apply Hin.
Qed.

Lemma slabs_few lk s A c arr L cpu H f : core lk s A c arr L cpu H -> list_field f -> Z.of_nat (length (L f)) <= 2 ^ 40.
Proof.
  intros Hc Hf. rewrite <- (length_fmap sl_page). apply pages_length; [by apply (list_nodup osz ops lk s A c arr L cpu H)|].
  intros a (sl & -> & Hsl)%list_elem_of_fmap. apply (pa_block s A).
  - apply Hc.
  - apply (sc_own _ _ _ _ _ _ _ _ _ _ Hc). apply in_pages_slab. by exists f.
Qed.

(** The slab of an object that is out is found. *)
Lemma find_for_held lk s A c arr L cpu H o : inv lk s A c arr L cpu H -> o ∈ H ->
  exists sl, slab_find_for_object c o s = Done (sl_page sl) s /\ in_lists L sl /\ is_slot osz ops sl o /\ o ∉ sl_free sl /\
    (sl ∈ L C_FULL \/ sl ∈ L C_PARTIAL).
Proof.
  intros [Hc Hcl] Ho.
  destruct (held_slot osz ops lk G s A c arr L cpu H o Hc ltac:(apply elem_of_app; by right)) as (sl & Hsl & Hi & Hnf & R1 & R2).
  assert (Hw : within (sl_page sl) 4096 o) by (destruct G; sarith).
  assert (HFF : list_field C_FULL /\ list_field C_PARTIAL) by (unfold list_field; auto). destruct HFF as [HFF HFP].
  assert (Huniq : forall x, in_lists L x -> within (sl_page x) 4096 o -> x = sl).
  { intros x Hx Hwx. destruct (decide (sl_page x = sl_page sl)) as [E|E]; [by apply (same_slab _ _ _ s A c arr L cpu H Hc)|].
    pose proof (slabs_apart _ _ _ s A c arr L cpu H Hc x sl Hx Hsl E). unfold within in *. lia. }
  assert (Hr : forall f x, list_field f -> x ∈ L f -> 0 < sl_page x < 2 ^ 52).
  { intros f x Hf Hx. apply (so_page _ _ _ _ (sc_slabs _ _ _ _ _ _ _ _ _ _ Hc x ltac:(by exists f))). }
  pose proof (slabs_few lk s A c arr L cpu H C_FULL Hc HFF). pose proof (slabs_few lk s A c arr L cpu H C_PARTIAL Hc HFP).
  exists sl. unfold slab_find_for_object, load64, mbind, M_bind, gets.
  destruct (find_slab_ok s (L C_FULL) o _ (sc_lists _ _ _ _ _ _ _ _ _ _ Hc C_FULL HFF) (fun x => Hr _ x HFF) ltac:(lia))
    as (r & -> & [[-> Hno]|(x & Hx & -> & Hwx)]); cycle 1.
  { rewrite (proj2 (Z.eqb_neq _ NULL)) by (pose proof (Hr _ x HFF Hx); unfold NULL; lia). cbn [negb].
    assert (x = sl) as -> by (apply Huniq; [by exists C_FULL|done]). auto 12. }
  rewrite Z.eqb_refl. cbn [negb].
  destruct (find_slab_ok s (L C_PARTIAL) o _ (sc_lists _ _ _ _ _ _ _ _ _ _ Hc C_PARTIAL HFP) (fun x => Hr _ x HFP) ltac:(lia))
    as (r & -> & [[-> Hno']|(x & Hx & -> & Hwx)]); cycle 1.
  { assert (x = sl) as -> by (apply Huniq; [by exists C_PARTIAL|done]). auto 12. }
  destruct Hsl as (f & [-> | [-> | ->]] & Hf); [by destruct (Hno sl Hf)|by destruct (Hno' sl Hf)|].
  destruct Hnf. apply (free_slab_all (k_mem s)); [|by apply Hcl|done]. apply (sc_slabs _ _ _ _ _ _ _ _ _ _ Hc). exists C_FREE. unfold list_field; auto.
Qed.

(** ** Giving an object back to its slab *)

Lemma give_back_ok lk s A c arr L cpu H1 o H2 sl : inv lk s A c arr L cpu (H1 ++ o :: H2) -> in_lists L sl ->
  is_slot osz ops sl o -> o ∉ sl_free sl -> sl ∈ L C_FULL \/ sl ∈ L C_PARTIAL ->
  exists m' L', give_back c (sl_page sl) o s = Done tt (set_mem m' s) /\ inv lk (set_mem m' s) A c arr L' cpu (H1 ++ H2) /\
    agree (slab_client osz A c arr L (H1 ++ H2)) (k_mem s) m' /\
    (forall x, slab_client osz A c arr L (H1 ++ H2) x -> slab_client osz A c arr L' (H1 ++ H2) x).
Proof.
  intros [Hc Hcl] Hsl Hi Hnf Hwhere. pose proof G as (G1 & G2 & _).
  assert (HF : list_field C_FULL /\ list_field C_PARTIAL /\ list_field C_FREE) by (unfold list_field; auto).
  destruct HF as (HFF & HFP & HFR).
  set (fr := o :: sl_free sl). set (L1 := set_free (sl_page sl) fr L).
  destruct (core_give osz ops lk G s A c arr L cpu H1 o H2 sl Hc Hsl Hi Hnf) as (m1 & Hrun & Hc1 & Hag1).
  pose proof (sc_slabs _ _ _ _ _ _ _ _ _ _ Hc sl Hsl) as Hok.
  assert (Hin1 : in_lists L1 (with_free fr sl)). { apply (in_set_free osz ops lk s A c arr L cpu _ sl fr _ Hc Hsl). by left. }
  pose proof (so_use _ _ _ _ (sc_slabs _ _ _ _ _ _ _ _ _ _ Hc1 _ Hin1)) as Hu1. cbn [with_free sl_page sl_free k_mem set_mem] in Hu1.
  assert (Hpg : forall L', sl_page <$> all_slabs L' ≡ₚ sl_page <$> all_slabs L -> forall x,
    slab_client osz A c arr L (H1 ++ H2) x -> slab_client osz A c arr L' (H1 ++ H2) x).
  { intros L' Hp x Hx. eapply client_mono; [| |exact Hx]; [|done]. intros p. by rewrite (all_pages_same L L' c arr Hp). }
  assert (Hpg1 : sl_page <$> all_slabs L1 ≡ₚ sl_page <$> all_slabs L) by (unfold L1; by rewrite set_free_all).
  assert (Hmove : forall f f' l1 l2, list_field f -> list_field f' -> f <> f' -> L f = l1 ++ sl :: l2 ->
    (f' = C_FULL -> fr = []) -> (f' = C_FREE -> Z.of_nat (length fr) = ops) ->
    exists m' L', slab_move_to_list (c + f) (c + f') (sl_page sl) (set_mem m1 s) = Done tt (set_mem m' s) /\
      inv lk (set_mem m' s) A c arr L' cpu (H1 ++ H2) /\ agree (slab_client osz A c arr L (H1 ++ H2)) (k_mem s) m' /\
      (forall x, slab_client osz A c arr L (H1 ++ H2) x -> slab_client osz A c arr L' (H1 ++ H2) x)).
  { intros f f' l1 l2 Hf Hf' Hne HL Q1 Q3.
    pose proof (set_free_middle osz ops lk s A c arr L cpu _ f sl fr l1 l2 Hc Hf HL) as HL1.
    destruct (core_move osz ops lk G _ A c arr _ cpu _ f f' l1 (with_free fr sl) l2 Hc1 Hf Hf' Hne HL1) as (m2 & Hmv & Hc2 & Hag2).
    cbn [with_free sl_page] in Hmv. eexists m2, _. split; [exact Hmv|]. split; [split; [exact Hc2|]|split].
    - apply (moved_classes osz ops lk G s A c arr L cpu _ f f' l1 sl l2 fr Hc Hcl); done.
    - etrans; [exact Hag1|]. eapply agree_mono; [|exact Hag2]. intros x Hx.
      by apply (client_away osz ops lk G _ A c arr L1 cpu (H1 ++ H2) x Hc1), Hpg.
    - apply Hpg. etrans; [|exact Hpg1]. by apply fmap_Permutation, (move_perm L1 f f' l1 (with_free fr sl) l2). }
  unfold give_back, load32, mbind, M_bind, gets. rewrite (so_use _ _ _ _ Hok), (so_total _ _ _ _ Hok), Hrun. cbn [k_mem set_mem].
  destruct (Z.eqb_spec (ops - Z.of_nat (length (sl_free sl))) ops) as [E|Hne].
  - assert (Hnil : sl_free sl = []) by (destruct (sl_free sl); [done|simpl in E; lia]).
    assert (Hf : sl ∈ L C_FULL) by (destruct Hwhere as [?|Hp]; [done|by destruct (cl_partial _ _ Hcl sl Hp)]).
    apply list_elem_of_split in Hf as (l1 & l2 & HL). apply (Hmove C_FULL C_PARTIAL l1 l2); auto; done.
  - assert (Hf : sl ∈ L C_PARTIAL).
    { destruct Hwhere as [Hp|?]; [|done]. rewrite (cl_full _ _ Hcl sl Hp) in Hne. simpl in Hne. lia. }
    cbn [k_mem set_mem]. rewrite Hu1. unfold when. destruct (Z.eqb_spec (ops - Z.of_nat (length fr)) 0) as [E|Hn0].
    + apply list_elem_of_split in Hf as (l1 & l2 & HL). apply (Hmove C_PARTIAL C_FREE l1 l2); auto; [done|]. intros _. lia.
    + exists m1, L1. split; [done|]. split; [split; [exact Hc1|]|]; [|by split; [|apply Hpg]].
      by apply (kept_classes osz ops lk s A c arr L cpu _ sl fr Hc Hcl).
Qed.

(** ** slab_free *)

(** What freeing [o] leaves: one object fewer is out, the rest is untouched. *)
Definition freed (s : kst) (A : blocks) (c arr : Z) (L : lists_of) (H : list Z) (s' : kst) : Prop :=
  same_statics s s' /\ agree (slab_client osz A c arr L H) (k_mem s) (k_mem s') /\
  exists A' arr' L' cpu', inv 0 s' A' c arr' L' cpu' H /\ A ⊆ A' /\
    (forall x, slab_client osz A c arr L H x -> slab_client osz A' c arr' L' H x).

(** The array takes the object. *)
Lemma free_cached s A c arr L cpu H1 o H2 : inv 0 s A c arr L cpu (H1 ++ o :: H2) -> arr <> 0 ->
  Z.of_nat (length cpu) < SLAB_CPU_CACHE_SIZE ->
  wp (available ← load32 (cpu_cache c 0 + U_AVAILABLE);
      store64 (arr + 8 * available) o ;;
      store32 (cpu_cache c 0 + U_AVAILABLE) (u32 (available + 1)) ;;
      bump64 (c + C_FREES) ;;
      mret true) (fun b s' => b = true /\ freed s A c arr L (H1 ++ H2) s') s.
Proof.
  intros Hi Ha Hlt. destruct (cpu_push 0 s A c arr L cpu H1 o H2 Hi Ha Hlt) as (Hi1 & Hag1 & _).
  unfold SLAB_CPU_CACHE_SIZE in Hlt.
  apply wp_bind, wp_gets. rewrite (ho_avail _ _ _ _ _ _ _ (sc_header _ _ _ _ _ _ _ _ _ _ (si_core _ _ _ _ _ _ _ _ _ _ Hi))).
  apply wp_bind, wp_modify, wp_bind, wp_modify. rewrite u32_id by lia. cbn [k_mem set_mem]. rewrite set_mem_set_mem.
  destruct (inv_bump osz ops G 0 _ A c arr L (cpu ++ [o]) (H1 ++ H2) C_FREES Hi1 ltac:(auto)) as (m2 & Hb2 & Hi2 & Hag2 & _).
  apply wp_bind. eapply wp_of_Done; [exact Hb2|]. apply wp_ret. split; [done|]. split; [done|]. split.
  - etrans; [eapply agree_mono; [|exact Hag1]|exact Hag2]. intros x Hx.
    eapply client_mono; [| |exact Hx]; [done|]. intros y. rewrite !elem_of_app, elem_of_cons. tauto.
  - exists A, arr, L, (cpu ++ [o]). done.
Qed.

(** The slab takes the object, under the lock. *)
Lemma free_locked s A c arr L cpu H1 o H2 : inv 0 s A c arr L cpu (H1 ++ o :: H2) ->
  wp (spinlock_acquire (c + C_LOCK) ;; slab ← slab_find_for_object c o;
      when (negb (slab =? NULL)) (give_back c slab o ;; bump64 (c + C_FREES)) ;;
      spinlock_release (c + C_LOCK)) (fun _ => freed s A c arr L (H1 ++ H2)) s.
Proof.
  intros Hi. pose proof (sc_header _ _ _ _ _ _ _ _ _ _ (si_core _ _ _ _ _ _ _ _ _ _ Hi)) as Hh.
  assert (Hsub : forall x, slab_client osz A c arr L (H1 ++ H2) x -> slab_client osz A c arr L (H1 ++ o :: H2) x).
  { intros x Hx. eapply client_mono; [| |exact Hx]; [done|]. intros y. rewrite !elem_of_app, elem_of_cons. tauto. }
  apply wp_bind. eapply wp_of_Done; [apply acquire_ok, Hh|].
  destruct (inv_lock osz ops G 0 1 s A c arr L cpu _ ltac:(lia) Hi) as [Hi1 Hag1]. cbn zeta in Hi1, Hag1.
  destruct (find_for_held 1 _ A c arr L cpu _ o Hi1 ltac:(eauto with inlist)) as (sl & Hfind & Hsl & Hsi & Hnf & Hwhere).
  apply wp_bind. eapply wp_of_Done; [exact Hfind|].
  rewrite (proj2 (Z.eqb_neq _ NULL)) by (eapply slab_nonnull; [exact (si_core _ _ _ _ _ _ _ _ _ _ Hi1)|done]). cbn [negb when].
  destruct (give_back_ok 1 _ A c arr L cpu H1 o H2 sl Hi1 Hsl Hsi Hnf Hwhere) as (m2 & L2 & Hrun & Hi2 & Hag2 & Hm).
  cbn [k_mem set_mem] in Hag2. rewrite set_mem_set_mem in Hrun. rewrite set_mem_set_mem in Hi2.
  destruct (inv_bump osz ops G 1 _ A c arr L2 cpu (H1 ++ H2) C_FREES Hi2 ltac:(auto)) as (m3 & Hb3 & Hi3 & Hag3 & _).
  apply wp_bind, wp_bind. eapply wp_of_Done; [exact Hrun|]. eapply wp_of_Done; [exact Hb3|]. eapply wp_of_Done; [apply release_ok|].
  destruct (inv_lock osz ops G 1 0 _ A c arr L2 cpu _ ltac:(lia) Hi3) as [Hi4 Hag4]. cbn zeta in Hi4, Hag4.
  split; [done|]. split.
  - etrans; [eapply agree_mono; [exact Hsub|exact Hag1]|]. etrans; [exact Hag2|].
    etrans; [eapply agree_mono; [exact Hm|exact Hag3]|eapply agree_mono; [exact Hm|exact Hag4]].
  - exists A, arr, L2, cpu. done.
Qed.

(** The array, whose page is taken from the allocator the first time. *)
Lemma free_array s A c arr L cpu H : inv 0 s A c arr L cpu H ->
  wp (if arr =? NULL then
        array ← buddy_alloc_pages 0 BUDDY_ZONE_UNMOVABLE;
        when (negb (array =? 0)) (store64 (cpu_cache c 0 + U_OBJECTS) array)
      else mret tt) (fun _ s' => same_statics s s' /\ agree (slab_client osz A c arr L H) (k_mem s) (k_mem s') /\
        exists A' arr', inv 0 s' A' c arr' L cpu H /\ A ⊆ A' /\
          (forall x, slab_client osz A c arr L H x -> slab_client osz A' c arr' L H x)) s.
Proof.
  intros Hi. pose proof Hi as [Hc Hcl]. destruct (Z.eqb_spec arr NULL) as [->|Hn]; cycle 1.
  { apply wp_ret. split; [done|]. split; [done|]. by exists A, arr. }
  pose proof (ho_empty _ _ _ _ _ _ _ (sc_header _ _ _ _ _ _ _ _ _ _ Hc) eq_refl) as ->.
  destruct (pa_alloc s A (sc_alloc _ _ _ _ _ _ _ _ _ _ Hc)) as (r & s1 & Hrun & Hst & Hcase).
  apply wp_bind. eapply wp_of_Done; [exact Hrun|]. destruct Hcase as [[-> ->]|(Hb & Ha1 & Hnew & Hag)].
  - apply wp_ret. split; [done|]. split; [done|]. by exists A, NULL.
  - destruct Hb as (_ & Hr & _). rewrite (proj2 (Z.eqb_neq r 0)) by lia. apply wp_modify.
    destruct (core_array 0 s s1 A r c L H Hc Ha1 Hnew ltac:(lia) Hag) as (Hc1 & Hag1 & Hm).
    split; [done|]. split; [done|]. exists ((r, 0) :: A), r. split; [by split|]. split; [set_solver|done].
Qed.

Lemma freed_before s s1 A c arr L H A1 arr1 s2 : same_statics s s1 -> agree (slab_client osz A c arr L H) (k_mem s) (k_mem s1) ->
  A ⊆ A1 -> (forall x, slab_client osz A c arr L H x -> slab_client osz A1 c arr1 L H x) ->
  freed s1 A1 c arr1 L H s2 -> freed s A c arr L H s2.
Proof.
  intros Hst Hag HA Hm (Hst2 & Hag2 & A2 & arr2 & L2 & cpu2 & Hi2 & HA2 & Hm2). split; [by etrans|]. split.
  - etrans; [exact Hag|]. eapply agree_mono; [exact Hm|exact Hag2].
  - exists A2, arr2, L2, cpu2. split; [done|]. split; [by etrans|auto].
Qed.

Lemma free_runs s A c arr L cpu H1 o H2 : inv 0 s A c arr L cpu (H1 ++ o :: H2) ->
  exists s', slab_free c o s = Done tt s' /\ freed s A c arr L (H1 ++ H2) s'.
Proof.
  intros Hi. pose proof (si_core _ _ _ _ _ _ _ _ _ _ Hi) as Hc.
  pose proof (sc_header _ _ _ _ _ _ _ _ _ _ Hc) as Hh. pose proof (page_range _ _ _ s A c arr L _ _ Hc c (in_pages_cache c arr L)) as Hcr.
  destruct (held_slot osz ops 0 G s A c arr L cpu _ o Hc ltac:(apply elem_of_app; right; eauto with inlist)) as (sl & Hsl & _ & _ & R1 & _).
  pose proof (so_page _ _ _ _ (sc_slabs _ _ _ _ _ _ _ _ _ _ Hc sl Hsl)).
  assert (Hwp : wp (slab_free c o) (fun _ => freed s A c arr L (H1 ++ H2)) s); cycle 1.
  { apply wp_Done in Hwp as ([] & s' & Hrun & Hf). by exists s'. }
  unfold slab_free. rewrite (proj2 (Z.eqb_neq c NULL)), (proj2 (Z.eqb_neq o NULL)) by (unfold NULL; lia).
  apply wp_bind, wp_gets, wp_bind, wp_gets. rewrite (ho_avail _ _ _ _ _ _ _ Hh), (ho_limit _ _ _ _ _ _ _ Hh).
  destruct (Z.ltb_spec (Z.of_nat (length cpu)) SLAB_CPU_CACHE_SIZE) as [Hlt|Hge]; cycle 1.
  { apply wp_bind, wp_ret. by apply (free_locked s A c arr L cpu). }
  apply wp_bind, wp_bind, wp_gets, wp_bind. rewrite (ho_array _ _ _ _ _ _ _ Hh).
  eapply wp_mono; [by apply (free_array s A c arr L cpu)|]. intros [] s1 (Hst & Hag & A1 & arr1 & Hi1 & HA & Hm).
  assert (Hsub : forall x, slab_client osz A c arr L (H1 ++ H2) x -> slab_client osz A c arr L (H1 ++ o :: H2) x).
  { intros x Hx. eapply client_mono; [| |exact Hx]; [done|]. intros y. rewrite !elem_of_app, elem_of_cons. tauto. }
  assert (Hm' : forall x, slab_client osz A c arr L (H1 ++ H2) x -> slab_client osz A1 c arr1 L (H1 ++ H2) x).
  { intros x [[Hb Hn]|Hx]; [|by right]. destruct (Hm x ltac:(by left)) as [?|(o' & Ho' & Hx)]; [by left|].
    destruct (decide (o' = o)) as [->|Hne]; [|right; exists o'; split; [|done]].
    - destruct (held_slot osz ops 0 G s A c arr L cpu _ o Hc ltac:(apply elem_of_app; right; eauto with inlist)) as (sl' & Hsl' & _ & _ & Q1 & Q2).
      destruct (Hn (sl_page sl') (in_pages_slab c arr L sl' Hsl')). unfold within in *. lia.
    - rewrite elem_of_app, elem_of_cons in Ho'. rewrite elem_of_app. tauto. }
  apply wp_bind, wp_gets. rewrite (ho_array _ _ _ _ _ _ _ (sc_header _ _ _ _ _ _ _ _ _ _ (si_core _ _ _ _ _ _ _ _ _ _ Hi1))).
  destruct (Z.eqb_spec arr1 NULL) as [E|Hn1]; cbn [negb].
  - apply wp_ret. eapply wp_mono; [by apply (free_locked s1 A1 c arr1 L cpu H1 o H2)|]. intros [] s2 Hf.
    eapply freed_before; [done|eapply agree_mono; [exact Hsub|done]|done|done|done].
  - eapply wp_mono; [by apply (free_cached s1 A1 c arr1 L cpu H1 o H2)|]. intros b s2 [-> Hf]. apply wp_ret.
    eapply freed_before; [done|eapply agree_mono; [exact Hsub|done]|done|done|done].
Qed.

(** C13: [slab_free] of an object that is out always returns, with that object no longer
    out: it is in the per-CPU array, or back in its slab.  Nothing the clients still
    have is written, and the cache stays consistent.  A NULL cache or object is
    refused without any effect. *)
Theorem slab_free_correct : (forall o s, slab_free NULL o s = Done tt s) /\ (forall c s, slab_free c NULL s = Done tt s) /\
  forall s A c arr L cpu H1 o H2, inv 0 s A c arr L cpu (H1 ++ o :: H2) ->
    exists s', slab_free c o s = Done tt s' /\ freed s A c arr L (H1 ++ H2) s'.
Proof.
  split; [done|]. split; [intros c s; unfold slab_free; by destruct (c =? NULL)|].
  intros s A c arr L cpu H1 o H2. apply free_runs.
Qed.
End ops.
