(* ===== verification/SlabCache.v ===== *)
(** Creating and destroying slab caches: the list of caches, and the pages a cache
    takes and gives back. *)
From S2P Require Import Prelude Machine DList Buddy BuddyInv BuddyTrace BuddyProps PageAlloc KString SList Slab SlabInv SlabThms SlabProps.

#[local] Opaque load store.

(** ** Alignment *)

(** [align_up] with an alignment 2^k is the least multiple of it that is not smaller,
    when that fits in 64 bits. *)
Lemma align_up_pow2 size k : 0 <= size -> 0 <= k < 64 -> size + 2 ^ k - 1 < 2 ^ 64 ->
  align_up size (2 ^ k) = (size + 2 ^ k - 1) / 2 ^ k * 2 ^ k.
Proof.
  intros Hs Hk Hb. assert (0 < 2 ^ k) by lia. unfold align_up. rewrite u64_id by lia.
  assert (Hmask : u64 (Z.lnot (2 ^ k - 1)) = Z.ldiff (Z.ones 64) (Z.ones k)).
  { apply Z.bits_inj'. intros i Hi. unfold u64. rewrite Z.ldiff_spec.
    rewrite !Z.testbit_ones_nonneg by lia. replace (2 ^ k - 1) with (Z.ones k) by (rewrite Z.ones_equiv; lia).
    destruct (Z.ltb_spec i 64).
    - rewrite Z.mod_pow2_bits_low by lia. rewrite Z.lnot_spec, Z.testbit_ones_nonneg by lia. done.
    - by rewrite Z.mod_pow2_bits_high by lia. }
  rewrite Hmask. set (n := size + 2 ^ k - 1) in *. rewrite <- Z.shiftl_mul_pow2, <- Z.shiftr_div_pow2 by lia.
  rewrite <- Z.ldiff_ones_r by lia. apply Z.bits_inj'. intros i Hi.
  rewrite Z.land_spec, !Z.ldiff_spec, !Z.testbit_ones_nonneg by lia.
  destruct (Z.ltb_spec i 64); [done|]. cbn. rewrite andb_false_r.
  replace n with (n mod 2 ^ 64) by (apply Z.mod_small; lia). by rewrite Z.mod_pow2_bits_high by lia.
Qed.

(** The size a cache gives its objects. *)
Definition object_size (size align : Z) : Z := align_up size (if align =? 0 then 8 else align).

Lemma object_size_holds size align k : 0 < size <= 4096 -> (if align =? 0 then 8 else align) = 2 ^ k -> 0 <= k < 63 ->
  size <= object_size size align < size + 2 ^ k /\ object_size size align mod 2 ^ k = 0.
Proof.
  intros Hs E Hk. pose proof (Z.pow_lt_mono_r 2 k 63 ltac:(lia) ltac:(lia) ltac:(lia)). unfold object_size. rewrite E, align_up_pow2 by lia.
  rewrite Z.mod_mul by lia. split; [|done]. pose proof (Z.div_mod (size + 2 ^ k - 1) (2 ^ k) ltac:(lia)). pose proof (Z.mod_pos_bound (size + 2 ^ k - 1) (2 ^ k) ltac:(lia)). lia.
Qed.

(** ** The list of caches *)

Definition cache_list (s : kst) (cs : list Z) : Prop := sll C_NEXT (k_mem s) (g_cache_list (k_slab s)) cs.

(** The lock and the pages of the caches on the list. *)
Record caches_ok (lk : Z) (s : kst) (A : blocks) (cs : list Z) : Prop := {
  cs_list : cache_list s cs;
  cs_lock : g_cache_list_lock (k_slab s) = lk;
  cs_nodup : NoDup cs;
  cs_own c : c ∈ cs -> (c, 0) ∈ A
}.

(** The statics of the components that do not take part. *)
Definition other_statics (s s' : kst) : Prop :=
  k_heap s' = k_heap s /\ k_cow s' = k_cow s /\ k_dp s' = k_dp s /\ k_pc s' = k_pc s.

Definition no_slabs : Z -> list slab := fun _ => [].

Section ops.
Context `{PA : PageAllocator 0 (buddy_alloc_pages 0 BUDDY_ZONE_UNMOVABLE) (fun a => buddy_free_pages a 0)}.

(** A cache whose fields were just set. *)
Lemma fresh_header osz ops m c : load 8 m (c + C_OBJECT_SIZE) = osz -> load 4 m (c + C_OBJECTS_PER_SLAB) = ops ->
  load 4 m (c + C_LOCK) = 0 ->
  (forall i, 0 <= i < MAX_CPUS -> load 8 m (cpu_cache c i + U_OBJECTS) = 0 /\
    load 4 m (cpu_cache c i + U_AVAILABLE) = 0 /\ load 4 m (cpu_cache c i + U_LIMIT) = SLAB_CPU_CACHE_SIZE) ->
  header_ok osz ops 0 m c 0 [].
Proof.
  intros H1 H2 H3 H4. destruct (H4 0 ltac:(unfold MAX_CPUS; lia)) as (H5 & H6 & H7). split; try done.
  intros i Hi. apply H4. lia.
Qed.

Lemma fresh_cache_core osz ops s A c : pa_inv s ((c, 0) :: A) -> header_ok osz ops 0 (k_mem s) c 0 [] ->
  load 8 (k_mem s) (c + C_FULL) = 0 -> load 8 (k_mem s) (c + C_PARTIAL) = 0 -> load 8 (k_mem s) (c + C_FREE) = 0 ->
  slab_inv osz ops 0 s ((c, 0) :: A) c 0 no_slabs [] [].
Proof.
  intros Hi Hh H1 H2 H3.
  assert (Hno : forall sl, ~ in_lists no_slabs sl) by (intros sl (f & _ & Hx); by apply not_elem_of_nil in Hx).
  split; [split; try done|].
  - intros f [-> | [-> | ->]]; done.
  - intros sl Hsl. by destruct (Hno sl).
  - apply NoDup_singleton.
  - intros p Hp. apply list_elem_of_singleton in Hp as ->. left.
  - apply NoDup_nil_2.
  - intros o. split; [by intros ?%not_elem_of_nil|]. intros (sl & Hsl & _). by destruct (Hno sl).
  - split; intros sl Hsl; by apply not_elem_of_nil in Hsl.
Qed.

(** The per-CPU entries. *)
Lemma wp_cpus c s (Q : unit -> kst -> Prop) :
  (forall m, agree (fun x => ~ within (c + C_CPU) 128 x) (k_mem s) m ->
    (forall i, 0 <= i < MAX_CPUS -> load 8 m (cpu_cache c i + U_OBJECTS) = 0 /\
      load 4 m (cpu_cache c i + U_AVAILABLE) = 0 /\ load 4 m (cpu_cache c i + U_LIMIT) = SLAB_CPU_CACHE_SIZE) ->
    Q tt (set_mem m s)) ->
  wp (for_range 0 MAX_CPUS (fun i =>
    store64 (cpu_cache c i + U_OBJECTS) NULL ;;
    store32 (cpu_cache c i + U_AVAILABLE) 0 ;;
    store32 (cpu_cache c i + U_LIMIT) SLAB_CPU_CACHE_SIZE)) Q s.
Proof.
  intros HQ. unfold MAX_CPUS in *. apply (wp_for_range (fun i s' => exists m, s' = set_mem m s /\
    agree (fun x => ~ within (c + C_CPU) 128 x) (k_mem s) m /\
    forall j, 0 <= j < i -> load 8 m (cpu_cache c j + U_OBJECTS) = 0 /\
      load 4 m (cpu_cache c j + U_AVAILABLE) = 0 /\ load 4 m (cpu_cache c j + U_LIMIT) = SLAB_CPU_CACHE_SIZE)); [lia| | |].
  - exists (k_mem s). rewrite set_mem_id. split; [done|]. split; [done|]. lia.
  - intros i s' Hi (m & -> & Hag & Hm). apply wp_bind, wp_modify, wp_bind, wp_modify, wp_modify. cbn [k_mem set_mem].
    eexists. split; [reflexivity|]. split.
    + intros x Hx. rewrite !mget_store_out by sarith. by apply Hag.
    + intros j Hj. destruct (decide (j = i)) as [->|Hne].
      * rewrite !(load_store_ne 8 4) by sarith. rewrite load64_store_eq by (unfold NULL; lia).
        rewrite (load_store_ne 4 4) by sarith. rewrite !load32_store_eq by (unfold SLAB_CPU_CACHE_SIZE; lia). done.
      * rewrite !load_store_ne by sarith. apply Hm. lia.
  - intros s' (m & -> & Hag & Hm). by apply HQ.
Qed.

Ltac field := rewrite ?load_store_ne by sarith; first [apply load64_store_eq|apply load32_store_eq]; lia.

(** The caches on the list are not touched by writes to another page. *)
Lemma cache_list_frame s s' A c cs : pa_inv s' ((c, 0) :: A) -> (c, 0) ∉ A -> (forall p, p ∈ cs -> (p, 0) ∈ A) ->
  agree (fun x => in_block A x /\ ~ within c 4096 x) (k_mem s) (k_mem s') ->
  forall h, sll C_NEXT (k_mem s) h cs -> sll C_NEXT (k_mem s') h cs.
Proof.
  intros Hi Hn Hown Hag h. apply sll_frame. intros p Hp. eapply agree_mono; [|exact Hag]. intros x Hx.
  assert (Hb : in_block A x). { exists p, 0. split; [by apply Hown|]. rewrite sz_0. sarith. }
  split; [done|]. apply (new_page_out s' A ((c, 0) :: A) c x Hi); [set_solver|left|done|done].
Qed.

(** A cache formatted in the fresh page [c] and put in front of the list of caches. *)
Lemma cache_linked osz ops s1 A c cs s' : pa_inv s1 ((c, 0) :: A) -> (c, 0) ∉ A -> caches_ok 0 s1 A cs -> 0 < c < 2 ^ 52 ->
  k_buddy s' = k_buddy s1 -> k_pmm s' = k_pmm s1 -> k_slab s' = mkSlabSt c 0 -> other_statics s1 s' ->
  agree (fun x => ~ within c 4096 x) (k_mem s1) (k_mem s') ->
  header_ok osz ops 0 (k_mem s') c 0 [] -> load 8 (k_mem s') (c + C_FULL) = 0 ->
  load 8 (k_mem s') (c + C_PARTIAL) = 0 -> load 8 (k_mem s') (c + C_FREE) = 0 ->
  load 8 (k_mem s') (c + C_NEXT) = g_cache_list (k_slab s1) ->
  slab_inv osz ops 0 s' ((c, 0) :: A) c 0 no_slabs [] [] /\ caches_ok 0 s' ((c, 0) :: A) (c :: cs) /\
  agree (in_block A) (k_mem s1) (k_mem s') /\ other_statics s1 s'.
Proof.
  intros Hi Hn [L1 L2 L3 L4] Hc Eb Ep Es Hst Hag Hh F4 F5 F6 Hnext.
  assert (Hi' : pa_inv s' ((c, 0) :: A)).
  { apply (pa_frame s1); [done| |done|done]. eapply agree_mono; [|exact Hag]. intros x Hx Hw. apply Hx.
    exists c, 0. split; [left|]. by rewrite sz_0. }
  split; [by apply fresh_cache_core|]. split; [|split; [|done]].
  - split; rewrite ?Es; try done.
    + unfold cache_list. rewrite Es. cbn. split; [done|]. split; [unfold NULL; lia|]. rewrite Hnext.
      apply (cache_list_frame s1 s' A c cs); try done. eapply agree_mono; [|exact Hag]. by intros x [_ Hx].
    + apply NoDup_cons. split; [|done]. intros Hp. apply Hn. by apply L4.
    + intros p [->|Hp]%elem_of_cons; [left|right; by apply L4].
  - eapply agree_mono; [|exact Hag]. intros x Hx. apply (new_page_out s1 A ((c, 0) :: A) c x Hi); [set_solver|left|done|done].
Qed.

(** Initialising the page of a new cache. *)
(** Initialising the page of a new cache. *)
Lemma create_formats name size align osz s1 A c cs :
  osz = object_size size align -> 8 <= osz <= 4064 -> 0 <= align < 2 ^ 64 ->
  pa_inv s1 ((c, 0) :: A) -> (c, 0) ∉ A -> caches_ok 0 s1 A cs -> 0 < c < 2 ^ 52 ->
  wp (_ ← memset c 0 SIZEOF_CACHE;
      _ ← strncpy (c + C_NAME) name (SLAB_CACHE_NAME_MAX - 1);
      store8 (c + C_NAME + (SLAB_CACHE_NAME_MAX - 1)) 0 ;;
      let align := if align =? 0 then 8 else align in
      let object_size := align_up size align in
      store64 (c + C_OBJECT_SIZE) object_size ;;
      store64 (c + C_ALIGN) align ;;
      let usable_size := BUDDY_PAGE_SIZE - SIZEOF_SLAB in
      if object_size =? 0 then stop DivideError else
      store32 (c + C_OBJECTS_PER_SLAB) (u32 (usable_size / object_size)) ;;
      objects_per_slab ← load32 (c + C_OBJECTS_PER_SLAB);
      when (objects_per_slab =? 0) (store32 (c + C_OBJECTS_PER_SLAB) 1) ;;
      store32 (c + C_COLOR_NEXT) 0 ;;
      store64 (c + C_FULL) NULL ;;
      store64 (c + C_PARTIAL) NULL ;;
      store64 (c + C_FREE) NULL ;;
      store64 (c + C_ALLOCATIONS) 0 ;;
      store64 (c + C_FREES) 0 ;;
      store64 (c + C_HITS) 0 ;;
      spinlock_init (c + C_LOCK) ;;
      for_range 0 MAX_CPUS (fun i =>
        store64 (cpu_cache c i + U_OBJECTS) NULL ;;
        store32 (cpu_cache c i + U_AVAILABLE) 0 ;;
        store32 (cpu_cache c i + U_LIMIT) SLAB_CPU_CACHE_SIZE) ;;
      cache_list_acquire ;;
      head ← gets (fun s => g_cache_list (k_slab s));
      store64 (c + C_NEXT) head ;;
      modify (set_cache_list c) ;;
      cache_list_release ;;
      mret c)
    (fun r s' => r = c /\ slab_inv osz (4064 / osz) 0 s' ((c, 0) :: A) c 0 no_slabs [] [] /\
      caches_ok 0 s' ((c, 0) :: A) (c :: cs) /\ agree (in_block A) (k_mem s1) (k_mem s') /\ other_statics s1 s') s1.
Proof.
  intros Eo Ho Hal Hi Hn [L1 L2 L3 L4] Hc.
  assert (Hq : 0 < 4064 / osz <= 4064) by (split; [apply Z.div_str_pos; lia|apply Z.div_le_upper_bound; nia]).
  apply wp_bind. unfold memset. apply wp_bind, wp_fill8; [done|]. intros m1 Hag1 _. apply wp_ret.
  apply wp_bind, wp_strncpy; [unfold SLAB_CACHE_NAME_MAX; lia|]. intros m2 Hag2.
  apply wp_bind, wp_modify. cbv zeta. fold (object_size size align). rewrite <- Eo.
  apply wp_bind, wp_modify, wp_bind, wp_modify. rewrite (proj2 (Z.eqb_neq osz 0)) by lia.
  apply wp_bind, wp_modify. change (BUDDY_PAGE_SIZE - SIZEOF_SLAB) with 4064. rewrite u32_id by lia.
  apply wp_bind, wp_gets. cbn [k_mem set_mem]. rewrite !set_mem_set_mem. rewrite load32_store_eq by lia.
  rewrite (proj2 (Z.eqb_neq (4064 / osz) 0)) by lia. apply wp_bind, wp_ret.
  do 8 apply wp_bind, wp_modify. cbn [k_mem set_mem]. rewrite !set_mem_set_mem. apply wp_bind, wp_cpus. cbn [k_mem set_mem].
  match goal with |- context [agree _ ?big _] => set (m3 := big) end.
  assert (F1 : load 8 m3 (c + C_OBJECT_SIZE) = osz) by (unfold m3; field).
  assert (F2 : load 4 m3 (c + C_OBJECTS_PER_SLAB) = 4064 / osz) by (unfold m3; field).
  assert (F3 : load 4 m3 (c + C_LOCK) = 0) by (unfold m3; field).
  assert (F4 : load 8 m3 (c + C_FULL) = NULL) by (unfold m3, NULL; field).
  assert (F5 : load 8 m3 (c + C_PARTIAL) = NULL) by (unfold m3, NULL; field).
  assert (F6 : load 8 m3 (c + C_FREE) = NULL) by (unfold m3, NULL; field).
  assert (Hag3 : agree (fun x => ~ within c 4096 x) (k_mem s1) m3).
  { unfold m3. intros x Hx. unfold SLAB_CACHE_NAME_MAX in *. rewrite !mget_store_out by sarith. etrans.
    - apply Hag2. cbn [k_mem set_mem]. sarith.
    - cbn [k_mem set_mem]. apply Hag1. sarith. }
  clearbody m3. clear Hag1 Hag2 m1 m2. intros m4 Hag4 Hcpu. rewrite set_mem_set_mem.
  apply wp_bind. unfold cache_list_acquire, acquire_var. apply wp_bind, wp_gets.
  change (k_slab (set_mem m4 s1)) with (k_slab s1). rewrite L2. cbn [Z.eqb]. apply wp_modify.
  apply wp_bind, wp_gets, wp_bind, wp_modify, wp_bind, wp_modify, wp_bind, wp_modify, wp_ret.
  set (hd := g_cache_list _). assert (Ehd : hd = g_cache_list (k_slab s1)) by done. clearbody hd. cbn.
  assert (Hhd : 0 <= hd < 2 ^ 64).
  { rewrite Ehd. apply (sll_bound C_NEXT (k_mem s1) _ cs L1). intros p Hp.
    destruct (pa_block _ _ p 0 Hi ltac:(right; by apply L4)) as (_ & P1 & _ & P2). unfold PHYS_LIMIT in P2. rewrite sz_0 in P2. lia. }
  assert (Hag : agree (fun x => ~ within c 4096 x) (k_mem s1) (store 8 m4 (c + C_NEXT) hd)).
  { intros x Hx. rewrite mget_store_out by sarith. rewrite Hag4 by sarith. by apply Hag3. }
  assert (Hkeep : forall (n : nat) a, c <= a -> a + Z.of_nat n <= c + C_CPU ->
    load n (store 8 m4 (c + C_NEXT) hd) a = load n m3 a).
  { intros n a H1 H2. rewrite load_store_ne by sarith. apply load_agree. eapply agree_mono; [|exact Hag4]. intros x Hx. sarith. }
  split; [done|].
  apply (cache_linked _ _ s1); try done; change (k_mem _) with (store 8 m4 (c + C_NEXT) hd).
  - apply fresh_header; try (rewrite Hkeep by sarith; done).
    intros i Hi'. rewrite !load_store_ne by (unfold MAX_CPUS in *; sarith). by apply Hcpu.
  - rewrite Hkeep by sarith. exact F4.
  - rewrite Hkeep by sarith. exact F5.
  - rewrite Hkeep by sarith. exact F6.
  - rewrite <- Ehd. by apply load64_store_eq.
Qed.

(** ** Destruction *)

Definition page_blocks (l : list Z) : blocks := (fun p => (p, 0)) <$> l.

Lemma elem_page_blocks l p : (p, 0) ∈ page_blocks l <-> p ∈ l.
Proof.
  unfold page_blocks. rewrite list_elem_of_fmap. split; [by intros (q & [= ->] & Hq)|]. intros Hp. by exists p.
Qed.

(** The pages [l] went back to the allocator, and nothing that is still owned changed. *)
Definition gave (s : kst) (A : blocks) (l : list Z) (s' : kst) (A' : blocks) : Prop :=
  same_statics s s' /\ pa_inv s' A' /\ (forall b, b ∈ A' <-> b ∈ A /\ b ∉ page_blocks l) /\
  agree (in_block A') (k_mem s) (k_mem s').

Lemma in_block_sub A A' x : (forall b, b ∈ A' -> b ∈ A) -> in_block A' x -> in_block A x.
Proof. intros Hs (b & ob & Hb & Hx). exists b, ob. split; [by apply Hs|done]. Qed.

Lemma gave_nil s A : pa_inv s A -> gave s A [] s A.
Proof.
  intros H. split; [done|]. split; [done|]. split; [|done]. intros b. split; [|tauto]. intros Hb. split; [done|].
  by apply not_elem_of_nil.
Qed.

Lemma gave_trans s A l1 s1 A1 l2 s2 A2 : gave s A l1 s1 A1 -> gave s1 A1 l2 s2 A2 -> gave s A (l1 ++ l2) s2 A2.
Proof.
  intros (S1 & I1 & E1 & G1) (S2 & I2 & E2 & G2). split; [by etrans|]. split; [done|]. split.
  - intros b. rewrite E2, E1. unfold page_blocks. rewrite fmap_app, elem_of_app. tauto.
  - etrans; [|exact G2]. eapply agree_mono; [|exact G1]. intros x. apply in_block_sub. intros b Hb. by apply E2 in Hb as [].
Qed.

Lemma gave_one s A p : pa_inv s A -> (p, 0) ∈ A ->
  exists s' A', buddy_free_pages p 0 s = Done tt s' /\ gave s A [p] s' A'.
Proof.
  intros Hi Hp. destruct (pa_free_in s A p Hi Hp) as (s' & A' & Hrun & Hst & Hi' & HA & Hag). exists s', A'.
  split; [done|]. split; [done|]. split; [done|]. split; [|done]. intros b. rewrite HA. unfold page_blocks. simpl.
  rewrite list_elem_of_singleton. done.
Qed.

(** A page that was kept holds what it held. *)
Lemma gave_kept s A l s' A' p : gave s A l s' A' -> (p, 0) ∈ A -> p ∉ l ->
  (p, 0) ∈ A' /\ agree (within p 4096) (k_mem s) (k_mem s').
Proof.
  intros (_ & _ & HA & Hag) Hp Hl. assert (Hp' : (p, 0) ∈ A') by (apply HA; by rewrite elem_page_blocks).
  split; [done|]. eapply agree_mono; [|exact Hag]. intros x Hx. exists p, 0. by rewrite sz_0.
Qed.

Lemma free_slabs_ok s A h l : pa_inv s A -> sll S_NEXT (k_mem s) h l -> NoDup l -> (forall p, p ∈ l -> (p, 0) ∈ A) ->
  exists s' A', free_slabs h s = Done tt s' /\ gave s A l s' A'.
Proof.
  intros Hi Hl Hnd Hown.
  assert (Hlen : Z.of_nat (length l) <= 2 ^ 40). { apply pages_length; [done|]. intros a Ha. apply (pa_block s A a 0 Hi). by apply Hown. }
  assert (Hwp : wp (free_slabs h) (fun _ s' => exists A', gave s A l s' A') s); cycle 1.
  { apply wp_Done in Hwp as ([] & s' & Hrun & A' & Hg). by exists s', A'. }
  unfold free_slabs. apply (wp_loop (fun n cur s' => exists l1 l2 A', l = l1 ++ l2 /\ length l2 = n /\ gave s A l1 s' A' /\
    sll S_NEXT (k_mem s') cur l2) (length l)); [|lia|].
  { exists [], l, A. split; [done|]. split; [done|]. split; [by apply gave_nil|done]. }
  intros n cur s' (l1 & l2 & A' & -> & <- & Hg & Hs). destruct l2 as [|p l2].
  - cbn in Hs. subst cur. rewrite Z.eqb_refl. apply wp_ret. exists A'. by rewrite app_nil_r.
  - destruct Hs as (-> & Hn & Hs). rewrite (proj2 (Z.eqb_neq p NULL) Hn). apply wp_bind, wp_gets.
    apply NoDup_app in Hnd as (_ & Hd & Hnd). apply NoDup_cons in Hnd as [Hpl Hnd].
    assert (Hin : forall q, q ∈ p :: l2 -> (q, 0) ∈ A').
    { intros q Hq. apply (gave_kept s A l1 s' A' q Hg); [apply Hown; eauto with inlist|]. intros H1. by apply (Hd q H1). }
    destruct (gave_one s' A' p ltac:(apply Hg) ltac:(apply Hin; left)) as (s2 & A2 & Hrun & Hg2).
    apply wp_bind. eapply wp_of_Done; [exact Hrun|]. apply wp_ret. exists (length l2). split; [simpl; lia|].
    exists (l1 ++ [p]), l2, A2. rewrite <- app_assoc. split; [done|]. split; [done|]. split; [by eapply gave_trans|].
    apply (sll_frame S_NEXT (k_mem s')); [|done]. intros q Hq.
    destruct (gave_kept s' A' [p] s2 A2 q Hg2 ltac:(apply Hin; by right)) as [_ Hag].
    { intros E%list_elem_of_singleton. by subst q. }
    eapply agree_mono; [|exact Hag]. intros x Hx. sarith.
Qed.

(** Unlinking writes only links of other caches. *)
Definition link_val (s : kst) (cur : option Z) : Z :=
  match cur with None => g_cache_list (k_slab s) | Some q => load 8 (k_mem s) (q + C_NEXT) end.

Lemma unlink_found lk s A cs c cur l0 l2 (Q : unit -> kst -> Prop) : caches_ok lk s A cs -> pa_inv s A ->
  cs = l0 ++ c :: l2 -> (cur = None /\ l0 = [] \/ exists l q, l0 = l ++ [q] /\ cur = Some q) ->
  (forall s', caches_ok lk s' A (l0 ++ l2) -> k_buddy s' = k_buddy s -> k_pmm s' = k_pmm s -> 
    agree (fun x => forall q, q ∈ cs -> q <> c -> ~ within (q + C_NEXT) 8 x) (k_mem s) (k_mem s') -> Q tt s') ->
  wp (next ← load64 (c + C_NEXT); write_link cur next) Q s.
Proof.
  intros [C1 C2 C3 C4] Hi -> Hcur HQ. apply wp_bind, wp_gets.
  assert (Hnd : NoDup (l0 ++ l2)).
  { apply NoDup_app in C3 as (N1 & N2 & [_ N3]%NoDup_cons). apply NoDup_app. split; [done|]. split; [|done].
    intros x Hx Hx2. apply (N2 x Hx). by right. }
  assert (Hown : forall p, p ∈ l0 ++ l2 -> (p, 0) ∈ A).
  { intros p Hp. apply C4. rewrite elem_of_app in Hp. rewrite elem_of_app, elem_of_cons. tauto. }
  destruct Hcur as [[-> ->]|(l & q & -> & ->)]; apply wp_modify, HQ; try done.
  - split; try done. cbn. destruct C1 as (_ & _ & C1). exact C1.
  - split; try done. unfold cache_list in *. cbn. rewrite <- !app_assoc in *. cbn [app] in *.
    apply sll_unlink; [done| |done]. intros a b Ha Hb. destruct (decide (a = b)) as [->|Hne]; [by left|right].
    assert (Hd : disj a 0 b 0).
    { apply (pa_disj s A); [done|by apply C4|by apply C4|]. by intros [= E]. }
    unfold disj in Hd. rewrite sz_0 in Hd. lia.
  - cbn. apply agree_store. intros x Hx. apply (Hx q); [eauto with inlist|]. intros ->.
    apply NoDup_app in C3 as (_ & N2 & _). apply (N2 c); eauto with inlist.
Qed.

Lemma unlink_cache_ok lk s A cs c : caches_ok lk s A cs -> pa_inv s A -> c ∈ cs -> c <> NULL ->
  wp (unlink_cache c) (fun _ s' => caches_ok lk s' A (without c cs) /\ k_buddy s' = k_buddy s /\ k_pmm s' = k_pmm s /\
    agree (fun x => forall q, q ∈ cs -> q <> c -> ~ within (q + C_NEXT) 8 x) (k_mem s) (k_mem s')) s.
Proof.
  intros HC Hi Hin Hcn. pose proof HC as [C1 C2 C3 C4].
  assert (Hlen : Z.of_nat (length cs) <= 2 ^ 40). { apply pages_length; [done|]. intros a Ha. apply (pa_block s A a 0 Hi). by apply C4. }
  unfold unlink_cache. apply (wp_loop (fun n cur s' => s' = s /\ exists l1 l2, cs = l1 ++ l2 /\ c ∉ l1 /\ length l2 = n /\
    (cur = None /\ l1 = [] \/ exists l q, l1 = l ++ [q] /\ cur = Some q) /\ sll C_NEXT (k_mem s) (link_val s cur) l2) (length cs)); [|lia|].
  { split; [done|]. exists [], cs. split; [done|]. split; [by apply not_elem_of_nil|]. split; [done|]. split; [by left|exact C1]. }
  intros n cur s' (-> & l1 & l2 & -> & Hno & <- & Hcur & Hs).
  destruct l2 as [|a l2]; [rewrite app_nil_r in Hin; done|]. destruct Hs as (Ha & Hn & Hs).
  assert (Hread : forall Q, Q a s -> wp (read_link cur) Q s).
  { intros Q HQ. unfold read_link. rewrite <- Ha in HQ. by destruct cur; apply wp_gets. }
  apply wp_bind, Hread. rewrite (proj2 (Z.eqb_neq a NULL) Hn). destruct (Z.eqb_spec a c) as [->|Hne].
  - assert (Hwp : wp (next ← load64 (c + C_NEXT); write_link cur next) (fun _ s' => caches_ok lk s' A (without c (l1 ++ c :: l2)) /\
      k_buddy s' = k_buddy s /\ k_pmm s' = k_pmm s /\
      agree (fun x => forall q, q ∈ l1 ++ c :: l2 -> q <> c -> ~ within (q + C_NEXT) 8 x) (k_mem s) (k_mem s')) s).
    { apply (unlink_found lk s A (l1 ++ c :: l2) c cur l1 l2); [done|done|done|done|].
      intros s' H1 H2 H3 H4. rewrite without_middle by done. done. }
    apply wp_bind, wp_gets. apply wp_Done in Hwp as ([] & s' & Hrun & HQ). apply wp_bind. eapply wp_of_Done; [exact Hrun|].
    by apply wp_ret.
  - apply wp_ret. exists (length l2). split; [simpl; lia|]. split; [done|]. exists (l1 ++ [a]), l2. rewrite <- app_assoc.
    split; [done|]. split; [rewrite elem_of_app, list_elem_of_singleton; intros [?|?]; [done|by subst a]|]. split; [done|].
    split; [right; by exists l1, a|exact Hs].
Qed.

Section destroy.
Context (osz ops : Z) (G : good_sizes osz ops).

Lemma cache_bytes_page lk s A c arr L cpu H x : slab_core osz ops lk s A c arr L cpu H -> cache_bytes c arr L x ->
  exists p, p ∈ cache_pages c arr L /\ within p 4096 x.
Proof.
  intros Hc [[Hx|[Hx|[Ha Hx]]]|[[Hx|(sl & Hsl & Hx)]|(sl & Hsl & Hx)]].
  - exists c. split; [apply in_pages_cache|sarith].
  - exists c. split; [apply in_pages_cache|sarith].
  - exists arr. split; [by apply in_pages_array|sarith].
  - exists c. split; [apply in_pages_cache|sarith].
  - exists (sl_page sl). split; [by apply in_pages_slab|sarith].
  - exists (sl_page sl). split; [by apply in_pages_slab|].
    by apply (slab_bytes_page osz ops (k_mem s)) in Hx as [Hx _]; [|apply Hc|].
Qed.

(** What happens outside the pages of a cache does not concern it. *)
Lemma inv_other lk s s' A c arr L cpu H : slab_inv osz ops lk s A c arr L cpu H ->
  k_buddy s' = k_buddy s -> k_pmm s' = k_pmm s ->
  agree (fun x => (exists p, p ∈ cache_pages c arr L /\ within p 4096 x) \/ ~ in_block A x) (k_mem s) (k_mem s') ->
  slab_inv osz ops lk s' A c arr L cpu H.
Proof.
  intros [Hc Hcl] Hb Hp Hag. split; [|done].
  assert (Hc1 : slab_core osz ops lk (set_mem (k_mem s') s) A c arr L cpu H).
  { apply (slab_core_frame osz ops lk G s); [done|]. eapply agree_mono; [|exact Hag]. intros x [Hx|Hx]; [left|by right].
    by eapply cache_bytes_page. }
  destruct Hc1 as [C1 C2 C3 C4 C5 C6 C7 C8]. split; try done. apply (pa_frame (set_mem (k_mem s') s)); done.
Qed.

(** Freeing the slabs of one list, the header and the other lists being in pages that
    are kept. *)
Lemma destroy_list s A l0 s1 A1 c f arr L cpu H lk : slab_core osz ops lk s A c arr L cpu H -> list_field f ->
  gave s A l0 s1 A1 -> c ∉ l0 -> (forall p, p ∈ sl_page <$> L f -> p ∉ l0) ->
  wp (slab ← load64 (c + f); free_slabs slab) (fun _ s' => exists A', gave s A (l0 ++ (sl_page <$> L f)) s' A') s1.
Proof.
  intros Hc Hf Hg Hcl Hl. apply wp_bind, wp_gets.
  assert (Hown : forall p, p ∈ cache_pages c arr L -> (p, 0) ∈ A) by apply (sc_own _ _ _ _ _ _ _ _ _ _ Hc).
  assert (Hin : forall p, p ∈ sl_page <$> L f -> p ∈ cache_pages c arr L).
  { intros p (sl & -> & Hsl)%list_elem_of_fmap. apply in_pages_slab. by exists f. }
  assert (Hs : sll S_NEXT (k_mem s1) (load 8 (k_mem s1) (c + f)) (sl_page <$> L f)).
  { destruct (gave_kept s A l0 s1 A1 c Hg (Hown c (in_pages_cache _ _ _)) Hcl) as [_ Hag].
    rewrite (load_agree 8 (k_mem s) (k_mem s1)); cycle 1.
    { eapply agree_mono; [|exact Hag]. intros x Hx. destruct Hf as [-> | [-> | ->]]; sarith. }
    apply (sll_frame S_NEXT (k_mem s)); [|by apply (sc_lists _ _ _ _ _ _ _ _ _ _ Hc)]. intros p Hp.
    destruct (gave_kept s A l0 s1 A1 p Hg (Hown p (Hin p Hp)) (Hl p Hp)) as [_ Hag'].
    eapply agree_mono; [|exact Hag']. intros x Hx. sarith. }
  destruct (free_slabs_ok s1 A1 _ _ ltac:(apply Hg) Hs) as (s2 & A2 & Hrun & Hg2).
  - by apply (list_nodup osz ops lk s A c arr L cpu H).
  - intros p Hp. by apply (gave_kept s A l0 s1 A1 p Hg (Hown p (Hin p Hp)) (Hl p Hp)).
  - eapply wp_of_Done; [exact Hrun|]. exists A2. by eapply gave_trans.
Qed.

(** Freeing the per-CPU arrays: only the first CPU has one. *)
Lemma destroy_arrays s A l0 s1 A1 c arr L cpu H lk : slab_core osz ops lk s A c arr L cpu H ->
  gave s A l0 s1 A1 -> c ∉ l0 -> arr ∉ l0 ->
  wp (for_range 0 MAX_CPUS (fun i =>
        objects ← load64 (cpu_cache c i + U_OBJECTS);
        when (negb (objects =? NULL)) (buddy_free_pages objects 0)))
    (fun _ s' => exists A', gave s A (l0 ++ (if arr =? 0 then [] else [arr])) s' A') s1.
Proof.
  intros Hc Hg Hcl Hal.
  assert (Hown : forall p, p ∈ cache_pages c arr L -> (p, 0) ∈ A) by apply (sc_own _ _ _ _ _ _ _ _ _ _ Hc).
  pose proof (sc_header _ _ _ _ _ _ _ _ _ _ Hc) as Hh. set (la := if arr =? 0 then [] else [arr]).
  assert (Hread : forall i s' A' l, gave s A l s' A' -> c ∉ l -> 0 <= i < MAX_CPUS ->
    load 8 (k_mem s') (cpu_cache c i + U_OBJECTS) = load 8 (k_mem s) (cpu_cache c i + U_OBJECTS)).
  { intros i s' A' l Hg' Hl Hi. destruct (gave_kept s A l s' A' c Hg' (Hown c (in_pages_cache _ _ _)) Hl) as [_ Hag].
    apply load_agree. eapply agree_mono; [|exact Hag]. intros x Hx. unfold MAX_CPUS in *. sarith. }
  assert (Hla : c ∉ l0 ++ la).
  { rewrite elem_of_app. unfold la. intros [?|Hx]; [done|]. destruct (Z.eqb_spec arr 0) as [E|E]; [by apply not_elem_of_nil in Hx|].
    apply list_elem_of_singleton in Hx. by apply (array_not_cache osz ops lk s A c arr L cpu H Hc E). }
  apply (wp_for_range (fun i s' => exists A', gave s A (if i =? 0 then l0 else l0 ++ la) s' A')); [by unfold MAX_CPUS| | |].
  - by exists A1.
  - intros i s' Hi (A' & Hg'). apply wp_bind, wp_gets. rewrite (Hread i s' A' _ Hg') by (destruct (i =? 0); done || lia).
    destruct (Z.eqb_spec i 0) as [->|Hn].
    + rewrite (ho_array _ _ _ _ _ _ _ Hh). change (0 + 1 =? 0) with false. cbv iota. subst la.
      destruct (Z.eqb_spec arr 0) as [->|Ha].
      * apply wp_ret. exists A'. by rewrite app_nil_r.
      * rewrite (proj2 (Z.eqb_neq arr NULL)) by done. cbn [negb when].
        destruct (gave_kept s A l0 s' A' arr Hg' (Hown arr (in_pages_array _ _ _ Ha)) Hal) as [Hin _].
        destruct (gave_one s' A' arr ltac:(apply Hg') Hin) as (s2 & A2 & Hrun & Hg2). eapply wp_of_Done; [exact Hrun|].
        exists A2. by eapply gave_trans.
    + rewrite (ho_others _ _ _ _ _ _ _ Hh) by lia. change (negb (0 =? NULL)) with false. apply wp_ret.
      rewrite (proj2 (Z.eqb_neq (i + 1) 0)) by lia. by exists A'.
  - intros s' (A' & Hg'). by exists A'.
Qed.

(** The pages of a cache, list by list. *)
Lemma cache_pages_split lk s A c arr L cpu H : slab_core osz ops lk s A c arr L cpu H ->
  let la := if arr =? 0 then [] else [arr] in let F f := sl_page <$> L f in
  NoDup (c :: la ++ F C_FULL ++ F C_PARTIAL ++ F C_FREE) /\
  forall p, p ∈ (((F C_FULL ++ F C_PARTIAL) ++ F C_FREE) ++ la) ++ [c] <-> p ∈ cache_pages c arr L.
Proof.
  intros Hc la F. pose proof (sc_nodup _ _ _ _ _ _ _ _ _ _ Hc) as Hn. unfold cache_pages, all_slabs in *.
  rewrite !fmap_app in *. split; [exact Hn|]. intros p. unfold F, la.
  rewrite elem_of_cons, !elem_of_app, list_elem_of_singleton. tauto.
Qed.

(** The freeing half of [slab_cache_destroy]. *)
Lemma destroy_pages s A c arr L cpu H : slab_inv osz ops 0 s A c arr L cpu H ->
  wp (spinlock_acquire (c + C_LOCK) ;;
      slab ← load64 (c + C_FULL); free_slabs slab ;;
      slab ← load64 (c + C_PARTIAL); free_slabs slab ;;
      slab ← load64 (c + C_FREE); free_slabs slab ;;
      for_range 0 MAX_CPUS (fun i =>
        objects ← load64 (cpu_cache c i + U_OBJECTS);
        when (negb (objects =? NULL)) (buddy_free_pages objects 0)) ;;
      spinlock_release (c + C_LOCK) ;;
      buddy_free_pages c 0) (fun _ s' => exists A', gave s A (cache_pages c arr L) s' A') s.
Proof.
  intros Hi. pose proof (sc_header _ _ _ _ _ _ _ _ _ _ (si_core _ _ _ _ _ _ _ _ _ _ Hi)) as Hh.
  apply wp_bind. eapply wp_of_Done; [apply acquire_ok, Hh|].
  destruct (inv_lock osz ops G 0 1 s A c arr L cpu H ltac:(lia) Hi) as [[Hc _] _]. cbn zeta in Hc.
  set (s1 := set_mem _ s) in *. set (la := if arr =? 0 then [] else [arr]).
  destruct (cache_pages_split 1 s1 A c arr L cpu H Hc) as [Hnd Hpg]. cbn zeta in Hnd, Hpg. fold la in Hnd, Hpg.
  set (F := fun f => sl_page <$> L f) in *. change (sl_page <$> L C_FULL) with (F C_FULL) in *.
  change (sl_page <$> L C_PARTIAL) with (F C_PARTIAL) in *. change (sl_page <$> L C_FREE) with (F C_FREE) in *.
  apply NoDup_cons in Hnd as [Hcn Hnd]. apply NoDup_app in Hnd as (Hla & Hlf & Hnd).
  apply NoDup_app in Hnd as (HF & HFp & Hnd). apply NoDup_app in Hnd as (HP & HPr & HR).
  rewrite !elem_of_app in Hcn.
  assert (Hf : list_field C_FULL /\ list_field C_PARTIAL /\ list_field C_FREE) by (unfold list_field; auto).
  destruct Hf as (Hf1 & Hf2 & Hf3).
  pose proof (gave_nil s1 A (sc_alloc _ _ _ _ _ _ _ _ _ _ Hc)) as Hg0.
  apply wp_assoc. eapply wp_mono; [apply (destroy_list s1 A [] s1 A c C_FULL arr L cpu H 1 Hc Hf1 Hg0)|].
  { apply not_elem_of_nil. }
  { intros p _. apply not_elem_of_nil. }
  intros [] s2 (A2 & Hg2). apply wp_assoc. cbn [app] in Hg2.
  eapply wp_mono; [apply (destroy_list s1 A (F C_FULL) s2 A2 c C_PARTIAL arr L cpu H 1 Hc Hf2 Hg2)|].
  { tauto. }
  { intros p Hp HpF. apply (HFp p HpF). apply elem_of_app. by left. }
  intros [] s3 (A3 & Hg3). apply wp_assoc. change (sl_page <$> L C_PARTIAL) with (F C_PARTIAL) in Hg3.
  eapply wp_mono; [apply (destroy_list s1 A (F C_FULL ++ F C_PARTIAL) s3 A3 c C_FREE arr L cpu H 1 Hc Hf3 Hg3)|].
  { rewrite elem_of_app. tauto. }
  { intros p Hp [HpF|HpF]%elem_of_app; [apply (HFp p HpF); apply elem_of_app; by right|by apply (HPr p HpF)]. }
  intros [] s4 (A4 & Hg4). apply wp_bind. change (sl_page <$> L C_FREE) with (F C_FREE) in Hg4.
  eapply wp_mono; [apply (destroy_arrays s1 A _ s4 A4 c arr L cpu H 1 Hc Hg4)|].
  { rewrite !elem_of_app. tauto. }
  { rewrite <- app_assoc. intros Hx. destruct (Z.eqb_spec arr 0) as [E|E].
    - subst arr. assert (Hz : 0 ∈ cache_pages c 0 L) by (apply Hpg; rewrite !elem_of_app in *; tauto).
      pose proof (page_range osz ops 1 s1 A c 0 L cpu H Hc 0 Hz). lia.
    - by apply (Hlf arr ltac:(unfold la; left)). }
  intros [] s5 (A5 & Hg5). fold la in Hg5. set (l5 := ((F C_FULL ++ F C_PARTIAL) ++ F C_FREE) ++ la) in *.
  assert (Hc5 : c ∉ l5) by (unfold l5; rewrite !elem_of_app; tauto).
  destruct (gave_kept s1 A l5 s5 A5 c Hg5 (sc_own _ _ _ _ _ _ _ _ _ _ Hc c (in_pages_cache _ _ _)) Hc5) as [Hin5 _].
  apply wp_bind. eapply wp_of_Done; [apply release_ok|]. pose proof Hg5 as (T1 & T2 & T3 & T4).
  destruct (gave_one (set_mem (store 4 (k_mem s5) (c + C_LOCK) 0) s5) A5 c) as (s6 & A6 & Hrun & U1 & U2 & U3 & U4); [|done|].
  { apply (pa_store s5 A5 4 _ _ c 0); [done|done|sarith|]. rewrite sz_0. sarith. }
  eapply wp_of_Done; [exact Hrun|]. exists A6. split; [etrans; [exact T1|exact U1]|]. split; [done|]. split.
  - intros [b ob]. rewrite U3, T3. assert (Hb : (b, ob) ∈ page_blocks (cache_pages c arr L) <-> (b, ob) ∈ page_blocks (l5 ++ [c])).
    { unfold page_blocks. rewrite !list_elem_of_fmap. split; intros (q & E & Hq); exists q; (split; [done|]); by apply Hpg. }
    rewrite Hb. unfold page_blocks. rewrite fmap_app, elem_of_app. tauto.
  - assert (Hsub : forall x, in_block A6 x -> in_block A5 x /\ ~ within c 4096 x).
    { intros x Hx. split; [eapply in_block_sub; [|exact Hx]; intros b Hb; by apply U3 in Hb as []|].
      destruct Hx as (b & ob & Hb & Hx). apply U3 in Hb as [Hb Hnc]. intros Hw.
      assert (Hd : disj b ob c 0). { apply (pa_disj s5 A5); [done|done|done|]. intros [= -> ->]. apply Hnc. left. }
      unfold disj in Hd. rewrite sz_0 in Hd. unfold within in *. lia. }
    etrans; [|exact U4]. intros x Hx. destruct (Hsub x Hx) as [Hx5 Hxc]. cbn [k_mem set_mem].
    rewrite mget_store_out by sarith. rewrite (T4 x Hx5). unfold s1. cbn [k_mem set_mem]. rewrite mget_store_out by sarith. done.
Qed.
End destroy.
End ops.

(** ** The properties *)
Section properties.
Context `{PA : PageAllocator 0 (buddy_alloc_pages 0 BUDDY_ZONE_UNMOVABLE) (fun a => buddy_free_pages a 0)}.

(** The statistics the error message prints. *)
Context (Hstats : forall s A, pa_inv s A ->
  (exists v, buddy_get_free_pages s = Done v s) /\ exists v, buddy_get_total_pages s = Done v s).

(** A cache for objects of [osz] bytes was created at [c]. *)
Definition created (osz : Z) (s : kst) (A : blocks) (cs : list Z) (c : Z) (s' : kst) : Prop :=
  c <> NULL /\ (c, 0) ∉ A /\ slab_inv osz (4064 / osz) 0 s' ((c, 0) :: A) c 0 no_slabs [] [] /\
  caches_ok 0 s' ((c, 0) :: A) (c :: cs) /\ agree (in_block A) (k_mem s) (k_mem s') /\ other_statics s s'.

Lemma create_runs name size align osz s A cs : name <> NULL -> 0 < size <= 4096 -> 0 <= align < 2 ^ 64 ->
  osz = object_size size align -> 8 <= osz <= 4064 -> pa_inv s A -> caches_ok 0 s A cs ->
  exists c s', slab_cache_create name size align s = Done c s' /\
    ((c = NULL /\ s' = s /\ buddy_alloc_pages 0 BUDDY_ZONE_UNMOVABLE s = Done 0 s) \/ created osz s A cs c s').
Proof.
  intros Hname Hsize Hal Eo G Hi HC. apply wp_Done.
  unfold slab_cache_create, BUDDY_PAGE_SIZE at 1. rewrite (proj2 (Z.eqb_neq name NULL)), (proj2 (Z.eqb_neq size 0)) by lia.
  rewrite (proj2 (Z.ltb_ge 4096 size)) by lia. cbv zeta.
  destruct (pa_alloc s A Hi) as (c & s1 & Hrun & Hst & Hcase). apply wp_bind. eapply wp_of_Done; [exact Hrun|].
  destruct Hcase as [[-> ->]|(Hb & Hi1 & Hn & Hag)].
  { destruct (Hstats s A Hi) as [[v Hv] [w Hw]]. change (0 =? 0) with true. cbv iota.
    apply wp_bind. eapply wp_of_Done; [exact Hv|]. apply wp_bind. eapply wp_of_Done; [exact Hw|]. apply wp_ret. left. split; [done|]. by split. }
  destruct Hb as (_ & R1 & _ & R2). unfold PHYS_LIMIT in R2. rewrite sz_0 in R2. rewrite (proj2 (Z.eqb_neq c 0)) by lia.
  assert (HC1 : caches_ok 0 s1 A cs).
  { destruct HC as [L1 L2 L3 L4]. destruct Hst as (Hsl & _). split; try done; [|by rewrite Hsl].
    unfold cache_list. rewrite Hsl. apply (cache_list_frame s s1 A c cs); try done.
    eapply agree_mono; [|exact Hag]. by intros x [Hx _]. }
  eapply wp_mono; [by apply (create_formats name size align osz s1 A c cs); [..|lia]|].
  intros r s2 (-> & Hinv & HC2 & Hag2 & Ho2). right. split; [unfold NULL; lia|]. split; [done|]. split; [done|]. split; [done|].
  split; [by etrans|]. destruct Hst as (_ & E1 & E2 & E3 & E4), Ho2 as (F1 & F2 & F3 & F4). unfold other_statics. by rewrite F1, F2, F3, F4.
Qed.

(** C14: [slab_cache_create] refuses a NULL name, a zero size and a size of more than a page,
    without any effect.  Otherwise, for sizes that leave room in a slab, it gives NULL
    and changes nothing when there is no page, or an empty consistent cache on a page of
    its own, at the head of the list of caches; memory its caller owns is not written.  Its
    objects are the least multiple of the alignment (8 when none is asked for, a power of two)
    that holds [size] bytes. *)
Theorem slab_cache_create_correct :
  (forall name size align s, name = NULL \/ size = 0 \/ 4096 < size -> slab_cache_create name size align s = Done NULL s) /\
  forall name size align osz s A cs, name <> NULL -> 0 < size <= 4096 -> 0 <= align < 2 ^ 64 ->
    osz = object_size size align -> 8 <= osz <= 4064 -> pa_inv s A -> caches_ok 0 s A cs ->
    (forall k, (if align =? 0 then 8 else align) = 2 ^ k -> 0 <= k < 63 -> size <= osz < size + 2 ^ k /\ osz mod 2 ^ k = 0) /\
    exists c s', slab_cache_create name size align s = Done c s' /\
      ((c = NULL /\ s' = s /\ buddy_alloc_pages 0 BUDDY_ZONE_UNMOVABLE s = Done 0 s) \/ created osz s A cs c s').
Proof.
  split.
  { intros name size align s Hbad. unfold slab_cache_create, BUDDY_PAGE_SIZE.
    destruct (Z.eqb_spec name NULL); [done|]. destruct (Z.eqb_spec size 0); [done|].
    by rewrite (proj2 (Z.ltb_lt 4096 size)) by lia. }
  intros name size align osz s A cs H1 H2 H3 H4 H5 H6 H7. split; [intros k; rewrite H4; by apply object_size_holds|]. by apply (create_runs name size align osz s A cs).
Qed.

(** The writes of the other caches' links. *)
Lemma unlinked_other osz ops lk s s' A c arr L cpu H cs : good_sizes osz ops -> slab_inv osz ops lk s A c arr L cpu H ->
  caches_ok lk s A cs -> (forall q, q ∈ cs -> q <> c -> q ∉ cache_pages c arr L) ->
  agree (fun x => forall q, q ∈ cs -> q <> c -> ~ within (q + C_NEXT) 8 x) (k_mem s) (k_mem s') ->
  agree (fun x => (exists p, p ∈ cache_pages c arr L /\ within p 4096 x) \/ ~ in_block A x) (k_mem s) (k_mem s').
Proof.
  intros G [Hc _] HC Hout Hag. eapply agree_mono; [|exact Hag]. intros x Hx q Hq Hne Hw.
  pose proof (cs_own _ _ _ _ HC q Hq) as HqA. destruct Hx as [(p & Hp & Hxp)|Hx].
  - pose proof (sc_own _ _ _ _ _ _ _ _ _ _ Hc p Hp) as HpA. destruct (decide (p = q)) as [->|Hpq]; [by apply (Hout q)|].
    assert (Hd : disj p 0 q 0). { apply (pa_disj s A); [apply Hc|done|done|]. by intros [= E]. }
    unfold disj in Hd. rewrite sz_0 in Hd. sarith.
  - apply Hx. exists q, 0. split; [done|]. rewrite sz_0. sarith.
Qed.

(** [slab_cache_destroy] of a listed cache gives the allocator back exactly the pages of
    the cache - its header, its slabs, its per-CPU array -, takes it off the list of
    caches, and writes nothing else that is still owned but the link of the cache before
    it.  Of a NULL cache it does nothing. *)
Theorem slab_cache_destroy_correct : (forall s, slab_cache_destroy NULL s = Done tt s) /\
  forall osz ops s A c arr L cpu H cs, good_sizes osz ops -> slab_inv osz ops 0 s A c arr L cpu H ->
    caches_ok 0 s A cs -> c ∈ cs -> (forall q, q ∈ cs -> q <> c -> q ∉ cache_pages c arr L) ->
    exists s' A', slab_cache_destroy c s = Done tt s' /\ pa_inv s' A' /\
      (forall b, b ∈ A' <-> b ∈ A /\ b ∉ page_blocks (cache_pages c arr L)) /\ caches_ok 0 s' A' (without c cs) /\
      agree (fun x => in_block A' x /\ forall q, q ∈ cs -> ~ within (q + C_NEXT) 8 x) (k_mem s) (k_mem s').
Proof.
  split; [done|]. intros osz ops s A c arr L cpu H cs G Hi HC Hin Hout. pose proof (si_core _ _ _ _ _ _ _ _ _ _ Hi) as Hc.
  pose proof (page_range osz ops 0 s A c arr L cpu H Hc c (in_pages_cache _ _ _)) as Hcr.
  assert (Hwp : wp (slab_cache_destroy c) (fun _ s' => exists A', pa_inv s' A' /\
    (forall b, b ∈ A' <-> b ∈ A /\ b ∉ page_blocks (cache_pages c arr L)) /\ caches_ok 0 s' A' (without c cs) /\
      agree (fun x => in_block A' x /\ forall q, q ∈ cs -> ~ within (q + C_NEXT) 8 x) (k_mem s) (k_mem s')) s); cycle 1.
  { apply wp_Done in Hwp as ([] & s' & Hrun & A' & HQ). by exists s', A'. }
  unfold slab_cache_destroy. rewrite (proj2 (Z.eqb_neq c NULL)) by (unfold NULL; lia).
  destruct HC as [L1 L2 L3 L4]. apply wp_bind. unfold cache_list_acquire, acquire_var. apply wp_bind, wp_gets. rewrite L2.
  apply wp_modify. set (s1 := set_cache_list_lock 1 s).
  assert (Hp1 : pa_inv s1 A) by (apply (pa_frame s); done || apply Hc).
  apply wp_bind. eapply wp_mono; [apply (unlink_cache_ok 1 s1 A cs c); [by split|done|done|unfold NULL; lia]|].
  intros [] s2 ([K1 K2 K3 K4] & Hb2 & Hq2 & Hag2). apply wp_bind, wp_modify. set (s3 := set_cache_list_lock 0 s2).
  assert (Hi3 : slab_inv osz ops 0 s3 A c arr L cpu H).
  { apply (inv_other osz ops G 0 s); [done|done|done|]. by apply (unlinked_other osz ops 0 s s3 A c arr L cpu H cs G Hi). }
  eapply wp_mono; [by apply (destroy_pages osz ops G s3 A c arr L cpu H)|].
  intros [] s4 (A4 & Hg4). pose proof Hg4 as ((Hsl & _) & Hi4 & HA4 & Hag4). exists A4. split; [done|]. split; [done|].
  assert (Hkeep : forall q, q ∈ without c cs -> q ∉ cache_pages c arr L).
  { intros q [Hq1 Hq]%list_elem_of_filter. by apply Hout. }
  split; [split|].
  - unfold cache_list in *. rewrite Hsl. apply (sll_frame C_NEXT (k_mem s3)); [|exact K1]. intros q Hq.
    destruct (gave_kept s3 A _ s4 A4 q Hg4 (K4 q Hq) (Hkeep q Hq)) as [_ Hag]. eapply agree_mono; [|exact Hag]. intros x Hx. sarith.
  - by rewrite Hsl.
  - done.
  - intros q Hq. by apply (gave_kept s3 A _ s4 A4 q Hg4 (K4 q Hq) (Hkeep q Hq)).
  - etrans; [eapply agree_mono; [|exact Hag2]|eapply agree_mono; [|exact Hag4]]; intros x [Hx1 Hx2]; auto.
Qed.
End properties.
