(* ===== verification/SlabDemo.v ===== *)
(** A concrete cache of 64-byte objects over eleven pages, and the properties of the slab
    allocator at work on it. *)
From S2P Require Import Prelude Machine DList Buddy BuddyInv BuddyTrace BuddyProps PageAlloc KString SList Slab SlabInv SlabThms SlabProps SlabFree SlabCache.

#[local] Opaque load store.

#[local] Instance demo_source : PageAllocator 0 (buddy_alloc_pages 0 BUDDY_ZONE_UNMOVABLE) (fun a => buddy_free_pages a 0) :=
  buddy_allocator 0 BUDDY_ZONE_UNMOVABLE ltac:(done) ltac:(done).

Lemma buddy_reports s A : @pa_inv _ _ _ demo_source s A ->
  (exists v, buddy_get_free_pages s = Done v s) /\ exists v, buddy_get_total_pages s = Done v s.
Proof.
  intros (st & size & fl & _ & Hh). pose proof (hi_inv _ _ _ _ _ _ Hh) as Hinv. unfold buddy_get_free_pages, buddy_get_total_pages.
  rewrite !(sum_zones_exec _ s _ fl Hinv) by done. eauto.
Qed.

(** ** A cache with one slab *)

Lemma demo_bd : @pa_inv _ _ _ demo_source demo_state [].
Proof.
  destruct demo_hist as [fl H]. exists demo_start, demo_size, fl. split; [|exact H]. split; [apply demo_region|].
  vm_compute. discriminate.
Qed.

Lemma demo_no_caches : caches_ok 0 demo_state [] [].
Proof. split; [done|vm_compute; reflexivity|by apply NoDup_nil_2|]. by intros c ?%not_elem_of_nil. Qed.

Definition demo_c : Z := 0x10A000.
Definition demo_cache : kst := final (slab_cache_create 0x1000 64 16 demo_state) boot_state.

Lemma demo_sizes : good_sizes 64 (4064 / 64).
Proof. vm_compute. repeat split; discriminate. Qed.

Lemma demo_create : slab_cache_create 0x1000 64 16 demo_state = Done demo_c demo_cache.
Proof. apply run_final. vm_compute. reflexivity. Qed.

Lemma demo_created : created 64 demo_state [] [] demo_c demo_cache.
Proof.
  destruct (create_runs buddy_reports 0x1000 64 16 64 demo_state [] [] ltac:(done) ltac:(lia) ltac:(lia) eq_refl
    ltac:(lia) demo_bd demo_no_caches) as (c & s' & Hrun & Hc).
  rewrite demo_create in Hrun. apply Done_inj in Hrun as [<- <-]. destruct Hc as [[E _]|Hc]; [discriminate E|exact Hc].
Qed.

Definition demo_r : Z := 0x108000.
Definition demo_page : kst := final (buddy_alloc_pages 0 BUDDY_ZONE_UNMOVABLE demo_cache) boot_state.
Definition demo_linked : kst :=
  final (mbind (fun _ => push_partial demo_c demo_r) (slab_format demo_c demo_r) demo_page) boot_state.

Lemma demo_linked_inv : exists A L, slab_inv 64 (4064 / 64) 0 demo_linked A demo_c 0 L [] [] /\ caches_ok 0 demo_linked A [demo_c].
Proof.
  destruct demo_created as (_ & _ & Hi & HC & _).
  assert (Hal : buddy_alloc_pages 0 BUDDY_ZONE_UNMOVABLE demo_cache = Done demo_r demo_page) by (apply run_final; vm_compute; reflexivity).
  destruct (pa_alloc demo_cache [(demo_c, 0)] (sc_alloc _ _ _ _ _ _ _ _ _ _ (si_core _ _ _ _ _ _ _ _ _ _ Hi))) as (r & s1 & Hrun & Hst & Hcase).
  rewrite Hal in Hrun. apply Done_inj in Hrun as [<- <-]. destruct Hcase as [[E _]|(Hb & Ha1 & Hn & Hag)]; [discriminate E|].
  destruct (link_new 64 (4064 / 64) demo_sizes 0 demo_cache demo_page [(demo_c, 0)] demo_r demo_c 0 no_slabs [] [] Hi Hb Ha1 Hn Hag)
    as (new & m2 & m3 & H1 & H2 & _ & Hi3 & _).
  assert (E : demo_linked = set_mem m3 demo_page).
  { unfold demo_linked, mbind, M_bind. rewrite H1, H2. reflexivity. }
  eexists _, _. split; [rewrite E; exact Hi3|]. clear E. split.
  - split; [vm_compute; reflexivity|]. split; [discriminate|]. vm_compute. reflexivity.
  - vm_compute. reflexivity.
  - apply NoDup_singleton.
  - intros c ->%list_elem_of_singleton. right. left.
Qed.

(** The page source of the slabs. *)
Lemma demo_serves : serves (@pa_inv _ _ _ demo_source) 0 (buddy_alloc_pages 0 BUDDY_ZONE_RECLAIMABLE).
Proof. by apply buddy_serves. Qed.

Definition demo_obj : Z := 0x108FA0.
Definition demo_out : kst := final (slab_alloc demo_c demo_linked) boot_state.

Lemma demo_alloc_run : slab_alloc demo_c demo_linked = Done demo_obj demo_out.
Proof. apply run_final. vm_compute. reflexivity. Qed.

Lemma demo_out_inv : exists A L, slab_inv 64 (4064 / 64) 0 demo_out A demo_c 0 L [] ([] ++ demo_obj :: []).
Proof.
  destruct demo_linked_inv as (A & L & Hi & _).
  destruct (alloc_runs 64 (4064 / 64) demo_sizes demo_serves demo_linked A demo_c 0 L [] [] Hi) as (o & s' & Hrun & Ha).
  rewrite demo_alloc_run in Hrun. apply Done_inj in Hrun as [<- <-].
  destruct Ha as (_ & _ & [(E & _)|(_ & _ & A' & L' & cpu' & Hi' & _)]); [discriminate E|].
  assert (cpu' = []) as ->; [|by exists A', L'].
  pose proof (ho_avail _ _ _ _ _ _ _ (sc_header _ _ _ _ _ _ _ _ _ _ (si_core _ _ _ _ _ _ _ _ _ _ Hi'))) as Hav.
  assert (E0 : load 4 (k_mem demo_out) (cpu_cache demo_c 0 + U_AVAILABLE) = 0) by (vm_compute; reflexivity).
  rewrite E0 in Hav. destruct cpu'; [done|]. simpl in Hav. lia.
Qed.

(** ** Witnesses *)

Lemma slab_alloc_correct_witness : slab_alloc demo_c demo_linked = Done demo_obj demo_out /\
  exists A L cpu, slab_inv 64 (4064 / 64) 0 demo_out A demo_c 0 L cpu [demo_obj].
Proof.
  split; [exact demo_alloc_run|]. destruct demo_linked_inv as (A & L & Hi & _).
  destruct (slab_alloc_correct 64 (4064 / 64) demo_sizes demo_serves) as [_ Halloc].
  destruct (Halloc demo_linked A demo_c 0 L [] [] Hi) as (o & s' & Hrun & Ha).
  rewrite demo_alloc_run in Hrun. apply Done_inj in Hrun as [<- <-].
  destruct Ha as (_ & _ & [(E & _)|(_ & _ & A' & L' & cpu' & Hi' & _)]); [discriminate E|].
  exists A', L', cpu'. exact Hi'.
Defined.

Lemma slab_free_correct_witness : exists s' A arr L cpu, slab_free demo_c demo_obj demo_out = Done tt s' /\
  slab_inv 64 (4064 / 64) 0 s' A demo_c arr L cpu [].
Proof.
  destruct demo_out_inv as (A & L & Hi).
  destruct (slab_free_correct 64 (4064 / 64) demo_sizes) as (_ & _ & Hfree).
  destruct (Hfree demo_out A demo_c 0 L [] [] demo_obj [] Hi) as (s' & Hrun & _ & _ & A' & arr' & L' & cpu' & Hi' & _).
  exists s', A', arr', L', cpu'. split; [exact Hrun|exact Hi'].
Defined.

Lemma slab_cache_create_correct_witness : exists s', slab_cache_create 0x1000 64 16 demo_state = Done demo_c s' /\
  created 64 demo_state [] [] demo_c s'.
Proof.
  destruct (slab_cache_create_correct buddy_reports) as [_ Hcreate].
  destruct (Hcreate 0x1000 64 16 64 demo_state [] [] ltac:(done) ltac:(lia) ltac:(lia) eq_refl ltac:(lia) demo_bd demo_no_caches)
    as (_ & c & s' & Hrun & Hc).
  exists demo_cache. split; [exact demo_create|]. pose proof Hrun as Hrun'. rewrite demo_create in Hrun'.
  apply Done_inj in Hrun' as [<- <-]. destruct Hc as [[E _]|Hc]; [discriminate E|exact Hc].
Defined.

Lemma slab_cache_destroy_correct_witness : exists s' A, slab_cache_destroy demo_c demo_linked = Done tt s' /\ bd_inv s' A /\
  forall b, b ∉ A \/ b ∉ page_blocks [demo_c].
Proof.
  destruct demo_linked_inv as (A & L & Hi & HC).
  destruct slab_cache_destroy_correct as [_ Hdestroy].
  destruct (Hdestroy 64 (4064 / 64) demo_linked A demo_c 0 L [] [] [demo_c] demo_sizes Hi HC ltac:(left)) as (s' & A' & Hrun & Hi' & HA & _).
  { intros q Hq Hne. apply list_elem_of_singleton in Hq. by destruct Hne. }
  exists s', A'. split; [exact Hrun|]. split; [exact Hi'|]. intros b. destruct (decide (b ∈ page_blocks [demo_c])) as [Hb|Hb]; [left|by right].
  rewrite HA. intros [_ Hn]. apply Hn. unfold page_blocks in *. simpl in *. apply list_elem_of_singleton in Hb as ->. left.
Defined.
