(* ===== verification/Heap.v ===== *)
(** kernel/mm/heap.c: the kernel heap, a list of blocks that tile one region, with the
    slab caches in front of it for the small sizes once they are enabled. *)
From S2P Require Import Prelude Machine Slab.

#[local] Opaque load store.

(** Field offsets of [block_header_t]. *)
Definition B_SIZE : Z := 0.
Definition B_FREE : Z := 8.
Definition B_NEXT : Z := 16.
Definition B_PREV : Z := 24.
Definition SIZEOF_BLOCK : Z := 32.

(** Field offsets of [alloc_header_t], and its constants. *)
Definition H_MAGIC : Z := 0.
Definition H_SIZE : Z := 4.
Definition H_FLAGS : Z := 8.
Definition H_CACHE : Z := 10.
Definition H_PADDING : Z := 11.
Definition SIZEOF_HEADER : Z := 12.
Definition ALLOC_MAGIC : Z := 0xDEADBEEF.
Definition ALLOC_FROM_SLAB : Z := 1.
Definition ALLOC_FROM_HEAP : Z := 2.
Definition SLAB_CACHE_16 : Z := 0.
Definition SLAB_CACHE_32 : Z := 1.
Definition SLAB_CACHE_64 : Z := 2.
Definition SLAB_CACHE_128 : Z := 3.
Definition SLAB_CACHE_256 : Z := 4.
Definition SLAB_CACHE_512 : Z := 5.
Definition SLAB_CACHE_1024 : Z := 6.
Definition SLAB_CACHE_2048 : Z := 7.
Definition SLAB_CACHE_NONE : Z := 0xFF.

Definition align16 (n : Z) : Z := Z.land (u64 (n + 15)) (u64 (Z.lnot 15)).

Definition set_heap_region (start size head : Z) (s : kst) : kst :=
  set_heap (mkHeap start size head (g_slab_initialized (k_heap s)) (g_caches (k_heap s))) s.
Definition set_cache (i cache : Z) (s : kst) : kst :=
  let h := k_heap s in
  set_heap (mkHeap (g_heap_start h) (g_heap_size h) (g_heap_head h) (g_slab_initialized h)
              (<[Z.to_nat i := cache]> (g_caches h))) s.

Definition is_heap_pointer (ptr : Z) : K bool :=
  start ← gets (fun s => g_heap_start (k_heap s));
  size ← gets (fun s => g_heap_size (k_heap s));
  mret ((start <=? ptr) && (ptr <? u64 (start + size))).

(** [caches[i]] for the eight caches, and the sizes they serve. *)
Definition get_cache (i : Z) : K Z := gets (fun s => nth (Z.to_nat i) (g_caches (k_heap s)) 0).
Definition cache_size (i : Z) : Z := 16 * 2 ^ i.

(** The cache, and the size written to [*out_size] when it is. *)
Definition find_slab_cache (ptr : Z) : K (Z * option Z) :=
  initialized ← gets (fun s => g_slab_initialized (k_heap s));
  if (initialized =? 0) || (ptr =? NULL) then mret (NULL, None) else
  while 0 (fun i =>
    if i <? 8 then
      cache ← get_cache i;
      if negb (cache =? NULL) then
        inside ← is_heap_pointer ptr;
        mret (if negb inside then inr (cache, Some (cache_size i)) else inl (i + 1))
      else mret (inl (i + 1))
    else mret (inr (NULL, None))).

(** [literal n] is the address of the string literal of the cache for size [n]. *)
Definition heap_init (literal : Z -> Z) (start size : Z) : K unit :=
  modify (set_heap_region start size start) ;;
  store64 (start + B_SIZE) (u64 (size - SIZEOF_BLOCK)) ;;
  store32 (start + B_FREE) 1 ;;
  store64 (start + B_NEXT) 0 ;;
  store64 (start + B_PREV) 0 ;;
  initialized ← gets (fun s => g_slab_initialized (k_heap s));
  when (negb (initialized =? 0)) (
    for_range 0 8 (fun i =>
      cache ← slab_cache_create (literal (cache_size i)) (cache_size i) 16;
      modify (set_cache i cache))).

Definition heap_enable_slab : K unit :=
  modify (fun s => let h := k_heap s in
    set_heap (mkHeap (g_heap_start h) (g_heap_size h) (g_heap_head h) 1 (g_caches h)) s).

Definition split_block (b size : Z) : K unit :=
  bsize ← load64 (b + B_SIZE);
  when (u64 (size + SIZEOF_BLOCK + 16) <=? bsize) (
    let n := b + SIZEOF_BLOCK + size in
    bsize ← load64 (b + B_SIZE);
    store64 (n + B_SIZE) (u64 (bsize - size - SIZEOF_BLOCK)) ;;
    store32 (n + B_FREE) 1 ;;
    next ← load64 (b + B_NEXT);
    store64 (n + B_NEXT) next ;;
    store64 (n + B_PREV) b ;;
    next ← load64 (n + B_NEXT);
    when (negb (next =? NULL)) (store64 (next + B_PREV) n) ;;
    store64 (b + B_NEXT) n ;;
    store64 (b + B_SIZE) size).

(** [if (b->next && b->next->free) { ... }]: absorbing the next block. *)
Definition absorb_next (b : Z) : K unit :=
  next ← load64 (b + B_NEXT);
  free ← (if negb (next =? NULL) then load32 (next + B_FREE) else mret 0);
  when (negb (free =? 0)) (
    bsize ← load64 (b + B_SIZE);
    nsize ← load64 (next + B_SIZE);
    store64 (b + B_SIZE) (u64 (bsize + u64 (SIZEOF_BLOCK + nsize))) ;;
    nnext ← load64 (next + B_NEXT);
    store64 (b + B_NEXT) nnext ;;
    next ← load64 (b + B_NEXT);
    when (negb (next =? NULL)) (store64 (next + B_PREV) b)).

Definition coalesce (b : Z) : K unit :=
  absorb_next b ;;
  prev ← load64 (b + B_PREV);
  free ← (if negb (prev =? NULL) then load32 (prev + B_FREE) else mret 0);
  when (negb (free =? 0)) (absorb_next prev).

(** The cache index for a size, [SLAB_CACHE_NONE] when no cache serves it. *)
Definition cache_index (size : Z) : Z :=
  if size <=? 16 then SLAB_CACHE_16 else
  if size <=? 32 then SLAB_CACHE_32 else
  if size <=? 64 then SLAB_CACHE_64 else
  if size <=? 128 then SLAB_CACHE_128 else
  if size <=? 256 then SLAB_CACHE_256 else
  if size <=? 512 then SLAB_CACHE_512 else
  if size <=? 1024 then SLAB_CACHE_1024 else
  if size <=? 2048 then SLAB_CACHE_2048 else
  SLAB_CACHE_NONE.

Definition write_header (header size flags index : Z) : K unit :=
  store32 (header + H_MAGIC) ALLOC_MAGIC ;;
  store32 (header + H_SIZE) (u32 size) ;;
  store16 (header + H_FLAGS) flags ;;
  store8 (header + H_CACHE) index ;;
  store8 (header + H_PADDING) 0.

(** The attempt to serve the allocation from a slab cache. *)
Definition kmalloc_slab (size : Z) : K (option Z) :=
  initialized ← gets (fun s => g_slab_initialized (k_heap s));
  if negb (initialized =? 0) && (size <? 4096) then
    let index := cache_index size in
    cache ← (if index =? SLAB_CACHE_NONE then mret NULL else get_cache index);
    if cache =? NULL then mret None else
    slab_ptr ← slab_alloc cache;
    if slab_ptr =? NULL then mret None else
    write_header slab_ptr size ALLOC_FROM_SLAB index ;;
    mret (Some (slab_ptr + SIZEOF_HEADER))
  else mret None.

(** The first-fit search of the block list. *)
Definition kmalloc_heap (size : Z) : K Z :=
  let total_size := align16 (u64 (SIZEOF_HEADER + size)) in
  head ← gets (fun s => g_heap_head (k_heap s));
  while head (fun b =>
    if b =? NULL then mret (inr NULL) else
    free ← load32 (b + B_FREE);
    bsize ← load64 (b + B_SIZE);
    if negb (free =? 0) && (total_size <=? bsize) then
      split_block b total_size ;;
      store32 (b + B_FREE) 0 ;;
      write_header (b + SIZEOF_BLOCK) size ALLOC_FROM_HEAP SLAB_CACHE_NONE ;;
      mret (inr (b + SIZEOF_BLOCK + SIZEOF_HEADER))
    else
      next ← load64 (b + B_NEXT);
      mret (inl next)).

Definition kmalloc (size : Z) : K Z :=
  if size =? 0 then mret NULL else
  p ← kmalloc_slab size;
  match p with Some p => mret p | None => kmalloc_heap size end.

Definition kcalloc (num size : Z) : K Z :=
  let total := if negb (num =? 0) && negb (size =? 0) then u64 (num * size) else 0 in
  if negb (num =? 0) && negb (size =? 0) && negb (total / num =? size) then mret NULL else
  p ← kmalloc total;
  when (negb (p =? NULL)) (for_range 0 total (fun i => store8 (p + i) 0)) ;;
  mret p.

Definition kfree (ptr : Z) : K unit :=
  if ptr =? NULL then mret tt else
  let header := ptr - SIZEOF_HEADER in
  magic ← load32 (header + H_MAGIC);
  if negb (magic =? ALLOC_MAGIC) then mret tt else
  flags ← load16 (header + H_FLAGS);
  if negb (Z.land flags ALLOC_FROM_SLAB =? 0) then
    cache_index ← load8 (header + H_CACHE);
    if 8 <=? cache_index then mret tt else
    cache ← get_cache cache_index;
    if cache =? NULL then mret tt else slab_free cache header
  else if negb (Z.land flags ALLOC_FROM_HEAP =? 0) then
    let b := header - SIZEOF_BLOCK in
    store32 (b + B_FREE) 1 ;;
    coalesce b
  else mret tt.

Definition krealloc (ptr size : Z) : K Z :=
  if ptr =? NULL then kmalloc size else
  if size =? 0 then kfree ptr ;; mret NULL else
  let header := ptr - SIZEOF_HEADER in
  magic ← load32 (header + H_MAGIC);
  if negb (magic =? ALLOC_MAGIC) then mret NULL else
  old_size ← load32 (header + H_SIZE);
  if size <=? old_size then mret ptr else
  n ← kmalloc size;
  if n =? NULL then mret NULL else
  for_range 0 old_size (fun i => c ← load8 (ptr + i); store8 (n + i) c) ;;
  kfree ptr ;;
  mret n.

Definition kmalloc_flags (size flags : Z) : K Z :=
  ptr ← kmalloc size;
  when (negb (ptr =? NULL) && negb (Z.land flags 0x04 =? 0)) (for_range 0 size (fun i => store8 (ptr + i) 0)) ;;
  mret ptr.

Definition kcalloc_flags (num size flags : Z) : K Z := kcalloc num size.
