(* ===== verification/HeapInv.v ===== *)
(** The kernel heap, abstractly: the sequence of blocks that tile the region.  What
    the memory says about a block depends only on its address and its neighbours'. *)
From S2P Require Import Prelude Machine Slab Heap.

#[local] Opaque load store.

(** A free block of [sz] bytes, or one that serves a request of [req] bytes. *)
Inductive hblk := Hole (sz : Z) | Used (sz req : Z).

Definition bsize (b : hblk) : Z := match b with Hole sz => sz | Used sz _ => sz end.
Definition is_hole (b : hblk) : bool := match b with Hole _ => true | Used _ _ => false end.

(** The bytes a sequence of blocks takes, headers included. *)
Definition blen (bs : list hblk) : Z := zsum (fun b => 32 + bsize b) bs.

Ltac hoff :=
  unfold B_SIZE, B_FREE, B_NEXT, B_PREV, SIZEOF_BLOCK, H_MAGIC, H_SIZE, H_FLAGS, H_CACHE, H_PADDING, SIZEOF_HEADER in *;
  change (Z.of_nat 8) with 8 in *; change (Z.of_nat 4) with 4 in *; change (Z.of_nat 2) with 2 in *; change (Z.of_nat 1) with 1 in *.
Ltac harith := hoff; unfold within in *; lia.

Section seg.
(** The end of the region. *)
Context (lim : Z).

(** A block at [a], the one before it at [p] (0 if none). *)
Definition node_at (m : mem) (p a : Z) (b : hblk) : Prop :=
  load 8 m (a + B_SIZE) = bsize b /\ load 8 m (a + B_PREV) = p /\
  load 8 m (a + B_NEXT) = (if a + 32 + bsize b =? lim then 0 else a + 32 + bsize b) /\
  match b with
  | Hole sz => 0 <= sz /\ load 4 m (a + B_FREE) = 1
  | Used sz req => 0 < req /\ 12 + req <= sz /\ load 4 m (a + B_FREE) = 0 /\
      load 4 m (a + 32 + H_MAGIC) = ALLOC_MAGIC /\ load 4 m (a + 32 + H_SIZE) = u32 req /\
      load 2 m (a + 32 + H_FLAGS) = ALLOC_FROM_HEAP
  end.

(** The blocks from address [a], the one before at [p]; they end before [e], the last
    one at [q]. *)
Fixpoint hseg (m : mem) (p a : Z) (bs : list hblk) (q e : Z) : Prop :=
  match bs with
  | [] => q = p /\ e = a
  | b :: bs => node_at m p a b /\ hseg m a (a + 32 + bsize b) bs q e
  end.

(** The bytes of the headers. *)
Definition node_meta (a : Z) (b : hblk) (x : Z) : Prop := within a (if is_hole b then 32 else 44) x.
Fixpoint meta (a : Z) (bs : list hblk) (x : Z) : Prop :=
  match bs with [] => False | b :: bs => node_meta a b x \/ meta (a + 32 + bsize b) bs x end.

(** The bytes of the users. *)
Definition node_user (a : Z) (b : hblk) (x : Z) : Prop :=
  match b with Hole _ => False | Used sz _ => within (a + 44) (sz - 12) x end.
Fixpoint user (a : Z) (bs : list hblk) (x : Z) : Prop :=
  match bs with [] => False | b :: bs => node_user a b x \/ user (a + 32 + bsize b) bs x end.

Lemma blen_app l1 l2 : blen (l1 ++ l2) = blen l1 + blen l2.
Proof. apply zsum_app. Qed.

Lemma node_size m p a b : node_at m p a b -> 0 <= bsize b < 2 ^ 64.
Proof. intros (<- & _). apply load64_bound. Qed.

Lemma hseg_end m p a bs q e : hseg m p a bs q e -> e = a + blen bs.
Proof.
  revert p a. induction bs as [|b bs IH]; intros p a; cbn [hseg]; [intros [_ ->]; unfold blen; simpl; lia|].
  intros [_ H]. rewrite (IH _ _ H). unfold blen. cbn [zsum]. lia.
Qed.

Lemma blen_length m p a bs q e : hseg m p a bs q e -> 32 * Z.of_nat (length bs) <= blen bs.
Proof.
  revert p a. induction bs as [|b bs IH]; intros p a; cbn [hseg]; [unfold blen; simpl; lia|].
  intros [Hn H]. pose proof (node_size _ _ _ _ Hn). pose proof (IH _ _ H). unfold blen in *. cbn [zsum length]. lia.
Qed.

Lemma hseg_app m p a l1 l2 q e : hseg m p a (l1 ++ l2) q e <->
  exists q', hseg m p a l1 q' (a + blen l1) /\ hseg m q' (a + blen l1) l2 q e.
Proof.
  revert p a. induction l1 as [|b l1 IH]; intros p a; cbn [app hseg].
  - unfold blen. cbn [zsum]. rewrite Z.add_0_r. split; [by exists p|]. by intros (q' & [-> _] & H).
  - replace (a + blen (b :: l1)) with (a + 32 + bsize b + blen l1) by (unfold blen; cbn [zsum]; lia). rewrite IH.
    split; [intros (Hn & q' & H1 & H2)|intros (q' & [Hn H1] & H2)]; eauto.
Qed.

Lemma hseg_cons_next m p a b bs q : hseg m p a (b :: bs) q lim ->
  load 8 m (a + B_NEXT) = (if bs then 0 else a + 32 + bsize b) /\ (bs = [] <-> a + 32 + bsize b = lim).
Proof.
  intros [(_ & _ & Hnx & _) H]. rewrite Hnx. pose proof (hseg_end _ _ _ _ _ _ H) as He. pose proof (blen_length _ _ _ _ _ _ H) as Hb.
  destruct bs as [|b' bs]; simpl length in Hb.
  - unfold blen in He. simpl in He. replace (a + 32 + bsize b) with lim by lia. rewrite Z.eqb_refl. done.
  - destruct (Z.eqb_spec (a + 32 + bsize b) lim); [lia|]. split; [done|]. split; [done|lia].
Qed.

Lemma node_frame m m' p a b : agree (node_meta a b) m m' -> node_at m p a b -> node_at m' p a b.
Proof.
  intros Hag. assert (E : forall (n : nat) k, 0 <= k -> k + Z.of_nat n <= (if is_hole b then 32 else 44) -> load n m' (a + k) = load n m (a + k)).
  { intros n k Hk Hn. apply load_agree. eapply agree_mono; [|exact Hag]. intros x Hx. unfold node_meta. unfold within in *. lia. }
  unfold node_at. intros (H1 & H2 & H3 & H4). rewrite !(E 8%nat) by (hoff; destruct b; simpl; lia).
  split; [done|]. split; [done|]. split; [done|]. destruct b as [sz|sz req]; cbn [is_hole] in E.
  - rewrite (E 4%nat) by (hoff; lia). done.
  - rewrite <- !Z.add_assoc in *. rewrite !(E 4%nat), (E 2%nat) by (hoff; lia). done.
Qed.

Lemma hseg_frame m m' p a bs q e : agree (meta a bs) m m' -> hseg m p a bs q e -> hseg m' p a bs q e.
Proof.
  revert p a. induction bs as [|b bs IH]; intros p a Hag; cbn [hseg]; [done|]. intros [Hn H]. split.
  - apply (node_frame m); [|done]. eapply agree_mono; [|exact Hag]. intros x Hx. by left.
  - apply IH; [|done]. eapply agree_mono; [|exact Hag]. intros x Hx. by right.
Qed.

(** Everything a sequence of blocks consists of lies inside it. *)
Lemma node_room m p a b : node_at m p a b -> (if is_hole b then 32 else 44) <= 32 + bsize b.
Proof. intros (_ & _ & _ & H). destruct b; simpl in *; lia. Qed.

Lemma meta_in m p a bs q e x : hseg m p a bs q e -> meta a bs x -> a <= x < e.
Proof.
  revert p a. induction bs as [|b bs IH]; intros p a; cbn [hseg meta]; [done|]. intros [Hn H] Hx.
  pose proof (hseg_end _ _ _ _ _ _ H) as He. pose proof (blen_length _ _ _ _ _ _ H). pose proof (node_room _ _ _ _ Hn).
  pose proof (node_size _ _ _ _ Hn). destruct Hx as [Hx|Hx].
  - unfold node_meta, within in Hx. lia.
  - pose proof (IH _ _ H Hx). lia.
Qed.

Lemma user_in m p a bs q e x : hseg m p a bs q e -> user a bs x -> a + 44 <= x < e.
Proof.
  revert p a. induction bs as [|b bs IH]; intros p a; cbn [hseg user]; [done|]. intros [Hn H] Hx.
  pose proof (hseg_end _ _ _ _ _ _ H) as He. pose proof (blen_length _ _ _ _ _ _ H). pose proof (node_size _ _ _ _ Hn).
  destruct Hx as [Hx|Hx].
  - destruct b; [done|]. unfold node_user, within in Hx. simpl in *. lia.
  - pose proof (IH _ _ H Hx). lia.
Qed.

(** Users do not own headers. *)
Lemma user_not_meta m p a bs q e x : hseg m p a bs q e -> user a bs x -> ~ meta a bs x.
Proof.
  revert p a. induction bs as [|b bs IH]; intros p a; cbn [hseg user meta]; [done|]. intros [Hn H] [Hx|Hx] [Hy|Hy].
  - destruct b; [done|]. unfold node_user, node_meta, within in *. simpl in *. lia.
  - pose proof (meta_in _ _ _ _ _ _ _ H Hy). destruct b; [done|]. unfold node_user, within in *. simpl in *. lia.
  - pose proof (user_in _ _ _ _ _ _ _ H Hx). pose proof (node_room _ _ _ _ Hn). unfold node_meta, within in *. lia.
  - by apply (IH _ _ H).
Qed.

Lemma user_app a l1 l2 x : user a (l1 ++ l2) x <-> user a l1 x \/ user (a + blen l1) l2 x.
Proof.
  revert a. induction l1 as [|b l1 IH]; intros a; cbn [app user].
  - unfold blen. cbn [zsum]. rewrite Z.add_0_r. tauto.
  - replace (a + blen (b :: l1)) with (a + 32 + bsize b + blen l1) by (unfold blen; cbn [zsum]; lia). rewrite IH. tauto.
Qed.

Lemma meta_app a l1 l2 x : meta a (l1 ++ l2) x <-> meta a l1 x \/ meta (a + blen l1) l2 x.
Proof.
  revert a. induction l1 as [|b l1 IH]; intros a; cbn [app meta].
  - unfold blen. cbn [zsum]. rewrite Z.add_0_r. tauto.
  - replace (a + blen (b :: l1)) with (a + 32 + bsize b + blen l1) by (unfold blen; cbn [zsum]; lia). rewrite IH. tauto.
Qed.

(** The first block learns of a new predecessor. *)
Lemma hseg_reprev m m' p p' a bs q e : hseg m p a bs q e -> agree (fun x => meta a bs x /\ ~ within (a + B_PREV) 8 x) m m' ->
  (bs <> [] -> load 8 m' (a + B_PREV) = p') -> exists q', hseg m' p' a bs q' e.
Proof.
  destruct bs as [|b bs]; cbn [hseg meta].
  - intros [-> ->] _ _. by exists p'.
  - intros [Hn H] Hag Hp. exists q. pose proof (node_room _ _ _ _ Hn). pose proof (node_size _ _ _ _ Hn). split.
    + assert (E : forall (n : nat) k, 0 <= k -> k + Z.of_nat n <= B_PREV \/ B_PREV + 8 <= k ->
        k + Z.of_nat n <= (if is_hole b then 32 else 44) -> load n m' (a + k) = load n m (a + k)).
      { intros n k Hk Hs Hl. apply load_agree. eapply agree_mono; [|exact Hag]. intros x Hx. unfold node_meta.
        split; [left|]; harith. }
      destruct Hn as (K1 & K2 & K3 & K4). unfold node_at. rewrite Hp by done.
      rewrite !(E 8%nat) by (hoff; destruct b; simpl; lia). split; [done|]. split; [done|]. split; [done|].
      destruct b as [sz|sz req]; cbn [is_hole] in E.
      * rewrite (E 4%nat) by (hoff; lia). done.
      * rewrite <- !Z.add_assoc in *. rewrite !(E 4%nat), (E 2%nat) by (hoff; lia). done.
    + apply (hseg_frame m); [|done]. eapply agree_mono; [|exact Hag]. intros x Hx. split; [by right|].
      pose proof (meta_in _ _ _ _ _ _ _ H Hx). harith.
Qed.
End seg.

(** ** The heap *)

(** No two free blocks are neighbours. *)
Fixpoint no_adjacent (bs : list hblk) : Prop :=
  match bs with
  | Hole _ :: Hole _ :: _ => False
  | _ :: r => no_adjacent r
  | [] => True
  end.

(** In [s] the heap is the region from [st] to [lim], tiled by the blocks [bs]. *)
Record heap_ok (st lim : Z) (s : kst) (bs : list hblk) : Prop := {
  hp_start : g_heap_start (k_heap s) = st;
  hp_head : g_heap_head (k_heap s) = st;
  hp_size : g_heap_size (k_heap s) = lim - st;
  hp_range : 0 < st /\ lim < 2 ^ 64 - 48;
  hp_some : bs <> [];
  hp_seg : exists q, hseg lim (k_mem s) 0 st bs q lim;
  hp_flat : no_adjacent bs
}.

(** The slab caches are not in use: either not enabled, or enabled without caches. *)
Definition slabs_off (s : kst) : Prop :=
  g_slab_initialized (k_heap s) = 0 \/ forall c, c ∈ g_caches (k_heap s) -> c = NULL.
