(* ===== verification/HeapThms.v ===== *)
(** The block list of the kernel heap: what taking and releasing a block do to it. *)
From S2P Require Import Prelude Machine Slab SlabCache Heap HeapInv.

#[local] Opaque load store.

(** ** The specification *)

(** A hole of [sz] bytes serves a request: the rest is split off when it is worth it. *)
Definition carve (total req sz : Z) : list hblk :=
  if total + 48 <=? sz then [Used total req; Hole (sz - total - 32)] else [Used sz req].

Definition fits (total : Z) (b : hblk) : bool := is_hole b && (total <=? bsize b).

(** First fit: the offset of the block that is taken, and the blocks afterwards. *)
Fixpoint alloc_blocks (total req : Z) (bs : list hblk) : option (Z * list hblk) :=
  match bs with
  | [] => None
  | b :: bs =>
      if fits total b then Some (0, carve total req (bsize b) ++ bs)
      else match alloc_blocks total req bs with
           | Some (o, bs') => Some (32 + bsize b + o, b :: bs')
           | None => None
           end
  end.

(** A hole absorbs the hole after it. *)
Definition join_next (sz : Z) (l2 : list hblk) : list hblk :=
  match l2 with Hole z :: l2 => Hole (sz + (32 + z)) :: l2 | _ => Hole sz :: l2 end.

(** Releasing the block between [l1] and [l2]: it merges with the holes beside it. *)
Fixpoint release (l1 : list hblk) (sz : Z) (l2 : list hblk) : list hblk :=
  match l1 with
  | [] => join_next sz l2
  | [Hole z] => join_next z (join_next sz l2)
  | b :: l1 => b :: release l1 sz l2
  end.

Lemma alloc_blocks_skip total req l1 l2 : (forall b, b ∈ l1 -> fits total b = false) ->
  alloc_blocks total req (l1 ++ l2) =
  match alloc_blocks total req l2 with Some (o, r) => Some (blen l1 + o, l1 ++ r) | None => None end.
Proof.
  induction l1 as [|b l1 IH]; intros Hno.
  - cbn [app]. destruct (alloc_blocks total req l2) as [[o r]|]; [|done]. f_equal.
  - cbn [app alloc_blocks]. rewrite (Hno b) by left. rewrite IH by (intros x Hx; apply Hno; by right).
    destruct (alloc_blocks total req l2) as [[o r]|]; [|done]. unfold blen. cbn [zsum]. do 2 f_equal. lia.
Qed.

Lemma alloc_blocks_inv total req bs : match alloc_blocks total req bs with
  | Some (o, bs') => exists l1 sz l2, bs = l1 ++ Hole sz :: l2 /\ total <= sz /\ o = blen l1 /\ bs' = l1 ++ carve total req sz ++ l2 /\
      forall b, b ∈ l1 -> fits total b = false
  | None => forall b, b ∈ bs -> fits total b = false
  end.
Proof.
  induction bs as [|b bs IH]; cbn [alloc_blocks]; [by intros b ?%not_elem_of_nil|].
  destruct (fits total b) eqn:E.
  - unfold fits in E. destruct b as [sz|]; [|done]. cbn in E. exists [], sz, bs. split; [done|]. split; [lia|]. split; [done|]. split; [done|].
    by intros x ?%not_elem_of_nil.
  - destruct (alloc_blocks total req bs) as [[o bs']|].
    + destruct IH as (l1 & sz & l2 & -> & Hs & -> & -> & Hno). exists (b :: l1), sz, l2. split; [done|]. split; [done|].
      split; [unfold blen; cbn [zsum]; lia|]. split; [done|]. intros x [->|Hx]%elem_of_cons; auto.
    + intros x [->|Hx]%elem_of_cons; auto.
Qed.

(** ** Neighbouring holes *)

Definition first_hole (l : list hblk) : bool := match l with Hole _ :: _ => true | _ => false end.
Definition last_hole (l : list hblk) : bool := match last l with Some (Hole _) => true | _ => false end.

Lemma flat_cons b l : no_adjacent (b :: l) <-> no_adjacent l /\ (is_hole b && first_hole l = false).
Proof. destruct b as [x|x y], l as [|[z|z w] l]; cbn; intuition congruence. Qed.

Lemma flat_app l1 l2 : no_adjacent (l1 ++ l2) <-> no_adjacent l1 /\ no_adjacent l2 /\ last_hole l1 && first_hole l2 = false.
Proof.
  induction l1 as [|b l1 IH]; cbn [app]; [cbn; tauto|]. rewrite !flat_cons, IH. destruct l1 as [|b' l1].
  - unfold last_hole. cbn. destruct b; cbn; tauto.
  - replace (last_hole (b :: b' :: l1)) with (last_hole (b' :: l1)) by done. cbn [app first_hole]. tauto.
Qed.

Lemma last_hole_cases l : (last_hole l = true /\ exists l' z, l = l' ++ [Hole z]) \/ last_hole l = false.
Proof.
  destruct l as [|b l _] using rev_ind; [by right|]. unfold last_hole. rewrite last_snoc. destruct b as [z|]; [left|by right].
  split; [done|]. by exists l, z.
Qed.

Lemma release_hole l z sz l2 : release (l ++ [Hole z]) sz l2 = l ++ join_next z (join_next sz l2).
Proof.
  induction l as [|b l IH]; [done|]. cbn [app release]. rewrite IH. destruct b; [|done]. by destruct (l ++ [Hole z]) eqn:E; [destruct l|].
Qed.

Lemma release_used l sz l2 : last_hole l = false -> release l sz l2 = l ++ join_next sz l2.
Proof.
  induction l as [|b l IH]; [done|]. intros Hl. destruct l as [|b' l].
  - destruct b; [discriminate Hl|done].
  - assert (Hb : release (b' :: l) sz l2 = (b' :: l) ++ join_next sz l2) by (by apply IH). cbn [release] in *. destruct b; by rewrite Hb.
Qed.

Lemma join_next_len sz l2 : blen (join_next sz l2) = 32 + sz + blen l2.
Proof. destruct l2 as [|[z|z r] l2]; unfold blen; cbn [join_next zsum bsize]; lia. Qed.

Lemma join_next_flat sz l2 : no_adjacent l2 -> no_adjacent (join_next sz l2).
Proof.
  destruct l2 as [|[z|z r] l2]; cbn [join_next]; rewrite ?flat_cons; [done|tauto|tauto].
Qed.

Lemma release_flat l1 sz r l2 : no_adjacent (l1 ++ Used sz r :: l2) -> no_adjacent (release l1 sz l2).
Proof.
  rewrite flat_app, flat_cons. intros (H1 & [H2 _] & _). destruct (last_hole_cases l1) as [(_ & l & z & ->)|Hl].
  - rewrite release_hole. apply flat_app in H1 as (H1 & _ & H3). apply flat_app. split; [done|].
    split; [by apply join_next_flat, join_next_flat|]. cbn in H3. rewrite andb_true_r in H3. by rewrite H3.
  - rewrite release_used by done. apply flat_app. split; [done|]. split; [by apply join_next_flat|]. by rewrite Hl.
Qed.

Lemma carve_flat l1 sz l2 total req : no_adjacent (l1 ++ Hole sz :: l2) -> no_adjacent (l1 ++ carve total req sz ++ l2).
Proof.
  rewrite !flat_app, flat_cons. intros (H1 & [H2 H3] & H4). split; [done|]. unfold carve. cbn in H3.
  destruct (total + 48 <=? sz); cbn [app first_hole]; rewrite ?flat_cons, ?andb_false_r; cbn; intuition.
Qed.

(** Releasing what was just taken restores the blocks. *)
Lemma release_carve l1 sz l2 total req sz' tail : no_adjacent (l1 ++ Hole sz :: l2) ->
  carve total req sz ++ l2 = Used sz' req :: tail -> release l1 sz' tail = l1 ++ Hole sz :: l2.
Proof.
  rewrite flat_app, flat_cons. intros (H1 & [H2 H3] & H4). cbn in H3, H4. rewrite andb_true_r in H4.
  rewrite release_used by done. unfold carve. destruct (total + 48 <=? sz); cbn [app]; intros [= <- <-]; f_equal.
  - cbn [join_next]. do 2 f_equal. lia.
  - destruct l2 as [|[z|] l2]; done.
Qed.

Lemma carve_len total req sz : blen (carve total req sz) = 32 + sz.
Proof. unfold carve, blen. destruct (total + 48 <=? sz); cbn [zsum bsize]; lia. Qed.

Section region.
Context (st lim : Z).
Abbreviation seg := (hseg lim).

(** ** Taking a block *)

(** The node that is taken and, when the hole is split, the new hole. *)
Lemma carve_seg m p a sz total req e : 0 < req -> 12 + req <= total -> total <= sz -> e = a + 32 + sz -> e <= lim ->
  load 8 m (a + B_PREV) = p -> load 4 m (a + B_FREE) = 0 ->
  load 4 m (a + 32 + H_MAGIC) = ALLOC_MAGIC -> load 4 m (a + 32 + H_SIZE) = u32 req -> load 2 m (a + 32 + H_FLAGS) = ALLOC_FROM_HEAP ->
  let n := a + 32 + total in let nx := if e =? lim then 0 else e in
  (if total + 48 <=? sz then
     load 8 m (a + B_SIZE) = total /\ load 8 m (a + B_NEXT) = n /\ load 8 m (n + B_SIZE) = sz - total - 32 /\
     load 8 m (n + B_PREV) = a /\ load 8 m (n + B_NEXT) = nx /\ load 4 m (n + B_FREE) = 1
   else load 8 m (a + B_SIZE) = sz /\ load 8 m (a + B_NEXT) = nx) ->
  exists q, seg m p a (carve total req sz) q e.
Proof.
  intros Hr Ht Hs -> He H1 H2 H3 H4 H5 n nx. unfold carve. destruct (Z.leb_spec (total + 48) sz) as [Hle|Hgt].
  - intros (K1 & K2 & K3 & K4 & K5 & K6). exists n. cbn [hseg node_at bsize]. fold n. repeat split; try done; try lia.
    + rewrite K2. unfold n in *. cbn [bsize]. rewrite (proj2 (Z.eqb_neq (a + 32 + total) lim)) by lia. done.
    + rewrite K5. unfold nx, n. cbn [bsize]. replace (a + 32 + total + 32 + (sz - total - 32)) with (a + 32 + sz) by lia. done.
  - intros [K1 K2]. exists a. cbn [hseg node_at bsize]. repeat split; try done; lia.
Qed.

Ltac rd := rewrite ?load_store_ne by harith; first [rewrite load64_store_eq by lia|rewrite load32_store_eq by lia|idtac].

(** [split_block] on a hole. *)
Lemma wp_split s a sz total nx (Q : unit -> kst -> Prop) : 0 <= total -> 0 <= a -> a + 32 + sz <= lim -> lim < 2 ^ 64 - 48 -> total <= sz ->
  load 8 (k_mem s) (a + B_SIZE) = sz -> load 8 (k_mem s) (a + B_NEXT) = nx -> (nx = 0 \/ nx = a + 32 + sz) ->
  (forall m, let n := a + 32 + total in
    agree (fun x => ~ within a 8 x /\ ~ within (a + B_NEXT) 8 x /\ ~ within (a + 44) (sz - 12) x /\ ~ (nx <> 0 /\ within (nx + B_PREV) 8 x)) (k_mem s) m ->
    (if total + 48 <=? sz then
       load 8 m (a + B_SIZE) = total /\ load 8 m (a + B_NEXT) = n /\ load 8 m (n + B_SIZE) = sz - total - 32 /\
       load 8 m (n + B_PREV) = a /\ load 8 m (n + B_NEXT) = nx /\ load 4 m (n + B_FREE) = 1 /\ (nx <> 0 -> load 8 m (nx + B_PREV) = n)
     else m = k_mem s) -> Q tt (set_mem m s)) ->
  12 <= total ->
  wp (split_block a total) Q s.
Proof.
  intros Ht Ha He Hlim Hle E1 E2 Hnx HQ Ht12. unfold split_block. apply wp_bind, wp_gets. rewrite E1, u64_id by harith.
  change (total + SIZEOF_BLOCK + 16) with (total + 32 + 16). replace (total + 32 + 16) with (total + 48) by lia.
  destruct (total + 48 <=? sz) eqn:E; cbn [when]; cycle 1.
  { apply wp_ret. rewrite <- (set_mem_id s). apply HQ; [done|done]. }
  apply Z.leb_le in E. pose proof (load64_bound (k_mem s) (a + B_NEXT)) as Hnb. rewrite E2 in Hnb.
  unfold SIZEOF_BLOCK. apply wp_bind, wp_gets. rewrite E1. set (n := a + 32 + total) in *. rewrite (u64_id (sz - total - 32)) by lia.
  apply wp_bind, wp_modify, wp_bind, wp_modify, wp_bind, wp_gets. cbn [k_mem set_mem]. rewrite !set_mem_set_mem.
  replace (load 8 (store 4 (store 8 (k_mem s) (n + B_SIZE) (sz - total - 32)) (n + B_FREE) 1) (a + B_NEXT)) with nx
    by (rewrite !load_store_ne by harith; done).
  apply wp_bind, wp_modify, wp_bind, wp_modify, wp_bind, wp_gets. cbn [k_mem set_mem]. rewrite !set_mem_set_mem.
  set (m4 := store 8 (store 8 _ (n + B_NEXT) nx) (n + B_PREV) a).
  assert (E4 : load 8 m4 (n + B_NEXT) = nx) by (unfold m4; rewrite load_store_ne by harith; by apply load64_store_eq).
  assert (F4 : agree (fun x => ~ within n 32 x) (k_mem s) m4).
  { unfold m4. intros x Hx. rewrite !mget_store_out by harith. done. }
  assert (G1 : load 8 m4 (n + B_SIZE) = sz - total - 32) by (unfold m4; rewrite !load_store_ne by harith; apply load64_store_eq; lia).
  assert (G2 : load 4 m4 (n + B_FREE) = 1) by (unfold m4; rewrite !load_store_ne by harith; apply load32_store_eq; lia).
  assert (G3 : load 8 m4 (n + B_PREV) = a) by (unfold m4; apply load64_store_eq; lia).
  clearbody m4. rewrite E4. apply wp_bind, wp_when; intros Hz.
  - assert (Hnz : nx <> 0) by (intros ->; done). assert (nx = a + 32 + sz) by (destruct Hnx; done).
    apply wp_modify, wp_bind, wp_modify, wp_modify. cbn [k_mem set_mem]. rewrite !set_mem_set_mem. apply HQ.
    + etrans; [eapply agree_mono; [|exact F4]; intros x Hx; unfold n; harith|]. intros x Hx. rewrite !mget_store_out by (unfold n; harith). done.
    + unfold n in *. split; [rd; done|]. split; [rd; done|]. split; [rd; done|]. split; [rd; done|]. split; [rd; done|].
      split; [rd; done|]. intros _. rd. done.
  - assert (Hz0 : nx = 0) by (destruct (Z.eqb_spec nx NULL); [done|discriminate Hz]).
    apply wp_bind, wp_modify, wp_modify. cbn [k_mem set_mem]. rewrite !set_mem_set_mem. apply HQ.
    + etrans; [eapply agree_mono; [|exact F4]; intros x Hx; unfold n; harith|]. intros x Hx. rewrite !mget_store_out by harith. done.
    + unfold n in *. split; [rd; done|]. split; [rd; done|]. split; [rd; done|]. split; [rd; done|]. split; [rd; done|].
      split; [rd; done|done].
Qed.

(** What the users and the rest of the machine see of a change to the heap. *)
Definition heap_client (bs : list hblk) (x : Z) : Prop := user st bs x \/ ~ (st <= x < lim).

Lemma heap_client_out m p l1 sz l2 q x : seg m p st (l1 ++ Hole sz :: l2) q lim -> heap_client (l1 ++ Hole sz :: l2) x ->
  let a := st + blen l1 in ~ within a (32 + sz) x /\ ~ (l2 <> [] /\ within (a + 32 + sz + B_PREV) 8 x).
Proof.
  intros H Hx a. pose proof (hseg_end _ _ _ _ _ _ _ H) as He. pose proof (blen_length _ _ _ _ _ _ _ H) as Hl0.
  apply hseg_app in H as (q' & H1 & H2). fold a in H2. pose proof (blen_length _ _ _ _ _ _ _ H1). pose proof (blen_length _ _ _ _ _ _ _ H2) as Hl2.
  destruct H2 as [Hn H2]. cbn [bsize] in H2. pose proof (blen_length _ _ _ _ _ _ _ H2). pose proof (hseg_end _ _ _ _ _ _ _ H2).
  destruct Hx as [Hx|Hx].
  - apply user_app in Hx as [Hx|[Hx|Hx]]; [| |].
    + apply (user_in lim _ _ _ _ _ _ _ H1) in Hx. fold a in Hx. destruct Hn as (_ & _ & _ & Hn & _). harith.
    + done.
    + fold a in Hx. cbn [bsize] in Hx. apply (user_in lim _ _ _ _ _ _ _ H2) in Hx. harith.
  - destruct Hn as (_ & _ & _ & Hn & _). split; [unfold a in *; harith|]. intros [Hl2' Hw].
    destruct l2 as [|b l2]; [done|]. cbn [length] in *. unfold a in *. harith.
Qed.

(** The blocks around some that changed. *)
Lemma around m m' l1 old l2 mid q : seg m 0 st (l1 ++ old ++ l2) q lim ->
  let a := st + blen l1 in let e := a + blen old in
  agree (fun x => ~ within a (blen old) x /\ ~ (l2 <> [] /\ within (e + B_PREV) 8 x)) m m' ->
  (forall p q1, seg m p a old q1 e -> load 8 m (a + B_PREV) = p \/ old = [] ->
     exists q', seg m' p a mid q' e /\ (l2 <> [] -> load 8 m' (e + B_PREV) = q')) ->
  exists q, seg m' 0 st (l1 ++ mid ++ l2) q lim.
Proof.
  intros H a e Hag Hmid. apply hseg_app in H as (q1 & H1 & H). fold a in H1, H. apply hseg_app in H as (q2 & Ho & H2). fold e in Ho, H2.
  pose proof (blen_length _ _ _ _ _ _ _ Ho). destruct (Hmid q1 q2 Ho) as (q3 & Hm & Hq3).
  { destruct old as [|b old]; [by right|left]. by destruct Ho as [(_ & Hp & _) _]. }
  pose proof (hseg_end _ _ _ _ _ _ _ Hm) as Hme.
  destruct (hseg_reprev lim m m' q2 q3 e l2 q lim H2) as (q4 & H3); [|done|].
  - eapply agree_mono; [|exact Hag]. intros x [Hx1 Hx2]. pose proof (meta_in _ _ _ _ _ _ _ _ H2 Hx1). unfold e in *.
    split; [harith|]. intros [_ Hw]. by apply Hx2.
  - exists q4. apply hseg_app. exists q1. split.
    + apply (hseg_frame lim m); [|done]. eapply agree_mono; [|exact Hag]. intros x Hx.
      pose proof (meta_in _ _ _ _ _ _ _ _ H1 Hx). unfold e in *. split; [harith|]. intros [_ Hw]. harith.
    + fold a. apply hseg_app. exists q3. rewrite <- Hme. done.
Qed.

Lemma blen_one b : blen [b] = 32 + bsize b.
Proof. unfold blen. cbn [zsum]. lia. Qed.

Lemma align16_bounds size : 0 < size -> size + 27 < 2 ^ 64 ->
  u64 (SIZEOF_HEADER + size) = 12 + size /\ 12 + size <= align16 (12 + size) < 12 + size + 16 /\ align16 (12 + size) mod 16 = 0.
Proof.
  intros Hs Hb. split; [unfold SIZEOF_HEADER; apply u64_id; lia|].
  assert (E : align16 (12 + size) = align_up (12 + size) (2 ^ 4)) by (unfold align16, align_up; do 2 f_equal; lia).
  rewrite E, align_up_pow2 by lia. change (2 ^ 4) with 16. rewrite Z.mod_mul by lia.
  pose proof (Z.div_mod (12 + size + 16 - 1) 16 ltac:(lia)). pose proof (Z.mod_pos_bound (12 + size + 16 - 1) 16 ltac:(lia)). lia.
Qed.

Lemma load16_store_eq m a v : 0 <= v < 2 ^ 16 -> load 2 (store 2 m a v) a = v.
Proof. intros. rewrite load_store_eq. by apply Z.mod_small. Qed.

(** Taking the hole between [l1] and [l2]. *)
Lemma wp_take s l1 sz l2 q size (Q : unit -> kst -> Prop) : 0 < st -> lim < 2 ^ 64 - 48 ->
  seg (k_mem s) 0 st (l1 ++ Hole sz :: l2) q lim -> 0 < size -> size + 27 < 2 ^ 64 ->
  let a := st + blen l1 in let total := align16 (12 + size) in total <= sz ->
  (forall m, (exists q', seg m 0 st (l1 ++ carve total size sz ++ l2) q' lim) ->
     agree (heap_client (l1 ++ Hole sz :: l2)) (k_mem s) m -> Q tt (set_mem m s)) ->
  wp (split_block a total ;; store32 (a + B_FREE) 0 ;; write_header (a + SIZEOF_BLOCK) size ALLOC_FROM_HEAP SLAB_CACHE_NONE) Q s.
Proof.
  intros Hst Hlim H Hs Hb a total Hle HQ. destruct (align16_bounds size Hs Hb) as (_ & Ht & _). fold total in Ht.
  pose proof H as H0. apply hseg_app in H0 as (q1 & H1 & H2). fold a in H1, H2. pose proof H2 as [Hn H3]. cbn [bsize] in H3.
  pose proof (blen_length _ _ _ _ _ _ _ H1). pose proof (blen_length _ _ _ _ _ _ _ H3). pose proof (hseg_end _ _ _ _ _ _ _ H3) as He.
  destruct (hseg_cons_next _ _ _ _ _ _ _ H2) as [_ Hl2]. cbn [bsize] in Hl2.
  destruct Hn as (N1 & N2 & N3 & N4 & N5). cbn [bsize] in N1, N3. set (e := a + 32 + sz) in *.
  set (nx := if e =? lim then 0 else e) in *.
  assert (Hnx : nx <> 0 <-> l2 <> []).
  { unfold nx. destruct (Z.eqb_spec e lim) as [E|E]; [split; [done|intros Hc; by apply Hl2 in E]|].
    split; [intros _ ->; by apply E, Hl2|unfold e, a in *; lia]. }
  assert (Hnxe : nx = 0 \/ nx = e) by (unfold nx; destruct (e =? lim); auto).
  assert (Ha : 0 < a) by (unfold a; lia).
  apply wp_bind, (wp_split s a sz total nx); [lia|lia|unfold e in *; lia|lia|lia|done|done|exact Hnxe| |lia].
  intros m1 n Hag1 Hm1.
  apply wp_bind, wp_modify. unfold write_header, SIZEOF_BLOCK. do 4 apply wp_bind, wp_modify. apply wp_modify.
  cbn [k_mem set_mem]. rewrite !set_mem_set_mem. set (m2 := store 1 _ (a + 32 + H_PADDING) 0).
  assert (Hag2 : agree (fun x => ~ within (a + B_FREE) 4 x /\ ~ within (a + 32) 12 x) m1 m2).
  { unfold m2. intros x Hx. rewrite !mget_store_out by harith. done. }
  assert (Hkeep : forall k, k + 8 <= a + B_FREE \/ (a + B_FREE + 4 <= k /\ k + 8 <= a + 32) \/ a + 44 <= k -> load 8 m2 k = load 8 m1 k).
  { intros k Hk. apply load_agree. eapply agree_mono; [|exact Hag2]. intros x Hx. harith. }
  assert (G1 : load 4 m2 (a + B_FREE) = 0) by (unfold m2; rewrite !load_store_ne by harith; by apply load32_store_eq).
  assert (G2 : load 4 m2 (a + 32 + H_MAGIC) = ALLOC_MAGIC) by (unfold m2; rewrite !load_store_ne by harith; by apply load32_store_eq).
  assert (G3 : load 4 m2 (a + 32 + H_SIZE) = u32 size).
  { unfold m2. rewrite !load_store_ne by harith. apply load32_store_eq, u32_bound. }
  assert (G4 : load 2 m2 (a + 32 + H_FLAGS) = ALLOC_FROM_HEAP) by (unfold m2; rewrite !load_store_ne by harith; by apply load16_store_eq).
  clearbody m2.
  assert (Hag : agree (fun x => ~ within a (32 + sz) x /\ ~ (l2 <> [] /\ within (e + B_PREV) 8 x)) (k_mem s) m2).
  { etrans; [eapply agree_mono; [|exact Hag1]|eapply agree_mono; [|exact Hag2]]; intros x [Hx1 Hx2]; [|harith].
    split; [harith|]. split; [harith|]. split; [harith|]. intros [Hz Hw]. apply Hx2. split; [by apply Hnx|].
    destruct Hnxe as [->| E]; [done|]. by rewrite <- E. }
  apply HQ.
  - apply (around (k_mem s) m2 l1 [Hole sz] l2 (carve total size sz) q H).
    { rewrite blen_one. cbn [bsize]. fold a. replace (a + (32 + sz)) with e by (unfold e; lia). exact Hag. }
    intros p q0 _ [Hp|Hp]; [|discriminate Hp].
    assert (Hp2 : load 8 m2 (a + B_PREV) = p).
    { rewrite Hkeep by harith. rewrite <- Hp. apply load_agree. eapply agree_mono; [|exact Hag1]. intros x Hx.
      split; [harith|]. split; [harith|]. split; [harith|]. intros [Hz Hw]. destruct Hnxe as [E|E]; [done|]. rewrite E in Hw. unfold e in *. harith. }
    destruct (carve_seg m2 p a sz total size e) as (q2 & Hc); try done; try (unfold e in *; lia).
    { fold n. fold nx. destruct (total + 48 <=? sz) eqn:E.
      - destruct Hm1 as (M1 & M2 & M3 & M4 & M5 & M6 & M7). apply Z.leb_le in E.
        rewrite !Hkeep by (unfold n in *; harith). repeat split; try done.
        rewrite <- M6. apply load_agree. eapply agree_mono; [|exact Hag2]. intros x Hx. unfold n in *; harith.
      - rewrite !Hkeep by harith. by rewrite Hm1. }
    rewrite blen_one. cbn [bsize]. fold a. replace (a + (32 + sz)) with e by (unfold e; lia).
    exists q2. split; [exact Hc|]. intros Hne. apply Hnx in Hne. assert (nx = e) as Enx by (destruct Hnxe; done).
    rewrite Hkeep by (unfold e in *; harith). unfold carve in Hc. rewrite <- Enx.
    destruct (total + 48 <=? sz) eqn:E.
    + destruct Hm1 as (_ & _ & _ & _ & _ & _ & M7). rewrite (M7 Hne). destruct Hc as (_ & _ & -> & _). done.
    + destruct Hc as (_ & -> & _). rewrite Hm1. destruct l2 as [|b l2]; [by destruct (proj1 Hnx Hne)|].
      destruct H3 as [(_ & Hpr & _) _]. rewrite Enx. exact Hpr.
  - eapply agree_mono; [|exact Hag]. intros x Hx. destruct (heap_client_out _ _ _ _ _ _ _ H Hx) as [Hx1 Hx2]. done.
Qed.

(** ** Releasing a block *)

Lemma join_next_hole sz l2 : exists z l, join_next sz l2 = Hole z :: l.
Proof. destruct l2 as [|[z|z r] l2]; cbn [join_next]; eauto. Qed.

(** A hole absorbs the hole after it, if there is one. *)
Lemma wp_absorb s l1 sz l2 q (Q : unit -> kst -> Prop) : 0 < st -> lim < 2 ^ 64 - 48 ->
  seg (k_mem s) 0 st (l1 ++ Hole sz :: l2) q lim ->
  (forall m, (exists q', seg m 0 st (l1 ++ join_next sz l2) q' lim) ->
     agree (heap_client (l1 ++ Hole sz :: l2)) (k_mem s) m -> Q tt (set_mem m s)) ->
  wp (absorb_next (st + blen l1)) Q s.
Proof.
  intros Hst Hlim H HQ. set (a := st + blen l1). pose proof H as H0. apply hseg_app in H0 as (q1 & H1 & H2). fold a in H1, H2.
  pose proof (blen_length _ _ _ _ _ _ _ H1). destruct (hseg_cons_next _ _ _ _ _ _ _ H2) as [Hnx _]. cbn [bsize] in Hnx.
  destruct H2 as [(N1 & N2 & N3 & N4 & N5) H3]. cbn [bsize] in *. set (e := a + 32 + sz) in *.
  assert (Hskip : join_next sz l2 = Hole sz :: l2 -> Q tt s).
  { intros E. rewrite <- (set_mem_id s). apply HQ; [|done]. exists q. by rewrite E. }
  unfold absorb_next. apply wp_bind, wp_gets. rewrite Hnx. destruct l2 as [|b l3].
  { apply wp_bind, wp_ret, wp_ret. by apply Hskip. }
  rewrite (proj2 (Z.eqb_neq e NULL)) by (unfold NULL, e, a; lia). cbn [negb]. apply wp_bind, wp_gets.
  pose proof H3 as [Hb H4]. destruct b as [z|z req]; cycle 1.
  { destruct Hb as (_ & _ & _ & _ & _ & -> & _). apply wp_ret. by apply Hskip. }
  destruct (hseg_cons_next _ _ _ _ _ _ _ H3) as [Hnx2 _]. cbn [bsize] in Hnx2. pose proof (blen_length _ _ _ _ _ _ _ H4).
  pose proof (hseg_end _ _ _ _ _ _ _ H4) as He. cbn [bsize] in H4, He. destruct Hb as (M1 & M2 & M3 & M4 & M5). cbn [bsize] in M1, M3.
  rewrite M5. change (negb (1 =? 0)) with true. cbn [when]. set (nn := if l3 then 0 else e + 32 + z) in *.
  assert (Hnn : 0 <= nn < 2 ^ 64) by (rewrite <- Hnx2; apply load64_bound).
  apply wp_bind, wp_gets, wp_bind, wp_gets. rewrite N1, M1. unfold SIZEOF_BLOCK. rewrite (u64_id (32 + z)), (u64_id (sz + (32 + z))) by (unfold e, a in *; lia).
  apply wp_bind, wp_modify, wp_bind, wp_gets, wp_bind, wp_modify, wp_bind, wp_gets. cbn [k_mem set_mem]. rewrite !set_mem_set_mem.
  rewrite (load_store_ne 8 8 (k_mem s) (e + B_NEXT)) by (unfold e in *; harith). rewrite Hnx2, load64_store_eq by done.
  set (m1 := store 8 (store 8 (k_mem s) (a + B_SIZE) _) (a + B_NEXT) nn).
  set (m2 := if nn =? NULL then m1 else store 8 m1 (nn + B_PREV) a).
  assert (Hnn' : nn <> NULL <-> l3 <> []) by (unfold nn, NULL, e, a; destruct l3; split; [done|done|done|intros _; lia]).
  assert (Hnne : nn = NULL \/ nn = e + 32 + z) by (unfold nn; destruct l3; auto).
  assert (Hrun : Q tt (set_mem m2 s) -> wp (when (negb (nn =? NULL)) (store64 (nn + B_PREV) a)) Q (set_mem m1 s)).
  { unfold m2. by destruct (nn =? NULL). }
  apply Hrun. clear Hrun.
  assert (Hag2 : agree (within (a + B_FREE) 4) (k_mem s) m2).
  { unfold m2, m1. intros x Hx. destruct (Z.eqb_spec nn NULL); [by rewrite !mget_store_out by harith|].
    destruct Hnne as [?|E']; [done|]. rewrite E'. unfold e in *. by rewrite !mget_store_out by harith. }
  assert (Hag : agree (fun x => ~ within a (64 + sz + z) x /\ ~ (l3 <> [] /\ within (e + 32 + z + B_PREV) 8 x)) (k_mem s) m2).
  { unfold m2, m1. intros x [Hx1 Hx2]. destruct (Z.eqb_spec nn NULL) as [E|E]; [by rewrite !mget_store_out by harith|].
    rewrite mget_store_out; [by rewrite !mget_store_out by harith|]. intros Hw. apply Hx2. split; [by apply Hnn'|].
    destruct Hnne as [?|<-]; done. }
  assert (Hread : forall k, k + 8 <= a + 32 -> load 8 m2 k = load 8 m1 k).
  { intros k Hk. unfold m2. destruct (Z.eqb_spec nn NULL); [done|]. destruct Hnne as [?|E]; [done|]. apply load_store_ne. unfold e in *. harith. }
  apply HQ.
  - assert (Eb2 : blen [Hole sz; Hole z] = 64 + sz + z) by (unfold blen; cbn [zsum bsize]; lia).
    cbn [join_next]. apply (around (k_mem s) m2 l1 [Hole sz; Hole z] l3 [Hole (sz + (32 + z))] q H).
    + rewrite Eb2. fold a. replace (a + (64 + sz + z)) with (e + 32 + z) by (unfold e; lia). exact Hag.
    + assert (Eb : a + blen [Hole sz; Hole z] = e + 32 + z) by (rewrite Eb2; unfold e; lia). fold a. rewrite Eb.
      intros p q0 Hold _. destruct Hold as [(_ & Hp & _) _]. exists a. split; [cbn [hseg bsize]; split; [|unfold e; lia]|].
      * unfold node_at. cbn [bsize]. rewrite !Hread by harith. unfold m1. rewrite (load_store_ne 8 8 _ (a + B_SIZE)) by harith.
        rewrite load64_store_eq by lia. split; [done|]. rewrite !load_store_ne by harith. split; [done|].
        rewrite load64_store_eq by done. split; [|split; [lia|]].
        -- rewrite <- Hnx2, M3. replace (a + 32 + (sz + (32 + z))) with (e + 32 + z) by (unfold e; lia). done.
        -- rewrite <- N5. by apply load_agree.
      * intros Hne. apply Hnn' in Hne. unfold m2. rewrite (proj2 (Z.eqb_neq nn NULL)) by done. destruct Hnne as [?|<-]; [done|].
        apply load64_store_eq. lia.
  - eapply agree_mono; [|exact Hag]. intros x Hx. destruct (heap_client_out _ _ _ _ _ _ _ H Hx) as [Hx1 _].
    replace (l1 ++ Hole sz :: Hole z :: l3) with ((l1 ++ [Hole sz]) ++ Hole z :: l3) in * by (by rewrite <- app_assoc).
    destruct (heap_client_out _ _ _ _ _ _ _ H Hx) as [Hx2 Hx3]. rewrite blen_app, blen_one in Hx2, Hx3. cbn [bsize] in Hx2, Hx3.
    fold a in Hx1. replace (st + (blen l1 + (32 + sz))) with e in * by (unfold e, a; lia). split; [unfold e in *; harith|done].
Qed.

(** [coalesce] on the hole between [l1] and [l2]. *)
Lemma wp_coalesce s l1 sz l2 q (Q : unit -> kst -> Prop) : 0 < st -> lim < 2 ^ 64 - 48 ->
  seg (k_mem s) 0 st (l1 ++ Hole sz :: l2) q lim ->
  (forall m, (exists q', seg m 0 st (release l1 sz l2) q' lim) ->
     agree (heap_client (l1 ++ Hole sz :: l2)) (k_mem s) m -> Q tt (set_mem m s)) ->
  wp (coalesce (st + blen l1)) Q s.
Proof.
  intros Hst Hlim H HQ. unfold coalesce. apply wp_bind, (wp_absorb s l1 sz l2 q); [done|done|done|].
  intros m1 [q1 H1] Hag1. destruct (join_next_hole sz l2) as (sz1 & l3 & Ej). rewrite Ej in H1.
  assert (Huser : forall x, heap_client (l1 ++ Hole sz :: l2) x -> heap_client (l1 ++ Hole sz1 :: l3) x).
  { intros x [Hx|Hx]; [left|by right]. apply user_app in Hx. apply user_app. destruct Hx as [Hx|[Hx|Hx]]; [by left|done|right; right].
    destruct l2 as [|[z|z r] l2]; cbn [join_next] in Ej; injection Ej as <- <-; [done| |done].
    destruct Hx as [Hx|Hx]; [done|]. cbn [bsize] in *. by replace (st + blen l1 + 32 + (sz + (32 + z))) with (st + blen l1 + 32 + sz + 32 + z) by lia. }
  pose proof H1 as H2. apply hseg_app in H2 as (q2 & H2 & H3). destruct H3 as [(_ & Hp & _) _].
  apply wp_bind, wp_gets. cbn [k_mem set_mem]. rewrite Hp. clear Hp.
  assert (Hdone : last_hole l1 = false -> Q tt (set_mem m1 s)).
  { intros Hl. apply HQ; [|done]. rewrite release_used, Ej by done. by exists q1. }
  destruct l1 as [|b l0 _] using rev_ind.
  { destruct H2 as [-> _]. apply wp_bind, wp_ret, wp_ret. by apply Hdone. }
  pose proof H2 as H4. apply hseg_app in H4 as (q3 & H4 & [Hn [-> _]]). pose proof (blen_length _ _ _ _ _ _ _ H4).
  rewrite (proj2 (Z.eqb_neq (st + blen l0) NULL)) by (unfold NULL; lia). cbn [negb]. apply wp_bind, wp_gets. cbn [k_mem set_mem].
  destruct b as [z|z r]; cycle 1.
  { destruct Hn as (_ & _ & _ & _ & _ & -> & _). apply wp_ret, Hdone. unfold last_hole. by rewrite last_snoc. }
  destruct Hn as (_ & _ & _ & _ & ->). change (negb (1 =? 0)) with true. cbn [when]. rewrite <- app_assoc in H1. cbn [app] in H1.
  apply (wp_absorb (set_mem m1 s) l0 z (Hole sz1 :: l3) q1); [done|done|done|].
  intros m2 Hseg Hag2. rewrite set_mem_set_mem. apply HQ.
  - rewrite release_hole, Ej. exact Hseg.
  - etrans; [exact Hag1|]. eapply agree_mono; [|exact Hag2]. intros x Hx. apply Huser in Hx. by rewrite <- app_assoc in Hx.
Qed.
End region.
