(* ===== verification/HeapProps.v ===== *)
(** The kernel heap as its clients see it: kmalloc, kfree, krealloc and kcalloc
    implement first fit with complete coalescing on the sequence of blocks. *)
From S2P Require Import Prelude Machine Slab SlabCache Heap HeapInv HeapThms.

#[local] Opaque load store.

Section heap.
Context (st lim : Z).
Abbreviation ok := (heap_ok st lim).
Abbreviation client := (heap_client st lim).

(** Only the memory changes. *)
Lemma ok_set_mem s bs bs' m : ok s bs -> bs' <> [] -> no_adjacent bs' -> (exists q, hseg lim m 0 st bs' q lim) -> ok (set_mem m s) bs'.
Proof. intros [H1 H2 H3 H4 H5 H6 H7]. by split. Qed.

Lemma seg_range s bs : ok s bs -> 32 * Z.of_nat (length bs) <= lim - st /\ lim = st + blen bs.
Proof.
  intros [_ _ _ _ _ [q H] _]. pose proof (blen_length _ _ _ _ _ _ _ H). pose proof (hseg_end _ _ _ _ _ _ _ H). lia.
Qed.

(** ** Allocation *)

(** What an allocation of [size] bytes gives, by the specification. *)
Definition heap_allocated (s : kst) (bs : list hblk) (size r : Z) (s' : kst) : Prop :=
  match alloc_blocks (align16 (12 + size)) size bs with
  | None => r = NULL /\ s' = s
  | Some (o, bs') => r = st + o + 44 /\ mem_only s s' /\ ok s' bs' /\ agree (client bs) (k_mem s) (k_mem s')
  end.

Lemma kmalloc_heap_runs s bs size : ok s bs -> 0 < size -> size + 27 < 2 ^ 64 ->
  wp (kmalloc_heap size) (heap_allocated s bs size) s.
Proof.
  intros Hok Hs Hb. destruct (align16_bounds size Hs Hb) as (E12 & Ht & _). destruct (seg_range s bs Hok) as [Hlen Hlim].
  pose proof Hok as [O1 O2 O3 [O4 O5] O6 [q O7] O8]. unfold kmalloc_heap. rewrite E12. set (total := align16 (12 + size)) in *.
  apply wp_bind, wp_gets. rewrite O2.
  apply (wp_loop (fun n cur s' => s' = s /\ exists l1 l2, bs = l1 ++ l2 /\ length l2 = n /\ (forall b, b ∈ l1 -> fits total b = false) /\
    cur = match l2 with [] => 0 | _ => st + blen l1 end) (length bs)); [|lia|].
  { split; [done|]. exists [], bs. split; [done|]. split; [done|]. split; [by intros b ?%not_elem_of_nil|].
    destruct bs; [done|]. unfold blen. cbn [zsum]. lia. }
  intros n cur s' (-> & l1 & l2 & -> & <- & Hno & ->). unfold heap_allocated. fold total. rewrite alloc_blocks_skip by done.
  destruct l2 as [|b l2]; [by apply wp_ret|]. set (a := st + blen l1).
  pose proof O7 as H. apply hseg_app in H as (q1 & H1 & H2). fold a in H1, H2. pose proof (blen_length _ _ _ _ _ _ _ H1).
  destruct (hseg_cons_next _ _ _ _ _ _ _ H2) as [Hnx _]. destruct H2 as [(N1 & _ & _ & N4) H3].
  rewrite (proj2 (Z.eqb_neq a NULL)) by (unfold NULL, a; lia). apply wp_bind, wp_gets, wp_bind, wp_gets. rewrite N1.
  assert (Hfit : negb (load 4 (k_mem s) (a + B_FREE) =? 0) && (total <=? bsize b) = fits total b).
  { unfold fits. destruct b as [sz|sz r]; cbn [is_hole]; [by destruct N4 as [_ ->]|by destruct N4 as (_ & _ & -> & _)]. }
  rewrite Hfit. cbn [alloc_blocks]. destruct (fits total b) eqn:Ef.
  - destruct b as [sz|]; [|done]. cbn [bsize]. unfold fits in Ef. cbn in Ef. apply Z.leb_le in Ef.
    apply wp_assoc3. eapply wp_mono; [apply (wp_take st lim s l1 sz l2 q size (fun _ s' => exists m, s' = set_mem m s /\
      (exists q', hseg lim m 0 st (l1 ++ carve total size sz ++ l2) q' lim) /\ agree (client (l1 ++ Hole sz :: l2)) (k_mem s) m)); try done; try lia|].
    + intros m Hseg Hag. by exists m.
    + intros [] s' (m & -> & Hseg & Hag). apply wp_ret. split; [hoff; unfold a; lia|]. split; [done|]. split; [|exact Hag].
      apply (ok_set_mem s (l1 ++ Hole sz :: l2)); [done| |by apply carve_flat|done].
      unfold carve. destruct (total + 48 <=? sz), l1; done.
  - apply wp_bind, wp_gets, wp_ret. exists (length l2). split; [simpl; lia|]. split; [done|]. exists (l1 ++ [b]), l2.
    rewrite <- app_assoc. split; [done|]. split; [done|]. split; [|].
    + intros x [Hx|Hx%list_elem_of_singleton]%elem_of_app; [by apply Hno|by subst x].
    + rewrite Hnx. destruct l2; [done|]. rewrite blen_app, blen_one. unfold a. lia.
Qed.

Lemma kmalloc_slab_off s size : slabs_off s -> kmalloc_slab size s = Done None s.
Proof.
  intros Hoff. unfold kmalloc_slab, mbind, M_bind, gets. destruct Hoff as [->|Hc]; [done|].
  destruct (negb _ && _); [|done]. destruct (cache_index size =? SLAB_CACHE_NONE); [done|]. unfold get_cache, gets.
  assert (E : nth (Z.to_nat (cache_index size)) (g_caches (k_heap s)) 0 = NULL); [|by rewrite E].
  destruct (nth_in_or_default (Z.to_nat (cache_index size)) (g_caches (k_heap s)) 0) as [H|H]; [|done]. by apply Hc, list_elem_of_In.
Qed.

Lemma kmalloc_runs s bs size : ok s bs -> slabs_off s -> 0 < size -> size + 27 < 2 ^ 64 ->
  wp (kmalloc size) (heap_allocated s bs size) s.
Proof.
  intros Hok Hoff Hs Hb. unfold kmalloc. rewrite (proj2 (Z.eqb_neq size 0)) by lia.
  apply wp_bind. eapply wp_of_Done; [by apply kmalloc_slab_off|]. by apply kmalloc_heap_runs.
Qed.

(** The new area is nobody's. *)
Lemma taken_fresh s bs size o bs' x : ok s bs -> 0 < size -> size + 27 < 2 ^ 64 ->
  alloc_blocks (align16 (12 + size)) size bs = Some (o, bs') -> within (st + o + 44) size x -> ~ client bs x.
Proof.
  intros Hok Hs Hb Ha Hx Hc. pose proof (alloc_blocks_inv (align16 (12 + size)) size bs) as Hinv. rewrite Ha in Hinv.
  destruct Hinv as (l1 & sz & l2 & -> & Hle & -> & _ & _). destruct (hp_seg _ _ _ _ Hok) as [q Hq].
  destruct (heap_client_out _ _ _ _ _ _ _ _ _ Hq Hc) as [Hn _]. destruct (align16_bounds size Hs Hb) as (_ & Ht & _). apply Hn. unfold within in *. lia.
Qed.

Lemma slabs_off_mem s s' : mem_only s s' -> slabs_off s -> slabs_off s'.
Proof. by intros ->. Qed.

(** ** Release *)

(** The used block between [l1] and [l2] becomes a hole. *)
Lemma mark_free m l1 sz r l2 q : 0 < st -> hseg lim m 0 st (l1 ++ Used sz r :: l2) q lim ->
  let m' := store 4 m (st + blen l1 + B_FREE) 1 in
  (exists q, hseg lim m' 0 st (l1 ++ Hole sz :: l2) q lim) /\ agree (client (l1 ++ Hole sz :: l2)) m m'.
Proof.
  intros Hst H m'. pose proof H as H0. apply hseg_app in H0 as (q1 & H1 & [Hn H2]). pose proof (blen_length _ _ _ _ _ _ _ H1).
  pose proof (hseg_end _ _ _ _ _ _ _ H2) as He. pose proof (blen_length _ _ _ _ _ _ _ H2).
  destruct Hn as (N1 & N2 & N3 & N4 & N5 & _). cbn [bsize] in *. set (a := st + blen l1) in *.
  assert (Hag : agree (fun x => ~ within a 32 x) m m') by (apply agree_store; intros x Hx Hw; harith).
  split.
  - apply (around st lim m m' l1 [Used sz r] l2 [Hole sz] q H); rewrite blen_one; cbn [bsize]; fold a.
    + eapply agree_mono; [|exact Hag]. intros x [Hx _]. harith.
    + intros p q0 [(_ & Hp & _) _] _. exists a. split; [split; [|split; [done|cbn [bsize]; lia]]|].
      * unfold node_at. cbn [bsize]. unfold m'. rewrite !load_store_ne by harith. rewrite load32_store_eq by lia.
        repeat split; try done. lia.
      * intros Hne. unfold m'. rewrite load_store_ne by harith. destruct l2 as [|b l2]; [done|].
        destruct H2 as [(_ & Hp2 & _) _]. by replace (a + (32 + sz) + B_PREV) with (a + 32 + sz + B_PREV) by lia.
  - eapply agree_mono; [|exact Hag]. intros x [Hx|Hx] Hw; cycle 1.
    + apply Hx. unfold a in *. harith.
    + apply user_app in Hx as [Hx|[Hx|Hx]]; [|done|].
      * apply (user_in lim _ _ _ _ _ _ _ H1) in Hx. fold a in Hx. harith.
      * fold a in Hx. cbn [bsize] in Hx. apply (user_in lim _ _ _ _ _ _ _ H2) in Hx. harith.
Qed.

Lemma kfree_runs s l1 sz r l2 : ok s (l1 ++ Used sz r :: l2) ->
  wp (kfree (st + blen l1 + 44)) (fun _ s' => mem_only s s' /\ ok s' (release l1 sz l2) /\
    agree (client (l1 ++ Hole sz :: l2)) (k_mem s) (k_mem s')) s.
Proof.
  intros Hok. pose proof Hok as [O1 O2 O3 [O4 O5] O6 [q O7] O8]. pose proof O7 as H. apply hseg_app in H as (q1 & H1 & [Hn H2]).
  pose proof (blen_length _ _ _ _ _ _ _ H1). set (a := st + blen l1) in *. destruct Hn as (_ & _ & _ & _ & _ & _ & N1 & _ & N2).
  unfold kfree. rewrite (proj2 (Z.eqb_neq (a + 44) NULL)) by (unfold NULL; lia). cbv zeta.
  replace (a + 44 - SIZEOF_HEADER) with (a + 32) by harith. apply wp_bind, wp_gets. rewrite N1, Z.eqb_refl. cbn [negb].
  apply wp_bind, wp_gets. rewrite N2. change (Z.land ALLOC_FROM_HEAP ALLOC_FROM_SLAB =? 0) with true.
  change (Z.land ALLOC_FROM_HEAP ALLOC_FROM_HEAP =? 0) with false. cbn [negb].
  replace (a + 32 - SIZEOF_BLOCK) with a by harith. apply wp_bind, wp_modify.
  destruct (mark_free (k_mem s) l1 sz r l2 q O4 O7) as [[q2 Hm] Hag]. fold a in Hm, Hag.
  apply (wp_coalesce st lim _ l1 sz l2 q2); [done|done|exact Hm|]. intros m Hseg Hag2. rewrite set_mem_set_mem.
  split; [done|]. split.
  - apply (ok_set_mem s (l1 ++ Used sz r :: l2)); [done| |by eapply release_flat|done].
    destruct (last_hole_cases l1) as [(_ & l & z & ->)|Hl]; [rewrite release_hole|rewrite release_used by done].
    + destruct (join_next_hole z (join_next sz l2)) as (z' & l' & ->). by destruct l.
    + destruct (join_next_hole sz l2) as (z' & l' & ->). by destruct l1.
  - by etrans.
Qed.

(** ** Writes of the users *)

Lemma ok_write s bs m : ok s bs -> agree (fun x => ~ user st bs x) (k_mem s) m -> ok (set_mem m s) bs.
Proof.
  intros Hok Hag. pose proof Hok as [_ _ _ _ O6 [q O7] O8]. apply (ok_set_mem s bs); [done|done|done|]. exists q.
  apply (hseg_frame lim (k_mem s)); [|done]. eapply agree_mono; [|exact Hag]. intros x Hm Hu.
  exact (user_not_meta lim _ _ _ _ _ _ _ O7 Hu Hm).
Qed.

(** The area of a used block is its user's, and nobody else's. *)
Lemma used_area l1 sz r l2 x : 12 + r <= sz -> within (st + blen l1 + 44) r x -> user st (l1 ++ Used sz r :: l2) x.
Proof. intros Hr Hx. apply user_app. right. left. cbn [node_user]. unfold within in *. lia. Qed.

Lemma used_apart s l1 sz r l2 x : ok s (l1 ++ Used sz r :: l2) -> user st (l1 ++ Hole sz :: l2) x -> ~ within (st + blen l1) (32 + sz) x.
Proof.
  intros Hok Hx. destruct (hp_seg _ _ _ _ Hok) as [q H]. apply hseg_app in H as (q1 & H1 & [Hn H2]). cbn [bsize] in H2.
  destruct Hn as (_ & _ & _ & N4 & N5 & _). apply user_app in Hx as [Hx|[Hx|Hx]]; [|done|].
  - apply (user_in lim _ _ _ _ _ _ _ H1) in Hx. harith.
  - cbn [bsize] in Hx. apply (user_in lim _ _ _ _ _ _ _ H2) in Hx. harith.
Qed.

(** An allocation keeps the users' areas. *)
Lemma alloc_user total req bs o bs' x : alloc_blocks total req bs = Some (o, bs') -> user st bs x -> user st bs' x.
Proof.
  intros Ha Hx. pose proof (alloc_blocks_inv total req bs) as Hinv. rewrite Ha in Hinv.
  destruct Hinv as (l1 & sz & l2 & -> & _ & _ & -> & _). rewrite !user_app in *. rewrite carve_len.
  destruct Hx as [Hx|[Hx|Hx]]; [by left|done|right; right]. cbn [bsize] in Hx. by rewrite Z.add_assoc.
Qed.

(** The area of a new block. *)
Lemma alloc_area size bs o bs' : 0 < size -> size + 27 < 2 ^ 64 ->
  alloc_blocks (align16 (12 + size)) size bs = Some (o, bs') ->
  exists l1 sz l2, bs' = l1 ++ Used sz size :: l2 /\ o = blen l1 /\ 12 + size <= sz.
Proof.
  intros Hs Hb Ha. pose proof (alloc_blocks_inv (align16 (12 + size)) size bs) as Hinv. rewrite Ha in Hinv.
  destruct (align16_bounds size Hs Hb) as (_ & Ht & _).
  destruct Hinv as (l1 & sz & l2 & -> & Hle & -> & -> & _). unfold carve.
  destruct (_ + 48 <=? sz); cbn [app]; eexists l1, _, _; (split; [reflexivity|]); lia.
Qed.

(** ** The properties *)

(** C20: [kmalloc] is first fit on the blocks: a request of 0 bytes gives NULL; any other
    gives NULL, with nothing changed, when no hole is large enough for it and its
    header, rounded up to 16 bytes, and otherwise the area of the first hole that is,
    whose rest is split off; the area is no one else's and no one else's memory is
    written. *)
Theorem kmalloc_correct s bs : ok s bs -> slabs_off s -> kmalloc 0 s = Done NULL s /\
  forall size, 0 < size -> size + 27 < 2 ^ 64 -> exists r s', kmalloc size s = Done r s' /\ heap_allocated s bs size r s' /\
    (r <> NULL -> forall x, within r size x -> ~ client bs x).
Proof.
  intros Hok Hoff. split; [done|]. intros size Hs Hb.
  destruct (wp_Done _ _ _ (kmalloc_runs s bs size Hok Hoff Hs Hb)) as (r & s' & Hrun & Hr). exists r, s'.
  split; [done|]. split; [done|]. intros Hn x. unfold heap_allocated in Hr.
  destruct (alloc_blocks (align16 (12 + size)) size bs) as [[o bs']|] eqn:Ea; [|by destruct Hr].
  destruct Hr as (-> & _). by apply (taken_fresh s bs size o bs').
Qed.

(** C21: [kfree] ignores NULL and pointers without the magic number in front.  Of an allocated
    area it makes a hole, merged with the holes beside it, so that no two holes are
    ever neighbours; no other area is written. *)
Theorem kfree_correct : (forall s, kfree NULL s = Done tt s) /\
  (forall ptr s, load 4 (k_mem s) (ptr - SIZEOF_HEADER + H_MAGIC) <> ALLOC_MAGIC -> kfree ptr s = Done tt s) /\
  forall s l1 sz r l2, ok s (l1 ++ Used sz r :: l2) ->
    exists s', kfree (st + blen l1 + 44) s = Done tt s' /\ mem_only s s' /\ ok s' (release l1 sz l2) /\
      agree (client (l1 ++ Hole sz :: l2)) (k_mem s) (k_mem s').
Proof.
  split; [done|]. split.
  { intros ptr s Hm. unfold kfree, load32, mbind, M_bind, gets. destruct (ptr =? NULL); [done|]. cbv zeta.
    by rewrite (proj2 (Z.eqb_neq _ _) Hm). }
  intros s l1 sz r l2 Hok. destruct (wp_Done _ _ _ (kfree_runs s l1 sz r l2 Hok)) as ([] & s' & Hrun & Hr). by exists s'.
Qed.

(** Whatever its user wrote into it, releasing an area that was just allocated restores
    the sequence of blocks. *)
Theorem heap_roundtrip s bs size r s1 m : ok s bs -> slabs_off s -> 0 < size -> size + 27 < 2 ^ 64 ->
  kmalloc size s = Done r s1 -> r <> NULL -> agree (fun x => ~ within r size x) (k_mem s1) m ->
  exists s2, kfree r (set_mem m s1) = Done tt s2 /\ ok s2 bs /\ agree (client bs) (k_mem s) (k_mem s2).
Proof.
  intros Hok Hoff Hs Hb Hrun Hr Hag. destruct (wp_Done _ _ _ (kmalloc_runs s bs size Hok Hoff Hs Hb)) as (r' & s' & Hrun' & Ha).
  rewrite Hrun in Hrun'. apply Done_inj in Hrun' as [<- <-]. unfold heap_allocated in Ha.
  destruct (alloc_blocks (align16 (12 + size)) size bs) as [[o bs']|] eqn:Ea; [|by destruct Ha].
  destruct Ha as (-> & Hmo & Hok1 & Hag1). pose proof (alloc_blocks_inv (align16 (12 + size)) size bs) as Hinv. rewrite Ea in Hinv.
  destruct Hinv as (l1 & sz & l2 & -> & Hle & -> & -> & _). destruct (align16_bounds size Hs Hb) as (_ & Ht & _).
  assert (Hc : exists sz' tail, carve (align16 (12 + size)) size sz ++ l2 = Used sz' size :: tail /\ 12 + size <= sz' /\ sz' <= sz).
  { unfold carve. destruct (_ + 48 <=? sz) eqn:E; cbn [app]; eexists _, _; (split; [reflexivity|]); [apply Z.leb_le in E|]; lia. }
  destruct Hc as (sz' & tail & Ec & Hsz & Hsz2). rewrite Ec in Hok1.
  assert (Hok2 : ok (set_mem m s1) (l1 ++ Used sz' size :: tail)).
  { apply ok_write; [done|]. eapply agree_mono; [|exact Hag]. intros x Hx Hw. apply Hx. by apply used_area. }
  destruct (wp_Done _ _ _ (kfree_runs _ l1 sz' size tail Hok2)) as ([] & s2 & Hrun2 & _ & Hok3 & Hag3). exists s2.
  split; [done|]. rewrite (release_carve l1 sz l2 _ size sz' tail (hp_flat _ _ _ _ Hok) Ec) in Hok3. split; [done|].
  destruct (hp_seg _ _ _ _ Hok) as [q Hq].
  etrans; [exact Hag1|]. etrans; [eapply agree_mono; [|exact Hag]|eapply agree_mono; [|exact Hag3]]; intros x Hx.
  - destruct (heap_client_out _ _ _ _ _ _ _ _ _ Hq Hx) as [Hn _]. unfold within in *. lia.
  - destruct Hx as [Hx|Hx]; [left|by right]. rewrite user_app in Hx. rewrite user_app. destruct Hx as [Hx|[Hx|Hx]]; [by left|done|].
    right. right. cbn [bsize] in *. revert Ec. unfold carve. destruct (_ + 48 <=? sz); cbn [app]; intros [= <- <-]; [|done].
    right. cbn [bsize]. set (t := align16 (12 + size)) in *. by replace (st + blen l1 + 32 + t + 32 + (sz - t - 32)) with (st + blen l1 + 32 + sz) by lia.
Qed.
End heap.
