(* ===== verification/HeapClient.v ===== *)
(** The heap over time: reallocation, zeroed allocation, and every history of clients
    from [heap_init]; and a concrete heap. *)
From S2P Require Import Prelude Machine Slab SlabCache Heap HeapInv HeapThms HeapProps.

#[local] Opaque load store.

Section heap.
Context (st lim : Z).
Abbreviation ok := (heap_ok st lim).
Abbreviation client := (heap_client st lim).

(** ** krealloc *)

(** An allocation leaves another used block where it is. *)
Lemma alloc_other total req l1 sz r l2 o bs' : alloc_blocks total req (l1 ++ Used sz r :: l2) = Some (o, bs') ->
  exists m1 m2, bs' = m1 ++ Used sz r :: m2 /\ blen m1 = blen l1.
Proof.
  intros Ha. pose proof (alloc_blocks_inv total req (l1 ++ Used sz r :: l2)) as Hinv. rewrite Ha in Hinv.
  destruct Hinv as (k1 & z & k2 & E & _ & _ & -> & _). apply app_eq_inv in E as [(k & -> & E)|(k & -> & E)].
  - destruct k as [|b k]; [discriminate E|]. injection E as <- ->. exists (k1 ++ carve total req z ++ k), l2.
    rewrite <- !app_assoc. split; [done|]. rewrite !blen_app, carve_len. unfold blen at 4. cbn [zsum bsize]. unfold blen. lia.
  - destruct k as [|b k]; [discriminate E|]. injection E as <- ->. exists l1, (k ++ carve total req z ++ k2).
    by rewrite <- app_assoc.
Qed.

(** The user bytes of a sequence with a used block, with and without that block. *)
Lemma user_split l1 sz r l2 x : user st (l1 ++ Used sz r :: l2) x <->
  user st (l1 ++ Hole sz :: l2) x \/ within (st + blen l1 + 44) (sz - 12) x.
Proof. rewrite !user_app. cbn [user node_user bsize]. tauto. Qed.

(** What reallocating the area of [r] bytes between [l1] and [l2] to [size] bytes gives. *)
Definition reallocated (s : kst) (l1 : list hblk) (sz r : Z) (l2 : list hblk) (size p : Z) (s' : kst) : Prop :=
  match alloc_blocks (align16 (12 + size)) size (l1 ++ Used sz r :: l2) with
  | None => p = NULL /\ s' = s
  | Some (o, bs') => p = st + o + 44 /\
      (forall i, 0 <= i < r -> mget (k_mem s') (p + i) = mget (k_mem s) (st + blen l1 + 44 + i)) /\
      (exists m1 m2, bs' = m1 ++ Used sz r :: m2 /\ blen m1 = blen l1 /\ ok s' (release m1 sz m2)) /\
      agree (client (l1 ++ Hole sz :: l2)) (k_mem s) (k_mem s')
  end.

Lemma krealloc_grows s l1 sz r l2 size : ok s (l1 ++ Used sz r :: l2) -> slabs_off s -> r < 2 ^ 32 -> r < size -> size + 27 < 2 ^ 64 ->
  wp (krealloc (st + blen l1 + 44) size) (reallocated s l1 sz r l2 size) s.
Proof.
  intros Hok Hoff Hr Hs Hb. set (a := st + blen l1). destruct (hp_seg _ _ _ _ Hok) as [q Hq].
  pose proof (hp_range _ _ _ _ Hok) as [R1 R2]. apply hseg_app in Hq as (q1 & H1 & [Hn _]). fold a in H1, Hn.
  pose proof (blen_length _ _ _ _ _ _ _ H1). destruct Hn as (_ & _ & _ & N4 & N5 & _ & N6 & N7 & _).
  unfold krealloc. rewrite (proj2 (Z.eqb_neq (a + 44) NULL)) by (unfold NULL, a; lia). rewrite (proj2 (Z.eqb_neq size 0)) by lia. cbv zeta.
  replace (a + 44 - SIZEOF_HEADER) with (a + 32) by harith. apply wp_bind, wp_gets. rewrite N6, Z.eqb_refl. cbn [negb].
  apply wp_bind, wp_gets. rewrite N7, u32_id by lia. rewrite (proj2 (Z.leb_gt size r)) by lia.
  apply wp_bind. eapply wp_mono; [apply (kmalloc_runs st lim); [exact Hok|exact Hoff|lia|lia]|]. intros p s1 Hp. unfold heap_allocated in Hp. unfold reallocated.
  set (bs := l1 ++ Used sz r :: l2) in *.
  destruct (alloc_blocks (align16 (12 + size)) size bs) as [[o bs']|] eqn:Ea; cycle 1.
  { destruct Hp as [-> ->]. by apply wp_ret. }
  destruct Hp as (-> & Hmo & Hok1 & Hag1). destruct (alloc_area size bs o bs' ltac:(lia) Hb Ea) as (k1 & z & k2 & Ek & -> & Hz).
  assert (Hk : 0 <= blen k1).
  { destruct (hp_seg _ _ _ _ Hok1) as [q2 Hq2]. rewrite Ek in Hq2. apply hseg_app in Hq2 as (q3 & Hq3 & _). pose proof (blen_length _ _ _ _ _ _ _ Hq3). lia. }
  set (p := st + blen k1 + 44) in *. rewrite (proj2 (Z.eqb_neq p NULL)) by (unfold NULL, p; lia).
  assert (Hfresh : forall x, within p size x -> ~ client bs x).
  { intros x Hx. apply (taken_fresh st lim s bs size (blen k1) bs' x Hok ltac:(lia) Hb Ea). exact Hx. }
  assert (Hold : forall x, within (a + 44) r x -> client bs x) by (intros x Hx; left; by apply used_area).
  assert (Hnew : forall x, within p size x -> user st bs' x) by (intros x Hx; rewrite Ek; by apply used_area).
  destruct (alloc_other _ _ l1 sz r l2 _ bs' Ea) as (m1 & m2 & Em & El).
  apply wp_bind, wp_copy8; [lia| |].
  { destruct (Z.le_gt_cases (p + r) (a + 44)); [by left|]. destruct (Z.le_gt_cases (a + 44 + r) p); [by right|]. exfalso.
    apply (Hfresh (Z.max p (a + 44))); [|apply Hold]; unfold within; lia. }
  intros m Hagm Hcopy.
  assert (Hok2 : ok (set_mem m s1) (m1 ++ Used sz r :: m2)).
  { rewrite <- Em. apply ok_write; [done|]. eapply agree_mono; [|exact Hagm]. intros x Hx Hw. apply Hx, Hnew. unfold within in *. lia. }
  apply wp_bind. replace (a + 44) with (st + blen m1 + 44) by (unfold a; lia).
  eapply wp_mono; [exact (kfree_runs st lim _ m1 sz r m2 Hok2)|]. intros [] s2 (Hmo2 & Hok3 & Hag3). apply wp_ret. split; [done|].
  assert (Hkeep : forall x, user st bs' x -> ~ within (a + 44) (sz - 12) x -> client (m1 ++ Hole sz :: m2) x).
  { intros x Hx Hn. left. rewrite Em in Hx. apply user_split in Hx as [Hx|Hx]; [done|]. destruct Hn. unfold a. by rewrite <- El. }
  assert (Hblk : forall x, within (a + 44) (sz - 12) x -> client bs x) by (intros x Hx; left; apply user_split; by right).
  split; [|split; [by exists m1, m2|]].
  - intros i Hi. rewrite (Hag3 (p + i)); cycle 1.
    { apply Hkeep; [apply Hnew; unfold within; lia|]. intros Hx. apply (Hfresh (p + i)); [unfold within; lia|by apply Hblk]. }
    cbn [k_mem set_mem]. rewrite Hcopy by lia. apply Hag1, Hold. unfold within. lia.
  - etrans; [eapply agree_mono; [|exact Hag1]|etrans; [eapply agree_mono; [|exact Hagm]|eapply agree_mono; [|exact Hag3]]]; intros x Hx.
    + destruct Hx as [Hx|Hx]; [left|by right]. apply user_split. by left.
    + intros Hw. apply (Hfresh x); [unfold within in *; lia|]. destruct Hx as [Hx|Hx]; [left|by right]. apply user_split. by left.
    + destruct Hx as [Hx|Hx]; [|by right]. apply Hkeep.
      * apply (alloc_user st _ _ _ _ _ _ Ea). apply user_split. by left.
      * intros Hw. apply (used_apart st lim s l1 sz r l2 x Hok Hx). unfold a, within in *. lia.
Qed.

(** [krealloc] of an allocated area: size 0 frees it; a size that is not larger gives
    the area itself; a larger one moves it to the first hole that is large enough,
    with its contents, and frees the old one, or gives NULL and keeps it.  A NULL
    pointer allocates. *)
Theorem krealloc_correct s l1 sz r l2 : ok s (l1 ++ Used sz r :: l2) -> slabs_off s -> r < 2 ^ 32 ->
  let ptr := st + blen l1 + 44 in
  (forall size, krealloc NULL size s = kmalloc size s) /\
  (exists s', krealloc ptr 0 s = Done NULL s' /\ ok s' (release l1 sz l2)) /\
  (forall size, 0 < size <= r -> krealloc ptr size s = Done ptr s) /\
  (forall size, r < size -> size + 27 < 2 ^ 64 -> exists p s', krealloc ptr size s = Done p s' /\ reallocated s l1 sz r l2 size p s').
Proof.
  intros Hok Hoff Hr ptr. split; [done|]. destruct (hp_seg _ _ _ _ Hok) as [q Hq].
  pose proof (hp_range _ _ _ _ Hok) as [R1 R2]. apply hseg_app in Hq as (q1 & H1 & [Hn _]).
  pose proof (blen_length _ _ _ _ _ _ _ H1). destruct Hn as (_ & _ & _ & N4 & N5 & _ & N6 & N7 & _).
  assert (Hp : ptr =? NULL = false) by (apply Z.eqb_neq; unfold NULL, ptr; lia). split; [|split].
  - destruct (wp_Done _ _ _ (kfree_runs st lim s l1 sz r l2 Hok)) as ([] & s' & Hrun & _ & Hok' & _). exists s'. split; [|done].
    unfold krealloc. rewrite Hp, Z.eqb_refl. unfold mbind, M_bind. unfold ptr. by rewrite Hrun.
  - intros size Hs. unfold krealloc. rewrite Hp, (proj2 (Z.eqb_neq size 0)) by lia. cbv zeta.
    replace (ptr - SIZEOF_HEADER) with (st + blen l1 + 32) by (unfold ptr; harith).
    unfold load32, mbind, M_bind, gets. rewrite N6, Z.eqb_refl. cbn [negb]. rewrite N7, u32_id by lia. by rewrite (proj2 (Z.leb_le size r)) by lia.
  - intros size Hs Hb. by apply wp_Done, krealloc_grows.
Qed.

(** ** kcalloc *)

Lemma mul_check num size : 0 < num -> 0 < size -> size < 2 ^ 64 -> u64 (num * size) / num =? size = (num * size <? 2 ^ 64).
Proof.
  intros Hn Hs Hb. destruct (Z.ltb_spec (num * size) (2 ^ 64)) as [Hlt|Hge].
  - rewrite u64_id by nia. rewrite Z.mul_comm, Z.div_mul by lia. apply Z.eqb_refl.
  - apply Z.eqb_neq. intros E. pose proof (Z.mul_div_le (u64 (num * size)) num ltac:(lia)) as Hle. rewrite E in Hle.
    pose proof (u64_bound (num * size)). lia.
Qed.

(** [kcalloc] refuses a product that does not fit in 64 bits; otherwise it allocates like
    [kmalloc] and the area it gives is zero. *)
Theorem kcalloc_correct s bs num size : ok s bs -> slabs_off s -> 0 <= num < 2 ^ 64 -> 0 <= size < 2 ^ 64 ->
  (2 ^ 64 <= num * size \/ num * size = 0 -> kcalloc num size s = Done NULL s) /\
  (0 < num * size -> num * size + 27 < 2 ^ 64 -> exists p s', kcalloc num size s = Done p s' /\
     match alloc_blocks (align16 (12 + num * size)) (num * size) bs with
     | None => p = NULL /\ s' = s
     | Some (o, bs') => p = st + o + 44 /\ ok s' bs' /\ (forall x, within p (num * size) x -> mget (k_mem s') x = 0) /\
         agree (client bs) (k_mem s) (k_mem s')
     end).
Proof.
  intros Hok Hoff Hn Hs. split.
  - intros Hbad. unfold kcalloc. destruct (Z.eqb_spec num 0) as [->|Hn0]; [done|]. destruct (Z.eqb_spec size 0) as [->|Hs0]; [done|].
    cbn [negb andb]. rewrite mul_check by lia. by rewrite (proj2 (Z.ltb_ge _ _)) by nia.
  - intros Hpos Hb. apply wp_Done. unfold kcalloc. rewrite (proj2 (Z.eqb_neq num 0)), (proj2 (Z.eqb_neq size 0)) by nia.
    cbn [negb andb]. rewrite mul_check by nia. rewrite (proj2 (Z.ltb_lt _ _)) by lia. cbn [negb]. rewrite u64_id by lia.
    set (n := num * size) in *. apply wp_bind. eapply wp_mono; [apply (kmalloc_runs st lim); [exact Hok|exact Hoff|lia|lia]|]. intros p s1 Hp. unfold heap_allocated in Hp.
    destruct (alloc_blocks (align16 (12 + n)) n bs) as [[o bs']|] eqn:Ea; cycle 1.
    { destruct Hp as [-> ->]. rewrite Z.eqb_refl. apply wp_bind, wp_ret. by apply wp_ret. }
    destruct Hp as (-> & Hmo & Hok1 & Hag1). destruct (alloc_area n bs o bs' ltac:(lia) Hb Ea) as (k1 & z & k2 & Ek & -> & Hz).
    destruct (hp_seg _ _ _ _ Hok1) as [q Hq]. pose proof (hp_range _ _ _ _ Hok1) as [R1 R2]. rewrite Ek in Hq.
    apply hseg_app in Hq as (q1 & H1 & _). pose proof (blen_length _ _ _ _ _ _ _ H1). set (p := st + blen k1 + 44).
    rewrite (proj2 (Z.eqb_neq p NULL)) by (unfold NULL, p; lia). cbn [negb when]. apply wp_bind, wp_fill8; [lia|]. intros m Hag Hm.
    apply wp_ret. split; [done|]. split; [|split; [exact Hm|]].
    + apply ok_write; [done|]. eapply agree_mono; [|exact Hag]. intros x Hx Hw. apply Hx. rewrite Ek. by apply used_area.
    + etrans; [exact Hag1|]. eapply agree_mono; [|exact Hag]. intros x Hx Hw.
      apply (taken_fresh st lim s bs n (blen k1) bs' x Hok ltac:(lia) Hb Ea); [|done]. exact Hw.
Qed.

(** ** Histories *)

(** The areas in use, with the sizes their users asked for. *)
Fixpoint areas (a : Z) (bs : list hblk) : list (Z * Z) :=
  match bs with
  | [] => []
  | Hole sz :: bs => areas (a + 32 + sz) bs
  | Used sz r :: bs => (a + 44, r) :: areas (a + 32 + sz) bs
  end.

Lemma areas_app a l1 l2 : areas a (l1 ++ l2) = areas a l1 ++ areas (a + blen l1) l2.
Proof.
  revert a. induction l1 as [|b l1 IH]; intros a; cbn [app areas].
  - unfold blen. cbn [zsum]. by rewrite Z.add_0_r.
  - assert (E : a + blen (b :: l1) = a + 32 + bsize b + blen l1) by (unfold blen; cbn [zsum]; lia).
    rewrite E. destruct b; rewrite IH; done.
Qed.

Lemma areas_split a bs p n : (p, n) ∈ areas a bs -> exists l1 sz l2, bs = l1 ++ Used sz n :: l2 /\ p = a + blen l1 + 44.
Proof.
  revert a. induction bs as [|b bs IH]; intros a; cbn [areas]; [by intros ?%not_elem_of_nil|]. intros Hp.
  assert (Hrest : (p, n) ∈ areas (a + 32 + bsize b) bs -> exists l1 sz l2, b :: bs = l1 ++ Used sz n :: l2 /\ p = a + blen l1 + 44).
  { intros (l1 & sz & l2 & -> & ->)%IH. exists (b :: l1), sz, l2. split; [done|]. unfold blen. cbn [zsum]. lia. }
  destruct b as [sz|sz r]; [by apply Hrest|]. apply elem_of_cons in Hp as [[= -> ->]|Hp]; [|by apply Hrest].
  exists [], sz, bs. split; [done|]. unfold blen. cbn [zsum]. lia.
Qed.

Lemma areas_release a l1 sz l2 : areas a (release l1 sz l2) = areas a l1 ++ areas (a + blen l1 + 32 + sz) l2.
Proof.
  assert (Hj : forall a sz l2, areas a (join_next sz l2) = areas (a + 32 + sz) l2).
  { intros a' z l. destruct l as [|[w|w r] l]; cbn [join_next areas]; [done| |done]. f_equal. lia. }
  destruct (last_hole_cases l1) as [(_ & l & z & ->)|Hl].
  - rewrite release_hole, !areas_app. destruct (join_next_hole sz l2) as (w & l' & Ej). rewrite Hj. cbn [areas].
    rewrite app_nil_r, blen_app, blen_one. cbn [bsize]. rewrite Hj. do 2 f_equal. lia.
  - by rewrite release_used, areas_app, Hj.
Qed.

Lemma areas_carve a l1 sz l2 total req : exists tail, areas a (l1 ++ carve total req sz ++ l2) = areas a l1 ++ (a + blen l1 + 44, req) :: tail /\
  areas a (l1 ++ Hole sz :: l2) = areas a l1 ++ tail.
Proof.
  exists (areas (a + blen l1 + 32 + sz) l2). rewrite (areas_app a l1 (carve total req sz ++ l2)), (areas_app a l1 (Hole sz :: l2)). split; [|done]. f_equal. unfold carve.
  destruct (total + 48 <=? sz); cbn [app areas]; [|done]. do 2 f_equal. lia.
Qed.

(** What clients do: allocate, free what they were given, and write to it. *)
Inductive heap_step : kst * list (Z * Z) -> kst * list (Z * Z) -> Prop :=
| hs_malloc size r s s' H : 0 <= size -> size + 27 < 2 ^ 64 -> kmalloc size s = Done r s' ->
    heap_step (s, H) (s', if r =? NULL then H else (r, size) :: H)
| hs_free p n s s' H1 H2 : kfree p s = Done tt s' -> heap_step (s, H1 ++ (p, n) :: H2) (s', H1 ++ H2)
| hs_write m s H : agree (fun x => forall p n, (p, n) ∈ H -> ~ within p n x) (k_mem s) m -> heap_step (s, H) (set_mem m s, H).

Definition heap_state (s : kst) (H : list (Z * Z)) : Prop :=
  exists bs, ok s bs /\ slabs_off s /\ H ≡ₚ areas st bs.

Lemma heap_step_state s H s' H' : heap_state s H -> heap_step (s, H) (s', H') -> heap_state s' H'.
Proof.
  intros (bs & Hok & Hoff & Hp) Hstep.
  inversion Hstep as [size r s0 s1 H0 Hs Hb Hrun|p n s0 s1 H1 H2 Hrun|m s0 H0 Hag]; subst; clear Hstep.
  - destruct (decide (size = 0)) as [->|Hne].
    { unfold kmalloc in Hrun. apply Done_inj in Hrun as [<- <-]. by exists bs. }
    destruct (wp_Done _ _ _ (kmalloc_runs st lim s bs size Hok Hoff ltac:(lia) Hb)) as (r' & s1 & Hrun' & Ha).
    rewrite Hrun in Hrun'. apply Done_inj in Hrun' as [<- <-]. unfold heap_allocated in Ha.
    pose proof (alloc_blocks_inv (align16 (12 + size)) size bs) as Hinv.
    destruct (alloc_blocks (align16 (12 + size)) size bs) as [[o bs']|] eqn:Ea; cycle 1.
    { destruct Ha as [-> ->]. by exists bs. }
    destruct Ha as (-> & Hmo & Hok' & _). destruct Hinv as (l1 & sz & l2 & -> & _ & -> & -> & _).
    pose proof (hp_range _ _ _ _ Hok') as [R1 _]. destruct (hp_seg _ _ _ _ Hok') as [q Hq]. apply hseg_app in Hq as (q1 & H1 & _).
    pose proof (blen_length _ _ _ _ _ _ _ H1). rewrite (proj2 (Z.eqb_neq _ NULL)) by (unfold NULL; lia).
    eexists. split; [exact Hok'|]. split; [by eapply slabs_off_mem|].
    destruct (areas_carve st l1 sz l2 (align16 (12 + size)) size) as (tail & -> & E). rewrite E in Hp. rewrite Hp. apply Permutation_middle.
  - assert (Hin : (p, n) ∈ areas st bs) by (rewrite <- Hp; eauto with inlist).
    destruct (areas_split _ _ _ _ Hin) as (l1 & sz & l2 & -> & ->).
    destruct (wp_Done _ _ _ (kfree_runs st lim s l1 sz n l2 Hok)) as ([] & s1 & Hrun' & Hmo & Hok' & _).
    rewrite Hrun in Hrun'. apply Done_inj in Hrun' as [_ <-]. eexists. split; [exact Hok'|]. split; [by eapply slabs_off_mem|].
    rewrite areas_release. rewrite areas_app in Hp. cbn [areas] in Hp. eapply (Permutation_app_inv _ _ _ _ (st + blen l1 + 44, n)). exact Hp.
  - exists bs. split; [|by split]. apply ok_write; [done|]. eapply agree_mono; [|exact Hag]. intros x Hx p n Hin Hw. apply Hx.
    rewrite Hp in Hin. destruct (areas_split _ _ _ _ Hin) as (l1 & sz & l2 & -> & ->). apply used_area; [|done].
    destruct (hp_seg _ _ _ _ Hok) as [q Hq]. apply hseg_app in Hq as (q1 & _ & [(_ & _ & _ & _ & Hr & _) _]). exact Hr.
Qed.

(** A heap with nothing in use is one hole. *)
Lemma all_free s bs : ok s bs -> areas st bs = [] -> bs = [Hole (lim - st - 32)].
Proof.
  intros Hok Ha. pose proof (seg_range st lim s bs Hok) as [_ Hl]. pose proof (hp_some _ _ _ _ Hok) as Hn. pose proof (hp_flat _ _ _ _ Hok) as Hf.
  destruct bs as [|[z|z r] bs]; [done| |discriminate Ha]. cbn [areas] in Ha. destruct bs as [|[w|w r] bs].
  - rewrite blen_one in Hl. cbn [bsize] in Hl. do 2 f_equal. lia.
  - destruct Hf.
  - discriminate Ha.
Qed.

Lemma areas_apart s bs : ok s bs -> NoDup (areas st bs) /\
  forall p n p' n', (p, n) ∈ areas st bs -> (p', n') ∈ areas st bs -> (p, n) = (p', n') \/ p + n <= p' \/ p' + n' <= p.
Proof.
  intros Hok. destruct (hp_seg _ _ _ _ Hok) as [q Hq]. clear Hok.
  assert (Hgen : forall bs a p, hseg lim (k_mem s) p a bs q lim -> NoDup (areas a bs) /\
    (forall p n, (p, n) ∈ areas a bs -> 0 < n /\ a + 44 <= p) /\
    forall p n p' n', (p, n) ∈ areas a bs -> (p', n') ∈ areas a bs -> (p, n) = (p', n') \/ p + n <= p' \/ p' + n' <= p); cycle 1.
  { by apply Hgen in Hq as (? & _ & ?). }
  clear Hq bs. induction bs as [|b bs IH]; intros a p; [intros _|intros [Hn Hrest]].
  - split; [by apply NoDup_nil_2|]. split; [by intros ? ? ?%not_elem_of_nil|]. by intros ? ? ? ? ?%not_elem_of_nil.
  - destruct (IH _ _ Hrest) as (I1 & I2 & I3). pose proof (node_size _ _ _ _ _ Hn). destruct b as [sz|sz r]; cbn [areas bsize] in *.
    + split; [done|]. split; [|done]. intros p1 n1 H1. destruct (I2 _ _ H1). lia.
    + destruct Hn as (_ & _ & _ & N4 & N5 & _). split; [|split].
      * apply NoDup_cons. split; [|done]. intros H1. destruct (I2 _ _ H1). lia.
      * intros p1 n1 [[= -> ->]|H1]%elem_of_cons; [lia|]. destruct (I2 _ _ H1). lia.
      * intros p1 n1 p2 n2 [[= -> ->]|H1]%elem_of_cons [[= -> ->]|H2]%elem_of_cons; [by left| | |by apply I3].
        -- destruct (I2 _ _ H2). lia.
        -- destruct (I2 _ _ H1). lia.
Qed.

Lemma heap_init_state literal s : 0 < st -> st + 32 <= lim < 2 ^ 64 - 48 -> g_slab_initialized (k_heap s) = 0 ->
  exists s', heap_init literal st (lim - st) s = Done tt s' /\ ok s' [Hole (lim - st - 32)] /\ slabs_off s' /\
    g_caches (k_heap s') = g_caches (k_heap s) /\ s' = set_heap (k_heap s') (set_mem (k_mem s') s) /\
    agree (fun x => ~ within st 32 x) (k_mem s) (k_mem s').
Proof.
  intros Hst Hlim Hoff. eexists. split.
  { unfold heap_init, store64, store32, mbind, M_bind, gets, modify. cbn. rewrite Hoff. reflexivity. }
  split; [|split; [by left|split; [done|split; [done|]]]]; cycle 1.
  { intros x Hx. cbn. rewrite !mget_store_out by harith. done. } split; try done; [lia|]. exists st. cbn [hseg bsize k_mem set_mem]. split; [|split; [done|lia]].
  unfold node_at. cbn [bsize]. unfold SIZEOF_BLOCK. rewrite !load_store_ne by harith. cbn.
  rewrite ?(u64_id (lim - st - 32)) by lia. 
  repeat first [rewrite load64_store_eq by lia|rewrite load32_store_eq by lia|rewrite load_store_ne by harith].
  rewrite (proj2 (Z.eqb_eq _ lim)) by lia. repeat split; try done. lia.
Qed.
End heap.

(** C19: Every history from [heap_init], with the slab caches not yet enabled as at boot: the
    heap stays a sequence of blocks that tile the region, without neighbouring holes, in
    which the areas of the clients are exactly the used blocks; the areas are pairwise
    disjoint; and when all have been freed the heap is one hole again. *)
Theorem heap_history_safe literal st size s0 s1 s H : 0 < st -> 32 <= size -> st + size < 2 ^ 64 - 48 ->
  g_slab_initialized (k_heap s0) = 0 -> heap_init literal st size s0 = Done tt s1 -> rtc heap_step (s1, []) (s, H) ->
  exists bs, heap_ok st (st + size) s bs /\ H ≡ₚ areas st bs /\ NoDup H /\
    (forall p n p' n', (p, n) ∈ H -> (p', n') ∈ H -> (p, n) = (p', n') \/ p + n <= p' \/ p' + n' <= p) /\
    (H = [] -> bs = [Hole (size - 32)]).
Proof.
  intros Hst Hsz Hlim Hoff Hinit Hsteps.
  destruct (heap_init_state st (st + size) literal s0 Hst ltac:(lia) Hoff) as (s1' & Hrun & Hok1 & Hoff1 & _).
  replace (st + size - st) with size in * by lia. rewrite Hinit in Hrun. apply Done_inj in Hrun as [_ <-].
  assert (Hstate : heap_state st (st + size) s H).
  { assert (Hgen : forall x y, rtc heap_step x y -> heap_state st (st + size) x.1 x.2 -> heap_state st (st + size) y.1 y.2).
    { induction 1 as [|[x1 x2] [y1 y2] z Hxy _ IH]; [done|]. intros Hx. apply IH. by apply (heap_step_state st (st + size) x1 x2). }
    apply (Hgen _ _ Hsteps). by exists [Hole (size - 32)]. }
  destruct Hstate as (bs & Hok & _ & Hp). exists bs. split; [done|]. split; [done|].
  destruct (areas_apart st (st + size) s bs Hok) as [Hnd Hap]. split; [by rewrite Hp|]. split.
  - intros p n p' n'. rewrite Hp. apply Hap.
  - intros ->. rewrite (all_free st (st + size) s bs Hok); [do 2 f_equal; lia|]. by apply Permutation_nil_l in Hp.
Qed.

(** ** A concrete heap of one page *)

Definition demo_st : Z := 0x80000000.
Definition demo_lim : Z := demo_st + 4096.
Definition demo_heap : kst := final (heap_init (fun _ => 0) demo_st 4096 boot_state) boot_state.

Lemma demo_heap_init : heap_init (fun _ => 0) demo_st 4096 boot_state = Done tt demo_heap.
Proof. apply run_final. vm_compute. reflexivity. Qed.

Lemma demo_heap_ok : heap_ok demo_st demo_lim demo_heap [Hole 4064] /\ slabs_off demo_heap.
Proof.
  destruct (heap_init_state demo_st demo_lim (fun _ => 0) boot_state ltac:(done) ltac:(done) eq_refl) as (s' & Hrun & Hok & Hoff & _).
  change (demo_lim - demo_st) with 4096 in *. rewrite demo_heap_init in Hrun. apply Done_inj in Hrun as [_ <-]. by split.
Qed.

Definition demo_ptr : Z := 0x8000002C.
Definition demo_used : kst := final (kmalloc 100 demo_heap) boot_state.

Lemma demo_kmalloc : kmalloc 100 demo_heap = Done demo_ptr demo_used.
Proof. apply run_final. vm_compute. reflexivity. Qed.

Lemma demo_used_ok : heap_ok demo_st demo_lim demo_used ([] ++ Used 112 100 :: [Hole 3920]) /\ slabs_off demo_used.
Proof.
  destruct demo_heap_ok as [Hok Hoff].
  destruct (wp_Done _ _ _ (kmalloc_runs demo_st demo_lim demo_heap [Hole 4064] 100 Hok Hoff ltac:(lia) ltac:(lia))) as (r & s' & Hrun & Ha).
  rewrite demo_kmalloc in Hrun. apply Done_inj in Hrun as [<- <-]. unfold heap_allocated in Ha.
  change (alloc_blocks (align16 (12 + 100)) 100 [Hole 4064]) with (Some (0, [Used 112 100; Hole 3920])) in Ha.
  destruct Ha as (_ & Hmo & Hok' & _). split; [exact Hok'|]. by eapply slabs_off_mem.
Qed.

(** The size of the header is added without a check: a request of nearly 2^64 bytes is
    granted a block of no bytes at all. *)
Lemma kmalloc_size_wraps : result (kmalloc (2 ^ 64 - 12) demo_heap) = Some demo_ptr.
Proof. vm_compute. reflexivity. Qed.

(** ** Witnesses *)

Lemma kmalloc_correct_witness : exists s', kmalloc 100 demo_heap = Done demo_ptr s' /\
  heap_ok demo_st demo_lim s' [Used 112 100; Hole 3920].
Proof.
  destruct demo_heap_ok as [Hok Hoff].
  destruct (kmalloc_correct demo_st demo_lim demo_heap [Hole 4064] Hok Hoff) as [_ Hk].
  destruct (Hk 100 ltac:(lia) ltac:(lia)) as (r & s' & Hrun & Ha & _). unfold heap_allocated in Ha.
  change (alloc_blocks (align16 (12 + 100)) 100 [Hole 4064]) with (Some (0, [Used 112 100; Hole 3920])) in Ha.
  destruct Ha as (-> & _ & Hok' & _). exists s'. split; [exact Hrun|exact Hok'].
Defined.

Lemma kfree_correct_witness : exists s', kfree demo_ptr demo_used = Done tt s' /\ heap_ok demo_st demo_lim s' [Hole 4064].
Proof.
  destruct demo_used_ok as [Hok _]. destruct (kfree_correct demo_st demo_lim) as (_ & _ & Hk).
  destruct (Hk demo_used [] 112 100 [Hole 3920] Hok) as (s' & Hrun & _ & Hok' & _). exists s'. split; [exact Hrun|exact Hok'].
Defined.

Lemma heap_roundtrip_witness : exists s2, kfree demo_ptr demo_used = Done tt s2 /\ heap_ok demo_st demo_lim s2 [Hole 4064].
Proof.
  destruct demo_heap_ok as [Hok Hoff].
  destruct (heap_roundtrip demo_st demo_lim demo_heap [Hole 4064] 100 demo_ptr demo_used (k_mem demo_used) Hok Hoff
    ltac:(lia) ltac:(lia) demo_kmalloc ltac:(discriminate) ltac:(reflexivity)) as (s2 & Hrun & Hok2 & _).
  rewrite set_mem_id in Hrun. exists s2. split; [exact Hrun|exact Hok2].
Defined.

Lemma krealloc_correct_witness : krealloc demo_ptr 50 demo_used = Done demo_ptr demo_used /\
  exists s', krealloc demo_ptr 200 demo_used = Done (demo_ptr + 144) s'.
Proof.
  destruct demo_used_ok as [Hok Hoff].
  destruct (krealloc_correct demo_st demo_lim demo_used [] 112 100 [Hole 3920] Hok Hoff ltac:(lia)) as (_ & _ & H1 & H2).
  split; [exact (H1 50 ltac:(lia))|]. destruct (H2 200 ltac:(lia) ltac:(lia)) as (p & s' & Hrun & Hr). unfold reallocated in Hr.
  change (alloc_blocks (align16 (12 + 200)) 200 ([] ++ Used 112 100 :: [Hole 3920])) with
    (Some (144, [Used 112 100; Used 224 200; Hole 3664])) in Hr.
  destruct Hr as (-> & _). exists s'. exact Hrun.
Defined.

Lemma kcalloc_correct_witness : kcalloc (2 ^ 33) (2 ^ 33) demo_heap = Done NULL demo_heap /\
  exists p s', kcalloc 10 10 demo_heap = Done p s'.
Proof.
  destruct demo_heap_ok as [Hok Hoff]. split.
  - destruct (kcalloc_correct demo_st demo_lim demo_heap [Hole 4064] (2 ^ 33) (2 ^ 33) Hok Hoff ltac:(lia) ltac:(lia)) as [H _].
    apply H. left. lia.
  - destruct (kcalloc_correct demo_st demo_lim demo_heap [Hole 4064] 10 10 Hok Hoff ltac:(lia) ltac:(lia)) as [_ H].
    destruct (H ltac:(lia) ltac:(lia)) as (p & s' & Hrun & _). exists p, s'. exact Hrun.
Defined.

Lemma heap_history_safe_witness : exists bs, heap_ok demo_st demo_lim demo_used bs /\ [(demo_ptr, 100)] ≡ₚ areas demo_st bs.
Proof.
  destruct (heap_history_safe (fun _ => 0) demo_st 4096 boot_state demo_heap demo_used [(demo_ptr, 100)] ltac:(done) ltac:(done)
    ltac:(done) eq_refl demo_heap_init) as (bs & Hok & Hp & _).
  - apply rtc_once. exact (hs_malloc 100 demo_ptr demo_heap demo_used [] ltac:(lia) ltac:(lia) demo_kmalloc).
  - exists bs. split; [exact Hok|exact Hp].
Defined.
