(* ===== verification/Pool.v ===== *)
(** kernel/mm/pool.c: pools of fixed-size objects.  A pool is a page holding a
    [memory_pool_t]; its regions are blocks of the page allocator that start with a
    [pool_region_t]; free objects are in one list threaded through the objects. *)
From S2P Require Import Prelude Machine Buddy KString.

#[local] Opaque load store.

Definition POOL_NAME_MAX : Z := 32.
Definition MIN_OBJECT_SIZE : Z := 8.

(** Field offsets of [memory_pool_t] and [pool_region_t]. *)
Definition P_NAME : Z := 0.
Definition P_OBJECT_SIZE : Z := 32.
Definition P_INITIAL_COUNT : Z := 40.
Definition P_GROW_COUNT : Z := 44.
Definition P_TOTAL : Z := 48.
Definition P_FREE : Z := 52.
Definition P_FREE_LIST : Z := 56.
Definition P_REGIONS : Z := 64.
Definition P_LOCK : Z := 72.
Definition SIZEOF_POOL : Z := 80.
Definition R_BASE : Z := 0.
Definition R_NEXT : Z := 8.
Definition SIZEOF_REGION : Z := 16.

Definition align_up (size alignment : Z) : Z :=
  Z.land (u64 (size + alignment - 1)) (u64 (Z.lnot (alignment - 1))).

(** [while (order_pages < pages_needed && order < BUDDY_MAX_ORDER) ...] *)
Definition region_order (pages_needed : Z) : K (Z * Z) :=
  while (0, 1) (fun '(order, order_pages) =>
    mret (if (order_pages <? pages_needed) && (order <? BUDDY_MAX_ORDER)
          then inl (order + 1, Z.shiftl 1 (order + 1))
          else inr (order, order_pages))).

(** The region is linked and its objects are threaded onto the free list. *)
Definition add_region (pool region order_pages : Z) : K Z :=
  store64 (region + R_BASE) region ;;
  regions ← load64 (pool + P_REGIONS);
  store64 (region + R_NEXT) regions ;;
  store64 (pool + P_REGIONS) region ;;
  let objects_start := region + SIZEOF_REGION in
  let usable_size := u32 (order_pages * BUDDY_PAGE_SIZE) - SIZEOF_REGION in
  object_size ← load64 (pool + P_OBJECT_SIZE);
  if object_size =? 0 then stop DivideError else
  let objects_in_region := u32 (usable_size / object_size) in
  for_range 0 objects_in_region (fun i =>
    object_size ← load64 (pool + P_OBJECT_SIZE);
    let chunk := objects_start + i * object_size in
    free_list ← load64 (pool + P_FREE_LIST);
    store64 chunk free_list ;;
    store64 (pool + P_FREE_LIST) chunk) ;;
  total ← load32 (pool + P_TOTAL);
  store32 (pool + P_TOTAL) (u32 (total + objects_in_region)) ;;
  free ← load32 (pool + P_FREE);
  store32 (pool + P_FREE) (u32 (free + objects_in_region)) ;;
  mret 0.

Definition pool_grow (pool count : Z) : K Z :=
  if (pool =? NULL) || (count =? 0) then mret (-1) else
  object_size ← load64 (pool + P_OBJECT_SIZE);
  let total_size := u64 (count * object_size) in
  let pages_needed := u32 (u64 (total_size + BUDDY_PAGE_SIZE - 1) / BUDDY_PAGE_SIZE) in
  '(order, order_pages) ← region_order pages_needed;
  region ← buddy_alloc_pages order BUDDY_ZONE_RECLAIMABLE;
  if region =? 0 then mret (-1) else add_region pool region order_pages.

Definition pool_create (name object_size initial_count : Z) : K Z :=
  if (name =? NULL) || (object_size =? 0) || (initial_count =? 0) then mret NULL else
  pool ← buddy_alloc_pages 0 BUDDY_ZONE_UNMOVABLE;
  if pool =? 0 then mret NULL else
  _ ← memset pool 0 SIZEOF_POOL;
  _ ← strncpy (pool + P_NAME) name (POOL_NAME_MAX - 1);
  store8 (pool + P_NAME + (POOL_NAME_MAX - 1)) 0 ;;
  store64 (pool + P_OBJECT_SIZE) object_size ;;
  size ← load64 (pool + P_OBJECT_SIZE);
  when (size <? MIN_OBJECT_SIZE) (store64 (pool + P_OBJECT_SIZE) MIN_OBJECT_SIZE) ;;
  size ← load64 (pool + P_OBJECT_SIZE);
  store64 (pool + P_OBJECT_SIZE) (align_up size 8) ;;
  store32 (pool + P_INITIAL_COUNT) initial_count ;;
  store32 (pool + P_GROW_COUNT) (initial_count / 2) ;;
  grow ← load32 (pool + P_GROW_COUNT);
  when (grow =? 0) (store32 (pool + P_GROW_COUNT) 1) ;;
  store32 (pool + P_TOTAL) 0 ;;
  store32 (pool + P_FREE) 0 ;;
  store64 (pool + P_FREE_LIST) NULL ;;
  store64 (pool + P_REGIONS) NULL ;;
  spinlock_init (pool + P_LOCK) ;;
  grown ← pool_grow pool initial_count;
  if grown <? 0 then buddy_free_pages pool 0 ;; mret NULL
  else mret pool.

Definition pool_alloc (pool : Z) : K Z :=
  if pool =? NULL then mret NULL else
  spinlock_acquire (pool + P_LOCK) ;;
  free_list ← load64 (pool + P_FREE_LIST);
  grown ← (if free_list =? NULL then
             count ← load32 (pool + P_GROW_COUNT);
             pool_grow pool count
           else mret 0);
  if grown <? 0 then spinlock_release (pool + P_LOCK) ;; mret NULL else
  chunk ← load64 (pool + P_FREE_LIST);
  next ← load64 chunk;
  store64 (pool + P_FREE_LIST) next ;;
  free ← load32 (pool + P_FREE);
  store32 (pool + P_FREE) (u32 (free - 1)) ;;
  spinlock_release (pool + P_LOCK) ;;
  mret chunk.

Definition pool_free (pool object : Z) : K unit :=
  if (pool =? NULL) || (object =? NULL) then mret tt else
  spinlock_acquire (pool + P_LOCK) ;;
  free_list ← load64 (pool + P_FREE_LIST);
  store64 object free_list ;;
  store64 (pool + P_FREE_LIST) object ;;
  free ← load32 (pool + P_FREE);
  store32 (pool + P_FREE) (u32 (free + 1)) ;;
  spinlock_release (pool + P_LOCK).

(** The order [pool_destroy] guesses from the address: the last of 0..10 to whose
    block size the address is aligned. *)
Definition guess_order (addr : Z) : K Z :=
  for_fold 11 0 0 (fun o order =>
    let alignment := u64 (u64 (Z.shiftl 1 o) * BUDDY_PAGE_SIZE) in
    mret (if Z.land addr (alignment - 1) =? 0 then o else order)).

Definition free_regions (region : Z) : K unit :=
  while region (fun region =>
    if region =? NULL then mret (inr tt) else
    next ← load64 (region + R_NEXT);
    order ← guess_order region;
    buddy_free_pages region order ;;
    mret (inl next)).

Definition pool_destroy (pool : Z) : K unit :=
  if pool =? NULL then mret tt else
  spinlock_acquire (pool + P_LOCK) ;;
  region ← load64 (pool + P_REGIONS);
  free_regions region ;;
  store64 (pool + P_REGIONS) NULL ;;
  store64 (pool + P_FREE_LIST) NULL ;;
  store32 (pool + P_TOTAL) 0 ;;
  store32 (pool + P_FREE) 0 ;;
  spinlock_release (pool + P_LOCK) ;;
  buddy_free_pages pool 0.

Definition pool_get_utilization (pool : Z) : K Z :=
  if pool =? NULL then mret 0 else
  total ← load32 (pool + P_TOTAL);
  if total =? 0 then mret 0 else
  spinlock_acquire (pool + P_LOCK) ;;
  total ← load32 (pool + P_TOTAL);
  free ← load32 (pool + P_FREE);
  let used_objects := u32 (total - free) in
  total ← load32 (pool + P_TOTAL);
  if total =? 0 then stop DivideError else
  let utilization := u32 (used_objects * 100) / total in
  spinlock_release (pool + P_LOCK) ;;
  mret utilization.
