(* ===== verification/PoolInv.v ===== *)
(** Object pools, abstractly: the regions of a pool, its free objects and the objects
    its clients hold; growing a pool. *)
From S2P Require Import Prelude Machine Buddy BuddyInv BuddyTrace PageAlloc KString SList Pool.

#[local] Opaque load store.

Ltac poff :=
  unfold P_NAME, P_OBJECT_SIZE, P_INITIAL_COUNT, P_GROW_COUNT, P_TOTAL, P_FREE, P_FREE_LIST, P_REGIONS, P_LOCK, SIZEOF_POOL,
    R_BASE, R_NEXT, SIZEOF_REGION in *;
  change (Z.of_nat 8) with 8 in *; change (Z.of_nat 4) with 4 in *; change (Z.of_nat 1) with 1 in *.
Ltac parith := poff; unfold within in *; lia.

(** ** The order of a region *)

(** The least order whose block has [n] pages, 10 when none has. *)
Definition least_order (n o : Z) : Prop :=
  0 <= o <= 10 /\ (o < 10 -> n <= 2 ^ o) /\ forall j, 0 <= j < o -> 2 ^ j < n.

Lemma region_order_ok n s : exists o, region_order n s = Done (o, 2 ^ o) s /\ least_order n o.
Proof.
  assert (Hwp : wp (region_order n) (fun r s' => s' = s /\ exists o, r = (o, 2 ^ o) /\ least_order n o) s); cycle 1.
  { apply wp_Done in Hwp as (r & s' & Hrun & -> & o & -> & Ho). by exists o. }
  unfold region_order, BUDDY_MAX_ORDER.
  apply (wp_loop (fun d x s' => s' = s /\ exists o, x = (o, 2 ^ o) /\ 0 <= o <= 10 /\ Z.of_nat d = 10 - o /\ forall j, 0 <= j < o -> 2 ^ j < n) 10); [|done|].
  { split; [done|]. exists 0. split; [done|]. split; [lia|]. split; [done|]. lia. }
  intros d [o p] s' (-> & o' & [= -> ->] & Ho & Hd & Hlt). apply wp_ret. destruct ((2 ^ o' <? n) && (o' <? 10)) eqn:E.
  - apply andb_prop in E as [E1 E]. apply Z.ltb_lt in E, E1. exists (d - 1)%nat. split; [lia|]. split; [done|]. exists (o' + 1).
    rewrite Z.shiftl_mul_pow2 by lia. split; [f_equal; lia|]. split; [lia|]. split; [lia|]. intros j Hj. destruct (decide (j = o')) as [->|]; [done|]. apply Hlt. lia.
  - split; [done|]. exists o'. split; [done|]. split; [done|]. split; [|done]. intros H10. apply andb_false_iff in E as [E|E]; apply Z.ltb_ge in E; lia.
Qed.

Section pool.
Context (osz : Z).

(** The objects of a region of order [o]. *)
Definition region_count (o : Z) : Z := (sz o - 16) / osz.
Definition is_obj (R : blocks) (x : Z) : Prop :=
  exists a o i, (a, o) ∈ R /\ 0 <= i < region_count o /\ x = a + 16 + i * osz.

(** Sizes for which every region has an object. *)
Context (Hosz : 8 <= osz <= 4080).

Context `{PA : PageAllocator 0 (buddy_alloc_pages 0 BUDDY_ZONE_UNMOVABLE) (fun a => buddy_free_pages a 0)}.

(** [R] are the regions, [F] the free objects in order, [H] those the clients hold. *)
Record pool_inv (lk : Z) (s : kst) (A : blocks) (p : Z) (R : blocks) (F H : list Z) : Prop := {
  pl_alloc : pa_inv s A;
  pl_size : load 8 (k_mem s) (p + P_OBJECT_SIZE) = osz;
  pl_grow : load 4 (k_mem s) (p + P_GROW_COUNT) <> 0;
  pl_lock : load 4 (k_mem s) (p + P_LOCK) = lk;
  pl_free : sll 0 (k_mem s) (load 8 (k_mem s) (p + P_FREE_LIST)) F;
  pl_regions : sll R_NEXT (k_mem s) (load 8 (k_mem s) (p + P_REGIONS)) R.*1;
  pl_nfree : load 4 (k_mem s) (p + P_FREE) = u32 (Z.of_nat (length F));
  pl_total : load 4 (k_mem s) (p + P_TOTAL) = u32 (Z.of_nat (length F + length H));
  pl_own b : b ∈ (p, 0) :: R -> b ∈ A;
  pl_nodup : NoDup ((p, 0) :: R);
  pl_objs x : x ∈ F ++ H <-> is_obj R x;
  pl_distinct : NoDup (F ++ H)
}.

(** What the clients may use: blocks that are not the pool's, and the objects they hold. *)
Definition pool_client (A : blocks) (p : Z) (R : blocks) (H : list Z) (x : Z) : Prop :=
  (in_block A x /\ ~ in_block ((p, 0) :: R) x) \/ exists o, o ∈ H /\ within o osz x.

Lemma region_room o i : 0 <= o <= 10 -> 0 <= i < region_count o -> 16 + i * osz + osz <= sz o.
Proof.
  intros Ho Hi. unfold region_count in Hi. pose proof (sz_orders o Ho).
  pose proof (Z.mul_div_le (sz o - 16) osz ltac:(lia)). nia.
Qed.

Lemma region_some o : 0 <= o <= 10 -> 1 <= region_count o < 2 ^ 32.
Proof.
  intros Ho. unfold region_count. pose proof (sz_orders o Ho). split.
  - apply Z.div_le_lower_bound; lia.
  - apply Z.div_lt_upper_bound; lia.
Qed.

Section facts.
Context (lk : Z) (s : kst) (A : blocks) (p : Z) (R : blocks) (F H : list Z).
Hypothesis Hi : pool_inv lk s A p R F H.

Lemma own_range a o : (a, o) ∈ (p, 0) :: R -> 0 <= o <= 10 /\ 0 < a /\ a + sz o <= 2 ^ 52.
Proof.
  intros Hin. destruct (pa_block s A a o (pl_alloc _ _ _ _ _ _ _ Hi)) as (H1 & H2 & _ & H3); [by eapply pl_own|].
  unfold PHYS_LIMIT in H3. lia.
Qed.

Lemma own_apart a o b ob : (a, o) ∈ (p, 0) :: R -> (b, ob) ∈ (p, 0) :: R -> (a, o) <> (b, ob) -> a + sz o <= b \/ b + sz ob <= a.
Proof.
  intros Ha Hb Hne. eapply (pa_disj s A); [by eapply pl_alloc|by eapply pl_own|by eapply pl_own|done].
Qed.

Lemma region_apart a o : (a, o) ∈ R -> a + sz o <= p \/ p + 4096 <= a.
Proof.
  intros Ha. rewrite <- sz_0. apply (own_apart a o p 0); [by right|left|].
  intros [= -> ->]. pose proof (pl_nodup _ _ _ _ _ _ _ Hi) as [Hn _]%NoDup_cons. done.
Qed.

(** The place of an object. *)
Lemma obj_place x : x ∈ F ++ H -> exists a o, (a, o) ∈ R /\ a + 16 <= x /\ x + osz <= a + sz o.
Proof.
  intros Hx. apply (pl_objs _ _ _ _ _ _ _ Hi) in Hx as (a & o & i & Hin & Hr & ->). exists a, o. split; [done|].
  destruct (own_range a o ltac:(by right)) as [Ho _]. pose proof (region_room o i Ho Hr). nia.
Qed.

Lemma obj_range x : x ∈ F ++ H -> 0 < x /\ x + osz <= 2 ^ 52 /\ (x + osz <= p \/ p + 4096 <= x).
Proof.
  intros (a & o & Hin & H1 & H2)%obj_place. destruct (own_range a o ltac:(by right)). pose proof (region_apart a o Hin). lia.
Qed.

(** Objects do not overlap. *)
Lemma obj_apart x y : x ∈ F ++ H -> y ∈ F ++ H -> x <> y -> x + osz <= y \/ y + osz <= x.
Proof.
  intros Hx Hy Hne. apply (pl_objs _ _ _ _ _ _ _ Hi) in Hx as (a & o & i & Hin & Hr & ->).
  apply (pl_objs _ _ _ _ _ _ _ Hi) in Hy as (b & ob & j & Hin' & Hr' & ->).
  destruct (own_range a o ltac:(by right)) as [Ho _]. destruct (own_range b ob ltac:(by right)) as [Hob _].
  pose proof (region_room o i Ho Hr). pose proof (region_room ob j Hob Hr').
  destruct (decide ((a, o) = (b, ob))) as [[= -> ->]|Hab].
  - assert (i <> j) by (intros ->; done). destruct (Z.lt_ge_cases i j); [left|right]; nia.
  - pose proof (own_apart a o b ob ltac:(by right) ltac:(by right) Hab). assert (0 <= i * osz /\ 0 <= j * osz) by nia. lia.
Qed.

Lemma obj_header x a o : x ∈ F ++ H -> (a, o) ∈ R -> x + osz <= a \/ a + 16 <= x.
Proof.
  intros (b & ob & Hin & H1 & H2)%obj_place Ha. destruct (decide ((a, o) = (b, ob))) as [[= -> ->]|Hab]; [lia|].
  pose proof (own_apart a o b ob ltac:(by right) ltac:(by right) Hab).
  destruct (own_range a o ltac:(by right)) as [Ho _]. pose proof (sz_orders o Ho). lia.
Qed.

Lemma block_in x a o : (a, o) ∈ (p, 0) :: R -> within a (sz o) x -> in_block A x /\ in_block ((p, 0) :: R) x.
Proof. intros Hin Hx. split; exists a, o; [split; [by eapply pl_own|done]|done]. Qed.

(** The clients' bytes are not the pool's. *)
Lemma client_apart x : pool_client A p R H x ->
  ~ within p 4096 x /\ (forall a o, (a, o) ∈ R -> ~ within a 16 x) /\ (forall y, y ∈ F -> ~ within y osz x).
Proof.
  intros [[Hb Hn]|(o & Ho & Hx)].
  - split; [|split].
    + intros Hw. apply Hn. exists p, 0. split; [left|]. by rewrite sz_0.
    + intros a o Ha Hw. apply Hn. exists a, o. split; [by right|]. destruct (own_range a o ltac:(by right)) as [Ho _].
      pose proof (sz_orders o Ho). unfold within in *. lia.
    + intros y Hy Hw. destruct (obj_place y) as (a & o & Ha & H1 & H2); [apply elem_of_app; by left|].
      apply Hn. exists a, o. split; [by right|]. unfold within in *. lia.
  - assert (Hin : o ∈ F ++ H) by (apply elem_of_app; by right). destruct (obj_range o Hin) as (H1 & H2 & H3). split; [|split].
    + unfold within in *. lia.
    + intros a ob Ha. pose proof (obj_header o a ob Hin Ha). unfold within in *. lia.
    + intros y Hy. assert (o <> y).
      { intros ->. pose proof (pl_distinct _ _ _ _ _ _ _ Hi) as Hd. apply NoDup_app in Hd as (_ & Hd & _). by apply (Hd y). }
      pose proof (obj_apart o y Hin ltac:(apply elem_of_app; by left) ltac:(done)). unfold within in *. lia.
Qed.
End facts.

(** ** Growing *)

(** Threading the free list through a region. *)
Lemma pool_thread s p r n len F (Q : unit -> kst -> Prop) : load 8 (k_mem s) (p + P_OBJECT_SIZE) = osz ->
  0 < r -> r + len <= 2 ^ 52 -> 16 + n * osz <= len -> 0 <= n -> r + len <= p \/ p + 4096 <= r ->
  (forall f, f ∈ F -> (f + 8 <= r \/ r + len <= f) /\ (f + 8 <= p \/ p + 4096 <= f)) ->
  sll 0 (k_mem s) (load 8 (k_mem s) (p + P_FREE_LIST)) F ->
  (forall m, agree (fun x => ~ within (p + P_FREE_LIST) 8 x /\ ~ within (r + 16) (len - 16) x) (k_mem s) m ->
     sll 0 m (load 8 m (p + P_FREE_LIST)) (slots osz (r + 16) (Z.to_nat n) ++ F) -> Q tt (set_mem m s)) ->
  wp (for_range 0 n (fun i =>
    object_size ← load64 (p + P_OBJECT_SIZE);
    let chunk := r + 16 + i * object_size in
    free_list ← load64 (p + P_FREE_LIST);
    store64 chunk free_list ;;
    store64 (p + P_FREE_LIST) chunk)) Q s.
Proof.
  intros Ho Hr0 Hr1 Hn Hn0 Hrp HF Hl HQ.
  apply (wp_for_range (fun i s' => exists k m, i = Z.of_nat k /\ s' = set_mem m s /\
    agree (fun x => ~ within (p + P_FREE_LIST) 8 x /\ ~ within (r + 16) (len - 16) x) (k_mem s) m /\
    sll 0 m (load 8 m (p + P_FREE_LIST)) (slots osz (r + 16) k ++ F))).
  - lia.
  - exists 0%nat, (k_mem s). rewrite set_mem_id. done.
  - intros i s' Hi (k & m & -> & -> & Hag & Hs).
    assert (Hslot : r + 16 + Z.of_nat k * osz + osz <= r + len) by nia. assert (0 <= Z.of_nat k * osz) by nia.
    apply wp_bind, wp_gets, wp_bind, wp_gets, wp_bind, wp_modify, wp_modify. cbn [k_mem set_mem].
    replace (load 8 m (p + P_OBJECT_SIZE)) with osz; cycle 1.
    { rewrite <- Ho. symmetry. apply load_agree. eapply agree_mono; [|exact Hag]. intros x Hx. split; parith. }
    set (obj := r + 16 + Z.of_nat k * osz) in *. eexists (S k), _. split; [lia|]. split; [reflexivity|].
    assert (Hel : forall o, o ∈ slots osz (r + 16) k ++ F -> (o + 8 <= obj \/ obj + 8 <= o) /\ (o + 8 <= p \/ p + 4096 <= o)).
    { intros o [(j & Hj & ->)%slots_elem|Hf]%elem_of_app; [|destruct (HF o Hf); lia].
      assert (r + 16 + j * osz + osz <= obj) by (unfold obj; nia). assert (0 <= j * osz) by nia. lia. }
    split.
    + intros x [Hx Hx']. rewrite !mget_store_out by parith. by apply Hag.
    + rewrite load64_store_eq by lia. cbn [slots app]. fold obj.
      apply (sll_frame 0 (store 8 m obj (load 8 m (p + P_FREE_LIST)))).
      { intros o Hin. apply agree_store. intros x Hx. apply elem_of_cons in Hin as [->|Hin]; [parith|]. destruct (Hel o Hin). parith. }
      rewrite <- (Z.add_0_r obj) at 1. apply sll_push; [done|unfold NULL; lia|apply load64_bound|].
      intros o Hin. destruct (Hel o Hin). lia.
  - intros s' (k & m & Hk & -> & Hag & Hs). apply HQ; [done|]. rewrite Hk, Nat2Z.id. done.
Qed.
End pool.
