(* ===== verification/PoolProps.v ===== *)
(** Pools as their clients see them: growing, allocation and release. *)
From S2P Require Import Prelude Machine Buddy BuddyInv BuddyTrace BuddyProps PageAlloc Zoned KString SList Pool PoolInv.

#[local] Opaque load store.

Lemma u32_add x y : u32 (u32 x + y) = u32 (x + y).
Proof. unfold u32. by rewrite Zplus_mod_idemp_l. Qed.

Section pool.
Context (osz : Z) (Hosz : 8 <= osz <= 4080).
Context `{PA : PageAllocator 0 (buddy_alloc_pages 0 BUDDY_ZONE_UNMOVABLE) (fun a => buddy_free_pages a 0)}.
Abbreviation inv := (pool_inv osz).
Abbreviation client := (pool_client osz).

Lemma is_obj_cons a o R x : is_obj osz ((a, o) :: R) x <-> x ∈ slots osz (a + 16) (Z.to_nat (region_count osz o)) \/ is_obj osz R x.
Proof.
  unfold is_obj. setoid_rewrite elem_of_cons. split.
  - intros (b & ob & i & [[= -> ->]|Hin] & Hi & ->); [left|right; eauto 10]. apply slots_elem. exists i. lia.
  - intros [(i & Hi & ->)%slots_elem|(b & ob & i & Hin & Hi & ->)]; [exists a, o, i|exists b, ob, i]; (split; [auto|]); lia.
Qed.

(** The header of a pool keeps what is not written. *)
Lemma header_keep s A p R F H lk m a k (n : nat) : inv lk s A p R F H ->
  agree (fun x => in_block A x) (k_mem s) m -> p <= a -> a + Z.of_nat n <= p + 4096 -> k = a -> load n m k = load n (k_mem s) a.
Proof.
  intros Hi Hag H1 H2 ->. apply load_agree. eapply agree_mono; [|exact Hag]. intros x Hx.
  exists p, 0. split; [apply (pl_own _ _ _ _ _ _ _ _ Hi); left|]. rewrite sz_0. unfold within in *. lia.
Qed.

(** A new region, once its page is formatted: [m] is the memory then. *)
Lemma region_inv lk s s1 A p R F H a o m : inv lk s A p R F H -> page_block a o -> pa_inv s1 ((a, o) :: A) -> (a, o) ∉ A ->
  let n := region_count osz o in let F' := slots osz (a + 16) (Z.to_nat n) ++ F in
  agree (in_block A) (k_mem s) (k_mem s1) ->
  agree (fun x => ~ within (p + P_TOTAL) 24 x /\ ~ within a (sz o) x) (k_mem s1) m ->
  sll 0 m (load 8 m (p + P_FREE_LIST)) F' -> load 8 m (p + P_REGIONS) = a -> load 8 m (a + R_NEXT) = load 8 (k_mem s) (p + P_REGIONS) ->
  load 4 m (p + P_FREE) = u32 (load 4 (k_mem s) (p + P_FREE) + n) -> load 4 m (p + P_TOTAL) = u32 (load 4 (k_mem s) (p + P_TOTAL) + n) ->
  inv lk (set_mem m s1) ((a, o) :: A) p ((a, o) :: R) F' H /\ agree (client A p R H) (k_mem s) m.
Proof.
  intros Hi Hb Ha1 Hnew n F' Hag0 Hag Hf Hr Hnx Hnf Hnt. pose proof Hi as [I1 I2 I3 I4 I5 I6 I7 I8 I9 I10 I11 I12].
  destruct Hb as (Ho & Ha & _ & Hlim). unfold PHYS_LIMIT in Hlim. destruct (region_some osz Hosz o Ho) as [Hn1 Hn2]. fold n in Hn1, Hn2.
  pose proof (sz_orders o Ho) as Hszo.
  assert (Hfar : forall b ob, (b, ob) ∈ A -> a + sz o <= b \/ b + sz ob <= a) by (intros b ob Hin; by apply (pa_new_disj s1 A a o Ha1 Hnew)).
  assert (HpA : (p, 0) ∈ A) by (apply I9; left). pose proof (Hfar p 0 HpA) as Hpa. rewrite sz_0 in Hpa.
  assert (Hkeep : forall x, in_block A x -> ~ within (p + P_TOTAL) 24 x -> mget m x = mget (k_mem s) x).
  { intros x (b & ob & Hin & Hx) Hp. pose proof (Hfar b ob Hin). rewrite Hag by (unfold within in *; split; [done|lia]). apply Hag0. by exists b, ob. }
  assert (Hhead : forall (k : nat) f, 0 <= f -> f + Z.of_nat k <= P_TOTAL \/ P_LOCK <= f -> f + Z.of_nat k <= 4096 ->
    load k m (p + f) = load k (k_mem s) (p + f)).
  { intros k f Hf0 Hf1 Hf2. apply load_agree. intros x Hx. apply Hkeep; [|parith]. exists p, 0. split; [done|]. rewrite sz_0. parith. }
  split; [split|]; cbn [k_mem set_mem].
  - apply pa_write; [done|]. eapply agree_mono; [|exact Hag]. intros x Hx. split; intros Hw; apply Hx.
    + exists p, 0. split; [by right|]. rewrite sz_0. parith.
    + exists a, o. split; [left|done].
  - rewrite Hhead by parith. done.
  - rewrite Hhead by parith. done.
  - rewrite Hhead by parith. done.
  - done.
  - rewrite Hr. cbn [fst fmap list_fmap sll]. split; [done|]. split; [unfold NULL; lia|]. rewrite Hnx.
    apply (sll_frame R_NEXT (k_mem s)); [|done]. intros b ([b' ob] & -> & Hin)%list_elem_of_fmap x Hx.
    destruct (own_range osz lk s A p R F H Hi b' ob ltac:(by right)) as [Hob _]. pose proof (sz_orders ob Hob).
    pose proof (region_apart osz lk s A p R F H Hi b' ob Hin). cbn [fst] in Hx. apply Hkeep; [|parith].
    exists b', ob. split; [apply I9; by right|parith].
  - rewrite Hnf, I7, u32_add. unfold F'. rewrite length_app, slots_length. f_equal. lia.
  - rewrite Hnt, I8, u32_add. unfold F'. rewrite length_app, slots_length. f_equal. lia.
  - intros b [->|[->|Hin]%elem_of_cons]%elem_of_cons; [by right|left|right; apply I9; by right].
  - apply NoDup_cons in I10 as [J1 J2]. apply NoDup_cons. split; [|apply NoDup_cons; split; [|done]].
    + intros [E|Hin]%elem_of_cons; [|done]. apply Hnew. by rewrite <- E.
    + intros Hin. apply Hnew, I9. by right.
  - intros x. rewrite is_obj_cons, <- I11. unfold F'. rewrite !elem_of_app. tauto.
  - unfold F'. rewrite <- app_assoc. apply NoDup_app. split; [apply slots_nodup; lia|]. split; [|done].
    intros x (i & Hir & ->)%slots_elem Hx. destruct (obj_place osz Hosz lk s A p R F H Hi _ Hx) as (b & ob & Hin & X1 & X2).
    pose proof (Hfar b ob ltac:(apply I9; by right)). pose proof (region_room osz Hosz o i Ho ltac:(unfold n in *; lia)). nia.
  - intros x Hx. destruct (client_apart osz Hosz lk s A p R F H Hi x Hx) as (X1 & _ & _). apply Hkeep; [|parith].
    destruct Hx as [[Hx _]|(ob & Hob & Hx)]; [done|].
    destruct (obj_place osz Hosz lk s A p R F H Hi ob ltac:(apply elem_of_app; by right)) as (b & o' & Hin & Y1 & Y2).
    exists b, o'. split; [apply I9; by right|]. unfold within in *. lia.
Qed.

(** ** Moving objects between the free list and the clients *)

(** A write to the free list, the counter, the lock and the object [x]. *)
Lemma inv_touch lk lk' s m A p R F H F' H' x : inv lk s A p R F H -> F' ++ H' ≡ₚ F ++ H -> x ∈ F ++ H ->
  agree (fun z => ~ within (p + P_FREE) 24 z /\ ~ within x 8 z) (k_mem s) m ->
  sll 0 m (load 8 m (p + P_FREE_LIST)) F' -> load 8 m (p + P_REGIONS) = load 8 (k_mem s) (p + P_REGIONS) ->
  load 4 m (p + P_FREE) = u32 (Z.of_nat (length F')) -> load 4 m (p + P_LOCK) = lk' ->
  inv lk' (set_mem m s) A p R F' H'.
Proof.
  intros Hi Hp Hx Hag Hf Hr Hnf Hlk. pose proof Hi as [I1 I2 I3 I4 I5 I6 I7 I8 I9 I10 I11 I12].
  destruct (obj_range osz Hosz lk s A p R F H Hi x Hx) as (X1 & X2 & X3). destruct (obj_place osz Hosz lk s A p R F H Hi x Hx) as (a & o & Hin & X4 & X5).
  assert (Hhead : forall (k : nat) f, 0 <= f -> f + Z.of_nat k <= P_FREE -> load k m (p + f) = load k (k_mem s) (p + f)).
  { intros k f Hf0 Hf1. apply load_agree. eapply agree_mono; [|exact Hag]. intros z Hz. split; parith. }
  assert (Hlen : (length F' + length H')%nat = (length F + length H)%nat) by (rewrite <- !length_app; by rewrite Hp).
  split; cbn [k_mem set_mem]; try done; try (rewrite Hhead by parith; done).
  - apply pa_write; [done|]. eapply agree_mono; [|exact Hag]. intros z Hz. split; intros Hw; apply Hz.
    + exists p, 0. split; [apply I9; left|]. rewrite sz_0. parith.
    + exists a, o. split; [apply I9; by right|]. parith.
  - rewrite Hr. apply (sll_frame R_NEXT (k_mem s)); [|done]. intros b ([b' ob] & -> & Hb)%list_elem_of_fmap. cbn [fst].
    pose proof (obj_header osz Hosz lk s A p R F H Hi x b' ob Hx Hb). pose proof (region_apart osz lk s A p R F H Hi b' ob Hb).
    destruct (own_range osz lk s A p R F H Hi b' ob ltac:(by right)) as [Hob _]. pose proof (sz_orders ob Hob).
    eapply agree_mono; [|exact Hag]. intros z Hz. split; parith.
  - rewrite Hhead by parith. rewrite I8. do 2 f_equal. lia.
  - intros y. by rewrite Hp.
  - by rewrite Hp.
Qed.

(** The lock word. *)
Lemma pool_lock lk lk' s A p R F H : 0 <= lk' < 2 ^ 32 -> inv lk s A p R F H ->
  let m := store 4 (k_mem s) (p + P_LOCK) lk' in
  inv lk' (set_mem m s) A p R F H /\ agree (client A p R H) (k_mem s) m.
Proof.
  intros Hb Hi m. pose proof Hi as [I1 I2 I3 I4 I5 I6 I7 I8 I9 I10 I11 I12].
  assert (Hag : agree (fun z => ~ within (p + P_LOCK) 4 z) (k_mem s) m) by (apply agree_store; intros z Hz Hw; parith).
  assert (Hhead : forall (k : nat) f, 0 <= f -> f + Z.of_nat k <= P_LOCK -> load k m (p + f) = load k (k_mem s) (p + f)).
  { intros k f Hf0 Hf1. apply load_store_ne. parith. }
  split.
  - split; cbn [k_mem set_mem]; try done; try (rewrite Hhead by parith; done).
    + apply pa_write; [done|]. eapply agree_mono; [|exact Hag]. intros z Hz Hw. apply Hz.
      exists p, 0. split; [apply I9; left|]. rewrite sz_0. parith.
    + by apply load32_store_eq.
    + rewrite Hhead by parith. apply (sll_frame 0 (k_mem s)); [|done]. intros y Hy. eapply agree_mono; [|exact Hag]. intros z Hz.
      destruct (obj_range osz Hosz lk s A p R F H Hi y ltac:(apply elem_of_app; by left)). parith.
    + rewrite Hhead by parith. apply (sll_frame R_NEXT (k_mem s)); [|done]. intros b ([b' ob] & -> & Hin)%list_elem_of_fmap. cbn [fst].
      pose proof (region_apart osz lk s A p R F H Hi b' ob Hin).
      destruct (own_range osz lk s A p R F H Hi b' ob ltac:(by right)) as [Hob _]. pose proof (sz_orders ob Hob).
      eapply agree_mono; [|exact Hag]. intros z Hz. parith.
  - eapply agree_mono; [|exact Hag]. intros z Hz. destruct (client_apart osz Hosz lk s A p R F H Hi z Hz) as (Hn & _). parith.
Qed.

(** Popping the first free object. *)
Lemma pool_pop lk s A p R x F H : inv lk s A p R (x :: F) H ->
  let m1 := store 8 (k_mem s) (p + P_FREE_LIST) (load 8 (k_mem s) x) in
  let m := store 4 m1 (p + P_FREE) (u32 (load 4 m1 (p + P_FREE) - 1)) in
  load 8 (k_mem s) (p + P_FREE_LIST) = x /\ inv lk (set_mem m s) A p R F (x :: H) /\ agree (client A p R H) (k_mem s) m.
Proof.
  intros Hi m1 m. pose proof Hi as [I1 I2 I3 I4 I5 I6 I7 I8 I9 I10 I11 I12]. destruct I5 as (E & Hn & I5). rewrite Z.add_0_r in I5.
  split; [done|]. assert (Hag : agree (fun z => ~ within (p + P_FREE) 12 z) (k_mem s) m).
  { unfold m, m1. intros z Hz. rewrite !mget_store_out by parith. done. }
  split.
  - apply (inv_touch lk lk s m A p R (x :: F) H F (x :: H) x); [done|symmetry; apply Permutation_middle|left| | | | |].
    + eapply agree_mono; [|exact Hag]. intros z [Hz _]. parith.
    + unfold m. rewrite load_store_ne by parith. unfold m1. rewrite load64_store_eq by apply load64_bound.
      apply (sll_frame 0 (k_mem s)); [|done]. intros y Hy. eapply agree_mono; [|exact Hag]. intros z Hz.
      destruct (obj_range osz Hosz lk s A p R _ H Hi y ltac:(right; apply elem_of_app; by left)). parith.
    + unfold m, m1. by rewrite !load_store_ne by parith.
    + unfold m. rewrite load32_store_eq by apply u32_bound. unfold m1. rewrite load_store_ne by parith. rewrite I7.
      replace (u32 (Z.of_nat (length (x :: F))) - 1) with (u32 (Z.of_nat (length (x :: F))) + -1) by lia. rewrite u32_add. f_equal. simpl length. lia.
    + unfold m, m1. by rewrite !load_store_ne by parith.
  - eapply agree_mono; [|exact Hag]. intros z Hz. destruct (client_apart osz Hosz lk s A p R _ H Hi z Hz) as (Hp & _). parith.
Qed.

(** Pushing an object a client held. *)
Lemma pool_push lk s A p R F H1 x H2 : inv lk s A p R F (H1 ++ x :: H2) ->
  let m1 := store 8 (store 8 (k_mem s) x (load 8 (k_mem s) (p + P_FREE_LIST))) (p + P_FREE_LIST) x in
  let m := store 4 m1 (p + P_FREE) (u32 (load 4 m1 (p + P_FREE) + 1)) in
  inv lk (set_mem m s) A p R (x :: F) (H1 ++ H2) /\ agree (client A p R (H1 ++ H2)) (k_mem s) m.
Proof.
  intros Hi m1 m. pose proof Hi as [I1 I2 I3 I4 I5 I6 I7 I8 I9 I10 I11 I12].
  assert (Hx : x ∈ F ++ H1 ++ x :: H2) by (apply elem_of_app; right; eauto with inlist).
  destruct (obj_range osz Hosz lk s A p R F _ Hi x Hx) as (X1 & X2 & X3).
  assert (Hag : agree (fun z => ~ within (p + P_FREE) 12 z /\ ~ within x 8 z) (k_mem s) m).
  { unfold m, m1. intros z Hz. rewrite !mget_store_out by parith. done. }
  assert (Hp : (x :: F) ++ H1 ++ H2 ≡ₚ F ++ H1 ++ x :: H2).
  { cbn [app]. rewrite !app_assoc. apply Permutation_middle. }
  pose proof I12 as Hd. rewrite <- Hp in Hd. cbn [app] in Hd. apply NoDup_cons in Hd as [Hd1 Hd2].
  split.
  - apply (inv_touch lk lk s m A p R F (H1 ++ x :: H2) (x :: F) (H1 ++ H2) x); [done|done|done| | | | |].
    + eapply agree_mono; [|exact Hag]. intros z [Hz Hz']. split; [parith|done].
    + unfold m. rewrite load_store_ne by parith. unfold m1. rewrite load64_store_eq by lia.
      apply (sll_frame 0 (store 8 (k_mem s) x (load 8 (k_mem s) (p + P_FREE_LIST)))).
      { intros y Hy z Hz. assert (Hyo : y ∈ F ++ H1 ++ x :: H2).
        { apply elem_of_cons in Hy as [->|Hy]; [done|apply elem_of_app; by left]. }
        destruct (obj_range osz Hosz lk s A p R F _ Hi y Hyo). rewrite !(mget_store_out _ _ (p + _)) by parith. done. }
      rewrite <- (Z.add_0_r x) at 1. apply sll_push; [done|unfold NULL; lia|apply load64_bound|].
      intros y Hy. assert (x <> y) by (intros ->; apply Hd1; apply elem_of_app; by left).
      pose proof (obj_apart osz Hosz lk s A p R F _ Hi x y Hx ltac:(apply elem_of_app; by left) ltac:(done)). lia.
    + unfold m, m1. by rewrite !load_store_ne by parith.
    + unfold m. rewrite load32_store_eq by apply u32_bound. unfold m1. rewrite !load_store_ne by parith. rewrite I7.
      rewrite u32_add. f_equal. simpl length. lia.
    + unfold m, m1. by rewrite !load_store_ne by parith.
  - eapply agree_mono; [|exact Hag]. intros z Hz.
    assert (Hz' : client A p R (H1 ++ x :: H2) z).
    { destruct Hz as [Hz|(y & Hy & Hz)]; [by left|right]. exists y. split; [|done]. rewrite elem_of_app in Hy. rewrite elem_of_app, elem_of_cons. tauto. }
    destruct (client_apart osz Hosz lk s A p R _ _ Hi z Hz') as (Hn & Hreg & _). split; [parith|]. intros Hw.
    destruct Hz as [[_ Hb]|(y & Hy & Hz)].
    + apply Hb. destruct (obj_place osz Hosz lk s A p R F _ Hi x Hx) as (a & o & Hin & X4 & X5). exists a, o. split; [by right|parith].
    + assert (x <> y) by (intros ->; apply Hd1; apply elem_of_app; by right).
      pose proof (obj_apart osz Hosz lk s A p R F _ Hi x y Hx) as Hap. rewrite elem_of_app in Hy. rewrite !elem_of_app, elem_of_cons in Hap.
      specialize (Hap ltac:(tauto) ltac:(done)). parith.
Qed.

(** What growing by the region [(a, o)] gives: all its objects are free, in front of the others. *)
Definition region_objs (a o : Z) : list Z := slots osz (a + 16) (Z.to_nat (region_count osz o)).
Definition grown (lk : Z) (s : kst) (A : blocks) (p : Z) (R : blocks) (F H : list Z) (a o : Z) (s' : kst) : Prop :=
  (a, o) ∉ A /\ inv lk s' ((a, o) :: A) p ((a, o) :: R) (region_objs a o ++ F) H /\ region_objs a o <> [] /\ same_statics s s' /\
  agree (client A p R H) (k_mem s) (k_mem s').

(** Free objects lie outside a region that was just allocated and outside the pool's page. *)
Lemma free_apart lk s s1 A p R F H a o x : inv lk s A p R F H -> pa_inv s1 ((a, o) :: A) -> (a, o) ∉ A -> x ∈ F ->
  (x + 8 <= a \/ a + sz o <= x) /\ (x + 8 <= p \/ p + 4096 <= x).
Proof.
  intros Hi Ha1 Hnew Hx. pose proof Hi as [I1 I2 I3 I4 I5 I6 I7 I8 I9 I10 I11 I12].
  destruct (obj_place osz Hosz lk s A p R F H Hi x ltac:(apply elem_of_app; by left)) as (b & ob & Hin & X1 & X2).
  pose proof (pa_new_disj s1 A a o Ha1 Hnew b ob ltac:(apply I9; by right)). pose proof (region_apart osz lk s A p R F H Hi b ob Hin).
  unfold disj in *. lia.
Qed.

(** So the free list survives every write there. *)
Lemma free_list_kept lk s s1 m A p R F H a o h : inv lk s A p R F H -> pa_inv s1 ((a, o) :: A) -> (a, o) ∉ A ->
  agree (in_block A) (k_mem s) (k_mem s1) -> agree (fun x => ~ within (p + P_REGIONS) 8 x /\ ~ within a 16 x) (k_mem s1) m ->
  0 <= o <= 10 -> sll 0 (k_mem s) h F -> sll 0 m h F.
Proof.
  intros Hi Ha1 Hnew Hag Hag3 Ho. pose proof (sz_orders o Ho). pose proof Hi as [I1 I2 I3 I4 I5 I6 I7 I8 I9 I10 I11 I12].
  apply sll_frame. intros x Hx y Hy. destruct (free_apart lk s s1 A p R F H a o x Hi Ha1 Hnew Hx).
  rewrite Hag3 by parith. apply Hag.
  destruct (obj_place osz Hosz lk s A p R F H Hi x ltac:(apply elem_of_app; by left)) as (b & ob & Hin & X1 & X2).
  exists b, ob. split; [apply I9; by right|parith].
Qed.

(** Adding a region that was just allocated. *)
Lemma add_region_ok lk s s1 A p R F H a o : inv lk s A p R F H -> page_block a o -> pa_inv s1 ((a, o) :: A) -> (a, o) ∉ A ->
  same_statics s s1 -> agree (in_block A) (k_mem s) (k_mem s1) ->
  wp (add_region p a (2 ^ o)) (fun r s' => r = 0 /\ mem_only s1 s' /\ grown lk s A p R F H a o s') s1.
Proof.
  intros Hi Hb Ha1 Hnew Hst Hag. pose proof Hi as [I1 I2 I3 I4 I5 I6 I7 I8 I9 I10 I11 I12].
  destruct (own_range osz lk s A p R F H Hi p 0 ltac:(left)) as (_ & Hp & Hp2). rewrite sz_0 in Hp2.
  pose proof Hb as (Ho & Ha & _ & Hlim). unfold PHYS_LIMIT in Hlim. pose proof (sz_orders o Ho) as Hszo. unfold add_region.
  assert (Hfar : forall b ob, (b, ob) ∈ A -> a + sz o <= b \/ b + sz ob <= a) by (intros b ob Hin; by apply (pa_new_disj s1 A a o Ha1 Hnew)).
  pose proof (Hfar p 0 ltac:(apply I9; left)) as Hpa. rewrite sz_0 in Hpa.
  apply wp_bind, wp_modify, wp_bind, wp_gets, wp_bind, wp_modify, wp_bind, wp_modify, wp_bind, wp_gets. cbn [k_mem set_mem]. rewrite !set_mem_set_mem.
  rewrite (load_store_ne 8 8 (k_mem s1) (p + P_REGIONS)) by parith.
  rewrite (header_keep s A p R F H lk (k_mem s1) (p + P_REGIONS) _ 8 Hi Hag) by (try done; parith).
  set (rg := load 8 (k_mem s) (p + P_REGIONS)). pose proof (load64_bound (k_mem s) (p + P_REGIONS)) as Hrg. fold rg in Hrg.
  set (m3 := store 8 (store 8 (store 8 (k_mem s1) (a + R_BASE) a) (a + R_NEXT) rg) (p + P_REGIONS) a).
  assert (Hag3 : agree (fun x => ~ within (p + P_REGIONS) 8 x /\ ~ within a 16 x) (k_mem s1) m3).
  { unfold m3. intros x Hx. rewrite !mget_store_out by parith. done. }
  assert (K1 : load 8 m3 (p + P_REGIONS) = a) by (unfold m3; apply load64_store_eq; lia).
  assert (K2 : load 8 m3 (a + R_NEXT) = rg) by (unfold m3; rewrite load_store_ne by parith; by apply load64_store_eq).
  assert (Hhead : forall (k : nat) f, 0 <= f -> f + Z.of_nat k <= P_REGIONS \/ P_LOCK <= f -> f + Z.of_nat k <= 4096 ->
    load k m3 (p + f) = load k (k_mem s) (p + f)).
  { intros k f Hf0 Hf1 Hf2. transitivity (load k (k_mem s1) (p + f)).
    - apply load_agree. eapply agree_mono; [|exact Hag3]. intros x Hx. split; parith.
    - apply (header_keep s A p R F H lk); try done; parith. }
  clearbody m3. rewrite (Hhead 8%nat P_OBJECT_SIZE), I2 by parith. rewrite (proj2 (Z.eqb_neq osz 0)) by lia.
  assert (Eu : u32 (2 ^ o * BUDDY_PAGE_SIZE) - SIZEOF_REGION = sz o - 16).
  { unfold BUDDY_PAGE_SIZE, SIZEOF_REGION. rewrite (u32_id (2 ^ o * 4096)) by (unfold sz in Hszo; lia). unfold sz. lia. }
  rewrite Eu. fold (region_count osz o). destruct (region_some osz Hosz o Ho) as [Hn1 Hn2]. set (n := region_count osz o) in *. rewrite (u32_id n) by lia.
  pose proof (fun x => free_apart lk s s1 A p R F H a o x Hi Ha1 Hnew) as Hobj.
  apply wp_bind. unfold SIZEOF_REGION. apply (pool_thread osz Hosz (set_mem m3 s1) p a n (sz o) F); cbn [k_mem set_mem].
  - rewrite Hhead by parith. done.
  - lia.
  - lia.
  - unfold n, region_count. pose proof (Z.mul_div_le (sz o - 16) osz ltac:(lia)). lia.
  - lia.
  - lia.
  - exact Hobj.
  - rewrite Hhead by parith. by eapply free_list_kept.
  - intros m4 Hag4 Hl4. rewrite !set_mem_set_mem.
    apply wp_bind, wp_gets, wp_bind, wp_modify, wp_bind, wp_gets, wp_bind, wp_modify, wp_ret. cbn [k_mem set_mem]. rewrite !set_mem_set_mem. split; [done|]. split; [done|].
    assert (H4 : forall (k : nat) f, 0 <= f -> f + Z.of_nat k <= P_FREE_LIST -> load k m4 (p + f) = load k (k_mem s) (p + f)).
    { intros k f Hf0 Hf1. rewrite <- Hhead by parith. apply load_agree. eapply agree_mono; [|exact Hag4]. intros x Hx. split; parith. }
    rewrite (load_store_ne 4 4 m4 (p + P_FREE)) by parith. rewrite !H4 by parith.
    set (m6 := store 4 (store 4 m4 _ _) _ _).
    destruct (region_inv lk s s1 A p R F H a o m6 Hi Hb Ha1 Hnew Hag) as [Hinv Hcl]; fold n.
    + etrans; [eapply agree_mono; [|exact Hag3]|etrans; [eapply agree_mono; [|exact Hag4]|]]; [intros x Hx; split; parith|intros x Hx; split; parith|].
      intros x Hx. unfold m6. rewrite !mget_store_out by parith. done.
    + unfold m6. rewrite !load_store_ne by parith. apply (sll_frame 0 m4); [|exact Hl4]. intros x Hx y Hy.
      assert (x + 8 <= p \/ p + 4096 <= x).
      { apply elem_of_app in Hx as [(i & Hir & ->)%slots_elem|Hx]; [|by apply Hobj].
        pose proof (region_room osz Hosz o i Ho ltac:(fold n; lia)). nia. }
      rewrite !mget_store_out by parith. done.
    + unfold m6. rewrite !load_store_ne by parith. rewrite <- K1. apply load_agree. eapply agree_mono; [|exact Hag4]. intros x Hx. split; parith.
    + unfold m6. rewrite !load_store_ne by parith. fold rg. rewrite <- K2. apply load_agree. eapply agree_mono; [|exact Hag4]. intros x Hx. split; parith.
    + unfold m6. apply load32_store_eq, u32_bound.
    + unfold m6. rewrite load_store_ne by parith. apply load32_store_eq, u32_bound.
    + split; [done|]. split; [exact Hinv|]. split; [|by split]. unfold region_objs. fold n.
      destruct (Z.to_nat n) eqn:En; [lia|done].
Qed.

(** The page source of the regions. *)
Context (Hserve : forall o, 0 <= o <= 10 -> serves pa_inv o (buddy_alloc_pages o BUDDY_ZONE_RECLAIMABLE)).

(** The pages of a region for [count] more objects, the header not counted. *)
Definition region_pages (count : Z) : Z := (count * osz + 4095) / 4096.

Lemma region_pages_exact count : 0 <= count < 2 ^ 32 -> u32 (u64 (u64 (count * osz) + BUDDY_PAGE_SIZE - 1) / BUDDY_PAGE_SIZE) = region_pages count.
Proof using Hosz.
  intros Hc. assert (0 <= count * osz < 2 ^ 44) by nia. unfold region_pages, BUDDY_PAGE_SIZE. rewrite (u64_id (count * osz)) by lia. rewrite u64_id by lia.
  replace (count * osz + 4096 - 1) with (count * osz + 4095) by lia. apply u32_id. split; [apply Z.div_pos; lia|].
  apply Z.div_lt_upper_bound; nia.
Qed.

Lemma pool_grow_ok lk s A p R F H count : inv lk s A p R F H -> 0 < count < 2 ^ 32 ->
  wp (pool_grow p count) (fun r s' => exists o, least_order (region_pages count) o /\
    ((r = -1 /\ s' = s /\ buddy_alloc_pages o BUDDY_ZONE_RECLAIMABLE s = Done 0 s) \/
     (r = 0 /\ exists a s1, buddy_alloc_pages o BUDDY_ZONE_RECLAIMABLE s = Done a s1 /\ a <> 0 /\ grown lk s A p R F H a o s'))) s.
Proof.
  intros Hi Hc. pose proof Hi as [I1 I2 I3 I4 I5 I6 I7 I8 I9 I10 I11 I12].
  destruct (own_range osz lk s A p R F H Hi p 0 ltac:(left)) as (_ & Hp & Hp2). rewrite sz_0 in Hp2.
  unfold pool_grow. rewrite (proj2 (Z.eqb_neq p NULL)), (proj2 (Z.eqb_neq count 0)) by (unfold NULL; lia). cbn [orb].
  apply wp_bind, wp_gets. rewrite I2. cbv zeta. rewrite region_pages_exact by lia. destruct (region_order_ok (region_pages count) s) as (o & Hord & Hleast). pose proof Hleast as (Ho & _).
  apply wp_bind. eapply wp_of_Done; [exact Hord|].
  destruct (Hserve o Ho s A I1) as (a & s1 & Hal & Hst & Hcase). apply wp_bind. eapply wp_of_Done; [exact Hal|].
  destruct Hcase as [[-> ->]|(Hb & Ha1 & Hnew & Hag)]; [apply wp_ret; exists o; split; [done|by left]|].
  assert (Ha0 : a <> 0) by (destruct Hb; lia). rewrite (proj2 (Z.eqb_neq a 0)) by done.
  eapply wp_mono; [by apply (add_region_ok lk s s1 A p R F H a o)|].
  intros r s' (-> & _ & Hg). exists o. split; [done|]. right. split; [done|]. by exists a, s1.
Qed.

(** ** The properties *)

(** The state in which [pool_alloc] asks for pages: the lock of the pool is held. *)
Definition pool_held (p : Z) (s : kst) : kst := set_mem (store 4 (k_mem s) (p + P_LOCK) 1) s.

(** The pool of a client after an allocation.  The first free object goes to the client; a
    pool without one asks for a block, of the least order that has room for as many objects
    as the pool grows by, and gets all its objects - or there is no such block. *)
Definition pool_allocated (s : kst) (A : blocks) (p : Z) (R : blocks) (F H : list Z) (x : Z) (s' : kst) : Prop :=
  same_statics s s' /\ agree (client A p R H) (k_mem s) (k_mem s') /\
  (x <> NULL -> forall z, client A p R H z -> ~ within x osz z) /\
  match F with
  | y :: F' => x = y /\ x <> NULL /\ inv 0 s' A p R F' (x :: H)
  | [] => exists o, least_order (region_pages (load 4 (k_mem s) (p + P_GROW_COUNT))) o /\
      let request := buddy_alloc_pages o BUDDY_ZONE_RECLAIMABLE (pool_held p s) in
      ((x = NULL /\ request = Done 0 (pool_held p s) /\ inv 0 s' A p R [] H) \/
       (x <> NULL /\ exists a s1 F', request = Done a s1 /\ a <> 0 /\ (a, o) ∉ A /\ region_objs a o = x :: F' /\
          inv 0 s' ((a, o) :: A) p ((a, o) :: R) F' (x :: H)))
  end.

(** The object that is popped is none of the clients'. *)
Lemma popped_fresh lk s A p R x F H z : inv lk s A p R (x :: F) H -> client A p R H z -> ~ within x osz z.
Proof. intros Hi Hz. destruct (client_apart osz Hosz lk s A p R _ H Hi z Hz) as (_ & _ & Hn). apply Hn. left. Qed.

(** The end of [pool_alloc], with an object in the list. *)
Lemma pop_runs s A p R x F H : inv 1 s A p R (x :: F) H ->
  wp (chunk ← load64 (p + P_FREE_LIST);
      next ← load64 chunk;
      store64 (p + P_FREE_LIST) next ;;
      free ← load32 (p + P_FREE);
      store32 (p + P_FREE) (u32 (free - 1)) ;;
      spinlock_release (p + P_LOCK) ;;
      mret chunk) (fun r s' => r = x /\ x <> NULL /\ mem_only s s' /\ inv 0 s' A p R F (x :: H) /\ agree (client A p R H) (k_mem s) (k_mem s')) s.
Proof.
  intros Hi. destruct (pool_pop 1 s A p R x F H Hi) as (E & Hi1 & Hag1). destruct (pool_lock 1 0 _ A p R F (x :: H) ltac:(lia) Hi1) as [Hi2 Hag2].
  cbn zeta in Hi2, Hag2.
  apply wp_bind, wp_gets. rewrite E. apply wp_bind, wp_gets, wp_bind, wp_modify, wp_bind, wp_gets, wp_bind, wp_modify, wp_bind, wp_modify, wp_ret.
  split; [done|]. split; [by destruct (pl_free _ _ _ _ _ _ _ _ Hi) as (_ & Hn & _)|]. split; [done|]. split; [exact Hi2|].
  etrans; [exact Hag1|]. eapply agree_mono; [|exact Hag2]. intros z [Hz|(y & Hy & Hz)]; [by left|right]. exists y. split; [by right|done].
Qed.

(** A new region takes nothing from the clients. *)
Lemma client_grow lk s A p R F H a o z : inv lk s ((a, o) :: A) p ((a, o) :: R) F H -> (a, o) ∉ A -> client A p R H z -> client ((a, o) :: A) p ((a, o) :: R) H z.
Proof.
  intros Hi Hn [[Hb Hnb]|Hz]; [left|by right]. split.
  - destruct Hb as (b & ob & Hin & Hw). exists b, ob. split; [by right|done].
  - intros (b & ob & Hin & Hw). apply elem_of_cons in Hin as [E|[E|Hin]%elem_of_cons].
    + apply Hnb. exists b, ob. split; [rewrite E; left|done].
    + injection E as -> ->. destruct Hb as (b & ob & Hin & Hw').
      pose proof (pa_new_disj s A a o (pl_alloc _ _ _ _ _ _ _ _ Hi) Hn b ob Hin) as Hd. unfold disj, within in *. lia.
    + apply Hnb. exists b, ob. split; [by right|done].
Qed.

Lemma pool_alloc_runs s A p R F H : inv 0 s A p R F H -> exists x s', pool_alloc p s = Done x s' /\ pool_allocated s A p R F H x s'.
Proof.
  intros Hi. apply wp_Done.
  destruct (own_range osz 0 s A p R F H Hi p 0 ltac:(left)) as (_ & Hp & _).
  unfold pool_alloc. rewrite (proj2 (Z.eqb_neq p NULL)) by (unfold NULL; lia).
  destruct (pool_lock 0 1 s A p R F H ltac:(lia) Hi) as [Hi1 Hag1]. cbn zeta in Hi1, Hag1.
  apply wp_bind. unfold spinlock_acquire at 1. apply wp_bind, wp_gets. rewrite (pl_lock _ _ _ _ _ _ _ _ Hi). cbn [Z.eqb]. apply wp_modify.
  fold (pool_held p s) in *. set (s1 := pool_held p s) in *. apply wp_bind, wp_gets. destruct F as [|x F].
  - rewrite (pl_free _ _ _ _ _ _ _ _ Hi1 : _ = NULL), Z.eqb_refl. apply wp_bind, wp_bind, wp_gets.
    assert (Eg : load 4 (k_mem s1) (p + P_GROW_COUNT) = load 4 (k_mem s) (p + P_GROW_COUNT)) by (unfold s1, pool_held; cbn [k_mem set_mem]; rewrite load_store_ne by parith; done).
    rewrite Eg. eapply wp_mono; [apply (pool_grow_ok 1 s1 A p R [] H _ Hi1); rewrite <- Eg; pose proof (pl_grow _ _ _ _ _ _ _ _ Hi1); pose proof (load_bound 4 (k_mem s1) (p + P_GROW_COUNT)); change (2 ^ (8 * Z.of_nat 4)) with (2 ^ 32) in *; lia|].
    intros r s2 (o & Hleast & [(-> & -> & Hno)|(-> & a & sa & Hal & Ha0 & Hn & Hi2 & HF & Hst & Hag2)]); cbn [Z.ltb Z.compare].
    + apply wp_bind, wp_modify, wp_ret. destruct (pool_lock 1 0 s1 A p R [] H ltac:(lia) Hi1) as [Hi2 Hag2]. cbn zeta in Hi2, Hag2.
      split; [done|]. split; [by etrans|]. split; [done|]. exists o. split; [done|]. left. by split.
    + rewrite app_nil_r in Hi2. destruct (region_objs a o) as [|x F'] eqn:Er; [done|]. eapply wp_mono; [by apply (pop_runs s2)|]. intros r s3 (-> & Hx & Hmo & Hi3 & Hag3).
      pose proof (fun z => client_grow 1 s2 A p R (x :: F') H a o z Hi2 Hn) as Hcl.
      split; [rewrite Hmo; exact Hst|]. split; [etrans; [exact Hag1|]; etrans; [exact Hag2|]; eapply agree_mono; [exact Hcl|exact Hag3]|]. split.
      * intros _ z Hz. by apply (popped_fresh 1 s2 _ p _ x F' H z Hi2), Hcl.
      * exists o. split; [done|]. right. split; [done|]. exists a, sa, F'. done.
  - destruct (pl_free _ _ _ _ _ _ _ _ Hi1) as (E & Hn & _). rewrite E, (proj2 (Z.eqb_neq x NULL)) by done.
    apply wp_bind, wp_ret. cbn [Z.ltb Z.compare]. eapply wp_mono; [by apply (pop_runs s1)|]. intros r s3 (-> & Hx & Hmo & Hi3 & Hag3).
    split; [by rewrite Hmo|]. split; [by etrans|]. split; [|by split].
    intros _ z. by apply (popped_fresh 0 s A p R x F H).
Qed.


(** [pool_free] of an object a client holds makes it the first free object; nothing the
    clients still have is written.  A NULL pool or object is refused. *)
Theorem pool_free_correct : (forall x s, pool_free NULL x s = Done tt s) /\ (forall p s, pool_free p NULL s = Done tt s) /\
  forall s A p R F H1 x H2, inv 0 s A p R F (H1 ++ x :: H2) ->
    exists s', pool_free p x s = Done tt s' /\ mem_only s s' /\ inv 0 s' A p R (x :: F) (H1 ++ H2) /\
      agree (client A p R (H1 ++ H2)) (k_mem s) (k_mem s').
Proof.
  split; [done|]. split; [intros p s; unfold pool_free; by rewrite orb_true_r|]. intros s A p R F H1 x H2 Hi.
  destruct (own_range osz 0 s A p R F _ Hi p 0 ltac:(left)) as (_ & Hp & _).
  destruct (obj_range osz Hosz 0 s A p R F _ Hi x ltac:(apply elem_of_app; right; eauto with inlist)) as (Hx & _).
  destruct (pool_lock 0 1 s A p R F _ ltac:(lia) Hi) as [Hi1 Hag1]. destruct (pool_push 1 _ A p R F H1 x H2 Hi1) as [Hi2 Hag2].
  destruct (pool_lock 1 0 _ A p R _ _ ltac:(lia) Hi2) as [Hi3 Hag3]. cbn zeta in Hi2, Hag1, Hag2, Hi3, Hag3. eexists. split.
  { unfold pool_free. rewrite (proj2 (Z.eqb_neq p NULL)), (proj2 (Z.eqb_neq x NULL)) by (unfold NULL; lia). cbn [orb].
    unfold spinlock_acquire, mbind, M_bind, load32, gets. rewrite (pl_lock _ _ _ _ _ _ _ _ Hi). cbn [Z.eqb]. reflexivity. }
  split; [done|]. split; [exact Hi3|]. etrans; [eapply agree_mono; [|exact Hag1]|etrans; [exact Hag2|exact Hag3]].
  intros z [Hz|(y & Hy & Hz)]; [by left|right]. exists y. split; [|done]. rewrite elem_of_app in Hy. rewrite elem_of_app, elem_of_cons. tauto.
Qed.
End pool.

(** ** A concrete pool of 64-byte objects without a region, and a page to grow by *)

#[local] Instance demo_source : PageAllocator 0 (buddy_alloc_pages 0 BUDDY_ZONE_UNMOVABLE) (fun a => buddy_free_pages a 0) :=
  zoned_buddy 0 BUDDY_ZONE_UNMOVABLE ltac:(done) ltac:(done).

Lemma pool_demo_serves o : 0 <= o <= 10 -> serves (@pa_inv _ _ _ demo_source) o (buddy_alloc_pages o BUDDY_ZONE_RECLAIMABLE).
Proof. intros Ho. apply zd_serves; [lia|done]. Qed.

Lemma pool_demo_osz : 8 <= 64 <= 4080.
Proof. lia. Qed.

Lemma pool_demo_bd : @pa_inv _ _ _ demo_source demo_state [].
Proof.
  destruct demo_hist as [fl H]. apply bd_zoned. exists demo_start, demo_size, fl. split; [|exact H]. split; [apply demo_region|].
  vm_compute. discriminate.
Qed.

(** The page of the pool; then a second page is taken and given to the RECLAIMABLE zone. *)
Definition pool_demo_p : Z := 0x10A000.
Definition pool_demo_r : Z := 0x108000.
Definition pool_demo_page : kst := final (buddy_alloc_pages 0 BUDDY_ZONE_UNMOVABLE demo_state) boot_state.
Definition pool_demo_two : kst := final (buddy_alloc_pages 0 BUDDY_ZONE_UNMOVABLE pool_demo_page) boot_state.
Definition pool_demo_given : kst := give_page BUDDY_ZONE_RECLAIMABLE pool_demo_r pool_demo_two.
Definition pool_demo_empty : kst :=
  set_mem (store 4 (store 8 (k_mem pool_demo_given) (pool_demo_p + P_OBJECT_SIZE) 64) (pool_demo_p + P_GROW_COUNT) 1) pool_demo_given.

Lemma pool_demo_alloc_page s A r s' : @pa_inv _ _ _ demo_source s A -> buddy_alloc_pages 0 BUDDY_ZONE_UNMOVABLE s = Done r s' -> r <> 0 ->
  @pa_inv _ _ _ demo_source s' ((r, 0) :: A).
Proof.
  intros Hi Hrun Hr. destruct (pa_alloc s A Hi) as (r' & s1 & Hrun' & Hst & Hcase). rewrite Hrun in Hrun'. apply Done_inj in Hrun' as [<- <-].
  destruct Hcase as [[E _]|(_ & H & _)]; [done|exact H].
Qed.

Lemma pool_demo_given_inv : @pa_inv _ _ _ demo_source pool_demo_given [(pool_demo_p, 0)].
Proof.
  assert (H1 : buddy_alloc_pages 0 BUDDY_ZONE_UNMOVABLE demo_state = Done pool_demo_p pool_demo_page) by (apply run_final; vm_compute; reflexivity).
  assert (H2 : buddy_alloc_pages 0 BUDDY_ZONE_UNMOVABLE pool_demo_page = Done pool_demo_r pool_demo_two) by (apply run_final; vm_compute; reflexivity).
  pose proof (pool_demo_alloc_page _ _ _ _ pool_demo_bd H1 ltac:(discriminate)) as Hi1.
  pose proof (pool_demo_alloc_page _ _ _ _ Hi1 H2 ltac:(discriminate)) as Hi2.
  exact (proj1 (give_page_zoned BUDDY_ZONE_RECLAIMABLE pool_demo_two [] pool_demo_r [(pool_demo_p, 0)] ltac:(vm_compute; split; [discriminate|reflexivity]) Hi2)).
Qed.

Lemma pool_demo_empty_inv : pool_inv 64 0 pool_demo_empty [(pool_demo_p, 0)] pool_demo_p [] [] [].
Proof.
  assert (V1 : load 8 (k_mem pool_demo_empty) (pool_demo_p + P_OBJECT_SIZE) = 64) by (vm_compute; reflexivity).
  assert (V2 : load 4 (k_mem pool_demo_empty) (pool_demo_p + P_GROW_COUNT) = 1) by (vm_compute; reflexivity).
  assert (V3 : load 4 (k_mem pool_demo_empty) (pool_demo_p + P_LOCK) = 0) by (vm_compute; reflexivity).
  assert (V4 : load 8 (k_mem pool_demo_empty) (pool_demo_p + P_FREE_LIST) = 0) by (vm_compute; reflexivity).
  assert (V5 : load 8 (k_mem pool_demo_empty) (pool_demo_p + P_REGIONS) = 0) by (vm_compute; reflexivity).
  assert (V6 : load 4 (k_mem pool_demo_empty) (pool_demo_p + P_FREE) = 0) by (vm_compute; reflexivity).
  assert (V7 : load 4 (k_mem pool_demo_empty) (pool_demo_p + P_TOTAL) = 0) by (vm_compute; reflexivity).
  split.
  - apply pa_write; [exact pool_demo_given_inv|]. intros x Hx. assert (~ within pool_demo_p 4096 x).
    { intros Hw. apply Hx. exists pool_demo_p, 0. split; [left|]. by rewrite sz_0. }
    unfold pool_demo_p in *. rewrite !mget_store_out by parith. reflexivity.
  - exact V1.
  - rewrite V2. discriminate.
  - exact V3.
  - exact V4.
  - exact V5.
  - exact V6.
  - exact V7.
  - intros b Hb. exact Hb.
  - apply NoDup_singleton.
  - intros x. clear. split; [by intros ?%not_elem_of_nil|]. intros (a & o & i & Hin & _). by apply not_elem_of_nil in Hin.
  - apply NoDup_nil_2.
Qed.

Definition pool_demo_obj : Z := 0x108F90.
Definition pool_demo_out : kst := final (pool_alloc pool_demo_p pool_demo_empty) boot_state.

Lemma pool_demo_alloc : pool_alloc pool_demo_p pool_demo_empty = Done pool_demo_obj pool_demo_out.
Proof. apply run_final. vm_compute. reflexivity. Qed.

(** The order [pool_destroy] guesses for the page of this region, whose order is 0. *)
Lemma pool_destroy_guess : result (guess_order pool_demo_r boot_state) = Some 3.
Proof. vm_compute. reflexivity. Qed.

(** ** Witnesses *)


Lemma pool_demo_out_inv : exists A R F, pool_inv 64 0 pool_demo_out A pool_demo_p R F ([] ++ pool_demo_obj :: []).
Proof.
  destruct (pool_alloc_runs 64 pool_demo_osz pool_demo_serves pool_demo_empty _ pool_demo_p [] [] [] pool_demo_empty_inv) as (x & s' & Hrun & _ & _ & _ & o & _ & Hx).
  rewrite pool_demo_alloc in Hrun. apply Done_inj in Hrun as [<- <-].
  destruct Hx as [(E & _)|(_ & a & s1 & F & _ & _ & _ & _ & Hi')]; [discriminate E|]. by eexists _, _, F.
Qed.

Lemma pool_free_correct_witness : exists s' A R F, pool_free pool_demo_p pool_demo_obj pool_demo_out = Done tt s' /\
  pool_inv 64 0 s' A pool_demo_p R (pool_demo_obj :: F) [].
Proof.
  destruct pool_demo_out_inv as (A & R & F & Hi). destruct (pool_free_correct 64 pool_demo_osz) as (_ & _ & H).
  destruct (H pool_demo_out A pool_demo_p R F [] pool_demo_obj [] Hi) as (s' & Hrun & _ & Hi' & _). exists s', A, R, F. split; [exact Hrun|exact Hi'].
Defined.
