(* ===== verification/PageCache.v ===== *)
(** kernel/mm/page_cache.c: the cache of file pages.  A table of chains, one per hash
    value, finds an entry by its file and offset; a doubly linked list through the same
    entries, [lru_head] to [lru_tail], says which entry is evicted. *)
From S2P Require Import Prelude Machine Buddy KString Slab.

#[local] Opaque load store.

Definition DEFAULT_HASH_SIZE : Z := 1024.
Definition HASH_SIZE_MASK : Z := DEFAULT_HASH_SIZE - 1.

(** Field offsets of [page_cache_entry_t]. *)
Definition E_FILE_ID : Z := 0.
Definition E_OFFSET : Z := 8.
Definition E_PHYSICAL : Z := 16.
Definition E_LAST_ACCESS : Z := 24.
Definition E_FLAGS : Z := 32.
Definition E_HASH_NEXT : Z := 40.
Definition E_LRU_NEXT : Z := 48.
Definition E_LRU_PREV : Z := 56.

(** Assignments to the fields of [g_page_cache] and to the static [counter]. *)
Definition upd_pc (f : pc_st -> pc_st) (s : kst) : kst := set_pc (f (k_pc s)) s.
Definition pc_set_table (v : Z) (c : pc_st) : pc_st :=
  mkPc v (pc_hash_size c) (pc_lru_head c) (pc_lru_tail c) (pc_total_pages c) (pc_max_pages c)
       (pc_cache_hits c) (pc_cache_misses c) (pc_lock c) (pc_counter c).
Definition pc_set_size (v : Z) (c : pc_st) : pc_st :=
  mkPc (pc_hash_table c) v (pc_lru_head c) (pc_lru_tail c) (pc_total_pages c) (pc_max_pages c)
       (pc_cache_hits c) (pc_cache_misses c) (pc_lock c) (pc_counter c).
Definition pc_set_head (v : Z) (c : pc_st) : pc_st :=
  mkPc (pc_hash_table c) (pc_hash_size c) v (pc_lru_tail c) (pc_total_pages c) (pc_max_pages c)
       (pc_cache_hits c) (pc_cache_misses c) (pc_lock c) (pc_counter c).
Definition pc_set_tail (v : Z) (c : pc_st) : pc_st :=
  mkPc (pc_hash_table c) (pc_hash_size c) (pc_lru_head c) v (pc_total_pages c) (pc_max_pages c)
       (pc_cache_hits c) (pc_cache_misses c) (pc_lock c) (pc_counter c).
Definition pc_set_total (v : Z) (c : pc_st) : pc_st :=
  mkPc (pc_hash_table c) (pc_hash_size c) (pc_lru_head c) (pc_lru_tail c) v (pc_max_pages c)
       (pc_cache_hits c) (pc_cache_misses c) (pc_lock c) (pc_counter c).
Definition pc_set_max (v : Z) (c : pc_st) : pc_st :=
  mkPc (pc_hash_table c) (pc_hash_size c) (pc_lru_head c) (pc_lru_tail c) (pc_total_pages c) v
       (pc_cache_hits c) (pc_cache_misses c) (pc_lock c) (pc_counter c).
Definition pc_set_hits (v : Z) (c : pc_st) : pc_st :=
  mkPc (pc_hash_table c) (pc_hash_size c) (pc_lru_head c) (pc_lru_tail c) (pc_total_pages c) (pc_max_pages c)
       v (pc_cache_misses c) (pc_lock c) (pc_counter c).
Definition pc_set_misses (v : Z) (c : pc_st) : pc_st :=
  mkPc (pc_hash_table c) (pc_hash_size c) (pc_lru_head c) (pc_lru_tail c) (pc_total_pages c) (pc_max_pages c)
       (pc_cache_hits c) v (pc_lock c) (pc_counter c).
Definition pc_set_lock (v : Z) (c : pc_st) : pc_st :=
  mkPc (pc_hash_table c) (pc_hash_size c) (pc_lru_head c) (pc_lru_tail c) (pc_total_pages c) (pc_max_pages c)
       (pc_cache_hits c) (pc_cache_misses c) v (pc_counter c).
Definition pc_set_counter (v : Z) (c : pc_st) : pc_st :=
  mkPc (pc_hash_table c) (pc_hash_size c) (pc_lru_head c) (pc_lru_tail c) (pc_total_pages c) (pc_max_pages c)
       (pc_cache_hits c) (pc_cache_misses c) (pc_lock c) v.

Definition pc_get (f : pc_st -> Z) : K Z := gets (fun s => f (k_pc s)).
Definition pc_put (f : Z -> pc_st -> pc_st) (v : Z) : K unit := modify (upd_pc (f v)).
Definition pc_acquire : K unit := acquire_var (fun s => pc_lock (k_pc s)) (fun l => upd_pc (pc_set_lock l)).
Definition pc_release : K unit := release_var (fun l => upd_pc (pc_set_lock l)).

Definition hash_function (file_id offset : Z) : Z :=
  let hash := Z.lxor file_id (Z.shiftr offset 12) in
  let hash := u64 (hash * 2654435761) in
  u32 (Z.land hash HASH_SIZE_MASK).

Definition page_cache_init (max_pages : Z) : K unit :=
  pc_put pc_set_lock 0 ;;
  pc_put pc_set_size DEFAULT_HASH_SIZE ;;
  size ← pc_get pc_hash_size;
  when (negb (Z.land size (u32 (size - 1)) =? 0)) (pc_put pc_set_size 1024) ;;
  pc_put pc_set_max max_pages ;;
  pc_put pc_set_total 0 ;;
  pc_put pc_set_hits 0 ;;
  pc_put pc_set_misses 0 ;;
  pc_put pc_set_head NULL ;;
  pc_put pc_set_tail NULL ;;
  hash_table_addr ← buddy_alloc_pages 0 BUDDY_ZONE_UNMOVABLE;
  if hash_table_addr =? 0 then pc_put pc_set_table NULL else
  pc_put pc_set_table hash_table_addr ;;
  table ← pc_get pc_hash_table;
  size ← pc_get pc_hash_size;
  _ ← memset table 0 (size * 8);
  mret tt.

Definition get_timestamp : K Z :=
  counter ← pc_get pc_counter;
  pc_put pc_set_counter (u64 (counter + 1)) ;;
  mret counter.

(** [entry->file_id == file_id && entry->offset == offset] *)
Definition entry_matches (file_id offset entry : Z) : K bool :=
  f ← load64 (entry + E_FILE_ID);
  if f =? file_id then o ← load64 (entry + E_OFFSET); mret (o =? offset) else mret false.

(** One round of the search of a chain; the entry, or NULL. *)
Definition find_entry (file_id offset entry : Z) : K (Z + Z) :=
  if entry =? NULL then mret (inr NULL) else
  b ← entry_matches file_id offset entry;
  if b : bool then mret (inr entry) else
  next ← load64 (entry + E_HASH_NEXT);
  mret (inl next).

(** [g_page_cache.hash_table[hash]] *)
Definition bucket_head (hash : Z) : K Z :=
  table ← pc_get pc_hash_table;
  load64 (table + 8 * hash).

Definition page_cache_lookup (file_id offset : Z) : K Z :=
  table ← pc_get pc_hash_table;
  if table =? NULL then mret 0 else
  pc_acquire ;;
  let hash := hash_function file_id offset in
  entry ← bucket_head hash;
  entry ← while entry (find_entry file_id offset);
  if negb (entry =? NULL) then
    now ← get_timestamp;
    store64 (entry + E_LAST_ACCESS) now ;;
    hits ← pc_get pc_cache_hits;
    pc_put pc_set_hits (u64 (hits + 1)) ;;
    phys_addr ← load64 (entry + E_PHYSICAL);
    pc_release ;;
    mret phys_addr
  else
    misses ← pc_get pc_cache_misses;
    pc_put pc_set_misses (u64 (misses + 1)) ;;
    pc_release ;;
    mret 0.

Definition lru_add_to_head (entry : Z) : K unit :=
  head ← pc_get pc_lru_head;
  store64 (entry + E_LRU_NEXT) head ;;
  store64 (entry + E_LRU_PREV) NULL ;;
  head ← pc_get pc_lru_head;
  when (negb (head =? NULL)) (store64 (head + E_LRU_PREV) entry) ;;
  pc_put pc_set_head entry ;;
  tail ← pc_get pc_lru_tail;
  when (tail =? NULL) (pc_put pc_set_tail entry).

Definition lru_remove (entry : Z) : K unit :=
  prev ← load64 (entry + E_LRU_PREV);
  next ← load64 (entry + E_LRU_NEXT);
  (if negb (prev =? NULL) then store64 (prev + E_LRU_NEXT) next
   else pc_put pc_set_head next) ;;
  next ← load64 (entry + E_LRU_NEXT);
  prev ← load64 (entry + E_LRU_PREV);
  (if negb (next =? NULL) then store64 (next + E_LRU_PREV) prev
   else pc_put pc_set_tail prev) ;;
  store64 (entry + E_LRU_NEXT) NULL ;;
  store64 (entry + E_LRU_PREV) NULL.

(** The walk of a chain that keeps the entry before, in [page_cache_evict_lru] and
    [page_cache_remove]. *)
Definition walk_chain (test : Z -> K bool) : Z * Z -> K ((Z * Z) + (Z * Z)) := fun '(entry, prev) =>
  if entry =? NULL then mret (inr (NULL, prev)) else
  b ← test entry;
  if b : bool then mret (inr (entry, prev)) else
  next ← load64 (entry + E_HASH_NEXT);
  mret (inl (next, entry)).

(** The entry leaves its chain. *)
Definition hash_remove (hash prev entry : Z) : K unit :=
  next ← load64 (entry + E_HASH_NEXT);
  if prev =? NULL then table ← pc_get pc_hash_table; store64 (table + 8 * hash) next
  else store64 (prev + E_HASH_NEXT) next.

Definition page_cache_evict_lru : K unit :=
  table ← pc_get pc_hash_table;
  if table =? NULL then mret tt else
  pc_acquire ;;
  tail ← pc_get pc_lru_tail;
  if tail =? NULL then pc_release else
  victim ← pc_get pc_lru_tail;
  lru_remove victim ;;
  file_id ← load64 (victim + E_FILE_ID);
  offset ← load64 (victim + E_OFFSET);
  let hash := hash_function file_id offset in
  entry ← bucket_head hash;
  r ← while (entry, NULL) (walk_chain (fun entry => mret (entry =? victim)));
  when (negb (r.1 =? NULL)) (hash_remove hash r.2 r.1) ;;
  total ← pc_get pc_total_pages;
  pc_put pc_set_total (u64 (total - 1)) ;;
  phys_addr ← load64 (victim + E_PHYSICAL);
  buddy_free_pages phys_addr 0 ;;
  buddy_free_pages victim 0 ;;
  pc_release.

(** A new entry, in front of its chain and of the list. *)
Definition fill_entry (entry hash file_id offset phys_addr : Z) : K unit :=
  store64 (entry + E_FILE_ID) file_id ;;
  store64 (entry + E_OFFSET) offset ;;
  store64 (entry + E_PHYSICAL) phys_addr ;;
  now ← get_timestamp;
  store64 (entry + E_LAST_ACCESS) now ;;
  store32 (entry + E_FLAGS) 0 ;;
  store64 (entry + E_HASH_NEXT) NULL ;;
  store64 (entry + E_LRU_NEXT) NULL ;;
  store64 (entry + E_LRU_PREV) NULL ;;
  head ← bucket_head hash;
  store64 (entry + E_HASH_NEXT) head ;;
  table ← pc_get pc_hash_table;
  store64 (table + 8 * hash) entry.

Definition page_cache_insert (file_id offset phys_addr : Z) : K Z :=
  table ← pc_get pc_hash_table;
  if (table =? NULL) || (phys_addr =? 0) then mret (-1) else
  pc_acquire ;;
  let hash := hash_function file_id offset in
  existing ← bucket_head hash;
  existing ← while existing (find_entry file_id offset);
  if negb (existing =? NULL) then pc_release ;; mret 0 else
  total ← pc_get pc_total_pages;
  max ← pc_get pc_max_pages;
  when (max <=? total) (pc_release ;; page_cache_evict_lru ;; pc_acquire) ;;
  entry ← buddy_alloc_pages 0 BUDDY_ZONE_UNMOVABLE;
  if entry =? 0 then pc_release ;; mret (-1) else
  fill_entry entry hash file_id offset phys_addr ;;
  lru_add_to_head entry ;;
  total ← pc_get pc_total_pages;
  pc_put pc_set_total (u64 (total + 1)) ;;
  pc_release ;;
  mret 0.

Definition page_cache_remove (file_id offset : Z) : K unit :=
  table ← pc_get pc_hash_table;
  if table =? NULL then mret tt else
  pc_acquire ;;
  let hash := hash_function file_id offset in
  entry ← bucket_head hash;
  r ← while (entry, NULL) (walk_chain (entry_matches file_id offset));
  if negb (r.1 =? NULL) then
    hash_remove hash r.2 r.1 ;;
    lru_remove r.1 ;;
    total ← pc_get pc_total_pages;
    pc_put pc_set_total (u64 (total - 1)) ;;
    buddy_free_pages r.1 0 ;;
    pc_release
  else pc_release.

Definition page_cache_get_stats (hits misses pages : Z) : K unit :=
  table ← pc_get pc_hash_table;
  if table =? NULL then store_if hits 0 ;; store_if misses 0 ;; store_if pages 0 else
  pc_acquire ;;
  v ← pc_get pc_cache_hits;
  store_if hits v ;;
  v ← pc_get pc_cache_misses;
  store_if misses v ;;
  v ← pc_get pc_total_pages;
  store_if pages v ;;
  pc_release.
