(* ===== verification/PageCacheInv.v ===== *)
(** The page cache, abstractly: a list of entries, the last inserted first.  The chain of a
    hash value is the list of the entries with that value, in the same order; the list
    from [lru_head] is the list itself. *)
From S2P Require Import Prelude Machine DList Buddy BuddyInv BuddyTrace PageAlloc SList PageCache.

#[local] Opaque load store.

Ltac pcoff :=
  unfold E_FILE_ID, E_OFFSET, E_PHYSICAL, E_LAST_ACCESS, E_FLAGS, E_HASH_NEXT, E_LRU_NEXT, E_LRU_PREV in *;
  change (Z.of_nat 8) with 8 in *; change (Z.of_nat 4) with 4 in *.
Ltac pcarith := pcoff; unfold within in *; lia.

Record entry := mkEntry { e_node : Z; e_file : Z; e_off : Z; e_phys : Z }.

Definition key (e : entry) : Z * Z := (e_file e, e_off e).
Definition ehash (e : entry) : Z := hash_function (e_file e) (e_off e).
Definition nodes (E : list entry) : list Z := e_node <$> E.
Definition bucket (h : Z) (E : list entry) : list entry := filter (fun e => ehash e = h) E.

(** The entry of a key, and the page the cache answers: 0 when it has none. *)
Fixpoint find_key (k : Z * Z) (E : list entry) : option entry :=
  match E with
  | [] => None
  | e :: E => if decide (key e = k) then Some e else find_key k E
  end.
Definition cached (k : Z * Z) (E : list entry) : Z := default 0 (e_phys <$> find_key k E).

Lemma hash_bound f o : 0 <= hash_function f o < 1024.
Proof.
  unfold hash_function. change HASH_SIZE_MASK with (Z.ones 10). rewrite Z.land_ones by lia.
  pose proof (Z.mod_pos_bound (u64 (Z.lxor f (Z.shiftr o 12) * 2654435761)) (2 ^ 10) ltac:(lia)). rewrite u32_id; lia.
Qed.

Lemma find_key_Some k E e : find_key k E = Some e -> e ∈ E /\ key e = k.
Proof.
  induction E as [|x E IH]; [done|]. cbn [find_key]. destruct (decide (key x = k)).
  - intros [= ->]. split; [left|done].
  - intros H. destruct (IH H). split; [by right|done].
Qed.
Lemma find_key_None k E : find_key k E = None <-> forall e, e ∈ E -> key e <> k.
Proof.
  induction E as [|x E IH]; cbn [find_key].
  - split; [by intros _ e ?%not_elem_of_nil|done].
  - destruct (decide (key x = k)) as [Hk|Hk]; [split; [done|intros H; exfalso; by apply (H x ltac:(left))]|].
    rewrite IH. split; [intros H e [->|Hin]%elem_of_cons; auto|intros H e Hin; apply H; by right].
Qed.
Lemma find_key_bucket f o E : find_key (f, o) (bucket (hash_function f o) E) = find_key (f, o) E.
Proof.
  induction E as [|x E IH]; [done|]. unfold bucket. destruct (decide (ehash x = hash_function f o)) as [Hh|Hh].
  - rewrite filter_cons_True by done. cbn [find_key]. by destruct (decide _).
  - rewrite filter_cons_False by done. cbn [find_key]. rewrite decide_False; [exact IH|].
    intros [= <- <-]. by apply Hh.
Qed.

(** ** The parts of the memory *)

(** The chains, from the table at [tbl]. *)
Definition hash_ok (m : mem) (tbl : Z) (E : list entry) : Prop :=
  forall h, 0 <= h < 1024 -> sll E_HASH_NEXT m (load 8 m (tbl + 8 * h)) (nodes (bucket h E)).
Definition lru_ok (m : mem) (head tail : Z) (E : list entry) : Prop :=
  dll E_LRU_NEXT E_LRU_PREV m NULL head (nodes E) /\ tail = default NULL (last (nodes E)).
Definition field_ok (m : mem) (e : entry) : Prop :=
  load 8 m (e_node e + E_FILE_ID) = e_file e /\ load 8 m (e_node e + E_OFFSET) = e_off e /\
  load 8 m (e_node e + E_PHYSICAL) = e_phys e.
Definition fields_ok (m : mem) (E : list entry) : Prop := forall e, e ∈ E -> field_ok m e.

(** The nodes are pages, apart from each other and from the table. *)
Definition layout (tbl : Z) (E : list entry) : Prop :=
  NoDup (nodes E) /\ 0 < tbl /\ tbl + 8192 < 2 ^ 63 /\
  (forall e, e ∈ E -> 0 < e_node e /\ e_node e + 4096 < 2 ^ 63 /\ (e_node e + 4096 <= tbl \/ tbl + 8192 <= e_node e)) /\
  (forall e e', e ∈ E -> e' ∈ E -> e_node e <> e_node e' -> e_node e + 4096 <= e_node e' \/ e_node e' + 4096 <= e_node e).

Lemma bucket_elem h E e : e ∈ bucket h E <-> ehash e = h /\ e ∈ E.
Proof. unfold bucket. by rewrite list_elem_of_filter. Qed.
Lemma node_in E e : e ∈ E -> e_node e ∈ nodes E.
Proof. intros H. apply list_elem_of_fmap. by exists e. Qed.
Lemma node_out E a : a ∈ nodes E -> exists e, a = e_node e /\ e ∈ E.
Proof. intros (e & -> & H)%list_elem_of_fmap. eauto. Qed.
Lemma nodes_bucket_nodup h E : NoDup (nodes E) -> NoDup (nodes (bucket h E)).
Proof. intros H. apply (sublist_NoDup _ (nodes E)); [done|]. apply fmap_sublist, sublist_filter. Qed.

Lemma layout_sub tbl E E' : sublist E' E -> layout tbl E -> layout tbl E'.
Proof.
  intros Hs (H1 & H2 & H3 & H4 & H5). assert (Hin : forall e, e ∈ E' -> e ∈ E) by (intros e He; by eapply elem_of_sublist).
  split; [|repeat split; auto].
  - apply (sublist_NoDup _ (nodes E)); [done|]. by apply fmap_sublist.
  - by apply H4, Hin.
  - by apply H4, Hin.
  - by apply H4, Hin.
Qed.

(** ** What each part depends on *)

Lemma hash_frame m m' tbl E : agree (within tbl 8192) m m' ->
  (forall e, e ∈ E -> agree (within (e_node e + E_HASH_NEXT) 8) m m') -> hash_ok m tbl E -> hash_ok m' tbl E.
Proof.
  intros Ht Hn H h Hh. rewrite (load_agree 8 m) by (eapply agree_mono; [|exact Ht]; pcarith).
  apply (sll_frame E_HASH_NEXT m); [|by apply H]. intros a (e & -> & He)%node_out. apply Hn. by apply bucket_elem in He as [_ ?].
Qed.
Lemma lru_frame m m' head tail E : (forall e, e ∈ E -> agree (within (e_node e + E_LRU_NEXT) 16) m m') ->
  lru_ok m head tail E -> lru_ok m' head tail E.
Proof.
  intros Hn [H Ht]. split; [|done]. apply (dll_frame E_LRU_NEXT E_LRU_PREV m); [| |done];
    intros a (e & -> & He)%node_out; (eapply agree_mono; [|by apply Hn]; pcarith).
Qed.
Lemma field_frame m m' e : agree (within (e_node e) 24) m m' -> field_ok m e -> field_ok m' e.
Proof.
  intros Hag. unfold field_ok. intros (H1 & H2 & H3).
  rewrite !(load_agree 8 m m') by (eapply agree_mono; [|exact Hag]; pcarith). done.
Qed.
Lemma fields_frame m m' E : (forall e, e ∈ E -> agree (within (e_node e) 24) m m') -> fields_ok m E -> fields_ok m' E.
Proof. intros Hag H e He. apply (field_frame m); auto. Qed.

(** ** Unlinking *)

(** The entry before [e] in its chain, NULL at the head. *)
Definition chain_prev (h : Z) (E1 : list entry) : Z := default NULL (last (nodes (bucket h E1))).

Lemma bucket_app h E1 E2 : bucket h (E1 ++ E2) = bucket h E1 ++ bucket h E2.
Proof. apply filter_app. Qed.
Lemma nodes_app E1 E2 : nodes (E1 ++ E2) = nodes E1 ++ nodes E2.
Proof. apply fmap_app. Qed.
Lemma bucket_mid_same E1 e E2 : bucket (ehash e) (E1 ++ e :: E2) = bucket (ehash e) E1 ++ e :: bucket (ehash e) E2.
Proof. rewrite bucket_app. f_equal. by apply filter_cons_True. Qed.
Lemma bucket_mid_other h E1 e E2 : ehash e <> h -> bucket h (E1 ++ e :: E2) = bucket h (E1 ++ E2).
Proof. intros Hne. rewrite !bucket_app. f_equal. by apply filter_cons_False. Qed.

(** The memory after [hash_remove]. *)
Definition hash_unlink (m : mem) (tbl h prev a : Z) : mem :=
  store 8 m (if prev =? NULL then tbl + 8 * h else prev + E_HASH_NEXT) (load 8 m (a + E_HASH_NEXT)).

Lemma chain_prev_cases h E1 : (bucket h E1 = [] /\ chain_prev h E1 = NULL) \/
  (exists B q, bucket h E1 = B ++ [q] /\ q ∈ E1 /\ chain_prev h E1 = e_node q).
Proof.
  unfold chain_prev. destruct (bucket h E1) as [|q B _] eqn:Eb using rev_ind; [by left|right].
  exists B, q. split; [done|]. split; [|by rewrite nodes_app; cbn; rewrite last_snoc].
  assert (Hq : q ∈ bucket h E1) by (rewrite Eb; apply elem_of_app; right; left). by apply bucket_elem in Hq as [_ ?].
Qed.

Lemma hash_unlink_agree m tbl E1 e E2 : layout tbl (E1 ++ e :: E2) ->
  agree (fun x => ~ within tbl 8192 x /\ forall q, q ∈ E1 -> ~ within (e_node q + E_HASH_NEXT) 8 x) m
    (hash_unlink m tbl (ehash e) (chain_prev (ehash e) E1) (e_node e)).
Proof.
  intros (L1 & L2 & L3 & L4 & L5). unfold hash_unlink. apply agree_store. intros x [Hx Hq].
  pose proof (hash_bound (e_file e) (e_off e)) as Hh. fold (ehash e) in Hh.
  destruct (chain_prev_cases (ehash e) E1) as [[_ ->]|(B & q & _ & Hin & ->)]; [cbn [Z.eqb NULL]; pcarith|].
  destruct (L4 q ltac:(apply elem_of_app; by left)) as (Hp & _). rewrite (proj2 (Z.eqb_neq (e_node q) NULL)) by (unfold NULL; lia).
  by apply Hq.
Qed.

Lemma hash_unlink_ok m tbl E1 e E2 : layout tbl (E1 ++ e :: E2) -> hash_ok m tbl (E1 ++ e :: E2) ->
  hash_ok (hash_unlink m tbl (ehash e) (chain_prev (ehash e) E1) (e_node e)) tbl (E1 ++ E2).
Proof.
  intros L H h Hh. set (m' := hash_unlink _ _ _ _ _). pose proof L as (L1 & L2 & L3 & L4 & L5).
  pose proof (hash_bound (e_file e) (e_off e)) as Hhe. fold (ehash e) in Hhe.
  assert (Hd : forall a b, a ∈ E1 ++ e :: E2 -> b ∈ E1 ++ e :: E2 -> e_node a = e_node b \/ e_node a + 4096 <= e_node b \/ e_node b + 4096 <= e_node a).
  { intros a b Ha Hb. destruct (decide (e_node a = e_node b)); [by left|right]. by apply L5. }
  assert (Hinj : forall a b, a ∈ E1 ++ e :: E2 -> b ∈ E1 ++ e :: E2 -> e_node a = e_node b -> a = b).
  { intros a b. by apply NoDup_fmap_elem. }
  destruct (chain_prev_cases (ehash e) E1) as [[Eb Ep]|(B & q & Eb & Hq & Ep)].
  - (* the head of its chain *)
    assert (Hm' : m' = store 8 m (tbl + 8 * ehash e) (load 8 m (e_node e + E_HASH_NEXT))) by (unfold m', hash_unlink; by rewrite Ep).
    destruct (decide (ehash e = h)) as [<-|Hne].
    + pose proof (H (ehash e) Hhe) as Hc. rewrite bucket_mid_same, Eb in Hc. cbn [app nodes fmap list_fmap sll] in Hc. destruct Hc as (_ & _ & Hc).
      rewrite bucket_app, Eb. cbn [app]. rewrite Hm', load64_store_eq by apply load64_bound. apply (sll_frame E_HASH_NEXT m); [|exact Hc].
      intros a (x & -> & [_ Hx]%bucket_elem)%node_out. apply agree_store. intros y Hy Hw.
      destruct (L4 x ltac:(eauto with inlist)) as (_ & _ & X). pcarith.
    + pose proof (H h Hh) as Hc. rewrite bucket_mid_other in Hc by done.
      rewrite Hm', load_store_ne by pcarith. apply (sll_frame E_HASH_NEXT m); [|exact Hc].
      intros a (x & -> & [_ Hx]%bucket_elem)%node_out. apply agree_store. intros y Hy Hw.
      destruct (L4 x ltac:(apply elem_of_app in Hx as [?|?]; eauto with inlist)) as (_ & _ & X). pcarith.
  - (* after the entry [q] *)
    assert (HqE : q ∈ E1 ++ e :: E2) by eauto with inlist. destruct (L4 q HqE) as (Hqp & Hqb & Hqt).
    assert (Hm' : m' = store 8 m (e_node q + E_HASH_NEXT) (load 8 m (e_node e + E_HASH_NEXT))).
    { unfold m', hash_unlink. by rewrite Ep, (proj2 (Z.eqb_neq (e_node q) NULL)) by (unfold NULL; lia). }
    assert (Hqh : ehash q = ehash e).
    { assert (Hb : q ∈ bucket (ehash e) E1) by (rewrite Eb; apply elem_of_app; right; left). by apply bucket_elem in Hb as [? _]. }
    destruct (decide (ehash e = h)) as [<-|Hne].
    + pose proof (H (ehash e) Hhe) as Hc. pose proof (nodes_bucket_nodup (ehash e) _ L1) as Hnd.
      assert (Hin : forall x, x ∈ nodes (bucket (ehash e) (E1 ++ e :: E2)) -> exists z, x = e_node z /\ z ∈ E1 ++ e :: E2).
      { intros x (z & -> & [_ Hz]%bucket_elem)%node_out. eauto. }
      rewrite bucket_mid_same, Eb, <- app_assoc in Hc, Hnd, Hin. cbn [app] in Hc, Hnd, Hin. rewrite nodes_app in Hc, Hnd, Hin.
      cbn [nodes fmap list_fmap] in Hc, Hnd, Hin. rewrite Hm', load_store_ne by pcarith.
      rewrite bucket_app, Eb, <- app_assoc. cbn [app]. rewrite nodes_app. cbn [nodes fmap list_fmap].
      apply sll_unlink; [exact Hc| |exact Hnd]. intros a b Ha Hb.
      destruct (Hin a Ha) as (za & -> & Hza). destruct (Hin b Hb) as (zb & -> & Hzb). destruct (Hd za zb Hza Hzb) as [|]; [by left|right; lia].
    + pose proof (H h Hh) as Hc. rewrite bucket_mid_other in Hc by done.
      rewrite Hm', load_store_ne by pcarith. apply (sll_frame E_HASH_NEXT m); [|exact Hc].
      intros a (x & -> & [Hxh Hx]%bucket_elem)%node_out. apply agree_store. intros y Hy Hw.
      assert (HxE : x ∈ E1 ++ e :: E2) by (apply elem_of_app in Hx as [?|?]; eauto with inlist).
      destruct (Hd x q HxE HqE) as [Exq|]; [|pcarith]. apply (Hinj x q HxE HqE) in Exq. congruence.
Qed.

(** ** Linking *)

(** [g_page_cache.hash_table[hash] = entry], the entry already pointing to the old head. *)
Lemma hash_push_ok m tbl e E : layout tbl (e :: E) -> hash_ok m tbl E ->
  load 8 m (e_node e + E_HASH_NEXT) = load 8 m (tbl + 8 * ehash e) ->
  hash_ok (store 8 m (tbl + 8 * ehash e) (e_node e)) tbl (e :: E).
Proof.
  intros (L1 & L2 & L3 & L4 & L5) H Hnx h Hh.
  pose proof (hash_bound (e_file e) (e_off e)) as Hhe. fold (ehash e) in Hhe. destruct (L4 e ltac:(left)) as (Hp & Hb & Ht).
  assert (Hout : forall x, x ∈ e :: E -> agree (within (e_node x + E_HASH_NEXT) 8) m (store 8 m (tbl + 8 * ehash e) (e_node e))).
  { intros x Hx. apply agree_store. intros y Hy Hw. destruct (L4 x Hx) as (_ & _ & X). pcarith. }
  unfold bucket. destruct (decide (ehash e = h)) as [<-|Hne].
  - rewrite filter_cons_True by done. cbn [nodes fmap list_fmap sll]. rewrite load64_store_eq by lia. split; [done|].
    split; [unfold NULL; lia|]. rewrite (load_agree 8 m) by (apply Hout; left). rewrite Hnx.
    apply (sll_frame E_HASH_NEXT m); [|by apply H]. intros a (x & -> & [_ Hx]%bucket_elem)%node_out. apply Hout. by right.
  - rewrite filter_cons_False by done. rewrite load_store_ne by pcarith.
    apply (sll_frame E_HASH_NEXT m); [|by apply H]. intros a (x & -> & [_ Hx]%bucket_elem)%node_out. apply Hout. by right.
Qed.

Lemma lru_separated tbl E : layout tbl E -> separated 64 (nodes E).
Proof.
  intros (L1 & L2 & L3 & L4 & L5). split.
  - intros a (e & -> & He)%node_out. destruct (L4 e He). lia.
  - intros a b (e & -> & He)%node_out (e' & -> & He')%node_out Hne. destruct (L5 e e' He He' Hne); lia.
Qed.

Lemma lru_offsets : (0 <= E_LRU_NEXT /\ E_LRU_NEXT + 8 <= 64) /\ (0 <= E_LRU_PREV /\ E_LRU_PREV + 8 <= 64) /\
  (E_LRU_NEXT + 8 <= E_LRU_PREV \/ E_LRU_PREV + 8 <= E_LRU_NEXT).
Proof. pcoff. lia. Qed.

(** The memory and the two ends of the list after [lru_remove]. *)
Abbreviation lru_unlink := (unlink E_LRU_NEXT E_LRU_PREV).
Definition new_tail (m : mem) (tail a : Z) : Z :=
  if negb (load 8 m (a + E_LRU_NEXT) =? NULL) then tail else load 8 m (a + E_LRU_PREV).

Lemma lru_unlink_ok m tbl head tail E1 e E2 : layout tbl (E1 ++ e :: E2) -> lru_ok m head tail (E1 ++ e :: E2) ->
  lru_ok (lru_unlink m (e_node e)) (unlink_head E_LRU_NEXT E_LRU_PREV m head (e_node e)) (new_tail m tail (e_node e)) (E1 ++ E2).
Proof.
  intros L [Hl Ht]. pose proof (lru_separated _ _ L) as Hsep. destruct L as (L1 & _). destruct lru_offsets as (O1 & O2 & O3).
  unfold lru_ok. rewrite !nodes_app in *. cbn [nodes fmap list_fmap] in *. fold (nodes E2) in *. split.
  - by apply (unlink_dll _ _ 64).
  - destruct (dll_middle _ _ 64 O1 O2 _ _ _ _ _ Hl) as (q & _ & Hq & Ha & Hl2 & Hc). unfold new_tail. rewrite Hq.
    destruct (nodes E2) as [|b l2].
    + cbn [dll] in Hl2. rewrite Hl2. cbn [Z.eqb NULL negb]. rewrite app_nil_r.
      destruct Hc as [(-> & -> & _)|(l0 & -> & _)]; [done|by rewrite last_snoc].
    + destruct Hl2 as (-> & Hb & _). rewrite (proj2 (Z.eqb_neq b NULL)) by done. cbn [negb].
      rewrite Ht, !last_app, last_cons_cons. destruct (last (b :: l2)) eqn:El; [done|]. by apply last_None in El.
Qed.

Lemma lru_unlink_agree m tbl head tail E1 e E2 : layout tbl (E1 ++ e :: E2) -> lru_ok m head tail (E1 ++ e :: E2) ->
  agree (fun x => forall q, q ∈ E1 ++ e :: E2 -> ~ within (e_node q + E_LRU_NEXT) 16 x) m (lru_unlink m (e_node e)).
Proof.
  intros L [Hl _]. pose proof (lru_separated _ _ L) as Hsep. destruct L as (L1 & _). destruct lru_offsets as (O1 & O2 & O3).
  rewrite nodes_app in *. cbn [nodes fmap list_fmap] in *. fold (nodes E2) in *.
  destruct (unlink_neighbours _ _ 64 O1 O2 m head (nodes E1) (e_node e) (nodes E2) Hsep L1 Hl) as (Hq & Hn & Ha & _ & _ & Haq & Han & _).
  set (q := load 8 m (e_node e + E_LRU_PREV)) in *. set (n := load 8 m (e_node e + E_LRU_NEXT)) in *.
  assert (Hmem : forall a, a = NULL \/ a ∈ nodes E1 \/ a ∈ nodes E2 -> a <> NULL -> exists x, x ∈ E1 ++ e :: E2 /\ a = e_node x).
  { intros a [|[(x & -> & Hx)%node_out|(x & -> & Hx)%node_out]] Hnn; [done| |]; exists x; eauto with inlist. }
  intros x Hx. unfold unlink. cbv zeta. fold q. fold n.
  assert (Hq1 : q <> NULL -> ~ within (q + E_LRU_NEXT) (Z.of_nat 8) x).
  { intros Hqn Hw. destruct (Hmem q ltac:(tauto) Hqn) as (z & Hz & E). specialize (Hx z Hz). rewrite <- E in Hx. apply Hx. pcarith. }
  assert (Hn1 : n <> NULL -> ~ within (n + E_LRU_PREV) (Z.of_nat 8) x).
  { intros Hnn Hw. destruct (Hmem n ltac:(tauto) Hnn) as (z & Hz & E). specialize (Hx z Hz). rewrite <- E in Hx. apply Hx. pcarith. }
  specialize (Hx e ltac:(eauto with inlist)).
  destruct (Z.eqb_spec q NULL) as [|Hqn]; cbn [negb].
  - fold n. destruct (Z.eqb_spec n NULL) as [|Hnn]; cbn [negb]; rewrite !mget_store_out by first [by auto|pcarith]; done.
  - specialize (Haq Ha Hqn). rewrite (load_store_ne 8 8 m (e_node e + E_LRU_NEXT)) by pcarith. fold n.
    destruct (Z.eqb_spec n NULL) as [|Hnn]; cbn [negb]; rewrite !mget_store_out by first [by auto|pcarith]; done.
Qed.

(** The memory after [lru_add_to_head]. *)
Abbreviation lru_link := (link_front E_LRU_NEXT E_LRU_PREV).

Lemma lru_link_ok m tbl head tail e E : layout tbl (e :: E) -> lru_ok m head tail E ->
  lru_ok (lru_link m head (e_node e)) (e_node e) (if tail =? NULL then e_node e else tail) (e :: E).
Proof.
  intros L [Hl ->]. pose proof (lru_separated _ _ L) as Hsep. destruct L as (L1 & L2 & L3 & L4 & _). destruct lru_offsets as (O1 & O2 & O3).
  split; [by apply (link_front_dll _ _ 64)|]. cbn [nodes fmap list_fmap]. fold (nodes E).
  destruct (nodes E) as [|b l] eqn:En; [done|]. rewrite last_cons_cons. destruct (last (b :: l)) as [c|] eqn:El; [|by apply last_None in El].
  change (default NULL (Some c)) with c. rewrite (proj2 (Z.eqb_neq c NULL)); [done|].
  destruct (node_out E c) as (x & -> & Hx); [rewrite En; by apply last_Some_elem_of|]. destruct (L4 x ltac:(by right)). unfold NULL. lia.
Qed.

Lemma lru_link_agree m head tail e E : lru_ok m head tail E ->
  agree (fun x => forall q, q ∈ e :: E -> ~ within (e_node q + E_LRU_NEXT) 16 x) m (lru_link m head (e_node e)).
Proof.
  intros [Hl _] x Hx. unfold link_front.
  assert (Hh : head <> NULL -> ~ within (head + E_LRU_PREV) (Z.of_nat 8) x).
  { intros Hn Hw. destruct E as [|b E]; [done|]. destruct Hl as [-> _]. apply (Hx b ltac:(right; left)). pcarith. }
  specialize (Hx e ltac:(left)).
  destruct (Z.eqb_spec head NULL); cbn [negb]; rewrite !mget_store_out by first [by auto|pcarith]; done.
Qed.

(** ** Both unlinkings *)

(** Different cells of nodes, and cells and the table, do not overlap. *)
Lemma cell_apart tbl E e e' k n k' n' x : layout tbl E -> e ∈ E -> e' ∈ E -> 0 <= k -> k + n <= 4096 -> 0 <= k' -> k' + n' <= 4096 ->
  k + n <= k' \/ k' + n' <= k -> within (e_node e + k) n x -> ~ within (e_node e' + k') n' x.
Proof.
  intros (_ & _ & _ & _ & L5) He He' H1 H2 H3 H4 Hd Hx Hw. destruct (decide (e_node e = e_node e')) as [Eq|Hne].
  - rewrite Eq in *. unfold within in *. lia.
  - destruct (L5 e e' He He' Hne); unfold within in *; lia.
Qed.
Lemma cell_table tbl E e k n x : layout tbl E -> e ∈ E -> 0 <= k -> k + n <= 4096 -> within (e_node e + k) n x -> ~ within tbl 8192 x.
Proof. intros (_ & _ & _ & L4 & _) He H1 H2 Hx Hw. destruct (L4 e He) as (_ & _ & X). unfold within in *. lia. Qed.

(** The bytes of the cache. *)
Definition meta (tbl : Z) (E : list entry) (x : Z) : Prop := within tbl 8192 x \/ exists e, e ∈ E /\ within (e_node e) 4096 x.

Lemma hash_cells_meta tbl E (P : list entry) x : (forall e, e ∈ P -> e ∈ E) -> ~ meta tbl E x ->
  ~ within tbl 8192 x /\ forall q, q ∈ P -> ~ within (e_node q + E_HASH_NEXT) 8 x.
Proof.
  intros HP Hx. split; [intros Hw; apply Hx; by left|]. intros q Hq Hw. apply Hx. right. exists q. split; [by apply HP|pcarith].
Qed.
Lemma lru_cells_meta tbl E (P : list entry) x : (forall e, e ∈ P -> e ∈ E) -> ~ meta tbl E x ->
  forall q, q ∈ P -> ~ within (e_node q + E_LRU_NEXT) 16 x.
Proof. intros HP Hx q Hq Hw. apply Hx. right. exists q. split; [by apply HP|pcarith]. Qed.

Section drop.
Context (tbl : Z) (E1 : list entry) (e : entry) (E2 : list entry).
Abbreviation E := (E1 ++ e :: E2).
Hypothesis L : layout tbl E.

Lemma in_rest x : x ∈ E1 ++ E2 -> x ∈ E.
Proof using. intros [?|?]%elem_of_app; eauto with inlist. Qed.

Abbreviation hm m := (hash_unlink m tbl (ehash e) (chain_prev (ehash e) E1) (e_node e)).
Abbreviation lm m := (lru_unlink m (e_node e)).

Lemma hm_keep m e' k n : e' ∈ E -> 0 <= k -> k + n <= 40 \/ 48 <= k -> k + n <= 4096 -> agree (within (e_node e' + k) n) m (hm m).
Proof using L.
  intros He' H0 H1 H2. eapply agree_mono; [|by apply (hash_unlink_agree m tbl E1 e E2)]. intros x Hx. split; [by eapply cell_table|].
  intros q Hq. apply (cell_apart tbl E e' q k n E_HASH_NEXT 8 x); pcoff; eauto with inlist; lia.
Qed.

Lemma lm_keep m head tail (P : Z -> Prop) : lru_ok m head tail E -> (forall x, P x -> forall q, q ∈ E -> ~ within (e_node q + E_LRU_NEXT) 16 x) ->
  agree P m (lm m).
Proof using L. intros Hl HP. eapply agree_mono; [exact HP|]. by eapply lru_unlink_agree. Qed.

Lemma lm_cell m head tail e' k n : lru_ok m head tail E -> e' ∈ E -> 0 <= k -> k + n <= 48 -> agree (within (e_node e' + k) n) m (lm m).
Proof using L.
  intros Hl He' H0 H1. apply (lm_keep m head tail); [done|]. intros x Hx q Hq.
  apply (cell_apart tbl E e' q k n E_LRU_NEXT 16 x); pcoff; auto; lia.
Qed.

(** Out of its chain, then out of the list: [page_cache_remove]. *)
Lemma drop_hash_lru m head tail : hash_ok m tbl E -> lru_ok m head tail E -> fields_ok m E ->
  let m1 := hm m in let m2 := lm m1 in
  hash_ok m2 tbl (E1 ++ E2) /\
  lru_ok m2 (unlink_head E_LRU_NEXT E_LRU_PREV m1 head (e_node e)) (new_tail m1 tail (e_node e)) (E1 ++ E2) /\
  fields_ok m2 E /\ agree (fun x => ~ meta tbl E x) m m2.
Proof using L.
  intros Hh Hl Hf m1 m2. assert (Hl1 : lru_ok m1 head tail E).
  { apply (lru_frame m); [|done]. intros q Hq. apply hm_keep; pcoff; [done|lia..]. }
  split; [|split; [by eapply lru_unlink_ok|split]].
  - apply (hash_frame m1); [| |by apply hash_unlink_ok].
    + apply (lm_keep m1 head tail); [done|]. intros x Hx q Hq Hw. by apply (cell_table tbl E q E_LRU_NEXT 16 x L Hq ltac:(done) ltac:(done)).
    + intros q Hq. by apply (lm_cell m1 head tail); [|apply in_rest| |].
  - apply (fields_frame m1); [intros q Hq; rewrite <- (Z.add_0_r (e_node q)); by apply (lm_cell m1 head tail)|].
    apply (fields_frame m); [|done]. intros q Hq. rewrite <- (Z.add_0_r (e_node q)). by apply hm_keep; [| |left|].
  - etrans; [eapply agree_mono; [|by apply (hash_unlink_agree m tbl E1 e E2)]|eapply (lm_keep m1 head tail); [done|]].
    + intros x Hx. apply (hash_cells_meta tbl E); [|done]. intros y Hy. apply elem_of_app. by left.
    + intros x Hx. by apply (lru_cells_meta tbl E).
Qed.

(** Out of the list, then out of its chain: [page_cache_evict_lru]. *)
Lemma drop_lru_hash m head tail : hash_ok m tbl E -> lru_ok m head tail E -> fields_ok m E ->
  let m1 := lm m in let m2 := hm m1 in
  (hash_ok m1 tbl E /\ fields_ok m1 E) /\ hash_ok m2 tbl (E1 ++ E2) /\
  lru_ok m2 (unlink_head E_LRU_NEXT E_LRU_PREV m head (e_node e)) (new_tail m tail (e_node e)) (E1 ++ E2) /\
  fields_ok m2 E /\ agree (fun x => ~ meta tbl E x) m m2.
Proof using L.
  intros Hh Hl Hf m1 m2. assert (Hh1 : hash_ok m1 tbl E).
  { apply (hash_frame m); [| |done].
    - apply (lm_keep m head tail); [done|]. intros x Hx q Hq Hw. by apply (cell_table tbl E q E_LRU_NEXT 16 x L Hq ltac:(done) ltac:(done)).
    - intros q Hq. by apply (lm_cell m head tail). }
  assert (Hf1 : fields_ok m1 E).
  { apply (fields_frame m); [intros q Hq; rewrite <- (Z.add_0_r (e_node q)); by apply (lm_cell m head tail)|done]. }
  split; [done|]. split; [by apply hash_unlink_ok|]. split; [|split].
  - apply (lru_frame m1); [intros q Hq; apply hm_keep; pcoff; [by apply in_rest|lia..]|]. by eapply lru_unlink_ok.
  - apply (fields_frame m1); [|done]. intros q Hq. rewrite <- (Z.add_0_r (e_node q)). by apply hm_keep; [| |left|].
  - etrans; [eapply (lm_keep m head tail); [done|]|eapply agree_mono; [|by apply (hash_unlink_agree m1 tbl E1 e E2)]].
    + intros x Hx. by apply (lru_cells_meta tbl E).
    + intros x Hx. apply (hash_cells_meta tbl E); [|done]. intros y Hy. apply elem_of_app. by left.
Qed.
End drop.
