(* ===== verification/PageCacheThms.v ===== *)
(** The page cache over the page allocator: its invariant, and what each step of its
    operations does to it. *)
From S2P Require Import Prelude Machine DList Buddy BuddyInv BuddyTrace PageAlloc SList PageCache PageCacheInv.

#[local] Opaque load store.

(** The pages of the cache: its table, its entries and the pages it keeps. *)
Definition pc_pages (tbl : Z) (E : list entry) : list Z := tbl :: (tbl + 4096) :: nodes E ++ (e_phys <$> E).

(** The pages before the entry [e] was taken out. *)
Lemma pc_pages_mid tbl E1 e E2 : pc_pages tbl (E1 ++ e :: E2) ≡ₚ e_node e :: e_phys e :: pc_pages tbl (E1 ++ E2).
Proof.
  unfold pc_pages. rewrite !nodes_app, !fmap_app. cbn [nodes fmap list_fmap]. fold (nodes E2).
  solve_Permutation.
Qed.

(** ** Searches *)

Lemma entry_matches_exec f o e s : field_ok (k_mem s) e ->
  entry_matches f o (e_node e) s = Done (bool_decide (key e = (f, o))) s.
Proof.
  intros (H1 & H2 & _). unfold entry_matches, mbind, M_bind, load64, gets. rewrite H1. unfold key, mret, M_ret.
  destruct (Z.eqb_spec (e_file e) f) as [->|Hf].
  - f_equal. rewrite H2. destruct (Z.eqb_spec (e_off e) o) as [->|Ho]; symmetry; [by apply bool_decide_eq_true_2|].
    apply bool_decide_eq_false_2. by intros [= ?].
  - f_equal. symmetry. apply bool_decide_eq_false_2. by intros [= ? ?].
Qed.

Lemma find_entry_exec f o h B s : sll E_HASH_NEXT (k_mem s) h (nodes B) -> fields_ok (k_mem s) B -> Z.of_nat (length B) < 2 ^ 64 ->
  while h (find_entry f o) s = Done (match find_key (f, o) B with Some e => e_node e | None => NULL end) s.
Proof.
  intros Hs Hf Hlen.
  assert (H : wp (while h (find_entry f o)) (fun r s' => s' = s /\ r = match find_key (f, o) B with Some e => e_node e | None => NULL end) s); cycle 1.
  { apply wp_Done in H as (r & s' & Hrun & -> & ->). exact Hrun. }
  apply (wp_loop (fun d x s' => s' = s /\ exists B', sll E_HASH_NEXT (k_mem s) x (nodes B') /\ fields_ok (k_mem s) B' /\ d = length B' /\
    find_key (f, o) B' = find_key (f, o) B) (length B)); [split; [done|by exists B]|done|].
  intros d x s' (-> & B' & Hx & Hfx & -> & HB). unfold find_entry. destruct B' as [|e B'].
  - cbn in Hx. subst x. cbn [Z.eqb NULL]. apply wp_ret. split; [done|]. by rewrite <- HB.
  - destruct Hx as (-> & Hn & Hx). rewrite (proj2 (Z.eqb_neq _ _)) by done. apply wp_bind.
    eapply wp_of_Done; [apply entry_matches_exec, Hfx; left|]. cbn [find_key] in HB. destruct (decide (key e = (f, o))) as [E|E].
    + rewrite bool_decide_eq_true_2 by done. apply wp_ret. split; [done|]. by rewrite <- HB.
    + rewrite bool_decide_eq_false_2 by done. apply wp_bind, wp_gets, wp_ret. exists (length B'). split; [cbn; lia|]. split; [done|].
      exists B'. split; [done|]. split; [|done]. intros e' He'. apply Hfx. by right.
Qed.

(** The walk that keeps the entry before, with a test [t]. *)
Fixpoint walk (t : entry -> bool) (prev : Z) (B : list entry) : Z * Z :=
  match B with
  | [] => (NULL, prev)
  | e :: B => if t e then (e_node e, prev) else walk t (e_node e) B
  end.

Lemma walk_exec test t h B s : sll E_HASH_NEXT (k_mem s) h (nodes B) -> (forall e, e ∈ B -> test (e_node e) s = Done (t e) s) ->
  Z.of_nat (length B) < 2 ^ 64 -> while (h, NULL) (walk_chain test) s = Done (walk t NULL B) s.
Proof.
  intros Hs Ht Hlen.
  assert (H : wp (while (h, NULL) (walk_chain test)) (fun r s' => s' = s /\ r = walk t NULL B) s); cycle 1.
  { apply wp_Done in H as (r & s' & Hrun & -> & ->). exact Hrun. }
  apply (wp_loop (fun d x s' => s' = s /\ exists B', sll E_HASH_NEXT (k_mem s) x.1 (nodes B') /\ (forall e, e ∈ B' -> e ∈ B) /\ d = length B' /\
    walk t x.2 B' = walk t NULL B) (length B)); [split; [done|by exists B]|done|].
  intros d [x p] s' (-> & B' & Hx & Hin & -> & HB). cbn [fst snd] in *. unfold walk_chain. destruct B' as [|e B'].
  - cbn in Hx. subst x. cbn [Z.eqb NULL]. apply wp_ret. split; [done|]. by rewrite <- HB.
  - destruct Hx as (-> & Hn & Hx). rewrite (proj2 (Z.eqb_neq _ _)) by done. apply wp_bind.
    eapply wp_of_Done; [apply Ht, Hin; left|]. cbn [walk] in HB. destruct (t e) eqn:E.
    + apply wp_ret. split; [done|]. by rewrite <- HB.
    + apply wp_bind, wp_gets, wp_ret. exists (length B'). split; [cbn; lia|]. split; [done|].
      exists B'. split; [done|]. split; [|done]. intros e' He'. apply Hin. by right.
Qed.

Lemma walk_none t p B : (forall e, e ∈ B -> t e = false) -> (walk t p B).1 = NULL.
Proof. revert p. induction B as [|e B IH]; intros p H; [done|]. cbn [walk]. rewrite H by left. apply IH. intros x Hx. apply H. by right. Qed.
Lemma walk_mid t p B1 e B2 : (forall x, x ∈ B1 -> t x = false) -> t e = true ->
  walk t p (B1 ++ e :: B2) = (e_node e, default p (last (nodes B1))).
Proof.
  revert p. induction B1 as [|b B1 IH]; intros p Hb He; cbn [app walk]; [by rewrite He|].
  rewrite Hb by left. rewrite IH; [|intros x Hx; apply Hb; by right|done]. f_equal. cbn [nodes fmap list_fmap]. fold (nodes B1).
  destruct (nodes B1) as [|c l]; [done|]. rewrite last_cons_cons. destruct (last (c :: l)) eqn:El; [done|]. by apply last_None in El.
Qed.

(** ** Taking an entry out *)

Lemma lru_remove_exec a s : let q := load 8 (k_mem s) (a + E_LRU_PREV) in q = NULL \/ a + 64 <= q \/ q + 64 <= a ->
  lru_remove a s = Done tt (set_pc (pc_set_tail (new_tail (k_mem s) (pc_lru_tail (k_pc s)) a)
    (pc_set_head (unlink_head E_LRU_NEXT E_LRU_PREV (k_mem s) (pc_lru_head (k_pc s)) a) (k_pc s))) (set_mem (lru_unlink (k_mem s) a) s)).
Proof.
  intros q Hq. destruct s as [m b pm sl hp cw dp [c1 c2 c3 c4 c5 c6 c7 c8 c9 c10]]. unfold q in *. clear q.
  unfold lru_remove, new_tail, unlink_head, unlink, pc_put, mbind, M_bind, load64, store64, gets, modify. cbn [k_mem k_pc pc_lru_tail pc_lru_head] in *. cbv zeta.
  destruct (Z.eqb_spec (load 8 m (a + E_LRU_PREV)) NULL) as [Hp|Hp]; cbn [negb].
  - unfold upd_pc. cbn [k_mem set_pc set_mem k_pc]. destruct (Z.eqb_spec (load 8 m (a + E_LRU_NEXT)) NULL); cbn [negb]; reflexivity.
  - destruct Hq as [|Hq]; [done|]. cbn [k_mem set_mem]. rewrite (load_store_ne 8 8 m (a + E_LRU_NEXT)) by pcarith.
    rewrite (load_store_ne 8 8 m (a + E_LRU_PREV)) by pcarith.
    destruct (Z.eqb_spec (load 8 m (a + E_LRU_NEXT)) NULL); cbn [negb]; reflexivity.
Qed.

Lemma hash_remove_exec h prev a s :
  hash_remove h prev a s = Done tt (set_mem (hash_unlink (k_mem s) (pc_hash_table (k_pc s)) h prev a) s).
Proof. unfold hash_remove, hash_unlink, pc_get, mbind, M_bind, load64, store64, gets, modify. by destruct (prev =? NULL). Qed.

Section cache.
Context `{PA : PageAllocator 0 (buddy_alloc_pages 0 BUDDY_ZONE_UNMOVABLE) (fun a => buddy_free_pages a 0)}.
Context (tbl mx : Z).

Record cache_ok (lk : Z) (s : kst) (A : blocks) (E : list entry) : Prop := {
  co_alloc : pa_inv s A;
  co_lock : pc_lock (k_pc s) = lk;
  co_table : pc_hash_table (k_pc s) = tbl;
  co_max : pc_max_pages (k_pc s) = mx;
  co_total : pc_total_pages (k_pc s) = Z.of_nat (length E);
  co_hash : hash_ok (k_mem s) tbl E;
  co_lru : lru_ok (k_mem s) (pc_lru_head (k_pc s)) (pc_lru_tail (k_pc s)) E;
  co_fields : fields_ok (k_mem s) E;
  co_own p : p ∈ pc_pages tbl E -> (p, 0) ∈ A;
  co_nodup : NoDup (pc_pages tbl E);
  co_keys : NoDup (key <$> E)
}.

(** The bytes the cache leaves to others: every byte of an allocated page but those of the
    table and of the entries; the pages it keeps are among them. *)
Definition pc_client (A : blocks) (E : list entry) (x : Z) : Prop :=
  in_block A x /\ ~ within tbl 8192 x /\ forall e, e ∈ E -> ~ within (e_node e) 4096 x.

Lemma block_apart s A p q : pa_inv s A -> (p, 0) ∈ A -> (q, 0) ∈ A -> p <> q -> p + 4096 <= q \/ q + 4096 <= p.
Proof. intros Hi Hp Hq Hne. pose proof (pa_disj s A p 0 q 0 Hi Hp Hq ltac:(congruence)) as Hd. unfold disj in Hd. by rewrite sz_0 in Hd. Qed.

Lemma page_pos s A p : pa_inv s A -> (p, 0) ∈ A -> 0 < p /\ p + 4096 <= 2 ^ 52.
Proof. intros Hi Hp. destruct (pa_block s A p 0 Hi Hp) as (_ & H1 & _ & H2). rewrite sz_0 in H2. unfold PHYS_LIMIT in H2. lia. Qed.

Lemma pages_layout s A E : pa_inv s A -> (forall p, p ∈ pc_pages tbl E -> (p, 0) ∈ A) -> NoDup (pc_pages tbl E) -> layout tbl E.
Proof.
  intros Hi Ho Hnd. assert (Ht : tbl ∈ pc_pages tbl E) by left. assert (Ht' : tbl + 4096 ∈ pc_pages tbl E) by (right; left).
  assert (Hn : forall e, e ∈ E -> e_node e ∈ pc_pages tbl E).
  { intros e He. right. right. apply elem_of_app. left. by apply node_in. }
  pose proof (page_pos s A _ Hi (Ho _ Ht)) as P1. pose proof (page_pos s A _ Hi (Ho _ Ht')) as P2.
  apply NoDup_cons in Hnd as [D1 Hnd]. apply NoDup_cons in Hnd as [D2 Hnd]. apply NoDup_app in Hnd as (D3 & _ & _).
  split; [done|]. split; [lia|]. split; [lia|]. split.
  - intros e He. pose proof (page_pos s A _ Hi (Ho _ (Hn e He))).
    pose proof (block_apart s A tbl (e_node e) Hi (Ho _ Ht) (Ho _ (Hn e He))) as A1.
    pose proof (block_apart s A (tbl + 4096) (e_node e) Hi (Ho _ Ht') (Ho _ (Hn e He))) as A2.
    specialize (A1 ltac:(intros Eq; apply D1; rewrite Eq; right; apply elem_of_app; left; by apply node_in)).
    specialize (A2 ltac:(intros Eq; apply D2; rewrite Eq; apply elem_of_app; left; by apply node_in)). lia.
  - intros e e' He He' Hne. by apply (block_apart s A); auto.
Qed.

Lemma cache_layout lk s A E : cache_ok lk s A E -> layout tbl E.
Proof. intros []. by eapply pages_layout. Qed.

(** ** Moves that leave the entries alone *)

(** Same entries in [s']: the memory may differ at the access stamps and flags. *)
Lemma cache_frame lk lk' s s' A A' E : cache_ok lk s A E -> pa_inv s' A' -> (forall p, p ∈ pc_pages tbl E -> (p, 0) ∈ A') ->
  agree (fun x => (within tbl 8192 x \/ exists e, e ∈ E /\ within (e_node e) 4096 x) /\
                  forall e, e ∈ E -> ~ within (e_node e + 24) 16 x) (k_mem s) (k_mem s') ->
  pc_hash_table (k_pc s') = pc_hash_table (k_pc s) -> pc_max_pages (k_pc s') = pc_max_pages (k_pc s) ->
  pc_total_pages (k_pc s') = pc_total_pages (k_pc s) -> pc_lru_head (k_pc s') = pc_lru_head (k_pc s) ->
  pc_lru_tail (k_pc s') = pc_lru_tail (k_pc s) -> pc_lock (k_pc s') = lk' -> cache_ok lk' s' A' E.
Proof.
  intros Hc Hi Ho Hag E1 E2 E3 E4 E5 E6. pose proof (cache_layout _ _ _ _ Hc) as (L1 & L2 & L3 & L4 & L5). destruct Hc as [C1 C2 C3 C4 C5 C6 C7 C8 C9 C10 C11].
  assert (Hd : forall e e', e ∈ E -> e' ∈ E -> e_node e = e_node e' \/ e_node e + 4096 <= e_node e' \/ e_node e' + 4096 <= e_node e).
  { intros a b Ha Hb. destruct (decide (e_node a = e_node b)); [by left|right]. by apply L5. }
  assert (Hpart : forall k n, (k + n <= 24 \/ 40 <= k) -> 0 <= k -> k + n <= 4096 -> forall e, e ∈ E -> agree (within (e_node e + k) n) (k_mem s) (k_mem s')).
  { intros k n Hk H0 H1 e He. eapply agree_mono; [|exact Hag]. intros x Hx. split; [right; exists e; split; [done|pcarith]|].
    intros e' He' Hw. destruct (Hd e e' He He'); pcarith. }
  split; try done; try congruence.
  - apply (hash_frame (k_mem s)); [|apply Hpart; pcoff; lia|done]. eapply agree_mono; [|exact Hag]. intros x Hx. split; [by left|].
    intros e He Hw. destruct (L4 e He) as (_ & _ & X). pcarith.
  - rewrite E4, E5. apply (lru_frame (k_mem s)); [apply Hpart; pcoff; lia|done].
  - apply (fields_frame (k_mem s)); [|done]. intros e He. rewrite <- (Z.add_0_r (e_node e)). apply (Hpart 0 24); [lia|lia|lia|done].
Qed.

(** Changes of the statics only. *)
Lemma cache_pc lk lk' s c A E : cache_ok lk s A E ->
  pc_hash_table c = pc_hash_table (k_pc s) -> pc_max_pages c = pc_max_pages (k_pc s) ->
  pc_total_pages c = pc_total_pages (k_pc s) -> pc_lru_head c = pc_lru_head (k_pc s) ->
  pc_lru_tail c = pc_lru_tail (k_pc s) -> pc_lock c = lk' -> cache_ok lk' (set_pc c s) A E.
Proof.
  intros Hc E1 E2 E3 E4 E5 E6. apply (cache_frame lk lk' s (set_pc c s) A); try done; [|apply Hc].
  apply (pa_frame s); [apply Hc|done|done|done].
Qed.

Lemma wp_pc_acquire s A E (Q : unit -> kst -> Prop) : cache_ok 0 s A E ->
  (forall s', k_mem s' = k_mem s -> s' = upd_pc (pc_set_lock 1) s -> cache_ok 1 s' A E -> Q tt s') -> wp pc_acquire Q s.
Proof.
  intros Hc HQ. unfold pc_acquire, acquire_var. apply wp_bind, wp_gets. rewrite (co_lock _ _ _ _ Hc). cbn [Z.eqb]. apply wp_modify.
  apply HQ; [done|done|]. by apply (cache_pc 0 1 s (pc_set_lock 1 (k_pc s)) A E Hc).
Qed.
Lemma wp_pc_release s A E (Q : unit -> kst -> Prop) : cache_ok 1 s A E ->
  (forall s', k_mem s' = k_mem s -> s' = upd_pc (pc_set_lock 0) s -> cache_ok 0 s' A E -> Q tt s') -> wp pc_release Q s.
Proof. intros Hc HQ. apply wp_modify. apply HQ; [done|done|]. by apply (cache_pc 1 0 s (pc_set_lock 0 (k_pc s)) A E Hc). Qed.

(** Giving back a page that is not the cache's. *)
Lemma cache_free_page lk s A E p : cache_ok lk s A E -> (p, 0) ∈ A -> p ∉ pc_pages tbl E ->
  exists s' A', buddy_free_pages p 0 s = Done tt s' /\ same_statics s s' /\ cache_ok lk s' A' E /\
    (forall b, b ∈ A' <-> b ∈ A /\ b <> (p, 0)) /\ agree (in_block A') (k_mem s) (k_mem s').
Proof.
  intros Hc Hp Hn. destruct (pa_free_in s A p (co_alloc _ _ _ _ Hc) Hp) as (s' & A' & Hrun & Hst & Hi & HA & Hag).
  exists s', A'. split; [done|]. split; [done|]. split; [|by split].
  assert (Ho : forall q, q ∈ pc_pages tbl E -> (q, 0) ∈ A').
  { intros q Hq. apply HA. split; [by apply Hc|]. intros [= ->]. done. }
  pose proof Hst as (_ & _ & _ & _ & Epc). pose proof (co_lock _ _ _ _ Hc) as El. apply (cache_frame lk lk s s' A); try (by rewrite Epc); try done.
  eapply agree_mono; [|exact Hag]. intros x [Hx _]. destruct Hx as [Hx|(e & He & Hx)].
  - destruct (decide (x < tbl + 4096)); [exists tbl, 0|exists (tbl + 4096), 0]; (split; [apply Ho|rewrite sz_0; pcarith]); [left|right; left].
  - exists (e_node e), 0. rewrite sz_0. split; [|done]. apply Ho. right. right. apply elem_of_app. left. by apply node_in.
Qed.

(** A new page. *)
Lemma cache_new_page lk s A E : cache_ok lk s A E ->
  exists r s', buddy_alloc_pages 0 BUDDY_ZONE_UNMOVABLE s = Done r s' /\
    ((r = 0 /\ s' = s) \/
     (r <> 0 /\ same_statics s s' /\ cache_ok lk s' ((r, 0) :: A) E /\ (r, 0) ∉ A /\ agree (in_block A) (k_mem s) (k_mem s'))).
Proof.
  intros Hc. destruct (pa_alloc s A (co_alloc _ _ _ _ Hc)) as (r & s' & Hrun & Hst & Hcase). exists r, s'. split; [done|].
  destruct Hcase as [H|(Hb & Hi & Hn & Hag)]; [by left|right]. split; [destruct Hb as (_ & Hb & _); lia|]. split; [done|]. split; [|by split].
  pose proof Hst as (_ & _ & _ & _ & Epc). pose proof (co_lock _ _ _ _ Hc) as El. apply (cache_frame lk lk s s' A); try (by rewrite Epc); try done.
  - intros q Hq. right. by apply Hc.
  - eapply agree_mono; [|exact Hag]. intros x [Hx _]. destruct Hx as [Hx|(e & He & Hx)].
    + destruct (decide (x < tbl + 4096)); [exists tbl, 0|exists (tbl + 4096), 0]; (split; [apply Hc|rewrite sz_0; pcarith]); [left|right; left].
    + exists (e_node e), 0. rewrite sz_0. split; [|done]. apply Hc. right. right. apply elem_of_app. left. by apply node_in.
Qed.

Lemma cache_length lk s A E : cache_ok lk s A E -> Z.of_nat (length E) <= 2 ^ 40.
Proof.
  intros Hc. rewrite <- (length_fmap e_node). apply pages_length.
  - by destruct (cache_layout _ _ _ _ Hc) as (H & _).
  - intros a Ha. apply (pa_block s A a 0 (co_alloc _ _ _ _ Hc)). apply Hc. right. right. apply elem_of_app. by left.
Qed.
(** ** Losing and gaining an entry *)

Lemma meta_owned lk s A E x : cache_ok lk s A E -> meta tbl E x -> in_block A x.
Proof.
  intros Hc [Hx|(e & He & Hx)].
  - destruct (decide (x < tbl + 4096)); [exists tbl, 0|exists (tbl + 4096), 0]; (split; [apply Hc|rewrite sz_0; pcarith]); [left|right; left].
  - exists (e_node e), 0. rewrite sz_0. split; [|done]. apply Hc. right. right. apply elem_of_app. left. by apply node_in.
Qed.

Lemma client_not_meta A E x : pc_client A E x <-> in_block A x /\ ~ meta tbl E x.
Proof. unfold pc_client, meta. split; [intros (H1 & H2 & H3); split; [done|]; intros [|(e & He & Hx)]; [done|by apply (H3 e He)]|].
  intros [H1 H2]. split; [done|]. split; [tauto|]. intros e He Hx. apply H2. eauto. Qed.

(** The state once the entry [e] is unlinked and [total_pages] is less by one. *)
Lemma cache_drop lk s A E1 e E2 m c : cache_ok lk s A (E1 ++ e :: E2) ->
  hash_ok m tbl (E1 ++ E2) -> lru_ok m (pc_lru_head c) (pc_lru_tail c) (E1 ++ E2) -> fields_ok m (E1 ++ e :: E2) ->
  agree (fun x => ~ meta tbl (E1 ++ e :: E2) x) (k_mem s) m ->
  pc_hash_table c = pc_hash_table (k_pc s) -> pc_max_pages c = pc_max_pages (k_pc s) ->
  pc_total_pages c = u64 (pc_total_pages (k_pc s) - 1) ->
  cache_ok (pc_lock c) (set_pc c (set_mem m s)) A (E1 ++ E2) /\
  e_node e <> e_phys e /\ e_node e ∉ pc_pages tbl (E1 ++ E2) /\ e_phys e ∉ pc_pages tbl (E1 ++ E2) /\ (e_node e, 0) ∈ A /\ (e_phys e, 0) ∈ A.
Proof.
  intros Hc Hh Hl Hf Hag E3 E4 E5. pose proof (cache_length _ _ _ _ Hc) as Hlen. pose proof Hc as [C1 C2 C3 C4 C5 C6 C7 C8 C9 C10 C11].
  pose proof (pc_pages_mid tbl E1 e E2) as Hp. rewrite Hp in C10. apply NoDup_cons in C10 as [D1 C10]. apply NoDup_cons in C10 as [D2 C10].
  assert (Hin : forall p, p ∈ e_node e :: e_phys e :: pc_pages tbl (E1 ++ E2) -> (p, 0) ∈ A) by (intros p; rewrite <- Hp; apply C9).
  split; [split|].
  - apply (pa_frame s); [done| |done|done]. eapply agree_mono; [|exact Hag]. intros x Hx Hm. apply Hx. by eapply meta_owned.
  - done.
  - cbn. congruence.
  - cbn. congruence.
  - cbn [k_pc set_pc set_mem]. rewrite E5, C5. rewrite !length_app in *. cbn [length] in *. rewrite u64_id by lia. lia.
  - done.
  - done.
  - intros x Hx. apply Hf. by apply in_rest.
  - intros p Hx. apply Hin. by right; right.
  - done.
  - apply (sublist_NoDup _ (key <$> E1 ++ e :: E2)); [done|]. apply fmap_sublist, sublist_app; [done|]. by apply sublist_cons.
  - split; [intros Eq; apply D1; rewrite Eq; left|]. split; [intros Hx; apply D1; by right|]. split; [done|].
    split; apply Hin; [left|right; left].
Qed.

(** Pushing a filled entry. *)
Lemma cache_push s A E e m c : cache_ok 1 s A E -> (e_node e, 0) ∈ A -> (e_phys e, 0) ∈ A -> e_node e <> e_phys e ->
  e_node e ∉ pc_pages tbl E -> e_phys e ∉ pc_pages tbl E -> find_key (key e) E = None ->
  hash_ok m tbl (e :: E) -> lru_ok m (pc_lru_head c) (pc_lru_tail c) (e :: E) -> fields_ok m (e :: E) ->
  agree (fun x => ~ meta tbl (e :: E) x) (k_mem s) m ->
  pc_hash_table c = pc_hash_table (k_pc s) -> pc_max_pages c = pc_max_pages (k_pc s) ->
  pc_total_pages c = u64 (pc_total_pages (k_pc s) + 1) -> cache_ok (pc_lock c) (set_pc c (set_mem m s)) A (e :: E).
Proof.
  intros Hc Hn Hp Hnp Hn' Hp' Hk Hh Hl Hf Hag E3 E4 E5. pose proof (cache_length _ _ _ _ Hc) as Hlen. pose proof Hc as [C1 C2 C3 C4 C5 C6 C7 C8 C9 C10 C11].
  pose proof (pc_pages_mid tbl [] e E) as Hpp. cbn [app] in Hpp. split.
  - apply (pa_frame s); [done| |done|done]. eapply agree_mono; [|exact Hag]. intros x Hx Hm. apply Hx.
    destruct Hm as [Hm|(q & [->|Hq]%elem_of_cons & Hm)]; [eapply meta_owned; [done|by left]| |eapply meta_owned; [done|right; eauto]].
    exists (e_node e), 0. by rewrite sz_0.
  - done.
  - cbn. congruence.
  - cbn. congruence.
  - cbn [k_pc set_pc set_mem]. rewrite E5, C5. cbn [length]. rewrite u64_id by lia. lia.
  - done.
  - done.
  - done.
  - intros p. rewrite Hpp. intros [->|[->|Hx]%elem_of_cons]%elem_of_cons; auto.
  - rewrite Hpp. apply NoDup_cons. split; [|by apply NoDup_cons]. intros [Ex|?]%elem_of_cons; [by apply Hnp|done].
  - cbn [fmap list_fmap]. apply NoDup_cons. split; [|done]. intros (x & Ex & Hx)%list_elem_of_fmap.
    by apply (proj1 (find_key_None (key e) E) Hk x Hx).
Qed.
End cache.
