(* ===== verification/PageCacheProps.v ===== *)
(** The page cache as its clients see it: a map from (file, offset) to physical pages of
    bounded size, whose oldest entry makes room for a new one. *)
From S2P Require Import Prelude Machine DList Buddy BuddyInv BuddyTrace BuddyProps PageAlloc KString SList Slab PageCache PageCacheInv PageCacheThms.

#[local] Opaque load store.

Lemma lru_add_exec a s : lru_add_to_head a s =
  Done tt (set_pc (pc_set_tail (if pc_lru_tail (k_pc s) =? NULL then a else pc_lru_tail (k_pc s)) (pc_set_head a (k_pc s)))
    (set_mem (lru_link (k_mem s) (pc_lru_head (k_pc s)) a) s)).
Proof.
  destruct s as [m b pm sl hp cw dp [c1 c2 c3 c4 c5 c6 c7 c8 c9 c10]].
  unfold lru_add_to_head, link_front, when, pc_get, pc_put, mbind, M_bind, load64, store64, gets, modify, mret, M_ret, upd_pc.
  cbn [k_mem k_pc pc_lru_tail pc_lru_head set_mem set_pc]. cbv zeta.
  destruct (Z.eqb_spec c3 NULL); cbn [negb]; cbn [k_mem k_pc pc_lru_tail pc_set_head set_mem set_pc]; destruct (Z.eqb_spec c4 NULL); reflexivity.
Qed.

Lemma bucket_head_exec h s : bucket_head h s = Done (load 8 (k_mem s) (pc_hash_table (k_pc s) + 8 * h)) s.
Proof. done. Qed.

(** ** Initialisation *)

Section init.
Context `{PA : PageAllocator 0 (buddy_alloc_pages 0 BUDDY_ZONE_UNMOVABLE) (fun a => buddy_free_pages a 0)}.

(** The statics [page_cache_init] leaves, the table apart. *)
Definition fresh_pc (mx : Z) (c : pc_st) : pc_st :=
  mkPc (pc_hash_table c) 1024 NULL NULL 0 mx 0 0 0 (pc_counter c).

Lemma init_runs s A mx : pa_inv s A -> exists s', page_cache_init mx s = Done tt s' /\
  ((k_pc s' = pc_set_table NULL (fresh_pc mx (k_pc s)) /\ pa_inv s' A /\ k_mem s' = k_mem s) \/
   exists tbl s1, buddy_alloc_pages 0 BUDDY_ZONE_UNMOVABLE (set_pc (fresh_pc mx (k_pc s)) s) = Done tbl s1 /\ tbl <> NULL /\
     k_pc s' = pc_set_table tbl (fresh_pc mx (k_pc s)) /\
     agree (fun x => in_block A x /\ ~ within tbl 8192 x) (k_mem s) (k_mem s') /\
     (forall x, within tbl 8192 x -> mget (k_mem s') x = 0) /\
     ((tbl + 4096, 0) ∈ A -> cache_ok tbl mx 0 s' ((tbl, 0) :: A) [])).
Proof.
  intros Hi. apply wp_Done_eq. unfold page_cache_init.
  apply wp_bind, wp_modify, wp_bind, wp_modify, wp_bind, wp_gets. cbn [k_pc upd_pc set_pc pc_hash_size pc_set_size].
  change (negb (Z.land DEFAULT_HASH_SIZE (u32 (DEFAULT_HASH_SIZE - 1)) =? 0)) with false. cbn [when]. apply wp_bind, wp_ret.
  do 6 apply wp_bind, wp_modify. apply wp_bind.
  match goal with |- wp _ _ ?x => change x with (set_pc (fresh_pc mx (k_pc s)) s) end. set (s0 := set_pc _ s).
  assert (Hi0 : pa_inv s0 A) by (by apply (pa_frame s)).
  destruct (pa_alloc s0 A Hi0) as (r & s1 & Hrun & Hst & Hcase). eapply wp_of_Done; [exact Hrun|]. pose proof Hst as (_ & _ & _ & _ & Ep).
  destruct Hcase as [[-> ->]|(Hb & Hi1 & Hnew & Hag)].
  { cbn [Z.eqb]. apply wp_modify. split; [done|]. left. split; [done|]. split; [|done]. by apply (pa_frame s0). }
  destruct Hb as (_ & Hp & _ & Hlim). rewrite sz_0 in Hlim. unfold PHYS_LIMIT in Hlim. rewrite (proj2 (Z.eqb_neq r 0)) by lia.
  apply wp_bind, wp_modify, wp_bind, wp_gets, wp_bind, wp_gets. cbn [k_pc upd_pc set_pc pc_hash_size pc_hash_table pc_set_table]. rewrite Ep.
  cbn [k_pc s0 set_pc fresh_pc pc_hash_size]. change (1024 * 8) with 8192. apply wp_bind. unfold memset. apply wp_bind, wp_fill8; [lia|].
  intros m Hagm Hz. apply wp_ret, wp_ret. change (u8 0) with 0 in Hz. split; [done|]. right. exists r, s1. split; [done|]. split; [unfold NULL; lia|].
  split; [cbn; by rewrite Ep|]. split.
  { etrans; [eapply agree_mono; [|exact Hag]; by intros x [Hx _]|eapply agree_mono; [|exact Hagm]; by intros x [_ Hx]]. }
  split; [done|]. intros Hsp. split; cbn [k_pc k_mem set_mem set_pc upd_pc]; try (by rewrite Ep).
  - apply (pa_frame s1); [done| |done|done]. eapply agree_mono; [|exact Hagm]. intros x Hx Hw. apply Hx.
    destruct (decide (x < r + 4096)); [exists r, 0|exists (r + 4096), 0]; (split; [first [left; done|by right]|rewrite sz_0; unfold within in *; lia]).
  - intros h Hh. rewrite load_zero; [done|]. intros x Hx. apply Hz. change (Z.of_nat 8) with 8 in Hx. unfold within in *. lia.
  - intros e He. by apply not_elem_of_nil in He.
  - intros p. unfold pc_pages. cbn [nodes fmap list_fmap app]. intros [->|[->|[]%not_elem_of_nil]%elem_of_cons]%elem_of_cons; [left|by right].
  - unfold pc_pages. cbn [nodes fmap list_fmap app]. apply NoDup_cons. split; [|apply NoDup_singleton]. intros Hx%list_elem_of_singleton. lia.
  - constructor.
Qed.
End init.

Section cache.
Context `{PA : PageAllocator 0 (buddy_alloc_pages 0 BUDDY_ZONE_UNMOVABLE) (fun a => buddy_free_pages a 0)}.
Context (tbl mx : Z).
Abbreviation ok := (cache_ok tbl mx).
Abbreviation client := (pc_client tbl).

Lemma bucket_length h E : (length (bucket h E) <= length E)%nat.
Proof using. apply sublist_length, sublist_filter. Qed.

(** The search of the chain of a key. *)
Lemma find_runs lk s A E f o : ok lk s A E ->
  while (load 8 (k_mem s) (tbl + 8 * hash_function f o)) (find_entry f o) s =
    Done (match find_key (f, o) E with Some e => e_node e | None => NULL end) s.
Proof.
  intros Hc. rewrite <- find_key_bucket. pose proof (cache_length _ _ _ _ _ _ Hc) as Hlen. apply find_entry_exec.
  - apply (co_hash _ _ _ _ _ _ Hc), hash_bound.
  - intros e [_ He]%bucket_elem. by apply (co_fields _ _ _ _ _ _ Hc).
  - pose proof (bucket_length (hash_function f o) E). lia.
Qed.

Lemma table_nonnull lk s A E : ok lk s A E -> pc_hash_table (k_pc s) = tbl /\ tbl <> NULL.
Proof.
  intros Hc. split; [apply Hc|]. destruct (page_pos s A tbl (co_alloc _ _ _ _ _ _ Hc)) as [H _]; [apply Hc; left|]. unfold NULL. lia.
Qed.

Lemma node_pos lk s A E e : ok lk s A E -> e ∈ E -> 0 < e_node e.
Proof. intros Hc He. destruct (cache_layout _ _ _ _ _ _ Hc) as (_ & _ & _ & L & _). by apply L. Qed.

(** ** Lookup *)

(** The counters after a lookup. *)
Definition counted (E : list entry) (k : Z * Z) (c c' : pc_st) : Prop :=
  match find_key k E with
  | Some _ => pc_cache_hits c' = u64 (pc_cache_hits c + 1) /\ pc_cache_misses c' = pc_cache_misses c
  | None => pc_cache_hits c' = pc_cache_hits c /\ pc_cache_misses c' = u64 (pc_cache_misses c + 1)
  end.

Lemma lookup_runs s A E f o : ok 0 s A E -> exists s', page_cache_lookup f o s = Done (cached (f, o) E) s' /\
  s' = set_pc (k_pc s') (set_mem (k_mem s') s) /\ ok 0 s' A E /\ counted E (f, o) (k_pc s) (k_pc s') /\
  agree (client A E) (k_mem s) (k_mem s').
Proof.
  intros Hc. destruct (table_nonnull _ _ _ _ Hc) as [Et Hnn]. apply wp_Done_eq. unfold page_cache_lookup.
  apply wp_bind, wp_gets. rewrite Et, (proj2 (Z.eqb_neq tbl NULL)) by done. apply wp_bind.
  apply (wp_pc_acquire tbl mx s A E); [done|]. intros s1 Em Es1 Hc1. apply wp_bind. eapply wp_of_Done; [apply bucket_head_exec|].
  rewrite (co_table _ _ _ _ _ _ Hc1). apply wp_bind. eapply wp_of_Done; [by apply (find_runs 1 s1 A E)|].
  unfold cached, counted. destruct (find_key (f, o) E) as [e|] eqn:Ek.
  - apply find_key_Some in Ek as [He Hk]. pose proof (node_pos _ _ _ _ _ Hc He) as Hp.
    rewrite (proj2 (Z.eqb_neq (e_node e) NULL)) by (unfold NULL; lia). cbn [negb].
    apply wp_bind. unfold get_timestamp. apply wp_bind, wp_gets, wp_bind, wp_modify, wp_ret.
    apply wp_bind, wp_modify, wp_bind, wp_gets, wp_bind, wp_modify, wp_bind, wp_gets, wp_bind. cbn [k_pc k_mem set_mem].
    set (m := store 8 _ _ _). assert (Hag : agree (fun x => ~ within (e_node e + 24) 16 x) (k_mem s1) m).
    { unfold m. intros x Hx. cbn [k_mem upd_pc set_pc]. by rewrite mget_store_out by pcarith. }
    assert (Hm : load 8 m (e_node e + E_PHYSICAL) = e_phys e).
    { rewrite (load_agree 8 (k_mem s1)) by (eapply agree_mono; [|exact Hag]; pcarith). by apply (co_fields _ _ _ _ _ _ Hc1). }
    apply (wp_pc_release tbl mx _ A E).
    + apply (cache_frame tbl mx 1 1 s1 _ A); try done; try (by rewrite Es1).
      * apply (pa_frame s1); [apply Hc1| |by rewrite Es1|by rewrite Es1]. eapply agree_mono; [|exact Hag]. intros x Hx Hw. apply Hx.
        exists (e_node e), 0. rewrite sz_0. split; [|pcarith]. apply Hc. right. right. apply elem_of_app. left. by apply node_in.
      * apply Hc.
      * eapply agree_mono; [|exact Hag]. intros x [_ Hx]. by apply Hx.
    + intros s2 Em2 Es2 Hc2. apply wp_ret. split; [exact Hm|]. split; [by rewrite Es2, Es1|]. split; [done|].
      split; [by rewrite Es2, Es1|]. rewrite Em2. cbn [k_mem set_mem upd_pc set_pc]. rewrite Em in Hag. eapply agree_mono; [|exact Hag].
      intros x (_ & _ & Hx) Hw. apply (Hx e He). pcarith.
  - cbn [Z.eqb NULL negb]. apply wp_bind, wp_gets, wp_bind, wp_modify, wp_bind.
    apply (wp_pc_release tbl mx _ A E); [by apply (cache_pc tbl mx 1 1 s1 (pc_set_misses (u64 (pc_cache_misses (k_pc s1) + 1)) (k_pc s1)) A E Hc1), Hc1|].
    intros s2 Em2 Es2 Hc2. apply wp_ret. split; [done|]. split; [rewrite Es2, Es1; by destruct s|]. split; [done|].
    split; [by rewrite Es2, Es1|]. rewrite Em2. cbn [k_mem upd_pc set_pc]. by rewrite Em.
Qed.
(** ** Eviction and removal *)

(** An unlinked entry keeps its fields. *)
Lemma lru_prev_apart m E1 e E2 head tail : layout tbl (E1 ++ e :: E2) -> lru_ok m head tail (E1 ++ e :: E2) ->
  let q := load 8 m (e_node e + E_LRU_PREV) in q = NULL \/ e_node e + 64 <= q \/ q + 64 <= e_node e.
Proof using.
  intros L [Hl _] q. destruct lru_offsets as (O1 & O2 & O3). pose proof (lru_separated _ _ L) as Hsep. pose proof L as (Hnd & _).
  rewrite nodes_app in *. cbn [nodes fmap list_fmap] in *. fold (nodes E2) in *.
  destruct (unlink_neighbours _ _ 64 O1 O2 m head (nodes E1) (e_node e) (nodes E2) Hsep Hnd Hl) as (_ & _ & Ha & _ & _ & Haq & _).
  fold q in Haq. destruct (decide (q = NULL)) as [|Hq]; [by left|right]. by apply Haq.
Qed.

(** The bytes of the clients when an entry goes. *)
Lemma client_drop A A' E1 e E2 x : client A' (E1 ++ E2) x -> (forall b, b ∈ A' -> b ∈ A /\ b <> (e_node e, 0)) ->
  (exists s, pa_inv s A) -> (e_node e, 0) ∈ A -> client A (E1 ++ e :: E2) x.
Proof.
  intros [Hb Hm]%client_not_meta HA [s Hi] He. apply client_not_meta. destruct Hb as (b & ob & Hin & Hw). destruct (HA _ Hin) as [HinA Hne].
  split; [by exists b, ob|]. intros [Hx|(q & Hq & Hx)]; [apply Hm; by left|].
  apply elem_of_app in Hq as [Hq|[->|Hq]%elem_of_cons]; [apply Hm; right; exists q; eauto with inlist| |apply Hm; right; exists q; eauto with inlist].
  pose proof (pa_disj s A b ob (e_node e) 0 Hi HinA He Hne) as Hd. unfold disj in Hd. rewrite sz_0 in Hd. unfold within in *. lia.
Qed.

(** Which blocks the clients and the cache still have after an eviction. *)
Definition evicted (A : blocks) (E : list entry) (A' : blocks) : Prop :=
  match last E with
  | None => A' = A
  | Some e => forall b, b ∈ A' <-> b ∈ A /\ b <> (e_phys e, 0) /\ b <> (e_node e, 0)
  end.

(** The statics after an entry is unlinked. *)
Definition out_pc (m : mem) (c : pc_st) (a : Z) : pc_st :=
  pc_set_total (u64 (pc_total_pages c - 1)) (pc_set_tail (new_tail m (pc_lru_tail c) a)
    (pc_set_head (unlink_head E_LRU_NEXT E_LRU_PREV m (pc_lru_head c) a) c)).

(** Counters are kept. *)
Definition same_counts (s s' : kst) : Prop :=
  pc_cache_hits (k_pc s') = pc_cache_hits (k_pc s) /\ pc_cache_misses (k_pc s') = pc_cache_misses (k_pc s).

Lemma evict_runs s A E : ok 0 s A E -> exists s', page_cache_evict_lru s = Done tt s' /\
  exists A', evicted A E A' /\ ok 0 s' A' (removelast E) /\ agree (client A' (removelast E)) (k_mem s) (k_mem s') /\ same_counts s s'.
Proof.
  intros Hc. destruct (table_nonnull _ _ _ _ Hc) as [Et Hnn]. apply wp_Done_eq. unfold page_cache_evict_lru.
  apply wp_bind, wp_gets. rewrite Et, (proj2 (Z.eqb_neq tbl NULL)) by done. apply wp_bind.
  apply (wp_pc_acquire tbl mx s A E); [done|]. intros s1 Em Es1 Hc1. apply wp_bind, wp_gets.
  destruct (co_lru _ _ _ _ _ _ Hc1) as [Hl1 Ht1]. destruct E as [|e E1 _] using rev_ind.
  { cbn in Ht1. rewrite Ht1. cbn [Z.eqb NULL]. apply (wp_pc_release tbl mx s1 A []); [done|]. intros s2 Em2 Es2 Hc2. split; [done|].
    exists A. split; [done|]. split; [done|]. split; [by rewrite Em2, Em|]. by rewrite Es2, Es1. }
  rewrite nodes_app in Ht1. change (nodes [e]) with [e_node e] in Ht1. rewrite last_snoc in Ht1. change (default NULL (Some (e_node e))) with (e_node e) in Ht1.
  pose proof (node_pos _ _ _ _ e Hc ltac:(apply elem_of_app; right; left)) as Hpos. pose proof (cache_layout _ _ _ _ _ _ Hc1) as L.
  rewrite Ht1, (proj2 (Z.eqb_neq (e_node e) NULL)) by (unfold NULL; lia). apply wp_bind, wp_gets. rewrite Ht1.
  pose proof (co_lru _ _ _ _ _ _ Hc1) as Hl. apply wp_bind.
  eapply wp_of_Done; [by eapply lru_remove_exec, lru_prev_apart|].
  destruct (drop_lru_hash tbl E1 e [] L _ _ _ (co_hash _ _ _ _ _ _ Hc1) Hl (co_fields _ _ _ _ _ _ Hc1)) as ((Hh2 & Hf2) & Hh3 & Hl3 & Hf3 & Hag).
  set (m1 := lru_unlink (k_mem s1) (e_node e)) in *. set (m2 := hash_unlink m1 _ _ _ _) in *.
  assert (He : e ∈ E1 ++ [e]) by (apply elem_of_app; right; left). destruct (Hf2 e He) as (F1 & F2 & F3). destruct (Hf3 e He) as (_ & _ & F4).
  apply wp_bind, wp_gets. cbn [k_mem set_pc set_mem]. rewrite F1. apply wp_bind, wp_gets. cbn [k_mem set_pc set_mem]. rewrite F2. fold (ehash e).
  apply wp_bind. eapply wp_of_Done; [apply bucket_head_exec|]. cbn [k_mem k_pc set_pc set_mem pc_hash_table pc_set_tail pc_set_head]. rewrite (co_table _ _ _ _ _ _ Hc1).
  apply wp_bind. pose proof (hash_bound (e_file e) (e_off e)) as Hhe. fold (ehash e) in Hhe.
  eapply wp_of_Done; [apply (walk_exec _ (fun x => e_node x =? e_node e) _ (bucket (ehash e) (E1 ++ [e]))); [by apply Hh2|done|]|].
  { pose proof (bucket_length (ehash e) (E1 ++ [e])). pose proof (cache_length _ _ _ _ _ _ Hc). lia. }
  rewrite bucket_mid_same, walk_mid; [|intros x [_ Hx]%bucket_elem; apply Z.eqb_neq|apply Z.eqb_refl]; cycle 1.
  { intros En. destruct L as (Hnd & _). assert (x = e) as -> by (apply (NoDup_fmap_elem e_node (E1 ++ [e])); [done|eauto with inlist|done|done]).
    rewrite nodes_app in Hnd. apply NoDup_app in Hnd as (_ & Hd & _). apply (Hd (e_node e)); [by apply node_in|left]. }
  cbn [fst snd]. rewrite (proj2 (Z.eqb_neq (e_node e) NULL)) by (unfold NULL; lia). cbn [negb when]. apply wp_bind.
  eapply wp_of_Done; [apply hash_remove_exec|]. cbn [k_mem k_pc set_pc set_mem pc_hash_table pc_set_tail pc_set_head]. rewrite (co_table _ _ _ _ _ _ Hc1).
  fold (chain_prev (ehash e) E1). fold m2. apply wp_bind, wp_gets, wp_bind, wp_modify, wp_bind, wp_gets. cbn [k_mem k_pc upd_pc set_pc set_mem]. rewrite F4.
  rewrite removelast_last. unfold evicted. rewrite last_snoc.
  match goal with |- wp ?c ?Q _ => change (wp c Q (set_pc (out_pc (k_mem s1) (k_pc s1) (e_node e)) (set_mem m2 s1))) end.
  destruct (cache_drop tbl mx 1 s1 A E1 e [] m2 (out_pc (k_mem s1) (k_pc s1) (e_node e)) Hc1 Hh3 Hl3 Hf3 Hag eq_refl eq_refl eq_refl) as (Hc2 & D1 & D2 & D3 & D4 & D5).
  rewrite app_nil_r in *. change (pc_lock _) with (pc_lock (k_pc s1)) in Hc2. rewrite (co_lock _ _ _ _ _ _ Hc1) in Hc2.
  apply wp_bind. destruct (cache_free_page tbl mx 1 _ A E1 (e_phys e) Hc2 D5 D3) as (s3 & A3 & Hrun3 & Hst3 & Hc3 & HA3 & Hag3). eapply wp_of_Done; [exact Hrun3|].
  apply wp_bind. destruct (cache_free_page tbl mx 1 s3 A3 E1 (e_node e) Hc3 ltac:(apply HA3; split; [done|congruence]) D2) as (s4 & A4 & Hrun4 & Hst4 & Hc4 & HA4 & Hag4).
  eapply wp_of_Done; [exact Hrun4|]. apply (wp_pc_release tbl mx s4 A4 E1); [done|]. intros s5 Em5 Es5 Hc5. split; [done|]. exists A4.
  destruct Hst3 as (_ & _ & _ & _ & Ep3). destruct Hst4 as (_ & _ & _ & _ & Ep4).
  split; [intros b; rewrite HA4, HA3; tauto|]. split; [done|]. split.
  - rewrite Em5, <- Em. etrans; [eapply agree_mono; [|exact Hag]|etrans; [eapply agree_mono; [|exact Hag3]|eapply agree_mono; [|exact Hag4]]].
    + intros x Hx. rewrite <- (app_nil_r E1) in Hx. apply (client_drop A A4 E1 e []) in Hx; [by apply client_not_meta in Hx as [_ ?]| |exists s1; apply Hc1|done].
      intros b Hb. apply HA4 in Hb as [Hb ?]. apply HA3 in Hb as [? _]. done.
    + intros x [(b & ob & Hb & Hx) _]. exists b, ob. split; [|done]. by apply HA4 in Hb as [? _].
    + by intros x [Hx _].
  - rewrite Es5. unfold same_counts. cbn [upd_pc set_pc k_pc pc_set_lock pc_cache_hits pc_cache_misses]. rewrite Ep4, Ep3. by rewrite Es1.
Qed.
(** The entries but that of a key. *)
Definition drop_key (k : Z * Z) (E : list entry) : list entry := filter (fun e => key e <> k) E.

Lemma find_key_split k E e : find_key k E = Some e -> NoDup (key <$> E) ->
  exists E1 E2, E = E1 ++ e :: E2 /\ (forall x, x ∈ E1 -> key x <> k) /\ drop_key k E = E1 ++ E2.
Proof using.
  intros Hk Hnd. apply find_key_Some in Hk as [He Hk]. apply list_elem_of_split in He as (E1 & E2 & ->). exists E1, E2.
  rewrite fmap_app in Hnd. cbn [fmap list_fmap] in Hnd. apply NoDup_app in Hnd as (_ & Hd & [Hn _]%NoDup_cons).
  assert (H1 : forall x, x ∈ E1 -> key x <> k).
  { intros x Hx E. apply (Hd (key x)); [by apply list_elem_of_fmap_2|]. rewrite E, <- Hk. left. }
  split; [done|]. split; [done|]. unfold drop_key. rewrite filter_app, filter_cons_False by (intros H; by apply H). f_equal.
  - by apply filter_all.
  - apply filter_all. intros x Hx E. apply Hn. rewrite Hk, <- E. by apply list_elem_of_fmap_2.
Qed.

Lemma drop_key_id k E : find_key k E = None -> drop_key k E = E.
Proof using. intros H. apply filter_all. by apply find_key_None. Qed.

Lemma remove_runs s A E f o : ok 0 s A E -> exists s', page_cache_remove f o s = Done tt s' /\ exists A',
  (forall b, b ∈ A' <-> b ∈ A /\ forall e, find_key (f, o) E = Some e -> b <> (e_node e, 0)) /\
  ok 0 s' A' (drop_key (f, o) E) /\ agree (client A' (drop_key (f, o) E)) (k_mem s) (k_mem s') /\ same_counts s s'.
Proof.
  intros Hc. destruct (table_nonnull _ _ _ _ Hc) as [Et Hnn]. apply wp_Done_eq. unfold page_cache_remove.
  apply wp_bind, wp_gets. rewrite Et, (proj2 (Z.eqb_neq tbl NULL)) by done. apply wp_bind.
  apply (wp_pc_acquire tbl mx s A E); [done|]. intros s1 Em Es1 Hc1. apply wp_bind. eapply wp_of_Done; [apply bucket_head_exec|].
  rewrite (co_table _ _ _ _ _ _ Hc1). pose proof (hash_bound f o) as Hh. apply wp_bind.
  eapply wp_of_Done; [apply (walk_exec _ (fun x => bool_decide (key x = (f, o))) _ (bucket (hash_function f o) E)); [by apply Hc1| |]|].
  { intros e [_ He]%bucket_elem. by apply entry_matches_exec, Hc1. }
  { pose proof (bucket_length (hash_function f o) E). pose proof (cache_length _ _ _ _ _ _ Hc). lia. }
  destruct (find_key (f, o) E) as [e|] eqn:Ek; cycle 1.
  { rewrite walk_none; cycle 1.
    { intros e [_ He]%bucket_elem. apply bool_decide_eq_false_2. by apply (proj1 (find_key_None _ _) Ek). }
    cbn [Z.eqb NULL negb]. rewrite drop_key_id by done. apply (wp_pc_release tbl mx s1 A E); [done|]. intros s2 Em2 Es2 Hc2.
    split; [done|]. exists A. split; [naive_solver|]. split; [done|]. split; [by rewrite Em2, Em|]. by rewrite Es2, Es1. }
  destruct (find_key_split _ _ _ Ek (co_keys _ _ _ _ _ _ Hc)) as (E1 & E2 & -> & H1 & Hdrop). rewrite Hdrop.
  apply find_key_Some in Ek as [He Hk]. pose proof (cache_layout _ _ _ _ _ _ Hc1) as L. pose proof (node_pos _ _ _ _ e Hc He) as Hpos.
  assert (Ehe : hash_function f o = ehash e) by (unfold ehash; by injection Hk as -> ->). rewrite Ehe.
  rewrite bucket_mid_same, walk_mid; [|intros x [_ Hx]%bucket_elem; apply bool_decide_eq_false_2; by apply H1|by apply bool_decide_eq_true_2].
  cbn [fst snd]. rewrite (proj2 (Z.eqb_neq (e_node e) NULL)) by (unfold NULL; lia). cbn [negb]. fold (chain_prev (ehash e) E1).
  destruct (drop_hash_lru tbl E1 e E2 L _ _ _ (co_hash _ _ _ _ _ _ Hc1) (co_lru _ _ _ _ _ _ Hc1) (co_fields _ _ _ _ _ _ Hc1)) as (Hh3 & Hl3 & Hf3 & Hag).
  apply wp_bind. eapply wp_of_Done; [apply hash_remove_exec|]. rewrite (co_table _ _ _ _ _ _ Hc1).
  set (m1 := hash_unlink (k_mem s1) _ _ _ _) in *. set (m2 := lru_unlink m1 (e_node e)) in *. apply wp_bind.
  eapply wp_of_Done; [apply lru_remove_exec|].
  { apply (lru_prev_apart m1 E1 e E2 (pc_lru_head (k_pc s1)) (pc_lru_tail (k_pc s1)) L). apply (lru_frame (k_mem s1)); [|apply Hc1].
    intros q Hq. by apply (hm_keep tbl E1 e E2 L (k_mem s1) q E_LRU_NEXT 16); [| |right|]. }
  apply wp_bind, wp_gets, wp_bind, wp_modify.
  match goal with |- wp ?c ?Q _ => change (wp c Q (set_pc (out_pc m1 (k_pc s1) (e_node e)) (set_mem m2 s1))) end.
  destruct (cache_drop tbl mx 1 s1 A E1 e E2 m2 (out_pc m1 (k_pc s1) (e_node e)) Hc1 Hh3 Hl3 Hf3 Hag eq_refl eq_refl eq_refl) as (Hc2 & D1 & D2 & D3 & D4 & D5).
  change (pc_lock _) with (pc_lock (k_pc s1)) in Hc2. rewrite (co_lock _ _ _ _ _ _ Hc1) in Hc2.
  apply wp_bind. destruct (cache_free_page tbl mx 1 _ A _ (e_node e) Hc2 D4 D2) as (s3 & A3 & Hrun3 & Hst3 & Hc3 & HA3 & Hag3). eapply wp_of_Done; [exact Hrun3|].
  apply (wp_pc_release tbl mx s3 A3 (E1 ++ E2)); [done|]. intros s5 Em5 Es5 Hc5. split; [done|]. exists A3.
  destruct Hst3 as (_ & _ & _ & _ & Ep3). split; [intros b; rewrite HA3; naive_solver|]. split; [done|]. split.
  - rewrite Em5, <- Em. etrans; [eapply agree_mono; [|exact Hag]|eapply agree_mono; [|exact Hag3]]; [|by intros x [Hx _]].
    intros x Hx. apply (client_drop A A3 E1 e E2) in Hx; [by apply client_not_meta in Hx as [_ ?]| |exists s1; apply Hc1|done].
    intros b Hb. by apply HA3 in Hb.
  - rewrite Es5. unfold same_counts. cbn [upd_pc set_pc k_pc pc_set_lock pc_cache_hits pc_cache_misses]. rewrite Ep3. by rewrite Es1.
Qed.
(** ** Insertion *)

(** The entry is filled and linked in front of its chain. *)
Lemma fill_runs s A E e head tail : ok 1 s A E -> layout tbl (e :: E) -> lru_ok (k_mem s) head tail E ->
  0 <= e_file e < 2 ^ 64 -> 0 <= e_off e < 2 ^ 64 -> 0 <= e_phys e < 2 ^ 64 ->
  wp (fill_entry (e_node e) (ehash e) (e_file e) (e_off e) (e_phys e)) (fun _ s' => exists m,
    s' = set_pc (pc_set_counter (u64 (pc_counter (k_pc s) + 1)) (k_pc s)) (set_mem m s) /\
    hash_ok m tbl (e :: E) /\ lru_ok m head tail E /\ fields_ok m (e :: E) /\ agree (fun x => ~ meta tbl (e :: E) x) (k_mem s) m) s.
Proof.
  intros Hc L Hl Hbf Hbo Hbp. pose proof L as (_ & L2 & L3 & L4 & _). destruct (L4 e ltac:(left)) as (Hp & Hp2 & Ht). unfold fill_entry.
  pose proof (hash_bound (e_file e) (e_off e)) as Hh. fold (ehash e) in Hh.
  apply wp_bind, wp_modify, wp_bind, wp_modify, wp_bind, wp_modify, wp_bind. unfold get_timestamp.
  apply wp_bind, wp_gets, wp_bind, wp_modify, wp_ret.
  apply wp_bind, wp_modify, wp_bind, wp_modify, wp_bind, wp_modify, wp_bind, wp_modify, wp_bind, wp_modify, wp_bind.
  eapply wp_of_Done; [apply bucket_head_exec|]. apply wp_bind, wp_modify, wp_bind, wp_gets, wp_modify.
  cbn [k_mem k_pc set_mem set_pc upd_pc pc_hash_table pc_set_counter]. rewrite (co_table _ _ _ _ _ _ Hc).
  set (m1 := store 8 (store 8 (store 8 _ _ (e_file e)) _ (e_off e)) _ (e_phys e)).
  set (m2 := store 8 (store 8 (store 8 _ _ NULL) _ NULL) _ NULL).
  assert (Hhd : load 8 m2 (tbl + 8 * ehash e) = load 8 (k_mem s) (tbl + 8 * ehash e)) by (unfold m2, m1; rewrite !load_store_ne by pcarith; done).
  rewrite Hhd. set (m3 := store 8 m2 _ _).
  assert (Hag : agree (fun x => ~ within (e_node e) 4096 x) (k_mem s) m3) by (unfold m3, m2, m1; intros x Hx; rewrite !mget_store_out by pcarith; done).
  assert (Hf : field_ok m3 e).
  { unfold field_ok, m3, m2. rewrite !(load_store_ne 8 _ _ _ _) by pcarith. unfold m1. split; [|split]; rewrite ?(load_store_ne 8 8) by pcarith; by rewrite load64_store_eq. }
  assert (Hn : load 8 m3 (e_node e + E_HASH_NEXT) = load 8 (k_mem s) (tbl + 8 * ehash e)) by (unfold m3; apply load64_store_eq, load64_bound).
  assert (Hb : load 8 m3 (tbl + 8 * ehash e) = load 8 (k_mem s) (tbl + 8 * ehash e)).
  { apply load_agree. eapply agree_mono; [|exact Hag]. intros x Hx Hw. pcarith. }
  clearbody m3. eexists. split; [reflexivity|]. clear Hhd m2 m1.
  assert (Hag2 : agree (fun x => ~ within (tbl + 8 * ehash e) 8 x) m3 (store 8 m3 (tbl + 8 * ehash e) (e_node e))) by (by apply agree_store).
  assert (Hoth : forall q, q ∈ E -> agree (within (e_node q) 4096) (k_mem s) m3 /\ (e_node q + 4096 <= tbl \/ tbl + 8192 <= e_node q)).
  { intros q Hq. destruct L as (L1 & _ & _ & _ & L5). apply NoDup_cons in L1 as [L1 _]. split; [|by apply L4; right].
    eapply agree_mono; [|exact Hag]. intros x Hx Hw.
    destruct (L5 e q ltac:(left) ltac:(by right)) as [|]; [intros Eq; apply L1; rewrite Eq; by apply node_in|pcarith..]. }
  split; [|split; [|split]].
  - apply hash_push_ok; [done| |by rewrite Hn, Hb]. apply (hash_frame (k_mem s)); [| |apply Hc].
    + eapply agree_mono; [|exact Hag]. intros x Hx Hw. pcarith.
    + intros q Hq. eapply agree_mono; [|by apply Hoth]. intros x Hx. pcarith.
  - apply (lru_frame (k_mem s)); [|done]. intros q Hq. destruct (Hoth q Hq) as [Hq1 Hq2].
    etrans; [eapply agree_mono; [|exact Hq1]; intros x Hx; pcarith|eapply agree_mono; [|exact Hag2]; intros x Hx Hw; pcarith].
  - intros q [->|Hq]%elem_of_cons.
    + apply (field_frame m3); [|done]. eapply agree_mono; [|exact Hag2]. intros x Hx Hw. pcarith.
    + destruct (Hoth q Hq) as [Hq1 Hq2]. apply (field_frame (k_mem s)); [|by apply Hc].
      etrans; [eapply agree_mono; [|exact Hq1]; intros x Hx; pcarith|eapply agree_mono; [|exact Hag2]; intros x Hx Hw; pcarith].
  - etrans; [eapply agree_mono; [|exact Hag]|eapply agree_mono; [|exact Hag2]]; intros x Hx Hw; apply Hx; [right; exists e; split; [left|done]|left; pcarith].
Qed.
(** The statics after an entry is linked. *)
Definition in_pc (c : pc_st) (a : Z) : pc_st :=
  pc_set_total (u64 (pc_total_pages c + 1)) (pc_set_tail (if pc_lru_tail c =? NULL then a else pc_lru_tail c)
    (pc_set_head a (pc_set_counter (u64 (pc_counter c + 1)) c))).

(** The end of [page_cache_insert], with a page [n] for the entry. *)
Lemma push_runs s A E e : ok 1 s A E -> (e_node e, 0) ∈ A -> (e_phys e, 0) ∈ A -> e_node e <> e_phys e ->
  e_node e ∉ pc_pages tbl E -> e_phys e ∉ pc_pages tbl E -> find_key (key e) E = None ->
  0 <= e_file e < 2 ^ 64 -> 0 <= e_off e < 2 ^ 64 ->
  wp (fill_entry (e_node e) (ehash e) (e_file e) (e_off e) (e_phys e) ;;
      lru_add_to_head (e_node e) ;;
      total ← pc_get pc_total_pages;
      pc_put pc_set_total (u64 (total + 1)) ;;
      pc_release ;;
      mret 0) (fun r s' => r = 0 /\ ok 0 s' A (e :: E) /\ agree (client A (e :: E)) (k_mem s) (k_mem s') /\ same_counts s s') s.
Proof.
  intros Hc Hn Hp Hnp Hn' Hp' Hk Hbf Hbo. pose proof (page_pos s A _ (co_alloc _ _ _ _ _ _ Hc) Hp) as Hpb.
  assert (L : layout tbl (e :: E)).
  { pose proof (pc_pages_mid tbl [] e E) as Hpp. cbn [app] in Hpp. apply (pages_layout tbl s A); [apply Hc| |].
    - intros p. rewrite Hpp. intros [->|[->|Hx]%elem_of_cons]%elem_of_cons; [done|done|by apply Hc].
    - rewrite Hpp. apply NoDup_cons. split; [|apply NoDup_cons; split; [done|by apply Hc]]. intros [Ex|?]%elem_of_cons; [by apply Hnp|done]. }
  apply wp_bind. eapply wp_mono; [apply (fill_runs s A E e _ _ Hc L (co_lru _ _ _ _ _ _ Hc) Hbf Hbo); lia|]. intros _ s1 (m & -> & Hh & Hl & Hf & Hag).
  apply wp_bind. eapply wp_of_Done; [apply lru_add_exec|]. apply wp_bind, wp_gets, wp_bind, wp_modify, wp_bind.
  cbn [k_pc k_mem set_pc set_mem pc_lru_head pc_lru_tail pc_set_counter]. set (m' := lru_link m _ _).
  match goal with |- wp ?c ?Q _ => change (wp c Q (set_pc (in_pc (k_pc s) (e_node e)) (set_mem m' s))) end.
  assert (Hag' : agree (fun x => forall q, q ∈ e :: E -> ~ within (e_node q + E_LRU_NEXT) 16 x) m m') by (by apply (lru_link_agree m _ (pc_lru_tail (k_pc s)))).
  assert (Hcell : forall q k n, q ∈ e :: E -> 0 <= k -> k + n <= 48 -> agree (within (e_node q + k) n) m m').
  { intros q k n Hq H0 H1. eapply agree_mono; [|exact Hag']. intros x Hx q' Hq'.
    apply (cell_apart tbl (e :: E) q q' k n E_LRU_NEXT 16 x); pcoff; auto; lia. }
  assert (Hc' : ok 1 (set_pc (in_pc (k_pc s) (e_node e)) (set_mem m' s)) A (e :: E)).
  { rewrite <- (co_lock _ _ _ _ _ _ Hc) at 1. change (pc_lock (k_pc s)) with (pc_lock (in_pc (k_pc s) (e_node e))).
    apply (cache_push tbl mx s A E e m' (in_pc (k_pc s) (e_node e)) Hc); try done.
    - apply (hash_frame m); [| |done]; [|intros q Hq; by apply Hcell].
      eapply agree_mono; [|exact Hag']. intros x Hx q Hq Hw. by apply (cell_table tbl (e :: E) q E_LRU_NEXT 16 x L Hq ltac:(done) ltac:(done) Hw).
    - by apply (lru_link_ok m tbl).
    - apply (fields_frame m); [|done]. intros q Hq. rewrite <- (Z.add_0_r (e_node q)). by apply Hcell.
    - etrans; [exact Hag|]. eapply agree_mono; [|exact Hag']. intros x Hx. exact (lru_cells_meta tbl (e :: E) (e :: E) x (fun _ H => H) Hx). }
  apply (wp_pc_release tbl mx _ A (e :: E)); [done|]. intros s2 Em2 Es2 Hc2. apply wp_ret. split; [done|]. split; [done|].
  split; [|by rewrite Es2]. rewrite Em2. cbn [k_mem set_pc set_mem]. etrans; [eapply agree_mono; [|exact Hag]|eapply agree_mono; [|exact Hag']].
  - by intros x [_ Hx]%client_not_meta.
  - intros x [_ Hx]%client_not_meta. exact (lru_cells_meta tbl (e :: E) (e :: E) x (fun _ H => H) Hx).
Qed.

(** Room for a new entry: the oldest one goes when the cache is full. *)
Definition room (E : list entry) : list entry := if mx <=? Z.of_nat (length E) then removelast E else E.
Definition room_blocks (A : blocks) (E : list entry) (A' : blocks) : Prop :=
  if mx <=? Z.of_nat (length E) then evicted A E A' else A' = A.

Lemma room_sub E : sublist (room E) E.
Proof using.
  unfold room. destruct (_ <=? _); [|done]. destruct E as [|e E _] using rev_ind; [done|]. rewrite removelast_last. by apply sublist_inserts_r.
Qed.
Lemma find_key_sub k E E' : sublist E' E -> find_key k E = None -> find_key k E' = None.
Proof using. rewrite !find_key_None. intros Hs H e He. apply H. by eapply elem_of_sublist. Qed.

Lemma room_runs s A E : ok 1 s A E ->
  wp (when (mx <=? Z.of_nat (length E)) (pc_release ;; page_cache_evict_lru ;; pc_acquire)) (fun _ s' =>
    exists A', room_blocks A E A' /\ ok 1 s' A' (room E) /\ agree (client A' (room E)) (k_mem s) (k_mem s') /\ same_counts s s') s.
Proof.
  intros Hc. unfold room, room_blocks. destruct (mx <=? Z.of_nat (length E)); cbn [when]; [|apply wp_ret; by exists A].
  apply wp_bind. apply (wp_pc_release tbl mx s A E); [done|]. intros s1 Em1 Es1 Hc1. apply wp_bind.
  destruct (evict_runs s1 A E Hc1) as (s2 & Hrun & A' & HA & Hc2 & Hag & Hs). eapply wp_of_Done; [exact Hrun|].
  apply (wp_pc_acquire tbl mx s2 A' (removelast E)); [done|]. intros s3 Em3 Es3 Hc3. exists A'. split; [done|]. split; [done|].
  split; [by rewrite Em3, <- Em1|]. rewrite Es3, Es1 in *. exact Hs.
Qed.

(** The state of the page cache while its lock is held. *)
Definition pc_held (s : kst) : kst := upd_pc (pc_set_lock 1) s.
Lemma pc_held_release s A E : ok 1 s A E -> pc_held (upd_pc (pc_set_lock 0) s) = s.
Proof using.
  intros Hc. pose proof (co_lock _ _ _ _ _ _ Hc) as El. destruct s as [m b p sl h c d [t n hd tl to ma hi mi l k]]. cbn in El. by subst l.
Qed.

(** The outcomes of an insertion.  It fails only when the allocator, asked in the state in
    which it failed, has no page. *)
Definition inserted (s : kst) (A : blocks) (E : list entry) (f o phys r : Z) (s' : kst) : Prop :=
  match find_key (f, o) E with
  | Some _ => r = 0 /\ ok 0 s' A E /\ agree (client A E) (k_mem s) (k_mem s')
  | None => exists A1, room_blocks A E A1 /\
      ((r = -1 /\ buddy_alloc_pages 0 BUDDY_ZONE_UNMOVABLE (pc_held s') = Done 0 (pc_held s') /\ ok 0 s' A1 (room E) /\ agree (client A1 (room E)) (k_mem s) (k_mem s')) \/
       (r = 0 /\ exists n, (n, 0) ∉ A1 /\ ok 0 s' ((n, 0) :: A1) (mkEntry n f o phys :: room E) /\
          agree (client A1 (room E)) (k_mem s) (k_mem s')))
  end.

Lemma insert_runs s A E f o phys : ok 0 s A E -> (phys, 0) ∈ A -> phys ∉ pc_pages tbl E -> 0 <= f < 2 ^ 64 -> 0 <= o < 2 ^ 64 ->
  exists r s', page_cache_insert f o phys s = Done r s' /\ inserted s A E f o phys r s'.
Proof.
  intros Hc Hp Hp' Hf Ho. destruct (table_nonnull _ _ _ _ Hc) as [Et Hnn]. apply wp_Done. unfold page_cache_insert, inserted.
  destruct (page_pos s A phys (co_alloc _ _ _ _ _ _ Hc) Hp) as [Hpos _].
  apply wp_bind, wp_gets. rewrite Et, (proj2 (Z.eqb_neq tbl NULL)), (proj2 (Z.eqb_neq phys 0)) by first [done|lia]. cbn [orb]. apply wp_bind.
  apply (wp_pc_acquire tbl mx s A E); [done|]. intros s1 Em Es1 Hc1. apply wp_bind. eapply wp_of_Done; [apply bucket_head_exec|].
  rewrite (co_table _ _ _ _ _ _ Hc1). apply wp_bind. eapply wp_of_Done; [by apply (find_runs 1 s1 A E)|].
  destruct (find_key (f, o) E) as [e|] eqn:Ek.
  { apply find_key_Some in Ek as [He Hk]. pose proof (node_pos _ _ _ _ _ Hc He) as Hpe.
    rewrite (proj2 (Z.eqb_neq (e_node e) NULL)) by (unfold NULL; lia). cbn [negb]. apply wp_bind.
    apply (wp_pc_release tbl mx s1 A E); [done|]. intros s2 Em2 Es2 Hc2. apply wp_ret. split; [done|]. split; [done|]. by rewrite Em2, Em. }
  cbn [Z.eqb NULL negb]. apply wp_bind, wp_gets, wp_bind, wp_gets. rewrite (co_total _ _ _ _ _ _ Hc1), (co_max _ _ _ _ _ _ Hc1).
  apply wp_bind. eapply wp_mono; [by apply (room_runs s1 A E)|]. intros _ s2 (A1 & HA1 & Hc2 & Hag2 & _). rewrite Em in Hag2.
  assert (HpA1 : (phys, 0) ∈ A1).
  { unfold room_blocks, evicted in HA1. destruct (_ <=? _); [|by subst A1]. destruct (last E) as [z|] eqn:El; [|by subst A1].
    apply last_Some_elem_of in El. apply HA1. split; [done|].
    split; intros [= ->]; apply Hp'; right; right; apply elem_of_app; [right; by apply list_elem_of_fmap_2|left; by apply node_in]. }
  assert (Hp1 : phys ∉ pc_pages tbl (room E)).
  { intros Hx. apply Hp'. eapply elem_of_sublist; [exact Hx|]. unfold pc_pages. do 2 apply sublist_skip. apply sublist_app; apply fmap_sublist, room_sub. }
  destruct (cache_new_page tbl mx 1 s2 A1 (room E) Hc2) as (n & s3 & Hrun & Hcase). apply wp_bind. eapply wp_of_Done; [exact Hrun|].
  destruct Hcase as [[-> ->]|(Hn0 & Hst & Hc3 & Hnew & Hag3)].
  { cbn [Z.eqb]. apply wp_bind. apply (wp_pc_release tbl mx s2 A1 (room E)); [done|]. intros s3 Em3 Es3 Hc3. apply wp_ret.
    exists A1. split; [done|]. left. split; [done|]. split; [by rewrite Es3, (pc_held_release s2 A1 (room E))|]. split; [done|]. by rewrite Em3. }
  rewrite (proj2 (Z.eqb_neq n 0)) by done. eapply wp_mono; [apply (push_runs s3 ((n, 0) :: A1) (room E) (mkEntry n f o phys) Hc3); cbn [e_node e_phys e_file e_off]|].
  - left.
  - by right.
  - intros ->. done.
  - intros Hx. apply Hnew, Hc2, Hx.
  - done.
  - apply (find_key_sub _ E); [apply room_sub|done].
  - done.
  - done.
  - intros r s4 (-> & Hc4 & Hag4 & _). exists A1. split; [done|]. right. split; [done|]. exists n. split; [done|]. split; [done|].
    etrans; [exact Hag2|]. etrans; [eapply agree_mono; [|exact Hag3]; by intros x [Hx _]|eapply agree_mono; [|exact Hag4]].
    intros x [Hb Hm]%client_not_meta. apply client_not_meta. split; [destruct Hb as (b & ob & Hin & Hw); exists b, ob; split; [by right|done]|].
    intros [Hx|(q & [->|Hq]%elem_of_cons & Hx)]; [apply Hm; by left| |apply Hm; right; by exists q].
    destruct Hb as (b & ob & Hin & Hw). pose proof (pa_new_disj s3 A1 n 0 (co_alloc _ _ _ _ _ _ Hc3) Hnew b ob Hin) as Hd.
    unfold disj in Hd. rewrite sz_0 in Hd. cbn [e_node] in Hx. unfold within in *. lia.
Qed.
End cache.

(** ** What the clients rely on *)
Section claims.
Context `{PA : PageAllocator 0 (buddy_alloc_pages 0 BUDDY_ZONE_UNMOVABLE) (fun a => buddy_free_pages a 0)}.
Context (tbl mx : Z).
Abbreviation ok := (cache_ok tbl mx).
Abbreviation client := (pc_client tbl).

(** C24: [page_cache_insert] adds a mapping in front of the list, after making room by
    giving back the page and the entry of the oldest one when the cache is full; a key
    that is cached already is left as it is.  The answer is -1 only when the allocator has
    no page for the entry - asked again in that very state, with the lock held, it gives
    none - and then only the room has been made.  The cache never grows past [max_pages], nor past
    one page when that is 0, and writes nothing its clients have. *)
Theorem page_cache_insert_correct s A E f o phys : ok 0 s A E -> (phys, 0) ∈ A -> phys ∉ pc_pages tbl E ->
  0 <= f < 2 ^ 64 -> 0 <= o < 2 ^ 64 ->
  exists r s', page_cache_insert f o phys s = Done r s' /\ inserted tbl mx s A E f o phys r s' /\
    (pc_total_pages (k_pc s) <= Z.max 1 mx -> pc_total_pages (k_pc s') <= Z.max 1 mx).
Proof.
  intros Hc Hp Hn Hf Ho. destruct (insert_runs tbl mx s A E f o phys Hc Hp Hn Hf Ho) as (r & s' & Hrun & Hi).
  exists r, s'. split; [done|]. split; [done|]. unfold inserted in Hi. rewrite (co_total _ _ _ _ _ _ Hc).
  assert (Hroom : Z.of_nat (length E) <= Z.max 1 mx -> Z.of_nat (length (room mx E)) + 1 <= Z.max 1 mx).
  { intros Hl. unfold room. destruct (Z.leb_spec mx (Z.of_nat (length E))); [|lia].
    destruct E as [|e E _] using rev_ind; [cbn; lia|]. rewrite removelast_last. rewrite length_app in Hl. cbn [length] in Hl. lia. }
  intros Hl. destruct (find_key (f, o) E); [destruct Hi as (_ & Hc' & _); by rewrite (co_total _ _ _ _ _ _ Hc')|].
  specialize (Hroom Hl). destruct Hi as (A1 & _ & [(_ & _ & Hc' & _)|(_ & n & _ & Hc' & _)]); rewrite (co_total _ _ _ _ _ _ Hc'); cbn [length]; lia.
Qed.

(** C25: [page_cache_lookup] answers the page of the key, 0 when it is not cached; it changes
    nothing but the counters and the entry's access stamp, so the order of eviction is
    the order of insertion. *)
Theorem page_cache_lookup_correct s A E f o : ok 0 s A E -> exists s', page_cache_lookup f o s = Done (cached (f, o) E) s' /\
  s' = set_pc (k_pc s') (set_mem (k_mem s') s) /\ ok 0 s' A E /\ counted E (f, o) (k_pc s) (k_pc s') /\
  agree (client A E) (k_mem s) (k_mem s').
Proof. apply lookup_runs. Qed.

(** [page_cache_remove] forgets one key and gives back its entry, not its page, which
    stays allocated for the caller; [page_cache_evict_lru] forgets the entry
    inserted first and gives back both. *)
Theorem page_cache_remove_correct s A E : ok 0 s A E ->
  (forall f o, exists s', page_cache_remove f o s = Done tt s' /\ exists A',
    (forall b, b ∈ A' <-> b ∈ A /\ forall e, find_key (f, o) E = Some e -> b <> (e_node e, 0)) /\
    ok 0 s' A' (drop_key (f, o) E) /\ agree (client A' (drop_key (f, o) E)) (k_mem s) (k_mem s') /\ same_counts s s') /\
  exists s', page_cache_evict_lru s = Done tt s' /\ exists A', evicted A E A' /\ ok 0 s' A' (removelast E) /\
    agree (client A' (removelast E)) (k_mem s) (k_mem s') /\ same_counts s s'.
Proof. intros Hc. split; [intros f o; by apply remove_runs|by apply evict_runs]. Qed.

(** A page that was inserted under a new key is found there, and is not found any more
    once the key is removed. *)
Theorem page_cache_roundtrip s A E f o phys : ok 0 s A E -> (phys, 0) ∈ A -> phys ∉ pc_pages tbl E ->
  0 <= f < 2 ^ 64 -> 0 <= o < 2 ^ 64 -> find_key (f, o) E = None ->
  exists r s1, page_cache_insert f o phys s = Done r s1 /\
    (r = 0 -> (exists s2, page_cache_lookup f o s1 = Done phys s2) /\
              exists s3 s4, page_cache_remove f o s1 = Done tt s3 /\ page_cache_lookup f o s3 = Done 0 s4).
Proof.
  intros Hc Hp Hn Hf Ho Hk. destruct (insert_runs tbl mx s A E f o phys Hc Hp Hn Hf Ho) as (r & s' & Hrun & Hi).
  exists r, s'. split; [done|]. intros ->. unfold inserted in Hi. rewrite Hk in Hi. destruct Hi as (A1 & _ & [[[=] _]|(_ & n & _ & Hc' & _)]).
  split.
  - destruct (lookup_runs tbl mx s' _ _ f o Hc') as (s2 & Hr2 & _). exists s2. rewrite Hr2. unfold cached. cbn [find_key].
    by rewrite decide_True by done.
  - destruct (remove_runs tbl mx s' _ _ f o Hc') as (s3 & Hr3 & A3 & _ & Hc3 & _). destruct (lookup_runs tbl mx s3 _ _ f o Hc3) as (s4 & Hr4 & _).
    exists s3, s4. split; [done|]. rewrite Hr4. f_equal. unfold cached.
    assert (find_key (f, o) (drop_key (f, o) (mkEntry n f o phys :: room mx E)) = None) as ->; [|done].
    apply find_key_None. intros e He. by apply list_elem_of_filter in He as [? _].
Qed.
End claims.

(** ** A concrete cache *)

#[local] Instance cache_demo_source : PageAllocator 0 (buddy_alloc_pages 0 BUDDY_ZONE_UNMOVABLE) (fun a => buddy_free_pages a 0) :=
  buddy_allocator 0 BUDDY_ZONE_UNMOVABLE ltac:(done) ltac:(done).

Definition alloc_page (s : kst) : kst := final (buddy_alloc_pages 0 BUDDY_ZONE_UNMOVABLE s) boot_state.
Definition cache_demo_tbl : Z := 0x108000.
Definition cache_demo_pages : kst := alloc_page (alloc_page (alloc_page demo_state)).
Definition cache_demo_start : kst := final (buddy_free_pages cache_demo_tbl 0 cache_demo_pages) boot_state.
Definition cache_demo : kst := final (page_cache_init 2 cache_demo_start) boot_state.
Definition cache_demo_blocks : blocks := [(cache_demo_tbl, 0); (0x109000, 0); (0x10A000, 0)].

Lemma demo_alloc_page s A r : @pa_inv _ _ _ cache_demo_source s A -> result (buddy_alloc_pages 0 BUDDY_ZONE_UNMOVABLE s) = Some r -> r <> 0 ->
  @pa_inv _ _ _ cache_demo_source (alloc_page s) ((r, 0) :: A).
Proof.
  intros Hi Hr Hn. destruct (pa_alloc s A Hi) as (r' & s1 & Hrun & _ & Hcase). unfold alloc_page. rewrite Hrun in *. cbn [result final] in *.
  injection Hr as ->. destruct Hcase as [[E _]|(_ & H & _)]; [by rewrite E in Hn|exact H].
Qed.

Lemma cache_demo_start_inv : exists A, @pa_inv _ _ _ cache_demo_source cache_demo_start A /\ A = [(0x109000, 0); (0x10A000, 0)].
Proof.
  assert (H0 : @pa_inv _ _ _ cache_demo_source demo_state []).
  { destruct demo_hist as [fl H]. exists demo_start, demo_size, fl. split; [|exact H]. split; [apply demo_region|]. vm_compute. discriminate. }
  apply (demo_alloc_page _ _ 0x10A000) in H0; [|vm_compute; reflexivity|done].
  apply (demo_alloc_page _ _ 0x108000) in H0; [|vm_compute; reflexivity|done].
  apply (demo_alloc_page _ _ 0x109000) in H0; [|vm_compute; reflexivity|done].
  destruct (pa_free cache_demo_pages [(0x109000, 0)] cache_demo_tbl [(0x10A000, 0)] H0) as (s' & Hrun & _ & Hi & _).
  unfold cache_demo_start. rewrite Hrun. exists [(0x109000, 0); (0x10A000, 0)]. split; [exact Hi|reflexivity].
Qed.

Lemma cache_demo_ok : cache_ok cache_demo_tbl 2 0 cache_demo cache_demo_blocks [].
Proof.
  destruct cache_demo_start_inv as (A & Hi & ->). destruct (init_runs cache_demo_start _ 2 Hi) as (s' & Hrun & Hcase).
  unfold cache_demo. rewrite Hrun. cbn [final].
  assert (Ht : pc_hash_table (k_pc s') = cache_demo_tbl).
  { change s' with (final (Done tt s') boot_state). rewrite <- Hrun. vm_compute. reflexivity. }
  destruct Hcase as [(E & _)|(t & s1 & _ & _ & E & _ & _ & Hc)]; rewrite E in Ht; cbn in Ht; [done|]. subst t. apply Hc. left.
Qed.

Lemma cache_demo_phys : (0x10A000, 0) ∈ cache_demo_blocks /\ 0x10A000 ∉ pc_pages cache_demo_tbl [].
Proof. split; [right; right; left|]. by intros [|[|[]%not_elem_of_nil]%elem_of_cons]%elem_of_cons. Qed.

Lemma page_cache_insert_correct_witness : exists s', page_cache_insert 7 0x3000 0x10A000 cache_demo = Done 0 s' /\ pc_total_pages (k_pc s') <= 2.
Proof.
  destruct cache_demo_phys as [Hp Hn].
  destruct (page_cache_insert_correct cache_demo_tbl 2 cache_demo cache_demo_blocks [] 7 0x3000 0x10A000 cache_demo_ok Hp Hn ltac:(lia) ltac:(lia)) as (r & s' & Hrun & _ & Hb).
  assert (E : result (page_cache_insert 7 0x3000 0x10A000 cache_demo) = Some 0) by (vm_compute; reflexivity).
  pose proof (run_result _ _ _ _ Hrun E) as Er. subst r. clear E. exists s'. split; [exact Hrun|]. apply Hb. vm_compute. discriminate.
Defined.

Lemma page_cache_lookup_correct_witness : exists s', page_cache_lookup 7 0x3000 cache_demo = Done 0 s'.
Proof.
  destruct (page_cache_lookup_correct cache_demo_tbl 2 cache_demo cache_demo_blocks [] 7 0x3000 cache_demo_ok) as (s' & Hrun & _). by exists s'.
Defined.

Lemma page_cache_remove_correct_witness : exists s', page_cache_remove 7 0x3000 cache_demo = Done tt s'.
Proof.
  destruct (page_cache_remove_correct cache_demo_tbl 2 cache_demo cache_demo_blocks [] cache_demo_ok) as (H & _).
  destruct (H 7 0x3000) as (s' & Hrun & _). by exists s'.
Defined.

Lemma page_cache_roundtrip_witness : exists s1 s2, page_cache_insert 7 0x3000 0x10A000 cache_demo = Done 0 s1 /\ page_cache_lookup 7 0x3000 s1 = Done 0x10A000 s2.
Proof.
  destruct cache_demo_phys as [Hp Hn].
  destruct (page_cache_roundtrip cache_demo_tbl 2 cache_demo cache_demo_blocks [] 7 0x3000 0x10A000 cache_demo_ok Hp Hn ltac:(lia) ltac:(lia) eq_refl) as (r & s1 & Hrun & H).
  assert (E : result (page_cache_insert 7 0x3000 0x10A000 cache_demo) = Some 0) by (vm_compute; reflexivity). pose proof (run_result _ _ _ _ Hrun E) as Er. subst r. clear E.
  destruct (H eq_refl) as [[s2 Hl] _]. exists s1, s2. split; [exact Hrun|exact Hl].
Defined.

(** The table is 8192 bytes and gets one page: after [page_cache_init] the allocator gives
    the second half of the table to the next caller. *)
Theorem page_cache_init_overruns : exists s1 s2 r, page_cache_init 1024 (alloc_page demo_state) = Done tt s1 /\
  buddy_alloc_pages 0 BUDDY_ZONE_UNMOVABLE s1 = Done r s2 /\
  pc_hash_table (k_pc s1) <= r < pc_hash_table (k_pc s1) + 8 * pc_hash_size (k_pc s1).
Proof.
  exists (final (page_cache_init 1024 (alloc_page demo_state)) boot_state),
    (final (buddy_alloc_pages 0 BUDDY_ZONE_UNMOVABLE (final (page_cache_init 1024 (alloc_page demo_state)) boot_state)) boot_state), 0x109000.
  split; [apply run_final; vm_compute; reflexivity|]. split; [apply run_final; vm_compute; reflexivity|].
  assert (V : pc_hash_table (k_pc (final (page_cache_init 1024 (alloc_page demo_state)) boot_state)) = 0x108000 /\
    pc_hash_size (k_pc (final (page_cache_init 1024 (alloc_page demo_state)) boot_state)) = 1024) by (vm_compute; done).
  destruct V as [-> ->]. lia.
Qed.
