(* ===== verification/ObjectSource.v ===== *)
(** The interface between the slab allocator and its clients: what a source of objects of
    one size promises.  The instance below discharges it for a slab cache. *)
From S2P Require Import Prelude Machine Buddy BuddyInv BuddyTrace PageAlloc SList Slab SlabInv SlabThms SlabProps SlabFree.

#[local] Opaque load store.

(** The bytes of the objects that are out. *)
Definition object_bytes (size : Z) (H : list Z) (x : Z) : Prop := exists o, o ∈ H /\ within o size x.

(** [os_inv s H]: in [s] the source is consistent and its clients hold exactly the objects [H]. *)
Class ObjectSource (size : Z) (alloc : K Z) (free : Z -> K unit) := {
  os_inv : kst -> list Z -> Prop;
  os_range s H o : os_inv s H -> o ∈ H -> 0 < o /\ o + size <= PHYS_LIMIT;
  os_nodup s H : os_inv s H -> NoDup H;
  os_apart s H o o' : os_inv s H -> o ∈ H -> o' ∈ H -> o <> o' -> o + size <= o' \/ o' + size <= o;
  os_alloc s H : os_inv s H -> exists o s', alloc s = Done o s' /\ same_statics s s' /\
    agree (object_bytes size H) (k_mem s) (k_mem s') /\
    ((o = NULL /\ os_inv s' H) \/ (o <> NULL /\ os_inv s' (o :: H)));
  os_free s H1 o H2 : os_inv s (H1 ++ o :: H2) -> exists s', free o s = Done tt s' /\ same_statics s s' /\
    agree (object_bytes size (H1 ++ H2)) (k_mem s) (k_mem s') /\ os_inv s' (H1 ++ H2);
  (** Clients write the objects they hold, and their own statics. *)
  os_write s m H : os_inv s H -> agree (fun x => ~ object_bytes size H x) (k_mem s) m -> os_inv (set_mem m s) H;
  os_statics s d H : os_inv s H -> os_inv (set_dp d s) H
}.

Section slab.
Context (osz ops : Z) (G : good_sizes osz ops).
Context `{PA : PageAllocator 0 (buddy_alloc_pages 0 BUDDY_ZONE_UNMOVABLE) (fun a => buddy_free_pages a 0)}.
Context (Hslab : serves pa_inv 0 (buddy_alloc_pages 0 BUDDY_ZONE_RECLAIMABLE)).
Context (c : Z).

Definition slab_os_inv (s : kst) (H : list Z) : Prop := exists A arr L cpu, slab_inv osz ops 0 s A c arr L cpu H.

(** The cache reads no byte of an object that is out. *)
Lemma object_away s A arr L cpu H x : slab_core osz ops 0 s A c arr L cpu H -> object_bytes osz H x ->
  ~ cache_bytes c arr L x /\ in_block A x.
Proof.
  intros Hc (o & Ho & Hx).
  destruct (held_slot osz ops 0 G s A c arr L cpu H o Hc ltac:(apply elem_of_app; by right)) as (sl & Hsl & Hi & Hnf & R1 & R2).
  assert (Hcl : slab_client osz A c arr L H x) by (right; eauto).
  destruct (client_away osz ops 0 G s A c arr L cpu H x Hc Hcl) as (N1 & N2 & N3 & N4).
  assert (Hpg : within (sl_page sl) 4096 x) by (destruct G; soff; unfold within in *; lia). split.
  - intros [Hh|[Hl|(sl' & Hsl' & Hb)]]; [|done|].
    + by apply (header_away osz ops 0 s A c arr L cpu H Hc x sl Hsl Hh).
    + pose proof (sc_slabs _ _ _ _ _ _ _ _ _ _ Hc sl' Hsl') as Hok.
      destruct (slab_bytes_page osz ops _ sl' x Hok G Hb) as [Hpg' _].
      destruct (decide (sl_page sl = sl_page sl')) as [E|Hne]; [|pose proof (slabs_apart _ _ _ s A c arr L cpu H Hc sl sl' Hsl Hsl' Hne); unfold within in *; lia].
      rewrite (same_slab _ _ _ s A c arr L cpu H Hc sl sl' Hsl Hsl' E) in *. destruct Hb as [Hb|(o' & Ho' & Hb)]; [apply (N3 sl' Hsl'); soff; unfold within in *; lia|].
      destruct G as (G1 & _). destruct (slot_apart osz ops sl' o o' Hi (so_slots _ _ _ _ Hok o' Ho') G1) as [->|]; [done|unfold within in *; lia].
  - apply (pages_in osz ops 0 s A c arr L cpu H Hc x (sl_page sl)); [by apply in_pages_slab|done].
Qed.

Lemma statics_slab s d A arr L cpu H : slab_inv osz ops 0 s A c arr L cpu H -> slab_inv osz ops 0 (set_dp d s) A c arr L cpu H.
Proof.
  intros [[C1 C2 C3 C4 C5 C6 C7 C8] Hcl]. split; [|done]. split; try done. by apply (pa_frame s).
Qed.

#[export] Program Instance slab_source : ObjectSource osz (slab_alloc c) (slab_free c) := {| os_inv := slab_os_inv |}.
Next Obligation.
  intros s H o (A & arr & L & cpu & Hi) Ho. pose proof (si_core _ _ _ _ _ _ _ _ _ _ Hi) as Hc.
  destruct (held_slot osz ops 0 G s A c arr L cpu H o Hc ltac:(apply elem_of_app; by right)) as (sl & Hsl & _ & _ & R1 & R2).
  pose proof (page_range _ _ _ s A c arr L _ _ Hc (sl_page sl) (in_pages_slab c arr L sl Hsl)). unfold PHYS_LIMIT. lia.
Qed.
Next Obligation. intros s H (A & arr & L & cpu & Hi). pose proof (sc_client _ _ _ _ _ _ _ _ _ _ (si_core _ _ _ _ _ _ _ _ _ _ Hi)) as Hn. by apply NoDup_app in Hn as (_ & _ & ?). Qed.
Next Obligation.
  intros s H o o' (A & arr & L & cpu & Hi) Ho Ho' Hne.
  apply (held_apart osz ops G 0 s A c arr L cpu H o o' (si_core _ _ _ _ _ _ _ _ _ _ Hi)); [apply elem_of_app; by right|apply elem_of_app; by right|done].
Qed.
Next Obligation.
  intros s H (A & arr & L & cpu & Hi). destruct (alloc_runs osz ops G Hslab s A c arr L cpu H Hi) as (o & s' & Hrun & Hst & Hag & Hcase).
  exists o, s'. split; [done|]. split; [done|]. split; [eapply agree_mono; [|exact Hag]; intros x Hx; by right|].
  destruct Hcase as [(-> & Hi' & _)|(Hn & _ & A' & L' & cpu' & Hi' & _)]; [left; split; [done|]; by exists A, arr, L, cpu|right; split; [done|]; by exists A', arr, L', cpu'].
Qed.
Next Obligation.
  intros s H1 o H2 (A & arr & L & cpu & Hi). destruct (free_runs osz ops G s A c arr L cpu H1 o H2 Hi) as (s' & Hrun & Hst & Hag & A' & arr' & L' & cpu' & Hi' & _).
  exists s'. split; [done|]. split; [done|]. split; [eapply agree_mono; [|exact Hag]; intros x Hx; by right|]. by exists A', arr', L', cpu'.
Qed.
Next Obligation.
  intros s m H (A & arr & L & cpu & [Hc Hcl]) Hag. exists A, arr, L, cpu. split; [|done].
  apply (slab_core_frame osz ops 0 G s A c arr L cpu H Hc). eapply agree_mono; [|exact Hag]. intros x Hx Ho.
  destruct (object_away s A arr L cpu H x Hc Ho) as [N1 N2]. destruct Hx; done.
Qed.
Next Obligation. intros s d H (A & arr & L & cpu & Hi). exists A, arr, L, cpu. by apply statics_slab. Qed.
End slab.
