(* ===== verification/HeapSlab.v ===== *)
(** The slab half of kernel/mm/heap.c: small requests served from a cache, proved against the
    class of object sources; how much of an object such a request really gets. *)
From S2P Require Import Prelude Machine Buddy BuddyInv BuddyTrace BuddyProps PageAlloc SList Slab SlabInv SlabThms SlabFree SlabDemo ObjectSource Heap HeapInv HeapThms.

#[local] Opaque load store.

Section small.
Context (i c : Z) `{OS : ObjectSource (cache_size i) (slab_alloc c) (slab_free c)}.
Hypothesis Hi : 0 <= i < 8.

(** Cache number [i] is enabled, and is [c]. *)
Record enabled (s : kst) : Prop := {
  en_flag : g_slab_initialized (k_heap s) <> 0;
  en_cache : nth (Z.to_nat i) (g_caches (k_heap s)) 0 = c;
  en_made : c <> NULL
}.

(** The header of an allocation from the cache, at the start of its object. *)
Record slab_header (m : mem) (o size : Z) : Prop := {
  sh_magic : load 4 m (o + H_MAGIC) = ALLOC_MAGIC;
  sh_size : load 4 m (o + H_SIZE) = size;
  sh_flags : load 2 m (o + H_FLAGS) = ALLOC_FROM_SLAB;
  sh_index : load 1 m (o + H_CACHE) = i
}.

Lemma cache_size_range : 16 <= cache_size i <= 2048.
Proof using Hi.
  unfold cache_size. pose proof (Z.pow_le_mono_r 2 0 i ltac:(lia) ltac:(lia)). pose proof (Z.pow_le_mono_r 2 i 7 ltac:(lia) ltac:(lia)). lia.
Qed.

(** The requests of a cache: longer than the objects of the cache before, and no longer
    than its own.  The code chooses exactly that cache. *)
Definition next_size (size : Z) : Prop := 0 < size /\ size <= cache_size i /\ (0 < i -> cache_size (i - 1) < size).

Lemma index_size size : next_size size -> cache_index size = i /\ size < 4096 /\ (i =? SLAB_CACHE_NONE) = false.
Proof using Hi.
  intros (H0 & H1 & H2). pose proof cache_size_range. split; [|split; [lia|apply Z.eqb_neq; unfold SLAB_CACHE_NONE; lia]].
  assert (E : i = 0 \/ i = 1 \/ i = 2 \/ i = 3 \/ i = 4 \/ i = 5 \/ i = 6 \/ i = 7) by lia.
  unfold cache_index, cache_size in *.
  destruct E as [E|[E|[E|[E|[E|[E|[E|E]]]]]]]; rewrite E in H1, H2 |- *; cbn in H1, H2;
    repeat (match goal with |- context [size <=? ?b] => destruct (Z.leb_spec size b) end); (lia || done).
Qed.

Lemma load1_store_eq m a v : 0 <= v < 2 ^ 8 -> load 1 (store 1 m a v) a = v.
Proof using. intros. rewrite load_store_eq. by apply Z.mod_small. Qed.

(** Writing the header changes the first twelve bytes of the object. *)
Lemma wp_header s o size (Q : unit -> kst -> Prop) : 0 <= size < 2 ^ 32 ->
  (forall m, agree (fun x => ~ within o 12 x) (k_mem s) m -> slab_header m o size -> Q tt (set_mem m s)) ->
  wp (write_header o size ALLOC_FROM_SLAB i) Q s.
Proof using Hi.
  intros Hs HQ. unfold write_header, H_MAGIC, H_SIZE, H_FLAGS, H_CACHE, H_PADDING in *. rewrite Z.add_0_r, u32_id by done.
  do 4 apply wp_bind, wp_modify. apply wp_modify. rewrite !set_mem_set_mem. cbn [k_mem set_mem].
  apply HQ.
  - repeat (etransitivity; [|apply agree_store; unfold within; lia]). done.
  - split; unfold H_MAGIC, H_SIZE, H_FLAGS, H_CACHE, ALLOC_FROM_SLAB; rewrite ?Z.add_0_r; rewrite ?(load_store_ne) by lia;
      [apply load32_store_eq|apply load32_store_eq|apply load16_store_eq|apply load1_store_eq]; unfold ALLOC_MAGIC; lia.
Qed.

(** What a request gets: an object that was not out, with the header in front. *)
Definition slab_served (s : kst) (H : list Z) (size o : Z) (s' : kst) : Prop :=
  o ∉ H /\ os_inv s' (o :: H) /\ enabled s' /\ slab_header (k_mem s') o size /\ agree (object_bytes (cache_size i) H) (k_mem s) (k_mem s').

Lemma enabled_statics s s' : same_statics s s' -> enabled s -> enabled s'.
Proof using. intros (_ & Hh & _) [H1 H2 H3]. split; by rewrite ?Hh. Qed.

Lemma kmalloc_small s H size : os_inv s H -> enabled s -> next_size size ->
  exists o s1, slab_alloc c s = Done o s1 /\ os_inv s1 (if o =? NULL then H else o :: H) /\ enabled s1 /\
    (o = NULL -> kmalloc size s = kmalloc_heap size s1) /\
    (o <> NULL -> exists s', kmalloc size s = Done (o + SIZEOF_HEADER) s' /\ slab_served s H size o s').
Proof using Hi.
  intros Hinv Hen Hsz. destruct (index_size size Hsz) as (Hidx & Hlt & Hnone). destruct Hsz as (Hs & Hle & _). pose proof cache_size_range as Hrange. pose proof (en_flag _ Hen) as Hf. pose proof (en_cache _ Hen) as Hc. pose proof (en_made _ Hen) as Hm.
  destruct (os_alloc s H Hinv) as (o & s1 & Hrun & Hst & Hag & Hcase). exists o, s1. split; [done|].
  assert (Hen1 : enabled s1) by (by apply (enabled_statics s)).
  assert (Hslab : kmalloc_slab size s = (if o =? NULL then mret None else write_header o size ALLOC_FROM_SLAB i ;; mret (Some (o + SIZEOF_HEADER))) s1).
  { unfold kmalloc_slab, get_cache, mbind, M_bind, gets. rewrite (proj2 (Z.eqb_neq _ _)) by done. rewrite (proj2 (Z.ltb_lt _ _)) by lia. cbn [negb andb]. cbv zeta. rewrite Hidx, Hnone.
    unfold gets. rewrite Hc, (proj2 (Z.eqb_neq c NULL)) by done. by rewrite Hrun. }
  unfold kmalloc. rewrite (proj2 (Z.eqb_neq size 0)) by lia. destruct Hcase as [[-> Hi1]|[Hne Hi1]].
  - rewrite Z.eqb_refl in *. split; [done|]. split; [done|]. split; [|done]. intros _. unfold mbind, M_bind. by rewrite Hslab.
  - rewrite (proj2 (Z.eqb_neq _ _)) in * by done. split; [done|]. split; [done|]. split; [done|]. intros _.
    assert (Hfresh : o ∉ H) by (pose proof (os_nodup _ _ Hi1) as Hnd; by apply NoDup_cons in Hnd as [? _]).
    assert (Hw : wp (write_header o size ALLOC_FROM_SLAB i ;; mret (Some (o + SIZEOF_HEADER))) (fun r s' => r = Some (o + SIZEOF_HEADER) /\ slab_served s H size o s') s1).
    { apply wp_bind, wp_header; [lia|]. intros m Hfr Hh. apply wp_ret. split; [done|]. split; [done|]. split; [|split; [|split; [exact Hh|]]].
      - apply os_write; [done|]. eapply agree_mono; [|exact Hfr]. intros x Hx Hw. apply Hx. exists o. split; [left|]. unfold within in *. lia.
      - by apply (enabled_statics s1).
      - transitivity (k_mem s1); [done|]. eapply agree_mono; [|exact Hfr]. intros x (o' & Ho' & Hx) Hw.
        assert (Hne' : o <> o') by (by intros ->). pose proof (os_apart s1 (o :: H) o o' Hi1 ltac:(left) ltac:(by right) Hne'). unfold within in *. lia. }
    apply wp_Done in Hw as (r & s' & Hrun' & -> & Hserved). exists s'. split; [|done]. unfold mbind, M_bind in *. rewrite Hslab. by rewrite Hrun'.
Qed.

(** Freeing finds the cache in the header. *)
Lemma kfree_small s H1 o H2 size : os_inv s (H1 ++ o :: H2) -> enabled s -> slab_header (k_mem s) o size ->
  exists s', kfree (o + SIZEOF_HEADER) s = Done tt s' /\ os_inv s' (H1 ++ H2) /\ enabled s' /\ agree (object_bytes (cache_size i) (H1 ++ H2)) (k_mem s) (k_mem s').
Proof using Hi.
  intros Hinv Hen [Hmg _ Hfl Hix]. destruct (os_free s H1 o H2 Hinv) as (s' & Hrun & Hst & Hag & Hinv').
  destruct (os_range s _ o Hinv ltac:(apply elem_of_app; right; left)) as [Hpos _].
  exists s'. split; [|split; [done|]; split; [by apply (enabled_statics s)|done]].
  unfold kfree, load32, load16, load8, get_cache, mbind, M_bind, gets. rewrite (proj2 (Z.eqb_neq _ _)) by (unfold NULL, SIZEOF_HEADER; lia). cbv zeta. rewrite Z.add_simpl_r.
  rewrite Hmg, Z.eqb_refl. cbn [negb]. rewrite Hfl. change (Z.land ALLOC_FROM_SLAB ALLOC_FROM_SLAB =? 0) with false. cbn [negb].
  rewrite Hix, (proj2 (Z.leb_gt 8 i)), (en_cache _ Hen), (proj2 (Z.eqb_neq c NULL)) by (lia || apply Hen). exact Hrun.
Qed.

(** C22: Small requests use the caches, whose objects are of 16, 32, 64 and so on to 2048
    bytes: a request of [size] bytes is served by the cache [i] with
    [16 * 2 ^ (i - 1) < size <= 16 * 2 ^ i], the next one up, with an object nobody holds, or falls back to the heap when
    the cache has none left.  If the request and the header of 12 bytes fit the object, the
    client may write all it asked for, and [kfree] then gives back exactly that object;
    everybody else's objects keep their bytes throughout. *)
Theorem small_roundtrip s H size : os_inv s H -> enabled s ->
  0 < size -> size <= 16 * 2 ^ i -> (0 < i -> 16 * 2 ^ (i - 1) < size) ->
  exists o s1, slab_alloc c s = Done o s1 /\
    (o = NULL -> kmalloc size s = kmalloc_heap size s1) /\
    (o <> NULL -> exists s2, kmalloc size s = Done (o + SIZEOF_HEADER) s2 /\ slab_served s H size o s2 /\
       (size + SIZEOF_HEADER <= 16 * 2 ^ i -> forall m, agree (fun x => ~ within (o + SIZEOF_HEADER) size x) (k_mem s2) m ->
          exists s3, kfree (o + SIZEOF_HEADER) (set_mem m s2) = Done tt s3 /\ os_inv s3 H /\ agree (object_bytes (cache_size i) H) (k_mem s) (k_mem s3))).
Proof using Hi.
  change (16 * 2 ^ i) with (cache_size i). intros Hinv Hen Hs Hle Hprev. destruct (kmalloc_small s H size Hinv Hen (conj Hs (conj Hle Hprev))) as (o & s1 & Hrun & _ & _ & Hnull & Hgot). exists o, s1. split; [done|]. split; [done|].
  intros Hne. destruct (Hgot Hne) as (s2 & Hk & Hserved). exists s2. split; [done|]. split; [done|]. intros Hfit m Hm.
  destruct Hserved as (Hfresh & Hi2 & Hen2 & Hh & Hag). unfold SIZEOF_HEADER in *.
  assert (Hkeep : forall n a, o <= a -> a + Z.of_nat n <= o + 12 -> load n m a = load n (k_mem s2) a).
  { intros n a Ha Hb. apply load_agree. eapply agree_mono; [|exact Hm]. unfold within. lia. }
  assert (Hothers : agree (object_bytes (cache_size i) H) (k_mem s2) m).
  { eapply agree_mono; [|exact Hm]. intros x (o' & Ho' & Hx) Hw. assert (Hne' : o <> o') by (by intros ->).
    pose proof (os_apart s2 (o :: H) o o' Hi2 ltac:(left) ltac:(by right) Hne'). unfold within in *. lia. }
  destruct (kfree_small (set_mem m s2) [] o H size) as (s3 & Hfree & Hi3 & _ & Hag3).
  - apply os_write; [done|]. eapply agree_mono; [|exact Hm]. intros x Hx Hw. apply Hx. exists o. split; [left|]. unfold within in *. lia.
  - by apply (enabled_statics s2).
  - destruct Hh as [E1 E2 E3 E4]. unfold H_MAGIC, H_SIZE, H_FLAGS, H_CACHE in *. split; cbn [k_mem set_mem]; unfold H_MAGIC, H_SIZE, H_FLAGS, H_CACHE; rewrite Hkeep by lia; done.
  - exists s3. split; [exact Hfree|]. split; [exact Hi3|]. transitivity (k_mem s2); [done|]. transitivity m; [exact Hothers|exact Hag3].
Qed.

(** The cache is chosen by the size without the header: the last twelve sizes of every cache
    reach past the object. *)
Lemma small_overruns size o : 0 < size -> cache_index size = i -> cache_size i < size + SIZEOF_HEADER -> ~ within o (cache_size i) (o + SIZEOF_HEADER + size - 1).
Proof using. unfold within. lia. Qed.
End small.

(** ** A cache of 64 bytes at work *)

#[local] Instance demo_pages : PageAllocator 0 (buddy_alloc_pages 0 BUDDY_ZONE_UNMOVABLE) (fun a => buddy_free_pages a 0) :=
  buddy_allocator 0 BUDDY_ZONE_UNMOVABLE ltac:(done) ltac:(done).
#[local] Instance demo_objects : ObjectSource (cache_size 2) (slab_alloc demo_c) (slab_free demo_c) := slab_source 64 (4064 / 64) demo_sizes demo_serves demo_c.

Definition demo_heap_st : heap_st := mkHeap 0 0 0 1 [0; 0; demo_c; 0; 0; 0; 0; 0].
Definition demo_enabled : kst := set_heap demo_heap_st demo_linked.

(** The caches do not look at the statics of the heap. *)
Lemma heap_statics osz ops c s h A arr L cpu H : slab_inv osz ops 0 s A c arr L cpu H -> slab_inv osz ops 0 (set_heap h s) A c arr L cpu H.
Proof. intros [[C1 C2 C3 C4 C5 C6 C7 C8] Hcl]. split; [|done]. split; try done. by apply (pa_frame s). Qed.

Lemma demo_enabled_inv : os_inv demo_enabled [].
Proof. destruct demo_linked_inv as (A & L & Hi & _). exists A, 0, L, []. exact (heap_statics _ _ _ _ demo_heap_st _ _ _ _ _ Hi). Qed.

Lemma demo_enabled_cache : enabled 2 demo_c demo_enabled.
Proof. split; [discriminate|reflexivity|discriminate]. Qed.

Lemma demo_enabled_alloc : slab_alloc demo_c demo_enabled = Done demo_obj (final (slab_alloc demo_c demo_enabled) boot_state).
Proof. apply run_final. vm_compute. reflexivity. Qed.

Lemma small_roundtrip_witness : exists s2 s3, kmalloc 40 demo_enabled = Done (demo_obj + SIZEOF_HEADER) s2 /\ kfree (demo_obj + SIZEOF_HEADER) s2 = Done tt s3 /\ os_inv s3 [].
Proof.
  destruct (small_roundtrip 2 demo_c ltac:(lia) demo_enabled [] 40 demo_enabled_inv demo_enabled_cache ltac:(lia) ltac:(vm_compute; discriminate) ltac:(intros _; vm_compute; reflexivity)) as (o & s1 & Hrun & _ & Hgot).
  rewrite demo_enabled_alloc in Hrun. apply Done_inj in Hrun as [<- _]. destruct (Hgot ltac:(discriminate)) as (s2 & Hk & _ & Hback).
  destruct (Hback ltac:(vm_compute; discriminate) (k_mem s2) ltac:(done)) as (s3 & Hfree & Hi3 & _). rewrite set_mem_id in Hfree.
  exists s2, s3. split; [exact Hk|]. split; [exact Hfree|exact Hi3].
Defined.

(** A request of 60 bytes is served by an object of 64, eight bytes short. *)
Lemma small_overruns_64 : cache_index 60 = 2 /\ ~ within demo_obj (cache_size 2) (demo_obj + SIZEOF_HEADER + 60 - 1).
Proof. split; [reflexivity|]. by apply (small_overruns 2). Qed.
