(* ===== verification/DemandPaging.v ===== *)
(** kernel/mm/demand_paging.c: regions of virtual memory whose pages are allocated at the
    first access.  An address space is a page table with a list of regions; the table of
    address spaces is a static array, and a pointer to one is its index here. *)
From S2P Require Import Prelude Machine Buddy PageAlloc Vmm KString Slab.

#[local] Opaque load store.

Definition MAX_ADDRESS_SPACES : Z := 256.
Definition VM_FLAG_DEMAND_PAGED : Z := 0x01.
Definition VM_FLAG_ZERO_FILL : Z := 0x02.

(** Field offsets of [vm_region_t]. *)
Definition VR_START : Z := 0.
Definition VR_END : Z := 8.
Definition VR_FLAGS : Z := 16.
Definition VR_LOCK : Z := 20.
Definition VR_NEXT : Z := 24.
Definition SIZEOF_VM_REGION : Z := 32.

(** The statics. *)
Definition no_space : vm_address_space := mkAS 0 0 0.
Definition space (i : Z) (d : dp_st) : vm_address_space := nth (Z.to_nat i) (address_spaces d) no_space.
Definition set_space (i : Z) (a : vm_address_space) (d : dp_st) : dp_st :=
  mkDp (<[Z.to_nat i := a]> (address_spaces d)) (address_space_count d) (dp_global_lock d) (vm_region_cache d).
Definition set_space_count (n : Z) (d : dp_st) : dp_st := mkDp (address_spaces d) n (dp_global_lock d) (vm_region_cache d).
Definition set_global_lock (l : Z) (d : dp_st) : dp_st := mkDp (address_spaces d) (address_space_count d) l (vm_region_cache d).
Definition set_region_cache (c : Z) (d : dp_st) : dp_st := mkDp (address_spaces d) (address_space_count d) (dp_global_lock d) c.
Definition upd_dp (f : dp_st -> dp_st) (s : kst) : kst := set_dp (f (k_dp s)) s.
Definition upd_space (i : Z) (f : vm_address_space -> vm_address_space) : K unit :=
  modify (upd_dp (fun d => set_space i (f (space i d)) d)).
Definition get_space (i : Z) : K vm_address_space := gets (fun s => space i (k_dp s)).

Definition put_pml4 (v : Z) (a : vm_address_space) : vm_address_space := mkAS v (as_regions a) (as_lock a).
Definition put_regions (v : Z) (a : vm_address_space) : vm_address_space := mkAS (as_pml4 a) v (as_lock a).
Definition put_lock (v : Z) (a : vm_address_space) : vm_address_space := mkAS (as_pml4 a) (as_regions a) v.

Definition global_acquire : K unit := acquire_var (fun s => dp_global_lock (k_dp s)) (fun l => upd_dp (set_global_lock l)).
Definition global_release : K unit := release_var (fun l => upd_dp (set_global_lock l)).
Definition space_acquire (i : Z) : K unit :=
  acquire_var (fun s => as_lock (space i (k_dp s))) (fun l => upd_dp (fun d => set_space i (put_lock l (space i d)) d)).
Definition space_release (i : Z) : K unit :=
  release_var (fun l => upd_dp (fun d => set_space i (put_lock l (space i d)) d)).

(** [name] is the address of the literal "vm_region". *)
Definition demand_paging_init (name : Z) : K unit :=
  modify (upd_dp (set_global_lock 0)) ;;
  for_range 0 MAX_ADDRESS_SPACES (fun i =>
    upd_space i (put_pml4 NULL) ;;
    upd_space i (put_regions NULL) ;;
    upd_space i (put_lock 0)) ;;
  modify (upd_dp (set_space_count 0)) ;;
  cache ← slab_cache_create name SIZEOF_VM_REGION 8;
  modify (upd_dp (set_region_cache cache)).

(** The search of the array; the index, or nothing. *)
Definition find_space (pml4 i : Z) : K (Z + option Z) :=
  count ← gets (fun s => address_space_count (k_dp s));
  if i <? count then
    a ← get_space i;
    mret (if as_pml4 a =? pml4 then inr (Some i) else inl (u32 (i + 1)))
  else mret (inr None).

Definition demand_paging_get_address_space (pml4 : Z) : K (option Z) :=
  global_acquire ;;
  found ← while 0 (find_space pml4);
  if found is Some i then global_release ;; mret (Some i) else
  count ← gets (fun s => address_space_count (k_dp s));
  if count <? MAX_ADDRESS_SPACES then
    let i := count in
    upd_space i (put_pml4 pml4) ;;
    upd_space i (put_regions NULL) ;;
    modify (upd_dp (set_space_count (u32 (count + 1)))) ;;
    global_release ;;
    mret (Some i)
  else global_release ;; mret None.

(** [while (region) { if (virt_addr >= region->start && virt_addr < region->end) ...] *)
Definition region_round (virt_addr region : Z) : K (Z + Z) :=
  if region =? NULL then mret (inr NULL) else
  start ← load64 (region + VR_START);
  end_ ← load64 (region + VR_END);
  if (start <=? virt_addr) && (virt_addr <? end_) then mret (inr region) else
  next ← load64 (region + VR_NEXT);
  mret (inl next).

Definition demand_paging_find_region (pml4 virt_addr : Z) : K Z :=
  r ← demand_paging_get_address_space pml4;
  if r is Some i then
    space_acquire i ;;
    a ← get_space i;
    region ← while (as_regions a) (region_round virt_addr);
    space_release i ;;
    mret region
  else mret NULL.

(** [addr & ~(BUDDY_PAGE_SIZE - 1)] *)
Definition page_down (addr : Z) : Z := Z.land addr (u64 (Z.lnot (BUDDY_PAGE_SIZE - 1))).

(** The test of an existing region against a new one. *)
Definition overlaps (start end_ rstart rend : Z) : bool :=
  ((rstart <=? start) && (start <? rend)) ||
  ((rstart <? end_) && (end_ <=? rend)) ||
  ((start <=? rstart) && (rend <=? end_)).

Definition overlap_round (start end_ existing : Z) : K (Z + bool) :=
  if existing =? NULL then mret (inr false) else
  rstart ← load64 (existing + VR_START);
  rend ← load64 (existing + VR_END);
  if overlaps start end_ rstart rend then mret (inr true) else
  next ← load64 (existing + VR_NEXT);
  mret (inl next).

Definition demand_paging_register_region (pml4 start size flags : Z) : K Z :=
  if (pml4 =? NULL) || (size =? 0) then mret (-1) else
  let aligned_start := page_down start in
  let aligned_end := page_down (u64 (start + size + BUDDY_PAGE_SIZE - 1)) in
  r ← demand_paging_get_address_space pml4;
  if r is Some i then
    space_acquire i ;;
    a ← get_space i;
    overlap ← while (as_regions a) (overlap_round aligned_start aligned_end);
    if overlap : bool then space_release i ;; mret (-1) else
    cache ← gets (fun s => vm_region_cache (k_dp s));
    region ← slab_alloc cache;
    if region =? NULL then space_release i ;; mret (-1) else
    store64 (region + VR_START) aligned_start ;;
    store64 (region + VR_END) aligned_end ;;
    store32 (region + VR_FLAGS) flags ;;
    spinlock_init (region + VR_LOCK) ;;
    a ← get_space i;
    store64 (region + VR_NEXT) (as_regions a) ;;
    upd_space i (put_regions region) ;;
    space_release i ;;
    mret 0
  else mret (-1).

(** The window at which the code takes the physical memory to be mapped, and the
    physical byte behind an address of the window. *)
Definition DIRECT_MAP : Z := 0xFFFF800000000000.
Definition direct (addr : Z) : Z := u64 (addr - DIRECT_MAP).

Definition demand_paging_handle_fault (pml4 virt_addr : Z) : K Z :=
  let aligned_addr := page_down virt_addr in
  region ← demand_paging_find_region pml4 aligned_addr;
  if region =? NULL then mret (-1) else
  flags ← load32 (region + VR_FLAGS);
  if Z.land flags VM_FLAG_DEMAND_PAGED =? 0 then mret (-1) else
  existing_phys ← vmm_get_physical_address pml4 aligned_addr;
  if negb (existing_phys =? 0) then mret 0 else
  spinlock_acquire (region + VR_LOCK) ;;
  existing_phys ← vmm_get_physical_address pml4 aligned_addr;
  if negb (existing_phys =? 0) then spinlock_release (region + VR_LOCK) ;; mret 0 else
  phys_addr ← buddy_alloc_pages 0 BUDDY_ZONE_MOVABLE;
  if phys_addr =? 0 then spinlock_release (region + VR_LOCK) ;; mret (-1) else
  flags ← load32 (region + VR_FLAGS);
  when (negb (Z.land flags VM_FLAG_ZERO_FILL =? 0))
    (let page_ptr := u64 (DIRECT_MAP + phys_addr) in
     for_range 0 BUDDY_PAGE_SIZE (fun i => store8 (direct page_ptr + i) 0)) ;;
  vmm_map_page pml4 aligned_addr phys_addr (Z.lor (Z.lor VMM_FLAG_PRESENT VMM_FLAG_WRITABLE) VMM_FLAG_USER) ;;
  spinlock_release (region + VR_LOCK) ;;
  mret 0.

(** The pages of a region are unmapped and freed. *)
Definition free_region_pages (pml4 current : Z) : K unit :=
  start ← load64 (current + VR_START);
  while start (fun addr =>
    end_ ← load64 (current + VR_END);
    if addr <? end_ then
      phys_addr ← vmm_get_physical_address pml4 addr;
      when (negb (phys_addr =? 0)) (vmm_unmap_page pml4 addr ;; buddy_free_pages phys_addr 0) ;;
      mret (inl (u64 (addr + BUDDY_PAGE_SIZE)))
    else mret (inr tt)).

(** The search for the region that starts at an address, with the one before it. *)
Definition start_round (aligned_start : Z) : Z * Z -> K ((Z * Z) + (Z * Z)) := fun '(current, prev) =>
  if current =? NULL then mret (inr (NULL, prev)) else
  start ← load64 (current + VR_START);
  if start =? aligned_start then mret (inr (current, prev)) else
  next ← load64 (current + VR_NEXT);
  mret (inl (next, current)).

Definition demand_paging_unregister_region (pml4 start : Z) : K unit :=
  let aligned_start := page_down start in
  r ← demand_paging_get_address_space pml4;
  if r is Some i then
    space_acquire i ;;
    a ← get_space i;
    found ← while (as_regions a, NULL) (start_round aligned_start);
    let '(current, prev) := found in
    if negb (current =? NULL) then
      next ← load64 (current + VR_NEXT);
      (if negb (prev =? NULL) then store64 (prev + VR_NEXT) next else upd_space i (put_regions next)) ;;
      free_region_pages pml4 current ;;
      cache ← gets (fun s => vm_region_cache (k_dp s));
      slab_free cache current ;;
      space_release i
    else space_release i
  else mret tt.
