(* ===== verification/DemandThms.v ===== *)
(** Demand paging, abstractly: per page table, in the order of the array, the list of its
    regions. *)
From S2P Require Import Prelude Machine Buddy PageAlloc Vmm SList Slab DemandPaging.

#[local] Opaque load store.

Ltac dpoff :=
  unfold VR_START, VR_END, VR_FLAGS, VR_LOCK, VR_NEXT, SIZEOF_VM_REGION in *;
  change (Z.of_nat 8) with 8 in *; change (Z.of_nat 4) with 4 in *.
Ltac dparith := dpoff; unfold within in *; lia.

Record vregion := mkVR { vr_node : Z; vr_start : Z; vr_end : Z; vr_flags : Z }.

Abbreviation spaces := (list (Z * list vregion)).

(** ** In memory *)

Definition region_ok (m : mem) (r : vregion) : Prop :=
  load 8 m (vr_node r + VR_START) = vr_start r /\ load 8 m (vr_node r + VR_END) = vr_end r /\
  load 4 m (vr_node r + VR_FLAGS) = vr_flags r /\ load 4 m (vr_node r + VR_LOCK) = 0.
Definition regions_ok (m : mem) (h : Z) (R : list vregion) : Prop :=
  sll VR_NEXT m h (vr_node <$> R) /\ forall r, r ∈ R -> region_ok m r.

(** The nodes of all regions. *)
Definition sp_nodes (sp : spaces) : list Z := sp ≫= fun x => vr_node <$> x.2.
Definition region_bytes (sp : spaces) (x : Z) : Prop := exists a, a ∈ sp_nodes sp /\ within a 32 x.

Record dp_ok (d : dp_st) (m : mem) (sp : spaces) : Prop := {
  dk_len : length (address_spaces d) = 256%nat;
  dk_count : address_space_count d = Z.of_nat (length sp);
  dk_max : (length sp <= 256)%nat;
  dk_global : dp_global_lock d = 0;
  dk_locks i : 0 <= i < 256 -> as_lock (space i d) = 0;
  dk_spaces i p R : sp !! i = Some (p, R) -> as_pml4 (space (Z.of_nat i) d) = p /\ regions_ok m (as_regions (space (Z.of_nat i) d)) R;
  dk_nodup : NoDup sp.*1
}.

Lemma sp_nodes_elem sp a : a ∈ sp_nodes sp <-> exists p R r, (p, R) ∈ sp /\ r ∈ R /\ a = vr_node r.
Proof.
  unfold sp_nodes. rewrite list_elem_of_bind. split.
  - intros ([p R] & (r & -> & Hr)%list_elem_of_fmap & Hin). by exists p, R, r.
  - intros (p & R & r & Hin & Hr & ->). exists (p, R). split; [|done]. by apply list_elem_of_fmap_2.
Qed.

Lemma region_frame m m' r : agree (within (vr_node r) 24) m m' -> region_ok m r -> region_ok m' r.
Proof.
  intros Hag (H1 & H2 & H3 & H4). unfold region_ok.
  rewrite !(load_agree _ m m') by (eapply agree_mono; [|exact Hag]; dparith). done.
Qed.

Lemma regions_frame m m' h R : (forall r, r ∈ R -> agree (within (vr_node r) 32) m m') -> regions_ok m h R -> regions_ok m' h R.
Proof.
  intros Hag [H1 H2]. split.
  - apply (sll_frame VR_NEXT m); [|done]. intros a (r & -> & Hr)%list_elem_of_fmap. eapply agree_mono; [|by apply Hag]. dparith.
  - intros r Hr. apply (region_frame m); [|by apply H2]. eapply agree_mono; [|by apply Hag]. dparith.
Qed.

Lemma dp_frame d m m' sp : agree (region_bytes sp) m m' -> dp_ok d m sp -> dp_ok d m' sp.
Proof.
  intros Hag [D1 D2 D3 D4 D5 D6 D7]. split; try done. intros i p R Hi. destruct (D6 i p R Hi) as [H1 H2]. split; [done|].
  apply (regions_frame m); [|done]. intros r Hr. eapply agree_mono; [|exact Hag]. intros x Hx. exists (vr_node r). split; [|done].
  apply sp_nodes_elem. exists p, R, r. split; [|done]. by apply list_elem_of_lookup_2 in Hi.
Qed.

(** ** The array *)

Lemma space_set i j a d : 0 <= i < 256 -> 0 <= j -> length (address_spaces d) = 256%nat ->
  space j (set_space i a d) = if j =? i then a else space j d.
Proof.
  intros Hi Hj Hl. unfold space, set_space. cbn [address_spaces]. destruct (Z.eqb_spec j i) as [->|Hne].
  - rewrite nth_lookup, list_lookup_insert_eq by lia. done.
  - rewrite !nth_lookup, list_lookup_insert_ne by lia. done.
Qed.

(** A lock taken and released. *)
Lemma relock i d : 0 <= i < 256 -> length (address_spaces d) = 256%nat -> as_lock (space i d) = 0 ->
  let d1 := set_space i (put_lock 1 (space i d)) d in set_space i (put_lock 0 (space i d1)) d1 = d.
Proof.
  intros Hi Hl Hk d1. unfold d1. rewrite space_set, Z.eqb_refl by lia. unfold set_space. cbn [address_spaces address_space_count dp_global_lock vm_region_cache].
  rewrite list_insert_insert_eq. destruct d as [l n g c]. cbn [address_spaces address_space_count dp_global_lock vm_region_cache] in *. f_equal.
  rewrite list_insert_id; [done|]. unfold space in *. cbn [address_spaces] in *.
  destruct (lookup_lt_is_Some_2 l (Z.to_nat i)) as [a Ha]; [lia|]. rewrite nth_lookup, Ha in *. cbn in *. destruct a as [a1 a2 a3]. cbn in Hk. by subst a3.
Qed.

Lemma upd_dp_id s : upd_dp (fun d => d) s = s.
Proof. by destruct s. Qed.

(** The regions of a page table, and the array once it is entered. *)
Fixpoint regions_of (p : Z) (sp : spaces) : list vregion :=
  match sp with
  | [] => []
  | (q, R) :: sp => if q =? p then R else regions_of p sp
  end.
Definition enter (p : Z) (sp : spaces) : spaces :=
  if decide (p ∈ sp.*1) then sp else if decide (length sp < 256)%nat then sp ++ [(p, [])] else sp.

Lemma regions_of_lookup p R i sp : sp !! i = Some (p, R) -> NoDup sp.*1 -> regions_of p sp = R.
Proof.
  revert i. induction sp as [|[q Q] sp IH]; intros i; [done|]. cbn [fmap list_fmap fst]. intros Hi [Hn Hnd]%NoDup_cons.
  destruct i as [|i]; cbn in Hi.
  - injection Hi as -> ->. cbn [regions_of]. by rewrite Z.eqb_refl.
  - cbn [regions_of]. rewrite (proj2 (Z.eqb_neq q p)); [by apply (IH i)|]. intros ->. apply Hn.
    apply list_elem_of_lookup_2 in Hi. apply list_elem_of_fmap. by exists (p, R).
Qed.
Lemma regions_of_none p sp : p ∉ sp.*1 -> regions_of p sp = [].
Proof.
  induction sp as [|[q Q] sp IH]; [done|]. cbn [fmap list_fmap fst regions_of]. intros [Hn Hp]%not_elem_of_cons.
  rewrite (proj2 (Z.eqb_neq q p)) by congruence. by apply IH.
Qed.

(** What entering a page table gives: its place in the array, unless the array is full. *)
Definition entered (p : Z) (sp : spaces) (r : option Z) : Prop :=
  match r with
  | Some i => 0 <= i < 256 /\ enter p sp !! Z.to_nat i = Some (p, regions_of p sp)
  | None => enter p sp = sp /\ regions_of p sp = [] /\ (256 <= length sp)%nat /\ p ∉ sp.*1
  end.

Lemma find_space_exec p (sp : spaces) s : address_space_count (k_dp s) = Z.of_nat (length sp) -> (length sp <= 256)%nat ->
  (forall i q R, sp !! i = Some (q, R) -> as_pml4 (space (Z.of_nat i) (k_dp s)) = q) ->
  wp (while 0 (find_space p)) (fun r s' => s' = s /\
    match r with Some i => 0 <= i /\ exists R, sp !! Z.to_nat i = Some (p, R) | None => p ∉ sp.*1 end) s.
Proof.
  intros D2 D3 D6.
  apply (wp_loop (fun k i s' => s' = s /\ 0 <= i <= Z.of_nat (length sp) /\ Z.of_nat k = Z.of_nat (length sp) - i /\
    forall j, 0 <= j < i -> as_pml4 (space j (k_dp s)) <> p) (length sp)); [split; [done|]; repeat split; lia|lia|].
  intros k i s' (-> & Hi & Hk & Hno). unfold find_space. apply wp_bind, wp_gets. rewrite D2. destruct (Z.ltb_spec i (Z.of_nat (length sp))) as [Hlt|Hge].
  - apply wp_bind, wp_gets, wp_ret. destruct (Z.eqb_spec (as_pml4 (space i (k_dp s))) p) as [E|E].
    + split; [done|]. split; [lia|]. destruct (lookup_lt_is_Some_2 sp (Z.to_nat i)) as [[q R] Hq]; [lia|].
      pose proof (D6 _ _ _ Hq) as Hp. rewrite Z2Nat.id in Hp by lia. exists R. rewrite Hq. congruence.
    + exists (k - 1)%nat. split; [lia|]. rewrite u32_id by lia. split; [done|]. split; [lia|]. split; [lia|].
      intros j Hj. destruct (decide (j = i)) as [->|]; [done|]. apply Hno. lia.
  - apply wp_ret. split; [done|]. intros ([q R] & -> & Hq)%list_elem_of_fmap. apply list_elem_of_lookup in Hq as [j Hj].
    pose proof (lookup_lt_Some _ _ _ Hj). pose proof (D6 _ _ _ Hj) as Hp. apply (Hno (Z.of_nat j)); [lia|done].
Qed.

(** Appending an empty address space. *)
Lemma dp_append p sp d m : dp_ok d m sp -> p ∉ sp.*1 -> (length sp < 256)%nat ->
  let i := Z.of_nat (length sp) in
  let d1 := set_space i (put_pml4 p (space i d)) d in let d2 := set_space i (put_regions NULL (space i d1)) d1 in
  dp_ok (set_space_count (u32 (i + 1)) d2) m (sp ++ [(p, [])]).
Proof.
  intros [D1 D2 D3 D4 D5 D6 D7] Hp Hlt i d1 d2.
  assert (Hl1 : length (address_spaces d1) = 256%nat) by (unfold d1; cbn; by rewrite length_insert).
  assert (Hl2 : length (address_spaces d2) = 256%nat) by (unfold d2; cbn; by rewrite length_insert).
  assert (Hs : forall j, 0 <= j -> space j d2 = if j =? i then mkAS p NULL (as_lock (space i d)) else space j d).
  { intros j Hj. unfold d2. rewrite space_set by lia. unfold d1. rewrite !space_set, Z.eqb_refl by lia. by destruct (j =? i). }
  split.
  - done.
  - cbn. unfold i. rewrite length_app, u32_id by lia. cbn. lia.
  - rewrite length_app. cbn. lia.
  - done.
  - intros j Hj. change (space j (set_space_count (u32 (i + 1)) d2)) with (space j d2). rewrite Hs by lia. destruct (Z.eqb_spec j i) as [->|]; by apply D5.
  - intros j q R Hj. change (space (Z.of_nat j) (set_space_count (u32 (i + 1)) d2)) with (space (Z.of_nat j) d2). rewrite Hs by lia.
    apply lookup_app_Some in Hj as [Hj|[Hge Hj]].
    + pose proof (lookup_lt_Some _ _ _ Hj). rewrite (proj2 (Z.eqb_neq _ i)) by lia. by apply D6.
    + assert (Hj0 : (j - length sp = 0)%nat) by (apply lookup_lt_Some in Hj; cbn in Hj; lia). rewrite Hj0 in Hj. injection Hj as <- <-.
      replace (Z.of_nat j) with i by lia. rewrite Z.eqb_refl. split; [done|]. split; [done|]. by intros r ?%not_elem_of_nil.
  - rewrite fmap_app. apply NoDup_app. split; [done|]. split; [|apply NoDup_singleton]. intros x Hx ->%list_elem_of_singleton. done.
Qed.

Lemma dp_set_global l d m sp : dp_ok d m sp -> l = 0 -> dp_ok (set_global_lock l d) m sp.
Proof. intros [D1 D2 D3 D4 D5 D6 D7] ->. by split. Qed.

Lemma get_space_runs p sp s : dp_ok (k_dp s) (k_mem s) sp ->
  wp (demand_paging_get_address_space p) (fun r s' => s' = set_dp (k_dp s') s /\ dp_ok (k_dp s') (k_mem s) (enter p sp) /\
    vm_region_cache (k_dp s') = vm_region_cache (k_dp s) /\ entered p sp r) s.
Proof.
  intros Hd. pose proof Hd as [D1 D2 D3 D4 D5 D6 D7]. unfold demand_paging_get_address_space.
  apply wp_bind. unfold global_acquire, acquire_var. apply wp_bind, wp_gets. rewrite D4. cbn [Z.eqb]. apply wp_modify. set (s1 := upd_dp _ s).
  apply wp_bind. eapply wp_mono; [apply (find_space_exec p sp s1 D2 D3); intros i q R Hi; by apply (D6 i q R Hi)|].
  intros r s' (-> & Hr). assert (Hback : set_global_lock 0 (k_dp s1) = k_dp s).
  { unfold s1. cbn. destruct (k_dp s) as [x1 x2 x3 x4]. cbn in *. by rewrite <- D4. }
  destruct r as [i|].
  - destruct Hr as (Hi & R & HR). assert (Hin : p ∈ sp.*1) by (apply list_elem_of_fmap; exists (p, R); split; [done|by apply list_elem_of_lookup_2 in HR]).
    pose proof (lookup_lt_Some _ _ _ HR) as Hlt. assert (He : enter p sp = sp) by (unfold enter; by rewrite decide_True).
    apply wp_bind, wp_modify, wp_ret. split; [by destruct s|]. unfold upd_dp at 1 2. cbn [k_dp set_dp]. rewrite Hback, He. split; [done|]. split; [done|].
    unfold entered. rewrite He. split; [lia|]. by rewrite (regions_of_lookup p R (Z.to_nat i) sp HR D7).
  - apply wp_bind, wp_gets. change (address_space_count (k_dp s1)) with (address_space_count (k_dp s)). rewrite D2. unfold MAX_ADDRESS_SPACES.
    destruct (Z.ltb_spec (Z.of_nat (length sp)) 256) as [Hlt|Hge].
    + assert (He : enter p sp = sp ++ [(p, [])]) by (unfold enter; rewrite decide_False, decide_True by first [done|lia]; done).
      apply wp_bind, wp_modify, wp_bind, wp_modify, wp_bind, wp_modify, wp_bind, wp_modify, wp_ret. split; [by destruct s|].
      split; [|split; [done|]].
      * rewrite He. pose proof (dp_append p sp (k_dp s) (k_mem s) Hd Hr ltac:(lia)) as Ha. cbv zeta in Ha.
        match type of Ha with dp_ok ?d _ _ => match goal with |- dp_ok ?d' _ _ => replace d' with d; [exact Ha|] end end.
        clear -D4. unfold s1. destruct s as [m b pm sl hp cw [x1 x2 x3 x4] pc]. cbn in D4. by subst x3.
      * unfold entered. rewrite He. split; [lia|]. rewrite Nat2Z.id, lookup_app_r, Nat.sub_diag by lia. cbn. by rewrite regions_of_none.
    + assert (He : enter p sp = sp) by (unfold enter; rewrite decide_False, decide_False by first [done|lia]; done).
      apply wp_bind, wp_modify, wp_ret. split; [by destruct s|]. unfold upd_dp at 1 2. cbn [k_dp set_dp]. rewrite Hback, He. split; [done|]. split; [done|].
      split; [done|]. split; [by apply regions_of_none|]. split; [lia|done].
Qed.

(** ** Searches of a list of regions *)

Fixpoint region_at (a : Z) (R : list vregion) : option vregion :=
  match R with
  | [] => None
  | r :: R => if (vr_start r <=? a) && (a <? vr_end r) then Some r else region_at a R
  end.

Lemma region_at_Some a R r : region_at a R = Some r -> r ∈ R /\ vr_start r <= a < vr_end r.
Proof.
  induction R as [|x R IH]; [done|]. cbn [region_at]. destruct ((vr_start x <=? a) && (a <? vr_end x)) eqn:E.
  - intros [= ->]. apply andb_prop in E as [E1%Z.leb_le E2%Z.ltb_lt]. split; [left|done].
  - intros H. destruct (IH H) as [H1 H2]. split; [by right|done].
Qed.
Lemma region_at_None a R : region_at a R = None -> forall r, r ∈ R -> ~ (vr_start r <= a < vr_end r).
Proof.
  induction R as [|x R IH]; [by intros _ r ?%not_elem_of_nil|]. cbn [region_at]. destruct ((vr_start x <=? a) && (a <? vr_end x)) eqn:E; [done|].
  intros H r [->|Hr]%elem_of_cons; [|by apply IH]. intros [H1%Z.leb_le H2%Z.ltb_lt]. by rewrite H1, H2 in E.
Qed.

Lemma regions_tail m h r R : regions_ok m h (r :: R) -> h = vr_node r /\ vr_node r <> NULL /\ region_ok m r /\ regions_ok m (load 8 m (vr_node r + VR_NEXT)) R.
Proof.
  intros [(-> & Hn & Hs) Hr]. split; [done|]. split; [done|]. split; [apply Hr; left|]. split; [done|]. intros x Hx. apply Hr. by right.
Qed.

Lemma region_round_exec a h R s : regions_ok (k_mem s) h R -> Z.of_nat (length R) < 2 ^ 64 ->
  while h (region_round a) s = Done (match region_at a R with Some r => vr_node r | None => NULL end) s.
Proof.
  intros HR Hlen.
  assert (H : wp (while h (region_round a)) (fun r s' => s' = s /\ r = match region_at a R with Some r => vr_node r | None => NULL end) s); cycle 1.
  { apply wp_Done in H as (r & s' & Hrun & -> & ->). exact Hrun. }
  apply (wp_loop (fun k x s' => s' = s /\ exists R', regions_ok (k_mem s) x R' /\ k = length R' /\ region_at a R' = region_at a R) (length R));
    [split; [done|by exists R]|done|].
  intros k x s' (-> & R' & Hx & -> & HR'). unfold region_round. destruct R' as [|r R'].
  - destruct Hx as [Hx _]. cbn in Hx. subst x. cbn [Z.eqb NULL]. apply wp_ret. split; [done|]. by rewrite <- HR'.
  - destruct (regions_tail _ _ _ _ Hx) as (-> & Hn & (F1 & F2 & _) & Hx'). rewrite (proj2 (Z.eqb_neq _ _)) by done.
    apply wp_bind, wp_gets, wp_bind, wp_gets. rewrite F1, F2. cbn [region_at] in HR'.
    destruct ((vr_start r <=? a) && (a <? vr_end r)).
    + apply wp_ret. split; [done|]. by rewrite <- HR'.
    + apply wp_bind, wp_gets, wp_ret. exists (length R'). split; [cbn; lia|]. split; [done|]. by exists R'.
Qed.

(** The overlap test, over a list. *)
Definition overlaps_any (start end_ : Z) (R : list vregion) : bool := existsb (fun r => overlaps start end_ (vr_start r) (vr_end r)) R.

Lemma overlap_round_exec b e h R s : regions_ok (k_mem s) h R -> Z.of_nat (length R) < 2 ^ 64 ->
  while h (overlap_round b e) s = Done (overlaps_any b e R) s.
Proof.
  intros HR Hlen.
  assert (H : wp (while h (overlap_round b e)) (fun r s' => s' = s /\ r = overlaps_any b e R) s); cycle 1.
  { apply wp_Done in H as (r & s' & Hrun & -> & ->). exact Hrun. }
  apply (wp_loop (fun k x s' => s' = s /\ exists R', regions_ok (k_mem s) x R' /\ k = length R' /\ overlaps_any b e R' = overlaps_any b e R) (length R));
    [split; [done|by exists R]|done|].
  intros k x s' (-> & R' & Hx & -> & HR'). unfold overlap_round. destruct R' as [|r R'].
  - destruct Hx as [Hx _]. cbn in Hx. subst x. cbn [Z.eqb NULL]. apply wp_ret. split; [done|]. by rewrite <- HR'.
  - destruct (regions_tail _ _ _ _ Hx) as (-> & Hn & (F1 & F2 & _) & Hx'). rewrite (proj2 (Z.eqb_neq _ _)) by done.
    apply wp_bind, wp_gets, wp_bind, wp_gets. rewrite F1, F2. change (overlaps_any b e (r :: R')) with (overlaps b e (vr_start r) (vr_end r) || overlaps_any b e R') in HR'.
    destruct (overlaps b e (vr_start r) (vr_end r)).
    + apply wp_ret. split; [done|]. by rewrite <- HR'.
    + apply wp_bind, wp_gets, wp_ret. exists (length R'). split; [cbn; lia|]. split; [done|]. by exists R'.
Qed.

Lemma overlaps_any_false b e R : overlaps_any b e R = false <-> forall r, r ∈ R -> overlaps b e (vr_start r) (vr_end r) = false.
Proof.
  induction R as [|x R IH]; [split; [by intros _ r ?%not_elem_of_nil|done]|].
  change (overlaps_any b e (x :: R)) with (overlaps b e (vr_start x) (vr_end x) || overlaps_any b e R).
  rewrite orb_false_iff, IH. split; [intros [H1 H2] r [->|Hr]%elem_of_cons; auto|intros H; split; [apply H; left|intros r Hr; apply H; by right]].
Qed.

(** The range [b, e) begins in the region, ends in it, or contains it; of two ranges that are not
    empty this says that they have an address in common. *)
Definition meets (b e : Z) (r : vregion) : Prop :=
  vr_start r <= b < vr_end r \/ vr_start r < e <= vr_end r \/ (b <= vr_start r /\ vr_end r <= e).

Lemma meets_overlaps b e r : overlaps b e (vr_start r) (vr_end r) = true <-> meets b e r.
Proof. unfold overlaps, meets. rewrite !orb_true_iff, !andb_true_iff, !Z.leb_le, !Z.ltb_lt. lia. Qed.

Lemma overlaps_any_meets b e R : if overlaps_any b e R then exists r, r ∈ R /\ meets b e r else forall r, r ∈ R -> ~ meets b e r.
Proof.
  destruct (overlaps_any b e R) eqn:E.
  - apply existsb_exists in E as (r & Hr & Ho). exists r. split; [by apply list_elem_of_In|by apply meets_overlaps].
  - intros r Hr Hm%meets_overlaps. rewrite (proj1 (overlaps_any_false _ _ _) E) in Hm by done. discriminate Hm.
Qed.

(** ** Finding a region *)

(** Walking a list of regions under the lock of its address space. *)
Lemma wp_space_walk {A} i sp p R s (c : Z -> K A) (f : A) (Q : A -> kst -> Prop) : dp_ok (k_dp s) (k_mem s) sp -> 0 <= i < 256 ->
  sp !! Z.to_nat i = Some (p, R) -> (forall s' h, k_mem s' = k_mem s -> regions_ok (k_mem s) h R -> c h s' = Done f s') -> Q f s ->
  wp (space_acquire i ;; a ← get_space i; x ← c (as_regions a); space_release i ;; mret x) Q s.
Proof.
  intros [D1 D2 D3 D4 D5 D6 D7] Hi Hsp Hc HQ. unfold space_acquire, space_release, acquire_var, release_var.
  destruct (D6 _ _ _ Hsp) as [_ HR]. rewrite Z2Nat.id in HR by lia.
  apply wp_bind, wp_bind, wp_gets. rewrite D5 by done. cbn [Z.eqb]. apply wp_modify. set (s1 := upd_dp _ s).
  apply wp_bind, wp_gets, wp_bind.
  assert (Ha : as_regions (space i (k_dp s1)) = as_regions (space i (k_dp s))).
  { unfold s1. cbn [k_dp upd_dp set_dp]. by rewrite space_set, Z.eqb_refl by lia. }
  rewrite Ha. eapply wp_of_Done; [by apply Hc|]. apply wp_bind, wp_modify, wp_ret.
  unfold s1. unfold upd_dp. cbn [k_dp set_dp]. rewrite relock by auto. by destruct s.
Qed.

Lemma regions_length m h R : regions_ok m h R -> NoDup (vr_node <$> R) -> (forall r, r ∈ R -> 0 <= vr_node r < 2 ^ 52) -> Z.of_nat (length R) < 2 ^ 64.
Proof.
  intros _ Hnd Hb. pose proof (NoDup_submseteq (vr_node <$> R) (seqZ 0 (2 ^ 52)) Hnd) as Hs.
  assert (Hin : (vr_node <$> R) ⊆ seqZ 0 (2 ^ 52)) by (intros a (r & -> & Hr)%list_elem_of_fmap; apply elem_of_seqZ; specialize (Hb r Hr); lia).
  specialize (Hs Hin). apply submseteq_length in Hs. rewrite length_fmap, length_seqZ in Hs. lia.
Qed.

(** The nodes are distinct objects below the physical limit. *)
Definition nodes_ok (sp : spaces) : Prop :=
  NoDup (sp_nodes sp) /\ (forall a, a ∈ sp_nodes sp -> 0 < a /\ a + 32 <= PHYS_LIMIT) /\
  (forall a b, a ∈ sp_nodes sp -> b ∈ sp_nodes sp -> a <> b -> a + 32 <= b \/ b + 32 <= a).

Lemma enter_nodes p sp : sp_nodes (enter p sp) = sp_nodes sp.
Proof.
  unfold enter. destruct (decide _); [done|]. destruct (decide _); [|done]. unfold sp_nodes. rewrite bind_app. cbn. by rewrite app_nil_r.
Qed.

Lemma nodes_list p R sp : nodes_ok sp -> (p, R) ∈ sp -> NoDup (vr_node <$> R) /\ forall r, r ∈ R -> 0 < vr_node r /\ vr_node r + 32 <= PHYS_LIMIT.
Proof.
  intros (H1 & H2 & _) Hin. split.
  - apply list_elem_of_split in Hin as (sp1 & sp2 & ->). unfold sp_nodes in H1. rewrite bind_app in H1. cbn in H1.
    apply NoDup_app in H1 as (_ & _ & H1). by apply NoDup_app in H1 as (? & _ & _).
  - intros r Hr. apply H2. apply sp_nodes_elem. by exists p, R, r.
Qed.

Lemma regions_short p i R sp m h : nodes_ok sp -> sp !! i = Some (p, R) -> regions_ok m h R -> Z.of_nat (length R) < 2 ^ 64.
Proof.
  intros Hn Hi HR. apply list_elem_of_lookup_2 in Hi. destruct (nodes_list p R sp Hn Hi) as [H1 H2].
  apply (regions_length m h R HR H1). intros r Hr. specialize (H2 r Hr). unfold PHYS_LIMIT in H2. lia.
Qed.

Lemma find_region_runs p a sp s : dp_ok (k_dp s) (k_mem s) sp -> nodes_ok sp ->
  wp (demand_paging_find_region p a) (fun r s' => s' = set_dp (k_dp s') s /\ dp_ok (k_dp s') (k_mem s) (enter p sp) /\
    vm_region_cache (k_dp s') = vm_region_cache (k_dp s) /\
    r = match region_at a (regions_of p sp) with Some r => vr_node r | None => NULL end) s.
Proof.
  intros Hd Hn. unfold demand_paging_find_region. apply wp_bind. eapply wp_mono; [by apply get_space_runs|].
  intros r s1 (Es & Hd1 & Hvc & He). destruct r as [i|].
  - destruct He as [Hi He]. assert (Em : k_mem s1 = k_mem s) by (by rewrite Es).
    eapply (wp_space_walk i (enter p sp) p (regions_of p sp) s1 (fun h => while h (region_round a))); [by rewrite Em|done|done| |].
    + intros s' h Em' HR. apply region_round_exec; [by rewrite Em'|]. eapply (regions_short p _ _ (enter p sp)); [|exact He|exact HR].
      unfold nodes_ok. by rewrite enter_nodes.
    + done.
  - destruct He as (_ & -> & _). apply wp_ret. done.
Qed.

Lemma regions_of_in p sp r : r ∈ regions_of p sp -> exists i, sp !! i = Some (p, regions_of p sp).
Proof.
  induction sp as [|[q Q] sp IH]; cbn [regions_of]; [by intros ?%not_elem_of_nil|].
  destruct (Z.eqb_spec q p) as [->|]; [by exists 0%nat|]. intros Hr. destruct (IH Hr) as [i Hi]. by exists (S i).
Qed.

(** A region of a page table, in memory. *)
Lemma region_there d m p sp r : dp_ok d m sp -> r ∈ regions_of p sp -> region_ok m r /\ vr_node r ∈ sp_nodes sp.
Proof.
  intros Hd Hr. destruct (regions_of_in p sp r Hr) as [i Hi]. destruct (dk_spaces _ _ _ Hd i _ _ Hi) as [_ [_ H]].
  split; [by apply H|]. apply sp_nodes_elem. exists p, (regions_of p sp), r. split; [by eapply list_elem_of_lookup_2|done].
Qed.

(** No node is in two lists. *)
Lemma nodes_two sp i j p q R Q x y : NoDup (sp_nodes sp) -> sp !! i = Some (p, R) -> sp !! j = Some (q, Q) -> i <> j ->
  x ∈ R -> y ∈ Q -> vr_node x <> vr_node y.
Proof.
  revert i j. induction sp as [|[z Z] sp IH]; intros i j; [done|]. unfold sp_nodes. cbn. intros Hnd. apply NoDup_app in Hnd as (_ & Hd & Hnd).
  assert (Hrest : forall k p' R' u v, sp !! k = Some (p', R') -> u ∈ R' -> v ∈ Z -> vr_node v <> vr_node u).
  { intros k p' R' u v Hk Hu Hv E. apply (Hd (vr_node v)); [by apply list_elem_of_fmap_2|]. rewrite E. apply sp_nodes_elem.
    exists p', R', u. split; [by eapply list_elem_of_lookup_2|done]. }
  destruct i as [|i], j as [|j]; cbn; [done| | |].
  - intros [= -> ->] Hj _ Hx Hy. by apply (Hrest j q Q y x).
  - intros Hi [= -> ->] _ Hx Hy E. by apply (Hrest i p R x y Hi Hx Hy).
  - intros Hi Hj Hne. apply (IH i j Hnd Hi Hj). congruence.
Qed.
