(* ===== verification/DemandProps.v ===== *)
(** Demand paging as its callers see it: faults, registration and removal of regions. *)
From S2P Require Import Prelude Machine Buddy BuddyInv BuddyTrace BuddyProps PageAlloc Pmm Vmm SList Slab ObjectSource DemandPaging DemandThms.

#[local] Opaque load store.

(** A page address. *)
Lemma page_down_spec v : 0 <= v < 2 ^ 64 -> page_down v = v - v mod 4096.
Proof.
  intros Hv. unfold page_down, u64. change (Z.lnot (BUDDY_PAGE_SIZE - 1) mod 2 ^ 64) with (Z.ldiff (Z.ones 64) (Z.ones 12)).
  transitivity (Z.ldiff v (Z.ones 12)).
  - apply Z.bits_inj'. intros j Hj. rewrite Z.land_spec, !Z.ldiff_spec. destruct (Z.ltb_spec j 64).
    + rewrite (Z.ones_spec_low 64) by lia. by rewrite andb_true_l.
    + rewrite (high_bit v 64 j) by lia. by rewrite !andb_false_l.
  - rewrite Z.ldiff_ones_r by lia. rewrite Z.shiftl_mul_pow2, Z.shiftr_div_pow2 by lia. change (2 ^ 12) with 4096. pose proof (Z.div_mod v 4096 ltac:(lia)). lia.
Qed.

Section fault.
Context `{PA : PageAllocator 0 pmm_alloc_frame pmm_free_frame}.
Context (Hmov : serves pa_inv 0 (buddy_alloc_pages 0 BUDDY_ZONE_MOVABLE)).

(** The tables do not change and the blocks may grow. *)
Lemma vm_move s s' A A' N : vm_inv s A N -> pa_inv s' A' -> A ⊆ A' -> agree (in_tables N) (k_mem s) (k_mem s') ->
  vm_inv s' A' N /\ forall l4 v, (4, l4) ∈ N -> translate (k_mem s') l4 v = translate (k_mem s) l4 v.
Proof.
  intros [V1 V2 V3] Hi HA Hag. assert (Ht : forall l t, (l, t) ∈ N -> agree (within t 4096) (k_mem s) (k_mem s')).
  { intros l t Hin. eapply agree_mono; [|exact Hag]. intros x Hx. by exists l, t. }
  split; [split|].
  - done.
  - apply (tree_frame (k_mem s)); [done|]. intros l t Hin _. by apply (Ht l).
  - intros l t Hin. by apply HA, (V3 l).
  - intros l4 v H4. apply (translate_ext (k_mem s) (k_mem s') N l4 v V2 H4). intros l t i Hin Hi'. apply descend_agree; [by apply (Ht l)|done].
Qed.

(** Writing bytes the clients of the page tables own. *)
Lemma vm_client_write s m A N : vm_inv s A N -> agree (fun x => ~ client A N x) (k_mem s) m ->
  vm_inv (set_mem m s) A N /\ forall l4 v, (4, l4) ∈ N -> translate m l4 v = translate (k_mem s) l4 v.
Proof.
  intros Hv Hag. apply (vm_move s (set_mem m s) A A N Hv); [|done|].
  - apply pa_write; [apply Hv|]. eapply agree_mono; [|exact Hag]. intros x Hx [Hb _]. done.
  - eapply agree_mono; [|exact Hag]. intros x Hx [_ Hn]. done.
Qed.

Lemma vm_statics s d A N : vm_inv s A N -> vm_inv (set_dp d s) A N.
Proof. intros [V1 V2 V3]. split; [|done|done]. by apply (pa_frame s). Qed.

(** The lock of the region at [reg] taken, and given back. *)
Definition region_held (reg : Z) (s : kst) : kst := set_mem (store 4 (k_mem s) (reg + VR_LOCK) 1) s.
Definition region_freed (reg : Z) (s : kst) : kst := set_mem (store 4 (k_mem s) (reg + VR_LOCK) 0) s.

(** A page that was mapped on demand: [sl] is the state in which it was allocated.  Only when no
    frame was left for a table - asked again right before the lock was given back, the
    frame allocator has none - is it not mapped. *)
Definition paged_in (sl : kst) (reg : Z) (A : blocks) (N : tables) (pml4 a : Z) (zero : bool) (s' : kst) : Prop :=
  exists phys A' N', (exists s2, buddy_alloc_pages 0 BUDDY_ZONE_MOVABLE sl = Done phys s2) /\ phys <> 0 /\
    (phys, 0) ∉ A /\ (phys, 0) ∈ A' /\ vm_inv s' A' N' /\ A ⊆ A' /\ N ⊆ N' /\
    (zero = true -> forall x, within phys 4096 x -> mget (k_mem s') x = 0) /\
    ((forall l4 v, (4, l4) ∈ N -> translate (k_mem s') l4 v =
        if bool_decide (l4 = pml4 /\ page_of v = page_of a) then Some (Z.lor phys (Z.land v 0xFFF)) else translate (k_mem sl) l4 v) \/
     ((exists s3, pmm_alloc_frame s3 = Done 0 s3 /\ s' = region_freed reg s3) /\
      forall l4 v, (4, l4) ∈ N -> translate (k_mem s') l4 v = translate (k_mem sl) l4 v)).

(** What a fault at the page [a] does.  The state [sl] in which a page is asked for is the one
    before the fault, with the page table entered and the lock of the region held. *)
Definition faulted (s : kst) (A : blocks) (N : tables) (sp : spaces) (pml4 a r : Z) (s' : kst) : Prop :=
  dp_ok (k_dp s') (k_mem s') (enter pml4 sp) /\ agree (client A N) (k_mem s) (k_mem s') /\
  match region_at a (regions_of pml4 sp) with
  | None => r = -1 /\ s' = set_dp (k_dp s') s
  | Some reg =>
      if Z.land (vr_flags reg) VM_FLAG_DEMAND_PAGED =? 0 then r = -1 /\ s' = set_dp (k_dp s') s
      else if negb (default 0 (translate (k_mem s) pml4 a) =? 0) then r = 0 /\ s' = set_dp (k_dp s') s
      else
        let sl := region_held (vr_node reg) (set_dp (k_dp s') s) in
        (forall l4 v, (4, l4) ∈ N -> translate (k_mem sl) l4 v = translate (k_mem s) l4 v) /\
        ((r = -1 /\ buddy_alloc_pages 0 BUDDY_ZONE_MOVABLE sl = Done 0 sl /\ s' = region_freed (vr_node reg) sl /\
          vm_inv s' A N /\ (forall l4 v, (4, l4) ∈ N -> translate (k_mem s') l4 v = translate (k_mem s) l4 v)) \/
         (r = 0 /\ paged_in sl (vr_node reg) A N pml4 a (negb (Z.land (vr_flags reg) VM_FLAG_ZERO_FILL =? 0)) s'))
  end.

(** The page is allocated, zeroed and mapped; the lock of the region is held. *)
Lemma page_in_runs s A N pml4 a reg flags : vm_inv s A N -> (4, pml4) ∈ N ->
  load 4 (k_mem s) (reg + VR_FLAGS) = flags -> (forall x, within reg 32 x -> client A N x) ->
  wp (phys_addr ← buddy_alloc_pages 0 BUDDY_ZONE_MOVABLE;
      if phys_addr =? 0 then spinlock_release (reg + VR_LOCK) ;; mret (-1) else
      flags ← load32 (reg + VR_FLAGS);
      when (negb (Z.land flags VM_FLAG_ZERO_FILL =? 0))
        (let page_ptr := u64 (DIRECT_MAP + phys_addr) in
         for_range 0 BUDDY_PAGE_SIZE (fun i => store8 (direct page_ptr + i) 0)) ;;
      vmm_map_page pml4 a phys_addr (Z.lor (Z.lor VMM_FLAG_PRESENT VMM_FLAG_WRITABLE) VMM_FLAG_USER) ;;
      spinlock_release (reg + VR_LOCK) ;;
      mret 0)
    (fun r s' => (r = -1 /\ buddy_alloc_pages 0 BUDDY_ZONE_MOVABLE s = Done 0 s /\ s' = region_freed reg s) \/
      (r = 0 /\ same_statics s s' /\ load 4 (k_mem s') (reg + VR_LOCK) = 0 /\ paged_in s reg A N pml4 a (negb (Z.land flags VM_FLAG_ZERO_FILL =? 0)) s' /\
       agree (fun x => client A N x /\ ~ within (reg + VR_LOCK) 4 x) (k_mem s) (k_mem s'))) s.
Proof.
  intros Hv Hin Hfl Hreg. destruct (Hmov s A (vi_alloc _ _ _ Hv)) as (phys & s1 & Hrun & Hst & Hcase).
  apply wp_bind. eapply wp_of_Done; [exact Hrun|]. destruct Hcase as [[-> ->]|(Hb & Hi1 & Hnew & Hag)].
  { cbn [Z.eqb]. apply wp_bind, wp_modify, wp_ret. by left. }
  destruct Hb as (_ & Hp & Hal & Hlim). unfold PHYS_LIMIT in Hlim. rewrite sz_0 in Hlim. rewrite (proj2 (Z.eqb_neq phys 0)) by lia.
  assert (Hag1 : agree (client A N) (k_mem s) (k_mem s1)) by (eapply agree_mono; [|exact Hag]; by intros x [Hx _]).
  assert (Htab : agree (in_tables N) (k_mem s) (k_mem s1)).
  { eapply agree_mono; [|exact Hag]. intros x (l & t & Ht & Hx). exists t, 0. split; [by apply (vi_own _ _ _ Hv l)|by rewrite sz_0]. }
  destruct (vm_move s s1 A ((phys, 0) :: A) N Hv Hi1 ltac:(by right) Htab) as [Hv1 Htr1].
  apply wp_bind, wp_gets. rewrite (load_agree 4 (k_mem s)) by (eapply agree_mono; [|exact Hag1]; intros x Hx; apply Hreg; dparith). rewrite Hfl.
  assert (Hfar : forall x, within phys 4096 x -> ~ in_block A x).
  { intros x Hx (b & ob & Hbin & Hw). pose proof (pa_new_disj s1 A phys 0 Hi1 Hnew b ob Hbin) as Hd. unfold disj in Hd. rewrite sz_0 in Hd. unfold within in *. lia. }
  assert (Hnt : forall x, within phys 4096 x -> client ((phys, 0) :: A) N x).
  { intros x Hx. split; [exists phys, 0; rewrite sz_0; split; [left|done]|]. intros (l & t & Ht & Hw). apply (Hfar x Hx).
    exists t, 0. rewrite sz_0. split; [by apply (vi_own _ _ _ Hv l)|done]. }
  apply wp_bind. set (zero := negb (Z.land flags VM_FLAG_ZERO_FILL =? 0)).
  assert (Hz : wp (when zero (let page_ptr := u64 (DIRECT_MAP + phys) in for_range 0 BUDDY_PAGE_SIZE (fun i => store8 (direct page_ptr + i) 0)))
    (fun _ s2 => exists m, s2 = set_mem m s1 /\ agree (fun x => ~ within phys 4096 x) (k_mem s1) m /\
       (zero = true -> forall x, within phys 4096 x -> mget m x = 0)) s1).
  { apply wp_when; [intros _|intros ->; exists (k_mem s1); by rewrite set_mem_id].
    cbv zeta. assert (direct (u64 (DIRECT_MAP + phys)) = phys) as ->.
    { unfold direct, u64. rewrite Zminus_mod_idemp_l. replace (DIRECT_MAP + phys - DIRECT_MAP) with phys by lia. apply Z.mod_small. lia. }
    apply wp_fill8; [done|]. intros m Hm Hmz. by exists m. }
  eapply wp_mono; [exact Hz|]. intros [] s2 (m & -> & Hm & Hmz).
  destruct (vm_client_write s1 m ((phys, 0) :: A) N Hv1) as [Hv2 Htr2].
  { eapply agree_mono; [|exact Hm]. intros x Hx Hw. by apply Hx, Hnt. }
  apply wp_bind. eapply wp_mono; [by apply (vmm_map_runs _ _ N pml4 a phys _ Hv2 Hin)|].
  intros _ s3 (A3 & N3 & Hv3 & HA3 & HN3 & Hfr & Hst3 & Hag3 & Htr3). apply wp_bind, wp_modify, wp_ret. right. split; [done|].
  set (m4 := store 4 (k_mem s3) (reg + VR_LOCK) 0). assert (Hag4 : agree (fun x => ~ within (reg + VR_LOCK) 4 x) (k_mem s3) m4) by (by apply agree_store).
  assert (Hcl : forall x, client A N x -> client ((phys, 0) :: A) N x).
  { intros x [(b & ob & Hbin & Hw) Hnn]. split; [|done]. exists b, ob. split; [by right|done]. }
  assert (Hout : forall x, client A N x -> ~ within phys 4096 x) by (intros x [Hx _] Hw; by apply (Hfar x Hw)).
  assert (Hlk : forall x, within (reg + VR_LOCK) 4 x -> client A3 N3 x).
  { intros x Hx. pose proof (Hreg x ltac:(dparith)) as Hc. destruct (Hcl x Hc) as [Hb' Hn']. split; [by apply (in_block_mono ((phys, 0) :: A))|].
    intros (l & t & Ht & Hw). destruct (Hfr l t x Ht Hw) as [Hold|]; [|done]. apply Hn'. by exists l, t. }
  destruct (vm_client_write s3 m4 A3 N3 Hv3) as [Hv4 Htr4].
  { eapply agree_mono; [|exact Hag4]. intros x Hx Hw. by apply Hx, Hlk. }
  split; [etrans; [exact Hst|exact Hst3]|]. split; [by apply load32_store_eq|]. split.
  - exists phys, A3, N3. split; [by exists s1|]. split; [lia|]. split; [done|]. split; [apply HA3; left|]. split; [exact Hv4|]. split; [intros b Hb'; apply HA3; by right|]. split; [done|]. split.
    + intros Hzero x Hx. cbn [k_mem set_mem]. rewrite Hag4.
      * rewrite (Hag3 x (Hnt x Hx)). cbn [k_mem set_mem]. by apply Hmz.
      * intros Hw. apply (Hout x); [apply Hreg; dparith|done].
    + assert (Hal' : Z.land phys ADDR_MASK = phys).
      { rewrite <- (Z.lor_0_r phys) at 1. apply entry_addr; [done|lia|lia]. }
      cbn [k_mem set_mem]. destruct Htr3 as [Htr3|[Hfr0 Htr3]]; [left|right; split; [by exists s3|]]; intros l4 v H4; rewrite Htr4 by (by apply HN3); rewrite Htr3 by done.
      * rewrite Hal'. cbn [k_mem set_mem]. destruct (bool_decide _); [done|]. rewrite Htr2 by done. by apply Htr1.
      * cbn [k_mem set_mem]. rewrite Htr2 by done. by apply Htr1.
  - cbn [k_mem set_mem]. etrans; [eapply agree_mono; [|exact Hag1]; by intros x [Hx _]|].
    etrans; [eapply agree_mono; [|exact Hm]; intros x [Hx _]; by apply Hout|].
    etrans; [eapply agree_mono; [|exact Hag3]; intros x [Hx _]; by apply Hcl|eapply agree_mono; [|exact Hag4]; by intros x [_ Hx]].
Qed.

(** Bytes that two runs leave equal, around a lock word that is free before and after. *)
Lemma agree_lock (P : Z -> Prop) m m' a : load 4 m a = 0 -> load 4 m' a = 0 ->
  agree (fun x => P x /\ ~ within a 4 x) m m' -> agree P m m'.
Proof using.
  intros H1 H2 Hag x Hx. destruct (decide (within a 4 x)) as [Hw|Hw]; [|by apply Hag].
  by rewrite (load_zero_bytes 4 m a x H1 Hw), (load_zero_bytes 4 m' a x H2 Hw).
Qed.

Lemma fault_runs s A N sp pml4 virt : vm_inv s A N -> (4, pml4) ∈ N -> dp_ok (k_dp s) (k_mem s) sp -> nodes_ok sp ->
  (forall x, region_bytes sp x -> client A N x) ->
  wp (demand_paging_handle_fault pml4 virt) (fun r s' => faulted s A N sp pml4 (page_down virt) r s') s.
Proof.
  intros Hv Hin Hd Hn Hcl. unfold demand_paging_handle_fault, faulted. set (a := page_down virt).
  apply wp_bind. eapply wp_mono; [by apply find_region_runs|]. intros r s1 (Es & Hd1 & _ & ->).
  assert (Em : k_mem s1 = k_mem s) by (by rewrite Es).
  destruct (region_at a (regions_of pml4 sp)) as [reg|] eqn:Er.
  2: { cbn [Z.eqb NULL]. apply wp_ret. by rewrite Em. }
  apply region_at_Some in Er as [Hreg _]. destruct (region_there _ _ _ _ _ Hd Hreg) as [(F1 & F2 & F3 & F4) Hnode].
  destruct Hn as (_ & Hn2 & _). destruct (Hn2 _ Hnode) as [Hpos _]. rewrite (proj2 (Z.eqb_neq (vr_node reg) NULL)) by (unfold NULL; lia).
  apply wp_bind, wp_gets. rewrite Em, F3. destruct (Z.land (vr_flags reg) VM_FLAG_DEMAND_PAGED =? 0); [apply wp_ret; by rewrite Em|].
  apply wp_bind. eapply wp_of_Done; [apply get_physical_exec|]. rewrite Em. destruct (negb (default 0 (translate (k_mem s) pml4 a) =? 0)) eqn:Et; [apply wp_ret; by rewrite Em|].
  apply wp_bind. unfold spinlock_acquire. apply wp_bind, wp_gets. rewrite Em, F4. cbn [Z.eqb]. apply wp_modify. set (s2 := set_mem _ s1).
  assert (Hregb : forall x, within (vr_node reg) 32 x -> client A N x) by (intros x Hx; apply Hcl; by exists (vr_node reg)).
  assert (Hag2 : agree (fun x => ~ within (vr_node reg + VR_LOCK) 4 x) (k_mem s) (k_mem s2)).
  { unfold s2. rewrite Em. cbn [k_mem set_mem]. by apply agree_store. }
  assert (Hv1 : vm_inv s1 A N) by (rewrite Es; by apply vm_statics).
  destruct (vm_client_write s1 (k_mem s2) A N Hv1) as [Hv2 Htr2].
  { rewrite Em. eapply agree_mono; [|exact Hag2]. intros x Hx Hw. apply Hx, Hregb. dparith. }
  change (set_mem (k_mem s2) s1) with s2 in Hv2. rewrite Em in Htr2. apply wp_bind. eapply wp_of_Done; [apply get_physical_exec|].
  rewrite Htr2, Et by done.
  assert (F3' : load 4 (k_mem s2) (vr_node reg + VR_FLAGS) = vr_flags reg).
  { rewrite (load_agree 4 (k_mem s)); [done|]. eapply agree_mono; [|exact Hag2]. dparith. }
  eapply wp_mono; [by apply (page_in_runs s2 A N pml4 a (vr_node reg) (vr_flags reg))|].
  intros r s3 [(-> & Hno & ->)|(-> & Hst & Hlk & Hpg & Hag)].
  - assert (Hall : agree (fun _ => True) (k_mem s) (store 4 (k_mem s2) (vr_node reg + VR_LOCK) 0)).
    { unfold s2. cbn [k_mem set_mem]. rewrite Em. by apply relock_agree. }
    assert (Esl : region_held (vr_node reg) (set_dp (k_dp (region_freed (vr_node reg) s2)) s) = s2).
    { change (k_dp (region_freed (vr_node reg) s2)) with (k_dp s1). by rewrite <- Es. }
    cbv zeta. rewrite Esl. split; [|split; [|split; [exact Htr2|left; split; [done|split; [done|split; [done|]]]]]].
    + unfold region_freed, s2. cbn [k_dp k_mem set_mem] in *. apply (dp_frame _ (k_mem s)); [|done]. eapply agree_mono; [|exact Hall]. done.
    + unfold region_freed. cbn [k_mem set_mem]. eapply agree_mono; [|exact Hall]. done.
    + destruct (vm_client_write s1 (store 4 (k_mem s2) (vr_node reg + VR_LOCK) 0) A N Hv1) as [Hv3 Htr3].
      { rewrite Em. eapply agree_mono; [|exact Hall]. done. }
      split; [exact Hv3|]. rewrite Em in Htr3. exact Htr3.
  - assert (Hagc : agree (client A N) (k_mem s) (k_mem s3)).
    { apply (agree_lock _ _ _ (vr_node reg + VR_LOCK)); [done|done|]. etrans; [|exact Hag]. eapply agree_mono; [|exact Hag2]. by intros x [_ Hx]. }
    pose proof Hst as (_ & _ & _ & Edp & _). change (k_dp s2) with (k_dp s1) in Edp.
    assert (Esl : region_held (vr_node reg) (set_dp (k_dp s3) s) = s2) by (rewrite Edp; by rewrite <- Es).
    cbv zeta. rewrite Esl. split; [|split; [done|split; [exact Htr2|right; by split]]].
    rewrite Edp. apply (dp_frame _ (k_mem s)); [|done].
    eapply agree_mono; [|exact Hagc]. intros x Hx. apply Hcl. unfold region_bytes in *. by rewrite enter_nodes in Hx.
Qed.

(** C26: A fault at an address of a demand-paged region whose page has no mapping allocates a page,
    zeroes it when the region asks for that, and maps it: the page's addresses then translate
    to it and every other translation of every address space is as before (unless the frame
    allocator has no frame left for a table, when none changes although the answer is 0).
    When the MOVABLE zone has no page in the state in which it is asked, outside every region
    and in a region that is not demand paged the answer is -1 and nothing changes; a page
    that is mapped already is left alone.  Nothing clients own is
    written and the regions stay as they were. *)
Theorem demand_fault_correct s A N sp pml4 virt : vm_inv s A N -> (4, pml4) ∈ N -> dp_ok (k_dp s) (k_mem s) sp -> nodes_ok sp ->
  (forall x, region_bytes sp x -> client A N x) -> 0 <= virt < 2 ^ 64 ->
  exists r s', demand_paging_handle_fault pml4 virt s = Done r s' /\ faulted s A N sp pml4 (virt - virt mod 4096) r s'.
Proof. intros. rewrite <- page_down_spec by done. by apply wp_Done, fault_runs. Qed.
End fault.

(** ** Registration *)

(** Ranges that are not empty and do not meet. *)
Definition ranges_ok (R : list vregion) : Prop :=
  (forall r, r ∈ R -> vr_start r < vr_end r) /\
  ForallOrdPairs (fun r r' => vr_end r <= vr_start r' \/ vr_end r' <= vr_start r) R.

Lemma ranges_add r R : ranges_ok R -> vr_start r < vr_end r -> (forall x, x ∈ R -> ~ meets (vr_start r) (vr_end r) x) -> ranges_ok (r :: R).
Proof.
  intros [H1 H2] Hr Hf. split.
  - intros x [->|Hx]%elem_of_cons; auto.
  - constructor; [|done]. apply Forall_forall. intros x Hx. specialize (Hf x Hx). specialize (H1 x Hx).
    unfold meets in Hf. lia.
Qed.

(** The lists once the region [r] is put in front of the [i]-th. *)
Definition add_region (i : nat) (p : Z) (r : vregion) (R : list vregion) (sp : spaces) : spaces := <[i := (p, r :: R)]> sp.

Lemma add_nodes i p r R sp : sp !! i = Some (p, R) -> sp_nodes (add_region i p r R sp) ≡ₚ vr_node r :: sp_nodes sp.
Proof.
  intros Hi. apply list_elem_of_split_length in Hi as (sp1 & sp2 & -> & ->). unfold add_region, sp_nodes. rewrite insert_app_r_alt, Nat.sub_diag by done.
  cbn. rewrite !bind_app. cbn. solve_Permutation.
Qed.

Lemma dp_add d d' m m' sp i p r R : dp_ok d m sp -> sp !! i = Some (p, R) -> agree (region_bytes sp) m m' ->
  region_ok m' r -> vr_node r <> NULL -> load 8 m' (vr_node r + VR_NEXT) = as_regions (space (Z.of_nat i) d) ->
  length (address_spaces d') = 256%nat -> address_space_count d' = address_space_count d -> dp_global_lock d' = 0 ->
  (forall j, 0 <= j -> space j d' = if j =? Z.of_nat i then mkAS p (vr_node r) 0 else space j d) ->
  dp_ok d' m' (add_region i p r R sp).
Proof.
  intros Hd Hi Hag Hr Hn Hnx E1 E2 E3 E4. pose proof (dp_frame d m m' sp Hag Hd) as [D1 D2 D3 D4 D5 D6 D7]. split; try done.
  - unfold add_region. rewrite length_insert. congruence.
  - unfold add_region. by rewrite length_insert.
  - intros j Hj. rewrite E4 by lia. destruct (j =? Z.of_nat i); [done|by apply D5].
  - intros j q Q Hj. rewrite E4 by lia. unfold add_region in Hj. destruct (decide (j = i)) as [->|Hne].
    + rewrite list_lookup_insert_eq in Hj by (by eapply lookup_lt_Some). injection Hj as <- <-. rewrite Z.eqb_refl. split; [done|].
      destruct (D6 i p R Hi) as [_ [H1 H2]]. split; [|intros x [->|Hx]%elem_of_cons; auto]. cbn [fmap list_fmap sll as_regions]. by rewrite Hnx.
    + rewrite list_lookup_insert_ne in Hj by done. rewrite (proj2 (Z.eqb_neq _ _)) by lia. by apply D6.
  - unfold add_region. rewrite list_fmap_insert. cbn. rewrite list_insert_id; [done|]. by rewrite list_lookup_fmap, Hi.
Qed.

Section register.
Context (c size : Z) (Hsize : SIZEOF_VM_REGION <= size) `{OS : ObjectSource size (slab_alloc c) (slab_free c)}.

(** The regions are exactly the objects that are out. *)
Record dp_inv (s : kst) (sp : spaces) : Prop := {
  di_ok : dp_ok (k_dp s) (k_mem s) sp;
  di_cache : vm_region_cache (k_dp s) = c;
  di_objects : exists H, os_inv s H /\ H ≡ₚ sp_nodes sp
}.

Lemma inv_nodes s sp : dp_inv s sp -> nodes_ok sp.
Proof using Hsize.
  intros [_ _ (H & Hi & Hp)]. split; [rewrite <- Hp; by eapply os_nodup|]. split.
  - intros a. rewrite <- Hp. intros Ha. destruct (os_range s H a Hi Ha). dparith.
  - intros a b. rewrite <- Hp. intros Ha Hb Hne. pose proof (os_apart s H a b Hi Ha Hb Hne). dparith.
Qed.

(** The lock of the [i]-th address space taken, and given back. *)
Definition space_held (i : Z) (s : kst) : kst := upd_dp (fun d => set_space i (put_lock 1 (space i d)) d) s.
Definition space_freed (i : Z) (s : kst) : kst := upd_dp (fun d => set_space i (put_lock 0 (space i d)) d) s.

(** Why a range is refused: it meets a region of the page table; or the page table is not
    among the 256 address spaces, which are all taken; or the cache, asked right after the
    address space was found and locked, has no object. *)
Definition refused (s : kst) (sp : spaces) (pml4 b e : Z) (s' : kst) : Prop :=
  (exists reg, reg ∈ regions_of pml4 sp /\ meets b e reg) \/
  ((256 <= length sp)%nat /\ pml4 ∉ sp.*1) \/
  exists i s1 s2, demand_paging_get_address_space pml4 s = Done (Some i) s1 /\
    slab_alloc c (space_held i s1) = Done NULL s2 /\ s' = space_freed i s2.

(** The outcomes of a registration of the range [b, e). *)
Definition registered (s : kst) (sp : spaces) (pml4 b e flags r : Z) (s' : kst) : Prop :=
  (r = -1 /\ dp_inv s' (enter pml4 sp) /\ refused s sp pml4 b e s') \/
  (r = 0 /\ (forall reg, reg ∈ regions_of pml4 sp -> ~ meets b e reg) /\ exists i o, enter pml4 sp !! i = Some (pml4, regions_of pml4 sp) /\ o ∉ sp_nodes sp /\
     dp_inv s' (add_region i pml4 (mkVR o b e flags) (regions_of pml4 sp) (enter pml4 sp))).

(** Another state of the statics of demand paging. *)
Lemma inv_set_dp s d sp sp' : dp_inv s sp -> dp_ok d (k_mem s) sp' -> sp_nodes sp' = sp_nodes sp -> vm_region_cache d = c -> dp_inv (set_dp d s) sp'.
Proof using. intros [D1 D2 (H & Hi & Hp)] Hd Hn Hc. split; [done|done|]. exists H. split; [by apply os_statics|by rewrite Hn]. Qed.

Lemma page_down_bound v : 0 <= v < 2 ^ 64 -> 0 <= page_down v < 2 ^ 64.
Proof using. intros Hv. rewrite page_down_spec by done. pose proof (Z.mod_pos_bound v 4096 ltac:(lia)). pose proof (Z.mod_le v 4096). lia. Qed.

(** From the allocation on, the lock of the address space [i] being held. *)
Lemma link_runs s sp i R pml4 b e flags : dp_inv s sp -> 0 <= i < 256 -> sp !! Z.to_nat i = Some (pml4, R) ->
  0 <= b < 2 ^ 64 -> 0 <= e < 2 ^ 64 -> 0 <= flags < 2 ^ 32 ->
  wp (cache ← gets (fun s => vm_region_cache (k_dp s));
      region ← slab_alloc cache;
      if region =? NULL then space_release i ;; mret (-1) else
      store64 (region + VR_START) b ;;
      store64 (region + VR_END) e ;;
      store32 (region + VR_FLAGS) flags ;;
      spinlock_init (region + VR_LOCK) ;;
      a ← get_space i;
      store64 (region + VR_NEXT) (as_regions a) ;;
      upd_space i (put_regions region) ;;
      space_release i ;;
      mret 0)
    (fun r s' => (r = -1 /\ dp_inv s' sp /\ exists s2, slab_alloc c (space_held i s) = Done NULL s2 /\ s' = space_freed i s2) \/
       (r = 0 /\ exists o, o ∉ sp_nodes sp /\ dp_inv s' (add_region (Z.to_nat i) pml4 (mkVR o b e flags) R sp)))
    (space_held i s).
Proof.
  intros [D1 D2 (H & Hi & Hp)] Hir Hsp Hb He Hf. unfold space_held. set (s1 := upd_dp _ s).
  pose proof D1 as [K1 K2 K3 K4 K5 K6 K7]. destruct (K6 _ _ _ Hsp) as [Ep HR]. rewrite Z2Nat.id in Ep, HR by lia.
  apply wp_bind, wp_gets. change (vm_region_cache (k_dp s1)) with (vm_region_cache (k_dp s)). rewrite D2.
  destruct (os_alloc s1 H) as (o & s2 & Hrun & Hst & Hag & Hcase); [by apply os_statics|].
  apply wp_bind. eapply wp_of_Done; [exact Hrun|]. pose proof Hst as (_ & _ & _ & Edp & _). change (k_mem s1) with (k_mem s) in Hag.
  assert (Hrb : agree (region_bytes sp) (k_mem s) (k_mem s2)).
  { eapply agree_mono; [|exact Hag]. intros x (a & Ha & Hx). exists a. rewrite Hp. split; [done|dparith]. }
  assert (Hback : set_space i (put_lock 0 (space i (k_dp s2))) (k_dp s2) = k_dp s).
  { rewrite Edp. unfold s1. cbn [k_dp upd_dp set_dp]. apply relock; auto. }
  destruct Hcase as [[-> Hi2]|[Hn Hi2]].
  { cbn [Z.eqb NULL]. apply wp_bind, wp_modify, wp_ret. left. split; [done|]. split; [|by exists s2].
    split; unfold upd_dp; cbn [k_dp k_mem set_dp]; rewrite ?Hback; [by apply (dp_frame _ (k_mem s))|done|]. exists H. split; [by apply os_statics|done]. }
  rewrite (proj2 (Z.eqb_neq o NULL)) by done. do 4 apply wp_bind, wp_modify. apply wp_bind, wp_gets, wp_bind, wp_modify, wp_bind, wp_modify, wp_bind, wp_modify, wp_ret.
  right. split; [done|]. exists o. assert (Ho : o ∉ sp_nodes sp).
  { rewrite <- Hp. pose proof (os_nodup _ _ Hi2) as Hnd. by apply NoDup_cons in Hnd as [? _]. }
  destruct (os_range _ _ o Hi2 ltac:(left)) as [Ho1 Ho2]. unfold PHYS_LIMIT in Ho2. split; [done|].
  cbn [k_mem k_dp set_mem set_dp upd_dp]. assert (Eh : as_regions (space i (k_dp s2)) = as_regions (space i (k_dp s))).
  { rewrite Edp. unfold s1. cbn [k_dp upd_dp set_dp]. by rewrite space_set, Z.eqb_refl by lia. }
  rewrite Eh. set (h := as_regions (space i (k_dp s))) in *.
  assert (Hh : 0 <= h < 2 ^ 64).
  { destruct HR as [HR _]. destruct R as [|r R]; [cbn in HR; rewrite HR; unfold NULL; lia|]. destruct HR as [-> _].
    destruct (os_range _ _ (vr_node r) Hi) as [Hr1 Hr2]; [rewrite Hp; apply sp_nodes_elem; exists pml4, (r :: R), r; split; [by eapply list_elem_of_lookup_2|split; [left|done]]|].
    unfold PHYS_LIMIT in Hr2. dparith. }
  set (m := store 8 _ (o + VR_NEXT) h).
  assert (Hm : agree (fun x => ~ within o 32 x) (k_mem s2) m) by (unfold m; intros x Hx; rewrite !mget_store_out by dparith; done).
  assert (Hsep : agree (region_bytes sp) (k_mem s2) m).
  { eapply agree_mono; [|exact Hm]. intros x (a & Ha & Hx) Hw. rewrite <- Hp in Ha.
    destruct (os_apart _ _ o a Hi2 ltac:(left) ltac:(by right)) as [|]; [intros ->; by apply Ho; rewrite <- Hp|dparith..]. }
  assert (Hr : region_ok m (mkVR o b e flags) /\ load 8 m (o + VR_NEXT) = h).
  { unfold m, region_ok. cbn [vr_node vr_start vr_end vr_flags]. split; [|by apply load64_store_eq].
    rewrite !(load_store_ne 8 8) by dparith. rewrite !(load_store_ne 8 4), !(load_store_ne 4 8) by dparith.
    rewrite (load32_store_eq _ (o + VR_LOCK)), (load_store_ne 4 4), load32_store_eq by dparith.
    rewrite load64_store_eq by done. rewrite !(load_store_ne 8 8) by dparith. by rewrite load64_store_eq. }
  clearbody m. destruct Hr as [Hr Hnx]. split; cbn [k_mem k_dp set_mem set_dp upd_dp].
  - eapply (dp_add (k_dp s)); [exact D1|exact Hsp|by etrans|exact Hr|done|cbn [vr_node]; rewrite Hnx, Z2Nat.id by lia; done| | | |].
    + rewrite Edp. unfold s1. cbn. by rewrite !length_insert.
    + rewrite Edp. done.
    + rewrite Edp. exact K4.
    + intros j Hj. rewrite Edp. unfold s1. cbn [k_dp upd_dp set_dp].
      assert (L1 : length (address_spaces (set_space i (put_lock 1 (space i (k_dp s))) (k_dp s))) = 256%nat) by (cbn; by rewrite length_insert).
      rewrite Z2Nat.id by lia. rewrite !space_set by (cbn; rewrite ?length_insert; lia). rewrite !Z.eqb_refl.
      destruct (j =? i); [|done]. unfold put_lock, put_regions. cbn. by rewrite Ep.
  - rewrite Edp. done.
  - exists (o :: H). split; [|rewrite add_nodes by done; by rewrite Hp].
    apply (os_statics (set_mem m s2)). apply os_write; [done|]. eapply agree_mono; [|exact Hm]. intros x Hx Hw. apply Hx. exists o. split; [left|dparith].
Qed.

Lemma register_runs s sp pml4 start len flags : dp_inv s sp -> pml4 <> NULL -> 0 <= start < 2 ^ 64 -> 0 < len < 2 ^ 64 -> 0 <= flags < 2 ^ 32 ->
  wp (demand_paging_register_region pml4 start len flags)
    (registered s sp pml4 (page_down start) (page_down (u64 (start + len + BUDDY_PAGE_SIZE - 1))) flags) s.
Proof.
  intros Hi Hp Hs Hz Hf. pose proof (inv_nodes s sp Hi) as Hn. pose proof Hi as [D1 D2 D3]. unfold demand_paging_register_region.
  rewrite (proj2 (Z.eqb_neq pml4 NULL)), (proj2 (Z.eqb_neq len 0)) by first [done|lia]. cbn [orb]. cbv zeta.
  set (b := page_down start). set (e := page_down _).
  assert (Hb : 0 <= b < 2 ^ 64) by (by apply page_down_bound). assert (He : 0 <= e < 2 ^ 64) by (apply page_down_bound, u64_bound).
  destruct (wp_Done _ _ _ (get_space_runs pml4 sp s D1)) as (r & s1 & Hget & Es & Hd1 & Hvc & Hent). apply wp_bind. eapply wp_of_Done; [exact Hget|].
  assert (Hi1 : dp_inv s1 (enter pml4 sp)) by (rewrite Es; eapply inv_set_dp; [exact Hi|exact Hd1|apply enter_nodes|by rewrite Hvc]).
  destruct r as [i|]; cycle 1.
  { destruct Hent as (_ & _ & Hfull). apply wp_ret. left. split; [done|]. split; [done|]. right. by left. }
  destruct Hent as [Hir Hent]. pose proof (di_ok _ _ Hi1) as [K1 K2 K3 K4 K5 K6 K7]. destruct (K6 _ _ _ Hent) as [_ HR]. rewrite Z2Nat.id in HR by lia.
  apply wp_bind. unfold space_acquire, acquire_var. apply wp_bind, wp_gets. rewrite K5 by done. cbn [Z.eqb]. apply wp_modify.
  apply wp_bind, wp_gets. set (s2 := upd_dp _ s1).
  assert (Ha : as_regions (space i (k_dp s2)) = as_regions (space i (k_dp s1))).
  { unfold s2. cbn [k_dp upd_dp set_dp]. by rewrite space_set, Z.eqb_refl by lia. }
  rewrite Ha. apply wp_bind. eapply wp_of_Done.
  { apply (overlap_round_exec b e _ (regions_of pml4 sp)); [exact HR|]. eapply (regions_short pml4 _ _ (enter pml4 sp)); [|exact Hent|exact HR].
    unfold nodes_ok. rewrite enter_nodes. exact Hn. }
  pose proof (overlaps_any_meets b e (regions_of pml4 sp)) as Eo. destruct (overlaps_any b e (regions_of pml4 sp)).
  - apply wp_bind, wp_modify, wp_ret. left. split; [done|]. split; [|by left]. unfold s2. unfold upd_dp. cbn [k_dp set_dp].
    rewrite relock by auto. by destruct s1.
  - eapply wp_mono; [by apply (link_runs s1 (enter pml4 sp) i (regions_of pml4 sp) pml4 b e flags Hi1 Hir Hent)|].
    intros r s3 [(-> & Hi3 & s4 & Hno & ->)|(-> & o & Ho & Hi3)].
    + left. split; [done|]. split; [done|]. right. right. by exists i, s1, s4.
    + right. split; [done|]. split; [done|]. exists (Z.to_nat i), o. split; [done|]. split; [by rewrite enter_nodes in Ho|done].
Qed.

(** C27: Registering a range rounds it to pages, refuses it when it meets a region of the same page
    table, when the page table is new and all 256 address spaces are taken, or when the cache
    has no object for it, and otherwise puts a new region in front of the table's list; the
    regions of the other page tables are as before.  Also a refusal may enter the page table
    into the array of address spaces ([enter]), with no region.  Provided the range does not reach the end of
    the address space, the regions of a page table never meet.  A NULL page table or
    an empty range is refused without any effect. *)
Theorem demand_register_correct pml4 start len flags :
  (forall s, pml4 = NULL \/ len = 0 -> demand_paging_register_region pml4 start len flags s = Done (-1) s) /\
  forall s sp, dp_inv s sp -> pml4 <> NULL -> 0 <= start < 2 ^ 64 -> 0 < len < 2 ^ 64 -> 0 <= flags < 2 ^ 32 ->
    let b := start - start mod 4096 in let last := (start + len + 4095) mod 2 ^ 64 in let e := last - last mod 4096 in
    exists r s', demand_paging_register_region pml4 start len flags s = Done r s' /\ registered s sp pml4 b e flags r s' /\
      (start + len + 4095 < 2 ^ 64 -> ranges_ok (regions_of pml4 sp) -> r = 0 ->
         exists sp', dp_inv s' sp' /\ ranges_ok (regions_of pml4 sp') /\
           exists reg, regions_of pml4 sp' = reg :: regions_of pml4 sp /\ vr_start reg <= start /\ start + len <= vr_end reg).
Proof.
  split.
  { intros s [->| ->]; unfold demand_paging_register_region; [done|]. by rewrite orb_true_r. }
  intros s sp Hi Hp Hs Hz Hf b last e. destruct (wp_Done _ _ _ (register_runs s sp pml4 start len flags Hi Hp Hs Hz Hf)) as (r & s' & Hrun & Hr).
  assert (Eb : page_down start = b) by (by apply page_down_spec).
  assert (Ee : page_down (u64 (start + len + BUDDY_PAGE_SIZE - 1)) = e).
  { rewrite page_down_spec by apply u64_bound. unfold BUDDY_PAGE_SIZE, e, last, u64. by replace (start + len + 4096 - 1) with (start + len + 4095) by lia. }
  rewrite Eb, Ee in Hr. exists r, s'. split; [done|]. split; [done|]. intros Hend Hok ->. destruct Hr as [([=] & _)|(_ & Ho & i & o & Hent & _ & Hi')].
  pose proof (lookup_lt_Some _ _ _ Hent) as Hlt.
  set (reg := mkVR o b e flags) in *. exists (add_region i pml4 reg (regions_of pml4 sp) (enter pml4 sp)). split; [exact Hi'|].
  assert (Hreg : regions_of pml4 (add_region i pml4 reg (regions_of pml4 sp) (enter pml4 sp)) = reg :: regions_of pml4 sp).
  { apply (regions_of_lookup _ _ i); [by apply list_lookup_insert_eq|apply (dk_nodup _ _ _ (di_ok _ _ Hi'))]. }
  pose proof (Z.mod_pos_bound start 4096 ltac:(lia)). pose proof (Z.mod_pos_bound (start + len + 4095) 4096 ltac:(lia)).
  assert (El : last = start + len + 4095) by (apply Z.mod_small; lia). assert (Ee' : e = last - last mod 4096) by done. rewrite El in Ee'. clearbody last e.
  rewrite Hreg. split; [apply ranges_add; [done|cbn; lia|done]|]. exists reg. split; [done|]. cbn. lia.
Qed.

(** ** Removal *)

(** The first region that starts at [b], with what is before and after it. *)
Definition starts_at (b : Z) (R : list vregion) (R1 : list vregion) (r : vregion) (R2 : list vregion) : Prop :=
  R = R1 ++ r :: R2 /\ vr_start r = b /\ forall x, x ∈ R1 -> vr_start x <> b.

Lemma start_round_exec b h R s : regions_ok (k_mem s) h R -> Z.of_nat (length R) < 2 ^ 64 ->
  wp (while (h, NULL) (start_round b)) (fun x s' => s' = s /\
    ((x.1 = NULL /\ forall r, r ∈ R -> vr_start r <> b) \/
     exists R1 r R2, starts_at b R R1 r R2 /\ x = (vr_node r, default NULL (last (vr_node <$> R1))))) s.
Proof using.
  intros HR Hlen.
  apply (wp_loop (fun k x s' => s' = s /\ exists R1 R2, R = R1 ++ R2 /\ regions_ok (k_mem s) x.1 R2 /\ k = length R2 /\
    (forall r, r ∈ R1 -> vr_start r <> b) /\ x.2 = default NULL (last (vr_node <$> R1))) (length R));
    [split; [done|]; exists [], R; split; [done|]; split; [done|]; split; [done|]; split; [by intros r ?%not_elem_of_nil|done]|done|].
  intros k [x p] s' (-> & R1 & R2 & -> & Hx & -> & Hno & Hp). cbn [fst snd] in *. unfold start_round. destruct R2 as [|r R2].
  - destruct Hx as [Hx _]. cbn in Hx. subst x. cbn [Z.eqb NULL]. apply wp_ret. split; [done|]. left. split; [done|]. by rewrite app_nil_r.
  - destruct (regions_tail _ _ _ _ Hx) as (-> & Hn & (F1 & _) & Hx'). rewrite (proj2 (Z.eqb_neq _ _)) by done.
    apply wp_bind, wp_gets. rewrite F1. destruct (Z.eqb_spec (vr_start r) b) as [E|E].
    + apply wp_ret. split; [done|]. right. exists R1, r, R2. rewrite Hp. done.
    + apply wp_bind, wp_gets, wp_ret. exists (length R2). split; [cbn; lia|]. split; [done|]. exists (R1 ++ [r]), R2.
      split; [by rewrite <- app_assoc|]. split; [done|]. split; [done|]. split; [|by rewrite fmap_app; cbn [fmap list_fmap]; rewrite last_snoc].
      intros y Hy. apply elem_of_app in Hy as [Hy|Hy%list_elem_of_singleton]; [by apply Hno|by subst y].
Qed.

(** The loop over the pages of a region none of which is mapped. *)
Lemma free_pages_exec pml4 s r : region_ok (k_mem s) r -> vr_end r + 4096 <= 2 ^ 64 -> 0 <= vr_start r ->
  (forall a, vr_start r <= a < vr_end r -> default 0 (translate (k_mem s) pml4 a) = 0) ->
  wp (free_region_pages pml4 (vr_node r)) (fun _ s' => s' = s) s.
Proof using.
  intros (F1 & F2 & _) He Hb Ht. unfold free_region_pages. apply wp_bind, wp_gets. rewrite F1.
  apply (wp_loop (fun k a s' => s' = s /\ vr_start r <= a /\ (vr_end r - a + 4095) / 4096 <= Z.of_nat k) (Z.to_nat ((vr_end r - vr_start r + 4095) / 4096)));
    [split; [done|lia]| |].
  - assert ((vr_end r - vr_start r + 4095) / 4096 < 2 ^ 64) by (apply Z.div_lt_upper_bound; lia). lia.
  - intros k a s' (-> & Ha & Hk). apply wp_bind, wp_gets. rewrite F2. destruct (Z.ltb_spec a (vr_end r)) as [Hlt|Hge]; [|by apply wp_ret].
    apply wp_bind. eapply wp_of_Done; [apply get_physical_exec|]. rewrite Ht by lia. cbn [Z.eqb negb when]. apply wp_bind, wp_ret, wp_ret.
    rewrite u64_id by (unfold BUDDY_PAGE_SIZE; lia). unfold BUDDY_PAGE_SIZE.
    assert (Hstep : (vr_end r - (a + 4096) + 4095) / 4096 = (vr_end r - a + 4095) / 4096 - 1).
    { replace (vr_end r - a + 4095) with (vr_end r - (a + 4096) + 4095 + 1 * 4096) by lia. rewrite Z.div_add by lia. lia. }
    assert (1 <= (vr_end r - a + 4095) / 4096) by (apply Z.div_le_lower_bound; lia).
    exists (k - 1)%nat. split; [lia|]. split; [done|]. lia.
Qed.

(** The array with the [i]-th list of regions replaced, in the code's two ways of unlinking. *)
Definition unlinked (d : dp_st) (i prev next : Z) : dp_st :=
  if prev =? NULL then set_space i (put_regions next (space i d)) d else d.
Definition unlinked_mem (m : mem) (prev next : Z) : mem := if prev =? NULL then m else store 8 m (prev + VR_NEXT) next.

(** Both ways of unlinking give the list without the region, and write at most the
    link of the predecessor. *)
Lemma unlink_link d m sp i p R1 r R2 : dp_ok d m sp -> nodes_ok sp -> sp !! i = Some (p, R1 ++ r :: R2) ->
  let prev := default NULL (last (vr_node <$> R1)) in let next := load 8 m (vr_node r + VR_NEXT) in
  sll VR_NEXT (unlinked_mem m prev next) (if prev =? NULL then next else as_regions (space (Z.of_nat i) d)) (vr_node <$> R1 ++ R2) /\
  agree (fun x => forall a, a ∈ sp_nodes sp -> a = prev -> ~ within (a + VR_NEXT) 8 x) m (unlinked_mem m prev next) /\ (prev <> NULL -> exists q, q ∈ R1 /\ prev = vr_node q).
Proof using.
  intros Hd Hn Hi prev next. pose proof Hd as [D1 D2 D3 D4 D5 D6 D7].
  destruct (D6 _ _ _ Hi) as [Ep [Hs Hr]]. pose proof (list_elem_of_lookup_2 _ _ _ Hi) as Hin. destruct (nodes_list _ _ _ Hn Hin) as [Hnd Hpos].
  destruct Hn as (N1 & N2 & N3).
  assert (Hnode : forall r', r' ∈ R1 ++ r :: R2 -> vr_node r' ∈ sp_nodes sp) by (intros r' Hr'; apply sp_nodes_elem; by exists p, (R1 ++ r :: R2), r').
  unfold prev, unlinked_mem. destruct R1 as [|q R1' _] using rev_ind.
  - cbn in Hs |- *. destruct Hs as (_ & _ & Hs). done.
  - rewrite fmap_app. cbn [fmap list_fmap]. rewrite last_snoc. change (default NULL (Some (vr_node q))) with (vr_node q).
    assert (Hq : q ∈ (R1' ++ [q]) ++ r :: R2) by (apply elem_of_app; left; apply elem_of_app; right; left).
    destruct (Hpos q Hq) as [Hq1 _]. rewrite (proj2 (Z.eqb_neq (vr_node q) NULL)) by (unfold NULL; lia). split; [|split].
    + rewrite !fmap_app, <- app_assoc in Hs, Hnd |- *. cbn [fmap list_fmap app] in Hs, Hnd |- *. apply sll_unlink; [exact Hs| |exact Hnd].
      intros a b' Ha Hb'. assert (Hsub : forall z, z ∈ (vr_node <$> R1') ++ vr_node q :: vr_node r :: (vr_node <$> R2) -> z ∈ sp_nodes sp).
      { intros z Hz. apply sp_nodes_elem. exists p, ((R1' ++ [q]) ++ r :: R2).
        assert (Hz' : z ∈ vr_node <$> (R1' ++ [q]) ++ r :: R2) by (rewrite !fmap_app, <- app_assoc; exact Hz).
        apply list_elem_of_fmap in Hz' as (y & -> & Hy). by exists y. }
      destruct (decide (a = b')) as [|Hne]; [by left|right]. destruct (N3 a b' (Hsub a Ha) (Hsub b' Hb') Hne); dparith.
    + apply agree_store. intros x Hx Hw. apply (Hx (vr_node q)); [by apply Hnode|done|dparith].
    + intros _. exists q. split; [apply elem_of_app; right; left|done].
Qed.

(** The entry of the array afterwards. *)
Lemma unlinked_space d m sp i p R prev next j : dp_ok d m sp -> sp !! i = Some (p, R) -> 0 <= j ->
  space j (unlinked d (Z.of_nat i) prev next) =
    if j =? Z.of_nat i then mkAS p (if prev =? NULL then next else as_regions (space (Z.of_nat i) d)) 0 else space j d.
Proof using.
  intros [D1 D2 D3 D4 D5 D6 D7] Hi Hj. pose proof (lookup_lt_Some _ _ _ Hi) as Hlt. destruct (D6 _ _ _ Hi) as [Ep _].
  unfold unlinked. assert (E0 : as_lock (space (Z.of_nat i) d) = 0) by (apply D5; lia). destruct (prev =? NULL).
  - rewrite space_set by lia. destruct (j =? Z.of_nat i); [|done]. unfold put_regions. by rewrite Ep, E0.
  - destruct (Z.eqb_spec j (Z.of_nat i)) as [->|]; [|done]. destruct (space (Z.of_nat i) d). cbn in *. congruence.
Qed.

Lemma unlink_region d m sp i p R1 r R2 : dp_ok d m sp -> nodes_ok sp -> sp !! i = Some (p, R1 ++ r :: R2) ->
  let prev := default NULL (last (vr_node <$> R1)) in let next := load 8 m (vr_node r + VR_NEXT) in
  dp_ok (unlinked d (Z.of_nat i) prev next) (unlinked_mem m prev next) (<[i := (p, R1 ++ R2)]> sp) /\
  agree (fun x => ~ region_bytes sp x) m (unlinked_mem m prev next) /\
  (forall r', r' ∈ R1 ++ r :: R2 -> region_ok (unlinked_mem m prev next) r').
Proof using.
  intros Hd Hn Hi prev next. pose proof Hd as [D1 D2 D3 D4 D5 D6 D7]. pose proof (lookup_lt_Some _ _ _ Hi) as Hlt.
  destruct (D6 _ _ _ Hi) as [Ep [Hs Hr]]. pose proof (list_elem_of_lookup_2 _ _ _ Hi) as Hin. destruct (nodes_list _ _ _ Hn Hin) as [Hnd Hpos].
  assert (Hnode : forall r', r' ∈ R1 ++ r :: R2 -> vr_node r' ∈ sp_nodes sp) by (intros r' Hr'; apply sp_nodes_elem; by exists p, (R1 ++ r :: R2), r').
  destruct (unlink_link d m sp i p R1 r R2 Hd Hn Hi) as (Hsll & Hag & Hprev). fold next prev in Hsll, Hag, Hprev. destruct Hn as (N1 & N2 & N3).
  assert (Hreg : forall q Q r', (q, Q) ∈ sp -> r' ∈ Q -> agree (within (vr_node r') 24) m (unlinked_mem m prev next)).
  { intros q Q r' HQ Hr'. eapply agree_mono; [|exact Hag]. intros x Hx a Ha _ Hw.
    assert (Hb : vr_node r' ∈ sp_nodes sp) by (apply sp_nodes_elem; by exists q, Q, r').
    destruct (decide (a = vr_node r')) as [->|Hne]; [dparith|]. destruct (N3 a (vr_node r') Ha Hb Hne); dparith. }
  assert (Hout : agree (fun x => ~ region_bytes sp x) m (unlinked_mem m prev next)).
  { eapply agree_mono; [|exact Hag]. intros x Hx a Ha _ Hw. apply Hx. exists a. split; [done|dparith]. }
  split; [|split; [done|]].
  - split.
    + unfold unlinked. destruct (prev =? NULL); [cbn; by rewrite length_insert|done].
    + unfold unlinked. rewrite length_insert. by destruct (prev =? NULL).
    + by rewrite length_insert.
    + unfold unlinked. by destruct (prev =? NULL).
    + intros j Hj. rewrite (unlinked_space d m sp i p (R1 ++ r :: R2)) by (done || lia). destruct (j =? Z.of_nat i); [done|by apply D5].
    + intros j q Q Hj. rewrite (unlinked_space d m sp i p (R1 ++ r :: R2)) by (done || lia). destruct (decide (j = i)) as [->|Hne].
      * rewrite list_lookup_insert_eq in Hj by done. injection Hj as <- <-. rewrite Z.eqb_refl. split; [done|]. split; [exact Hsll|].
        intros x Hx. assert (Hx' : x ∈ R1 ++ r :: R2) by (apply elem_of_app in Hx as [?|?]; eauto with inlist).
        apply (region_frame m); [by eapply Hreg|by apply Hr].
      * rewrite list_lookup_insert_ne in Hj by done. rewrite (proj2 (Z.eqb_neq _ _)) by lia. destruct (D6 _ _ _ Hj) as [Eq [Q1 Q2]].
        pose proof (list_elem_of_lookup_2 _ _ _ Hj) as HjQ. split; [done|]. split.
        -- apply (sll_frame VR_NEXT m); [|done]. intros a (x & -> & Hx)%list_elem_of_fmap. eapply agree_mono; [|exact Hag].
           intros y Hy a' Ha' -> Hw. destruct (Hprev ltac:(intros E; destruct (N2 _ Ha'); unfold NULL in *; lia)) as (q' & Hq' & Eq').
           assert (Hnx : vr_node x ∈ sp_nodes sp) by (apply sp_nodes_elem; by exists q, Q, x).
           destruct (decide (prev = vr_node x)) as [E|Hne']; [|destruct (N3 _ _ Ha' Hnx Hne'); dparith].
           exfalso. apply (nodes_two sp i j p q (R1 ++ r :: R2) Q q' x N1 Hi Hj); [congruence|apply elem_of_app; by left|done|congruence].
        -- intros x Hx. apply (region_frame m); [by eapply Hreg|by apply Q2].
    + rewrite list_fmap_insert. cbn. rewrite list_insert_id; [done|]. by rewrite list_lookup_fmap, Hi.
  - intros x Hx. apply (region_frame m); [by eapply Hreg|by apply Hr].
Qed.

Lemma set_space_twice i a b d : set_space i a (set_space i b d) = set_space i a d.
Proof using. unfold set_space. cbn. by rewrite list_insert_insert_eq. Qed.

Lemma remove_nodes i p R1 r R2 sp : sp !! i = Some (p, R1 ++ r :: R2) ->
  sp_nodes sp ≡ₚ vr_node r :: sp_nodes (<[i := (p, R1 ++ R2)]> sp).
Proof using.
  intros Hi. apply list_elem_of_split_length in Hi as (sp1 & sp2 & -> & ->). unfold sp_nodes. rewrite insert_app_r_alt, Nat.sub_diag by done.
  cbn. rewrite !bind_app. cbn. rewrite !fmap_app. cbn. solve_Permutation.
Qed.

(** The state once a region is unlinked, the lock of its address space being held. *)
Lemma unlink_back d i p prev next : length (address_spaces d) = 256%nat -> 0 <= i < 256 -> as_lock (space i d) = 0 -> as_pml4 (space i d) = p ->
  let l := set_space i (put_lock 1 (space i d)) d in let u := unlinked l i prev next in
  set_space i (put_lock 0 (space i u)) u = unlinked d i prev next.
Proof using.
  intros Hl Hi Hk Hp l u. unfold u, unlinked. assert (Hl1 : length (address_spaces l) = 256%nat) by (unfold l; cbn; by rewrite length_insert).
  destruct (prev =? NULL); [|unfold l; by apply relock].
  rewrite space_set, Z.eqb_refl by lia. rewrite set_space_twice. unfold l. rewrite space_set, Z.eqb_refl by lia. rewrite set_space_twice.
  unfold put_lock, put_regions. cbn. by rewrite Hk.
Qed.

(** The page table maps no page of the range, whatever the regions' nodes hold. *)
Definition untouched (s : kst) (sp : spaces) (pml4 b e : Z) : Prop :=
  forall m, agree (fun x => ~ region_bytes sp x) (k_mem s) m -> forall a, b <= a < e -> default 0 (translate m pml4 a) = 0.

Lemma unregister_runs s sp pml4 start : dp_inv s sp -> 0 <= start < 2 ^ 64 ->
  (forall r, r ∈ regions_of pml4 sp -> vr_start r = page_down start -> vr_end r + 4096 <= 2 ^ 64 /\ untouched s sp pml4 (vr_start r) (vr_end r)) ->
  wp (demand_paging_unregister_region pml4 start) (fun _ s' =>
    ((forall r, r ∈ regions_of pml4 sp -> vr_start r <> page_down start) /\ dp_inv s' (enter pml4 sp)) \/
    exists i R1 r R2, starts_at (page_down start) (regions_of pml4 sp) R1 r R2 /\ enter pml4 sp !! i = Some (pml4, regions_of pml4 sp) /\
      dp_inv s' (<[i := (pml4, R1 ++ R2)]> (enter pml4 sp))) s.
Proof.
  intros Hi Hs Hun. pose proof (inv_nodes s sp Hi) as Hn. pose proof Hi as [D1 D2 D3]. unfold demand_paging_unregister_region. cbv zeta.
  set (b := page_down start) in *. assert (Hb : 0 <= b < 2 ^ 64) by (by apply page_down_bound).
  apply wp_bind. eapply wp_mono; [by apply get_space_runs|]. intros r s1 (Es & Hd1 & Hvc & Hent).
  assert (Hi1 : dp_inv s1 (enter pml4 sp)) by (rewrite Es; eapply inv_set_dp; [exact Hi|exact Hd1|apply enter_nodes|by rewrite Hvc]).
  destruct r as [i|]; cycle 1.
  { destruct Hent as (_ & Hnil & _). apply wp_ret. left. rewrite Hnil. split; [by intros r ?%not_elem_of_nil|done]. }
  destruct Hent as [Hir Hent]. pose proof Hi1 as [I1 I2 (H & I3 & I4)]. pose proof I1 as [K1 K2 K3 K4 K5 K6 K7].
  destruct (K6 _ _ _ Hent) as [Ep HR]. rewrite Z2Nat.id in Ep, HR by lia.
  assert (Hn1 : nodes_ok (enter pml4 sp)) by (unfold nodes_ok; rewrite enter_nodes; exact Hn).
  apply wp_bind. unfold space_acquire, acquire_var. apply wp_bind, wp_gets. rewrite K5 by done. cbn [Z.eqb]. apply wp_modify.
  apply wp_bind, wp_gets. set (l := set_space i (put_lock 1 (space i (k_dp s1))) (k_dp s1)). change (upd_dp _ s1) with (set_dp l s1).
  assert (Ha : as_regions (space i (k_dp (set_dp l s1))) = as_regions (space i (k_dp s1))).
  { unfold l. cbn [k_dp set_dp]. by rewrite space_set, Z.eqb_refl by lia. }
  rewrite Ha. apply wp_bind. eapply wp_mono.
  { apply (start_round_exec b _ (regions_of pml4 sp) (set_dp l s1)); [exact HR|]. by eapply (regions_short pml4 _ _ (enter pml4 sp)). }
  intros [current prev] s2 (-> & [[Hnull Hno]|(R1 & r & R2 & Hst & [= -> ->])]); cbn [fst snd] in *.
  { subst current. cbn [Z.eqb NULL negb]. apply wp_modify. left. split; [done|]. unfold upd_dp, l. cbn [k_dp set_dp].
    rewrite relock by auto. by destruct s1. }
  pose proof Hst as (ER & Eb & Hb1). rewrite ER in Hent, HR.
  assert (Hin : r ∈ R1 ++ r :: R2) by (apply elem_of_app; right; left).
  destruct (nodes_list _ _ _ Hn1 (list_elem_of_lookup_2 _ _ _ Hent)) as [_ Hpos]. destruct (Hpos r Hin) as [Hr1 Hr2].
  rewrite (proj2 (Z.eqb_neq (vr_node r) NULL)) by (unfold NULL; lia). cbn [negb]. apply wp_bind, wp_gets. cbn [k_mem set_dp].
  set (prev := default NULL _). set (next := load 8 (k_mem s1) _).
  destruct (unlink_region (k_dp s1) (k_mem s1) _ _ _ R1 r R2 I1 Hn1 Hent) as (Hd3 & Hag3 & Hok3). rewrite Z2Nat.id in Hd3 by lia.
  fold prev next in Hd3, Hag3, Hok3. set (m3 := unlinked_mem (k_mem s1) prev next) in *. set (u := unlinked l i prev next).
  assert (Hstep : wp (if negb (prev =? NULL) then store64 (prev + VR_NEXT) next else upd_space i (put_regions next))
    (fun _ s' => s' = set_dp u (set_mem m3 s1)) (set_dp l s1)).
  { unfold u, m3, unlinked, unlinked_mem. destruct (prev =? NULL); cbn [negb]; apply wp_modify; [|done]. by destruct s1. }
  apply wp_bind. eapply wp_mono; [exact Hstep|]. intros [] s3 ->.
  assert (Hm3 : agree (fun x => ~ region_bytes sp x) (k_mem s) m3).
  { assert (Em1 : k_mem s1 = k_mem s) by (by rewrite Es). rewrite <- Em1. unfold region_bytes in *. rewrite enter_nodes in Hag3. exact Hag3. }
  destruct (Hun r ltac:(by rewrite ER) Eb) as [Hend Hunm].
  apply wp_bind. eapply wp_mono; [apply (free_pages_exec pml4 (set_dp u (set_mem m3 s1)) r); [by apply Hok3|lia|lia|by apply Hunm]|]. intros [] s4 ->.
  apply wp_bind, wp_gets. assert (Ec : vm_region_cache (k_dp (set_dp u (set_mem m3 s1))) = c).
  { cbn [k_dp set_dp]. unfold u, unlinked. by destruct (prev =? NULL). }
  rewrite Ec. assert (Hw : os_inv (set_dp u (set_mem m3 s1)) H).
  { apply os_statics, os_write; [done|]. eapply agree_mono; [|exact Hag3]. intros x Hx (a & Ha' & Hw). apply Hx. exists a. rewrite I4. split; [done|dparith]. }
  assert (HinH : vr_node r ∈ H) by (rewrite I4; apply sp_nodes_elem; exists pml4, (R1 ++ r :: R2), r; split; [by eapply list_elem_of_lookup_2|done]).
  apply list_elem_of_split in HinH as (H1 & H2 & ->). destruct (os_free _ H1 (vr_node r) H2 Hw) as (s5 & Hrun & Hst5 & Hag5 & Hi5).
  apply wp_bind. eapply wp_of_Done; [exact Hrun|]. pose proof Hst5 as (_ & _ & _ & Edp & _). cbn [k_dp set_dp] in Edp. apply wp_modify. right.
  assert (Hperm : H1 ++ H2 ≡ₚ sp_nodes (<[Z.to_nat i := (pml4, R1 ++ R2)]> (enter pml4 sp))).
  { apply (Permutation_cons_inv (a := vr_node r)). rewrite <- (remove_nodes _ _ _ _ _ _ Hent), <- I4. by rewrite Permutation_middle. }
  exists (Z.to_nat i), R1, r, R2. split; [done|]. rewrite ER. split; [done|].
  assert (Hfin : set_space i (put_lock 0 (space i (k_dp s5))) (k_dp s5) = unlinked (k_dp s1) i prev next).
  { rewrite Edp. apply (unlink_back (k_dp s1) i pml4); auto. }
  split; unfold upd_dp; cbn [k_dp k_mem set_dp]; rewrite ?Hfin.
  - apply (dp_frame _ m3); [|exact Hd3]. eapply agree_mono; [|exact Hag5]. intros x (a & Ha' & Hx). exists a. rewrite Hperm. split; [done|dparith].
  - unfold unlinked. by destruct (prev =? NULL).
  - exists (H1 ++ H2). split; [by apply os_statics|done].
Qed.

(** Unregistering a range whose pages were never touched takes the first region that starts at
    that page out of its page table's list and gives its object back to the region
    cache; the other regions stay.  When no region starts there nothing changes. *)
Theorem demand_unregister_correct s sp pml4 start : dp_inv s sp -> 0 <= start < 2 ^ 64 ->
  (forall r, r ∈ regions_of pml4 sp -> vr_start r = page_down start -> vr_end r + 4096 <= 2 ^ 64 /\ untouched s sp pml4 (vr_start r) (vr_end r)) ->
  exists s', demand_paging_unregister_region pml4 start s = Done tt s' /\
    (((forall r, r ∈ regions_of pml4 sp -> vr_start r <> page_down start) /\ dp_inv s' (enter pml4 sp)) \/
     exists i R1 r R2, starts_at (page_down start) (regions_of pml4 sp) R1 r R2 /\ enter pml4 sp !! i = Some (pml4, regions_of pml4 sp) /\
       dp_inv s' (<[i := (pml4, R1 ++ R2)]> (enter pml4 sp))).
Proof. intros Hi Hs Hu. destruct (wp_Done _ _ _ (unregister_runs s sp pml4 start Hi Hs Hu)) as ([] & s' & Hrun & H). by exists s'. Qed.
End register.
