(* ===== verification/DemandDemo.v ===== *)
(** Demand paging at work, and what stands in its way on this kernel: the zones it
    allocates from are empty, and its cache's objects fill a slab exactly. *)
From S2P Require Import Prelude Machine Buddy BuddyInv BuddyTrace BuddyProps PageAlloc Pmm Zoned Vmm KString SList Slab SlabInv SlabThms SlabProps SlabFree SlabCache SlabDemo Cow ObjectSource DemandPaging DemandThms DemandProps.

#[local] Opaque load store.

(** ** No page, no region *)

Lemma movable_empty s A : pmm_inv s A -> buddy_alloc_pages 0 BUDDY_ZONE_MOVABLE s = Done 0 s.
Proof.
  intros [(st & size & fl & Hreg & Hh) _]. apply (BuddyThms.alloc_fails s (bytes_to_pages size) fl); [apply Hh|done|lia|].
  apply BuddySpec.alloc_spec_None; [lia|]. intros j _. by apply (hi_zone _ _ _ _ _ _ Hh).
Qed.

Lemma pmm_serves : serves (@pa_inv _ _ _ pmm_allocator) 0 (buddy_alloc_pages 0 BUDDY_ZONE_MOVABLE).
Proof. intros s A Hi. exists 0, s. split; [by eapply movable_empty|]. split; [done|by left]. Qed.

(** On this kernel a fault never brings a page in: the MOVABLE zone is empty, so the answer
    is 0 only for a page that is mapped already. *)
Theorem demand_fault_never_pages s A N sp pml4 virt : vm_inv s A N -> (4, pml4) ∈ N -> dp_ok (k_dp s) (k_mem s) sp -> nodes_ok sp ->
  (forall x, region_bytes sp x -> client A N x) ->
  exists r s', demand_paging_handle_fault pml4 virt s = Done r s' /\
    (r = 0 -> translate (k_mem s) pml4 (page_down virt) <> None) /\ (r <> 0 -> r = -1).
Proof.
  intros Hv Hin Hd Hn Hcl. destruct (wp_Done _ _ _ (fault_runs pmm_serves s A N sp pml4 virt Hv Hin Hd Hn Hcl)) as (r & s' & Hrun & _ & _ & Hf).
  exists r, s'. split; [done|]. destruct (region_at _ _) as [reg|] eqn:Er; [|by destruct Hf as [-> _]].
  destruct (_ =? 0); [by destruct Hf as [-> _]|]. destruct (translate (k_mem s) pml4 (page_down virt)) as [p|] eqn:Et.
  - split; [done|]. destruct (negb _); [by destruct Hf as [-> _]|]. destruct Hf as (_ & [[-> _]|[-> _]]); done.
  - cbn [default Z.eqb negb] in Hf. destruct Hf as (_ & [[-> _]|(-> & phys & A' & N' & (s2 & Hal) & Hp & _)]); [done|].
    rewrite (movable_empty _ A) in Hal; [by injection Hal as <-|].
    apply region_at_Some in Er as [Hreg _]. destruct (region_there _ _ _ _ _ Hd Hreg) as [_ Hnode].
    refine (vi_alloc _ _ _ (proj1 (vm_client_write (set_dp (k_dp s') s) _ A N (vm_statics s _ A N Hv) _))). apply agree_store.
    intros x Hx Hw. apply Hx, Hcl. exists (vr_node reg). split; [done|dparith].
Qed.

(** A slab whose objects fill the page exactly has no room for a colour: [slab_create] then
    divides by zero.  127 regions of 32 bytes are 4064 bytes. *)
Theorem slab_create_divides c r s s1 : buddy_alloc_pages 0 BUDDY_ZONE_RECLAIMABLE s = Done r s1 -> 0 < r -> r + 4096 <= c \/ c + 4096 <= r ->
  load 4 (k_mem s1) (c + C_OBJECTS_PER_SLAB) * load 8 (k_mem s1) (c + C_OBJECT_SIZE) = 4064 ->
  slab_create c s = Fault DivideError.
Proof.
  intros Hrun Hr Hd Hz. unfold slab_create, mbind, M_bind. rewrite Hrun. rewrite (proj2 (Z.eqb_neq r 0)) by lia.
  unfold slab_format, mbind, M_bind, load32, load64, store32, store64, gets, modify. cbn [k_mem set_mem]. soff.
  rewrite !load_store_ne by lia. rewrite Hz. done.
Qed.

(** The cache of regions at boot: registration fails, for want of a page for a slab. *)
Theorem demand_register_fails_at_boot : exists s1 s2, demand_paging_init 0x1000 demo_state = Done tt s1 /\ vm_region_cache (k_dp s1) <> NULL /\
  demand_paging_register_region 0x10A000 0x400000 4096 3 s1 = Done (-1) s2.
Proof.
  exists (final (demand_paging_init 0x1000 demo_state) boot_state),
    (final (demand_paging_register_region 0x10A000 0x400000 4096 3 (final (demand_paging_init 0x1000 demo_state) boot_state)) boot_state).
  split; [apply run_final; vm_compute; reflexivity|]. split; [vm_compute; discriminate|]. apply run_final. vm_compute. reflexivity.
Qed.

(** ** A region of an address space *)

Definition demo_spaces (p h : Z) : list vm_address_space := mkAS p h 0 :: replicate 255 (mkAS 0 0 0).
Definition demo_vr : vregion := mkVR demo_frame 0x400000 0x402000 3.
(** A state with the region's record written into the frame, and the region registered. *)
Definition region_mem (m : mem) : mem :=
  store 8 (store 4 (store 8 (store 8 m (demo_frame + VR_START) 0x400000) (demo_frame + VR_END) 0x402000) (demo_frame + VR_FLAGS) 3)
    (demo_frame + VR_NEXT) NULL.
Definition with_region (s : kst) : kst := set_dp (mkDp (demo_spaces demo_root demo_frame) 1 0 NULL) (set_mem (region_mem (k_mem s)) s).

(** The machine as it is at boot, and one with a page in the MOVABLE zone. *)
Definition fault_state : kst := with_region demo_owned.
Definition demo_spare : Z := 0x109000.
Definition demo_zoned : kst := give_page BUDDY_ZONE_MOVABLE demo_spare (final (pmm_alloc_frame demo_owned) boot_state).
Definition ready_state : kst := with_region demo_zoned.

Lemma space_demo i p h n g c : 0 < i < 256 -> space i (mkDp (demo_spaces p h) n g c) = mkAS 0 0 0.
Proof.
  intros Hi. unfold space, demo_spaces. cbn [address_spaces]. replace (Z.to_nat i) with (S (Z.to_nat (i - 1))) by lia. cbn [nth].
  rewrite nth_lookup, lookup_replicate_2 by lia. done.
Qed.

Lemma one_space p h R m c : regions_ok m h R -> dp_ok (mkDp (demo_spaces p h) 1 0 c) m [(p, R)].
Proof.
  intros HR. split; [done|done|cbn; lia|done| | |apply NoDup_singleton].
  - intros i Hi. destruct (decide (i = 0)) as [->|]; [done|]. by rewrite space_demo by lia.
  - intros [|i] q Q; cbn; [|done]. by intros [= <- <-].
Qed.

Lemma no_space_ok m c : dp_ok (mkDp (demo_spaces 0 0) 0 0 c) m [].
Proof.
  split; [done|done|cbn; lia|done| |done|by apply NoDup_nil_2].
  intros i Hi. destruct (decide (i = 0)) as [->|]; [done|]. by rewrite space_demo by lia.
Qed.

Lemma fault_bytes x : region_bytes [(demo_root, [demo_vr])] x -> client [(demo_frame, 0); (demo_root, 0)] [(4, demo_root)] x.
Proof.
  intros (a & Ha & Hx). apply sp_nodes_elem in Ha as (p & R & r & [= -> ->]%list_elem_of_singleton & ->%list_elem_of_singleton & ->).
  change (vr_node demo_vr) with demo_frame in Hx. split; [exists demo_frame, 0; split; [left|rewrite sz_0; unfold within in *; lia]|].
  intros (l & t & [= -> ->]%list_elem_of_singleton & Hw). unfold demo_frame, demo_root, within in *. lia.
Qed.

Lemma region_record m : load 8 m (demo_frame + VR_START) = 0x400000 -> load 8 m (demo_frame + VR_END) = 0x402000 ->
  load 4 m (demo_frame + VR_FLAGS) = 3 -> load 4 m (demo_frame + VR_LOCK) = 0 -> load 8 m (demo_frame + VR_NEXT) = NULL ->
  regions_ok m demo_frame [demo_vr].
Proof.
  intros V1 V2 V3 V4 V5. split.
  - split; [reflexivity|]. split; [unfold demo_vr, demo_frame, NULL; cbn; lia|exact V5].
  - intros r ->%list_elem_of_singleton. split; [exact V1|]. split; [exact V2|]. split; [exact V3|exact V4].
Qed.

Lemma region_written m : agree (fun x => ~ client [(demo_frame, 0); (demo_root, 0)] [(4, demo_root)] x) m (region_mem m).
Proof.
  intros x Hx. unfold region_mem. rewrite !mget_store_out; [done|..]; intros Hw; apply Hx, fault_bytes; exists demo_frame; (split; [vm_compute; left|dparith]).
Qed.

Lemma fault_regions : regions_ok (k_mem fault_state) demo_frame [demo_vr].
Proof. apply region_record; vm_compute; reflexivity. Qed.

Lemma ready_regions : regions_ok (k_mem ready_state) demo_frame [demo_vr].
Proof. apply region_record; vm_compute; reflexivity. Qed.

Lemma fault_vm : vm_inv fault_state [(demo_frame, 0); (demo_root, 0)] [(4, demo_root)].
Proof. apply vm_statics. exact (proj1 (vm_client_write demo_owned _ _ _ demo_owned_inv (region_written _))). Qed.

Lemma zoned_inv : @vm_inv zoned_pmm demo_zoned [(demo_frame, 0); (demo_root, 0)] [(4, demo_root)].
Proof.
  destruct demo_owned_inv as [Ha Ht Ho]. apply pmm_zoned in Ha.
  assert (Hrun : pmm_alloc_frame demo_owned = Done demo_spare (final (pmm_alloc_frame demo_owned) boot_state)) by (apply run_final; vm_compute; reflexivity).
  set (s1 := final _ _) in Hrun.
  destruct (zp_alloc demo_owned _ Ha) as (r & s' & Hrun' & _ & Hc). rewrite Hrun in Hrun'. apply Done_inj in Hrun' as [<- <-].
  destruct Hc as [[H _]|(_ & [Ha1 Hp1] & _ & Hag1)]; [discriminate H|].
  destruct (give_page_zoned BUDDY_ZONE_MOVABLE s1 [] demo_spare _ ltac:(vm_compute; split; [discriminate|reflexivity]) Ha1) as (Ha2 & Hp2 & _ & Hag2).
  change (give_page BUDDY_ZONE_MOVABLE demo_spare s1) with demo_zoned in Ha2, Hp2, Hag2.
  refine (proj1 (@vm_move zoned_pmm demo_owned demo_zoned _ _ _ _ _ (reflexivity _) _)).
  - by split.
  - split; [exact Ha2|]. rewrite Hp2. exact Hp1.
  - assert (Hag : agree (in_block [(demo_frame, 0); (demo_root, 0)]) (k_mem demo_owned) (k_mem demo_zoned)) by (etrans; [exact Hag1|exact Hag2]).
    eapply agree_mono; [|exact Hag]. intros x (l & t & Hin & Hw). exists t, 0. split; [by apply (Ho l)|done].
Qed.

Lemma ready_vm : @vm_inv zoned_pmm ready_state [(demo_frame, 0); (demo_root, 0)] [(4, demo_root)].
Proof. apply (@vm_statics zoned_pmm). exact (proj1 (@vm_client_write zoned_pmm demo_zoned _ _ _ zoned_inv (region_written _))). Qed.

Lemma fault_nodes : nodes_ok [(demo_root, [demo_vr])].
Proof.
  change (nodes_ok [(demo_root, [demo_vr])]) with (NoDup [demo_frame] /\ (forall a, a ∈ [demo_frame] -> 0 < a /\ a + 32 <= PHYS_LIMIT) /\
    (forall a b, a ∈ [demo_frame] -> b ∈ [demo_frame] -> a <> b -> a + 32 <= b \/ b + 32 <= a)).
  split; [apply NoDup_singleton|]. split; [intros a ->%list_elem_of_singleton; unfold demo_frame, PHYS_LIMIT; lia|].
  intros a b ->%list_elem_of_singleton ->%list_elem_of_singleton. done.
Qed.

(** The fault at 0x401234 brings the page of the MOVABLE zone in, zeroed, at 0x401000. *)
Definition paged_state : kst := final (demand_paging_handle_fault demo_root 0x401234 ready_state) boot_state.

Lemma fault_pages_in : demand_paging_handle_fault demo_root 0x401234 ready_state = Done 0 paged_state.
Proof. apply run_final. vm_compute. reflexivity. Qed.

Lemma demand_fault_correct_witness : demand_paging_handle_fault demo_root 0x401234 ready_state = Done 0 paged_state /\
  exists phys, phys <> 0 /\ (forall x, within phys 4096 x -> mget (k_mem paged_state) x = 0) /\
    translate (k_mem paged_state) demo_root 0x401234 = Some (Z.lor phys 0x234).
Proof.
  split; [exact fault_pages_in|].
  destruct (@demand_fault_correct zoned_pmm (zp_serves BUDDY_ZONE_MOVABLE ltac:(vm_compute; discriminate)) ready_state [(demo_frame, 0); (demo_root, 0)] [(4, demo_root)]
    [(demo_root, [demo_vr])] demo_root 0x401234 ready_vm) as (r & s' & Hrun & _ & _ & Hf);
    [left|exact (one_space _ _ _ _ _ ready_regions)|exact fault_nodes|exact fault_bytes|lia|].
  rewrite fault_pages_in in Hrun. apply Done_inj in Hrun as [<- <-].
  assert (Er : region_at (0x401234 - 0x401234 mod 4096) (regions_of demo_root [(demo_root, [demo_vr])]) = Some demo_vr) by (vm_compute; reflexivity).
  assert (Et : default 0 (translate (k_mem ready_state) demo_root (0x401234 - 0x401234 mod 4096)) = 0) by (vm_compute; reflexivity).
  rewrite Er, Et in Hf. cbn [Z.land vr_flags demo_vr Z.eqb negb] in Hf.
  destruct Hf as (_ & [[E _]|(_ & phys & A' & N' & _ & Hp & _ & _ & _ & _ & _ & Hzero & Hmap)]); [discriminate E|].
  exists phys. split; [exact Hp|]. split; [by apply Hzero|].
  destruct Hmap as [Hmap|[_ Hno]].
  - rewrite (Hmap demo_root 0x401234) by left. rewrite bool_decide_eq_true_2; [reflexivity|]. split; [reflexivity|]. vm_compute. reflexivity.
  - exfalso. specialize (Hno demo_root 0x401234 ltac:(left)).
    assert (E1 : translate (k_mem paged_state) demo_root 0x401234 <> None) by (vm_compute; discriminate).
    apply E1. rewrite Hno. vm_compute. reflexivity.
Defined.

Lemma demand_fault_never_pages_witness : exists r s', demand_paging_handle_fault demo_root 0x401234 fault_state = Done r s' /\ (r <> 0 -> r = -1).
Proof.
  destruct (demand_fault_never_pages fault_state [(demo_frame, 0); (demo_root, 0)] [(4, demo_root)] [(demo_root, [demo_vr])] demo_root 0x401234 fault_vm) as (r & s' & Hrun & _ & Hr);
    [left|exact (one_space _ _ _ _ _ fault_regions)|exact fault_nodes|exact fault_bytes|]. exists r, s'. split; [exact Hrun|exact Hr].
Defined.

(** ** Registration and removal over a cache of 64-byte objects *)

Definition reg_state : kst := set_dp (mkDp (demo_spaces 0 0) 0 0 demo_c) demo_linked.
Definition reg_done : kst := final (demand_paging_register_region 0x200000 0x400000 5000 3 reg_state) boot_state.
#[local] Existing Instance demo_source.
#[local] Instance reg_source : ObjectSource 64 (slab_alloc demo_c) (slab_free demo_c) := slab_source 64 (4064 / 64) demo_sizes demo_serves demo_c.

Lemma reg_linked : exists A L, @os_inv _ _ _ reg_source demo_linked [] /\ slab_inv 64 (4064 / 64) 0 demo_linked A demo_c 0 L [] [].
Proof. destruct demo_linked_inv as (A & L & Hi & _). exists A, L. split; [|exact Hi]. exact (ex_intro _ A (ex_intro _ 0 (ex_intro _ L (ex_intro _ [] Hi)))). Qed.

Lemma reg_inv : dp_inv demo_c 64 reg_state [].
Proof.
  destruct reg_linked as (A & L & Hi & _). split; [exact (no_space_ok _ _)|reflexivity|].
  exists []. split; [|reflexivity]. exact (os_statics demo_linked _ [] Hi).
Qed.

Lemma reg_runs : demand_paging_register_region 0x200000 0x400000 5000 3 reg_state = Done 0 reg_done.
Proof. apply run_final. vm_compute. reflexivity. Qed.

Lemma demand_register_correct_witness : exists s' sp', demand_paging_register_region 0x200000 0x400000 5000 3 reg_state = Done 0 s' /\
  dp_inv demo_c 64 s' sp' /\ exists reg, regions_of 0x200000 sp' = [reg] /\ vr_start reg <= 0x400000 /\ 0x400000 + 5000 <= vr_end reg.
Proof.
  destruct (demand_register_correct demo_c 64 ltac:(discriminate) 0x200000 0x400000 5000 3) as [_ H].
  destruct (H reg_state [] reg_inv ltac:(discriminate) ltac:(lia) ltac:(lia) ltac:(lia)) as (r & s' & Hrun & _ & Hr).
  assert (E : r = 0) by exact (eq_sym (proj1 (Done_inj _ _ _ _ (eq_trans (eq_sym reg_runs) Hrun)))).
  assert (Hlast : 0x400000 + 5000 + 4095 < 2 ^ 64) by (vm_compute; reflexivity).
  assert (Hok : ranges_ok (regions_of 0x200000 [])) by (split; [intros x []%not_elem_of_nil|constructor]).
  destruct (Hr Hlast Hok E) as (sp' & Hi & _ & Hreg).
  exists s', sp'. split; [|split; [exact Hi|exact Hreg]]. rewrite Hrun, E. reflexivity.
Defined.

(** The region that was registered, and nothing mapped in its page table. *)
Definition reg_vr : vregion := mkVR demo_obj 0x400000 0x402000 3.

Lemma reg_done_inv : dp_inv demo_c 64 reg_done [(0x200000, [reg_vr])].
Proof.
  assert (H : registered demo_c 64 reg_state [] 0x200000 0x400000 0x402000 3 0 reg_done).
  { destruct (wp_Done _ _ _ (register_runs demo_c 64 ltac:(discriminate) reg_state [] 0x200000 0x400000 5000 3 reg_inv ltac:(discriminate) ltac:(lia) ltac:(lia) ltac:(lia))) as (r & s' & Hrun & Hr).
    assert (Hb : page_down 0x400000 = 0x400000) by (vm_compute; reflexivity).
    assert (He : page_down (u64 (0x400000 + 5000 + BUDDY_PAGE_SIZE - 1)) = 0x402000) by (vm_compute; reflexivity).
    rewrite Hb, He in Hr. destruct (Done_inj _ _ _ _ (eq_trans (eq_sym reg_runs) Hrun)) as [Er Es]. rewrite <- Er, <- Es in Hr. exact Hr. }
  destruct H as [(E & _)|(_ & _ & i & o & Hi & _ & Hd)]; [discriminate E|].
  assert (E0 : enter 0x200000 [] = [(0x200000, [])]) by (vm_compute; reflexivity). rewrite E0 in Hi, Hd.
  assert (i = 0%nat) as ->; [|cbn in Hd].
  { apply lookup_lt_Some in Hi. cbn in Hi. lia. }
  destruct (dk_spaces _ _ _ (di_ok _ _ _ _ Hd) 0%nat _ _ eq_refl) as [_ [[Ho _] _]].
  assert (Ev : as_regions (space (Z.of_nat 0) (k_dp reg_done)) = demo_obj) by (vm_compute; reflexivity).
  rewrite Ev in Ho. cbn [vr_node] in Ho. rewrite <- Ho in Hd. exact Hd.
Qed.

Lemma reg_untouched : untouched reg_done [(0x200000, [reg_vr])] 0x200000 0x400000 0x402000.
Proof.
  intros m Hag a Ha. unfold translate, pt_of.
  assert (E : ADDR_PML4_INDEX a = 0).
  { unfold ADDR_PML4_INDEX. rewrite Z.shiftr_div_pow2 by lia. by rewrite Z.div_small by lia. }
  assert (Hl : load 8 m 0x200000 = 0).
  { rewrite (load_agree 8 (k_mem reg_done)); [vm_compute; reflexivity|]. eapply agree_mono; [|exact Hag].
    intros x Hx (n & (p & R & r & [= -> ->]%list_elem_of_singleton & ->%list_elem_of_singleton & ->)%sp_nodes_elem & Hw).
    unfold reg_vr, demo_obj, within in *. cbn [vr_node] in Hw. lia. }
  assert (Hd : descend m 0x200000 (ADDR_PML4_INDEX a) = None); [|rewrite Hd; reflexivity].
  unfold descend, entry. rewrite E. change (0x200000 + 8 * 0) with 0x200000. rewrite Hl. reflexivity.
Qed.

Lemma demand_unregister_correct_witness : exists s', demand_paging_unregister_region 0x200000 0x400000 reg_done = Done tt s' /\
  dp_inv demo_c 64 s' [(0x200000, [])].
Proof.
  assert (Hb : page_down 0x400000 = 0x400000) by (vm_compute; reflexivity).
  assert (He : enter 0x200000 [(0x200000, [reg_vr])] = [(0x200000, [reg_vr])]) by (vm_compute; reflexivity).
  destruct (demand_unregister_correct demo_c 64 ltac:(discriminate) reg_done [(0x200000, [reg_vr])] 0x200000 0x400000 reg_done_inv ltac:(lia)) as (s' & Hrun & H).
  { intros r ->%list_elem_of_singleton _. split; [cbn [vr_end reg_vr]; lia|exact reg_untouched]. }
  exists s'. split; [exact Hrun|]. rewrite He, Hb in H. destruct H as [[Hno _]|(i & R1 & r & R2 & (Hs & _) & Hi & Hd)].
  - exfalso. apply (Hno reg_vr); [left|reflexivity].
  - change (regions_of 0x200000 [(0x200000, [reg_vr])]) with [reg_vr] in Hs. destruct R1 as [|q R1]; [|destruct R1; discriminate Hs].
    destruct R2; [|discriminate Hs]. destruct i; [exact Hd|discriminate Hi].
Defined.
