(* ===== verification/Stdio.v ===== *)
(** kernel/lib/stdio.c: the conversion of numbers to text and the formatting loop behind
    [kprintf] and [ksprintf].  The format, the strings and the output buffer lie in the
    byte memory; the local arrays [tmp] and [buf] are lists whose elements are
    [None] until they are assigned, and a variadic argument is a 64-bit value. *)
From Stdlib Require Import String Ascii.
From S2P Require Import Prelude Machine KString.

#[local] Opaque load store.

(** Characters and string literals. *)
Definition chr (c : ascii) : Z := Z.of_N (N_of_ascii c).
Definition chars (s : string) : list Z := chr <$> list_ascii_of_string s.

(** ** Local arrays *)

Definition uninit (n : nat) : list (option Z) := replicate n None.
Definition aget (a : list (option Z)) (i : Z) : K Z :=
  if (0 <=? i) && (i <? Z.of_nat (length a)) then
    match nth (Z.to_nat i) a None with Some v => mret v | None => stop Undefined end
  else stop Undefined.
Definition aput (a : list (option Z)) (i v : Z) : K (list (option Z)) :=
  if (0 <=? i) && (i <? Z.of_nat (length a)) then mret (<[Z.to_nat i := Some v]> a) else stop Undefined.

(** ** Numbers *)

(** [while (i) { buf[n++] = tmp[--i]; }] *)
Definition reverse_step (tmp : list (option Z)) : list (option Z) * Z * Z -> K (list (option Z) * Z * Z + list (option Z) * Z) :=
  fun '(buf, n, i) =>
    if i =? 0 then mret (inr (buf, n)) else
    let i := i - 1 in
    c ← aget tmp i;
    buf ← aput buf n c;
    mret (inl (buf, n + 1, i)).

(** [while (v) { tmp[i++] = d[v & 0xF]; v >>= 4; }] *)
Definition hex_step (d : list (option Z)) : list (option Z) * Z * Z -> K (list (option Z) * Z * Z + list (option Z) * Z) :=
  fun '(tmp, i, v) =>
    if v =? 0 then mret (inr (tmp, i)) else
    c ← aget d (Z.land v 0xF);
    tmp ← aput tmp i c;
    mret (inl (tmp, i + 1, Z.shiftr v 4)).

(** The buffer with the digits and their number. *)
Definition itoa_hex (buf : list (option Z)) (v upper : Z) : K (list (option Z) * Z) :=
  let d := Some <$> chars (if negb (upper =? 0) then "0123456789ABCDEF" else "0123456789abcdef") in
  if v =? 0 then
    buf ← aput buf 0 (chr "0");
    buf ← aput buf 1 0;
    mret (buf, 1)
  else
  r ← while (uninit 32, 0, v) (hex_step d);
  r' ← while (buf, 0, r.2) (reverse_step r.1);
  buf ← aput r'.1 r'.2 0;
  mret (buf, r'.2).

(** [while (x) { tmp[i++] = (char)('0' + (x % 10)); x /= 10; }] *)
Definition dec_step : list (option Z) * Z * Z -> K (list (option Z) * Z * Z + list (option Z) * Z) :=
  fun '(tmp, i, x) =>
    if x =? 0 then mret (inr (tmp, i)) else
    tmp ← aput tmp i (u8 (chr "0" + x mod 10));
    mret (inl (tmp, i + 1, x / 10)).

(** [v] is signed. *)
Definition itoa_dec (buf : list (option Z)) (v uns : Z) : K (list (option Z) * Z) :=
  let neg := (uns =? 0) && (v <? 0) in
  let x := if neg then u64 (- v) else u64 v in
  if x =? 0 then
    buf ← aput buf 0 (chr "0");
    buf ← aput buf 1 0;
    mret (buf, 1)
  else
  r ← while (uninit 32, 0, x) dec_step;
  b ← (if neg then buf ← aput buf 0 (chr "-"); mret (buf, 1) else mret (buf, 0));
  r' ← while (b.1, b.2, r.2) (reverse_step r.1);
  buf ← aput r'.1 r'.2 0;
  mret (buf, r'.2).

(** ** Formatting *)

(** [if (out && pos + 1 < out_sz) out[pos] = c; pos++;] *)
Definition emit (out out_sz pos : Z) (c : K Z) : K Z :=
  when (negb (out =? NULL) && (u64 (pos + 1) <? out_sz)) (v ← c; store8 (out + pos) v) ;;
  mret (u64 (pos + 1)).

(** [for (int j = 0; j < n; j++)] *)
Definition emit_buf (out out_sz : Z) (buf : list (option Z)) (n pos : Z) : K Z :=
  while (0, pos) (fun '(j, pos) =>
    if j <? n then
      pos ← emit out out_sz pos (aget buf j);
      mret (inl (j + 1, pos))
    else mret (inr pos)).

(** [for (size_t j = 0; s[j]; j++)], over a string in memory or over a literal. *)
Definition emit_str (out out_sz s pos : Z) : K Z :=
  while (0, pos) (fun '(j, pos) =>
    c ← load8 (s + j);
    if c =? 0 then mret (inr pos) else
    pos ← emit out out_sz pos (load8 (s + j));
    mret (inl (u64 (j + 1), pos))).
Definition emit_literal (out out_sz : Z) (s : string) (pos : Z) : K Z :=
  emit_buf out out_sz (Some <$> chars s) (Z.of_nat (String.length s)) pos.

(** [va_arg] *)
Definition va_arg (ap : list Z) : K (Z * list Z) :=
  match ap with v :: ap => mret (u64 v, ap) | [] => stop Undefined end.

(** The conversion that the character after the percent sign names. *)
Definition convert (out out_sz c pos : Z) (ap : list Z) : K (Z * list Z) :=
  if c =? chr "%" then pos ← emit out out_sz pos (mret (chr "%")); mret (pos, ap) else
  if c =? chr "s" then
    a ← va_arg ap;
    pos ← (if a.1 =? NULL then emit_literal out out_sz "(null)" pos else emit_str out out_sz a.1 pos);
    mret (pos, a.2)
  else if c =? chr "c" then
    a ← va_arg ap;
    pos ← emit out out_sz pos (mret (u8 a.1));
    mret (pos, a.2)
  else if c =? chr "d" then
    a ← va_arg ap;
    b ← itoa_dec (uninit 64) (signed 32 a.1) 0;
    pos ← emit_buf out out_sz b.1 b.2 pos;
    mret (pos, a.2)
  else if c =? chr "u" then
    a ← va_arg ap;
    b ← itoa_dec (uninit 64) (u32 a.1) 1;
    pos ← emit_buf out out_sz b.1 b.2 pos;
    mret (pos, a.2)
  else if (c =? chr "x") || (c =? chr "X") then
    a ← va_arg ap;
    b ← itoa_hex (uninit 64) a.1 (if c =? chr "X" then 1 else 0);
    pos ← emit_buf out out_sz b.1 b.2 pos;
    mret (pos, a.2)
  else if c =? chr "p" then
    pos ← emit out out_sz pos (mret (chr "0"));
    pos ← emit out out_sz pos (mret (chr "x"));
    a ← va_arg ap;
    b ← itoa_hex (uninit 64) a.1 0;
    pos ← emit_buf out out_sz b.1 b.2 pos;
    mret (pos, a.2)
  else mret (pos, ap).

(** One round of [for (size_t i = 0; fmt[i]; i++)]. *)
Definition format_step (out out_sz fmt : Z) : Z * Z * list Z -> K (Z * Z * list Z + Z) := fun '(i, pos, ap) =>
  c ← load8 (fmt + i);
  if c =? 0 then mret (inr pos) else
  if negb (c =? chr "%") then
    pos ← emit out out_sz pos (load8 (fmt + i));
    mret (inl (u64 (i + 1), pos, ap))
  else
    let i := u64 (i + 1) in
    c ← load8 (fmt + i);
    r ← convert out out_sz c pos ap;
    mret (inl (u64 (i + 1), r.1, r.2)).

Definition kvsnprintf (out out_sz fmt : Z) (ap : list Z) : K Z :=
  pos ← while (0, 0, ap) (format_step out out_sz fmt);
  when (negb (out =? NULL) && negb (out_sz =? 0))
    (store8 (out + (if pos <? out_sz - 1 then pos else out_sz - 1)) 0) ;;
  mret (signed 32 pos).

(** [(size_t)-1] bounds the output. *)
Definition ksprintf (buffer format : Z) (ap : list Z) : K Z := kvsnprintf buffer (2 ^ 64 - 1) format ap.
