(* ===== verification/StdioProps.v ===== *)
(** The text that kernel/lib/stdio.c produces: numbers that read back, and a formatting loop
    that writes exactly the text of the format, cut to the size of the buffer. *)
From Stdlib Require Import String Ascii.
From S2P Require Import Prelude Machine KString Stdio.

#[local] Opaque load store.

(** ** The text of a number *)

(** The digits of [v] in base [b], the lowest first; [n] is more than their number. *)
Fixpoint low_digits (n : nat) (b v : Z) : list Z :=
  match n with
  | O => []
  | S n => if v =? 0 then [] else v mod b :: low_digits n b (v / b)
  end.

Definition alphabet (upper : Z) : list Z := chars (if negb (upper =? 0) then "0123456789ABCDEF" else "0123456789abcdef").
Definition hex_char (upper d : Z) : Z := nth (Z.to_nat d) (alphabet upper) 0.
Definition dec_char (d : Z) : Z := chr "0" + d.

Definition text (b : Z) (char : Z -> Z) (v : Z) : list Z :=
  if v =? 0 then [chr "0"] else rev (char <$> low_digits 20 b v).
Definition hex_text (v upper : Z) : list Z := text 16 (hex_char upper) v.
Definition dec_text (v : Z) : list Z := if v <? 0 then chr "-" :: text 10 dec_char (- v) else text 10 dec_char v.

(** Reading a number back. *)
Definition digit_value (c : Z) : Z :=
  if c <=? chr "9" then c - chr "0" else if c <=? chr "F" then c - chr "A" + 10 else c - chr "a" + 10.
Definition read_base (b : Z) (l : list Z) : Z := fold_left (fun acc c => b * acc + digit_value c) l 0.
Definition read_dec (l : list Z) : Z :=
  match l with c :: l' => if c =? chr "-" then - read_base 10 l' else read_base 10 l | [] => 0 end.

Lemma low_digits_value b v n : 1 < b -> 0 <= v < b ^ Z.of_nat n -> foldr (fun d acc => b * acc + d) 0 (low_digits n b v) = v.
Proof.
  intros Hb. revert v. induction n as [|n IH]; intros v Hv; [rewrite Z.pow_0_r in Hv; cbn; lia|].
  cbn [low_digits]. destruct (Z.eqb_spec v 0) as [->|Hn]; [done|]. cbn [foldr].
  rewrite IH; [pose proof (Z.div_mod v b); lia|]. split; [apply Z.div_pos; lia|].
  apply Z.div_lt_upper_bound; [lia|]. rewrite Nat2Z.inj_succ, Z.pow_succ_r in Hv by lia. lia.
Qed.

Lemma low_digits_range b v n d : 1 < b -> 0 <= v -> d ∈ low_digits n b v -> 0 <= d < b.
Proof.
  intros Hb. revert v. induction n as [|n IH]; intros v Hv; cbn [low_digits]; [by intros ?%not_elem_of_nil|].
  destruct (Z.eqb_spec v 0); [by intros ?%not_elem_of_nil|]. intros [->|Hd]%elem_of_cons; [apply Z.mod_pos_bound; lia|].
  apply (IH (v / b)); [apply Z.div_pos; lia|done].
Qed.

Lemma low_digits_length b v n : (length (low_digits n b v) <= n)%nat.
Proof. revert v. induction n as [|n IH]; intros v; cbn [low_digits]; [done|]. destruct (_ =? _); cbn; [lia|]. specialize (IH (v / b)). lia. Qed.

Lemma low_digits_nil b v n : 1 < b -> 0 <= v < b ^ Z.of_nat n -> low_digits n b v = [] -> v = 0.
Proof. intros Hb Hv E. rewrite <- (low_digits_value b v n Hb Hv), E. done. Qed.

(** The highest digit is not zero. *)
Lemma low_digits_last b v n l d : 1 < b -> 0 <= v < b ^ Z.of_nat n -> low_digits n b v = l ++ [d] -> d <> 0.
Proof.
  intros Hb. revert v l. induction n as [|n IH]; intros v l Hv; cbn [low_digits]; [by destruct l|].
  destruct (Z.eqb_spec v 0) as [->|Hn]; [by destruct l|].
  assert (Hq : 0 <= v / b < b ^ Z.of_nat n).
  { split; [apply Z.div_pos; lia|]. apply Z.div_lt_upper_bound; [lia|]. rewrite Nat2Z.inj_succ, Z.pow_succ_r in Hv by lia. lia. }
  destruct l as [|x l]; cbn [app]; intros [= E El]; [|by apply (IH (v / b) l)]. subst d.
  apply low_digits_nil in El; [|done|done]. pose proof (Z.div_mod v b). lia.
Qed.

Lemma fold_rev_value b (char : Z -> Z) l : (forall d, d ∈ l -> digit_value (char d) = d) ->
  read_base b (rev (char <$> l)) = foldr (fun d acc => b * acc + d) 0 l.
Proof.
  intros H. unfold read_base. rewrite <- fold_left_rev_right, rev_involutive. induction l as [|d l IH]; [done|]. cbn.
  rewrite H by left. rewrite IH; [done|]. intros x Hx. apply H. by right.
Qed.

Lemma text_value b (char : Z -> Z) v : 1 < b -> 0 <= v < b ^ 20 -> (forall d, 0 <= d < b -> digit_value (char d) = d) ->
  read_base b (text b char v) = v.
Proof.
  intros Hb Hv Hc. unfold text. destruct (Z.eqb_spec v 0) as [->|Hn]; [unfold read_base; cbn [fold_left]; change (digit_value (chr "0")) with 0; lia|]. rewrite fold_rev_value.
  - by apply (low_digits_value b v 20).
  - intros d Hd. apply Hc, (low_digits_range b v 20); [done|lia|done].
Qed.

(** ** The loops of the conversion *)

(** The first elements of an array, and the rest of it unassigned. *)
Definition filled (n : nat) (l : list Z) : list (option Z) := (Some <$> l) ++ uninit (n - length l).

Lemma filled_length n l : (length l <= n)%nat -> length (filled n l) = n.
Proof. intros H. unfold filled, uninit. rewrite length_app, length_fmap, length_replicate. lia. Qed.

Lemma filled_put n l c (Q : list (option Z) -> kst -> Prop) s : (length l < n)%nat -> Q (filled n (l ++ [c])) s ->
  wp (aput (filled n l) (Z.of_nat (length l)) c) Q s.
Proof.
  intros Hl HQ. unfold aput. rewrite filled_length by lia. rewrite (proj2 (Z.leb_le _ _)), (proj2 (Z.ltb_lt _ _)) by lia. cbn [andb].
  apply wp_ret. rewrite Nat2Z.id. enough (<[length l := Some c]> (filled n l) = filled n (l ++ [c])) as -> by done.
  unfold filled, uninit. rewrite insert_app_r_alt by (rewrite length_fmap; lia). rewrite length_fmap, Nat.sub_diag.
  rewrite fmap_app, length_app. cbn. replace (n - length l)%nat with (S (n - (length l + 1))) by lia. cbn. by rewrite <- app_assoc.
Qed.

Lemma filled_get n l i c (Q : Z -> kst -> Prop) s : l !! i = Some c -> (length l <= n)%nat -> Q c s ->
  wp (aget (filled n l) (Z.of_nat i)) Q s.
Proof.
  intros Hi Hl HQ. pose proof (lookup_lt_Some _ _ _ Hi). unfold aget. rewrite filled_length by lia.
  rewrite (proj2 (Z.leb_le _ _)), (proj2 (Z.ltb_lt _ _)) by lia. cbn [andb]. rewrite Nat2Z.id.
  rewrite nth_lookup. unfold filled. rewrite lookup_app_l by (rewrite length_fmap; lia). rewrite list_lookup_fmap, Hi. cbn. by apply wp_ret.
Qed.

(** The loop that takes the digits off, the lowest first. *)
Lemma extract_wp b (char : Z -> Z) body v s (Q : list (option Z) * Z -> kst -> Prop) : 1 < b -> 0 <= v < b ^ 20 ->
  (forall l v (Q' : list (option Z) * Z * Z + list (option Z) * Z -> kst -> Prop), 0 <= v < 2 ^ 200 -> (length l < 32)%nat ->
     (v = 0 -> Q' (inr (filled 32 l, Z.of_nat (length l))) s) ->
     (v <> 0 -> Q' (inl (filled 32 (l ++ [char (v mod b)]), Z.of_nat (length l) + 1, v / b)) s) ->
     wp (body (filled 32 l, Z.of_nat (length l), v)) Q' s) ->
  b <= 16 ->
  Q (filled 32 (char <$> low_digits 20 b v), Z.of_nat (length (low_digits 20 b v))) s -> wp (while (uninit 32, 0, v) body) Q s.
Proof.
  intros Hb Hv Hbody Hb16. set (D := low_digits 20 b v). assert (HD : D = low_digits 20 b v) by done. clearbody D. intros HQ.
  apply (wp_loop (fun k x s' => s' = s /\ exists l w, x = (filled 32 l, Z.of_nat (length l), w) /\ 0 <= w < b ^ Z.of_nat k /\ (length l + k <= 20)%nat /\
    char <$> D = l ++ (char <$> low_digits k b w)) 20); [|done|].
  - split; [done|]. exists [], v. split; [done|]. split; [done|]. split; [done|]. cbn [app]. by f_equal.
  - intros k x s' (-> & l & w & -> & Hw & Hk & E).
    assert (Hbig : b ^ Z.of_nat k <= 2 ^ 200).
    { transitivity (16 ^ Z.of_nat k); [apply Z.pow_le_mono_l; lia|]. change 16 with (2 ^ 4). rewrite <- Z.pow_mul_r by lia. apply Z.pow_le_mono_r; lia. }
    apply Hbody; [lia|lia| |].
    + intros E0. subst w. assert (En : low_digits k b 0 = []) by (by destruct k). rewrite En, app_nil_r in E.
      replace (length l) with (length D) by (rewrite <- E; by rewrite length_fmap). rewrite E in HQ. exact HQ.
    + intros Hn. destruct k as [|k]; [rewrite Z.pow_0_r in Hw; lia|]. cbn [low_digits] in E. rewrite (proj2 (Z.eqb_neq w 0)) in E by done.
      exists k. split; [lia|]. split; [done|]. exists (l ++ [char (w mod b)]), (w / b). rewrite length_app. cbn [length].
      split; [f_equal; f_equal; lia|]. split; [split; [apply Z.div_pos; lia|]; apply Z.div_lt_upper_bound; [lia|]; rewrite Nat2Z.inj_succ, Z.pow_succ_r in Hw by lia; lia|].
      split; [lia|]. rewrite E. cbn. by rewrite <- app_assoc.
Qed.

(** The loop that turns them round, behind what the buffer holds. *)
Lemma reverse_wp l p s (Q : list (option Z) * Z -> kst -> Prop) : (length l <= 32)%nat -> (length p <= 1)%nat ->
  Q (filled 64 (p ++ rev l), Z.of_nat (length p + length l)) s ->
  wp (while (filled 64 p, Z.of_nat (length p), Z.of_nat (length l)) (reverse_step (filled 32 l))) Q s.
Proof.
  intros Hl Hp HQ.
  apply (wp_loop (fun k x s' => s' = s /\ exists l1 l2, l = l1 ++ l2 /\ length l1 = k /\
    x = (filled 64 (p ++ rev l2), Z.of_nat (length p + length l2), Z.of_nat k)) (length l)); [|lia|].
  - split; [done|]. exists l, []. cbn. by rewrite !app_nil_r, Nat.add_0_r.
  - intros k x s' (-> & l1 & l2 & -> & <- & ->). unfold reverse_step. rewrite length_app in Hl.
    destruct l1 as [|c l1 _] using rev_ind; [by apply wp_ret|]. rewrite length_app in *. cbn [length] in *.
    rewrite (proj2 (Z.eqb_neq _ 0)) by lia. replace (Z.of_nat (length l1 + 1) - 1) with (Z.of_nat (length l1)) by lia.
    apply wp_bind. eapply (filled_get 32 _ (length l1) c); [|rewrite !length_app; cbn; lia|].
    { rewrite <- app_assoc. rewrite lookup_app_r by lia. by rewrite Nat.sub_diag. }
    apply wp_bind. replace (length p + length l2)%nat with (length (p ++ rev l2)) by (rewrite length_app, length_rev; lia).
    apply filled_put; [rewrite length_app, length_rev; lia|]. apply wp_ret. exists (length l1). split; [lia|]. split; [done|].
    exists l1, (c :: l2). split; [by rewrite <- app_assoc|]. split; [done|]. cbn [rev length]. rewrite length_app, length_rev. rewrite <- app_assoc. f_equal. f_equal. lia.
Qed.

Lemma wp_exec {A} (c : K A) (a : A) s : wp c (fun a' s' => a' = a /\ s' = s) s -> c s = Done a s.
Proof. intros H. apply wp_Done in H as (a' & s' & H & -> & ->). exact H. Qed.

(** The rest of a conversion, once the digits are taken off. *)
Lemma finish_wp b (char : Z -> Z) v p s (Q : list (option Z) * Z -> kst -> Prop) : v <> 0 -> (length p <= 1)%nat ->
  Q (filled 64 ((p ++ text b char v) ++ [0]), Z.of_nat (length (p ++ text b char v))) s ->
  wp (r' ← while (filled 64 p, Z.of_nat (length p), Z.of_nat (length (low_digits 20 b v))) (reverse_step (filled 32 (char <$> low_digits 20 b v)));
      buf ← aput r'.1 r'.2 0; mret (buf, r'.2)) Q s.
Proof.
  intros Hv Hp. unfold text. rewrite (proj2 (Z.eqb_neq v 0)) by done. pose proof (low_digits_length b v 20) as Hlen.
  generalize dependent (low_digits 20 b v). intros D Hlen HQ. rewrite <- (length_fmap char D) at 1. apply wp_bind, reverse_wp; [rewrite length_fmap; lia|lia|].
  cbn [fst snd]. rewrite !length_app, length_rev in HQ. rewrite <- (length_rev (char <$> D)), <- length_app. apply wp_bind, filled_put.
  { rewrite length_app, length_rev, length_fmap. lia. }
  apply wp_ret. rewrite length_app, length_rev. exact HQ.
Qed.

Lemma hex_step_wp upper l v s (Q : list (option Z) * Z * Z + list (option Z) * Z -> kst -> Prop) : 0 <= v < 2 ^ 200 -> (length l < 32)%nat ->
  (v = 0 -> Q (inr (filled 32 l, Z.of_nat (length l))) s) ->
  (v <> 0 -> Q (inl (filled 32 (l ++ [hex_char upper (v mod 16)]), Z.of_nat (length l) + 1, v / 16)) s) ->
  wp (hex_step (Some <$> alphabet upper) (filled 32 l, Z.of_nat (length l), v)) Q s.
Proof.
  intros Hv Hl H0 H1. unfold hex_step. destruct (Z.eqb_spec v 0) as [E|Hn]; [by apply wp_ret, H0|].
  change 0xF with (Z.ones 4). rewrite Z.land_ones, Z.shiftr_div_pow2 by lia. change (2 ^ 4) with 16.
  set (d := v mod 16) in *. pose proof (Z.mod_pos_bound v 16 ltac:(lia)) as Hd. fold d in Hd. apply wp_bind.
  assert (Ha : length (alphabet upper) = 16%nat) by (unfold alphabet; by destruct (upper =? 0)).
  assert (E : Some <$> alphabet upper = filled 16 (alphabet upper)) by (unfold filled; by rewrite Ha, app_nil_r). rewrite E. rewrite <- (Z2Nat.id d) at 1 by lia. apply (filled_get 16 _ _ (hex_char upper d)).
  - unfold hex_char. rewrite nth_lookup. assert (Hi : (Z.to_nat d < length (alphabet upper))%nat) by lia.
    by destruct (lookup_lt_is_Some_2 _ _ Hi) as [c ->].
  - lia.
  - apply wp_bind, filled_put; [done|]. apply wp_ret. by apply H1.
Qed.

Lemma dec_step_wp l v s (Q : list (option Z) * Z * Z + list (option Z) * Z -> kst -> Prop) : (length l < 32)%nat ->
  (v = 0 -> Q (inr (filled 32 l, Z.of_nat (length l))) s) ->
  (v <> 0 -> Q (inl (filled 32 (l ++ [dec_char (v mod 10)]), Z.of_nat (length l) + 1, v / 10)) s) ->
  wp (dec_step (filled 32 l, Z.of_nat (length l), v)) Q s.
Proof.
  intros Hl H0 H1. unfold dec_step. destruct (Z.eqb_spec v 0) as [E|Hn]; [by apply wp_ret, H0|].
  pose proof (Z.mod_pos_bound v 10 ltac:(lia)). change (chr "0") with 48. rewrite u8_id by lia. apply wp_bind, filled_put; [done|]. apply wp_ret. by apply H1.
Qed.

Lemma zero_wp s (Q : list (option Z) * Z -> kst -> Prop) : Q (filled 64 ([chr "0"] ++ [0]), 1) s ->
  wp (buf ← aput (uninit 64) 0 (chr "0"); buf ← aput buf 1 0; mret (buf, 1)) Q s.
Proof.
  intros HQ. apply wp_bind. apply (filled_put 64 []); [cbn; lia|]. apply wp_bind. apply (filled_put 64 [chr "0"]); [cbn; lia|]. by apply wp_ret.
Qed.

Lemma itoa_hex_exec v upper s : 0 <= v < 2 ^ 64 ->
  itoa_hex (uninit 64) v upper s = Done (filled 64 (hex_text v upper ++ [0]), Z.of_nat (length (hex_text v upper))) s.
Proof.
  intros Hv. apply (wp_exec (itoa_hex (uninit 64) v upper)). unfold itoa_hex, hex_text. cbv zeta. fold (alphabet upper). destruct (Z.eqb_spec v 0) as [->|Hn]; [by apply zero_wp|].
  apply wp_bind, (extract_wp 16 (hex_char upper)); [lia|lia| |lia|].
  - intros l w Q' Hw Hl H0 H1. by apply hex_step_wp.
  - cbn [fst snd]. change (uninit 64) with (filled 64 []). apply (finish_wp 16 (hex_char upper) v []); [done|cbn; lia|done].
Qed.

(** The text [itoa_dec] produces. *)
Definition dec_conv (v uns : Z) : list Z := dec_text (if uns =? 0 then v else u64 v).

Lemma itoa_dec_exec v uns s : - 2 ^ 63 < v < 2 ^ 63 ->
  itoa_dec (uninit 64) v uns s = Done (filled 64 (dec_conv v uns ++ [0]), Z.of_nat (length (dec_conv v uns))) s.
Proof.
  intros Hv. apply (wp_exec (itoa_dec (uninit 64) v uns)). unfold itoa_dec, dec_conv, dec_text.
  set (neg := (uns =? 0) && (v <? 0)). set (x := if neg then u64 (- v) else u64 v).
  set (w := if uns =? 0 then v else u64 v).
  assert (Hw : (w <? 0) = neg /\ x = (if neg then - w else w) /\ 0 <= x < 2 ^ 64).
  { unfold w, x, neg. pose proof (u64_bound v). destruct (uns =? 0); cbn [andb].
    - destruct (Z.ltb_spec v 0); rewrite u64_id by lia; lia.
    - split; [apply Z.ltb_ge; lia|]. lia. }
  destruct Hw as (-> & Hx & Hb). assert (E : (if neg then chr "-" :: text 10 dec_char (- w) else text 10 dec_char w) = (if neg then [chr "-"] else []) ++ text 10 dec_char x).
  { rewrite Hx. by destruct neg. }
  rewrite E. destruct (Z.eqb_spec x 0) as [E0|Hn].
  { assert (neg = false) as ->; [|rewrite E0; by apply zero_wp]. destruct neg eqn:En; [|done]. exfalso. unfold x in E0.
    apply andb_prop in En as [_ En%Z.ltb_lt]. rewrite u64_id in E0; lia. }
  apply wp_bind, (extract_wp 10 dec_char); [lia|lia| |lia|].
  - intros l u Q' _ Hl H0 H1. by apply dec_step_wp.
  - cbn [fst snd]. destruct neg.
    + apply wp_bind, wp_bind. apply (filled_put 64 []); [cbn; lia|]. apply wp_ret. cbn [fst snd app]. apply (finish_wp 10 dec_char x [chr "-"]); [done|cbn; lia|done].
    + apply wp_bind, wp_ret. cbn [fst snd app]. change (uninit 64) with (filled 64 []). apply (finish_wp 10 dec_char x []); [done|cbn; lia|done].
Qed.

Lemma digit_of_hex upper d : 0 <= d < 16 -> digit_value (hex_char upper d) = d /\ (hex_char upper d = chr "0" -> d = 0).
Proof.
  intros Hd. assert (H : Forall (fun d => digit_value (hex_char upper d) = d /\ (hex_char upper d = chr "0" -> d = 0)) (seqZ 0 16)).
  { unfold hex_char, alphabet. destruct (upper =? 0); vm_compute; repeat (constructor; [by split|]); constructor. }
  rewrite Forall_forall in H. apply H, elem_of_seqZ. lia.
Qed.

Lemma digit_of_dec d : 0 <= d < 10 -> digit_value (dec_char d) = d /\ (dec_char d = chr "0" -> d = 0).
Proof. unfold digit_value, dec_char. change (chr "0") with 48. change (chr "9") with 57. intros Hd. rewrite (proj2 (Z.leb_le _ _)) by lia. lia. Qed.

(** A text without superfluous zeros in front. *)
Definition canonical (t : list Z) : Prop := t <> [] /\ forall t', t = chr "0" :: t' -> t' = [].

Lemma text_canonical b char v : 1 < b -> 0 <= v < b ^ 20 -> (forall d, 0 <= d < b -> char d = chr "0" -> d = 0) -> canonical (text b char v).
Proof.
  intros Hb Hv Hc. unfold canonical, text. destruct (Z.eqb_spec v 0) as [->|Hn]; [split; [done|by intros t' [= <-]]|].
  pose proof (low_digits_last b v 20) as Hl. pose proof (low_digits_range b v 20) as Hr. pose proof (low_digits_nil b v 20 Hb Hv) as Hz.
  generalize dependent (low_digits 20 b v). intros D Hl Hr Hz. destruct D as [|d D _] using rev_ind; [by destruct Hn; apply Hz|].
  rewrite fmap_app, rev_app_distr. cbn. split; [done|]. intros t' [= E _]. exfalso.
  apply (Hl D d Hb Hv eq_refl), Hc; [|done]. apply (Hr d); [done|lia|]. apply elem_of_app. right. left.
Qed.

(** C29: Reading the text of a number back gives the number: in base 16 for every 64-bit value
    and both alphabets, in base 10 with its sign.  The text ends in NUL inside the 64
    bytes of the buffer, has no superfluous zeros, and no element of a local array is
    read before it is written or outside the array. *)
Theorem itoa_roundtrip v s :
  (0 <= v < 2 ^ 64 -> forall upper, exists t, read_base 16 t = v /\ canonical t /\
     itoa_hex (uninit 64) v upper s = Done (filled 64 (t ++ [0]), Z.of_nat (length t)) s) /\
  (- 2 ^ 63 < v < 2 ^ 63 -> exists t, read_dec t = v /\ canonical t /\
     itoa_dec (uninit 64) v 0 s = Done (filled 64 (t ++ [0]), Z.of_nat (length t)) s).
Proof.
  split; intros Hv.
  - intros upper. exists (hex_text v upper). split; [|split].
    + apply text_value; [lia|lia|]. intros d Hd. by apply digit_of_hex.
    + apply text_canonical; [lia|lia|]. intros d Hd. by apply digit_of_hex.
    + by apply itoa_hex_exec.
  - exists (dec_text v). split; [|split].
    + unfold dec_text, read_dec. destruct (Z.ltb_spec v 0).
      * rewrite Z.eqb_refl. rewrite text_value; [lia|lia|lia|]. intros d Hd. by apply digit_of_dec.
      * assert (Hm : forall c t, text 10 dec_char v = c :: t -> (c =? chr "-") = false).
        { unfold text. destruct (v =? 0); [by intros c t [= <- <-]|]. intros c t E. apply Z.eqb_neq. intros ->.
          assert (Hin : chr "-" ∈ rev (dec_char <$> low_digits 20 10 v)) by (rewrite E; left).
          rewrite list_elem_of_In, <- in_rev, <- list_elem_of_In in Hin. apply list_elem_of_fmap in Hin as (d & Ed & Hd).
          apply low_digits_range in Hd; [|lia|lia]. unfold dec_char in Ed. change (chr "-") with 45 in Ed. change (chr "0") with 48 in Ed. lia. }
        pose proof (text_value 10 dec_char v ltac:(lia) ltac:(lia) (fun d Hd => proj1 (digit_of_dec d Hd))) as E.
        destruct (text 10 dec_char v) as [|c t] eqn:Et; [done|]. by rewrite (Hm c t).
    + unfold dec_text. destruct (v <? 0) eqn:En; [split; [done|by intros t' [=]]|].
      apply Z.ltb_ge in En. apply text_canonical; [lia|lia|]. intros d Hd. by apply digit_of_dec.
    + by apply (itoa_dec_exec v 0).
Qed.

Lemma itoa_roundtrip_witness :
  (exists t, read_base 16 t = 0xBEEF /\ canonical t /\ itoa_hex (uninit 64) 0xBEEF 1 boot_state = Done (filled 64 (t ++ [0]), Z.of_nat (length t)) boot_state) /\
  exists t, read_dec t = -42 /\ canonical t /\ itoa_dec (uninit 64) (-42) 0 boot_state = Done (filled 64 (t ++ [0]), Z.of_nat (length t)) boot_state.
Proof.
  split; [exact (proj1 (itoa_roundtrip 0xBEEF boot_state) ltac:(lia) 1)|exact (proj2 (itoa_roundtrip (-42) boot_state) ltac:(lia))].
Defined.
