(* ===== verification/StdioFormat.v ===== *)
(** The formatting loop of kernel/lib/stdio.c writes the text of its format. *)
From Stdlib Require Import String Ascii.
From S2P Require Import Prelude Machine KString Stdio StdioProps.

#[local] Opaque load store.

(** ** The text of a format *)

Section render.
(** The strings in memory. *)
Context (str : Z -> list Z).

(** The text of the argument [v] under the conversion [c]. *)
Definition conv_text (c v : Z) : list Z :=
  if c =? chr "s" then (if v =? NULL then chars "(null)" else str v) else
  if c =? chr "c" then [u8 v] else
  if c =? chr "d" then dec_text (signed 32 v) else
  if c =? chr "u" then dec_text (u32 v) else
  if (c =? chr "x") || (c =? chr "X") then hex_text v (if c =? chr "X" then 1 else 0) else
  chars "0x" ++ hex_text v 0.

Definition takes_arg (c : Z) : bool := existsb (Z.eqb c) (chars "scduxXp").

(** The text of a format with its arguments; there is none when the format ends in a percent
    sign or an argument is missing.  A conversion that is not known is dropped. *)
Fixpoint render (f ap : list Z) : option (list Z) :=
  match f with
  | [] => Some []
  | c :: f =>
      if negb (c =? chr "%") then cons c <$> render f ap else
      match f with
      | [] => None
      | d :: f =>
          if d =? chr "%" then cons d <$> render f ap
          else if takes_arg d then match ap with [] => None | v :: ap => app (conv_text d (u64 v)) <$> render f ap end
          else render f ap
      end
  end.

(** The strings the format prints. *)
Fixpoint strings (f ap : list Z) : list Z :=
  match f with
  | [] => []
  | c :: f =>
      if negb (c =? chr "%") then strings f ap else
      match f with
      | [] => []
      | d :: f =>
          if takes_arg d then match ap with
            | [] => []
            | v :: ap => if (d =? chr "s") && negb (u64 v =? NULL) then u64 v :: strings f ap else strings f ap
            end
          else strings f ap
      end
  end.
End render.

(** ** Printing characters *)

(** How many of [n] characters reach the buffer. *)
Definition shown (out sz : Z) (n : nat) : Z := if out =? NULL then 0 else Z.max 0 (Z.min (Z.of_nat n) (sz - 1)).

Definition printed (m m' : mem) (out sz : Z) (d : list Z) : Prop :=
  agree (fun x => ~ within out (shown out sz (length d)) x) m m' /\
  forall i, Z.of_nat i < shown out sz (length d) -> mget m' (out + Z.of_nat i) = nth i d 0.

Definition byte (c : Z) : Prop := 0 <= c < 2 ^ 8.

Lemma shown_mono out sz n n' : (n <= n')%nat -> shown out sz n <= shown out sz n'.
Proof. unfold shown. destruct (out =? NULL); lia. Qed.

Lemma printed_nil m out sz : printed m m out sz [].
Proof. split; [done|]. unfold shown. cbn [length]. destruct (out =? NULL); lia. Qed.

Section print.
Context (out sz : Z) (s : kst).
Implicit Types Q : Z -> kst -> Prop.

Lemma emit_wp m d c rd Q : printed (k_mem s) m out sz d -> Z.of_nat (length d) + 1 < 2 ^ 64 -> byte c ->
  rd (set_mem m s) = Done c (set_mem m s) ->
  (forall m', printed (k_mem s) m' out sz (d ++ [c]) -> Q (Z.of_nat (length (d ++ [c]))) (set_mem m' s)) ->
  wp (emit out sz (Z.of_nat (length d)) rd) Q (set_mem m s).
Proof.
  intros [Hag Hd] Hlen Hc Hrd HQ. unfold emit. rewrite length_app in HQ. cbn [length] in HQ. usimpl.
  assert (E : Z.of_nat (length d) + 1 = Z.of_nat (length d + 1)) by lia. rewrite E in *. apply wp_bind.
  destruct (negb (out =? NULL) && (Z.of_nat (length d + 1) <? sz)) eqn:Eb; cbn [when].
  - apply andb_prop in Eb as [Hout Hsz%Z.ltb_lt]. apply negb_true_iff in Hout.
    apply wp_bind. eapply wp_of_Done; [exact Hrd|]. apply wp_modify, wp_ret. cbn [k_mem set_mem]. apply (HQ (store 1 m (out + Z.of_nat (length d)) c)).
    unfold printed in *. rewrite length_app. cbn [length]. unfold shown in *. rewrite Hout in *. rewrite !Z.max_r, !Z.min_l in * by lia. split.
    + intros x Hx. rewrite store1. unfold within in *. rewrite (proj2 (Z.eqb_neq x _)) by lia. apply Hag. lia.
    + intros i Hi. rewrite store1. destruct (Z.eqb_spec (out + Z.of_nat i) (out + Z.of_nat (length d))) as [Ei|Hne].
      * assert (i = length d) as -> by lia. rewrite app_nth2, Nat.sub_diag by lia. by apply u8_id.
      * rewrite app_nth1 by lia. apply Hd. lia.
  - apply wp_ret, wp_ret. apply HQ. unfold printed in *. rewrite length_app. cbn [length].
    assert (Es : shown out sz (length d + 1) = shown out sz (length d)).
    { unfold shown. destruct (out =? NULL); [done|]. cbn in Eb. apply Z.ltb_ge in Eb. lia. }
    rewrite Es. split; [done|]. intros i Hi. rewrite app_nth1; [by apply Hd|]. unfold shown in Hi. destruct (out =? NULL); lia.
Qed.

Lemma emit_buf_wp m d t buf Q : printed (k_mem s) m out sz d -> Z.of_nat (length (d ++ t)) + 1 < 2 ^ 64 -> Forall byte t ->
  (forall i c m', t !! i = Some c -> aget buf (Z.of_nat i) (set_mem m' s) = Done c (set_mem m' s)) ->
  (forall m', printed (k_mem s) m' out sz (d ++ t) -> Q (Z.of_nat (length (d ++ t))) (set_mem m' s)) ->
  wp (emit_buf out sz buf (Z.of_nat (length t)) (Z.of_nat (length d))) Q (set_mem m s).
Proof.
  intros Hd Hlen Ht Hb HQ. unfold emit_buf.
  apply (wp_loop (fun k x s' => exists m' t1 t2, s' = set_mem m' s /\ t = t1 ++ t2 /\ k = length t2 /\
    x = (Z.of_nat (length t1), Z.of_nat (length (d ++ t1))) /\ printed (k_mem s) m' out sz (d ++ t1)) (length t)); [| rewrite length_app in Hlen; lia|].
  { exists m, [], t. rewrite app_nil_r. done. }
  clear m Hd. intros k x s' (m & t1 & t2 & -> & -> & -> & -> & Hd). rewrite !length_app in *. destruct t2 as [|c t2].
  { rewrite Nat.add_0_r, Z.ltb_irrefl. apply wp_ret. rewrite app_nil_r in HQ. rewrite Nat.add_0_r in HQ. by apply HQ. }
  rewrite (proj2 (Z.ltb_lt _ _)) by (cbn; lia). apply wp_bind. rewrite <- length_app. apply (emit_wp m _ c); [done|cbn in *; rewrite length_app; lia| | |].
  - rewrite Forall_forall in Ht. apply Ht. eauto with inlist.
  - apply Hb. rewrite lookup_app_r, Nat.sub_diag by lia. done.
  - intros m' Hd'. apply wp_ret. exists (length t2). split; [cbn; lia|]. exists m', (t1 ++ [c]), t2. rewrite <- app_assoc in *. cbn in *.
    split; [done|]. split; [done|]. split; [done|]. rewrite !length_app. cbn. split; [f_equal; lia|done].
Qed.

Lemma emit_filled_wp n m d t Q : printed (k_mem s) m out sz d -> Z.of_nat (length (d ++ t)) + 1 < 2 ^ 64 -> Forall byte t -> (length t < n)%nat ->
  (forall m', printed (k_mem s) m' out sz (d ++ t) -> Q (Z.of_nat (length (d ++ t))) (set_mem m' s)) ->
  wp (emit_buf out sz (filled n (t ++ [0])) (Z.of_nat (length t)) (Z.of_nat (length d))) Q (set_mem m s).
Proof.
  intros Hd Hlen Ht Hn HQ. apply emit_buf_wp; [done|done|done| |done]. intros i c m' Hi. apply wp_exec.
  apply (filled_get n _ i c); [|rewrite length_app; cbn; lia|done]. by apply lookup_app_l_Some.
Qed.

(** [N] characters in all; what is read lies outside the part of the buffer they reach. *)
Context (N : nat).
Definition unwritten (p : Z) (t : list Z) : Prop :=
  cstr (k_mem s) p t /\ Z.of_nat (length t) + 1 < 2 ^ 64 /\ forall x, within p (Z.of_nat (length t) + 1) x -> ~ within out (shown out sz N) x.

Lemma unwritten_char m d p t i : printed (k_mem s) m out sz d -> (length d <= N)%nat -> unwritten p t -> (i <= length t)%nat ->
  load 1 m (p + Z.of_nat i) = nth i t 0.
Proof.
  intros [Hag _] HN (Hc & _ & Ho) Hi. rewrite load1. rewrite Hag; [by apply (cstr_char _ _ t)|].
  pose proof (shown_mono out sz _ _ HN). specialize (Ho (p + Z.of_nat i)). unfold within in *. lia.
Qed.

Lemma cstr_bytes p t : cstr (k_mem s) p t -> Forall byte t.
Proof.
  intros [_ H]. apply Forall_forall. intros c (i & Hi)%list_elem_of_lookup. pose proof (lookup_lt_Some _ _ _ Hi).
  specialize (H i ltac:(lia)). rewrite nth_lookup, Hi in H. cbn in H. rewrite <- H. apply mget_bound.
Qed.

Lemma emit_str_wp m d p t Q : printed (k_mem s) m out sz d -> Z.of_nat (length (d ++ t)) + 1 < 2 ^ 64 -> (length (d ++ t) <= N)%nat -> unwritten p t ->
  (forall m', printed (k_mem s) m' out sz (d ++ t) -> Q (Z.of_nat (length (d ++ t))) (set_mem m' s)) ->
  wp (emit_str out sz p (Z.of_nat (length d))) Q (set_mem m s).
Proof.
  intros Hd Hlen HN Hp HQ. unfold emit_str. pose proof Hp as (Hc & Ht & _).
  apply (wp_loop (fun k x s' => exists m' t1 t2, s' = set_mem m' s /\ t = t1 ++ t2 /\ k = length t2 /\
    x = (Z.of_nat (length t1), Z.of_nat (length (d ++ t1))) /\ printed (k_mem s) m' out sz (d ++ t1)) (length t)); [|lia|].
  { exists m, [], t. rewrite app_nil_r. done. }
  clear m Hd. intros k x s' (m & t1 & t2 & -> & -> & -> & -> & Hd). rewrite !length_app in *.
  assert (Hch : load 1 m (p + Z.of_nat (length t1)) = nth (length t1) (t1 ++ t2) 0) by (apply (unwritten_char m (d ++ t1)); rewrite ?length_app; [done|lia|done|lia]).
  rewrite app_nth2, Nat.sub_diag in Hch by lia. apply wp_bind, wp_gets. cbn [k_mem set_mem]. rewrite Hch. destruct t2 as [|c t2].
  { cbn [nth Z.eqb]. apply wp_ret. rewrite app_nil_r, Nat.add_0_r in HQ. rewrite <- length_app in *. by apply HQ. }
  cbn [nth] in *. assert (Hcz : c <> 0) by (destruct Hc as [Hnz _]; rewrite Forall_forall in Hnz; apply Hnz; eauto with inlist).
  rewrite (proj2 (Z.eqb_neq c 0)) by done. apply wp_bind. rewrite <- length_app. apply (emit_wp m _ c); [done|cbn in *; rewrite length_app; lia| | |].
  - pose proof (cstr_bytes _ _ Hc) as Hb. rewrite Forall_forall in Hb. apply Hb. eauto with inlist.
  - unfold load8, gets. cbn [k_mem set_mem]. by rewrite Hch.
  - intros m' Hd'. apply wp_ret. cbn [length] in *. exists (length t2). split; [lia|]. exists m', (t1 ++ [c]), t2. rewrite <- app_assoc in *. cbn in *.
    split; [done|]. split; [done|]. split; [done|]. rewrite !length_app. cbn. rewrite u64_id by lia. split; [f_equal; lia|done].
Qed.
End print.

(** ** Conversions *)

Lemma low_digits_bytes b char v : 1 < b -> 0 <= v -> (forall d, 0 <= d < b -> byte (char d)) -> Forall byte (text b char v) /\ (length (text b char v) <= 20)%nat.
Proof.
  intros Hb Hv Hc. unfold text. destruct (v =? 0); [by repeat constructor|]. pose proof (low_digits_range b v 20) as Hr. pose proof (low_digits_length b v 20) as Hl.
  generalize dependent (low_digits 20 b v). intros D Hr Hl. rewrite length_rev, length_fmap. split; [|done]. apply Forall_forall. intros c Hin.
  rewrite list_elem_of_In, <- in_rev, <- list_elem_of_In in Hin. apply list_elem_of_fmap in Hin as (d & -> & Hd). apply Hc. by apply Hr.
Qed.

Lemma hex_bytes v upper : 0 <= v -> Forall byte (hex_text v upper) /\ (length (hex_text v upper) <= 20)%nat.
Proof.
  intros Hv. apply low_digits_bytes; [lia|done|]. intros d Hd.
  assert (H : Forall (fun d => byte (hex_char upper d)) (seqZ 0 16)).
  { unfold hex_char, alphabet, byte. destruct (upper =? 0); vm_compute; repeat (constructor; [by split|]); constructor. }
  rewrite Forall_forall in H. apply H, elem_of_seqZ. lia.
Qed.

Lemma dec_bytes v : Forall byte (dec_text v) /\ (length (dec_text v) <= 21)%nat.
Proof.
  assert (H : forall v, 0 <= v -> Forall byte (text 10 dec_char v) /\ (length (text 10 dec_char v) <= 20)%nat).
  { intros w Hw. apply low_digits_bytes; [lia|done|]. unfold dec_char, byte. change (chr "0") with 48. lia. }
  unfold dec_text. destruct (Z.ltb_spec v 0).
  - destruct (H (- v) ltac:(lia)) as [H1 H2]. split; [|cbn; lia]. constructor; [by split|done].
  - destruct (H v ltac:(lia)). split; [done|lia].
Qed.

Lemma signed_bound w z : 0 < w -> - 2 ^ (w - 1) <= signed w z < 2 ^ (w - 1).
Proof.
  intros Hw. unfold signed. pose proof (Z.mod_pos_bound (z + 2 ^ (w - 1)) (2 ^ w) ltac:(lia)).
  assert (2 ^ w = 2 * 2 ^ (w - 1)) by (rewrite <- Z.pow_succ_r by lia; f_equal; lia). lia.
Qed.

Section convert.
Context (out sz : Z) (s : kst) (N : nat) (str : Z -> list Z).

Lemma buf_wp m d t b ap (Q : Z * list Z -> kst -> Prop) : printed (k_mem s) m out sz d -> Z.of_nat (length (d ++ t)) + 1 < 2 ^ 64 ->
  Forall byte t /\ (length t <= 21)%nat -> b = (filled 64 (t ++ [0]), Z.of_nat (length t)) ->
  (forall m', printed (k_mem s) m' out sz (d ++ t) -> Q (Z.of_nat (length (d ++ t)), ap) (set_mem m' s)) ->
  wp (pos ← emit_buf out sz b.1 b.2 (Z.of_nat (length d)); mret (pos, ap)) Q (set_mem m s).
Proof.
  intros Hd Hlen [Ht Hn] -> HQ. cbn [fst snd]. apply wp_bind, (emit_filled_wp out sz s 64); [done|done|done|lia|]. intros m' Hd'. by apply wp_ret, HQ.
Qed.

Lemma convert_wp m d c v ap (Q : Z * list Z -> kst -> Prop) : printed (k_mem s) m out sz d -> takes_arg c = true ->
  (c = chr "s" -> u64 v <> NULL -> unwritten out sz s N (u64 v) (str (u64 v))) ->
  Z.of_nat (length (d ++ conv_text str c (u64 v))) + 1 < 2 ^ 64 -> (length (d ++ conv_text str c (u64 v)) <= N)%nat ->
  (forall m', printed (k_mem s) m' out sz (d ++ conv_text str c (u64 v)) ->
     Q (Z.of_nat (length (d ++ conv_text str c (u64 v))), ap) (set_mem m' s)) ->
  wp (convert out sz c (Z.of_nat (length d)) (v :: ap)) Q (set_mem m s).
Proof.
  intros Hd Hc Hs. set (t := conv_text str c (u64 v)). intros Hlen HN HQ. unfold convert, va_arg. unfold conv_text in t.
  destruct (Z.eqb_spec c (chr "%")) as [->|_]; [discriminate Hc|].
  pose proof (u64_bound v) as Hv. destruct (Z.eqb_spec c (chr "s")) as [Es|N1].
  { apply wp_bind, wp_ret. cbn [fst snd]. apply wp_bind. destruct (Z.eqb_spec (u64 v) NULL) as [En|Hn].
    - unfold emit_literal. change (Z.of_nat (String.length "(null)")) with (Z.of_nat (length (chars "(null)"))). apply emit_buf_wp; [done|done|by repeat constructor| |].
      + intros i ch m' Hi. apply wp_exec. replace (Some <$> chars "(null)") with (filled 6 (chars "(null)")) by done. by apply (filled_get 6 (chars "(null)") i ch).
      + intros m' Hd'. by apply wp_ret, HQ.
    - apply (emit_str_wp out sz s N m d _ t); [done|done|done|by apply Hs|]. intros m' Hd'. by apply wp_ret, HQ. }
  destruct (Z.eqb_spec c (chr "c")) as [_|N2].
  { apply wp_bind, wp_ret. cbn [fst snd]. rewrite length_app in Hlen. cbn [length] in Hlen. apply wp_bind, (emit_wp out sz s m d (u8 (u64 v))); [done|lia|apply u8_bound|done|].
    intros m' Hd'. by apply wp_ret, HQ. }
  destruct (Z.eqb_spec c (chr "d")) as [_|N3].
  { apply wp_bind, wp_ret. cbn [fst snd]. apply wp_bind. pose proof (signed_bound 32 (u64 v) ltac:(lia)). eapply wp_of_Done; [apply itoa_dec_exec; lia|].
    apply (buf_wp m d t); [done|done|apply dec_bytes|done|done]. }
  destruct (Z.eqb_spec c (chr "u")) as [_|N4].
  { apply wp_bind, wp_ret. cbn [fst snd]. apply wp_bind. pose proof (u32_bound (u64 v)). eapply wp_of_Done; [apply itoa_dec_exec; lia|].
    apply (buf_wp m d t); [done|done|apply dec_bytes| |done]. unfold dec_conv. cbn [Z.eqb]. by rewrite (u64_id (u32 _)) by lia. }
  destruct ((c =? chr "x") || (c =? chr "X")) eqn:N5.
  { apply wp_bind, wp_ret. cbn [fst snd]. apply wp_bind. eapply wp_of_Done; [by apply itoa_hex_exec|]. apply (buf_wp m d t); [done|done| |done|done].
    destruct (hex_bytes (u64 v) (if c =? chr "X" then 1 else 0) ltac:(lia)). unfold t. split; [done|lia]. }
  destruct (Z.eqb_spec c (chr "p")) as [->|Hp].
  { destruct (hex_bytes (u64 v) 0 ltac:(lia)) as [Hb Hl].
    assert (Et : t = chars "0x" ++ hex_text (u64 v) 0) by done. clearbody t. subst t. rewrite !length_app in Hlen. cbn [length chars fmap list_fmap list_ascii_of_string] in Hlen.
    apply wp_bind, (emit_wp out sz s m d (chr "0")); [done|lia|by split|done|]. intros m1 Hd1. apply wp_bind, (emit_wp out sz s m1 _ (chr "x")); [done|rewrite length_app; cbn; lia|by split|done|].
    intros m2 Hd2. apply wp_bind, wp_ret. cbn [fst snd]. apply wp_bind. eapply wp_of_Done; [by apply itoa_hex_exec|].
    assert (Et : (((d ++ [chr "0"]) ++ [chr "x"]) ++ hex_text (u64 v) 0) = d ++ chars "0x" ++ hex_text (u64 v) 0) by (by rewrite <- !app_assoc).
    apply (buf_wp m2 _ (hex_text (u64 v) 0)); [done| |split; [done|lia]|done|].
    - rewrite Et, !length_app. cbn [length chars fmap list_fmap list_ascii_of_string]. lia.
    - by rewrite Et. }
  exfalso. apply orb_false_elim in N5 as [N5%Z.eqb_neq N6%Z.eqb_neq]. clear -Hc N1 N2 N3 N4 N5 N6 Hp. unfold takes_arg in Hc.
  apply existsb_exists in Hc as (x & Hx & ->%Z.eqb_eq). cbn in Hx. cbn in N1, N2, N3, N4, N5, N6, Hp. intuition congruence.
Qed.
End convert.

(** ** The loop over the format *)

Section format.
Context (out sz : Z) (s : kst) (str : Z -> list Z) (fmt : Z) (f l : list Z).
Abbreviation N := (length l).
Hypothesis Hfmt : unwritten out sz s N fmt f.
Hypothesis Hl : Z.of_nat N + 1 < 2 ^ 64.

(** What is left to do after [d] was printed. *)
Definition to_do (d f' ap : list Z) : Prop :=
  exists rest, render str f' ap = Some rest /\ l = d ++ rest /\ Forall (fun p => unwritten out sz s N p (str p)) (strings f' ap).

Definition format_at (k : nat) (x : Z * Z * list Z) (s' : kst) : Prop :=
  exists m d f1 f2 ap, s' = set_mem m s /\ f = f1 ++ f2 /\ k = length f2 /\ x = (Z.of_nat (length f1), Z.of_nat (length d), ap) /\
    printed (k_mem s) m out sz d /\ to_do d f2 ap.

Lemma format_char m d f1 f2 : printed (k_mem s) m out sz d -> (length d <= N)%nat -> f = f1 ++ f2 ->
  load 1 m (fmt + Z.of_nat (length f1)) = nth 0 f2 0.
Proof.
  intros Hd HN Ef. rewrite (unwritten_char out sz s N m d fmt f) by first [done | rewrite Ef, length_app; lia].
  rewrite Ef, app_nth2, Nat.sub_diag by lia. by destruct f2.
Qed.

(** One character of the format that is no percent sign. *)
Lemma plain_wp m d f1 c f2 ap (Q : Z -> kst -> Prop) : printed (k_mem s) m out sz d -> f = f1 ++ c :: f2 -> to_do d (c :: f2) ap -> c <> chr "%" ->
  (forall m', printed (k_mem s) m' out sz (d ++ [c]) -> to_do (d ++ [c]) f2 ap -> Q (Z.of_nat (length (d ++ [c]))) (set_mem m' s)) ->
  wp (emit out sz (Z.of_nat (length d)) (load8 (fmt + Z.of_nat (length f1)))) Q (set_mem m s).
Proof.
  intros Hd Ef (rest & Hr & El & Hs) Hc HQ. cbn [render strings] in Hr, Hs. rewrite (proj2 (Z.eqb_neq c _)) in Hr, Hs by done. cbn [negb] in Hr, Hs.
  destruct (render str f2 ap) as [rest'|] eqn:Hr'; [|done]. injection Hr as <-.
  assert (HN : length l = (length d + S (length rest'))%nat) by (rewrite El, length_app; done).
  apply (emit_wp out sz s m d c); [done|lia| | |].
  - destruct Hfmt as (Hcs & _). pose proof (cstr_bytes s _ _ Hcs) as Hb. rewrite Forall_forall in Hb. apply Hb. rewrite Ef. eauto with inlist.
  - unfold load8, gets. cbn [k_mem set_mem]. by rewrite (format_char m d f1 (c :: f2)) by (done || lia).
  - intros m' Hd'. apply HQ; [done|]. exists rest'. split; [done|]. split; [by rewrite <- app_assoc|done].
Qed.

(** A percent sign and the character after it. *)
Lemma percent_wp m d f1 c f2 ap (Q : Z * list Z -> kst -> Prop) : printed (k_mem s) m out sz d -> f = f1 ++ chr "%" :: c :: f2 -> to_do d (chr "%" :: c :: f2) ap ->
  (forall m' d' ap', printed (k_mem s) m' out sz d' -> to_do d' f2 ap' -> Q (Z.of_nat (length d'), ap') (set_mem m' s)) ->
  wp (convert out sz c (Z.of_nat (length d)) ap) Q (set_mem m s).
Proof.
  intros Hd Ef (rest & Hr & El & Hs) HQ. cbn [render strings] in Hr, Hs. rewrite Z.eqb_refl in Hr, Hs. cbn [negb] in Hr, Hs.
  destruct (Z.eqb_spec c (chr "%")) as [->|Hp].
  { destruct (render str f2 ap) as [rest'|] eqn:Hr'; [|done]. injection Hr as <-. change (takes_arg (chr "%")) with false in Hs.
    assert (HN : length l = (length d + S (length rest'))%nat) by (rewrite El, length_app; done).
    unfold convert. rewrite Z.eqb_refl. apply wp_bind, (emit_wp out sz s m d (chr "%")); [done|lia|by split|done|]. intros m' Hd'. apply wp_ret, HQ; [done|].
    exists rest'. split; [done|]. split; [by rewrite <- app_assoc|done]. }
  destruct (takes_arg c) eqn:Ht.
  - destruct ap as [|v ap]; [done|]. destruct (render str f2 ap) as [rest'|] eqn:Hr'; [|done]. injection Hr as <-.
    assert (HN : length l = (length (d ++ conv_text str c (u64 v)) + length rest')%nat) by (rewrite El, !length_app; lia).
    apply (convert_wp out sz s N str m d c v ap); [done|done| |lia|lia|].
    + intros -> Hn. rewrite Z.eqb_refl, (proj2 (Z.eqb_neq _ _)) in Hs by done. by apply Forall_inv in Hs.
    + intros m' Hd'. apply HQ; [done|]. exists rest'. split; [done|]. split; [by rewrite <- app_assoc|].
      destruct (_ && _) in Hs; [by apply Forall_inv_tail in Hs|done].
  - assert (E : convert out sz c (Z.of_nat (length d)) ap = mret (Z.of_nat (length d), ap)).
    { unfold convert. rewrite (proj2 (Z.eqb_neq c _)) by done. unfold takes_arg in Ht. cbn [existsb chars list_ascii_of_string fmap list_fmap] in Ht.
      repeat apply orb_false_elim in Ht as [-> Ht]. done. }
    rewrite E. apply wp_ret. apply HQ; [done|]. by exists rest.
Qed.

Lemma format_wp ap (Q : Z -> kst -> Prop) : render str f ap = Some l -> Forall (fun p => unwritten out sz s N p (str p)) (strings f ap) ->
  (forall m, printed (k_mem s) m out sz l -> Q (Z.of_nat N) (set_mem m s)) ->
  wp (while (0, 0, ap) (format_step out sz fmt)) Q s.
Proof using Hfmt Hl.
  intros Hr Hs HQ. apply (wp_loop format_at (length f)); [|destruct Hfmt as (_ & ? & _); lia|].
  { exists (k_mem s), [], [], f, ap. rewrite set_mem_id. split; [done|]. split; [done|]. split; [done|]. split; [done|].
    split; [apply printed_nil|]. by exists l. }
  intros k x s' (m & d & f1 & f2 & ap' & -> & Ef & -> & -> & Hd & Hdo). unfold format_step. pose proof Hdo as (rest & Hr' & El & _).
  assert (HN : (length d <= N)%nat) by (rewrite El, length_app; lia). pose proof Hfmt as (Hcs & Hflen & _).
  apply wp_bind, wp_gets. cbn [k_mem set_mem]. rewrite (format_char m d f1 f2) by done. rewrite Ef, length_app in Hflen. destruct f2 as [|c f2].
  { cbn [nth Z.eqb]. injection Hr' as <-. rewrite app_nil_r in El. subst d. by apply wp_ret, HQ. }
  assert (Hc0 : c <> 0) by (destruct Hcs as [Hn _]; rewrite Forall_forall in Hn; apply Hn; rewrite Ef; eauto with inlist).
  cbn [nth length] in *. rewrite (proj2 (Z.eqb_neq c 0)) by done. rewrite u64_id by lia. destruct (Z.eqb_spec c (chr "%")) as [->|Hp]; cbn [negb].
  - cbn [render] in Hr'. rewrite Z.eqb_refl in Hr'. cbn [negb] in Hr'. destruct f2 as [|c f2]; [done|].
    replace (Z.of_nat (length f1) + 1) with (Z.of_nat (length (f1 ++ [chr "%"]))) by (rewrite length_app; cbn; lia).
    apply wp_bind, wp_gets. cbn [k_mem set_mem]. rewrite (format_char m d (f1 ++ [chr "%"]) (c :: f2)) by (rewrite <- ?app_assoc; done).
    cbn [nth length] in *. apply wp_bind, (percent_wp m d f1 c f2); [done|done|done|]. intros m' d' ap'' Hd' Hdo'. cbn [fst snd]. apply wp_ret.
    exists (length f2). split; [lia|]. rewrite length_app. cbn [length]. rewrite u64_id by lia. exists m', d', (f1 ++ [chr "%"; c]), f2, ap''.
    split; [done|]. split; [by rewrite <- app_assoc|]. split; [done|]. rewrite length_app. cbn [length]. split; [repeat f_equal; lia|done].
  - apply wp_bind, (plain_wp m d f1 c f2 ap'); [done|done|done|done|]. intros m' Hd' Hdo'. apply wp_ret.
    exists (length f2). split; [lia|]. exists m', (d ++ [c]), (f1 ++ [c]), f2, ap'. split; [done|]. split; [by rewrite <- app_assoc|]. split; [done|].
    rewrite (length_app f1). cbn [length]. split; [repeat f_equal; lia|done].
Qed.
End format.

(** ** The result *)

(** [l] is in the buffer of [sz] bytes at [out], cut to [sz - 1] characters and ended by NUL;
    nothing else is written, and nothing at all without a buffer. *)
Definition delivered (out sz : Z) (l : list Z) (m m' : mem) : Prop :=
  if (out =? NULL) || (sz =? 0) then agree (fun _ => True) m m' else
  let k := Z.min (Z.of_nat (length l)) (sz - 1) in
  agree (fun x => ~ within out (k + 1) x) m m' /\
  (forall i, Z.of_nat i < k -> mget m' (out + Z.of_nat i) = nth i l 0) /\ mget m' (out + k) = 0.

Lemma kvsnprintf_wp str out sz fmt f ap l s : 0 <= sz < 2 ^ 64 -> render str f ap = Some l -> Z.of_nat (length l) + 1 < 2 ^ 64 ->
  unwritten out sz s (length l) fmt f -> Forall (fun p => unwritten out sz s (length l) p (str p)) (strings f ap) ->
  wp (kvsnprintf out sz fmt ap) (fun r s' => r = signed 32 (Z.of_nat (length l)) /\ exists m, s' = set_mem m s /\ delivered out sz l (k_mem s) m) s.
Proof.
  intros Hsz Hr Hl Hfmt Hs.
  unfold kvsnprintf. apply wp_bind, (format_wp out sz s str fmt f l Hfmt Hl ap); [done|done|]. intros m [Hag Hd]. unfold delivered, shown in *.
  destruct (Z.eqb_spec out NULL) as [->|Hout]; cbn [negb orb andb] in *.
  { apply wp_bind, wp_ret, wp_ret. split; [done|]. exists m. split; [done|]. eapply agree_mono; [|exact Hag]. unfold within. lia. }
  destruct (Z.eqb_spec sz 0) as [->|Hz]; cbn [negb when].
  { apply wp_bind, wp_ret, wp_ret. split; [done|]. exists m. split; [done|]. eapply agree_mono; [|exact Hag]. unfold within. lia. }
  apply wp_bind, wp_modify, wp_ret. split; [done|]. rewrite Z.max_r in Hag, Hd by lia. set (k := Z.min (Z.of_nat (length l)) (sz - 1)) in *. cbn [k_mem set_mem].
  assert (E : (if Z.of_nat (length l) <? sz - 1 then Z.of_nat (length l) else sz - 1) = k) by (unfold k; destruct (Z.ltb_spec (Z.of_nat (length l)) (sz - 1)); lia).
  rewrite E. exists (store 1 m (out + k) 0). split; [done|]. split; [|split].
  - intros x Hx. rewrite store1. unfold within in *. rewrite (proj2 (Z.eqb_neq x _)) by lia. apply Hag. lia.
  - intros i Hi. rewrite store1, (proj2 (Z.eqb_neq _ _)) by lia. by apply Hd.
  - by rewrite store1, Z.eqb_refl.
Qed.

(** C28: [kvsnprintf] puts the text of its format into the buffer, cut to the buffer's size,
    and returns the length of the whole text as an [int].  The strings it reads end in
    NUL and lie outside the characters it writes. *)
Theorem kvsnprintf_correct str out sz fmt f ap l s : 0 <= sz < 2 ^ 64 -> render str f ap = Some l -> Z.of_nat (length l) + 1 < 2 ^ 64 ->
  unwritten out sz s (length l) fmt f -> Forall (fun p => unwritten out sz s (length l) p (str p)) (strings f ap) ->
  exists m, kvsnprintf out sz fmt ap s = Done (signed 32 (Z.of_nat (length l))) (set_mem m s) /\ delivered out sz l (k_mem s) m.
Proof.
  intros Hsz Hr Hl Hfmt Hs. destruct (wp_Done _ _ _ (kvsnprintf_wp str out sz fmt f ap l s Hsz Hr Hl Hfmt Hs)) as (r & s' & Hrun & -> & m & -> & H). by exists m.
Qed.

(** "n=%d %s" in memory at 0x1000, "ok" at 0x1010. *)
Fixpoint store_chars (m : mem) (a : Z) (l : list Z) : mem :=
  match l with [] => m | c :: l => store_chars (store 1 m a c) (a + 1) l end.
Definition demo_text : kst :=
  set_mem (store_chars (store_chars ∅ 0x1000 (chars "n=%d %s")) 0x1010 (chars "ok")) boot_state.
Definition demo_str (p : Z) : list Z := chars "ok".

Lemma demo_cstr : cstr (k_mem demo_text) 0x1000 (chars "n=%d %s") /\ cstr (k_mem demo_text) 0x1010 (chars "ok").
Proof.
  split; (split; [by repeat (constructor; [discriminate|])|]); intros i Hi; cbn in Hi; do 8 (destruct i as [|i]; [vm_compute; reflexivity|]); lia.
Qed.

Lemma kvsnprintf_correct_witness : exists m, kvsnprintf 0x2000 6 0x1000 [2 ^ 32 - 7; 0x1010] demo_text = Done 7 (set_mem m demo_text) /\
  delivered 0x2000 6 (chars "n=-7 ok") (k_mem demo_text) m.
Proof.
  apply (kvsnprintf_correct demo_str 0x2000 6 0x1000 (chars "n=%d %s") [2 ^ 32 - 7; 0x1010] (chars "n=-7 ok") demo_text); [lia|vm_compute; reflexivity|cbn; lia| |].
  - split; [apply demo_cstr|]. split; [cbn; lia|]. unfold shown, within. cbn. lia.
  - change (strings (chars "n=%d %s") [2 ^ 32 - 7; 0x1010]) with [0x1010]. constructor; [|constructor].
    split; [apply demo_cstr|]. split; [cbn; lia|]. unfold shown, within. cbn. lia.
Defined.
