(* ===== verification/Device.v ===== *)
(** The machine around the memory: port input and output, and the static variables of the
    drivers.  kernel/lib/port.c is here; the state of kernel/drivers and of the interrupt
    tables is declared here as the state of the memory components is in Machine. *)
From S2P Require Import Prelude Machine.

(** ** What the processor does to the outside *)

(** One access: a port read with its answer, a port write, or an instruction. *)
Inductive access :=
| In (width port v : Z)
| Out (width port v : Z)
| Lidt (ptr : Z)
| Lgdt (ptr : Z)
| Sti
| Cli
| Hlt.

#[export] Instance access_eq_dec : EqDecision access.
Proof. solve_decision. Defined.

(** The devices: the answer to a port read, given the accesses before it, the last first. *)
Class Hardware := response : list access -> Z -> Z -> Z.

(** ** The statics of the drivers *)

(** kernel/drivers/vga.c *)
Record vga_st := mkVga { g_vga_color : Z; g_cursor_x : Z; g_cursor_y : Z }.

(** kernel/drivers/keyboard.c; the ring is a static array of 256 characters *)
Record kbd_st := mkKbd { g_kbd_buf : list Z; g_kbd_head : Z; g_kbd_tail : Z; g_shift : Z; g_caps : Z }.

(** [idt_entry_t] and [idt_ptr_t] *)
Record idt_entry := mkGate {
  offset_low : Z;
  selector : Z;
  ist : Z;
  type_attr : Z;
  offset_mid : Z;
  offset_high : Z;
  gate_zero : Z
}.
Record idt_st := mkIdt { g_idt : list idt_entry; idt_limit : Z; idt_base : Z }.

Record dev_st := mkDev {
  d_trace : list access;
  d_vga : vga_st;
  d_kbd : kbd_st;
  d_ticks : Z;
  d_idt : idt_st
}.

Record sys := mkSys { s_k : kst; s_dev : dev_st }.

Definition set_k (k : kst) (s : sys) : sys := mkSys k (s_dev s).
Definition upd_dev (f : dev_st -> dev_st) (s : sys) : sys := mkSys (s_k s) (f (s_dev s)).
Definition put_trace (t : list access) (d : dev_st) : dev_st := mkDev t (d_vga d) (d_kbd d) (d_ticks d) (d_idt d).
Definition put_vga (v : vga_st) (d : dev_st) : dev_st := mkDev (d_trace d) v (d_kbd d) (d_ticks d) (d_idt d).
Definition put_kbd (k : kbd_st) (d : dev_st) : dev_st := mkDev (d_trace d) (d_vga d) k (d_ticks d) (d_idt d).
Definition put_ticks (n : Z) (d : dev_st) : dev_st := mkDev (d_trace d) (d_vga d) (d_kbd d) n (d_idt d).
Definition put_idt (i : idt_st) (d : dev_st) : dev_st := mkDev (d_trace d) (d_vga d) (d_kbd d) (d_ticks d) i.

Abbreviation D := (M sys).
Abbreviation trace s := (d_trace (s_dev s)).
Abbreviation smem s := (k_mem (s_k s)).

(** A component of the memory side, run inside the whole machine. *)
Definition lift {A} (c : K A) : D A := fun s =>
  match c (s_k s) with
  | Done a k => Done a (set_k k s)
  | Fault f => Fault f
  end.

Definition record (e : access) (s : sys) : sys := upd_dev (fun d => put_trace (e :: d_trace d) d) s.
Definition put_event (e : access) : D unit := modify (record e).

(** ** kernel/lib/port.c, and the instructions of kernel/arch *)

Section port.
Context `{Hardware}.

Definition port_in (width port : Z) : D Z :=
  v ← gets (fun s => response (trace s) width port mod 2 ^ width);
  put_event (In width port v) ;;
  mret v.

Definition inb (port : Z) : D Z := port_in 8 port.
Definition inw (port : Z) : D Z := port_in 16 port.
Definition inl_ (port : Z) : D Z := port_in 32 port.
End port.

Definition outb (port value : Z) : D unit := put_event (Out 8 port (u8 value)).
Definition outw (port value : Z) : D unit := put_event (Out 16 port (u16 value)).
Definition outl (port value : Z) : D unit := put_event (Out 32 port (u32 value)).
Definition io_wait : D unit := outb 0x80 0.

Definition idt_load (idt_ptr : Z) : D unit := put_event (Lidt idt_ptr).
(** The table of kernel/arch is constant: [gdt_init] returns at once, and [gdt_load] loads the
    table at its label, whatever its argument. *)
Definition gdt_init : D unit := mret tt.
Definition gdt_load (gdt64_descriptor gdt_ptr : Z) : D unit := put_event (Lgdt gdt64_descriptor).
Definition cpu_enable_interrupts : D unit := put_event Sti.
Definition cpu_disable_interrupts : D unit := put_event Cli.
Definition hlt : D unit := put_event Hlt.

(** [while (1) hlt;] *)
Definition hang {A} : D A := while tt (fun _ => hlt ;; mret (inl tt)).

(** ** Reasoning *)

Lemma wp_lift {A} (c : K A) (Q : A -> sys -> Prop) s : wp c (fun a k => Q a (set_k k s)) (s_k s) -> wp (lift c) Q s.
Proof. unfold wp, lift. by destruct (c (s_k s)). Qed.

Lemma lift_Done {A} (c : K A) a k s : c (s_k s) = Done a k -> lift c s = Done a (set_k k s).
Proof. unfold lift. by intros ->. Qed.

(** A run that only adds to the trace. *)
Definition added (l : list access) (s s' : sys) : Prop := s' = upd_dev (put_trace (rev l ++ trace s)) s.

(** A loop whose body never leaves never ends. *)
Lemma while_diverges {S X A} (I : X -> S -> Prop) (body : X -> M S (X + A)) x s :
  (forall x s, I x s -> exists x' s', body x s = Done (inl x') s' /\ I x' s') -> I x s -> while x body s = Fault Diverged.
Proof.
  intros Hb HI.
  assert (H : forall p x s, I x s -> exists x' s', rounds p body x s = Done (inl x') s' /\ I x' s').
  { induction p as [p IH|p IH|]; intros y t Hy; cbn [rounds]; [| |by apply Hb].
    - unfold mbind, M_bind. destruct (IH y t Hy) as (y1 & t1 & -> & H1). destruct (IH y1 t1 H1) as (y2 & t2 & -> & H2). by apply Hb.
    - unfold mbind, M_bind. destruct (IH y t Hy) as (y1 & t1 & -> & H1). by apply IH. }
  unfold while, mbind, M_bind. destruct (H FUEL x s HI) as (x' & s' & -> & _). done.
Qed.

Lemma hang_diverges {A} s : @hang A s = Fault Diverged.
Proof.
  unfold hang. apply (while_diverges (fun _ _ => True)); [|done]. intros [] t _. exists tt, (record Hlt t). by split.
Qed.

(** The image of the drivers' .data and .bss. *)
Definition boot_dev : dev_st :=
  mkDev [] (mkVga 7 0 0) (mkKbd (replicate 256 0) 0 0 0 0) 0 (mkIdt (replicate 256 (mkGate 0 0 0 0 0 0 0)) 0 0).
