(* ===== verification/Vga.v ===== *)
(** kernel/drivers/vga.c: the text screen.  The 80 by 25 cells are 16-bit words of the
    memory at 0xB8000; the cursor is shown through the ports of the controller. *)
From Stdlib Require Import String Ascii.
From S2P Require Import Prelude Machine KString Stdio Device.

#[local] Opaque load store.

Definition VGA_WIDTH : Z := 80.
Definition VGA_HEIGHT : Z := 25.
Definition VGA_MEMORY : Z := 0xB8000.
Definition CURSOR_CMD : Z := 0x3D4.
Definition CURSOR_DATA : Z := 0x3D5.

(** The statics. *)
Definition set_color (c : Z) (v : vga_st) : vga_st := mkVga c (g_cursor_x v) (g_cursor_y v).
Definition set_x (x : Z) (v : vga_st) : vga_st := mkVga (g_vga_color v) x (g_cursor_y v).
Definition set_y (y : Z) (v : vga_st) : vga_st := mkVga (g_vga_color v) (g_cursor_x v) y.
Definition get_vga (f : vga_st -> Z) : D Z := gets (fun s => f (d_vga (s_dev s))).
Definition put_to (f : Z -> vga_st -> vga_st) (v : Z) : D unit := modify (upd_dev (fun d => put_vga (f v (d_vga d)) d)).

(** [g_vga_buffer[i]] *)
Definition cell_get (i : Z) : D Z := lift (load16 (VGA_MEMORY + 2 * i)).
Definition cell_put (i v : Z) : D unit := lift (store16 (VGA_MEMORY + 2 * i) v).

(** [char] is signed: [c] is its byte. *)
Definition vga_entry (c color : Z) : Z := Z.lor (u16 (signed 8 c)) (u16 (Z.shiftl color 8)).

Definition vga_move_cursor : D unit :=
  y ← get_vga g_cursor_y;
  x ← get_vga g_cursor_x;
  let pos := u16 (y * VGA_WIDTH + x) in
  outb CURSOR_CMD 0x0F ;;
  outb CURSOR_DATA (u8 (Z.land pos 0xFF)) ;;
  outb CURSOR_CMD 0x0E ;;
  outb CURSOR_DATA (u8 (Z.land (Z.shiftr pos 8) 0xFF)).

Definition vga_clear : D unit :=
  for_range 0 VGA_HEIGHT (fun y =>
    for_range 0 VGA_WIDTH (fun x =>
      color ← get_vga g_vga_color;
      cell_put (y * VGA_WIDTH + x) (vga_entry (chr " ") color))) ;;
  put_to set_x 0 ;;
  put_to set_y 0 ;;
  vga_move_cursor.

Definition vga_init : D unit :=
  put_to set_x 0 ;;
  put_to set_y 0 ;;
  put_to set_color 0x07 ;;
  vga_clear.

Definition vga_set_color (foreground background : Z) : D unit :=
  put_to set_color (u8 (Z.lor (Z.shiftl background 4) (Z.land foreground 0x0F))).

Definition vga_scroll : D unit :=
  y ← get_vga g_cursor_y;
  if y <? VGA_HEIGHT then mret tt else
  for_range 1 VGA_HEIGHT (fun y =>
    for_range 0 VGA_WIDTH (fun x =>
      v ← cell_get (y * VGA_WIDTH + x);
      cell_put ((y - 1) * VGA_WIDTH + x) v)) ;;
  for_range 0 VGA_WIDTH (fun x =>
    color ← get_vga g_vga_color;
    cell_put ((VGA_HEIGHT - 1) * VGA_WIDTH + x) (vga_entry (chr " ") color)) ;;
  put_to set_y (VGA_HEIGHT - 1).

Definition newline : Z := 10.
Definition carriage_return : Z := 13.
Definition tab : Z := 9.

Definition vga_putchar (c : Z) : D unit :=
  (if c =? newline then
     put_to set_x 0 ;;
     y ← get_vga g_cursor_y;
     put_to set_y (u8 (y + 1))
   else if c =? carriage_return then put_to set_x 0
   else if c =? tab then
     x ← get_vga g_cursor_x;
     put_to set_x (u8 (Z.land (x + 8) (Z.lnot 7)))
   else
     y ← get_vga g_cursor_y;
     x ← get_vga g_cursor_x;
     color ← get_vga g_vga_color;
     cell_put (y * VGA_WIDTH + x) (vga_entry c color) ;;
     put_to set_x (u8 (x + 1)) ;;
     x ← get_vga g_cursor_x;
     when (VGA_WIDTH <=? x)
       (put_to set_x 0 ;;
        y ← get_vga g_cursor_y;
        put_to set_y (u8 (y + 1)))) ;;
  vga_scroll ;;
  vga_move_cursor.

(** [while ( *str ) vga_putchar( *str++ )] *)
Definition write_step (put : Z -> D unit) (str : Z) : D (Z + unit) :=
  c ← lift (load8 str);
  if c =? 0 then mret (inr tt) else
  c ← lift (load8 str);
  put c ;;
  mret (inl (str + 1)).

Definition vga_write (str : Z) : D unit :=
  if str =? NULL then mret tt else while str (write_step vga_putchar).

Definition vga_set_cursor (x y : Z) : D unit :=
  let x := if VGA_WIDTH <=? x then VGA_WIDTH - 1 else x in
  let y := if VGA_HEIGHT <=? y then VGA_HEIGHT - 1 else y in
  put_to set_x x ;;
  put_to set_y y ;;
  vga_move_cursor.
