(* ===== verification/VgaProps.v ===== *)
(** The screen of kernel/drivers/vga.c as a grid of cells with a cursor. *)
From Stdlib Require Import String Ascii.
From S2P Require Import Prelude Machine KString Stdio StdioProps StdioFormat Device Vga.

#[local] Opaque load store.

(** ** The abstract screen *)

(** Its cells row by row, the column and the row of the cursor. *)
Abbreviation screen := (list Z * Z * Z)%type.

Definition blank (color : Z) : Z := vga_entry (chr " ") color.

(** The cursor below the last line: the first line goes, a blank one comes. *)
Definition scrolled (color : Z) (cells : list Z) (x y : Z) : screen :=
  if y <? 25 then (cells, x, y) else (drop 80 cells ++ replicate 80 (blank color), x, 24).

Definition screen_put (color c : Z) (sc : screen) : screen :=
  let '(cells, x, y) := sc in
  if c =? newline then scrolled color cells 0 (y + 1) else
  if c =? carriage_return then scrolled color cells 0 y else
  if c =? tab then scrolled color cells (Z.land (x + 8) (Z.lnot 7)) y else
  let cells := <[Z.to_nat (y * 80 + x) := vga_entry c color]> cells in
  if x + 1 <? 80 then scrolled color cells (x + 1) y else scrolled color cells 0 (y + 1).

(** ** The memory behind it *)

Definition cell_addr (i : Z) : Z := VGA_MEMORY + 2 * i.
Definition holds (m : mem) (cells : list Z) : Prop :=
  length cells = 2000%nat /\ forall i, 0 <= i < 2000 -> load 2 m (cell_addr i) = nth (Z.to_nat i) cells 0.

(** The bytes of the screen. *)
Definition vram (x : Z) : Prop := within VGA_MEMORY 4000 x.

Lemma vga_entry_bound c color : 0 <= vga_entry c color < 2 ^ 16.
Proof.
  unfold vga_entry. pose proof (u16_bound (signed 8 c)). pose proof (u16_bound (Z.shiftl color 8)). split; [apply Z.lor_nonneg; lia|].
  destruct (Z.eq_dec (Z.lor (u16 (signed 8 c)) (u16 (Z.shiftl color 8))) 0) as [->|Hn]; [done|].
  apply Z.log2_lt_pow2; [pose proof (proj2 (Z.lor_nonneg (u16 (signed 8 c)) (u16 (Z.shiftl color 8))) ltac:(lia)); lia|].
  rewrite Z.log2_lor by lia. apply Z.max_lub_lt.
  - destruct (Z.eq_dec (u16 (signed 8 c)) 0) as [->|]; [done|]. apply Z.log2_lt_pow2; lia.
  - destruct (Z.eq_dec (u16 (Z.shiftl color 8)) 0) as [->|]; [done|]. apply Z.log2_lt_pow2; lia.
Qed.

Lemma holds_put m cells i v : 0 <= i < 2000 -> 0 <= v < 2 ^ 16 -> holds m cells -> holds (store 2 m (cell_addr i) v) (<[Z.to_nat i := v]> cells).
Proof.
  intros Hi Hv [Hl Hc]. split; [by rewrite length_insert|]. intros j Hj. unfold cell_addr in *. destruct (Z.eq_dec j i) as [->|Hne].
  - rewrite load_store_eq. change (8 * Z.of_nat 2) with 16. rewrite Z.mod_small by lia. rewrite nth_lookup, list_lookup_insert_eq by lia. done.
  - rewrite load_store_ne by lia. rewrite Hc by done. rewrite !nth_lookup, list_lookup_insert_ne by lia. done.
Qed.

(** Only the screen, the cursor and the trace change, and the trace only by cursor accesses. *)
Definition cursor_access (e : access) : Prop := exists w p v, e = Out w p v /\ (p = CURSOR_CMD \/ p = CURSOR_DATA).
Definition moved (P : Z -> Prop) (s s' : sys) : Prop :=
  (exists m, s_k s' = set_mem m (s_k s) /\ agree (fun x => ~ P x) (smem s) m) /\
  (exists l, s_dev s' = put_trace (l ++ trace s) (put_vga (d_vga (s_dev s')) (s_dev s)) /\ Forall cursor_access l).

#[export] Instance moved_preorder P : PreOrder (moved P).
Proof.
  split.
  - intros s. split; [exists (smem s); by rewrite set_mem_id|]. exists []. split; [by destruct s as [k []]|done].
  - intros s1 s2 s3 [(m1 & K1 & A1) (l1 & E1 & F1)] [(m2 & K2 & A2) (l2 & E2 & F2)]. split.
    + exists m2. rewrite K2, K1 in *. split; [done|]. etrans; [exact A1|]. exact A2.
    + exists (l2 ++ l1). split; [|by apply Forall_app]. rewrite E2, E1. cbn. by rewrite app_assoc.
Qed.

Lemma moved_mono (P P' : Z -> Prop) s s' : (forall x, P x -> P' x) -> moved P s s' -> moved P' s s'.
Proof. intros H [(m & K & A) T]. split; [|done]. exists m. split; [done|]. eapply agree_mono; [|exact A]. intros x Hx HP. by apply Hx, H. Qed.

Definition with_mem (m : mem) (s : sys) : sys := set_k (set_mem m (s_k s)) s.

Lemma moved_mem P s m : agree (fun x => ~ P x) (smem s) m -> moved P s (with_mem m s).
Proof. intros H. split; [by exists m|]. exists []. split; [by destruct s as [k []]|done]. Qed.

Lemma moved_vga P s v : moved P s (upd_dev (put_vga v) s).
Proof. split; [exists (smem s); split; [by destruct s as [[]]|done]|]. exists []. by split. Qed.

(** ** The operations *)

Lemma cell_put_wp i v s (Q : unit -> sys -> Prop) : Q tt (with_mem (store 2 (smem s) (cell_addr i) v) s) -> wp (cell_put i v) Q s.
Proof. intros H. apply wp_lift, wp_modify. exact H. Qed.

Lemma cell_get_wp i s (Q : Z -> sys -> Prop) : Q (load 2 (smem s) (cell_addr i)) s -> wp (cell_get i) Q s.
Proof. intros H. apply wp_lift, wp_gets. by destruct s. Qed.

(** ** The cursor of the display controller

    A write to the command port selects a register; 0x0E and 0x0F are the high and the low byte
    of the position at which the cursor blinks. *)

Record crtc := mkCrtc { crt_index : Z; crt_high : Z; crt_low : Z }.

Definition crtc_step (e : access) (c : crtc) : crtc :=
  match e with
  | Out _ p v =>
      if p =? CURSOR_CMD then mkCrtc v (crt_high c) (crt_low c) else
      if p =? CURSOR_DATA then
        if crt_index c =? 0x0E then mkCrtc (crt_index c) v (crt_low c) else
        if crt_index c =? 0x0F then mkCrtc (crt_index c) (crt_high c) v else c
      else c
  | _ => c
  end.

Definition crtc_after (c : crtc) (t : list access) : crtc := foldr crtc_step c t.

(** The cursor blinks where the driver prints next, whatever the controller held at first. *)
Definition cursor_shown (s : sys) : Prop :=
  forall c0, let c := crtc_after c0 (trace s) in
    crt_high c * 256 + crt_low c = g_cursor_y (d_vga (s_dev s)) * 80 + g_cursor_x (d_vga (s_dev s)).

Lemma cursor_bytes p : 0 <= p < 2 ^ 16 -> u8 (u8 (Z.land (Z.shiftr (u16 p) 8) 0xFF)) * 256 + u8 (u8 (Z.land (u16 p) 0xFF)) = p.
Proof.
  intros Hp. rewrite (u16_id p) by done. change 0xFF with (Z.ones 8). rewrite !Z.land_ones, Z.shiftr_div_pow2 by lia.
  change (2 ^ 8) with 256. pose proof (Z.div_mod p 256 ltac:(lia)). pose proof (Z.mod_pos_bound p 256 ltac:(lia)).
  assert (0 <= p / 256 < 256) by (split; [apply Z.div_pos; lia|apply Z.div_lt_upper_bound; lia]). rewrite (Z.mod_small (p / 256)) by done. rewrite !(u8_id (p / 256)), !(u8_id (p mod 256)) by lia. lia.
Qed.

Lemma cursor_wp s (Q : unit -> sys -> Prop) : 0 <= g_cursor_y (d_vga (s_dev s)) * 80 + g_cursor_x (d_vga (s_dev s)) < 2 ^ 16 ->
  (forall s', s_k s' = s_k s -> d_vga (s_dev s') = d_vga (s_dev s) -> moved (fun _ => False) s s' -> cursor_shown s' -> Q tt s') -> wp vga_move_cursor Q s.
Proof.
  intros Hp HQ. unfold vga_move_cursor. apply wp_bind, wp_gets, wp_bind, wp_gets. cbv zeta.
  do 3 apply wp_bind, wp_modify. apply wp_modify. apply HQ; [done|done| |].
  - split; [exists (smem s); split; [by destruct s as [[]]|done]|].
    eexists [_; _; _; _]. split; [by destruct s as [k []]|]. repeat (constructor; [eexists _, _, _; split; [reflexivity|by (left + right)]|]). constructor.
  - intros c0. exact (cursor_bytes _ Hp).
Qed.

(** A loop over the rows [lo <= y < hi] and the columns, cell after cell. *)
Lemma wp_grid (J : Z -> sys -> Prop) lo hi (body : Z -> Z -> D unit) (Q : unit -> sys -> Prop) s : lo <= hi -> J 0 s ->
  (forall y x s, lo <= y < hi -> 0 <= x < 80 -> J ((y - lo) * 80 + x) s -> wp (body y x) (fun _ s' => J ((y - lo) * 80 + x + 1) s') s) ->
  (forall s, J ((hi - lo) * 80) s -> Q tt s) ->
  wp (for_range lo hi (fun y => for_range 0 80 (fun x => body y x))) Q s.
Proof.
  intros Hle H0 Hb HQ. apply (wp_for_range (fun y => J ((y - lo) * 80))); [done|by rewrite Z.sub_diag| |exact HQ].
  intros y s1 Hy H1. apply (wp_for_range (fun x => J ((y - lo) * 80 + x))); [lia|by rewrite Z.add_0_r| |].
  - intros x s2 Hx H2. rewrite Z.add_assoc. by apply Hb.
  - intros s2 H2. by replace ((y + 1 - lo) * 80) with ((y - lo) * 80 + 80) by lia.
Qed.

(** The state of the screen's memory during a loop over cells. *)
Definition at_cells (s : sys) (cells : list Z) (s' : sys) : Prop :=
  exists m, s' = with_mem m s /\ agree (fun x => ~ vram x) (smem s) m /\ holds m cells.

Lemma at_cells_put s cells i v s' (Q : unit -> sys -> Prop) : at_cells s cells s' -> 0 <= i < 2000 -> 0 <= v < 2 ^ 16 ->
  (forall s'', at_cells s (<[Z.to_nat i := v]> cells) s'' -> Q tt s'') -> wp (cell_put i v) Q s'.
Proof.
  intros (m & -> & Hag & Hh) Hi Hv HQ. apply cell_put_wp, HQ. exists (store 2 m (cell_addr i) v). split; [done|]. split; [|by apply holds_put].
  intros x Hx. rewrite mget_store_out; [by apply Hag|]. unfold vram, cell_addr, within in *. change (Z.of_nat 2) with 2. lia.
Qed.

Lemma at_cells_get s cells i s' (Q : Z -> sys -> Prop) : at_cells s cells s' -> 0 <= i < 2000 -> Q (nth (Z.to_nat i) cells 0) s' -> wp (cell_get i) Q s'.
Proof. intros (m & -> & _ & [_ Hh]) Hi HQ. apply cell_get_wp. cbn. by rewrite Hh. Qed.

Lemma at_cells_start s cells : holds (smem s) cells -> at_cells s cells s.
Proof. intros H. exists (smem s). split; [by destruct s as [[]]|done]. Qed.

Lemma at_cells_color s cells s' : at_cells s cells s' -> d_vga (s_dev s') = d_vga (s_dev s).
Proof. by intros (m & -> & _). Qed.

(** Moving the lines up, one cell at a time. *)
Lemma shift_insert (l : list Z) i : (i + 80 < length l)%nat ->
  <[i := nth (i + 80) l 0]> (take i (drop 80 l) ++ drop i l) = take (S i) (drop 80 l) ++ drop (S i) l.
Proof.
  intros Hi. destruct (lookup_lt_is_Some_2 l (i + 80) ltac:(lia)) as [v Hv]. rewrite nth_lookup, Hv. cbn [default].
  assert (Hlen : length (take i (drop 80 l)) = i) by (rewrite length_take, length_drop; lia).
  rewrite insert_app_r_alt by lia. rewrite Hlen, Nat.sub_diag.
  destruct (lookup_lt_is_Some_2 l i ltac:(lia)) as [w Hw]. rewrite (drop_S l w i) by done. cbn.
  rewrite (take_S_r _ _ v) by (rewrite lookup_drop; by rewrite Nat.add_comm). by rewrite <- app_assoc.
Qed.

(** Blanking the last line, one cell at a time. *)
Lemma fill_insert (l : list Z) v k : (1920 + k < length l)%nat -> length l = 2000%nat ->
  <[(1920 + k)%nat := v]> (take 1920 l ++ replicate k v ++ drop (1920 + k) l) = take 1920 l ++ replicate (S k) v ++ drop (1920 + S k) l.
Proof.
  intros Hk Hl. rewrite insert_app_r_alt by (rewrite length_take; lia). rewrite length_take, Hl, Nat.min_l by lia.
  replace (1920 + k - 1920)%nat with k by lia. f_equal. rewrite insert_app_r_alt by (rewrite length_replicate; lia). rewrite length_replicate, Nat.sub_diag.
  destruct (lookup_lt_is_Some_2 l (1920 + k) ltac:(lia)) as [w Hw]. rewrite (drop_S l w (1920 + k)) by done. cbn [list_insert insert].
  rewrite replicate_S_end, <- app_assoc. by replace (1920 + S k)%nat with (S (1920 + k)) by lia.
Qed.

Abbreviation color s := (g_vga_color (d_vga (s_dev s))).

Definition shows (s : sys) (sc : screen) : Prop :=
  holds (smem s) sc.1.1 /\ g_cursor_x (d_vga (s_dev s)) = sc.1.2 /\ g_cursor_y (d_vga (s_dev s)) = sc.2.

(** The screen is [sc] now and nothing else changed. *)
Definition redrawn (s : sys) (sc : screen) (s' : sys) : Prop := shows s' sc /\ moved vram s s' /\ color s' = color s.

Lemma at_cells_moved s cells s' : at_cells s cells s' -> moved vram s s'.
Proof. intros (m & -> & Hag & _). by apply moved_mem. Qed.

Lemma scroll_wp s cells x y (Q : unit -> sys -> Prop) : shows s (cells, x, y) ->
  (forall s', redrawn s (scrolled (color s) cells x y) s' -> Q tt s') -> wp vga_scroll Q s.
Proof.
  intros (Hh & Hx & Hy) HQ. cbn [fst snd] in *. unfold vga_scroll. apply wp_bind, wp_gets. rewrite Hy. unfold scrolled in HQ. change VGA_HEIGHT with 25. change VGA_WIDTH with 80.
  destruct (Z.ltb_spec y 25) as [Hlt|Hge]; [apply wp_ret, HQ; split; [by split|done]|]. pose proof Hh as [Hlen _].
  assert (Hd : length (drop 80 cells) = 1920%nat) by (rewrite length_drop; lia).
  apply wp_bind, (wp_grid (fun i => at_cells s (take (Z.to_nat i) (drop 80 cells) ++ drop (Z.to_nat i) cells))); [lia|by apply at_cells_start| |].
  - intros r c s1 Hr Hc H1. set (i := (r - 1) * 80 + c) in *. apply wp_bind, (at_cells_get s _ (r * 80 + c) s1 _ H1); [lia|].
    assert (E : nth (Z.to_nat (r * 80 + c)) (take (Z.to_nat i) (drop 80 cells) ++ drop (Z.to_nat i) cells) 0 = nth (Z.to_nat i + 80) cells 0).
    { rewrite !nth_lookup, lookup_app_r by (rewrite length_take; lia). rewrite length_take, Hd, Nat.min_l by lia. rewrite lookup_drop. f_equal. f_equal. lia. }
    rewrite E. fold i. apply (at_cells_put s _ _ _ s1 _ H1); [lia| |].
    { destruct Hh as [_ Hcells]. replace (Z.to_nat i + 80)%nat with (Z.to_nat (i + 80)) by lia. rewrite <- Hcells by lia. apply (load_bound 2). }
    intros s2 H2. rewrite shift_insert in H2 by lia. by replace (Z.to_nat (i + 1)) with (S (Z.to_nat i)) by lia.
  - intros s1 H1. change (Z.to_nat ((25 - 1) * 80)) with 1920%nat in H1. set (l := take 1920 (drop 80 cells) ++ drop 1920 cells) in *.
    assert (Hll : length l = 2000%nat) by (unfold l; rewrite length_app, length_take, !length_drop; lia).
    assert (Ht : take 1920 l = drop 80 cells).
    { unfold l. rewrite take_app_le by (rewrite length_take; lia). rewrite take_take. by rewrite take_ge by lia. }
    apply wp_bind, (wp_for_range (fun x => at_cells s (take 1920 l ++ replicate (Z.to_nat x) (blank (color s)) ++ drop (1920 + Z.to_nat x) l))); [lia| | |].
    + change (Z.to_nat 0) with 0%nat. rewrite Nat.add_0_r. change (replicate 0 (blank (color s))) with (@nil Z). rewrite app_nil_l, take_drop. exact H1.
    + intros c s2 Hc H2. apply wp_bind, wp_gets. rewrite (at_cells_color _ _ _ H2). replace ((25 - 1) * 80 + c) with (1920 + c) by lia.
      apply (at_cells_put s _ _ _ s2 _ H2); [lia|apply vga_entry_bound|]. intros s3 H3. replace (Z.to_nat (1920 + c)) with (1920 + Z.to_nat c)%nat in H3 by lia.
      rewrite fill_insert in H3 by lia. by replace (Z.to_nat (c + 1)) with (S (Z.to_nat c)) by lia.
    + intros s2 H2. change (Z.to_nat 80) with 80%nat in H2. rewrite Ht, (drop_ge l) in H2 by lia. rewrite app_nil_r in H2. apply wp_modify, HQ.
      pose proof (at_cells_color _ _ _ H2) as Ec. destruct H2 as (m & -> & Hag & Hm). split; [|split]; [|etrans; [by apply moved_mem|apply moved_vga]|done]. split; [exact Hm|by split].
Qed.

(** The assignments of the cursor in front of the scrolling. *)
Lemma finish_put_wp s cells x y s0 (Q : unit -> sys -> Prop) : redrawn s0 (cells, x, y) s -> 0 <= x <= 80 -> 0 <= y <= 25 ->
  (forall s', redrawn s0 (scrolled (color s0) cells x y) s' -> cursor_shown s' -> Q tt s') -> wp (vga_scroll ;; vga_move_cursor) Q s.
Proof.
  intros (Hs & Hm & Hc) Hx Hy HQ. apply wp_bind, (scroll_wp s cells x y); [done|]. intros s1 (Hs1 & Hm1 & Hc1). apply cursor_wp.
  { destruct Hs1 as (_ & -> & ->). unfold scrolled. destruct (y <? 25); cbn [fst snd]; lia. }
  intros s2 Hk Hv Hm2 Hsh. apply HQ; [|done].
  rewrite Hc in Hs1. split; [|split].
  - unfold shows in *. by rewrite Hk, Hv.
  - etrans; [exact Hm|]. etrans; [exact Hm1|]. eapply moved_mono; [|exact Hm2]. done.
  - congruence.
Qed.

Lemma redrawn_xy s cells x y x' y' : shows s (cells, x, y) -> redrawn s (cells, x', y') (upd_dev (put_vga (mkVga (color s) x' y')) s).
Proof. intros (Hh & _). split; [|split]; [|apply moved_vga|done]. by split. Qed.

Lemma tab_column x : 0 <= x < 80 -> 0 <= Z.land (x + 8) (Z.lnot 7) <= 80.
Proof.
  intros Hx. change (Z.lnot 7) with (Z.lnot (Z.ones 3)). rewrite <- Z.ldiff_land, Z.ldiff_ones_r, Z.shiftl_mul_pow2, Z.shiftr_div_pow2 by lia.
  change (2 ^ 3) with 8. pose proof (Z.div_mod (x + 8) 8 ltac:(lia)). pose proof (Z.mod_pos_bound (x + 8) 8 ltac:(lia)). lia.
Qed.

Lemma putchar_wp s c sc (Q : unit -> sys -> Prop) : shows s sc -> 0 <= sc.1.2 < 80 -> 0 <= sc.2 < 25 ->
  (forall s', redrawn s (screen_put (color s) c sc) s' -> cursor_shown s' -> Q tt s') -> wp (vga_putchar c) Q s.
Proof.
  destruct sc as [[cells x] y]. intros Hs Hxr Hyr HQ. cbn [fst snd] in *. pose proof Hs as (Hh & Hx & Hy). cbn [fst snd] in *.
  assert (Eset : forall v, upd_dev (fun d => put_vga (set_x v (d_vga d)) d) s = upd_dev (put_vga (mkVga (color s) v y)) s).
  { intros v. unfold upd_dev, set_x. by rewrite Hy. }
  unfold vga_putchar. unfold screen_put in HQ. apply wp_bind. destruct (c =? newline).
  { apply wp_bind, wp_modify, wp_bind, wp_gets, wp_modify. cbn. rewrite Hy, u8_id by lia.
    apply (finish_put_wp _ cells 0 (y + 1) s); [by apply (redrawn_xy s cells x y)|lia|lia|done]. }
  destruct (c =? carriage_return).
  { apply wp_modify. rewrite Eset. apply (finish_put_wp _ cells 0 y s); [|lia|lia|done]. by apply (redrawn_xy s cells x y). }
  destruct (c =? tab).
  { apply wp_bind, wp_gets, wp_modify. rewrite Hx. pose proof (tab_column x Hxr) as Hx'.
    rewrite u8_id by lia. set (x' := Z.land _ _) in *. rewrite Eset. apply (finish_put_wp _ cells x' y s); [|lia|lia|done]. by apply (redrawn_xy s cells x y). }
  apply wp_bind, wp_gets, wp_bind, wp_gets, wp_bind, wp_gets. rewrite Hx, Hy. change VGA_WIDTH with 80.
  apply wp_bind, (at_cells_put s cells _ _ s); [by apply at_cells_start|lia|apply vga_entry_bound|]. intros s1 H1.
  pose proof (at_cells_moved _ _ _ H1) as Hm1. pose proof (at_cells_color _ _ _ H1) as Ec. destruct H1 as (m & -> & _ & Hh1).
  set (cells1 := <[_ := _]> cells) in *. apply wp_bind, wp_modify, wp_bind, wp_gets. cbn [upd_dev s_dev with_mem set_k put_vga d_vga set_x g_cursor_x]. rewrite !u8_id by lia.
  rewrite Z.leb_antisym. destruct (x + 1 <? 80); cbn [negb when].
  - apply wp_ret. apply (finish_put_wp _ cells1 (x + 1) y s); [|lia|lia|done]. split; [|split]; [split; [exact Hh1|split; [reflexivity|exact Hy]]|etrans; [exact Hm1|apply moved_vga]|done].
  - apply wp_bind, wp_modify, wp_bind, wp_gets, wp_modify. cbn. rewrite Hy, u8_id by lia. apply (finish_put_wp _ cells1 0 (y + 1) s); [|lia|lia|done].
    split; [|split]; [split; [exact Hh1|by split]|etrans; [exact Hm1|]|done]. etrans; [apply moved_vga|]. etrans; [apply moved_vga|]. apply moved_vga.
Qed.

(** ** Strings *)

(** The loop over the characters of a string, for [vga_write] and [serial_write_string];
    what is printed does not disturb the string. *)
Lemma write_wp put (I : list Z -> sys -> Prop) str l s (Q : unit -> sys -> Prop) : cstr (smem s) str l -> Z.of_nat (length l) < 2 ^ 64 ->
  I [] s -> (forall d s', I d s' -> agree (within str (Z.of_nat (length l) + 1)) (smem s) (smem s')) ->
  (forall d c s', c ∈ l -> I d s' -> wp (put c) (fun _ => I (d ++ [c])) s') ->
  (forall s', I l s' -> Q tt s') -> wp (while str (write_step put)) Q s.
Proof.
  intros Hc Hlen H0 Hag Hput HQ.
  apply (wp_loop (fun k x s' => exists d r, l = d ++ r /\ k = length r /\ x = str + Z.of_nat (length d) /\ I d s') (length l)); [|done|].
  { exists [], l. split; [done|]. split; [done|]. split; [cbn; lia|done]. }
  intros k x s1 (d & r & -> & -> & -> & HI). unfold write_step. pose proof (Hag d s1 HI) as Ha. rewrite length_app in *.
  assert (Hch : load 1 (smem s1) (str + Z.of_nat (length d)) = nth 0 r 0).
  { rewrite load1, Ha by (unfold within; lia). rewrite (cstr_char _ _ _ _ Hc) by (rewrite length_app; lia). rewrite app_nth2, Nat.sub_diag by lia. by destruct r. }
  apply wp_bind, wp_lift, wp_gets. rewrite Hch. destruct r as [|c r].
  { cbn [nth Z.eqb]. apply wp_ret. rewrite app_nil_r in HQ. replace (set_k (s_k s1) s1) with s1 by (by destruct s1). by apply HQ. }
  assert (Hc0 : c <> 0) by (destruct Hc as [Hn _]; rewrite Forall_forall in Hn; apply Hn; eauto with inlist).
  cbn [nth] in *. rewrite (proj2 (Z.eqb_neq c 0)) by done. apply wp_bind, wp_lift, wp_gets. cbn [smem set_k s_k]. rewrite Hch.
  assert (E1 : forall k, set_k k (set_k (s_k s1) s1) = set_k k s1) by done. rewrite E1. replace (set_k (s_k s1) s1) with s1 by (by destruct s1).
  apply wp_bind. eapply wp_mono; [apply (Hput d c s1); [eauto with inlist|done]|]. intros [] s2 H2. apply wp_ret.
  exists (length r). cbn [length]. split; [lia|]. exists (d ++ [c]), r. rewrite <- app_assoc, length_app. cbn. split; [done|]. split; [done|]. split; [lia|done].
Qed.

Definition on_screen (sc : screen) : Prop := 0 <= sc.1.2 < 80 /\ 0 <= sc.2 < 25.

Lemma put_on_screen color c sc : c <> tab -> on_screen sc -> on_screen (screen_put color c sc).
Proof.
  destruct sc as [[cells x] y]. intros Hc [Hx Hy]. unfold on_screen, screen_put, scrolled. cbn [fst snd] in *. rewrite (proj2 (Z.eqb_neq c tab)) by done.
  repeat bool_case; cbn [fst snd]; lia.
Qed.

(** Printing a string is printing its characters one after the other. *)
Definition screen_write (color : Z) (l : list Z) (sc : screen) : screen := fold_left (fun sc c => screen_put color c sc) l sc.

Lemma write_on_screen color l sc : tab ∉ l -> on_screen sc -> on_screen (screen_write color l sc).
Proof.
  revert sc. induction l as [|c l IH]; intros sc Ht Hs; [done|]. apply not_elem_of_cons in Ht as [Hc Ht]. cbn.
  apply IH; [done|]. apply put_on_screen; [congruence|done].
Qed.

Lemma vga_write_wp s sc str l (Q : unit -> sys -> Prop) : shows s sc -> on_screen sc -> str <> NULL -> cstr (smem s) str l -> Z.of_nat (length l) < 2 ^ 64 ->
  tab ∉ l -> (forall x, within str (Z.of_nat (length l) + 1) x -> ~ vram x) ->
  (forall s', redrawn s (screen_write (color s) l sc) s' -> (l <> [] -> cursor_shown s') -> Q tt s') -> wp (vga_write str) Q s.
Proof.
  intros Hs Hon Hn Hc Hlen Ht Hout HQ. unfold vga_write. rewrite (proj2 (Z.eqb_neq str NULL)) by done.
  apply (write_wp vga_putchar (fun d s' => tab ∉ d /\ redrawn s (screen_write (color s) d sc) s' /\ (d <> [] -> cursor_shown s')) str l); [done|done| | | |].
  - split; [apply not_elem_of_nil|]. split; [|done]. by split.
  - intros d s' (_ & (_ & [(m & -> & Hag) _] & _) & _). eapply agree_mono; [|exact Hag]. exact Hout.
  - intros d c s' Hin (Hd & (Hs' & Hm & Hcol) & _). pose proof (write_on_screen (color s) d sc Hd Hon) as [H1 H2].
    apply (putchar_wp s' c _ _ Hs' H1 H2). intros s2 (Hs2 & Hm2 & Hc2) Hsh. rewrite Hcol in Hs2.
    split; [apply not_elem_of_app; split; [done|]; intros E%list_elem_of_singleton; apply Ht; by rewrite E|]. split; [|done]. split; [|split; [by etrans|congruence]].
    unfold screen_write in *. by rewrite fold_left_app.
  - intros s' (_ & H & Hsh). by apply HQ.
Qed.

(** The two bytes of a cell. *)
Lemma vga_entry_bytes c color : 0 <= c < 128 -> 0 <= color < 256 -> vga_entry c color = color * 256 + c.
Proof.
  intros Hc Hcol. unfold vga_entry. assert (signed 8 c = c) as -> by (unfold signed; change (2 ^ (8 - 1)) with 128; rewrite Z.mod_small; lia).
  rewrite Z.shiftl_mul_pow2 by lia. change (2 ^ 8) with 256. rewrite !u16_id by lia.
  rewrite Z.lor_comm. change 256 with (2 ^ 8). apply Z.bits_inj'. intros j Hj. rewrite Z.lor_spec. destruct (Z.ltb_spec j 8).
  - rewrite Z.mul_pow2_bits_low by lia. cbn [orb]. rewrite <- (Z.mod_pow2_bits_low (color * 2 ^ 8 + c) 8) by lia. rewrite Z.add_comm, Z.mod_add by lia. by rewrite Z.mod_small by lia.
  - rewrite (high_bit c 8 j), orb_false_r by lia. replace j with (j - 8 + 8) by lia. rewrite <- !Z.div_pow2_bits by lia.
    rewrite Z.div_mul, Z.div_add_l, (Z.div_small c) by lia. by rewrite Z.add_0_r.
Qed.

(** C33: A string without tabs is printed as its characters are: after the last column or a line
    feed the next line begins, below the last line everything moves up and a blank line
    comes.  The cell of an ASCII character holds it below the colour.  The cursor stays on
    the screen, and once a character was printed the display controller shows it there;
    only the 4000 bytes of the screen are written and only the cursor's ports are accessed. *)
Theorem vga_write_correct s sc str l : shows s sc -> on_screen sc -> str <> NULL -> cstr (smem s) str l -> Z.of_nat (length l) < 2 ^ 64 ->
  tab ∉ l -> (forall x, within str (Z.of_nat (length l) + 1) x -> ~ vram x) ->
  (forall c, 0 <= c < 128 -> 0 <= color s < 256 -> vga_entry c (color s) = color s * 256 + c) /\
  exists s', vga_write str s = Done tt s' /\ redrawn s (screen_write (color s) l sc) s' /\ on_screen (screen_write (color s) l sc) /\
    (l <> [] -> cursor_shown s').
Proof.
  intros Hs Hon Hn Hc Hlen Ht Hout. split; [intros c; apply vga_entry_bytes|].
  assert (H : wp (vga_write str) (fun _ s' => redrawn s (screen_write (color s) l sc) s' /\ (l <> [] -> cursor_shown s')) s) by (by apply (vga_write_wp s sc str l)).
  apply wp_Done in H as ([] & s' & Hrun & H & Hsh). exists s'. split; [done|]. split; [done|]. split; [by apply write_on_screen|done].
Qed.

(** ** Clearing *)

Lemma holds_any m : exists cells, holds m cells.
Proof.
  exists ((fun i => load 2 m (cell_addr i)) <$> seqZ 0 2000). split; [by rewrite length_fmap, length_seqZ|]. intros i Hi.
  rewrite nth_lookup, list_lookup_fmap, lookup_seqZ_lt by lia. cbn. f_equal. f_equal. lia.
Qed.

Lemma clear_wp s (Q : unit -> sys -> Prop) : (forall s', redrawn s (replicate 2000 (blank (color s)), 0, 0) s' -> cursor_shown s' -> Q tt s') -> wp vga_clear Q s.
Proof.
  intros HQ. destruct (holds_any (smem s)) as [cells Hh]. pose proof Hh as [Hlen _]. unfold vga_clear. change VGA_WIDTH with 80. change VGA_HEIGHT with 25.
  apply wp_bind, (wp_grid (fun i => at_cells s (replicate (Z.to_nat i) (blank (color s)) ++ drop (Z.to_nat i) cells))); [lia|by apply at_cells_start| |].
  - intros y x s1 Hy Hx H1. rewrite Z.sub_0_r in *. set (i := y * 80 + x) in *. apply wp_bind, wp_gets. rewrite (at_cells_color _ _ _ H1).
    apply (at_cells_put s _ _ _ s1 _ H1); [lia|apply vga_entry_bound|]. intros s2 H2. rewrite insert_app_r_alt in H2 by (rewrite length_replicate; lia).
    rewrite length_replicate, Nat.sub_diag in H2. destruct (lookup_lt_is_Some_2 cells (Z.to_nat i) ltac:(lia)) as [w Hw]. rewrite (drop_S cells w) in H2 by done.
    cbn [insert list_insert] in H2. replace (Z.to_nat (i + 1)) with (S (Z.to_nat i)) by lia. by rewrite replicate_S_end, <- app_assoc.
  - intros s1 H1. change (Z.to_nat ((25 - 0) * 80)) with 2000%nat in H1. rewrite (drop_ge cells), app_nil_r in H1 by lia.
    pose proof (at_cells_moved _ _ _ H1) as Hm. pose proof (at_cells_color _ _ _ H1) as Ec. destruct H1 as (m & -> & _ & Hm1).
    apply wp_bind, wp_modify, wp_bind, wp_modify, cursor_wp; [cbn; lia|]. intros s2 Hk Hv Hm2 Hsh. apply HQ; [|done]. split; [|split].
    + unfold shows. rewrite Hk, Hv. split; [exact Hm1|by split].
    + etrans; [exact Hm|]. etrans; [apply moved_vga|]. etrans; [apply moved_vga|]. eapply moved_mono; [|exact Hm2]. done.
    + by rewrite Hv.
Qed.

(** From any state [vga_init] leaves a blank screen, light grey on black, with the cursor at the
    top left, also the controller's. *)
Theorem vga_init_correct s : exists s', vga_init s = Done tt s' /\ shows s' (replicate 2000 (blank 7), 0, 0) /\ moved vram s s' /\ color s' = 7 /\ cursor_shown s'.
Proof.
  assert (H : wp vga_init (fun _ s' => shows s' (replicate 2000 (blank 7), 0, 0) /\ moved vram s s' /\ color s' = 7 /\ cursor_shown s') s).
  { unfold vga_init. do 3 apply wp_bind, wp_modify. apply clear_wp. intros s' (Hs & Hm & Hc) Hsh. split; [exact Hs|]. split; [|by split].
    etrans; [|exact Hm]. etrans; [apply moved_vga|]. etrans; apply moved_vga. }
  apply wp_Done in H as ([] & s' & Hrun & H). exists s'. split; [exact Hrun|exact H].
Qed.

(** Tabs carry the cursor over the right edge: a character at the last line is then written
    behind the screen's last cell. *)
Definition tab_state : sys := mkSys boot_state (put_vga (mkVga 7 79 24) boot_dev).

Definition tab_after : sys := final (vga_putchar tab tab_state) tab_state.
Definition tab_char : sys := final (vga_putchar (chr "A") tab_after) tab_state.

Lemma vga_tab_escapes : vga_putchar tab tab_state = Done tt tab_after /\ vga_putchar (chr "A") tab_after = Done tt tab_char /\
  load 2 (smem tab_char) (VGA_MEMORY + 2 * 2000) = vga_entry (chr "A") 7.
Proof.
  assert (V1 : result (vga_putchar tab tab_state) = Some tt) by (vm_compute; reflexivity).
  assert (V2 : result (vga_putchar (chr "A") tab_after) = Some tt) by (vm_compute; reflexivity).
  split; [exact (run_final _ _ _ V1)|]. split; [exact (run_final _ _ _ V2)|]. vm_compute. reflexivity.
Qed.

(** A [char] above 127 is sign-extended over the colour. *)
Lemma vga_entry_high : vga_entry 0xC4 0x07 = 0xFFC4.
Proof. done. Qed.

Lemma vga_write_correct_witness : exists cells s', vga_write 0x1010 (mkSys demo_text boot_dev) = Done tt s' /\
  redrawn (mkSys demo_text boot_dev) (screen_write 7 (chars "ok") (cells, 0, 0)) s' /\ cursor_shown s'.
Proof.
  destruct (holds_any (k_mem demo_text)) as [cells Hh]. exists cells.
  destruct (vga_write_correct (mkSys demo_text boot_dev) (cells, 0, 0) 0x1010 (chars "ok")) as (_ & s' & Hrun & H & _ & Hsh).
  - split; [exact Hh|by split].
  - split; cbn; lia.
  - discriminate.
  - exact (proj2 demo_cstr).
  - cbn. lia.
  - intros [E|[E|E%not_elem_of_nil]%elem_of_cons]%elem_of_cons; [discriminate E|discriminate E|exact E].
  - intros x Hx. unfold vram, VGA_MEMORY, within in *. cbn in Hx. lia.
  - exists s'. split; [exact Hrun|]. split; [exact H|]. apply Hsh. discriminate.
Defined.
