(* ===== verification/Serial.v ===== *)
(** kernel/drivers/serial.c, and the console of kernel/lib/stdio.c: what [kprintf] prints
    goes to the screen and to the serial line. *)
From Stdlib Require Import String Ascii.
From S2P Require Import Prelude Machine KString Stdio StdioProps StdioFormat Device Vga VgaProps.

#[local] Opaque load store.

Definition COM1_PORT : Z := 0x3F8.

Section serial.
Context `{Hardware}.

Definition serial_init : D unit :=
  outb (COM1_PORT + 1) 0x00 ;;
  outb (COM1_PORT + 3) 0x80 ;;
  outb (COM1_PORT + 0) 0x03 ;;
  outb (COM1_PORT + 1) 0x00 ;;
  outb (COM1_PORT + 3) 0x03 ;;
  outb (COM1_PORT + 2) 0xC7 ;;
  outb (COM1_PORT + 4) 0x0B.

Definition serial_received : D Z :=
  v ← inb (COM1_PORT + 5);
  mret (Z.land v 1).

(** [while (!test());] *)
Definition wait_for (test : D Z) : D unit :=
  while tt (fun _ => r ← test; mret (if negb (r =? 0) then inr tt else inl tt)).

Definition serial_read_char : D Z :=
  wait_for serial_received ;;
  inb COM1_PORT.

Definition serial_is_transmit_empty : D Z :=
  v ← inb (COM1_PORT + 5);
  mret (Z.land v 0x20).

Definition serial_write_char (c : Z) : D unit :=
  wait_for serial_is_transmit_empty ;;
  outb COM1_PORT (u8 c).

Definition serial_write_string (str : Z) : D unit :=
  if str =? NULL then mret tt else while str (write_step serial_write_char).

(** ** kernel/lib/stdio.c *)

(** The local array [buf] lies at the address [buf]. *)
Definition kprintf (buf format : Z) (ap : list Z) : D Z :=
  n ← lift (kvsnprintf buf 1024 format ap);
  lift (store8 (buf + (if n <? 1023 then n else 1023)) 0) ;;
  vga_write buf ;;
  serial_write_string buf ;;
  mret n.

Definition kputs (str : Z) : D unit :=
  if str =? NULL then mret tt else
  vga_write str ;;
  serial_write_string str.
End serial.

(** ** The line *)

(** The characters that went out on the line, in order. *)
Fixpoint sent (t : list access) : list Z :=
  match t with
  | [] => []
  | Out w p v :: t => if (w =? 8) && (p =? COM1_PORT) then sent t ++ [v] else sent t
  | _ :: t => sent t
  end.

Lemma sent_app t t' : sent (t ++ t') = sent t' ++ sent t.
Proof.
  induction t as [|[w p v|w p v|ptr|ptr| | |] t IH]; cbn [sent app]; [by rewrite app_nil_r|done| |done|done|done|done|done].
  destruct (_ && _); [|done]. by rewrite IH, app_assoc.
Qed.

Section line.
Context `{Hardware}.

(** After the accesses [t] the line status has the bit set within [n] reads. *)
Fixpoint ready_within (bit : Z) (n : nat) (t : list access) : Prop :=
  match n with
  | O => False
  | S n => let v := response t 8 (COM1_PORT + 5) mod 2 ^ 8 in
           Z.land v bit <> 0 \/ ready_within bit n (In 8 (COM1_PORT + 5) v :: t)
  end.

(** Only reads of the line status were added to the trace. *)
Definition status_read (e : access) : Prop := exists v, e = In 8 (COM1_PORT + 5) v.
Definition polled (s s' : sys) : Prop := exists l, s' = upd_dev (put_trace (l ++ trace s)) s /\ Forall status_read l.

Lemma sent_polled l : Forall status_read l -> sent l = [].
Proof. induction 1 as [|e l [v ->] _ IH]; done. Qed.

(** The two tests of the status. *)
Definition status_test (bit : Z) : D Z := v ← inb (COM1_PORT + 5); mret (Z.land v bit).

Lemma wait_wp bit n s (Q : unit -> sys -> Prop) : Z.of_nat n < 2 ^ 64 -> ready_within bit n (trace s) -> (forall s', polled s s' -> Q tt s') ->
  wp (wait_for (status_test bit)) Q s.
Proof.
  intros Hn Hr HQ. unfold wait_for.
  apply (wp_loop (fun k _ s' => ready_within bit k (trace s') /\ polled s s') n); [|done|].
  { split; [done|]. exists []. split; [by destruct s as [k []]|done]. }
  intros k x s1 [Hk (l & -> & Hl)]. destruct k as [|k]; [done|]. cbn [ready_within] in Hk. unfold status_test, inb, port_in.
  apply wp_bind, wp_bind, wp_bind, wp_gets, wp_bind, wp_modify, wp_ret, wp_ret, wp_ret. set (v := response _ _ _ mod _) in *.
  assert (Hp : polled s (record (In 8 (COM1_PORT + 5) v) (upd_dev (put_trace (l ++ trace s)) s))).
  { eexists (In 8 (COM1_PORT + 5) v :: l). split; [done|]. constructor; [by exists v|done]. }
  destruct (Z.eqb_spec (Z.land v bit) 0) as [E|Hne]; cbn [negb].
  - destruct Hk as [Hk|Hk]; [done|]. exists k. split; [lia|]. by split.
  - by apply HQ.
Qed.
End line.

(** A line that always becomes ready to send. *)
Class LineReady `{Hardware} := line_ready : forall t, exists n, Z.of_nat n < 2 ^ 64 /\ ready_within 0x20 n t.

Section send.
Context `{LineReady}.

(** The state after some traffic on the line: the characters [l] were sent. *)
Definition transmitted (s : sys) (l : list Z) (s' : sys) : Prop :=
  exists t, s' = upd_dev (put_trace (t ++ trace s)) s /\ sent t = l.

Lemma send_wp s l c s' (Q : unit -> sys -> Prop) : transmitted s l s' -> byte c -> (forall s'', transmitted s (l ++ [c]) s'' -> Q tt s'') ->
  wp (serial_write_char c) Q s'.
Proof.
  intros (t & -> & Ht) Hc HQ. unfold serial_write_char. destruct (line_ready (t ++ trace s)) as (n & Hn & Hr).
  apply wp_bind. change serial_is_transmit_empty with (status_test 0x20). apply (wait_wp 0x20 n); [done|exact Hr|]. intros s1 (p & -> & Hp).
  apply wp_modify, HQ. exists (Out 8 COM1_PORT (u8 (u8 c)) :: p ++ t). split; [unfold record, upd_dev; cbn; by rewrite app_assoc|].
  rewrite !u8_id by (rewrite ?u8_id by done; done). cbn [sent]. rewrite !Z.eqb_refl. cbn [andb]. by rewrite sent_app, (sent_polled p Hp), app_nil_r, Ht.
Qed.

Lemma serial_wp s str l (Q : unit -> sys -> Prop) : str <> NULL -> cstr (smem s) str l -> Z.of_nat (length l) < 2 ^ 64 ->
  (forall s', transmitted s l s' -> Q tt s') -> wp (serial_write_string str) Q s.
Proof.
  intros Hn Hc Hlen HQ. unfold serial_write_string. rewrite (proj2 (Z.eqb_neq str NULL)) by done.
  apply (write_wp serial_write_char (transmitted s) str l); [done|done| | | |done].
  - exists []. split; [by destruct s as [k []]|done].
  - intros d s' (t & -> & _). done.
  - intros d c s' Hin Hd. apply (send_wp s d c s' _ Hd); [|done].
    pose proof (cstr_bytes (s_k s) str l Hc) as Hb. rewrite Forall_forall in Hb. by apply Hb.
Qed.

(** [serial_write_string] ends on a line that always becomes ready again, and sends exactly
    the characters of the string, in order; memory and screen are left alone. *)
Theorem serial_write_correct s str l : str <> NULL -> cstr (smem s) str l -> Z.of_nat (length l) < 2 ^ 64 ->
  exists s', serial_write_string str s = Done tt s' /\ transmitted s l s'.
Proof.
  intros Hn Hc Hlen. assert (Hw : wp (serial_write_string str) (fun _ s' => transmitted s l s') s) by (by apply (serial_wp s str l)).
  apply wp_Done in Hw as ([] & s' & Hrun & Hw). by exists s'.
Qed.
End send.

(** On a line that never becomes ready the first character is waited for without end. *)
Lemma serial_hangs `{Hardware} c s : (forall t, Z.land (response t 8 (COM1_PORT + 5) mod 2 ^ 8) 0x20 = 0) -> serial_write_char c s = Fault Diverged.
Proof.
  intros Hno. unfold serial_write_char, mbind at 1, M_bind at 1. unfold wait_for. rewrite (while_diverges (fun _ _ => True)); [done| |done].
  intros [] t _. unfold serial_is_transmit_empty, inb, port_in, mbind, M_bind, gets, put_event, modify, mret, M_ret. rewrite Hno. by eexists _, _.
Qed.
