(* ===== verification/Console.v ===== *)
(** [kprintf] as a whole: formatting, the screen and the serial line together. *)
From Stdlib Require Import String Ascii.
From S2P Require Import Prelude Machine KString Stdio StdioProps StdioFormat Device Vga VgaProps Serial.

#[local] Opaque load store.

Lemma sent_cursor l : Forall cursor_access l -> sent l = [].
Proof.
  induction 1 as [|e l (w & p & v & -> & Hp) _ IH]; [done|]. cbn [sent]. rewrite IH. destruct Hp as [-> | ->]; by rewrite andb_false_r.
Qed.

(** The text that fits the buffer of [kprintf]. *)
Definition fitting (l : list Z) : list Z := take 1023 l.

(** The buffer holds it as a string. *)
Lemma delivered_cstr buf l m m' : buf <> NULL -> Forall (fun c => c <> 0) l -> delivered buf 1024 l m m' -> cstr m' buf (fitting l).
Proof.
  unfold delivered, fitting. intros Hb Hn. rewrite (proj2 (Z.eqb_neq buf NULL)) by done. cbn [orb Z.eqb]. change (1024 - 1) with 1023. intros (_ & Hc & Hz).
  split; [by apply Forall_take|]. intros i Hi. rewrite length_take in Hi. destruct (decide (i < Nat.min 1023 (length l))%nat) as [Hlt|Hge].
  - rewrite Hc by lia. rewrite !nth_lookup, lookup_take_lt by lia. done.
  - rewrite nth_overflow by (rewrite length_take; lia). rewrite <- Hz. f_equal. lia.
Qed.

Section console.
Context `{LineReady}.

(** What a run of [kprintf] leaves behind. *)
Definition printed_text (s : sys) (buf : Z) (sc : screen) (l : list Z) (s' : sys) : Prop :=
  shows s' (screen_write (color s) l sc) /\ (exists t, trace s' = t ++ trace s /\ sent t = l) /\
  (exists m, s_k s' = set_mem m (s_k s) /\ agree (fun x => ~ vram x /\ ~ within buf 1024 x) (smem s) m) /\ color s' = color s.

Lemma kprintf_runs str buf fmt f ap l s sc : render str f ap = Some l -> Z.of_nat (length l) < 2 ^ 31 ->
  unwritten buf 1024 (s_k s) (length l) fmt f -> Forall (fun p => unwritten buf 1024 (s_k s) (length l) p (str p)) (strings f ap) ->
  Forall (fun c => c <> 0) l -> tab ∉ l -> shows s sc -> on_screen sc -> buf <> NULL -> (forall x, within buf 1024 x -> ~ vram x) ->
  exists s', kprintf buf fmt ap s = Done (Z.of_nat (length l)) s' /\ printed_text s buf sc (fitting l) s'.
Proof.
  intros Hr Hl Hfmt Hstr Hnz Htab Hs Hon Hb Hout.
  destruct (wp_Done _ _ _ (kvsnprintf_wp str buf 1024 fmt f ap l (s_k s) ltac:(lia) Hr ltac:(lia) Hfmt Hstr)) as (n & k & Hrun & -> & m & -> & Hd).
  assert (Hsg : signed 32 (Z.of_nat (length l)) = Z.of_nat (length l)).
  { unfold signed. rewrite Z.mod_small by lia. lia. }
  apply wp_Done_eq. unfold kprintf. apply wp_bind. eapply wp_of_Done; [exact (lift_Done _ _ _ _ Hrun)|]. rewrite Hsg.
  set (k := if Z.of_nat (length l) <? 1023 then Z.of_nat (length l) else 1023). assert (Ek : k = Z.min (Z.of_nat (length l)) 1023) by (unfold k; bool_case; lia).
  set (m1 := store 1 m (buf + k) 0).
  assert (Hd1 : delivered buf 1024 l (smem s) m1).
  { unfold delivered in *. rewrite (proj2 (Z.eqb_neq buf NULL)) in * by done. cbn [orb Z.eqb] in *. change (1024 - 1) with 1023 in *. rewrite <- Ek in *. destruct Hd as (D1 & D2 & D3).
    split; [|split].
    - intros x Hx. unfold m1. rewrite store1. unfold within in *. rewrite (proj2 (Z.eqb_neq _ _)) by lia. apply D1. lia.
    - intros i Hi. unfold m1. rewrite store1, (proj2 (Z.eqb_neq _ _)) by lia. by apply D2.
    - unfold m1. by rewrite store1, Z.eqb_refl. }
  apply wp_bind, wp_lift, wp_modify. cbn [set_k s_k k_mem set_mem]. change (set_k (set_mem m1 (set_mem m (s_k s))) (set_k (set_mem m (s_k s)) s)) with (with_mem m1 s).
  pose proof (delivered_cstr buf l _ _ Hb Hnz Hd1) as Hc. assert (Hlen : (length (fitting l) <= 1023)%nat) by (unfold fitting; rewrite length_take; lia).
  assert (Hag : agree (fun x => ~ within buf 1024 x) (smem s) m1).
  { unfold delivered in Hd1. rewrite (proj2 (Z.eqb_neq buf NULL)) in Hd1 by done. cbn [orb Z.eqb] in Hd1. eapply agree_mono; [|exact (proj1 Hd1)]. unfold within. lia. }
  assert (Hs1 : shows (with_mem m1 s) sc).
  { destruct Hs as ((L & Hh) & Hxy). split; [|exact Hxy]. split; [done|]. intros i Hi. rewrite <- Hh by done. apply load_agree. eapply agree_mono; [|exact Hag].
    intros x Hx Hw. apply (Hout x Hw). unfold vram, cell_addr, within in *. change (Z.of_nat 2) with 2 in Hx. lia. }
  apply wp_bind, (vga_write_wp (with_mem m1 s) sc buf (fitting l)); [done|done|done|exact Hc|lia| | |].
  { intros Hin. apply Htab. by eapply elem_of_take in Hin as (i & Hi%list_elem_of_lookup_2 & _). }
  { intros x Hx. apply Hout. unfold within in *. lia. }
  intros s2 (Hs2 & [(m2 & K2 & A2) (t & T2 & Ht)] & Hc2) _.
  assert (Hcs2 : cstr (smem s2) buf (fitting l)).
  { rewrite K2. apply (cstr_frame m1); [|exact Hc]. eapply agree_mono; [|exact A2]. intros x Hx Hv. apply (Hout x); [unfold within in *; lia|done]. }
  apply wp_bind, (serial_wp s2 buf (fitting l)); [done|exact Hcs2|lia|]. intros s3 (u & -> & Hu). apply wp_ret. split; [done|].
  split; [|split; [|split; [|exact Hc2]]].
  - exact Hs2.
  - exists (u ++ t). cbn. rewrite T2. cbn. split; [by rewrite app_assoc|]. by rewrite sent_app, (sent_cursor t Ht), Hu.
  - exists m2. split; [cbn; by rewrite K2|]. etrans; [eapply agree_mono; [|exact Hag]; by intros x [_ Hx]|eapply agree_mono; [|exact A2]; by intros x [Hx _]].
Qed.

(** C32: The text of the format, cut to 1023 characters, appears on the screen and goes out on
    the serial line; the result is the length of the whole text.  Memory changes in
    the local buffer and in the screen only.  (The text has no tab and no NUL.) *)
Theorem kprintf_correct str buf fmt f ap l s sc : render str f ap = Some l -> Z.of_nat (length l) < 2 ^ 31 ->
  unwritten buf 1024 (s_k s) (length l) fmt f -> Forall (fun p => unwritten buf 1024 (s_k s) (length l) p (str p)) (strings f ap) ->
  Forall (fun c => c <> 0) l -> tab ∉ l -> shows s sc -> on_screen sc -> buf <> NULL -> (forall x, within buf 1024 x -> ~ vram x) ->
  exists s', kprintf buf fmt ap s = Done (Z.of_nat (length l)) s' /\ printed_text s buf sc (fitting l) s'.
Proof. apply kprintf_runs. Qed.
End console.

(** A line whose status is always ready. *)
#[local] Instance demo_line : Hardware := fun _ _ _ => 0x20.
#[local] Instance demo_line_ready : @LineReady demo_line.
Proof. intros t. exists 1%nat. split; [done|]. left. discriminate. Qed.

Lemma kprintf_correct_witness : exists cells s', kprintf 0x3000 0x1000 [2 ^ 32 - 7; 0x1010] (mkSys demo_text boot_dev) = Done 7 s' /\
  printed_text (mkSys demo_text boot_dev) 0x3000 (cells, 0, 0) (chars "n=-7 ok") s'.
Proof.
  destruct (holds_any (k_mem demo_text)) as [cells Hh]. exists cells.
  destruct (kprintf_correct demo_str 0x3000 0x1000 (chars "n=%d %s") [2 ^ 32 - 7; 0x1010] (chars "n=-7 ok") (mkSys demo_text boot_dev) (cells, 0, 0)) as (s' & Hrun & Hp).
  - vm_compute. reflexivity.
  - cbn. lia.
  - split; [exact (proj1 demo_cstr)|]. split; [cbn; lia|]. unfold shown, within. cbn. lia.
  - change (strings (chars "n=%d %s") [2 ^ 32 - 7; 0x1010]) with [0x1010]. constructor; [|constructor].
    split; [exact (proj2 demo_cstr)|]. split; [cbn; lia|]. unfold shown, within. cbn. lia.
  - cbn. repeat (constructor; [discriminate|]). constructor.
  - intros Hin. repeat (apply elem_of_cons in Hin as [E|Hin]; [discriminate E|]). by apply not_elem_of_nil in Hin.
  - split; [exact Hh|by split].
  - split; cbn; lia.
  - discriminate.
  - intros x Hx. unfold vram, VGA_MEMORY, within in *. lia.
  - exists s'. split; [exact Hrun|exact Hp].
Defined.
