(* ===== verification/Keyboard.v ===== *)
(** kernel/drivers/keyboard.c: scan codes become characters in a ring of 256 bytes. *)
From Stdlib Require Import String Ascii.
From S2P Require Import Prelude Machine Stdio StdioProps Device.

(** The characters of the scan codes below 128. *)
Definition map_norm : list Z :=
  [0; 27] ++ chars "1234567890-=" ++ [8; 9] ++ chars "qwertyuiop[]" ++ [10; 0] ++ chars "asdfghjkl;'`" ++ [0] ++
  chars "\zxcvbnm,./" ++ [0; chr "*"; 0; chr " "] ++ replicate 70 0.
Definition map_shift : list Z :=
  [0; 27] ++ chars "!@#$%^&*()_+" ++ [8; 9] ++ chars "QWERTYUIOP{}" ++ [10; 0] ++ chars "ASDFGHJKL:" ++ [34] ++ chars "~" ++ [0] ++
  chars "|ZXCVBNM<>?" ++ [0; chr "*"; 0; chr " "] ++ replicate 70 0.

(** The statics. *)
Definition get_kbd (f : kbd_st -> Z) : D Z := gets (fun s => f (d_kbd (s_dev s))).
Definition upd_kbd (f : kbd_st -> kbd_st) : D unit := modify (upd_dev (fun d => put_kbd (f (d_kbd d)) d)).
Definition set_ring (b : list Z) (k : kbd_st) : kbd_st := mkKbd b (g_kbd_head k) (g_kbd_tail k) (g_shift k) (g_caps k).
Definition set_head (h : Z) (k : kbd_st) : kbd_st := mkKbd (g_kbd_buf k) h (g_kbd_tail k) (g_shift k) (g_caps k).
Definition set_tail (t : Z) (k : kbd_st) : kbd_st := mkKbd (g_kbd_buf k) (g_kbd_head k) t (g_shift k) (g_caps k).
Definition set_shift (v : Z) (k : kbd_st) : kbd_st := mkKbd (g_kbd_buf k) (g_kbd_head k) (g_kbd_tail k) v (g_caps k).
Definition set_caps (v : Z) (k : kbd_st) : kbd_st := mkKbd (g_kbd_buf k) (g_kbd_head k) (g_kbd_tail k) (g_shift k) v.

(** Access to the ring, an array of 256 characters. *)
Definition ring_get (i : Z) : D Z :=
  if (0 <=? i) && (i <? 256) then gets (fun s => nth (Z.to_nat i) (g_kbd_buf (d_kbd (s_dev s))) 0) else stop Undefined.
Definition ring_put (i c : Z) : D unit :=
  if (0 <=? i) && (i <? 256) then upd_kbd (fun k => set_ring (<[Z.to_nat i := c]> (g_kbd_buf k)) k) else stop Undefined.

Definition kbd_push (c : Z) : D unit :=
  head ← get_kbd g_kbd_head;
  let next := u16 (Z.land (head + 1) 255) in
  tail ← get_kbd g_kbd_tail;
  when (negb (next =? tail))
    (head ← get_kbd g_kbd_head;
     ring_put head c ;;
     upd_kbd (set_head next)).

Definition keyboard_init : D unit := mret tt.

Definition keyboard_irq_handler `{Hardware} : D unit :=
  sc ← inb 0x60;
  if (sc =? 0x2A) || (sc =? 0x36) then upd_kbd (set_shift 1) else
  if (sc =? 0xAA) || (sc =? 0xB6) then upd_kbd (set_shift 0) else
  if sc =? 0x3A then caps ← get_kbd g_caps; upd_kbd (set_caps (Z.lxor caps 1)) else
  if negb (Z.land sc 0x80 =? 0) then mret tt else
  shift ← get_kbd g_shift;
  let c := nth (Z.to_nat sc) (if negb (shift =? 0) then map_shift else map_norm) 0 in
  caps ← get_kbd g_caps;
  let c := if (chr "a" <=? c) && (c <=? chr "z") && negb (Z.lxor caps shift =? 0) then c - 32 else c in
  when (negb (c =? 0)) (kbd_push c).

Definition keyboard_get_char : D Z :=
  head ← get_kbd g_kbd_head;
  tail ← get_kbd g_kbd_tail;
  if head =? tail then mret 0 else
  tail ← get_kbd g_kbd_tail;
  c ← ring_get tail;
  upd_kbd (set_tail (u16 (Z.land (tail + 1) 255))) ;;
  mret c.

Definition keyboard_has_input : D Z :=
  head ← get_kbd g_kbd_head;
  tail ← get_kbd g_kbd_tail;
  mret (if negb (head =? tail) then 1 else 0).

Lemma tables_length : length map_norm = 128%nat /\ length map_shift = 128%nat.
Proof. done. Qed.

(** ** The ring is a queue *)

(** The queue [q] lies in the ring from the tail to the head. *)
Record queued (k : kbd_st) (q : list Z) : Prop := {
  qu_ring : length (g_kbd_buf k) = 256%nat;
  qu_head : 0 <= g_kbd_head k < 256;
  qu_tail : 0 <= g_kbd_tail k < 256;
  qu_length : Z.of_nat (length q) = (g_kbd_head k - g_kbd_tail k) mod 256;
  qu_chars i : (i < length q)%nat -> nth (Z.to_nat ((g_kbd_tail k + Z.of_nat i) mod 256)) (g_kbd_buf k) 0 = nth i q 0
}.

(** A full queue takes nothing more. *)
Definition enqueue (c : Z) (q : list Z) : list Z := if (length q <? 255)%nat then q ++ [c] else q.

Lemma land_255 x : Z.land x 255 = x mod 256.
Proof. change 255 with (Z.ones 8). rewrite Z.land_ones by lia. done. Qed.

Lemma queued_bound k q : queued k q -> (length q <= 255)%nat.
Proof. intros [_ _ _ Hl _]. pose proof (Z.mod_pos_bound (g_kbd_head k - g_kbd_tail k) 256 ltac:(lia)). lia. Qed.

(** Distances round the ring. *)
Lemma ring_next h t : 0 <= h < 256 -> 0 <= t < 256 -> ((h + 1) mod 256 = t <-> (h - t) mod 256 = 255).
Proof.
  intros Hh Ht. pose proof (Z.div_mod (h + 1) 256 ltac:(lia)). pose proof (Z.mod_pos_bound (h + 1) 256 ltac:(lia)).
  pose proof (Z.div_mod (h - t) 256 ltac:(lia)). pose proof (Z.mod_pos_bound (h - t) 256 ltac:(lia)). lia.
Qed.

Lemma ring_empty h t : 0 <= h < 256 -> 0 <= t < 256 -> (h = t <-> (h - t) mod 256 = 0).
Proof.
  intros Hh Ht. pose proof (Z.div_mod (h - t) 256 ltac:(lia)). pose proof (Z.mod_pos_bound (h - t) 256 ltac:(lia)). lia.
Qed.

Lemma queued_push k q c : queued k q -> (length q < 255)%nat ->
  queued (set_head ((g_kbd_head k + 1) mod 256) (set_ring (<[Z.to_nat (g_kbd_head k) := c]> (g_kbd_buf k)) k)) (q ++ [c]).
Proof.
  intros [Hr Hh Ht Hl Hc] Hq. split; cbn [g_kbd_buf g_kbd_head g_kbd_tail set_head set_ring].
  - by rewrite length_insert.
  - apply Z.mod_pos_bound. lia.
  - done.
  - rewrite length_app. cbn [length]. rewrite Zminus_mod_idemp_l. replace (g_kbd_head k + 1 - g_kbd_tail k) with (g_kbd_head k - g_kbd_tail k + 1) by lia.
    rewrite <- Zplus_mod_idemp_l, <- Hl, Z.mod_small by lia. lia.
  - intros i Hi. rewrite length_app in Hi. cbn [length] in Hi. pose proof (Z.mod_pos_bound (g_kbd_tail k + Z.of_nat i) 256 ltac:(lia)) as Hb.
    assert (Hd : (g_kbd_tail k + Z.of_nat (length q)) mod 256 = g_kbd_head k).
    { rewrite Hl, Zplus_mod_idemp_r. replace (g_kbd_tail k + (g_kbd_head k - g_kbd_tail k)) with (g_kbd_head k) by lia. by apply Z.mod_small. }
    destruct (decide (i = length q)) as [->|Hne].
    + rewrite Hd, nth_lookup, list_lookup_insert_eq by lia. cbn. by rewrite app_nth2, Nat.sub_diag by lia.
    + rewrite app_nth1 by lia. rewrite <- Hc by lia. rewrite !nth_lookup, list_lookup_insert_ne; [done|]. rewrite <- Hd. intros E.
      assert (E' : (g_kbd_tail k + Z.of_nat i) mod 256 = (g_kbd_tail k + Z.of_nat (length q)) mod 256) by lia. clear -E' Hi Hne Hq.
      pose proof (Z.div_mod (g_kbd_tail k + Z.of_nat i) 256 ltac:(lia)). pose proof (Z.div_mod (g_kbd_tail k + Z.of_nat (length q)) 256 ltac:(lia)). lia.
Qed.

Lemma queued_pop k c q : queued k (c :: q) -> nth (Z.to_nat (g_kbd_tail k)) (g_kbd_buf k) 0 = c /\ queued (set_tail ((g_kbd_tail k + 1) mod 256) k) q.
Proof.
  intros [Hr Hh Ht Hl Hc]. split.
  - specialize (Hc 0%nat ltac:(cbn; lia)). cbn [nth] in Hc. rewrite <- Hc. by rewrite Z.add_0_r, Z.mod_small by lia.
  - split; cbn [g_kbd_buf g_kbd_head g_kbd_tail set_tail]; [done|done|apply Z.mod_pos_bound; lia| |].
    + rewrite Zminus_mod_idemp_r. replace (g_kbd_head k - (g_kbd_tail k + 1)) with (g_kbd_head k - g_kbd_tail k - 1) by lia.
      rewrite <- Zminus_mod_idemp_l, <- Hl. cbn [length]. rewrite Z.mod_small; [lia|].
      pose proof (Z.mod_pos_bound (g_kbd_head k - g_kbd_tail k) 256 ltac:(lia)). cbn [length] in Hl. lia.
    + intros i Hi. change (nth i q 0) with (nth (S i) (c :: q) 0). rewrite <- Hc by (cbn; lia). rewrite Zplus_mod_idemp_l. do 3 f_equal. lia.
Qed.

Lemma queued_shift k q v : queued k q -> queued (set_shift v k) q.
Proof. by intros []. Qed.
Lemma queued_caps k q v : queued k q -> queued (set_caps v k) q.
Proof. by intros []. Qed.

(** ** The operations *)

(** Only the keyboard's statics and the trace differ. *)
Definition kbd_only (s s' : sys) : Prop := exists l, s' = upd_dev (fun d => put_trace (l ++ d_trace d) (put_kbd (d_kbd (s_dev s')) d)) s.

(** The state of the keyboard: the modifiers and the characters that were typed. *)
Abbreviation keys := (Z * Z * list Z)%type.

(** The character of a key. *)
Definition key_char (shift caps sc : Z) : Z :=
  let c := nth (Z.to_nat sc) (if negb (shift =? 0) then map_shift else map_norm) 0 in
  if (chr "a" <=? c) && (c <=? chr "z") && negb (Z.lxor caps shift =? 0) then c - 32 else c.

Definition typed (sc : Z) (st : keys) : keys :=
  let '(shift, caps, q) := st in
  if (sc =? 0x2A) || (sc =? 0x36) then (1, caps, q) else
  if (sc =? 0xAA) || (sc =? 0xB6) then (0, caps, q) else
  if sc =? 0x3A then (shift, Z.lxor caps 1, q) else
  if 128 <=? sc then st else
  if key_char shift caps sc =? 0 then st else (shift, caps, enqueue (key_char shift caps sc) q).

Definition keys_are (s : sys) (st : keys) : Prop :=
  queued (d_kbd (s_dev s)) st.2 /\ g_shift (d_kbd (s_dev s)) = st.1.1 /\ g_caps (d_kbd (s_dev s)) = st.1.2.

Definition with_kbd (k : kbd_st) (s : sys) : sys := upd_dev (put_kbd k) s.

Lemma high_bit8 sc : 0 <= sc < 256 -> (Z.land sc 0x80 =? 0) = (sc <? 128).
Proof.
  intros Hsc. change 0x80 with (2 ^ 7). destruct (Z.ltb_spec sc (2 ^ 7)).
  - apply Z.eqb_eq. apply Z.bits_inj'. intros n Hn. rewrite Z.land_spec, Z.bits_0, Z.pow2_bits_eqb by lia. destruct (Z.eqb_spec 7 n) as [<-|]; [|by rewrite andb_false_r].
    rewrite andb_true_r. destruct (Z.eq_dec sc 0) as [->|]; [done|]. apply Z.bits_above_log2; [lia|]. apply Z.log2_lt_pow2; lia.
  - apply Z.eqb_neq. intros E. apply (f_equal (fun z => Z.testbit z 7)) in E. rewrite Z.land_spec, Z.pow2_bits_true, andb_true_r, Z.bits_0 in E by lia.
    assert (H7 : Z.log2 sc = 7) by (apply Z.log2_unique; lia). pose proof (Z.bit_log2 sc ltac:(lia)) as Hb. rewrite H7 in Hb. congruence.
Qed.

Lemma push_wp c st s (Q : unit -> sys -> Prop) : keys_are s st ->
  (forall k, queued k (enqueue c st.2) -> g_shift k = st.1.1 -> g_caps k = st.1.2 -> g_kbd_tail k = g_kbd_tail (d_kbd (s_dev s)) -> Q tt (with_kbd k s)) ->
  wp (kbd_push c) Q s.
Proof.
  destruct st as [[sh ca] q]. cbn [fst snd]. intros (Hq & Hs & Hc) HQ. cbn [fst snd] in *. pose proof (queued_bound _ _ Hq) as Hb. pose proof (qu_head _ _ Hq) as Hh.
  unfold kbd_push. apply wp_bind, wp_gets. set (h := g_kbd_head _) in *. rewrite land_255, u16_id by (pose proof (Z.mod_pos_bound (h + 1) 256 ltac:(lia)); lia).
  apply wp_bind, wp_gets. pose proof (ring_next h (g_kbd_tail (d_kbd (s_dev s))) Hh (qu_tail _ _ Hq)) as Hn. unfold h in Hn at 2. rewrite <- (qu_length _ _ Hq) in Hn.
  unfold enqueue in HQ. destruct (Z.eqb_spec ((h + 1) mod 256) (g_kbd_tail (d_kbd (s_dev s)))) as [E|Hne]; cbn [negb when].
  - apply wp_ret. apply Hn in E. rewrite (proj2 (Nat.ltb_ge _ _)) in HQ by lia. replace s with (with_kbd (d_kbd (s_dev s)) s) by (destruct s as [k []]; done). by apply HQ.
  - rewrite (proj2 (Nat.ltb_lt _ _)) in HQ by lia. apply wp_bind, wp_gets, wp_bind. fold h. unfold ring_put.
    rewrite (proj2 (Z.leb_le _ _)), (proj2 (Z.ltb_lt _ _)) by lia. cbn [andb]. apply wp_modify, wp_modify.
    apply (HQ (set_head ((h + 1) mod 256) (set_ring (<[Z.to_nat h := c]> (g_kbd_buf (d_kbd (s_dev s)))) (d_kbd (s_dev s))))); [|done..].
    apply queued_push; [done|lia].
Qed.

Lemma queued_mods k q : forall k', g_kbd_buf k' = g_kbd_buf k -> g_kbd_head k' = g_kbd_head k -> g_kbd_tail k' = g_kbd_tail k -> queued k q -> queued k' q.
Proof. intros k' E1 E2 E3 []. split; rewrite ?E1, ?E2, ?E3; done. Qed.

Section irq.
Context `{Hardware}.

Lemma irq_wp st s (Q : unit -> sys -> Prop) : keys_are s st ->
  let sc := response (trace s) 8 0x60 mod 256 in
  (forall k, queued k (typed sc st).2 -> g_shift k = (typed sc st).1.1 -> g_caps k = (typed sc st).1.2 ->
     g_kbd_tail k = g_kbd_tail (d_kbd (s_dev s)) -> Q tt (with_kbd k (record (In 8 0x60 sc) s))) ->
  wp keyboard_irq_handler Q s.
Proof.
  intros Hst sc. unfold keyboard_irq_handler. intros HQ. apply wp_bind. unfold inb, port_in. apply wp_bind, wp_gets, wp_bind, wp_modify, wp_ret.
  change (response (trace s) 8 0x60 mod 2 ^ 8) with sc. pose proof (Z.mod_pos_bound (response (trace s) 8 0x60) 256 ltac:(lia)) as Hsc. fold sc in Hsc.
  change (g_kbd_tail (d_kbd (s_dev s))) with (g_kbd_tail (d_kbd (s_dev (record (In 8 0x60 sc) s)))) in HQ.
  set (s1 := record _ s) in *. assert (Hst1 : keys_are s1 st) by exact Hst. clearbody s1. clear Hst. destruct st as [[sh ca] q]. pose proof Hst1 as (Hq & Hs & Hc). cbn [fst snd] in *. unfold typed in HQ.
  assert (Eid : with_kbd (d_kbd (s_dev s1)) s1 = s1) by (by destruct s1 as [k []]).
  destruct ((sc =? 0x2A) || (sc =? 0x36)); [apply wp_modify, HQ; [by apply queued_shift|done..]|].
  destruct ((sc =? 0xAA) || (sc =? 0xB6)); [apply wp_modify, HQ; [by apply queued_shift|done..]|].
  destruct (sc =? 0x3A).
  { apply wp_bind, wp_gets, wp_modify. rewrite Hc. by apply HQ; [apply queued_caps|..]. }
  rewrite high_bit8 by lia. rewrite Z.leb_antisym in HQ. destruct (sc <? 128); cbn [negb] in *; [|apply wp_ret; rewrite <- Eid; by apply HQ].
  apply wp_bind, wp_gets. rewrite Hs. cbv zeta. apply wp_bind, wp_gets. rewrite Hc. fold (key_char sh ca sc) in *.
  change (if (chr "a" <=? nth (Z.to_nat sc) (if negb (sh =? 0) then map_shift else map_norm) 0) && (nth (Z.to_nat sc) (if negb (sh =? 0) then map_shift else map_norm) 0 <=? chr "z") && negb (Z.lxor ca sh =? 0)
    then nth (Z.to_nat sc) (if negb (sh =? 0) then map_shift else map_norm) 0 - 32 else nth (Z.to_nat sc) (if negb (sh =? 0) then map_shift else map_norm) 0) with (key_char sh ca sc).
  destruct (key_char sh ca sc =? 0); cbn [negb when]; [apply wp_ret; rewrite <- Eid; by apply HQ|].
  by apply (push_wp _ (sh, ca, q)).
Qed.

(** C34: An interrupt of the keyboard reads one scan code, and the keyboard's state follows it:
    the modifiers, or the character of the key behind the characters typed before; a
    character that finds 255 of them waiting is lost.  [keyboard_get_char] takes the
    oldest character, 0 when there is none, and [keyboard_has_input] says whether there
    is one; no access of the ring is out of its bounds. *)
Theorem keyboard_correct s st : keys_are s st ->
  (let sc := response (trace s) 8 0x60 mod 256 in
   exists k, keyboard_irq_handler s = Done tt (with_kbd k (record (In 8 0x60 sc) s)) /\ keys_are (with_kbd k s) (typed sc st)) /\
  (exists k, keyboard_get_char s = Done (hd 0 st.2) (with_kbd k s) /\ keys_are (with_kbd k s) (st.1, tail st.2)) /\
  keyboard_has_input s = Done (match st.2 with [] => 0 | _ => 1 end) s.
Proof.
  intros Hst. split; [|].
  { intros sc. assert (Hw : wp keyboard_irq_handler (fun _ s' => exists k, s' = with_kbd k (record (In 8 0x60 sc) s) /\ keys_are (with_kbd k s) (typed sc st)) s).
    { apply (irq_wp st); [done|]. intros k Hq Hs Hc _. exists k. split; [done|]. by split. }
    apply wp_Done in Hw as ([] & s' & Hrun & k & -> & Hk). by exists k. }
  destruct st as [[sh ca] q]. destruct Hst as (Hq & Hs & Hc). cbn [fst snd] in *.
  pose proof (ring_empty _ _ (qu_head _ _ Hq) (qu_tail _ _ Hq)) as He. rewrite <- (qu_length _ _ Hq) in He. split.
  - unfold keyboard_get_char, mbind, M_bind, get_kbd, gets.
    destruct (Z.eqb_spec (g_kbd_head (d_kbd (s_dev s))) (g_kbd_tail (d_kbd (s_dev s)))) as [E|Hne].
    + exists (d_kbd (s_dev s)). destruct q; [|exfalso; apply He in E; cbn in E; lia]. split; [by destruct s as [k []]|]. by split.
    + destruct q as [|c q]; [exfalso; by apply Hne, He|]. destruct (queued_pop _ _ _ Hq) as [Hhd Htl]. pose proof (qu_tail _ _ Hq) as Ht.
      exists (set_tail ((g_kbd_tail (d_kbd (s_dev s)) + 1) mod 256) (d_kbd (s_dev s))). unfold ring_get. rewrite (proj2 (Z.leb_le _ _)), (proj2 (Z.ltb_lt _ _)) by lia. cbn [andb].
      unfold gets. rewrite Hhd, land_255, u16_id by (pose proof (Z.mod_pos_bound (g_kbd_tail (d_kbd (s_dev s)) + 1) 256 ltac:(lia)); lia). split; [done|]. by split.
  - unfold keyboard_has_input, mbind, M_bind, get_kbd, gets. destruct (Z.eqb_spec (g_kbd_head (d_kbd (s_dev s))) (g_kbd_tail (d_kbd (s_dev s)))) as [E|Hne]; cbn [negb].
    + destruct q; [done|]. exfalso. apply He in E. cbn in E. lia.
    + destruct q; [|done]. exfalso. by apply Hne, He.
Qed.
End irq.

(** With Shift, Caps Lock makes no difference to letters. *)
Lemma caps_ignored_with_shift sc : 0 <= sc < 128 -> key_char 1 1 sc = key_char 1 0 sc.
Proof.
  intros Hsc. assert (H : Forall (fun sc => key_char 1 1 sc = key_char 1 0 sc) (seqZ 0 128)) by (vm_compute; repeat (constructor; [reflexivity|]); constructor).
  rewrite Forall_forall in H. apply H, elem_of_seqZ. lia.
Qed.

(** The key A is pressed on an empty ring. *)
#[local] Instance demo_key : Hardware := fun _ _ _ => 0x1E.

Lemma demo_keys : keys_are (mkSys boot_state boot_dev) (0, 0, []).
Proof. split; [|by split]. split; try done. cbn. lia. Qed.

Lemma keyboard_correct_witness : exists k, keyboard_irq_handler (mkSys boot_state boot_dev) = Done tt (with_kbd k (record (In 8 0x60 0x1E) (mkSys boot_state boot_dev))) /\
  keys_are (with_kbd k (mkSys boot_state boot_dev)) (0, 0, [chr "a"]).
Proof. exact (proj1 (keyboard_correct (mkSys boot_state boot_dev) (0, 0, []) demo_keys)). Defined.
