(* ===== verification/Pic.v ===== *)
(** kernel/drivers/pic.c and kernel/drivers/pit.c: the interrupt controllers and the timer. *)
From S2P Require Import Prelude Machine Device.

(** ** The controllers *)

Definition PIC1 : Z := 0x20.
Definition PIC2 : Z := 0xA0.
Definition PIC1_COMMAND : Z := PIC1.
Definition PIC1_DATA : Z := PIC1 + 1.
Definition PIC2_COMMAND : Z := PIC2.
Definition PIC2_DATA : Z := PIC2 + 1.
Definition ICW1_INIT : Z := 0x10.
Definition ICW1_ICW4 : Z := 0x01.
Definition ICW4_8086 : Z := 0x01.

Definition pic_send_eoi (irq : Z) : D unit :=
  when (8 <=? irq) (outb PIC2_COMMAND 0x20) ;;
  outb PIC1_COMMAND 0x20.

(** [1 << n] on [int]: no meaning from 31 on. *)
Definition int_shift (n : Z) : D Z := if (0 <=? n) && (n <? 31) then mret (2 ^ n) else stop Undefined.

Section pic.
Context `{Hardware}.

Definition pic_init : D unit :=
  a1 ← inb PIC1_DATA;
  a2 ← inb PIC2_DATA;
  outb PIC1_COMMAND (Z.lor ICW1_INIT ICW1_ICW4) ;;
  io_wait ;;
  outb PIC2_COMMAND (Z.lor ICW1_INIT ICW1_ICW4) ;;
  io_wait ;;
  outb PIC1_DATA 0x20 ;;
  io_wait ;;
  outb PIC2_DATA 0x28 ;;
  io_wait ;;
  outb PIC1_DATA 4 ;;
  io_wait ;;
  outb PIC2_DATA 2 ;;
  io_wait ;;
  outb PIC1_DATA ICW4_8086 ;;
  io_wait ;;
  outb PIC2_DATA ICW4_8086 ;;
  io_wait ;;
  outb PIC1_DATA a1 ;;
  outb PIC2_DATA a2.

Definition irq_port (irq : Z) : Z := if irq <? 8 then PIC1_DATA else PIC2_DATA.

Definition pic_mask_irq (irq : Z) : D unit :=
  let port := irq_port irq in
  val ← inb port;
  if irq <? 8 then b ← int_shift irq; outb port (u8 (Z.lor val b))
  else b ← int_shift (irq - 8); outb port (u8 (Z.lor val b)).

Definition pic_unmask_irq (irq : Z) : D unit :=
  let port := irq_port irq in
  val ← inb port;
  if irq <? 8 then b ← int_shift irq; outb port (u8 (Z.land val (Z.lnot b)))
  else b ← int_shift (irq - 8); outb port (u8 (Z.land val (Z.lnot b))).
End pic.

(** ** The timer *)

(** The assignment of [g_pit_ticks]. *)
Definition upd_ticks (f : Z -> Z) : D unit := modify (upd_dev (fun d => put_ticks (f (d_ticks d)) d)).

Definition pit_init (frequency : Z) : D unit :=
  let frequency := if frequency =? 0 then 1000 else frequency in
  let divisor := 1193182 / frequency in
  outb 0x43 0x36 ;;
  outb 0x40 (u8 (Z.land divisor 0xFF)) ;;
  outb 0x40 (u8 (Z.land (Z.shiftr divisor 8) 0xFF)).

Definition pit_get_ticks : D Z := gets (fun s => d_ticks (s_dev s)).
Definition pit_irq_tick : D unit := upd_ticks (fun n => u64 (n + 1)).

(** [wake] is what the interrupts that end a halt do. *)
Definition pit_wait (wake : D unit) (milliseconds : Z) : D unit :=
  ticks ← pit_get_ticks;
  let target := u64 (ticks + milliseconds) in
  while tt (fun _ =>
    now ← pit_get_ticks;
    if now <? target then hlt ;; wake ;; mret (inl tt) else mret (inr tt)).

(** ** The controllers and the timer as devices *)

(** What an 8259A holds (data sheet of Intel, order number 231468): the vector of its first
    request, its place in the cascade, the mode of the processor and of the end of
    interrupt, the mask, and the initialisation words it still waits for. *)
Inductive icw := ICW2 | ICW3 | ICW4.
Record pic_dev := mkPic {
  pic_base : Z;
  pic_cascade : Z;
  pic_8086 : bool;
  pic_auto_eoi : bool;
  pic_imr : Z;
  pic_waits : list icw
}.

(** One access: a command with bit 4 starts the initialisation (bit 1: no cascade, bit 0: a
    fourth word follows); the data port takes the words that are due, then masks.
    [p] is the data port, the command port is the one before. *)
Definition pic_step (p : Z) (e : access) (d : pic_dev) : pic_dev :=
  match e with
  | Out 8 q v =>
      if q =? p - 1 then
        if Z.testbit v 4
        then mkPic 0 0 false false 0 (ICW2 :: (if Z.testbit v 1 then [] else [ICW3]) ++ (if Z.testbit v 0 then [ICW4] else []))
        else d
      else if q =? p then
        match pic_waits d with
        | ICW2 :: w => mkPic (Z.land v 0xF8) (pic_cascade d) (pic_8086 d) (pic_auto_eoi d) (pic_imr d) w
        | ICW3 :: w => mkPic (pic_base d) v (pic_8086 d) (pic_auto_eoi d) (pic_imr d) w
        | ICW4 :: w => mkPic (pic_base d) (pic_cascade d) (Z.testbit v 0) (Z.testbit v 1) (pic_imr d) w
        | [] => mkPic (pic_base d) (pic_cascade d) (pic_8086 d) (pic_auto_eoi d) v []
        end
      else d
  | _ => d
  end.
(** The controller after the accesses [t], the last first; [d0] is what it was at the start. *)
Definition pic_after (p : Z) (d0 : pic_dev) (t : list access) : pic_dev := foldr (pic_step p) d0 t.

(** Channel 0 of an 8254: the access mode, the counting mode, decimal counting, the low
    byte that waits for its other half, and the count. *)
Record pit_dev := mkPit { pit_access : Z; pit_mode : Z; pit_bcd : bool; pit_low : option Z; pit_count : option Z }.
Definition pit_step (e : access) (d : pit_dev) : pit_dev :=
  match e with
  | Out 8 q v =>
      if q =? 0x43 then
        if (Z.shiftr v 6 =? 0) && negb (Z.land (Z.shiftr v 4) 3 =? 0)
        then mkPit (Z.land (Z.shiftr v 4) 3) (Z.land (Z.shiftr v 1) 7) (Z.testbit v 0) None None else d
      else if q =? 0x40 then
        if pit_access d =? 3 then
          match pit_low d with
          | None => mkPit 3 (pit_mode d) (pit_bcd d) (Some v) (pit_count d)
          | Some l => mkPit 3 (pit_mode d) (pit_bcd d) None (Some (l + 256 * v))
          end
        else mkPit (pit_access d) (pit_mode d) (pit_bcd d) None (Some (if pit_access d =? 2 then 256 * v else v))
      else d
  | _ => d
  end.
Definition pit_after (d0 : pit_dev) (t : list access) : pit_dev := foldr pit_step d0 t.

(** The accesses of the two initialisations: ports of the controllers, of the timer, and the
    port that is written to pass the time. *)
Definition setup_access (e : access) : Prop :=
  match e with
  | In _ p _ => p = PIC1_DATA \/ p = PIC2_DATA
  | Out _ p _ => p = PIC1_COMMAND \/ p = PIC1_DATA \/ p = PIC2_COMMAND \/ p = PIC2_DATA \/ p = 0x80 \/ p = 0x43 \/ p = 0x40
  | _ => False
  end.

(** ** The interrupt masks *)

(** The value written last to a port. *)
Fixpoint last_out (p : Z) (t : list access) : option Z :=
  match t with
  | [] => None
  | Out w q v :: t => if (w =? 8) && (q =? p) then Some v else last_out p t
  | _ :: t => last_out p t
  end.

(** The writes to a data port since the last initialisation command (bit 4 of a command): the
    first three are the rest of the initialisation, the later ones are masks.  Four stand
    for a controller that was not initialised again. *)
Fixpoint data_writes (p : Z) (t : list access) : nat :=
  match t with
  | [] => 4
  | Out w q v :: t => if q =? p then S (data_writes p t) else if (q =? p - 1) && Z.testbit v 4 then 0 else data_writes p t
  | _ :: t => data_writes p t
  end.
Definition operating (p : Z) (t : list access) : Prop := (4 <= data_writes p t)%nat.

(** Out of initialisation the controllers answer a read of the data port with the mask, which
    is what was written there last (8259A data sheet, OCW1); [start] is the mask before
    the first write. *)
Class PicLatch `{Hardware} (start : Z -> Z) := pic_latch : forall t p, p = PIC1_DATA \/ p = PIC2_DATA -> operating p t ->
  response t 8 p mod 2 ^ 8 = u8 (default (start p) (last_out p t)).

Section masks.
Context `{PicLatch}.

(** The mask of a controller, and the states in which both have one. *)
Definition operational (s : sys) : Prop := forall p, p = PIC1_DATA \/ p = PIC2_DATA -> operating p (trace s).
Definition mask (p : Z) (s : sys) : Z := u8 (default (start p) (last_out p (trace s))).

Lemma inb_mask p s (Q : Z -> sys -> Prop) : p = PIC1_DATA \/ p = PIC2_DATA -> operational s -> Q (mask p s) (record (In 8 p (mask p s)) s) -> wp (inb p) Q s.
Proof. intros Hp Ho HQ. unfold inb, port_in. apply wp_bind, wp_gets, wp_bind, wp_modify, wp_ret. rewrite pic_latch by auto. exact HQ. Qed.

Lemma mask_byte p s : 0 <= mask p s < 2 ^ 8.
Proof. apply u8_bound. Qed.

Definition irq_bit (irq : Z) : Z := if irq <? 8 then irq else irq - 8.

Lemma irq_port_data irq : irq_port irq = PIC1_DATA \/ irq_port irq = PIC2_DATA.
Proof. unfold irq_port. destruct (irq <? 8); [by left|by right]. Qed.

(** The two ways of changing one bit of a byte. *)
Lemma set_bit_byte v n i : 0 <= v < 2 ^ 8 -> 0 <= n < 8 -> 0 <= i -> Z.testbit (u8 (u8 (Z.lor v (2 ^ n)))) i = Z.testbit v i || (i =? n).
Proof.
  intros Hv Hn Hi. assert (Hb : forall i, 8 <= i -> Z.testbit v i = false).
  { intros j Hj. destruct (Z.eq_dec v 0) as [->|]; [apply Z.bits_0|]. apply Z.bits_above_log2; [lia|]. assert (Z.log2 v < 8) by (apply Z.log2_lt_pow2; lia). lia. }
  unfold u8. rewrite Z.mod_mod by lia. destruct (Z.ltb_spec i 8).
  - rewrite Z.mod_pow2_bits_low, Z.lor_spec, Z.pow2_bits_eqb by lia. by rewrite (Z.eqb_sym n i).
  - rewrite Z.mod_pow2_bits_high, Hb by lia. symmetry. apply orb_false_intro; [done|]. apply Z.eqb_neq. lia.
Qed.

Lemma clear_bit_byte v n i : 0 <= v < 2 ^ 8 -> 0 <= n < 8 -> 0 <= i -> Z.testbit (u8 (u8 (Z.land v (Z.lnot (2 ^ n))))) i = Z.testbit v i && negb (i =? n).
Proof.
  intros Hv Hn Hi. assert (Hb : forall i, 8 <= i -> Z.testbit v i = false).
  { intros j Hj. destruct (Z.eq_dec v 0) as [->|]; [apply Z.bits_0|]. apply Z.bits_above_log2; [lia|]. assert (Z.log2 v < 8) by (apply Z.log2_lt_pow2; lia). lia. }
  unfold u8. rewrite Z.mod_mod by lia. destruct (Z.ltb_spec i 8).
  - rewrite Z.mod_pow2_bits_low, Z.land_spec, Z.lnot_spec, Z.pow2_bits_eqb by lia. by rewrite (Z.eqb_sym n i).
  - by rewrite Z.mod_pow2_bits_high, Hb by lia.
Qed.

(** What masking and unmasking leave. *)
Definition mask_changed (s : sys) (irq : Z) (on : bool) (s' : sys) : Prop :=
  (forall i, 0 <= i -> Z.testbit (mask (irq_port irq) s') i = if i =? irq_bit irq then on else Z.testbit (mask (irq_port irq) s) i) /\
  (forall p, p <> irq_port irq -> mask p s' = mask p s) /\ operational s' /\ (exists l, s' = upd_dev (put_trace (l ++ trace s)) s).

Lemma mask_out p v s q : last_out q (Out 8 p v :: s) = if q =? p then Some v else last_out q s.
Proof. cbn. by rewrite (Z.eqb_sym p q). Qed.

Lemma change_wp s irq on f : operational s -> 0 <= irq < 16 -> (forall v n i, 0 <= v < 2 ^ 8 -> 0 <= n < 8 -> 0 <= i -> Z.testbit (u8 (u8 (f v (2 ^ n)))) i = if i =? n then on else Z.testbit v i) ->
  wp (val ← inb (irq_port irq); if irq <? 8 then b ← int_shift irq; outb (irq_port irq) (u8 (f val b)) else b ← int_shift (irq - 8); outb (irq_port irq) (u8 (f val b)))
    (fun _ s' => mask_changed s irq on s') s.
Proof.
  intros Ho Hi Hf. apply wp_bind, inb_mask; [apply irq_port_data|done|]. set (v := mask (irq_port irq) s).
  assert (Hb : 0 <= irq_bit irq < 8) by (unfold irq_bit; destruct (Z.ltb_spec irq 8); lia).
  assert (E : (if irq <? 8 then b ← int_shift irq; outb (irq_port irq) (u8 (f v b)) else b ← int_shift (irq - 8); outb (irq_port irq) (u8 (f v b))) =
    outb (irq_port irq) (u8 (f v (2 ^ irq_bit irq)))).
  { unfold irq_bit in *. unfold int_shift. destruct (irq <? 8); rewrite (proj2 (Z.leb_le _ _)), (proj2 (Z.ltb_lt _ _)) by lia; done. }
  rewrite E. apply wp_modify. split; [|split; [|split]].
  - intros i Hi'. unfold mask at 1. cbn [record upd_dev put_trace d_trace s_dev]. rewrite mask_out, Z.eqb_refl. cbn [default].
    rewrite u8_id by apply u8_bound. apply Hf; [apply mask_byte|done|done].
  - intros p Hp. unfold mask. cbn [record upd_dev put_trace d_trace s_dev]. rewrite mask_out, (proj2 (Z.eqb_neq _ _)) by done. done.
  - intros p Hp. specialize (Ho p Hp). unfold operating in *. cbn [record upd_dev put_trace d_trace s_dev data_writes].
    destruct (Z.eqb_spec (irq_port irq) p); [lia|]. destruct (Z.eqb_spec (irq_port irq) (p - 1)) as [Ep|]; [|done]. exfalso.
    unfold irq_port, PIC1_DATA, PIC2_DATA, PIC1, PIC2 in *. destruct (irq <? 8), Hp; lia.
  - by eexists [_; _].
Qed.

(** Masking an interrupt request sets its bit in the mask of its controller, unmasking
    clears it; every other bit of both controllers stays, so unmasking a masked request
    restores the masks. *)
Theorem pic_mask_correct s irq : operational s -> 0 <= irq < 16 ->
  (exists s', pic_mask_irq irq s = Done tt s' /\ mask_changed s irq true s') /\
  (exists s', pic_unmask_irq irq s = Done tt s' /\ mask_changed s irq false s').
Proof.
  intros Ho Hi. split.
  - destruct (wp_Done _ _ _ (change_wp s irq true Z.lor Ho Hi ltac:(intros v n i Hv Hn Hi'; rewrite set_bit_byte by done; by destruct (i =? n); rewrite ?orb_true_r, ?orb_false_r))) as ([] & s' & Hrun & Hm).
    by exists s'.
  - destruct (wp_Done _ _ _ (change_wp s irq false (fun v b => Z.land v (Z.lnot b)) Ho Hi ltac:(intros v n i Hv Hn Hi'; cbv beta; rewrite clear_bit_byte by done; by destruct (i =? n); rewrite ?andb_true_r, ?andb_false_r))) as ([] & s' & Hrun & Hm).
    by exists s'.
Qed.

(** What [pic_init] makes of the controllers: requests 0 to 7 arrive at the vectors from 0x20
    and 8 to 15 at those from 0x28, the second controller hangs at line 2 of the first, both
    serve an 8086 with explicit ends of interrupts, and have the masks they had. *)
Definition remapped (s : sys) (t : list access) : Prop := forall d0,
  pic_after PIC1_DATA d0 t = mkPic 0x20 4 true false (mask PIC1_DATA s) [] /\
  pic_after PIC2_DATA d0 t = mkPic 0x28 2 true false (mask PIC2_DATA s) [].

Lemma pic_init_wp s (Q : unit -> sys -> Prop) : operational s ->
  (forall s', operational s' -> (forall p, p = PIC1_DATA \/ p = PIC2_DATA -> mask p s' = mask p s) -> remapped s (trace s') ->
     (exists l, s' = upd_dev (put_trace (l ++ trace s)) s /\ Forall setup_access l) -> Q tt s') -> wp pic_init Q s.
Proof.
  intros Ho HQ. unfold pic_init. apply wp_bind, inb_mask; [by left|done|]. apply wp_bind, inb_mask; [by right|exact Ho|]. do 17 apply wp_bind, wp_modify. apply wp_modify.
  pose proof (mask_byte PIC1_DATA s) as B1. change (mask PIC2_DATA (record _ _)) with (mask PIC2_DATA s). pose proof (mask_byte PIC2_DATA s) as B2.
  apply HQ.
  - intros p Hp. set (t := trace s). unfold operating. cbn [record upd_dev put_trace d_trace s_dev]. fold t. clearbody t. destruct Hp as [-> | ->]; vm_compute; lia.
  - intros p Hp. transitivity (u8 (u8 (mask p s))); [|by rewrite !(u8_id (mask p s)) by apply mask_byte]. by destruct Hp as [-> | ->].
  - intros d0. rewrite !(u8_id (mask _ s)) by done. cbn [record upd_dev put_trace d_trace s_dev]. generalize (mask PIC1_DATA s) (mask PIC2_DATA s) (trace s). intros a1 a2 t.
    split; reflexivity.
  - eexists [_; _; _; _; _; _; _; _; _; _; _; _; _; _; _; _; _; _; _; _]. split; [reflexivity|].
    repeat (constructor; [cbn; unfold PIC1_COMMAND, PIC2_COMMAND, PIC1_DATA, PIC2_DATA; tauto|]). constructor.
Qed.

(** [pic_init] moves the requests to the vectors 0x20 to 0x2F and leaves both masks as they
    were. *)
Theorem pic_init_correct s : operational s -> exists s', pic_init s = Done tt s' /\ operational s' /\ (forall p, p = PIC1_DATA \/ p = PIC2_DATA -> mask p s' = mask p s) /\
  remapped s (trace s') /\ exists l, s' = upd_dev (put_trace (l ++ trace s)) s /\ Forall setup_access l.
Proof.
  intros Ho. assert (Hw : wp pic_init (fun _ s' => operational s' /\ (forall p, p = PIC1_DATA \/ p = PIC2_DATA -> mask p s' = mask p s) /\
    remapped s (trace s') /\ exists l, s' = upd_dev (put_trace (l ++ trace s)) s /\ Forall setup_access l) s) by (by apply pic_init_wp).
  apply wp_Done in Hw as ([] & s' & Hrun & Hw). by exists s'.
Qed.
End masks.

Arguments remapped : clear implicits.
Arguments mask : clear implicits.
Arguments mask_changed : clear implicits.

(** Controllers that read back, the first answer being 0xFF. *)
#[local] Instance demo_pic : Hardware := fun t _ p => default 0xFF (last_out p t).
#[local] Instance demo_latch : @PicLatch demo_pic (fun _ => 0xFF).
Proof. by intros t p _ _. Qed.

Lemma demo_operational : operational (mkSys boot_state boot_dev).
Proof. intros p _. unfold operating. cbn. lia. Qed.

Lemma pic_mask_correct_witness : exists s', pic_unmask_irq 1 (mkSys boot_state boot_dev) = Done tt s' /\ mask_changed (fun _ => 0xFF) (mkSys boot_state boot_dev) 1 false s'.
Proof. exact (proj2 (pic_mask_correct (mkSys boot_state boot_dev) 1 demo_operational ltac:(lia))). Defined.

(** ** The timer *)

(** For the frequencies it can divide down to, the timer gets the divisor whole; below 19
    Hz the divisor does not fit its 16 bits and only the rest of it arrives. *)
Theorem pit_init_correct f s : 0 <= f < 2 ^ 32 -> let divisor := 1193182 / (if f =? 0 then 1000 else f) in
  exists lo hi, pit_init f s = Done tt (record (Out 8 0x40 hi) (record (Out 8 0x40 lo) (record (Out 8 0x43 0x36) s))) /\
    0 <= lo < 256 /\ 0 <= hi < 256 /\ lo + 256 * hi = divisor mod 2 ^ 16 /\ (f = 0 \/ 19 <= f -> lo + 256 * hi = divisor).
Proof.
  intros Hf divisor. set (f' := if f =? 0 then 1000 else f) in *. assert (Hf' : 0 < f') by (unfold f'; bool_case; lia).
  assert (Hd : 0 <= divisor) by (apply Z.div_pos; lia). exists (divisor mod 256), ((divisor / 256) mod 256).
  pose proof (Z.mod_pos_bound divisor 256 ltac:(lia)). pose proof (Z.mod_pos_bound (divisor / 256) 256 ltac:(lia)).
  assert (Hsum : divisor mod 256 + 256 * ((divisor / 256) mod 256) = divisor mod 2 ^ 16).
  { change (2 ^ 16) with (256 * 256). by rewrite Z.rem_mul_r by lia. }
  split; [|split; [done|split; [done|split; [done|]]]].
  - unfold pit_init. fold f' divisor. change 0xFF with (Z.ones 8). rewrite !Z.land_ones, Z.shiftr_div_pow2 by lia. change (2 ^ 8) with 256.
    unfold outb. rewrite !(u8_id (u8 _)) by apply u8_bound. rewrite !u8_id by lia. done.
  - intros Hc. rewrite Hsum. apply Z.mod_small. split; [done|]. apply Z.div_lt_upper_bound; [done|]. unfold f' in *. destruct (Z.eqb_spec f 0); lia.
Qed.

Lemma pit_init_correct_witness : exists lo hi, pit_init 1000 (mkSys boot_state boot_dev) =
    Done tt (record (Out 8 0x40 hi) (record (Out 8 0x40 lo) (record (Out 8 0x43 0x36) (mkSys boot_state boot_dev)))) /\ lo + 256 * hi = 1193.
Proof.
  destruct (pit_init_correct 1000 (mkSys boot_state boot_dev) ltac:(lia)) as (lo & hi & Hrun & _ & _ & _ & H). exists lo, hi. split; [exact Hrun|].
  apply H. right. lia.
Defined.

Section wait.
(** What interrupts do while the processor is halted. *)
Context (wake : D unit).

Definition now (s : sys) : Z := d_ticks (s_dev s).

(** The timer ticks within [n] halts. *)
Fixpoint tick_within (n : nat) (s : sys) : Prop :=
  match n with
  | O => False
  | S n => wp (hlt ;; wake) (fun _ s' => now s < now s' \/ (now s' = now s /\ tick_within n s')) s
  end.

(** [pit_wait] ends when the timer keeps ticking, and not before its time: the ticks have then
    reached the target. *)
Theorem pit_wait_terminates ms N s : 0 <= now s -> 0 <= ms -> now s + ms < 2 ^ 64 -> ms * Z.of_nat N < 2 ^ 64 ->
  (forall s', now s <= now s' < now s + ms -> tick_within N s') -> exists s', pit_wait wake ms s = Done tt s' /\ now s + ms <= now s'.
Proof.
  intros H0 Hms Hlim HN Htick. set (T := now s + ms) in *.
  assert (Hw : wp (pit_wait wake ms) (fun _ s' => T <= now s') s).
  { unfold pit_wait. apply wp_bind, wp_gets. change (d_ticks (s_dev s)) with (now s). fold T. rewrite u64_id by lia.
    apply (wp_loop (fun k _ s' => now s <= now s' /\ (now s' < T -> exists n, (k = Z.to_nat (T - now s' - 1) * N + n)%nat /\ tick_within n s')) (Z.to_nat ms * N)%nat); [|lia|].
    - split; [lia|]. intros Hlt. exists N. split; [unfold T in *; nia|]. apply Htick. lia.
    - intros k x s1 [H1 Hk]. apply wp_bind, wp_gets. change (d_ticks (s_dev s1)) with (now s1). destruct (Z.ltb_spec (now s1) T) as [Hlt|Hge]; [|by apply wp_ret].
      destruct (Hk Hlt) as (n & -> & Hn). destruct n as [|n]; [done|]. cbn [tick_within] in Hn.
      apply wp_assoc. eapply wp_mono; [exact Hn|]. intros [] s2 [Hmore|[Hsame Hn2]]; apply wp_ret.
      + destruct (Z.ltb_spec (now s2) T) as [Hlt2|Hge2].
        * exists (Z.to_nat (T - now s2 - 1) * N + N)%nat. split; [|split; [lia|intros _; exists N; split; [done|apply Htick; lia]]].
          assert (Z.to_nat (T - now s2 - 1) + 1 <= Z.to_nat (T - now s1 - 1))%nat by lia. nia.
        * exists 0%nat. split; [nia|]. split; [lia|]. lia.
      + exists (Z.to_nat (T - now s1 - 1) * N + n)%nat. split; [lia|]. split; [lia|]. intros _. exists n. by rewrite Hsame. }
  apply wp_Done in Hw as ([] & s' & Hrun & Hw). by exists s'.
Qed.
End wait.

Lemma pit_wait_terminates_witness : exists s', pit_wait pit_irq_tick 5 (mkSys boot_state boot_dev) = Done tt s' /\ 5 <= now s'.
Proof.
  apply (pit_wait_terminates pit_irq_tick 5 1 (mkSys boot_state boot_dev)); [done|lia|done|done|]. intros s' Hs'. unfold now in *. cbn in Hs'.
  left. cbn. unfold now. cbn. rewrite u64_id by lia. lia.
Defined.
