(* ===== verification/Interrupts.v ===== *)
(** kernel/core/interrupts_init.c, interrupts.c and panic.c: the interrupt descriptor table,
    the dispatch of interrupts, and the end of the road. *)
From Stdlib Require Import String Ascii.
From S2P Require Import Prelude Machine KString Stdio StdioProps StdioFormat Device Vga VgaProps Serial Console Keyboard Pic.

#[local] Opaque load store.

(** ** The table *)

Definition upd_idt (f : idt_st -> idt_st) : D unit := modify (upd_dev (fun d => put_idt (f (d_idt d)) d)).

Definition idt_set_gate (n handler sel flags : Z) : D unit :=
  let h := u64 handler in
  let gate := mkGate (u16 (Z.land h 0xFFFF)) (u16 sel) 0 (u8 flags) (u16 (Z.land (Z.shiftr h 16) 0xFFFF))
                     (u32 (Z.land (Z.shiftr h 32) 0xFFFFFFFF)) 0 in
  if (0 <=? n) && (n <? 256) then upd_idt (fun i => mkIdt (<[Z.to_nat n := gate]> (g_idt i)) (idt_limit i) (idt_base i))
  else stop Undefined.

Section init.
Context `{Hardware}.

(** [isrs] and [irqs] are the addresses of the stubs of kernel/arch, [idt] and [idt_ptr]
    those of the static table and of its descriptor. *)
Definition interrupts_init (isrs irqs : list Z) (idt idt_ptr : Z) : D unit :=
  for_range 0 256 (fun i => idt_set_gate i 0 0x08 0x8E) ;;
  for_range 0 32 (fun i => idt_set_gate i (nth (Z.to_nat i) isrs 0) 0x08 0x8E) ;;
  for_range 0 16 (fun i => idt_set_gate (32 + i) (nth (Z.to_nat i) irqs 0) 0x08 0x8E) ;;
  upd_idt (fun i => mkIdt (g_idt i) (u16 (256 * 16 - 1)) idt) ;;
  idt_load idt_ptr ;;
  pic_init ;;
  pit_init 1000 ;;
  cpu_enable_interrupts.

(** ** Dispatch *)

(** [buf] is the local array of [kprintf] and [text] the address of "Exception %u err=%u\n";
    [halt] is the loop [while (1) hlt] behind the message.  The handler itself has the loop
    that never ends; with another [halt] in its place one sees in which state the loop
    is entered. *)
Definition interrupt_handler_at (halt : D unit) (buf text int_no err_code : Z) : D unit :=
  (if int_no <? 32 then
     _ ← kprintf buf text [u32 int_no; u32 err_code];
     halt
   else mret tt) ;;
  when ((32 <=? int_no) && (int_no <=? 47))
    (let irq := u8 (int_no - 32) in
     when (irq =? 0) pit_irq_tick ;;
     when (irq =? 1) keyboard_irq_handler ;;
     pic_send_eoi irq).
Definition interrupt_handler : Z -> Z -> Z -> Z -> D unit := interrupt_handler_at hang.

(** ** Panic *)

(** The literals "PANIC ", "(null)" and "\n" lie at [panic], [null] and [nl]. *)
Definition panic_report (panic null nl message : Z) : D unit :=
  cpu_disable_interrupts ;;
  vga_set_color 0x0F 0x04 ;;
  vga_clear ;;
  serial_write_string panic ;;
  serial_write_string (if message =? NULL then null else message) ;;
  serial_write_string nl.

Definition kernel_panic (panic null nl message : Z) : D unit :=
  panic_report panic null nl message ;;
  hang.
End init.

(** ** Gates *)

(** The handler a gate leads to, as the processor reads it. *)
Definition gate_target (g : idt_entry) : Z := offset_low g + 2 ^ 16 * offset_mid g + 2 ^ 32 * offset_high g.
Definition gate (h : Z) : idt_entry :=
  mkGate (u16 (Z.land h 0xFFFF)) 0x08 0 0x8E (u16 (Z.land (Z.shiftr h 16) 0xFFFF)) (u32 (Z.land (Z.shiftr h 32) 0xFFFFFFFF)) 0.

Lemma gate_roundtrip h : 0 <= h < 2 ^ 64 -> gate_target (gate h) = h.
Proof.
  intros Hh. unfold gate_target, gate. cbn [offset_low offset_mid offset_high]. change 0xFFFF with (Z.ones 16). change 0xFFFFFFFF with (Z.ones 32).
  rewrite !Z.land_ones, !Z.shiftr_div_pow2 by lia. unfold u16, u32. rewrite !Z.mod_mod by lia.
  assert (H1 : h mod 2 ^ 32 = h mod 2 ^ 16 + 2 ^ 16 * ((h / 2 ^ 16) mod 2 ^ 16)) by (change (2 ^ 32) with (2 ^ 16 * 2 ^ 16); by rewrite Z.rem_mul_r by lia).
  assert (H2 : (h / 2 ^ 32) mod 2 ^ 32 = h / 2 ^ 32) by (apply Z.mod_small; split; [apply Z.div_pos; lia|apply Z.div_lt_upper_bound; lia]).
  rewrite <- H1, H2. pose proof (Z.div_mod h (2 ^ 32) ltac:(lia)). lia.
Qed.

Definition with_idt (i : idt_st) (s : sys) : sys := upd_dev (put_idt i) s.
Definition gates (l : list idt_entry) (i : idt_st) : idt_st := mkIdt l (idt_limit i) (idt_base i).

Lemma set_gate_wp n h l s0 (Q : unit -> sys -> Prop) : 0 <= n < 256 -> 0 <= h < 2 ^ 64 ->
  Q tt (with_idt (gates (<[Z.to_nat n := gate h]> l) (d_idt (s_dev s0))) s0) ->
  wp (idt_set_gate n h 0x08 0x8E) Q (with_idt (gates l (d_idt (s_dev s0))) s0).
Proof.
  intros Hn Hh HQ. unfold idt_set_gate. rewrite (u64_id h) by done. rewrite (proj2 (Z.leb_le _ _)), (proj2 (Z.ltb_lt _ _)) by lia. apply wp_modify. exact HQ.
Qed.

(** The first [n] gates from [base] on, and the rest. *)
Lemma gates_wp base n hs body l s0 (Q : unit -> sys -> Prop) : (forall i, 0 <= i < Z.of_nat n -> body i = idt_set_gate (base + i) (nth (Z.to_nat i) hs 0) 0x08 0x8E) ->
  0 <= base -> base + Z.of_nat n <= 256 -> length l = 256%nat -> length hs = n -> Forall (fun h => 0 <= h < 2 ^ 64) hs ->
  Q tt (with_idt (gates (take (Z.to_nat base) l ++ (gate <$> hs) ++ drop (Z.to_nat base + n) l) (d_idt (s_dev s0))) s0) ->
  wp (for_range 0 (Z.of_nat n) body) Q (with_idt (gates l (d_idt (s_dev s0))) s0).
Proof.
  intros Hbody Hb Hn Hl Hhs Hr HQ.
  apply (wp_for_range (fun i s => s = with_idt (gates (take (Z.to_nat base) l ++ (gate <$> take (Z.to_nat i) hs) ++ drop (Z.to_nat base + Z.to_nat i) l) (d_idt (s_dev s0))) s0)); [lia| | |].
  - change (Z.to_nat 0) with 0%nat. rewrite Nat.add_0_r. change (gate <$> take 0 hs) with (@nil idt_entry). by rewrite app_nil_l, take_drop.
  - intros i s Hi ->. rewrite Hbody by done. destruct (lookup_lt_is_Some_2 hs (Z.to_nat i) ltac:(lia)) as [h Hh]. rewrite nth_lookup, Hh. cbn [default].
    apply set_gate_wp; [lia|rewrite Forall_forall in Hr; apply Hr; by eapply list_elem_of_lookup_2|].
    replace (Z.to_nat (i + 1)) with (S (Z.to_nat i)) by lia. replace (Z.to_nat (base + i)) with (Z.to_nat base + Z.to_nat i)%nat by lia.
    destruct (lookup_lt_is_Some_2 l (Z.to_nat base + Z.to_nat i) ltac:(lia)) as [g Hg].
    assert (Et : length (take (Z.to_nat base) l) = Z.to_nat base) by (rewrite length_take; lia).
    assert (Eh : length (gate <$> take (Z.to_nat i) hs) = Z.to_nat i) by (rewrite length_fmap, length_take; lia).
    do 2 f_equal. rewrite insert_app_r_alt by lia. f_equal. rewrite Et. replace (Z.to_nat base + Z.to_nat i - Z.to_nat base)%nat with (Z.to_nat i) by lia.
    rewrite insert_app_r_alt by lia. rewrite Eh, Nat.sub_diag, (drop_S l g) by done. cbn [insert list_insert].
    rewrite (take_S_r hs _ h), fmap_app by done. cbn [fmap list_fmap]. rewrite <- app_assoc. cbn [app]. do 3 f_equal. lia.
  - intros s ->. rewrite Nat2Z.id. rewrite (take_ge hs) by lia. exact HQ.
Qed.

Section init_props.
Context `{HW : Hardware} (start : Z -> Z) {PL : PicLatch start}.

(** What [interrupts_init] leaves in the table. *)
Definition installed (isrs irqs : list Z) (idt : Z) (i : idt_st) : Prop :=
  g_idt i = (gate <$> isrs) ++ (gate <$> irqs) ++ replicate 208 (gate 0) /\ idt_limit i = 4095 /\ idt_base i = idt.

(** C35: [interrupts_init] directs vectors 0 to 31 to the stubs of the exceptions and 32 to 47 to
    those of the interrupt requests, each gate holding its handler's address whole; it
    loads the table, then makes the controllers send requests 0 to 7 to the vectors from
    0x20 and 8 to 15 to those from 0x28, with the masks they had, and channel 0 of the
    timer count down from 1193 as a square wave, which is 1000 ticks a second; interrupts
    are enabled once, as the very last step, and nothing but the controllers and the
    timer is touched before.  (The other 208 vectors get gates that are present and lead
    to address 0.)  The controllers and the timer are the devices [pic_after] and
    [pit_after] of their data sheets, in whatever state they were found. *)
Theorem interrupts_init_correct isrs irqs idt idt_ptr s : length isrs = 32%nat -> length irqs = 16%nat -> Forall (fun h => 0 <= h < 2 ^ 64) (isrs ++ irqs) ->
  length (g_idt (d_idt (s_dev s))) = 256%nat -> operational s ->
  exists s' l, interrupts_init isrs irqs idt idt_ptr s = Done tt s' /\ installed isrs irqs idt (d_idt (s_dev s')) /\
    (forall i h, (isrs ++ irqs) !! i = Some h -> exists g, g_idt (d_idt (s_dev s')) !! i = Some g /\ gate_target g = h) /\
    trace s' = Sti :: l ++ Lidt idt_ptr :: trace s /\ Forall setup_access l /\
    (forall d0, pic_after PIC1_DATA d0 (trace s') = mkPic 0x20 4 true false (mask start PIC1_DATA s) [] /\
                pic_after PIC2_DATA d0 (trace s') = mkPic 0x28 2 true false (mask start PIC2_DATA s) []) /\
    (forall d0, pit_after d0 (trace s') = mkPit 3 3 false None (Some 1193)) /\
    (forall p, p = PIC1_DATA \/ p = PIC2_DATA -> mask start p s' = mask start p s) /\ s_k s' = s_k s.
Proof.
  intros Hli Hlq Hr Hl Ho. apply Forall_app in Hr as [Hri Hrq].
  set (J := (gate <$> isrs) ++ (gate <$> irqs) ++ replicate 208 (gate 0)).
  assert (Hw : wp (interrupts_init isrs irqs idt idt_ptr) (fun _ s' => installed isrs irqs idt (d_idt (s_dev s')) /\
    (exists l, trace s' = Sti :: l ++ Lidt idt_ptr :: trace s /\ Forall setup_access l) /\ remapped start s (trace s') /\
    (forall d0, pit_after d0 (trace s') = mkPit 3 3 false None (Some 1193)) /\ (forall p, p = PIC1_DATA \/ p = PIC2_DATA -> mask start p s' = mask start p s) /\ s_k s' = s_k s) s).
  { unfold interrupts_init. apply wp_bind. replace s with (with_idt (gates (g_idt (d_idt (s_dev s))) (d_idt (s_dev s))) s) at 1 by (by destruct s as [k [t v kb n [g lim b]]]).
    apply (gates_wp 0 256 (replicate 256 0)); [|lia|lia|done|done|apply Forall_replicate; lia|].
    { intros i Hi. rewrite nth_lookup, lookup_replicate_2 by lia. done. }
    rewrite (drop_ge (g_idt _)), app_nil_r, fmap_replicate by lia. set (R := replicate 256 (gate 0)).
    assert (HR : length R = 256%nat) by done. assert (HR' : drop 16 (drop 32 R) = replicate 208 (gate 0)) by done. clearbody R.
    change (Z.to_nat 0) with 0%nat. rewrite firstn_O, app_nil_l.
    apply wp_bind, (gates_wp 0 32 isrs); [done|lia|lia|done|done|done|]. change (Z.to_nat 0 + 32)%nat with 32%nat. change (Z.to_nat 0) with 0%nat. rewrite firstn_O, app_nil_l.
    apply wp_bind, (gates_wp 32 16 irqs); [done|lia|lia|rewrite length_app, length_drop, length_fmap; lia|done|done|].
    assert (EJ : take (Z.to_nat 32) ((gate <$> isrs) ++ drop 32 R) ++ (gate <$> irqs) ++ drop (Z.to_nat 32 + 16) ((gate <$> isrs) ++ drop 32 R) = J).
    { change (Z.to_nat 32) with 32%nat. assert (E32 : 32%nat = length (gate <$> isrs)) by (by rewrite length_fmap).
      rewrite take_app_length', drop_app_add' by exact E32. by rewrite HR'. }
    rewrite EJ. apply wp_bind, wp_modify, wp_bind, wp_modify, wp_bind. set (s1 := record _ _).
    apply (pic_init_wp s1 _ Ho). intros s2 _ Hm Hrm (l & -> & Hl2).
    apply wp_bind. unfold pit_init. apply wp_bind, wp_modify, wp_bind, wp_modify, wp_modify, wp_modify. split; [by split|]. split; [|split; [exact Hrm|split; [done|split; [|done]]]].
    - eexists (Out 8 0x40 _ :: Out 8 0x40 _ :: Out 8 0x43 _ :: l). split; [reflexivity|]. repeat (constructor; [cbn; tauto|]). exact Hl2.
    - intros p Hp. transitivity (mask start p s1); [|done]. rewrite <- (Hm p Hp). by destruct Hp as [-> | ->]. }
  apply wp_Done in Hw as ([] & s' & Hrun & Hi & (l & Ht & Hl2) & Hm). exists s', l. split; [done|]. split; [done|]. split; [|done].
  intros i h Hih. destruct Hi as [-> _]. exists (gate h). split.
  - rewrite app_assoc, <- fmap_app. apply lookup_app_l_Some. by rewrite list_lookup_fmap, Hih.
  - apply gate_roundtrip. assert (Hall : Forall (fun h => 0 <= h < 2 ^ 64) (isrs ++ irqs)) by (by apply Forall_app). rewrite Forall_forall in Hall.
    apply Hall. by eapply list_elem_of_lookup_2.
Qed.
End init_props.

(** ** Dispatch *)

Section dispatch.
Context `{Hardware}.

(** The acknowledgement of a request, the last access first. *)
Definition eoi (no : Z) : list access :=
  if no <=? 47 then Out 8 PIC1_COMMAND 0x20 :: (if 40 <=? no then [Out 8 PIC2_COMMAND 0x20] else []) else [].

Lemma eoi_wp no s (Q : unit -> sys -> Prop) : 32 <= no <= 47 -> Q tt (upd_dev (put_trace (eoi no ++ trace s)) s) -> wp (pic_send_eoi (u8 (no - 32))) Q s.
Proof.
  intros Hn HQ. unfold pic_send_eoi, eoi in *. rewrite u8_id by lia. rewrite (proj2 (Z.leb_le no 47)) in HQ by lia. apply wp_bind.
  assert (E : (8 <=? no - 32) = (40 <=? no)) by (destruct (Z.leb_spec 40 no); [apply Z.leb_le|apply Z.leb_gt]; lia). rewrite E.
  destruct (40 <=? no); cbn [when]; [apply wp_modify|apply wp_ret]; apply wp_modify; exact HQ.
Qed.

(** The keys after a request, and what a request leaves: a tick, the key of the scan code, the
    acknowledgement; the ring's tail stays. *)
Definition arrived (no sc : Z) (st : keys) : keys := if no =? 33 then typed sc st else st.
Definition scan_code (s : sys) : Z := response (trace s) 8 0x60 mod 256.
Record serviced (no : Z) (st : keys) (s s' : sys) : Prop := {
  sv_mem : s_k s' = s_k s;
  sv_now : now s' = (if no =? 32 then u64 (now s + 1) else now s);
  sv_keys : keys_are s' (arrived no (scan_code s) st);
  sv_tail : g_kbd_tail (d_kbd (s_dev s')) = g_kbd_tail (d_kbd (s_dev s));
  sv_trace : trace s' = eoi no ++ (if no =? 33 then [In 8 0x60 (scan_code s)] else []) ++ trace s
}.

Lemma dispatch_wp halt buf text no err st s (Q : unit -> sys -> Prop) : keys_are s st -> 32 <= no ->
  (forall s', serviced no st s s' -> Q tt s') -> wp (interrupt_handler_at halt buf text no err) Q s.
Proof.
  intros Hst Hn HQ. unfold interrupt_handler_at. rewrite (proj2 (Z.ltb_ge no 32)) by lia. apply wp_bind, wp_ret. rewrite (proj2 (Z.leb_le 32 no)) by lia. cbn [andb].
  destruct (Z.leb_spec no 47) as [Hle|Hgt]; cbn [when].
  2: { apply wp_ret, HQ. split; unfold arrived, eoi; rewrite ?(proj2 (Z.eqb_neq no 32)), ?(proj2 (Z.eqb_neq no 33)), ?(proj2 (Z.leb_gt no 47)) by lia; done. }
  cbv zeta. assert (E0 : (u8 (no - 32) =? 0) = (no =? 32)) by (rewrite u8_id by lia; repeat bool_case; lia).
  assert (E1 : (u8 (no - 32) =? 1) = (no =? 33)) by (rewrite u8_id by lia; repeat bool_case; lia). rewrite E0, E1.
  apply wp_bind. destruct (Z.eqb_spec no 32) as [->|H32]; cbn [when].
  - apply wp_modify, wp_bind, wp_ret, (eoi_wp 32); [lia|]. by apply HQ.
  - apply wp_ret, wp_bind. destruct (Z.eqb_spec no 33) as [->|H33]; cbn [when].
    + apply (irq_wp st); [done|]. intros k Hq Hs Hc Ht. apply (eoi_wp 33); [lia|]. apply HQ. by split.
    + apply wp_ret, eoi_wp; [lia|]. apply HQ. split; unfold arrived; rewrite ?(proj2 (Z.eqb_neq no 32)), ?(proj2 (Z.eqb_neq no 33)) by lia; done.
Qed.

(** A request of the timer counts a tick, one of the keyboard is handled by the keyboard,
    and every request is acknowledged to its controllers, the second one first; vectors
    above 47 are ignored. *)
Theorem interrupt_dispatch buf text no err s st : keys_are s st -> 32 <= no ->
  exists s', interrupt_handler buf text no err s = Done tt s' /\ serviced no st s s'.
Proof.
  intros Hst Hn. assert (Hw : wp (interrupt_handler buf text no err) (fun _ s' => serviced no st s s') s) by (by apply (dispatch_wp hang _ _ _ _ st)).
  apply wp_Done in Hw as ([] & s' & Hrun & Hw). by exists s'.
Qed.
End dispatch.

(** The timer ticks on an idle machine. *)
Lemma interrupt_dispatch_witness : exists s', @interrupt_handler (fun _ _ _ => 0x1E) 0x3000 0x1000 32 0 (mkSys boot_state boot_dev) = Done tt s' /\ now s' = 1.
Proof.
  destruct (@interrupt_dispatch (fun _ _ _ => 0x1E) 0x3000 0x1000 32 0 (mkSys boot_state boot_dev) (0, 0, []) demo_keys ltac:(lia)) as (s' & Hrun & Hs).
  exists s'. split; [exact Hrun|exact (sv_now _ _ _ _ Hs)].
Defined.

(** ** Exceptions and panics *)

(** Text that can be shown: no NUL and no tab. *)
Definition plain (l : list Z) : Prop := Forall (fun c => c <> 0) l /\ tab ∉ l.

Lemma plain_app l l' : plain l -> plain l' -> plain (l ++ l').
Proof. intros [H1 H2] [H3 H4]. split; [by apply Forall_app|]. by intros [?|?]%elem_of_app. Qed.

Lemma plain_check l : forallb (fun c => negb (c =? 0) && negb (c =? tab)) l = true -> plain l.
Proof.
  intros Hl. assert (Hall : forall c, c ∈ l -> c <> 0 /\ c <> tab).
  { intros c Hc. rewrite forallb_forall in Hl. specialize (Hl c ltac:(by apply list_elem_of_In)). apply andb_prop in Hl as [E1%negb_true_iff%Z.eqb_neq E2%negb_true_iff%Z.eqb_neq]. done. }
  split; [apply Forall_forall; intros c Hc; by apply Hall|]. intros Hc. by apply Hall in Hc as [_ ?].
Qed.

Lemma dec_plain v : 0 <= v -> plain (dec_text v).
Proof.
  intros Hv. unfold dec_text. rewrite (proj2 (Z.ltb_ge v 0)) by lia. unfold text. destruct (v =? 0); [by apply plain_check|].
  pose proof (low_digits_range 10 v 20) as Hr. generalize dependent (low_digits 20 10 v). intros D Hr.
  assert (Hall : forall c, c ∈ rev (dec_char <$> D) -> 48 <= c < 58).
  { intros c Hin. rewrite list_elem_of_In, <- in_rev, <- list_elem_of_In in Hin. apply list_elem_of_fmap in Hin as (d & -> & Hd).
    specialize (Hr d ltac:(lia) Hv Hd). unfold dec_char. change (chr "0") with 48. lia. }
  split; [apply Forall_forall; intros c Hc%Hall; lia|]. intros Hc%Hall. unfold tab in Hc. lia.
Qed.

(** The message of an exception. *)
Definition exception_format : list Z := chars "Exception %u err=%u" ++ [newline].
Definition exception_text (no err : Z) : list Z :=
  chars "Exception " ++ dec_text (u32 no) ++ chars " err=" ++ dec_text (u32 err) ++ [newline].

Lemma conv_unsigned str v : conv_text str (chr "u") (u64 (u32 v)) = dec_text (u32 v).
Proof.
  change (conv_text str (chr "u") (u64 (u32 v))) with (dec_text (u32 (u64 (u32 v)))). pose proof (u32_bound v).
  rewrite (u64_id (u32 v)) by lia. by rewrite (u32_id (u32 v)) by lia.
Qed.

Lemma exception_render str no err : render str exception_format [u32 no; u32 err] = Some (exception_text no err).
Proof.
  unfold exception_text. rewrite <- (conv_unsigned str no), <- (conv_unsigned str err).
  generalize (u32 no) (u32 err). intros a b. reflexivity.
Qed.

Section fatal.
Context `{LineReady}.

(** An exception never returns to the interrupted program: its message is printed, and in the
    state that leaves the processor halts for good. *)
Theorem exception_halts buf text no err s sc : 0 <= no < 32 -> cstr (smem s) text exception_format -> shows s sc -> on_screen sc -> buf <> NULL ->
  (forall x, within buf 1024 x -> ~ vram x /\ ~ within text 21 x) ->
  (exists s', printed_text s buf sc (exception_text no err) s' /\
     forall halt f, halt s' = Fault f -> interrupt_handler_at halt buf text no err s = Fault f) /\
  interrupt_handler buf text no err s = Fault Diverged.
Proof.
  intros Hn Hc Hs Hon Hb Hout. pose proof (u32_bound err) as He.
  set (l := exception_text no err).
  assert (Hlen : (length l <= 64)%nat).
  { unfold l, exception_text. rewrite !length_app. pose proof (proj2 (dec_bytes (u32 no))). pose proof (proj2 (dec_bytes (u32 err))). cbn. lia. }
  assert (Hpl : plain l).
  { unfold l, exception_text. pose proof (u32_bound no). repeat apply plain_app; try (by apply plain_check); apply dec_plain; lia. }
  destruct (kprintf_runs (fun _ => []) buf text exception_format [u32 no; u32 err] l s sc) as (s' & Hrun & Hp); [| lia| |constructor|apply Hpl|apply Hpl|done|done|done|by intros x Hx; apply Hout|].
  - apply exception_render.
  - split; [done|]. split; [cbn; lia|]. intros x Hx Hw. unfold shown in Hw. rewrite (proj2 (Z.eqb_neq buf NULL)) in Hw by done.
    apply (Hout x); [unfold within in *; lia|]. exact Hx.
  - assert (Ef : fitting l = l) by (unfold fitting; by rewrite take_ge by lia). rewrite Ef in Hp.
    assert (Hat : forall halt f, halt s' = Fault f -> interrupt_handler_at halt buf text no err s = Fault f).
    { intros halt f Hf. unfold interrupt_handler_at. rewrite (proj2 (Z.ltb_lt no 32)) by lia. unfold mbind, M_bind. rewrite Hrun. by rewrite Hf. }
    split; [by exists s'|]. apply Hat, hang_diverges.
Qed.
End fatal.

(** The accesses of the cursor send nothing on the line. *)
Lemma moved_sent P s s' : moved P s s' -> sent (trace s') = sent (trace s).
Proof. intros [_ (l & E & Hl)]. rewrite E. cbn. by rewrite sent_app, (sent_cursor l Hl), app_nil_r. Qed.

Section panic.
Context `{LineReady}.

(** What a panic shows: "PANIC ", the message or "(null)", and the end of the line go out on
    the serial line after whatever was sent before, on a blank screen, white on red; then
    the processor halts for good. *)
Theorem kernel_panic_correct panic null nl message msg s :
  panic <> NULL -> null <> NULL -> nl <> NULL -> cstr (smem s) panic (chars "PANIC ") -> cstr (smem s) nl [newline] ->
  cstr (smem s) (if message =? NULL then null else message) msg -> Z.of_nat (length msg) < 2 ^ 64 ->
  (forall p l, p = panic /\ l = chars "PANIC " \/ p = nl /\ l = [newline] \/ p = (if message =? NULL then null else message) /\ l = msg ->
     forall x, within p (Z.of_nat (length l) + 1) x -> ~ vram x) ->
  (exists s', panic_report panic null nl message s = Done tt s' /\ shows s' (replicate 2000 (blank 0x4F), 0, 0) /\
     sent (trace s') = sent (trace s) ++ chars "PANIC " ++ msg ++ [newline] /\ agree (fun x => ~ vram x) (smem s) (smem s')) /\
  kernel_panic panic null nl message s = Fault Diverged.
Proof.
  intros Hp Hu Hl Cp Cl Cm Hlen Hout. set (m := if message =? NULL then null else message) in *.
  assert (Hm : m <> NULL) by (unfold m; bool_case; done).
  assert (Hw : wp (panic_report panic null nl message) (fun _ s' => shows s' (replicate 2000 (blank 0x4F), 0, 0) /\
     sent (trace s') = sent (trace s) ++ chars "PANIC " ++ msg ++ [newline] /\ agree (fun x => ~ vram x) (smem s) (smem s')) s).
  { unfold panic_report. apply wp_bind, wp_modify, wp_bind, wp_modify, wp_bind, clear_wp. intros s1 (Hs1 & Hm1 & _) _.
    pose proof (moved_sent _ _ _ Hm1) as Et. destruct Hm1 as [(m1 & K1 & A1) _]. cbn in A1, Et. assert (Hag : agree (fun x => ~ vram x) (smem s) (smem s1)) by (rewrite K1; exact A1).
    assert (Hstr : forall p l, cstr (smem s) p l -> (forall x, within p (Z.of_nat (length l) + 1) x -> ~ vram x) -> cstr (smem s1) p l).
    { intros p l Hc Ho. apply (cstr_frame (smem s)); [|done]. eapply agree_mono; [|exact Hag]. exact Ho. }
    apply wp_bind, (serial_wp s1 panic (chars "PANIC ")); [done|apply Hstr; [done|apply Hout; auto]|cbn; lia|]. intros s2 (t2 & -> & Ht2).
    apply wp_bind. fold m. apply (serial_wp _ m msg); [done|apply Hstr; [done|apply Hout; auto]|done|]. intros s3 (t3 & -> & Ht3).
    apply (serial_wp _ nl [newline]); [done|apply Hstr; [done|apply Hout; auto]|cbn; lia|]. intros s4 (t4 & -> & Ht4).
    split; [exact Hs1|]. split; [|exact Hag]. cbn. rewrite !sent_app, Ht2, Ht3, Ht4, Et. by rewrite <- !app_assoc. }
  apply wp_Done in Hw as ([] & s' & Hrun & Hw). split; [exists s'; split; [exact Hrun|exact Hw]|]. unfold kernel_panic, mbind, M_bind. rewrite Hrun. apply hang_diverges.
Qed.
End panic.

(** ** The properties at work *)

(** The text of an exception at 0x1000; "PANIC ", the end of a line and "oops" behind it. *)
Definition fatal_mem : mem :=
  store_chars (store_chars (store_chars (store_chars ∅ 0x1000 exception_format) 0x1100 (chars "PANIC ")) 0x1200 [newline]) 0x1300 (chars "oops").
Definition fatal_sys : sys := mkSys (set_mem fatal_mem boot_state) boot_dev.

Ltac check_cstr := split; [cbn; repeat (constructor; [discriminate|]); constructor|];
  let i := fresh in let Hi := fresh in intros i Hi; cbn in Hi; do 22 (try (destruct i as [|i]; [vm_compute; reflexivity|])); lia.

Lemma fatal_strings : cstr fatal_mem 0x1000 exception_format /\ cstr fatal_mem 0x1100 (chars "PANIC ") /\ cstr fatal_mem 0x1200 [newline] /\ cstr fatal_mem 0x1300 (chars "oops").
Proof. split; [check_cstr|]. split; [check_cstr|]. split; check_cstr. Qed.

Definition steady_line : Hardware := fun _ _ _ => 0x20.
Lemma steady_ready : @LineReady steady_line.
Proof. intros t. exists 1%nat. split; [done|]. left. discriminate. Qed.

Lemma exception_halts_witness : @interrupt_handler steady_line 0x3000 0x1000 13 0 fatal_sys = Fault Diverged.
Proof.
  destruct (holds_any fatal_mem) as [cells Hh]. destruct fatal_strings as (C1 & _).
  destruct (@exception_halts steady_line steady_ready 0x3000 0x1000 13 0 fatal_sys (cells, 0, 0)) as [_ Hd]; [lia|exact C1|split; [exact Hh|by split]|split; cbn; lia|discriminate| |exact Hd].
  intros x Hx. unfold vram, VGA_MEMORY, within in *. lia.
Defined.

Lemma kernel_panic_correct_witness : exists s', @panic_report steady_line 0x1100 1 0x1200 0x1300 fatal_sys = Done tt s' /\ sent (trace s') = chars "PANIC oops" ++ [newline].
Proof.
  destruct fatal_strings as (_ & C2 & C3 & C4).
  destruct (@kernel_panic_correct steady_line steady_ready 0x1100 1 0x1200 0x1300 (chars "oops") fatal_sys) as [(s' & Hrun & _ & Hs & _) _];
    [discriminate|discriminate|discriminate|exact C2|exact C3|exact C4|cbn; lia| |].
  { intros p l Hpl x Hx. unfold vram, VGA_MEMORY, within in *. destruct Hpl as [[-> ->]|[[-> ->]|[-> ->]]]; cbn in Hx; lia. }
  exists s'. split; [|exact Hs]. exact Hrun.
Defined.

Definition demo_stubs (base : Z) (n : Z) : list Z := (fun i => base + 16 * i) <$> seqZ 0 n.

Lemma interrupts_init_correct_witness : exists s' l, @interrupts_init demo_pic (demo_stubs 0x100000 32) (demo_stubs 0x100200 16) 0x5000 0x6000 (mkSys boot_state boot_dev) = Done tt s' /\
  trace s' = Sti :: l ++ [Lidt 0x6000] /\ pic_base (pic_after PIC1_DATA (mkPic 8 0 false false 0 []) (trace s')) = 0x20.
Proof.
  destruct (@interrupts_init_correct demo_pic (fun _ => 0xFF) demo_latch (demo_stubs 0x100000 32) (demo_stubs 0x100200 16) 0x5000 0x6000 (mkSys boot_state boot_dev)) as (s' & l & Hrun & _ & _ & Ht & _ & Hr & _).
  - reflexivity.
  - reflexivity.
  - apply Forall_app. unfold demo_stubs. split; apply Forall_forall; intros h (i & -> & Hi%elem_of_seqZ)%list_elem_of_fmap; lia.
  - reflexivity.
  - exact demo_operational.
  - exists s', l. split; [exact Hrun|]. split; [exact Ht|]. by rewrite (proj1 (Hr _)).
Defined.
