(* ===== verification/Preempt.v ===== *)
(** Code that interrupts may stop between any two of its accesses to the variables it shares
    with them: the reader of the keyboard's ring (kernel/drivers/keyboard.c) and the wait for
    the timer (kernel/drivers/pit.c), run on an x86 that serves requests at any time.  The
    handlers themselves are not interrupted: all gates are interrupt gates. *)
From S2P Require Import Prelude Machine Device Keyboard Pic Interrupts.

(** ** Interruptible code *)

(** Code as the sequence of its accesses; [Sleep] is a halted processor. *)
Inductive code (A : Type) : Type :=
| Return (a : A)
| Access {B : Type} (m : D B) (k : B -> code A)
| Sleep (k : code A).
Arguments Return {A} a.
Arguments Access {A B} m k.
Arguments Sleep {A} k.

(** What the code does when nothing interrupts it; [wake] is what ends a halt. *)
Fixpoint run {A} (wake : D unit) (c : code A) : D A :=
  match c with
  | Return a => mret a
  | Access m k => v ← m; run wake (k v)
  | Sleep k => wake ;; run wake k
  end.

(** The next access, if the code is not at its end and the processor not halted. *)
Definition access_of {A} (c : code A) : option (D (code A)) :=
  match c with
  | Access m k => Some (v ← m; mret (k v))
  | _ => None
  end.

(** An interrupt ends a halt. *)
Definition awake {A} (c : code A) : code A :=
  match c with
  | Sleep k => k
  | _ => c
  end.

(** *** keyboard.c *)

Definition advance_code (c : Z) : code Z :=
  Access (get_kbd g_kbd_tail) (fun tail =>
  Access (upd_kbd (set_tail (u16 (Z.land (tail + 1) 255)))) (fun _ =>
  Return c)).
Definition take_code : code Z :=
  Access (get_kbd g_kbd_tail) (fun tail =>
  Access (ring_get tail) advance_code).
Definition get_char_code : code Z :=
  Access (get_kbd g_kbd_head) (fun head =>
  Access (get_kbd g_kbd_tail) (fun tail =>
  if head =? tail then Return 0 else take_code)).

Definition has_input_code : code Z :=
  Access (get_kbd g_kbd_head) (fun head =>
  Access (get_kbd g_kbd_tail) (fun tail =>
  Return (if negb (head =? tail) then 1 else 0))).

(** *** pit.c: one round of the loop of [pit_wait] *)

Definition wait_round (target : Z) : code (unit + unit) :=
  Access pit_get_ticks (fun now =>
  if now <? target then Access hlt (fun _ => Sleep (Return (inl tt))) else Return (inr tt)).

(** *** Uninterrupted, these are the functions of Keyboard and Pic. *)

Lemma run_get_char wake s : run wake get_char_code s = keyboard_get_char s.
Proof.
  unfold get_char_code, take_code, advance_code, keyboard_get_char. cbn [run]. unfold mbind, M_bind, get_kbd, gets, ring_get, upd_kbd, modify.
  destruct (g_kbd_head _ =? g_kbd_tail _); [done|]. cbn [run]. unfold mbind, M_bind. destruct (_ && _); [|done]. unfold gets. done.
Qed.

Lemma run_has_input wake s : run wake has_input_code s = keyboard_has_input s.
Proof. done. Qed.

Lemma run_wait_round wake target s :
  run wake (wait_round target) s = (now ← pit_get_ticks; if now <? target then hlt ;; wake ;; mret (inl tt) else mret (inr tt)) s.
Proof.
  unfold wait_round. cbn [run]. unfold mbind, M_bind, pit_get_ticks, gets. by destruct (d_ticks (s_dev s) <? target).
Qed.

(** ** Executions *)

Section executions.
Context `{Hardware} (buf text : Z).

(** A request: its vector, and the scan code the keyboard has for it. *)
Abbreviation request := (Z * Z)%type.

(** One access of the code, or one request served. *)
Inductive step {A} : code A * sys -> list request -> code A * sys -> Prop :=
| step_access c m s c' s' : access_of c = Some m -> m s = Done c' s' -> step (c, s) [] (c', s')
| step_request c s no err s' : 32 <= no -> interrupt_handler buf text no err s = Done tt s' -> step (c, s) [(no, scan_code s)] (awake c, s').

(** A loop: a round that asks for another one is followed by it. *)
Inductive loop_step {X A} (body : X -> code (X + A)) : code (X + A) * sys -> list request -> code (X + A) * sys -> Prop :=
| round_step y e z : step y e z -> loop_step body y e z
| round_next x s : loop_step body (Return (inl x), s) [] (body x, s).

(** Executions, with the requests served in their order. *)
Inductive exec {C} (R : C -> list request -> C -> Prop) (x : C) : list request -> C -> Prop :=
| exec_start : exec R x [] x
| exec_step l y e z : exec R x l y -> R y e z -> exec R x (l ++ e) z.

(** An invariant that every step keeps holds along every execution. *)
Lemma exec_invariant {C} (R : C -> list request -> C -> Prop) (I : list request -> C -> Prop) x :
  I [] x -> (forall l y e z, I l y -> R y e z -> I (l ++ e) z) -> forall l y, exec R x l y -> I l y.
Proof. intros H0 HS l y Hx. induction Hx as [|l y e z _ IH Hs]; eauto. Qed.

(** What the requests of an execution do to the keys and to the clock. *)
Definition arrive (st : keys) (r : request) : keys := arrived r.1 r.2 st.
Definition arrivals (l : list request) (st : keys) : keys := fold_left arrive l st.
Definition ticks_of (l : list request) : Z := zsum (fun r => if r.1 =? 32 then 1 else 0) l.

Lemma arrivals_app l l' st : arrivals (l ++ l') st = arrivals l' (arrivals l st).
Proof. apply fold_left_app. Qed.

(** Requests only add characters behind those that wait. *)
Lemma typed_extends sc st : exists q, (typed sc st).2 = st.2 ++ q /\ Forall (fun c => c <> 0) q.
Proof.
  assert (Hnil : forall q : list Z, exists q', q = q ++ q' /\ Forall (fun c => c <> 0) q') by (intros q; exists []; by rewrite app_nil_r).
  destruct st as [[sh ca] q]. unfold typed. cbn [snd].
  destruct (_ || _); [apply Hnil|]. destruct (_ || _); [apply Hnil|]. destruct (sc =? 0x3A); [apply Hnil|]. destruct (128 <=? sc); [apply Hnil|].
  destruct (Z.eqb_spec (key_char sh ca sc) 0) as [|Hne]; [apply Hnil|]. cbn [snd]. unfold enqueue. destruct (_ <? _)%nat; [|apply Hnil].
  eexists. split; [done|]. by constructor.
Qed.

Lemma arrive_extends r st : exists q, (arrive st r).2 = st.2 ++ q /\ Forall (fun c => c <> 0) q.
Proof. unfold arrive, arrived. destruct (r.1 =? 33); [apply typed_extends|]. exists []. by rewrite app_nil_r. Qed.

(** A request served, as a step of the abstract keyboard. *)
Lemma served no err s s' st : 32 <= no -> keys_are s st -> interrupt_handler buf text no err s = Done tt s' -> serviced no st s s'.
Proof.
  intros Hn Hst Hrun. assert (Hw : wp (interrupt_handler buf text no err) (fun _ s' => serviced no st s s') s) by (by apply (dispatch_wp hang _ _ _ _ st)).
  unfold wp in Hw. by rewrite Hrun in Hw.
Qed.

(** *** The reader *)

(** The result of a read that took place after [l1] of the requests [l]. *)
Definition read_at (st : keys) (l : list request) (c : Z) (s : sys) : Prop :=
  exists l1 l2, l = l1 ++ l2 /\ c = hd 0 (arrivals l1 st).2 /\ keys_are s (arrivals l2 ((arrivals l1 st).1, tail (arrivals l1 st).2)).

(** What the head read says, as long as nobody moves the tail: the queue was empty at some
    instant, or it is not empty now. *)
Definition head_read (st : keys) (l : list request) (head : Z) (s : sys) : Prop :=
  (head = g_kbd_tail (d_kbd (s_dev s)) -> exists l1 l2, l = l1 ++ l2 /\ (arrivals l1 st).2 = []) /\
  (head <> g_kbd_tail (d_kbd (s_dev s)) -> (arrivals l st).2 <> []).

(** Where the reader is, and what it knows there. *)
Inductive reading (st : keys) (l : list request) : code Z * sys -> Prop :=
| at_head s : keys_are s (arrivals l st) -> reading st l (get_char_code, s)
| at_tail head s : keys_are s (arrivals l st) -> head_read st l head s ->
    reading st l (Access (get_kbd g_kbd_tail) (fun tail => if head =? tail then Return 0 else take_code), s)
| at_take s : keys_are s (arrivals l st) -> (arrivals l st).2 <> [] -> reading st l (take_code, s)
| at_ring s : keys_are s (arrivals l st) -> (arrivals l st).2 <> [] -> reading st l (Access (ring_get (g_kbd_tail (d_kbd (s_dev s)))) advance_code, s)
| at_advance s : keys_are s (arrivals l st) -> (arrivals l st).2 <> [] -> reading st l (advance_code (hd 0 (arrivals l st).2), s)
| at_store s : keys_are s (arrivals l st) -> (arrivals l st).2 <> [] ->
    reading st l (Access (upd_kbd (set_tail (u16 (Z.land (g_kbd_tail (d_kbd (s_dev s)) + 1) 255)))) (fun _ => Return (hd 0 (arrivals l st).2)), s)
| at_return c s : read_at st l c s -> reading st l (Return c, s).

Lemma arrivals_snoc l r st : arrivals (l ++ [r]) st = arrive (arrivals l st) r.
Proof. by rewrite arrivals_app. Qed.

Lemma arrive_hd r st : st.2 <> [] -> hd 0 (arrive st r).2 = hd 0 st.2 /\ (arrive st r).2 <> [].
Proof. intros Hne. destruct (arrive_extends r st) as (q & -> & _). by destruct st.2. Qed.

Lemma keys_empty s st : keys_are s st -> (g_kbd_head (d_kbd (s_dev s)) = g_kbd_tail (d_kbd (s_dev s)) <-> st.2 = []).
Proof.
  intros (Hq & _). rewrite (ring_empty _ _ (qu_head _ _ Hq) (qu_tail _ _ Hq)), <- (qu_length _ _ Hq). destruct st.2; cbn; split; (lia || done).
Qed.

Lemma head_read_now st l s : keys_are s (arrivals l st) -> head_read st l (g_kbd_head (d_kbd (s_dev s))) s.
Proof.
  intros Hk. pose proof (keys_empty _ _ Hk) as He. split.
  - intros Hh. exists l, []. rewrite app_nil_r. split; [done|]. by apply He.
  - intros Hh Hn. by apply Hh, He.
Qed.

Lemma head_read_request st l r head s s' : head_read st l head s -> g_kbd_tail (d_kbd (s_dev s')) = g_kbd_tail (d_kbd (s_dev s)) -> head_read st (l ++ [r]) head s'.
Proof.
  intros [H1 H2] Et. split; rewrite Et.
  - intros Hh. destruct (H1 Hh) as (l1 & l2 & -> & He). exists l1, (l2 ++ [r]). by rewrite app_assoc.
  - intros Hh. rewrite arrivals_snoc. by apply arrive_hd, H2.
Qed.

(** What every state of the code keeps when a request is served. *)
Lemma request_keeps l st r s s' : (forall st', keys_are s st' -> serviced r.1 st' s s') -> r.2 = scan_code s -> keys_are s (arrivals l st) ->
  keys_are s' (arrivals (l ++ [r]) st) /\ g_kbd_tail (d_kbd (s_dev s')) = g_kbd_tail (d_kbd (s_dev s)).
Proof.
  intros Hs Hsc Hk. split; [|exact (sv_tail _ _ _ _ (Hs _ Hk))]. rewrite arrivals_snoc. unfold arrive. rewrite Hsc. exact (sv_keys _ _ _ _ (Hs _ Hk)).
Qed.

(** Requests leave the reader what it knows. *)
Lemma reading_request st l c s r s' : reading st l (c, s) -> (forall st', keys_are s st' -> serviced r.1 st' s s') -> r.2 = scan_code s -> reading st (l ++ [r]) (c, s').
Proof.
  intros Hr Hs Hsc.
  assert (Hq : (arrivals l st).2 <> [] -> hd 0 (arrivals (l ++ [r]) st).2 = hd 0 (arrivals l st).2 /\ (arrivals (l ++ [r]) st).2 <> [])
    by (rewrite arrivals_snoc; apply arrive_hd).
  inversion Hr as [s0 H1 E|h s0 H1 H2 E|s0 H1 H2 E|s0 H1 H2 E|s0 H1 H2 E|s0 H1 H2 E|c0 s0 H1 E]; subst;
    try (destruct (request_keeps _ _ _ _ _ Hs Hsc H1) as [Hk Et]; try destruct (Hq H2) as [Eq Hne]).
  - by constructor.
  - constructor; [done|]. by eapply head_read_request.
  - by constructor.
  - rewrite <- Et. by constructor.
  - rewrite <- Eq. by constructor.
  - rewrite <- Eq, <- Et. by constructor.
  - constructor. destruct H1 as (l1 & l2 & -> & -> & H1). exists l1, (l2 ++ [r]). rewrite app_assoc.
    split; [done|]. split; [done|]. exact (proj1 (request_keeps _ _ _ _ _ Hs Hsc H1)).
Qed.

(** The next access of the reader. *)
Lemma reading_access st l c s : reading st l (c, s) ->
  (exists v, c = Return v) \/
  exists m c' s', access_of c = Some m /\ m s = Done c' s' /\ reading st l (c', s').
Proof.
  intros Hr. inversion Hr as [s0 H1 E|h s0 H1 H2 E|s0 H1 H2 E|s0 H1 H2 E|s0 H1 H2 E|s0 H1 H2 E|c0 s0 H1 E]; subst; [right..|by left; eexists].
  - do 3 eexists. split; [done|]. split; [done|]. constructor; [done|]. by apply head_read_now.
  - do 3 eexists. split; [done|]. split; [done|]. cbv beta. destruct (Z.eqb_spec h (g_kbd_tail (d_kbd (s_dev s)))) as [E|Hne]; constructor; [|done|by apply H2].
    destruct (proj1 H2 E) as (l1 & l2 & -> & He). exists l1, l2. rewrite He. split; [done|]. split; [done|].
    rewrite arrivals_app in H1. destruct (arrivals l1 st) as [m q]. cbn in He. by subst q.
  - do 3 eexists. split; [done|]. split; [done|]. by constructor.
  - destruct H1 as (Hq & Hm). destruct (arrivals l st) as [m [|c q]] eqn:E; [done|]. destruct (queued_pop _ _ _ Hq) as [Hc _]. pose proof (qu_tail _ _ Hq) as Ht.
    do 3 eexists. split; [done|]. split.
    { unfold ring_get, mbind, M_bind. rewrite (proj2 (Z.leb_le _ _)), (proj2 (Z.ltb_lt _ _)) by lia. reflexivity. }
    cbv beta. rewrite Hc. replace c with (hd 0 (arrivals l st).2) by (by rewrite E). constructor; rewrite E; [by split|done].
  - do 3 eexists. split; [done|]. split; [done|]. by constructor.
  - do 3 eexists. split; [done|]. split; [done|]. constructor. exists l, []. rewrite app_nil_r. split; [done|]. split; [done|].
    destruct H1 as (Hq & Hm). destruct (arrivals l st) as [m [|c q]] eqn:E; [done|]. destruct (queued_pop _ _ _ Hq) as [_ Hp]. pose proof (qu_tail _ _ Hq) as Ht.
    rewrite land_255, u16_id by (pose proof (Z.mod_pos_bound (g_kbd_tail (d_kbd (s_dev s)) + 1) 256 ltac:(lia)); lia). by split.
Qed.

Lemma reader_invariant st s l y : keys_are s st -> exec step (get_char_code, s) l y -> reading st l y.
Proof.
  intros Hst. revert l y. apply exec_invariant; [by constructor|]. intros l y e z Hr Hs. destruct Hs as [c m s1 c' s' Hc Hm|c s1 no err s' Hn Hrun].
  - rewrite app_nil_r. destruct (reading_access _ _ _ _ Hr) as [[v ->]|(m' & c1 & s2 & Hc' & Hm' & Hr')]; [done|]. congruence.
  - replace (awake c) with c by (by inversion Hr; try (destruct (_ =? _))). apply (reading_request _ _ _ _ _ _ Hr); [|done]. intros st' Hk. by eapply served.
Qed.

Lemma call_reads st s l c s' : keys_are s st -> exec step (get_char_code, s) l (Return c, s') -> read_at st l c s'.
Proof. intros Hst He. apply (reader_invariant st) in He; [|done]. by inversion He. Qed.

(** *** Calls one after the other

    [calls] lists them with the requests served during each, those between two calls counted
    to one of them, and with their results. *)
Inductive session (s : sys) : list (list request * Z) -> sys -> Prop :=
| session_start : session s [] s
| session_call calls s1 l c s2 : session s calls s1 -> exec step (get_char_code, s1) l (Return c, s2) -> session s (calls ++ [(l, c)]) s2.

(** What happens to the queue: a request is served, or a character is taken. *)
Inductive event := Served (r : request) | Got (c : Z).
Definition occurs (st : keys) (e : event) : keys :=
  match e with
  | Served r => arrive st r
  | Got _ => (st.1, tail st.2)
  end.
Definition requests_of (evs : list event) : list request := omap (fun e => match e with Served r => Some r | Got _ => None end) evs.
Definition reads_of (evs : list event) : list Z := omap (fun e => match e with Served _ => None | Got c => Some c end) evs.

(** Every character taken is the oldest one, or 0 for an empty queue. *)
Fixpoint oldest_first (st : keys) (evs : list event) : Prop :=
  match evs with
  | [] => True
  | e :: evs => match e with Got c => c = hd 0 st.2 | Served _ => True end /\ oldest_first (occurs st e) evs
  end.

(** The characters that found room, in their order. *)
Fixpoint accepted (st : keys) (evs : list event) : list Z :=
  match evs with
  | [] => []
  | e :: evs => match e with Served r => drop (length st.2) (arrive st r).2 | Got _ => [] end ++ accepted (occurs st e) evs
  end.

Lemma oldest_first_app st e1 e2 : oldest_first st e1 -> oldest_first (fold_left occurs e1 st) e2 -> oldest_first st (e1 ++ e2).
Proof. revert st. induction e1 as [|e e1 IH]; intros st H1 H2; [done|]. destruct H1 as [H1 H1']. split; [done|]. by apply IH. Qed.

Lemma served_events l st : fold_left occurs (Served <$> l) st = arrivals l st /\ oldest_first st (Served <$> l) /\ requests_of (Served <$> l) = l /\ reads_of (Served <$> l) = [].
Proof.
  revert st. induction l as [|r l IH]; intros st; [done|]. destruct (IH (arrive st r)) as (H1 & H2 & H3 & H4). split; [exact H1|]. split; [by split|].
  split; [|exact H4]. unfold requests_of in *. csimpl. by f_equal.
Qed.

(** First in, first out. *)
Lemma fifo st evs : oldest_first st evs -> Forall (fun c => c <> 0) st.2 ->
  st.2 ++ accepted st evs = filter (fun c => c <> 0) (reads_of evs) ++ (fold_left occurs evs st).2.
Proof.
  revert st. induction evs as [|e evs IH]; intros st Ho Hn; cbn [accepted fold_left]; [by rewrite app_nil_r|]. destruct Ho as [He Ho]. destruct e as [r|c]; cbn [occurs] in *.
  - destruct (arrive_extends r st) as (q & E & Hq). specialize (IH _ Ho). rewrite E in *. change (reads_of (Served r :: evs)) with (reads_of evs).
    rewrite <- IH by (by apply Forall_app). by rewrite drop_app_length, app_assoc.
  - specialize (IH _ Ho). cbn [snd] in IH. change (reads_of (Got c :: evs)) with (c :: reads_of evs). destruct st as [m [|d q]]; cbn [snd tail hd app] in *; subst c.
    + rewrite filter_cons_False by (intros H0; by apply H0). by apply IH.
    + apply Forall_cons in Hn as [Hd Hq]. rewrite filter_cons_True by done. cbn [app]. f_equal. by apply IH.
Qed.

Lemma session_events st s calls s' : keys_are s st -> session s calls s' -> exists evs, requests_of evs = concat (fst <$> calls) /\ reads_of evs = snd <$> calls /\
  oldest_first st evs /\ keys_are s' (fold_left occurs evs st).
Proof.
  intros Hst Hs. induction Hs as [|calls s1 l c s2 _ (evs & E1 & E2 & Ho & Hk) He]; [by exists []|].
  destruct (call_reads _ _ _ _ _ Hk He) as (l1 & l2 & -> & -> & Hk2). set (st1 := fold_left occurs evs st) in *.
  destruct (served_events l1 st1) as (A1 & A2 & A3 & A4). destruct (served_events l2 ((arrivals l1 st1).1, tail (arrivals l1 st1).2)) as (B1 & B2 & B3 & B4).
  exists (evs ++ (Served <$> l1) ++ Got (hd 0 (arrivals l1 st1).2) :: (Served <$> l2)). unfold requests_of, reads_of in *. rewrite !omap_app, !fmap_app, concat_app. cbn. rewrite app_nil_r.
  split; [by rewrite E1, A3, B3|]. split; [by rewrite E2, A4, B4|]. split.
  - apply oldest_first_app; [done|]. apply oldest_first_app; [done|]. fold st1. rewrite A1. by split.
  - rewrite !fold_left_app. fold st1. rewrite A1. cbn [fold_left occurs]. by rewrite B1.
Qed.

(** C38: The reader of the keyboard is atomic: whatever requests are served between its accesses of
    the ring, it returns the oldest character (or 0) of the queue as it was at one instant
    of the call, after the requests [l1]; the characters typed later are all behind the
    rest.  It never stops half-way, and no access is out of bounds.  Over any number of
    calls the characters read are those typed, in their order: none is lost but those that
    found 255 waiting, none is read twice. *)
Theorem get_char_linearizable st s : keys_are s st ->
  (forall l c s', exec step (get_char_code, s) l (Return c, s') -> read_at st l c s') /\
  (forall l y, exec step (get_char_code, s) l y -> (exists c, y.1 = Return c) \/ exists z, step y [] z) /\
  (forall calls s', session s calls s' -> Forall (fun c => c <> 0) st.2 -> exists evs st', keys_are s' st' /\
     requests_of evs = concat (fst <$> calls) /\ reads_of evs = snd <$> calls /\ oldest_first st evs /\
     st.2 ++ accepted st evs = filter (fun c => c <> 0) (snd <$> calls) ++ st'.2).
Proof.
  intros Hst. split; [|split].
  - intros l c s'. by apply call_reads.
  - intros l [c s'] He. destruct (reading_access _ _ _ _ (reader_invariant _ _ _ _ Hst He)) as [[v ->]|(m & c1 & s2 & Hc & Hm & _)]; [left; by eexists|right]. eexists. by econstructor.
  - intros calls s' Hs Hn. destruct (session_events st s calls s' Hst Hs) as (evs & E1 & E2 & Ho & Hk). exists evs, (fold_left occurs evs st).
    split; [done|]. split; [done|]. split; [done|]. split; [done|]. rewrite <- E2. by apply fifo.
Qed.

(** *** [keyboard_has_input] *)

Definition waits (st : keys) : Z := match st.2 with [] => 0 | _ => 1 end.

Inductive polling (st : keys) (l : list request) : code Z * sys -> Prop :=
| poll_head s : keys_are s (arrivals l st) -> polling st l (has_input_code, s)
| poll_tail head s : keys_are s (arrivals l st) -> head_read st l head s ->
    polling st l (Access (get_kbd g_kbd_tail) (fun tail => Return (if negb (head =? tail) then 1 else 0)), s)
| poll_return v s : keys_are s (arrivals l st) -> (exists l1 l2, l = l1 ++ l2 /\ v = waits (arrivals l1 st)) -> polling st l (Return v, s).

(** [keyboard_has_input] tells whether a character was waiting at one instant of the call, and
    changes nothing. *)
Theorem has_input_linearizable st s : keys_are s st -> forall l v s', exec step (has_input_code, s) l (Return v, s') ->
  keys_are s' (arrivals l st) /\ exists l1 l2, l = l1 ++ l2 /\ v = waits (arrivals l1 st).
Proof.
  intros Hst l v s' He. cut (polling st l (Return v, s')); [by inversion 1|]. revert l v s' He.
  assert (Hinv : forall l y, exec step (has_input_code, s) l y -> polling st l y); [|intros; by apply Hinv].
  apply exec_invariant; [by constructor|]. intros l y e z Hp Hs. destruct Hs as [c m s1 c' s' Hc Hm|c s1 no err s' Hn Hrun].
  - rewrite app_nil_r. inversion Hp as [s0 H1 E|h s0 H1 H2 E|v s0 H1 H2 E]; subst; cbn in Hc; try discriminate Hc; injection Hc as <-; injection Hm as <- <-.
    + constructor; [done|]. by apply head_read_now.
    + constructor; [done|]. destruct (Z.eqb_spec h (g_kbd_tail (d_kbd (s_dev s1)))) as [E|Hne]; cbn [negb].
      * destruct (proj1 H2 E) as (l1 & l2 & -> & He). exists l1, l2. unfold waits. by rewrite He.
      * exists l, []. rewrite app_nil_r. split; [done|]. unfold waits. pose proof (proj2 H2 Hne) as Hn. by destruct (arrivals l st).2.
  - assert (Hsv : forall st', keys_are s1 st' -> serviced no st' s1 s') by (intros; by eapply served).
    inversion Hp as [s0 H1 E|h s0 H1 H2 E|v s0 H1 H2 E]; subst; destruct (request_keeps l st (no, scan_code s1) s1 s' Hsv eq_refl H1) as [Hk Et]; cbn [awake]; constructor; try done.
    + by eapply head_read_request.
    + destruct H2 as (l1 & l2 & -> & ->). exists l1, (l2 ++ [(no, scan_code s1)]). by rewrite app_assoc.
Qed.

(** *** The wait for the timer *)

(** Where [pit_wait] is in its loop after the requests [l], its target being [T]. *)
Inductive waiting (T start : Z) (l : list request) : code (unit + unit) * sys -> Prop :=
| at_round s : waiting T start l (wait_round T, s)
| at_hlt s : waiting T start l (Access hlt (fun _ => Sleep (Return (inl tt))), s)
| at_sleep s : waiting T start l (Sleep (Return (inl tt)), s)
| at_again s : waiting T start l (Return (inl tt), s)
| at_end s : (exists l1 l2, l = l1 ++ l2 /\ T <= u64 (start + ticks_of l1)) -> waiting T start l (Return (inr tt), s).

Lemma ticks_of_nonneg l : 0 <= ticks_of l.
Proof. unfold ticks_of. induction l as [|r l IH]; cbn [zsum]; [lia|]. bool_case; lia. Qed.

Definition timed (start : Z) (l : list request) (s : sys) : Prop := (exists st, keys_are s st) /\ now s = u64 (start + ticks_of l).

Lemma timed_request start l s no err s' : timed start l s -> 32 <= no -> interrupt_handler buf text no err s = Done tt s' ->
  timed start (l ++ [(no, scan_code s)]) s'.
Proof.
  intros [[st Hst] Hnow] Hn Hrun. pose proof (served _ _ _ _ _ Hn Hst Hrun) as Hs. split; [eexists; exact (sv_keys _ _ _ _ Hs)|].
  rewrite (sv_now _ _ _ _ Hs), Hnow. unfold ticks_of. rewrite zsum_app. cbn [zsum fst]. unfold u64.
  destruct (no =? 32); [rewrite Zplus_mod_idemp_l|]; f_equal; lia.
Qed.

(** Accesses of the loop touch neither the keys nor the clock. *)
Lemma waiting_step T start l y e z : waiting T start l y -> timed start l y.2 -> loop_step (fun _ => wait_round T) y e z ->
  waiting T start (l ++ e) z /\ timed start (l ++ e) z.2.
Proof.
  intros Hw Ht Hs. destruct Hs as [y e z Hs|[] s]; [|rewrite app_nil_r; split; [constructor|done]]. destruct Hs as [c m s c' s' Hc Hm|c s no err s' Hn Hrun].
  - rewrite app_nil_r. destruct Ht as [[st Hst] Hnow]. inversion Hw; subst; cbn in Hc; try discriminate Hc; injection Hc as <-; unfold mbind, M_bind, pit_get_ticks, gets in Hm; cbn in Hm; injection Hm as <- <-.
    + split; [|split; [by exists st|done]]. destruct (Z.ltb_spec (d_ticks (s_dev s)) T); constructor. exists l, []. rewrite app_nil_r. split; [done|].
      cbn [snd] in Hnow. unfold now in Hnow. lia.
    + split; [constructor|]. split; [by exists st|done].
  - split; [|by eapply timed_request]. inversion Hw as [| | | |s0 Hend]; subst; constructor. destruct Hend as (l1 & l2 & -> & Hend). exists l1, (l2 ++ [(no, scan_code s)]). by rewrite app_assoc.
Qed.

Lemma exec_app {C} (R : C -> list request -> C -> Prop) x l y : exec R x l y -> forall l' z, exec R y l' z -> exec R x (l ++ l') z.
Proof. intros Hx l' z Hy. induction Hy as [|l' u e z _ IH Hs]; [by rewrite app_nil_r|]. rewrite app_assoc. by eapply exec_step. Qed.

(** Code that is past its target reads the clock once more and returns. *)
Lemma round_returns T s : T <= now s -> exec (loop_step (fun _ => wait_round T)) (wait_round T, s) [] (Return (inr tt), s).
Proof.
  intros Hle. apply (exec_step _ _ [] (wait_round T, s) []); [constructor|]. apply round_step. eapply step_access; [done|].
  unfold mbind, M_bind, pit_get_ticks, gets. cbn. unfold now in Hle. by rewrite (proj2 (Z.ltb_ge _ _)) by lia.
Qed.

Lemma again_returns T s : T <= now s -> exec (loop_step (fun _ => wait_round T)) (Return (inl tt), s) [] (Return (inr tt), s).
Proof.
  intros Hle. apply (exec_app _ _ [] (wait_round T, s)) with (l' := []); [|by apply round_returns].
  apply (exec_step _ _ [] (Return (inl tt), s) []); [constructor|]. apply (round_next (fun _ => wait_round T) tt).
Qed.

(** C39: [pit_wait] does not return before its time has passed, whenever the requests arrive; and
    once it has, it returns on its own accord, or is halted and returns after whatever
    request comes next. *)
Theorem pit_wait_interrupted ms s st : keys_are s st -> 0 <= now s -> 0 <= ms -> now s + ms < 2 ^ 64 ->
  let R := loop_step (fun _ => wait_round (u64 (now s + ms))) in let start := (wait_round (u64 (now s + ms)), s) in
  (forall l s', exec R start l (Return (inr tt), s') -> now s + ticks_of l < 2 ^ 64 -> ms <= ticks_of l) /\
  (forall l y, exec R start l y -> ms <= ticks_of l -> now s + ticks_of l + 1 < 2 ^ 64 ->
     (exists s', exec R y [] (Return (inr tt), s')) \/
     exists z, exec R y [] z /\ (exists k, z.1 = Sleep k) /\ forall e z', R z e z' -> exists s', exec R z' [] (Return (inr tt), s')).
Proof.
  intros Hst H0 Hms Hlim. cbv zeta. rewrite u64_id by lia. set (T := now s + ms) in *. set (R := loop_step _). set (start := (wait_round T, s)).
  assert (Hinv : forall l y, exec R start l y -> waiting T (now s) l y /\ timed (now s) l y.2).
  { apply exec_invariant.
    - split; [constructor|]. split; [by exists st|]. cbn [snd start]. unfold ticks_of. cbn [zsum]. rewrite Z.add_0_r, u64_id by lia. done.
    - intros l y e z [Hw Ht] Hs. by eapply waiting_step. }
  split.
  - intros l s' He Hb. destruct (Hinv _ _ He) as [Hw _]. inversion Hw as [| | | |s0 (l1 & l2 & -> & Hend)]; subst.
    unfold ticks_of in *. rewrite zsum_app in *. fold (ticks_of l1) (ticks_of l2) in *. pose proof (ticks_of_nonneg l1). pose proof (ticks_of_nonneg l2).
    rewrite u64_id in Hend by lia. unfold T in Hend. lia.
  - intros l [c1 s1] He Hl Hb. destruct (Hinv _ _ He) as [Hw [[st1 Hst1] Hnow]]. cbn [snd] in *. pose proof (ticks_of_nonneg l). rewrite u64_id in Hnow by lia.
    assert (Hle : T <= now s1) by (unfold T; lia).
    assert (Hsleep : forall s2, keys_are s2 st1 -> now s2 = now s1 -> forall e z', R (Sleep (Return (inl tt)), s2) e z' -> exists s', exec R z' [] (Return (inr tt), s')).
    { intros s2 Hst2 Hn2 e z' Hs. inversion Hs as [y0 e0 z0 Hs' E1 E2 E3|]; subst. inversion Hs' as [c m s3 c' s' Hc|c s3 no err s' Hn Hrun]; subst; [discriminate|].
      exists s'. apply again_returns. pose proof (served _ _ _ _ _ Hn Hst2 Hrun) as Hsv. rewrite (sv_now _ _ _ _ Hsv). destruct (no =? 32); [rewrite u64_id by lia|]; lia. }
    inversion Hw as [s0|s0|s0|s0|s0 _]; subst.
    + left. exists s1. by apply round_returns.
    + right. exists (Sleep (Return (inl tt)), record Hlt s1). split; [|split; [by eexists|by apply Hsleep]].
      apply (exec_step _ _ [] (Access hlt (fun _ => Sleep (Return (inl tt))), s1) []); [constructor|]. apply round_step. by eapply step_access.
    + right. exists (Sleep (Return (inl tt)), s1). split; [constructor|]. split; [by eexists|by apply Hsleep].
    + left. exists s1. by apply again_returns.
    + left. exists s1. constructor.
Qed.

End executions.

(** ** The executions exist *)

Definition idle : sys := mkSys boot_state boot_dev.
#[local] Instance demo_key : Hardware := fun _ _ _ => 0x1E.

(** The idle machine after a request. *)
Definition after (no : Z) : sys := match interrupt_handler 0x3000 0x1000 no 0 idle with Done _ s => s | Fault _ => idle end.
Lemma after_33 : interrupt_handler 0x3000 0x1000 33 0 idle = Done tt (after 33).
Proof. vm_compute. reflexivity. Qed.
Lemma after_32 : interrupt_handler 0x3000 0x1000 32 0 idle = Done tt (after 32).
Proof. vm_compute. reflexivity. Qed.

Lemma exec_access {A} (R : code A * sys -> list (Z * Z) -> code A * sys -> Prop) x l c m s c' s' : exec R x l (c, s) ->
  (step 0x3000 0x1000 (c, s) [] (c', s') -> R (c, s) [] (c', s')) -> access_of c = Some m -> m s = Done c' s' -> exec R x l (c', s').
Proof. intros Hx HR Hc Hm. rewrite <- (app_nil_r l). eapply exec_step; [exact Hx|]. apply HR. by econstructor. Qed.

(** The key A is pressed after the reader has seen an empty ring: it returns 0, and the key
    stays for the next reader. *)
Lemma get_char_linearizable_witness :
  exec (step 0x3000 0x1000) (get_char_code, idle) [(33, 0x1E)] (Return 0, after 33) /\ read_at (0, 0, []) [(33, 0x1E)] 0 (after 33).
Proof.
  destruct (@get_char_linearizable demo_key 0x3000 0x1000 (0, 0, []) idle demo_keys) as [Hread _].
  assert (He : exec (step 0x3000 0x1000) (get_char_code, idle) [(33, 0x1E)] (Return 0, after 33)); [|split; [exact He|exact (Hread _ _ _ He)]].
  set (tail_read := Access (get_kbd g_kbd_tail) (fun tail => if 0 =? tail then Return 0 else take_code)).
  apply (exec_access _ _ _ tail_read _ (after 33) _ _) with (2 := fun H => H) (3 := eq_refl); [|vm_compute; reflexivity].
  apply (exec_step _ _ [] (tail_read, idle) [(33, 0x1E)]).
  - apply (exec_access _ _ _ get_char_code _ idle _ _ (exec_start _ _) (fun H => H) eq_refl). reflexivity.
  - exact (step_request 0x3000 0x1000 tail_read idle 33 0 (after 33) ltac:(lia) after_33).
Defined.

(** The tick that ends the wait arrives after the clock was read and before the processor
    halts: the processor sleeps although the time has passed, until some other request. *)
Lemma wait_oversleeps :
  exec (loop_step 0x3000 0x1000 (fun _ => wait_round 1)) (wait_round 1, idle) [(32, 0x1E)] (Sleep (Return (inl tt)), record Hlt (after 32)) /\ 1 <= now (after 32).
Proof.
  split; [|vm_compute; discriminate]. set (halt := @Access (unit + unit) unit hlt (fun _ => Sleep (Return (inl tt)))).
  apply (exec_access _ _ _ halt _ (after 32) _ _) with (2 := round_step _ _ _ _ _ _) (3 := eq_refl); [|reflexivity].
  apply (exec_step _ _ [] (halt, idle) [(32, 0x1E)]).
  - apply (exec_access _ _ _ (wait_round 1) _ idle _ _ (exec_start _ _) (round_step _ _ _ _ _ _) eq_refl). reflexivity.
  - exact (round_step _ _ _ _ _ _ (step_request 0x3000 0x1000 halt idle 32 0 (after 32) ltac:(lia) after_32)).
Qed.

Lemma pit_wait_interrupted_witness : let R := loop_step 0x3000 0x1000 (fun _ => wait_round 1) in let y := (Sleep (Return (inl tt)), record Hlt (after 32)) in
  (exists s', exec R y [] (Return (inr tt), s')) \/
  exists z, exec R y [] z /\ (exists k, z.1 = Sleep k) /\ forall e z', R z e z' -> exists s', exec R z' [] (Return (inr tt), s').
Proof.
  destruct (@pit_wait_interrupted demo_key 0x3000 0x1000 1 idle (0, 0, []) demo_keys) as [_ Hlive]; [vm_compute; discriminate|lia|vm_compute; reflexivity|].
  apply (Hlive [(32, 0x1E)]); [exact (proj1 wait_oversleeps)|vm_compute; discriminate|vm_compute; reflexivity].
Defined.
