(* ===== verification/Entry.v ===== *)
(** kernel/arch/x86_64/gdt.asm, interrupts.asm and idt.asm: the segments, and the way from an interrupt to
    [interrupt_handler] and back, as instructions on the registers and the stack. *)
From Stdlib Require Import String Ascii.
From S2P Require Import Prelude Machine KString Stdio StdioProps StdioFormat Device Vga VgaProps Serial Console Keyboard Pic Interrupts.

#[local] Opaque load store.

(** ** The processor *)

Inductive reg := RAX | RBX | RCX | RDX | RBP | RDI | RSI | R8 | R9 | R10 | R11 | R12 | R13 | R14 | R15 | RSP.

#[export] Instance reg_eq_dec : EqDecision reg.
Proof. solve_decision. Defined.

Record cpu := mkCpu { c_sys : sys; c_reg : reg -> Z; c_rip : Z; c_cs : Z; c_rflags : Z; c_ss : Z }.

Abbreviation X := (M cpu).
Abbreviation cmem c := (smem (c_sys c)).
Abbreviation rsp c := (c_reg c RSP).

Definition set_reg (r : reg) (v : Z) (f : reg -> Z) : reg -> Z := fun r' => if decide (r' = r) then v else f r'.
Definition upd_reg (f : (reg -> Z) -> reg -> Z) (c : cpu) : cpu := mkCpu (c_sys c) (f (c_reg c)) (c_rip c) (c_cs c) (c_rflags c) (c_ss c).
Definition upd_sys (f : sys -> sys) (c : cpu) : cpu := mkCpu (f (c_sys c)) (c_reg c) (c_rip c) (c_cs c) (c_rflags c) (c_ss c).
Definition set_flags (v : Z) (c : cpu) : cpu := mkCpu (c_sys c) (c_reg c) (c_rip c) (c_cs c) v (c_ss c).

(** Code of the kernel, run by the processor. *)
Definition lift_sys {A} (d : D A) : X A := fun c =>
  match d (c_sys c) with
  | Done a s => Done a (upd_sys (fun _ => s) c)
  | Fault f => Fault f
  end.

Definition rd (r : reg) : X Z := gets (fun c => c_reg c r).
Definition wr (r : reg) (v : Z) : X unit := modify (upd_reg (set_reg r v)).

(** ** Instructions *)

Definition push (v : Z) : X unit :=
  sp ← rd RSP;
  wr RSP (u64 (sp - 8)) ;;
  lift_sys (lift (store64 (u64 (sp - 8)) v)).
Definition pop_val : X Z :=
  sp ← rd RSP;
  v ← lift_sys (lift (load64 sp));
  wr RSP (u64 (sp + 8)) ;;
  mret v.
Definition push_reg (r : reg) : X unit := v ← rd r; push v.
Definition pop (r : reg) : X unit := v ← pop_val; wr r v.
Definition mov (r r' : reg) : X unit := v ← rd r'; wr r v.
Definition add_imm (r : reg) (n : Z) : X unit := v ← rd r; wr r (u64 (v + n)).
(** The direction flag is bit 10. *)
Definition cld : X unit := modify (fun c => set_flags (Z.ldiff (c_rflags c) (2 ^ 10)) c).
(** [iretq] takes the interrupted context from the stack. *)
Definition iretq : X unit :=
  ip ← pop_val;
  cs ← pop_val;
  fl ← pop_val;
  sp ← pop_val;
  ss ← pop_val;
  modify (fun c => mkCpu (c_sys c) (set_reg RSP sp (c_reg c)) ip cs fl ss).

(** Straight-line code. *)
Definition block (l : list (X unit)) : X unit := foldr (fun i k => i ;; k) (mret tt) l.

(** Delivery of an interrupt in 64-bit mode, gate [g], with or without an error code: the
    stack is aligned to 16, the context is saved, interrupts (bit 9) and single steps (bit 8)
    are off. *)
Definition deliver (g : idt_entry) (err : option Z) : X unit :=
  sp ← rd RSP;
  c ← gets (fun c => c);
  wr RSP (Z.ldiff sp 15) ;;
  push (c_ss c) ;;
  push sp ;;
  push (c_rflags c) ;;
  push (c_cs c) ;;
  push (c_rip c) ;;
  match err with Some e => push e | None => mret tt end ;;
  modify (fun c => mkCpu (c_sys c) (c_reg c) (gate_target g) (selector g) (Z.ldiff (c_rflags c) (2 ^ 9 + 2 ^ 8)) (c_ss c)).

(** ** gdt.asm *)

Definition gdt64 : list Z := [0; 0x00AF9A000000FFFF; 0x00AF92000000FFFF; 0x00AFFA000000FFFF; 0x00AFF2000000FFFF; 0].
(** [gdt64_end] lies behind the descriptor, whose ten bytes are counted in. *)
Definition gdt64_limit : Z := 8 * Z.of_nat (length gdt64) + 2 + 8 - 1.

(** What the processor reads in a descriptor: present (bit 47), privilege (45, 46), a segment
    of code or data (44), executable (43), writable or readable (41), 64-bit code (53). *)
Record segment := mkSegment { sg_present : bool; sg_dpl : Z; sg_user : bool; sg_code : bool; sg_rw : bool; sg_long : bool }.
Definition decode (d : Z) : segment :=
  mkSegment (Z.testbit d 47) (Z.land (Z.shiftr d 45) 3) (Z.testbit d 44) (Z.testbit d 43) (Z.testbit d 41) (Z.testbit d 53).
Definition segment_of (sel : Z) : option segment := if sel <=? gdt64_limit then decode <$> gdt64 !! Z.to_nat (sel / 8) else None.

(** Every gate leads into the 64-bit code of ring 0, which is the code boot.asm jumps to; the
    selectors 0x10, 0x18 and 0x20 are data, and the code and data of ring 3. *)
Lemma gate_segment h : segment_of (selector (gate h)) = Some (mkSegment true 0 true true true true).
Proof. reflexivity. Qed.
Lemma other_segments : segment_of 0x10 = Some (mkSegment true 0 true false true true) /\ segment_of 0x18 = Some (mkSegment true 3 true true true true) /\
  segment_of 0x20 = Some (mkSegment true 3 true false true true).
Proof. repeat split. Qed.

(** The limit lets a seventh selector through, for which the table has no entry. *)
Lemma gdt64_limit_long : segment_of 0x30 = None /\ 0x30 + 7 <= gdt64_limit.
Proof. split; [reflexivity|]. vm_compute. discriminate. Qed.

(** ** The stubs *)

(** [interrupt_frame_t]: the general registers in the order of their fields, of 8 bytes each,
    and the offsets of the two fields behind them. *)
Definition interrupt_frame_t : list reg := [R15; R14; R13; R12; R11; R10; R9; R8; RSI; RDI; RBP; RDX; RCX; RBX; RAX].
Definition FRAME_INT_NO : Z := 8 * Z.of_nat (length interrupt_frame_t).
Definition FRAME_ERR_CODE : Z := FRAME_INT_NO + 8.

(** What the compiled handler leaves in the registers and in the memory below its frame. *)
Class Compiled := { left_regs : cpu -> reg -> Z; left_mem : cpu -> mem }.

Section stubs.
Context `{Hardware} `{Compiled} (halt : D unit) (buf text ret : Z).

(** [call interrupt_handler], from the push of the return address [ret] to its pop; [halt] is
    the loop the handler ends in after an exception: [hang] on the machine. *)
Definition call_handler : X unit :=
  push ret ;;
  frame ← rd RDI;
  no ← lift_sys (lift (load64 (frame + FRAME_INT_NO)));
  err ← lift_sys (lift (load64 (frame + FRAME_ERR_CODE)));
  lift_sys (interrupt_handler_at halt buf text no err) ;;
  modify (fun c => upd_reg (fun _ => left_regs c) (upd_sys (fun s => set_k (set_mem (left_mem c) (s_k s)) s) c)) ;;
  _ ← pop_val;
  mret tt.

Definition interrupt_common_stub : list (X unit) :=
  [ push_reg R15;
    push_reg R14;
    push_reg R13;
    push_reg R12;
    push_reg R11;
    push_reg R10;
    push_reg R9;
    push_reg R8;
    push_reg RSI;
    push_reg RDI;
    push_reg RBP;
    push_reg RDX;
    push_reg RCX;
    push_reg RBX;
    push_reg RAX;
    mov RDI RSP;
    cld;
    call_handler;
    pop RAX;
    pop RBX;
    pop RCX;
    pop RDX;
    pop RBP;
    pop RDI;
    pop RSI;
    pop R8;
    pop R9;
    pop R10;
    pop R11;
    pop R12;
    pop R13;
    pop R14;
    pop R15;
    add_imm RSP 16;
    iretq ].

(** The macros, with the number that [%0] stands for. *)
Definition ISR_NOERR (no : Z) : list (X unit) := push 0 :: push no :: interrupt_common_stub.
Definition ISR_ERR (no : Z) : list (X unit) := push no :: interrupt_common_stub.

(** An interrupt through gate [g] whose stub pushes [no]. *)
Definition interrupt (g : idt_entry) (no : Z) : X unit :=
  deliver g None ;;
  block (ISR_NOERR no).

(** In NASM [%0] is the number of parameters of the macro, which is 1 for both. *)
Definition macro_args : Z := 1.

(** The vectors whose stubs are made with ISR_ERR. *)
Definition isr_err_vectors : list Z := [8; 10; 11; 12; 13; 14].
Definition isr_stub (vector : Z) : X unit :=
  block (if bool_decide (vector ∈ isr_err_vectors) then ISR_ERR macro_args else ISR_NOERR macro_args).
End stubs.

(** ** Reasoning *)

Lemma wp_lift_sys {A} (d : D A) (Q : A -> cpu -> Prop) c : wp d (fun a s => Q a (upd_sys (fun _ => s) c)) (c_sys c) -> wp (lift_sys d) Q c.
Proof. unfold wp, lift_sys. by destruct (d (c_sys c)). Qed.

Definition with_mem (m : mem) (s : sys) : sys := set_k (set_mem m (s_k s)) s.

(** The words [ws] lie on the stack, the first one on top. *)
Definition words (m : mem) (sp : Z) (ws : list Z) : Prop := forall i w, ws !! i = Some w -> load 8 m (sp + 8 * Z.of_nat i) = w.
Definition size (ws : list Z) : Z := 8 * Z.of_nat (length ws).

Lemma words_cons m sp w ws : words m sp (w :: ws) <-> load 8 m sp = w /\ words m (sp + 8) ws.
Proof.
  split.
  - intros Hw. split; [rewrite <- (Z.add_0_r sp); by apply (Hw 0%nat)|]. intros i v Hi. rewrite <- (Hw (S i) v Hi). f_equal. lia.
  - intros [H0 Hw] [|i] v Hi; cbn in Hi; [injection Hi as <-; by rewrite Z.add_0_r|]. rewrite <- (Hw i v Hi). f_equal. lia.
Qed.

Lemma words_app m sp l l' : words m sp (l ++ l') <-> words m sp l /\ words m (sp + size l) l'.
Proof.
  revert sp. induction l as [|w l IH]; intros sp; cbn [app].
  - unfold size. cbn. rewrite Z.add_0_r. split; [intros Hw; split; [|done]; intros i v Hi; by rewrite lookup_nil in Hi|by intros [_ Hw]].
  - rewrite !words_cons, IH. unfold size. cbn [length]. replace (sp + 8 * Z.of_nat (S (length l))) with (sp + 8 + 8 * Z.of_nat (length l)) by lia. tauto.
Qed.

Lemma words_agree m m' sp ws : agree (within sp (size ws)) m m' -> words m sp ws -> words m' sp ws.
Proof.
  intros Ha Hw i w Hi. rewrite <- (Hw i w Hi). apply load_agree. eapply agree_mono; [|exact Ha]. apply lookup_lt_Some in Hi. unfold within, size. lia.
Qed.

(** From [c0] to [c] the words [ws] were pushed below [top]; nothing else changed, the
    registers apart. *)
Record pushed (c0 : cpu) (top : Z) (ws : list Z) (c : cpu) : Prop := {
  pu_rsp : rsp c = top - size ws;
  pu_words : words (cmem c) (rsp c) ws;
  pu_mem : agree (fun x => ~ within (top - size ws) (size ws) x) (cmem c0) (cmem c);
  pu_sys : c_sys c = with_mem (cmem c) (c_sys c0);
  pu_context : c_rip c = c_rip c0 /\ c_cs c = c_cs c0 /\ c_rflags c = c_rflags c0 /\ c_ss c = c_ss c0
}.
Definition same_regs (c0 c : cpu) : Prop := forall r, r <> RSP -> c_reg c r = c_reg c0 r.

Lemma set_reg_eq r v f : set_reg r v f r = v.
Proof. unfold set_reg. by rewrite decide_True. Qed.
Lemma set_reg_ne r r' v f : r' <> r -> set_reg r v f r' = f r'.
Proof. intros. unfold set_reg. by rewrite decide_False. Qed.

Lemma pushed_nil c : pushed c (rsp c) [] c.
Proof. split; unfold size; cbn; [lia| |done|by destruct c as [[[] ?] ? ? ? ? ?]|done]. intros i w Hi. by rewrite lookup_nil in Hi. Qed.

Lemma push_word_wp c0 top ws c v (Q : unit -> cpu -> Prop) : pushed c0 top ws c -> 0 <= v < 2 ^ 64 -> size ws + 8 <= top < 2 ^ 64 ->
  (forall c', pushed c0 top (v :: ws) c' -> same_regs c c' -> Q tt c') -> wp (push v) Q c.
Proof.
  intros [Hsp Hw Hm Hs Hc] Hv Ht HQ. unfold size in *. unfold push. apply wp_bind, wp_gets, wp_bind, wp_modify, wp_lift_sys, wp_lift, wp_modify.
  rewrite u64_id by lia. apply HQ.
  - split; unfold size; cbn [c_reg c_sys upd_sys upd_reg set_k set_mem s_k k_mem length]; rewrite ?set_reg_eq.
    + lia.
    + apply words_cons. split; [by apply load64_store_eq|].
      replace (rsp c - 8 + 8) with (rsp c) by lia. eapply words_agree; [|exact Hw]. apply agree_store. unfold within, size. lia.
    + intros x Hx. cbn. rewrite mget_store_out by (unfold within in *; lia). apply Hm. unfold within in *. lia.
    + rewrite Hs. by destruct c0 as [[[] ?] ? ? ? ? ?].
    + done.
  - intros r Hr. cbn. by apply set_reg_ne.
Qed.

Lemma same_regs_trans c1 c2 c3 : same_regs c1 c2 -> same_regs c2 c3 -> same_regs c1 c3.
Proof. intros H1 H2 r Hr. by rewrite H2, H1. Qed.

Lemma block_cons i l : block (i :: l) = (i ;; block l).
Proof. done. Qed.

Lemma block_app_wp l l' (Q : unit -> cpu -> Prop) c : wp (block l) (fun _ c' => wp (block l') Q c') c -> wp (block (l ++ l')) Q c.
Proof.
  revert c. induction l as [|i l IH]; intros c Hw; [exact Hw|]. unfold wp in Hw. cbn [app block foldr] in *. unfold wp, mbind, M_bind in *.
  destruct (i c) as [[] c1|]; [|done]. apply IH. exact Hw.
Qed.

Lemma block_app l l' c : block (l ++ l') c = (block l ;; block l') c.
Proof.
  revert c. induction l as [|i l IH]; intros c; [done|]. cbn [app]. rewrite !block_cons. unfold mbind, M_bind in *. by destruct (i c) as [[] c1|].
Qed.

(** The registers in the order in which they lie in the frame. *)
Definition gprs : list reg := [RAX; RBX; RCX; RDX; RBP; RDI; RSI; R8; R9; R10; R11; R12; R13; R14; R15].

Lemma rsp_not_saved : RSP ∉ gprs /\ RSP ∉ rev gprs.
Proof. split; apply (bool_decide_unpack _); vm_compute; exact I. Qed.
Lemma saved r : r <> RSP -> r ∈ gprs.
Proof. intros Hr. destruct r; unfold gprs; (done || eauto 20 with inlist). Qed.

Definition reg_values (c : cpu) : Prop := forall r, 0 <= c_reg c r < 2 ^ 64.

Lemma push_regs_wp c0 c1 top l ws c (Q : unit -> cpu -> Prop) : pushed c0 top ws c -> same_regs c1 c -> RSP ∉ l -> reg_values c1 ->
  size ws + 8 * Z.of_nat (length l) <= top < 2 ^ 64 ->
  (forall c', pushed c0 top (rev (c_reg c1 <$> l) ++ ws) c' -> same_regs c1 c' -> Q tt c') -> wp (block (push_reg <$> l)) Q c.
Proof.
  intros Hp Hr Hl Hv. revert ws c Hp Hr Hl. induction l as [|r l IH]; intros ws c Hp Hr Hl Ht HQ; cbn [fmap list_fmap block foldr length] in *.
  - by apply wp_ret, HQ.
  - apply not_elem_of_cons in Hl as [Hne Hl]. unfold push_reg at 1. apply wp_bind, wp_bind, wp_gets, (push_word_wp c0 top ws c); [done|by rewrite Hr|lia|].
    intros c' Hp' Hr'. apply (IH (c_reg c1 r :: ws)); [by rewrite <- Hr|by eapply same_regs_trans|done|unfold size in *; cbn [length]; lia|].
    intros c2 Hp2 Hr2. apply HQ; [|done]. cbn [rev] in *. by rewrite <- app_assoc.
Qed.

Lemma read_wp a (Q : Z -> cpu -> Prop) c : Q (load 8 (cmem c) a) c -> wp (lift_sys (lift (load64 a))) Q c.
Proof. intros HQ. apply wp_lift_sys, wp_lift, wp_gets. by destruct c as [[] ? ? ? ? ?]. Qed.

(** Pops change the registers only. *)
Lemma pop_val_wp c w ws (Q : Z -> cpu -> Prop) : words (cmem c) (rsp c) (w :: ws) -> 0 <= rsp c -> rsp c + 8 < 2 ^ 64 ->
  (words (cmem c) (rsp c + 8) ws -> Q w (upd_reg (set_reg RSP (rsp c + 8)) c)) -> wp pop_val Q c.
Proof.
  intros [Hw Hws]%words_cons H0 H1 HQ. unfold pop_val. apply wp_bind, wp_gets, wp_bind, read_wp, wp_bind, wp_modify, wp_ret.
  rewrite u64_id, Hw by lia. by apply HQ.
Qed.

Definition same_context (c0 c : cpu) : Prop := c_rip c = c_rip c0 /\ c_cs c = c_cs c0 /\ c_rflags c = c_rflags c0 /\ c_ss c = c_ss c0.

Lemma pops_wp g l ws c (Q : unit -> cpu -> Prop) : words (cmem c) (rsp c) ((g <$> l) ++ ws) -> RSP ∉ l -> 0 <= rsp c -> rsp c + 8 * Z.of_nat (length l) < 2 ^ 64 ->
  (forall c', c_sys c' = c_sys c -> same_context c c' -> rsp c' = rsp c + 8 * Z.of_nat (length l) -> (forall r, r ∈ l -> c_reg c' r = g r) ->
     (forall r, r ∉ l -> r <> RSP -> c_reg c' r = c_reg c r) -> Q tt c') -> wp (block (pop <$> l)) Q c.
Proof.
  revert c. induction l as [|r l IH]; intros c Hw Hl H0 H1 HQ; cbn [fmap list_fmap block foldr length app] in *.
  - apply wp_ret, HQ; [done|done|lia| |done]. intros r Hr. by apply not_elem_of_nil in Hr.
  - apply not_elem_of_cons in Hl as [Hne Hl]. unfold pop at 1. apply wp_bind, wp_bind, (pop_val_wp c (g r) ((g <$> l) ++ ws)); [done|done|lia|]. intros Hws. apply wp_modify.
    set (c1 := upd_reg _ _). assert (E1 : rsp c1 = rsp c + 8) by (cbn; rewrite set_reg_ne by done; apply set_reg_eq).
    apply IH; [rewrite E1; exact Hws|done|lia|lia|]. intros c' Hs Hc Hsp Hin Hout. apply HQ; [exact Hs|exact Hc|lia| |].
    + intros r' Hr'. destruct (decide (r' ∈ l)) as [Hl'|Hl']; [by apply Hin|]. apply elem_of_cons in Hr' as [->|?]; [|done].
      rewrite Hout by done. cbn. apply set_reg_eq.
    + intros r' Hr' Hsp'. apply not_elem_of_cons in Hr' as [? ?]. rewrite Hout by done. cbn. by rewrite !set_reg_ne.
Qed.

Lemma iretq_wp ip cs fl sp ss ws c (Q : unit -> cpu -> Prop) : words (cmem c) (rsp c) (ip :: cs :: fl :: sp :: ss :: ws) -> 0 <= rsp c -> rsp c + 40 < 2 ^ 64 ->
  (forall c', c_sys c' = c_sys c -> rsp c' = sp -> same_regs c c' -> c_rip c' = ip -> c_cs c' = cs -> c_rflags c' = fl -> c_ss c' = ss -> Q tt c') -> wp iretq Q c.
Proof.
  intros Hw H0 H1 HQ. unfold iretq.
  do 5 (apply wp_bind; eapply pop_val_wp; [cbn [c_sys upd_reg c_reg]; rewrite ?set_reg_eq; exact Hw|cbn [upd_reg c_reg]; rewrite ?set_reg_eq; lia|cbn [upd_reg c_reg]; rewrite ?set_reg_eq; lia|];
    clear Hw; intros Hw; cbn [upd_reg c_reg c_sys] in Hw; rewrite ?set_reg_eq in Hw).
  apply wp_modify, HQ; try done. intros r Hr. cbn. by rewrite !set_reg_ne.
Qed.

(** The System V calling convention: [rbx], [rbp], [rsp] and [r12] to [r15] are preserved, and
    the function writes at most [depth] bytes of stack below its return address. *)
Class SysV `{Compiled} (depth : Z) := {
  sysv_regs c r : r ∈ [RBX; RBP; RSP; R12; R13; R14; R15] -> left_regs c r = c_reg c r;
  sysv_mem c : agree (fun x => ~ within (rsp c - depth) depth x) (cmem c) (left_mem c)
}.

(** A state of the kernel after a request, but for the stack. *)
Definition after_request `{Hardware} (no : Z) (st : keys) (s s' : sys) : Prop := exists s1, serviced no st s s1 /\ s' = with_mem (smem s') s1.

Lemma serviced_mem `{Hardware} no st m s s' : serviced no st (with_mem m s) s' -> serviced no st s (with_mem (smem s) s').
Proof. intros [H1 H2 H3 H4 H5]. split; try done. cbn. rewrite H1. cbn. by rewrite set_mem_set_mem, set_mem_id. Qed.

Section transparent.
Context `{HW : Hardware} `{SysV} (halt : D unit) (buf text ret : Z).
Hypothesis Hret : 0 <= ret < 2 ^ 64.
Hypothesis Hdepth : 0 <= depth.

Lemma call_handler_wp ws no err st c (Q : unit -> cpu -> Prop) : words (cmem c) (rsp c) ws -> c_reg c RDI = rsp c -> ws !! 15%nat = Some no -> ws !! 16%nat = Some err ->
  keys_are (c_sys c) st -> 32 <= no -> depth + 8 <= rsp c -> rsp c + size ws < 2 ^ 64 ->
  (forall c', rsp c' = rsp c -> words (cmem c') (rsp c') ws -> agree (fun x => ~ within (rsp c - 8 - depth) (8 + depth) x) (cmem c) (cmem c') ->
     same_context c c' -> after_request no st (c_sys c) (c_sys c') -> Q tt c') -> wp (call_handler halt buf text ret) Q c.
Proof using HW H0 Hret Hdepth.
  intros Hw Hdi Hno Herr Hst Hn H0' H1' HQ. unfold call_handler. assert (Hz : 0 <= size ws) by (unfold size; lia).
  apply wp_bind, (push_word_wp c (rsp c) [] c); [apply pushed_nil|done|unfold size; cbn; lia|].
  intros c1 [Hsp1 Hw1 Hm1 Hs1 Hc1] Hr1. unfold size in Hsp1, Hm1. cbn [length] in Hsp1, Hm1. change (8 * Z.of_nat 1) with 8 in *.
  assert (Hw1' : words (cmem c1) (rsp c) ws) by (eapply words_agree; [|exact Hw]; eapply agree_mono; [|exact Hm1]; unfold within; lia).
  apply wp_bind, wp_gets, wp_bind, read_wp, wp_bind, read_wp. rewrite (Hr1 RDI), Hdi by done.
  rewrite (Hw1' 15%nat no Hno : load 8 (cmem c1) (rsp c + FRAME_INT_NO) = no), (Hw1' 16%nat err Herr : load 8 (cmem c1) (rsp c + FRAME_ERR_CODE) = err).
  apply wp_bind, wp_lift_sys, (dispatch_wp halt _ _ _ _ st); [by rewrite Hs1|done|]. intros s2 Hs2. apply wp_bind, wp_modify.
  set (c2 := upd_sys (fun _ => s2) c1). set (c3 := upd_reg _ _). assert (Esp : rsp c3 = rsp c1) by (cbn; rewrite sysv_regs by (eauto with inlist); done).
  assert (Em : cmem c2 = cmem c1) by (cbn; by rewrite (sv_mem _ _ _ _ Hs2)).
  assert (Ea : agree (fun x => ~ within (rsp c - 8 - depth) depth x) (cmem c1) (cmem c3)).
  { rewrite <- Em. intros x Hx. apply (sysv_mem c2). cbn. rewrite Hsp1. exact Hx. }
  apply wp_bind, (pop_val_wp c3 ret ws); [|lia|lia|].
  { assert (Hw1c : words (cmem c1) (rsp c1) (ret :: ws)) by (apply words_cons; apply words_cons in Hw1 as [Hr _]; rewrite Hsp1, Z.sub_add in *; done).
    rewrite Esp. eapply words_agree; [|exact Hw1c]. eapply agree_mono; [|exact Ea]. unfold within, size. lia. }
  intros Hw3. apply wp_ret, HQ.
  - cbn [upd_reg c_reg]. rewrite set_reg_eq. lia.
  - cbn [upd_reg c_reg c_sys]. rewrite set_reg_eq. exact Hw3.
  - transitivity (cmem c1); [eapply agree_mono; [|exact Hm1]|eapply agree_mono; [|exact Ea]]; unfold within; lia.
  - exact Hc1.
  - exists (with_mem (smem (c_sys c)) s2). split; [apply (serviced_mem _ _ (cmem c1)); by rewrite <- Hs1|]. done.
Qed.

(** The saving half of the stub. *)
Definition saving : list (X unit) := (push_reg <$> rev gprs) ++ [mov RDI RSP; cld].

Lemma save_wp W c (Q : unit -> cpu -> Prop) : words (cmem c) (rsp c) W -> reg_values c -> 120 <= rsp c -> rsp c + size W < 2 ^ 64 ->
  (forall c', rsp c' = rsp c - 120 -> words (cmem c') (rsp c') ((c_reg c <$> gprs) ++ W) -> c_reg c' RDI = rsp c' ->
     agree (fun x => ~ within (rsp c - 120) 120 x) (cmem c) (cmem c') -> c_sys c' = with_mem (cmem c') (c_sys c) -> Q tt c') -> wp (block saving) Q c.
Proof using.
  intros Hw Hv Hlo Hhi HQ. assert (Hz : 0 <= size W) by (unfold size; lia).
  apply block_app_wp, (push_regs_wp c c (rsp c) _ []); [apply pushed_nil|done|apply rsp_not_saved|done|unfold size; cbn; lia|].
  intros c1 Hp1 Hr1. rewrite app_nil_r in Hp1. replace (rev (c_reg c <$> rev gprs)) with (c_reg c <$> gprs) in Hp1 by done.
  destruct Hp1 as [Hsp1 Hw1 Hm1 Hs1 _]. unfold size in Hsp1, Hm1. cbn [gprs fmap list_fmap length] in Hsp1, Hm1. change (8 * Z.of_nat 15) with 120 in *.
  assert (HwW : words (cmem c1) (rsp c1) ((c_reg c <$> gprs) ++ W)).
  { apply words_app. split; [done|]. replace (rsp c1 + size _) with (rsp c) by (rewrite Hsp1; unfold size; cbn; lia).
    eapply words_agree; [|exact Hw]. eapply agree_mono; [|exact Hm1]. unfold within. lia. }
  cbn [block foldr]. apply wp_bind, wp_bind, wp_gets, wp_modify, wp_bind, wp_modify, wp_ret, HQ; cbn [set_flags upd_reg c_reg c_sys]; rewrite ?set_reg_eq, ?set_reg_ne by done; done.
Qed.

(** The frame the handler gets holds the registers in the opposite order of the fields of
    [interrupt_frame_t]: its [r15] is [rax]. *)
Lemma frame_reversed c : reg_values c -> 120 <= rsp c -> rsp c < 2 ^ 64 ->
  exists c', block saving c = Done tt c' /\ words (cmem c') (c_reg c' RDI) (c_reg c <$> rev interrupt_frame_t).
Proof using.
  intros Hv Hlo Hhi. assert (Hw : wp (block saving) (fun _ c' => words (cmem c') (c_reg c' RDI) (c_reg c <$> rev interrupt_frame_t)) c).
  { apply (save_wp []); [intros i w Hi; by rewrite lookup_nil in Hi|done|done|unfold size; cbn; lia|]. intros c' _ Hw Hdi _ _. rewrite app_nil_r in Hw. by rewrite Hdi. }
  apply wp_Done in Hw as ([] & c' & Hrun & Hw). exists c'. split; [exact Hrun|exact Hw].
Qed.

(** What the common stub does with the seven words of an interrupt: the registers get their
    values back, the context that was interrupted goes on, and below the stack pointer it
    started with at most [depth] + 128 bytes have changed. *)
Lemma common_stub_wp no err ip cs fl sp ss st c (Q : unit -> cpu -> Prop) : words (cmem c) (rsp c) [no; err; ip; cs; fl; sp; ss] -> reg_values c ->
  keys_are (c_sys c) st -> 32 <= no -> depth + 128 <= rsp c -> rsp c + 56 < 2 ^ 64 ->
  (forall c', same_regs c c' -> rsp c' = sp -> c_rip c' = ip -> c_cs c' = cs -> c_rflags c' = fl -> c_ss c' = ss ->
     agree (fun x => ~ within (rsp c - 128 - depth) (128 + depth) x) (cmem c) (cmem c') -> after_request no st (c_sys c) (c_sys c') -> Q tt c') ->
  wp (block (interrupt_common_stub halt buf text ret)) Q c.
Proof using HW H0 Hret Hdepth.
  intros Hw Hv Hst Hn Hlo Hhi HQ. set (W := [no; err; ip; cs; fl; sp; ss]) in *.
  change (interrupt_common_stub halt buf text ret) with (saving ++ call_handler halt buf text ret :: (pop <$> gprs) ++ [add_imm RSP 16; iretq]).
  apply block_app_wp, (save_wp W); [done|done|lia|done|]. intros c1 Hsp1 Hw1 Hdi Hm1 Hs1. rewrite block_cons. apply wp_bind.
  apply (call_handler_wp ((c_reg c <$> gprs) ++ W) no err st c1); [done|done|done|done|by rewrite Hs1|done|lia|rewrite Hsp1; unfold size; cbn [gprs fmap list_fmap length app W]; lia|].
  intros c3 Hsp3 Hw3 Hm3 _ (s1 & Hs2 & Hs3).
  apply block_app_wp, (pops_wp (c_reg c) gprs W c3); [done|apply rsp_not_saved|lia|cbn; lia|]. change (8 * Z.of_nat (length gprs)) with 120.
  intros c4 Hs4 _ Hsp4 Hin _. cbn [block foldr]. unfold add_imm. apply wp_bind, wp_bind, wp_gets, wp_modify, wp_bind.
  assert (E4 : rsp c4 = rsp c) by lia. rewrite E4, u64_id by lia.
  apply words_app in Hw3 as [_ Hw3]. replace (rsp c3 + size _) with (rsp c) in Hw3 by (rewrite Hsp3, Hsp1; unfold size; cbn; lia).
  rewrite <- Hs4 in *. apply words_cons in Hw3 as [_ Hw3]. apply words_cons in Hw3 as [_ Hw3]. replace (rsp c + 8 + 8) with (rsp c + 16) in Hw3 by lia.
  eapply iretq_wp; [cbn [upd_reg c_reg c_sys]; rewrite set_reg_eq; exact Hw3|cbn [upd_reg c_reg]; rewrite set_reg_eq; lia|cbn [upd_reg c_reg]; rewrite set_reg_eq; lia|].
  intros c5 Hs5 Hsp5 Hr5 Hip Hcs Hfl Hss. apply wp_ret, HQ; try done.
  - intros r Hr. rewrite (Hr5 r) by done. cbn. rewrite set_reg_ne by done. by apply Hin, saved.
  - rewrite Hs5. cbn [upd_reg c_sys]. transitivity (cmem c1); [eapply agree_mono; [|exact Hm1]|eapply agree_mono; [|exact Hm3]]; unfold within; lia.
  - rewrite Hs5. cbn [upd_reg c_sys]. exists (with_mem (smem (c_sys c)) s1). split; [|by rewrite Hs3].
    apply (serviced_mem _ _ (cmem c1)). rewrite Hs1 in Hs2. exact Hs2.
Qed.

Definition context_values (c : cpu) : Prop := 0 <= c_rip c < 2 ^ 64 /\ 0 <= c_cs c < 2 ^ 64 /\ 0 <= c_rflags c < 2 ^ 64 /\ 0 <= c_ss c < 2 ^ 64.

Lemma align_stack x : 0 <= x -> x - 15 <= Z.ldiff x 15 <= x.
Proof.
  intros Hx. change 15 with (Z.ones 4) at 2 3. rewrite Z.ldiff_ones_r, Z.shiftl_mul_pow2, Z.shiftr_div_pow2 by lia.
  pose proof (Z.div_mod x (2 ^ 4) ltac:(lia)). pose proof (Z.mod_pos_bound x (2 ^ 4) ltac:(lia)). lia.
Qed.

(** The machine [c], in the context of [c']. *)
Definition entered (c c' : cpu) : cpu := mkCpu (c_sys c) (c_reg c) (c_rip c') (c_cs c') (c_rflags c') (c_ss c').

(** Delivery puts the context on the stack. *)
Lemma deliver_wp g err c (Q : unit -> cpu -> Prop) : reg_values c -> context_values c -> match err with Some e => 0 <= e < 2 ^ 64 | None => True end -> 63 <= rsp c ->
  (forall c', pushed (entered c c') (Z.ldiff (rsp c) 15) (option_list err ++ [c_rip c; c_cs c; c_rflags c; rsp c; c_ss c]) c' -> same_regs c c' -> Q tt c') -> wp (deliver g err) Q c.
Proof.
  intros Hv (V1 & V2 & V3 & V4) He Hlo HQ. pose proof (Hv RSP) as Hsp. set (top := Z.ldiff (rsp c) 15) in *. assert (Ht : rsp c - 15 <= top <= rsp c) by (apply align_stack; lia).
  unfold deliver. apply wp_bind, wp_gets, wp_bind, wp_gets, wp_bind, wp_modify. fold top.
  assert (P0 : pushed c top [] (upd_reg (set_reg RSP top) c)).
  { split; unfold size; cbn [upd_reg c_reg c_sys length]; rewrite ?set_reg_eq; [lia|intros i w Hi; by rewrite lookup_nil in Hi|done|by destruct c as [[[] ?] ? ? ? ? ?]|done]. }
  assert (R0 : same_regs c (upd_reg (set_reg RSP top) c)) by (intros r Hr; cbn; by apply set_reg_ne).
  generalize dependent (upd_reg (set_reg RSP top) c). intros c0 P0 R0.
  apply wp_bind, (push_word_wp c top _ _ _ _ P0); [done|unfold size; cbn; lia|]. intros c1 P1 R1.
  apply wp_bind, (push_word_wp c top _ _ _ _ P1); [done|unfold size; cbn; lia|]. intros c2 P2 R2.
  apply wp_bind, (push_word_wp c top _ _ _ _ P2); [done|unfold size; cbn; lia|]. intros c3 P3 R3.
  apply wp_bind, (push_word_wp c top _ _ _ _ P3); [done|unfold size; cbn; lia|]. intros c4 P4 R4.
  apply wp_bind, (push_word_wp c top _ _ _ _ P4); [done|unfold size; cbn; lia|]. intros c5 P5 R5.
  assert (R : same_regs c c5) by (repeat (eapply same_regs_trans; [eassumption|]); done). clear R0 R1 R2 R3 R4 R5 P0 P1 P2 P3 P4.
  apply wp_bind. destruct err as [e|].
  - apply (push_word_wp c top _ _ _ _ P5); [done|unfold size; cbn; lia|]. intros c6 P6 R6. apply wp_modify, HQ; [|by eapply same_regs_trans]. by destruct P6.
  - apply wp_ret, wp_modify, HQ; [|done]. by destruct P5.
Qed.

(** C36: Interrupts are transparent: when a stub pushes the number of its request, the program
    that was interrupted goes on with all its registers, its stack pointer, flags and
    segments as they were, and with its memory unchanged but for the 199 bytes below
    its stack pointer, and what the compiled handler uses below those; what the request
    asks for has been done. *)
Theorem interrupt_transparent g no st c : reg_values c -> context_values c -> keys_are (c_sys c) st -> 32 <= no < 2 ^ 64 -> depth + 199 <= rsp c -> rsp c < 2 ^ 64 - 64 ->
  exists c', interrupt halt buf text ret g no c = Done tt c' /\ (forall r, c_reg c' r = c_reg c r) /\ same_context c c' /\
    agree (fun x => ~ within (rsp c - 199 - depth) (199 + depth) x) (cmem c) (cmem c') /\ after_request no st (c_sys c) (c_sys c').
Proof using HW H0 Hret Hdepth.
  intros Hv Hcv Hst Hn Hlo Hhi. pose proof (align_stack (rsp c) ltac:(lia)) as Ht. set (top := Z.ldiff (rsp c) 15) in *.
  assert (Hw : wp (interrupt halt buf text ret g no) (fun _ c' => (forall r, c_reg c' r = c_reg c r) /\ same_context c c' /\
    agree (fun x => ~ within (rsp c - 199 - depth) (199 + depth) x) (cmem c) (cmem c') /\ after_request no st (c_sys c) (c_sys c')) c).
  { unfold interrupt. apply wp_bind, deliver_wp; [done|done|done|lia|]. intros c1 P1 R1. fold top in P1. cbn [option_list app] in P1.
    unfold ISR_NOERR. rewrite !block_cons. apply wp_bind, (push_word_wp _ top _ _ _ _ P1); [done|unfold size; cbn; lia|]. intros c2 P2 R2.
    apply wp_bind, (push_word_wp _ top _ _ _ _ P2); [lia|unfold size; cbn; lia|]. intros c3 P3 R3. clear P1 P2. pose proof (same_regs_trans _ _ _ (same_regs_trans _ _ _ R1 R2) R3) as R.
    destruct P3 as [Psp Pw Pm Ps _]. change (size _) with 56 in Psp, Pm. cbn [entered c_sys] in Ps, Pm.
    eapply common_stub_wp; [exact Pw| |rewrite Ps; exact Hst|lia|lia|lia|].
    { intros r. destruct (decide (r = RSP)) as [->|Hr]; [lia|]. by rewrite R. }
    intros c4 R4 Hsp Hip Hcs Hfl Hss Hm (s1 & Hs1 & Hs4). split; [|split; [done|split]].
    - intros r. destruct (decide (r = RSP)) as [->|Hr]; [done|]. by rewrite R4, R.
    - transitivity (cmem c3); [eapply agree_mono; [|exact Pm]|eapply agree_mono; [|exact Hm]]; unfold within; lia.
    - exists (with_mem (smem (c_sys c)) s1). split; [|by rewrite Hs4]. apply (serviced_mem _ _ (cmem c3)). rewrite Ps in Hs1. exact Hs1. }
  apply wp_Done in Hw as ([] & c' & Hrun & Hw). exists c'. split; [exact Hrun|exact Hw].
Qed.
End transparent.

(** ** The numbers as the stubs push them *)

(** A run that ends in the loop of the handler: [m] is the code, up to what its loop does, and
    the loop is entered in a state that satisfies [Q]. *)
Definition arrives (m : D unit -> X unit) (Q : sys -> Prop) (c : cpu) : Prop :=
  exists s1, Q s1 /\ forall halt f, halt s1 = Fault f -> m halt c = Fault f.

Lemma arrives_bind {A} (a : X A) (k : D unit -> A -> X unit) Q c : wp a (fun v c' => arrives (fun halt => k halt v) Q c') c -> arrives (fun halt => a ≫= k halt) Q c.
Proof. unfold wp, arrives, mbind, M_bind. by destruct (a c). Qed.
Lemma arrives_first (m : D unit -> X unit) (k : unit -> X unit) Q c : arrives m Q c -> arrives (fun halt => m halt ≫= k) Q c.
Proof. intros (s1 & HQ & Hm). exists s1. split; [done|]. intros halt f Hf. unfold mbind, M_bind. by rewrite (Hm halt f Hf). Qed.
Lemma arrives_ext (m m' : D unit -> X unit) Q c : (forall halt, m halt c = m' halt c) -> arrives m' Q c -> arrives m Q c.
Proof. intros He (s1 & HQ & Hm). exists s1. split; [done|]. intros halt f Hf. rewrite He. by apply Hm. Qed.
Lemma arrives_mono (m : D unit -> X unit) (Q Q' : sys -> Prop) c : (forall s, Q s -> Q' s) -> arrives m Q c -> arrives m Q' c.
Proof. intros H (s1 & HQ & Hm). exists s1. split; [by apply H|done]. Qed.

Section halting.
Context `{LineReady} `{Compiled} (buf text ret : Z) (sc : screen).
Hypothesis Hret : 0 <= ret < 2 ^ 64.
Hypothesis Hbuf : buf <> NULL.
Hypothesis Hsep : forall x, within buf 1024 x -> ~ vram x /\ ~ within text 21 x.
Hypothesis Hon : on_screen sc.

(** The text of the report and the screen are there, apart from the [n] bytes of stack
    below [top]. *)
Record reportable (s : sys) : Prop := {
  re_text : cstr (smem s) text exception_format;
  re_screen : shows s sc
}.
Definition clear_of (lo n : Z) : Prop := forall x, within lo n x -> ~ vram x /\ ~ within text 21 x.

Lemma reportable_mem lo n s m : clear_of lo n -> agree (fun x => ~ within lo n x) (smem s) m -> reportable s -> reportable (with_mem m s).
Proof using.
  intros Hc Ha [Ht [[Hl Hh] Hcur]]. split.
  - apply (cstr_frame (smem s)); [|done]. eapply agree_mono; [|exact Ha]. intros x Hx Hw. apply Hc in Hw as [_ Hw]. by apply Hw.
  - split; [|exact Hcur]. split; [done|]. intros i Hi. rewrite <- Hh by done. apply load_agree. eapply agree_mono; [|exact Ha].
    intros x Hx Hw. apply Hc in Hw as [Hw _]. apply Hw. unfold vram, cell_addr, within in *. lia.
Qed.

(** The report of exception [no] with error code [err] is on the screen and on the line, and
    of the memory at [c] besides the [n] bytes below [top] may have changed. *)
Definition reported (top n no err : Z) (c : cpu) (s1 : sys) : Prop := exists m,
  agree (fun x => ~ within (top - n) n x) (cmem c) m /\ printed_text (with_mem m (c_sys c)) buf sc (exception_text no err) s1.

Lemma reported_later top n n' no err c c' s1 : c_sys c' = with_mem (cmem c') (c_sys c) -> n <= n' -> agree (fun x => ~ within (top - n') n' x) (cmem c) (cmem c') ->
  forall top', top - n' <= top' - n -> top' <= top -> reported top' n no err c' s1 -> reported top n' no err c s1.
Proof using.
  intros Hs Hn Ha top' Ht1 Ht2 (m & Hm & Hp). exists m. split.
  - etrans; [exact Ha|]. eapply agree_mono; [|exact Hm]. unfold within. lia.
  - rewrite Hs in Hp. exact Hp.
Qed.

Lemma call_handler_halts ws no err c : words (cmem c) (rsp c) ws -> c_reg c RDI = rsp c -> ws !! 15%nat = Some no -> ws !! 16%nat = Some err ->
  reportable (c_sys c) -> 0 <= no < 32 -> 8 <= rsp c < 2 ^ 64 -> clear_of (rsp c - 8) 8 ->
  arrives (fun halt => call_handler halt buf text ret) (reported (rsp c) 8 no err c) c.
Proof using H0 Hret Hbuf Hsep Hon.
  intros Hw Hdi Hno Herr Hre Hn Hsp Hcl. unfold call_handler. apply arrives_bind.
  apply (push_word_wp c (rsp c) [] c); [by apply pushed_nil|done|unfold size; cbn; lia|].
  intros c1 [Hsp1 Hw1 Hm1 Hs1 _] Hr1. change (size _) with 8 in *.
  assert (Hw1' : words (cmem c1) (rsp c) ws) by (eapply words_agree; [|exact Hw]; eapply agree_mono; [|exact Hm1]; unfold within; lia).
  apply arrives_bind, wp_gets, arrives_bind, read_wp, arrives_bind, read_wp. rewrite (Hr1 RDI), Hdi by done.
  rewrite (Hw1' 15%nat no Hno : load 8 (cmem c1) (rsp c + FRAME_INT_NO) = no), (Hw1' 16%nat err Herr : load 8 (cmem c1) (rsp c + FRAME_ERR_CODE) = err).
  assert (Hre1 : reportable (c_sys c1)) by (rewrite Hs1; by apply (reportable_mem (rsp c - 8) 8)).
  destruct (exception_halts buf text no err (c_sys c1) sc) as [(s1 & Hp & Hat) _]; [done|apply Hre1|apply Hre1|done|done|done|].
  exists s1. split; [exists (cmem c1); split; [done|by rewrite <- Hs1]|]. intros halt f Hf. unfold mbind, M_bind, lift_sys. by rewrite (Hat halt f Hf).
Qed.

Lemma common_stub_halts no err ws c : words (cmem c) (rsp c) (no :: err :: ws) -> reportable (c_sys c) -> reg_values c -> 0 <= no < 32 ->
  128 <= rsp c -> rsp c + size (no :: err :: ws) < 2 ^ 64 -> clear_of (rsp c - 128) 128 ->
  arrives (fun halt => block (interrupt_common_stub halt buf text ret)) (reported (rsp c) 128 no err c) c.
Proof using H0 Hret Hbuf Hsep Hon.
  intros Hw Hre Hv Hn Hlo Hhi Hcl. assert (Hz : 0 <= size (no :: err :: ws)) by (unfold size; lia).
  apply (arrives_ext _ (fun halt => block saving ;; block (call_handler halt buf text ret :: (pop <$> gprs) ++ [add_imm RSP 16; iretq]))).
  { intros halt. change (interrupt_common_stub halt buf text ret) with (saving ++ call_handler halt buf text ret :: (pop <$> gprs) ++ [add_imm RSP 16; iretq]). apply block_app. }
  apply arrives_bind, (save_wp (no :: err :: ws)); [done|done|lia|done|]. intros c1 Hsp1 Hw1 Hdi Hm1 Hs1.
  apply (arrives_mono _ (reported (rsp c1) 8 no err c1)).
  { intros s1. apply (reported_later (rsp c) 8 128); [done|lia| |lia|lia]. eapply agree_mono; [|exact Hm1]. unfold within. lia. }
  apply (arrives_first (fun halt => call_handler halt buf text ret)).
  apply (call_handler_halts _ no err c1 Hw1 Hdi); [done|done| |done|lia|].
  - rewrite Hs1. apply (reportable_mem (rsp c - 120) 120); [|done|done]. intros x Hx. apply Hcl. unfold within in *. lia.
  - intros x Hx. apply Hcl. unfold within in *. lia.
Qed.

(** The error code the report shows: that of the processor for the vectors that have one. *)
Definition reported_error (vector : Z) (err : option Z) (c : cpu) : Z :=
  if bool_decide (vector ∈ isr_err_vectors) then default (c_rip c) err else 0.

(** From the delivery on. *)
Lemma isr_stub_arrives vector g err c : reg_values c -> context_values c -> match err with Some e => 0 <= e < 2 ^ 64 | None => True end -> reportable (c_sys c) ->
  215 <= rsp c -> rsp c < 2 ^ 64 - 64 -> clear_of (rsp c - 215) 215 ->
  arrives (fun halt => deliver g err ;; isr_stub halt buf text ret vector) (reported (rsp c) 215 1 (reported_error vector err c) c) c.
Proof using H0 Hret Hbuf Hsep Hon.
  intros Hv Hcv He Hre Hlo Hhi Hcl. pose proof (align_stack (rsp c) ltac:(lia)) as Ht. set (top := Z.ldiff (rsp c) 15) in *.
  apply arrives_bind, deliver_wp; [done|done|done|lia|]. intros c1 P1 R1. fold top in P1. set (W := option_list err ++ _) in P1.
  assert (HW : 40 <= size W <= 48) by (unfold W, size; destruct err; cbn; lia).
  assert (HWe : exists W', W = default (c_rip c) err :: W') by (unfold W; destruct err; cbn; eauto). destruct HWe as [W0 EW].
  assert (Hgo : forall er W' c', pushed (entered c c1) top (macro_args :: er :: W') c' -> same_regs c c' -> size (er :: W') <= 56 ->
    arrives (fun halt => block (interrupt_common_stub halt buf text ret)) (reported (rsp c) 215 1 er c) c').
  { intros er W' c' [Psp Pw Pm Ps _] R Hsz. assert (Hz : size (macro_args :: er :: W') = 8 + size (er :: W') /\ 0 <= size (er :: W')) by (unfold size; cbn [length]; lia).
    cbn [entered c_sys] in Ps, Pm.
    apply (arrives_mono _ (reported (rsp c') 128 1 er c')).
    { intros s1. apply (reported_later (rsp c) 128 215); [done|lia| |lia|lia]. eapply agree_mono; [|exact Pm]. unfold within. lia. }
    apply (common_stub_halts macro_args er W' c' Pw); [| |done|lia|lia|].
    - rewrite Ps. apply (reportable_mem (top - size (macro_args :: er :: W')) (size (macro_args :: er :: W'))); [|done|done]. intros x Hx. apply Hcl. unfold within in *. lia.
    - intros r. destruct (decide (r = RSP)) as [->|Hr]; [lia|]. by rewrite R.
    - intros x Hx. apply Hcl. unfold within in *. lia. }
  unfold isr_stub, reported_error. destruct (bool_decide _).
  - apply (arrives_ext _ (fun halt => push macro_args ;; block (interrupt_common_stub halt buf text ret))); [intros halt; unfold ISR_ERR; by rewrite block_cons|].
    apply arrives_bind, (push_word_wp _ top _ _ _ _ P1); [done|unfold size in *; lia|]. intros c2 P2 R2. rewrite EW in P2.
    apply (Hgo _ W0); [done|by eapply same_regs_trans|rewrite <- EW; lia].
  - apply (arrives_ext _ (fun halt => push 0 ;; push macro_args ;; block (interrupt_common_stub halt buf text ret))); [intros halt; unfold ISR_NOERR; by rewrite !block_cons|].
    apply arrives_bind, (push_word_wp _ top _ _ _ _ P1); [done|unfold size in *; lia|]. intros c2 P2 R2.
    apply arrives_bind, (push_word_wp _ top _ _ _ _ P2); [done|unfold size in *; cbn [length]; lia|]. intros c3 P3 R3.
    apply (Hgo 0 W); [done|by eapply same_regs_trans; [|eapply same_regs_trans]|unfold size in *; cbn [length]; lia].
Qed.

(** C37: As idt.asm stands, every one of the 48 vectors, those of the timer and of the keyboard
    among them, pushes the number 1: whatever arrives, "Exception 1" is reported on the screen
    and on the serial line, with the processor's error code where it has one, and in the
    state [s1] that leaves the machine enters the loop that halts it for good.  (That it is
    in [s1] is said by putting any other code [halt] in the place of the loop: what [halt]
    does in [s1] is what the machine does.)  Of the memory only the report and the 215 bytes
    below the stack pointer change. *)
Theorem isr_stub_halts vector g err c : reg_values c -> context_values c -> match err with Some e => 0 <= e < 2 ^ 64 | None => True end -> reportable (c_sys c) ->
  215 <= rsp c -> rsp c < 2 ^ 64 - 64 -> clear_of (rsp c - 215) 215 ->
  exists m s1, agree (fun x => ~ within (rsp c - 215) 215 x) (cmem c) m /\
    printed_text (with_mem m (c_sys c)) buf sc (exception_text 1 (reported_error vector err c)) s1 /\
    (forall halt f, halt s1 = Fault f -> (deliver g err ;; isr_stub halt buf text ret vector) c = Fault f) /\
    (deliver g err ;; isr_stub hang buf text ret vector) c = Fault Diverged.
Proof using H0 Hret Hbuf Hsep Hon.
  intros Hv Hcv He Hre Hlo Hhi Hcl. destruct (isr_stub_arrives vector g err c Hv Hcv He Hre Hlo Hhi Hcl) as (s1 & (m & Hm & Hp) & Hat).
  exists m, s1. split; [done|]. split; [done|]. split; [done|]. apply Hat, hang_diverges.
Qed.
End halting.

(** ** Both at work *)

(** A compiled handler that spoils what it may: the registers the caller saves, and the
    eight bytes below its return address. *)
#[local] Instance rude : Compiled := {
  left_regs c r := if bool_decide (r ∈ [RBX; RBP; RSP; R12; R13; R14; R15]) then c_reg c r else 0xDEAD;
  left_mem c := store 8 (cmem c) (rsp c - 8) 0xDEAD
}.
#[local] Instance rude_sysv : SysV 8.
Proof.
  split.
  - intros c r Hr. cbn [left_regs rude]. by rewrite bool_decide_true.
  - intros c. apply agree_store. intros x Hx. exact Hx.
Qed.

Definition some_cpu (s : sys) : cpu := mkCpu s (fun r => if decide (r = RSP) then 0x9000 else 7) 0x4000 0x08 0x202 0x10.
Lemma some_rsp s : rsp (some_cpu s) = 0x9000.
Proof. reflexivity. Qed.
Lemma some_values s : reg_values (some_cpu s) /\ context_values (some_cpu s).
Proof. split; [intros r; cbn; destruct (decide (r = RSP)); lia|]. repeat split; cbn; lia. Qed.

Lemma interrupt_transparent_witness : exists c', @interrupt (fun _ _ _ => 0x1E) rude hang 0x3000 0x1000 0x5000 (gate 0x100000) 33 (some_cpu (mkSys boot_state boot_dev)) = Done tt c' /\
  (forall r, c_reg c' r = c_reg (some_cpu (mkSys boot_state boot_dev)) r) /\ c_rip c' = 0x4000.
Proof.
  destruct (some_values (mkSys boot_state boot_dev)) as [Hv Hc].
  destruct (@interrupt_transparent (fun _ _ _ => 0x1E) rude 8 rude_sysv hang 0x3000 0x1000 0x5000 ltac:(lia) ltac:(lia) (gate 0x100000) 33 (0, 0, []) _ Hv Hc demo_keys ltac:(lia))
    as (c' & Hrun & Hr & (Hip & _) & _); [rewrite some_rsp; lia|rewrite some_rsp; lia|].
  exists c'. split; [exact Hrun|]. split; [exact Hr|exact Hip].
Defined.

(** A tick of the timer, on the machine of idt.asm: "Exception 1 err=0" goes out on the line,
    and the machine never comes back. *)
Lemma isr_stub_halts_witness : (deliver (gate 0x100000) None ;; @isr_stub steady_line rude hang 0x3000 0x1000 0x5000 32) (some_cpu fatal_sys) = Fault Diverged /\
  exists s1, sent (trace s1) = chars "Exception 1 err=0" ++ [newline] /\
    (deliver (gate 0x100000) None ;; @isr_stub steady_line rude (fun s => if bool_decide (trace s = trace s1) then Fault Undefined else Fault Diverged) 0x3000 0x1000 0x5000 32) (some_cpu fatal_sys) = Fault Undefined.
Proof.
  destruct (some_values fatal_sys) as [Hv Hc]. destruct (holds_any fatal_mem) as [cells Hh]. destruct fatal_strings as (C1 & _).
  destruct (@isr_stub_halts steady_line steady_ready rude 0x3000 0x1000 0x5000 (cells, 0, 0)) with (vector := 32) (g := gate 0x100000) (err := @None Z) (c := some_cpu fatal_sys)
    as (m & s1 & _ & (_ & (t & Et & Es) & _) & Hat & Hd); [lia|discriminate| |split; cbn; lia|exact Hv|exact Hc|exact I| |rewrite some_rsp; lia|rewrite some_rsp; lia| |].
  - intros x Hx. unfold vram, VGA_MEMORY, within in *. lia.
  - split; [exact C1|]. split; [exact Hh|by split].
  - intros x Hx. unfold vram, VGA_MEMORY, within in *. rewrite some_rsp in Hx. lia.
  - split; [exact Hd|]. exists s1. split.
    + rewrite Et. cbn [with_mem set_k s_dev some_cpu c_sys fatal_sys boot_dev d_trace]. rewrite app_nil_r, Es. reflexivity.
    + apply Hat. by rewrite bool_decide_true.
Defined.
