(* ===== verification/Debug.v ===== *)
(** include/kernel/config.h: the switches of the debug messages, and what a message does: the
    reason why the memory components are modelled without theirs. *)
From Stdlib Require Import String Ascii.
From S2P Require Import Prelude Machine KString Stdio StdioProps StdioFormat Device Vga VgaProps Serial Console.

#[local] Opaque load store.

(** ** config.h *)

Definition DEBUG_MODE : Z := 1.
Definition DEBUG_BUDDY : Z := 1.
Definition DEBUG_SLAB : Z := 1.
Definition DEBUG_COW : Z := 1.
Definition DEBUG_DEMAND_PAGING : Z := 1.
Definition DEBUG_PAGE_CACHE : Z := 1.

Section print.
Context `{Hardware}.

(** [DEBUG_PRINT(module, fmt, ap...)] for the module whose switch is [on]: "[DEBUG:%s] " lies at
    [prefix], the module's name at [name]; [buf] is the local array of [kprintf]. *)
Definition DEBUG_PRINT (buf prefix on name fmt : Z) (ap : list Z) : D unit :=
  when (negb (DEBUG_MODE =? 0))
    (when (negb (on =? 0))
       (_ ← kprintf buf prefix [name];
        _ ← kprintf buf fmt ap;
        mret tt)).
End print.

(** ** What a message does *)

Definition prefix_format : list Z := chars "[DEBUG:%s] ".
Definition prefix_text (name : list Z) : list Z := chars "[DEBUG:" ++ name ++ chars "] ".

Section message.
Context `{LR : LineReady} (buf : Z).
Hypothesis Hbuf : buf <> NULL.
Hypothesis Hapart : forall x, within buf 1024 x -> ~ vram x.

(** The bytes that messages write. *)
Definition console (x : Z) : Prop := vram x \/ within buf 1024 x.

(** A string out of their way. *)
Definition placed (m : mem) (p : Z) (l : list Z) : Prop :=
  cstr m p l /\ Z.of_nat (length l) < 1023 /\ forall x, within p (Z.of_nat (length l) + 1) x -> ~ console x.

(** Text that is printed as it is, and whole. *)
Definition line (l : list Z) : Prop := Forall (fun c => c <> 0) l /\ tab ∉ l /\ Z.of_nat (length l) <= 1023.

Lemma placed_keep m m' p l : agree (fun x => ~ console x) m m' -> placed m p l -> placed m' p l.
Proof using. intros Ha (Hc & Hl & Ho). split; [|done]. apply (cstr_frame m); [|done]. eapply agree_mono; [|exact Ha]. exact Ho. Qed.

(** One [kprintf] of a short text. *)
Definition said (s : sys) (l : list Z) (s' : sys) (sc' : screen) : Prop :=
  shows s' sc' /\ on_screen sc' /\ color s' = color s /\ sent (trace s') = sent (trace s) ++ l /\
  exists m, s_k s' = set_mem m (s_k s) /\ agree (fun x => ~ console x) (smem s) m.

Lemma text_wp str fmt f ap l s sc (Q : Z -> sys -> Prop) : render str f ap = Some l -> placed (smem s) fmt f ->
  Forall (fun p => placed (smem s) p (str p)) (strings f ap) -> line l -> shows s sc -> on_screen sc ->
  (forall s', said s l s' (screen_write (color s) l sc) -> Q (Z.of_nat (length l)) s') -> wp (kprintf buf fmt ap) Q s.
Proof using LR Hbuf Hapart.
  intros Hr Hf Hstr (Hnz & Htab & Hlen) Hs Hon HQ.
  assert (Hplaced : forall p t, placed (smem s) p t -> unwritten buf 1024 (s_k s) (length l) p t).
  { intros p t (Hc & Ht & Ho). split; [done|]. split; [lia|]. intros x Hx Hw. apply (Ho x Hx). right. unfold shown in Hw. rewrite (proj2 (Z.eqb_neq buf NULL)) in Hw by done. unfold within in *. lia. }
  destruct (kprintf_runs str buf fmt f ap l s sc) as (s' & Hrun & Hp); try done; [lia|by apply Hplaced|by eapply Forall_impl; [exact Hstr|]; intros p; apply Hplaced|].
  assert (Ef : fitting l = l) by (unfold fitting; by rewrite take_ge by lia). rewrite Ef in Hp. destruct Hp as (Hsh & (t & Et & Ht) & (m & Em & Hag) & Hcol).
  eapply wp_of_Done; [exact Hrun|]. apply HQ. split; [exact Hsh|]. split; [by apply write_on_screen|]. split; [done|]. split.
  - by rewrite Et, sent_app, Ht.
  - exists m. split; [done|]. eapply agree_mono; [|exact Hag]. intros x Hx. split; intros Hx'; apply Hx; [by left|by right].
Qed.

Lemma said_trans s l1 s1 sc1 l2 s2 sc2 : said s l1 s1 sc1 -> said s1 l2 s2 sc2 -> said s (l1 ++ l2) s2 sc2.
Proof using.
  intros (_ & _ & C1 & T1 & m1 & E1 & A1) (S2 & O2 & C2 & T2 & m2 & E2 & A2). split; [done|]. split; [done|]. split; [by rewrite C2|].
  split; [by rewrite T2, T1, app_assoc|]. exists m2. split; [by rewrite E2, E1|]. transitivity m1; [done|]. by rewrite E1 in A2.
Qed.

Lemma screen_write_app color l1 l2 sc : screen_write color (l1 ++ l2) sc = screen_write color l2 (screen_write color l1 sc).
Proof using. apply fold_left_app. Qed.

Lemma prefix_render str name : render str prefix_format [name] = Some (prefix_text (if u64 name =? NULL then chars "(null)" else str (u64 name))).
Proof using.
  reflexivity.
Qed.

Lemma prefix_strings name : strings prefix_format [name] = if negb (u64 name =? NULL) then [u64 name] else [].
Proof using. reflexivity. Qed.

(** The first half of a message. *)
Lemma say_prefix_wp str prefix name s sc (Q : Z -> sys -> Prop) : 0 < name < 2 ^ 64 -> placed (smem s) prefix prefix_format -> placed (smem s) name (str name) ->
  line (prefix_text (str name)) -> shows s sc -> on_screen sc ->
  (forall n s', said s (prefix_text (str name)) s' (screen_write (color s) (prefix_text (str name)) sc) -> Q n s') -> wp (kprintf buf prefix [name]) Q s.
Proof using LR Hbuf Hapart.
  intros Hname Hpre Hnm Hl Hs Hon HQ.
  assert (Hn : (u64 name =? NULL) = false) by (rewrite u64_id by lia; apply Z.eqb_neq; unfold NULL; lia).
  apply (text_wp str prefix prefix_format [name] (prefix_text (str name)) s sc).
  - rewrite prefix_render, Hn. by rewrite u64_id by lia.
  - exact Hpre.
  - rewrite prefix_strings, Hn. cbn [negb]. rewrite u64_id by lia. by constructor.
  - exact Hl.
  - exact Hs.
  - exact Hon.
  - intros s' H1. by apply HQ.
Qed.

Lemma placed_after s s' l sc p t : said s l s' sc -> placed (smem s) p t -> placed (smem s') p t.
Proof using. intros (_ & _ & _ & _ & m & E & A). apply placed_keep. by rewrite E. Qed.

(** A message of a module that is switched on shows "[DEBUG:", the name, "] " and its text, and
    sends them on the line; besides the screen and the array of [kprintf] it changes no
    byte of memory and no variable, so the components may be proved without theirs. A
    module that is switched off does nothing. *)
Theorem debug_print_correct str prefix on name fmt f ap l s sc : 0 < name < 2 ^ 64 -> render str f ap = Some l -> placed (smem s) prefix prefix_format ->
  placed (smem s) name (str name) -> placed (smem s) fmt f -> Forall (fun p => placed (smem s) p (str p)) (strings f ap) ->
  line (prefix_text (str name)) -> line l -> shows s sc -> on_screen sc ->
  (on = 0 -> DEBUG_PRINT buf prefix on name fmt ap s = Done tt s) /\
  (on <> 0 -> exists s', DEBUG_PRINT buf prefix on name fmt ap s = Done tt s' /\
     said s (prefix_text (str name) ++ l) s' (screen_write (color s) (prefix_text (str name) ++ l) sc)).
Proof using LR Hbuf Hapart.
  intros Hname Hr Hpre Hnm Hfmt Hstr Hl1 Hl2 Hs Hon. split; [by intros ->|]. intros Hon'. apply wp_Done_eq. unfold DEBUG_PRINT.
  apply wp_when; [intros _|done]. apply wp_when; [intros _|by intros E%negb_false_iff%Z.eqb_eq].
  apply wp_bind, (say_prefix_wp str prefix name s sc); [exact Hname|exact Hpre|exact Hnm|exact Hl1|exact Hs|exact Hon|]. intros n s1 H1.
  apply wp_bind, (text_wp str fmt f ap l s1 (screen_write (color s) (prefix_text (str name)) sc)); [exact Hr|by eapply placed_after| |exact Hl2|apply H1|apply H1|].
  { eapply Forall_impl; [exact Hstr|]. intros p. by eapply placed_after. }
  intros s2 H2. apply wp_ret. split; [done|]. rewrite screen_write_app. assert (C1 : color s1 = color s) by apply H1. rewrite C1 in H2.
  exact (said_trans _ _ _ _ _ _ _ H1 H2).
Qed.
End message.

(** ** A message of the heap *)

(** A concrete string is found by looking. *)
Lemma cstr_check m a l : forallb (fun c => negb (c =? 0)) l = true -> forallb (fun i => mget m (a + Z.of_nat i) =? nth i l 0) (seq 0 (S (length l))) = true -> cstr m a l.
Proof.
  rewrite !forallb_forall. intros Hn Hc. split.
  - apply Forall_forall. intros c Hin%list_elem_of_In. specialize (Hn c Hin). by apply negb_true_iff, Z.eqb_neq in Hn.
  - intros i Hi. apply Z.eqb_eq, Hc, in_seq. lia.
Qed.

Definition demo_message : list Z := chars "kfree(NULL) called - ignoring" ++ [newline].
Definition debug_mem : mem := store_chars (store_chars (store_chars ∅ 0x1000 prefix_format) 0x1100 (chars "SLAB")) 0x1200 demo_message.
Definition debug_sys : sys := mkSys (set_mem debug_mem boot_state) boot_dev.
#[local] Instance demo_line : Hardware := fun _ _ _ => 0x20.
#[local] Instance demo_line_ready : @LineReady demo_line.
Proof. intros t. exists 1%nat. split; [done|]. left. discriminate. Qed.

Ltac check_placed := split; [apply cstr_check; vm_compute; reflexivity|split; [cbn; lia|intros x Hx [Hv|Hb]; unfold vram, VGA_MEMORY, within in *; cbn in Hx; lia]].

Lemma debug_print_correct_witness : exists s', DEBUG_PRINT 0x3000 0x1000 DEBUG_SLAB 0x1100 0x1200 [] debug_sys = Done tt s' /\
  sent (trace s') = chars "[DEBUG:SLAB] kfree(NULL) called - ignoring" ++ [newline].
Proof.
  destruct (holds_any debug_mem) as [cells Hh].
  destruct (debug_print_correct 0x3000 ltac:(discriminate) ltac:(intros x Hx; unfold vram, VGA_MEMORY, within in *; lia) (fun _ => chars "SLAB") 0x1000 DEBUG_SLAB 0x1100 0x1200
    demo_message [] demo_message debug_sys (cells, 0, 0)) as [_ Hsay].
  - lia.
  - vm_compute. reflexivity.
  - check_placed.
  - check_placed.
  - check_placed.
  - constructor.
  - split; [apply Forall_forall; intros c Hc|split]; [|apply (bool_decide_unpack _); vm_compute; exact I|vm_compute; discriminate].
    revert c Hc. apply Forall_forall. repeat (constructor; [discriminate|]). constructor.
  - split; [|split]; [repeat (constructor; [discriminate|]); constructor|apply (bool_decide_unpack _); vm_compute; exact I|vm_compute; discriminate].
  - split; [exact Hh|by split].
  - split; cbn; lia.
  - destruct (Hsay ltac:(discriminate)) as (s' & Hrun & _ & _ & _ & Hsent & _). exists s'. split; [exact Hrun|exact Hsent].
Defined.
