(* ===== verification/Main.v ===== *)
(** kernel/core/main.c: the walk over the Multiboot2 information, the initialisation of
    the memory components, and [kernel_main]. *)
From Stdlib Require Import String Ascii.
From S2P Require Import Prelude Machine DList Buddy BuddyInv BuddySpec BuddyThms BuddyInit BuddyTrace BuddyProps PageAlloc Pmm Vmm Cow KString Stdio SList Slab SlabInv SlabThms SlabProps SlabCache SlabDemo Heap HeapInv HeapThms HeapProps HeapClient PageCache DemandPaging DemandThms DemandProps Device Vga Serial Console Keyboard Pic Interrupts.

#[local] Opaque load store.

(** ** The Multiboot2 information *)

Definition MULTIBOOT2_MAGIC : Z := 0x36d76289.

(** [multiboot_tag_t]: type at 0, size at 4; [multiboot_tag_mmap_t] is 16 bytes. *)
Definition TAG_TYPE : Z := 0.
Definition TAG_SIZE : Z := 4.
Definition SIZEOF_TAG_MMAP : Z := 16.

(** [(t->size + 7) & ~7], 32 bits wide. *)
Definition tag_stride (size : Z) : Z := Z.land (u32 (size + 7)) (u32 (Z.lnot 7)).

(** One round; the locals are [tags], [mm] and [mm_size]. *)
Definition tag_step : Z * Z * Z -> K ((Z * Z * Z) + (Z * Z)) := fun '(t, mm, mm_size) =>
  type ← load32 (t + TAG_TYPE);
  if type =? 0 then mret (inr (mm, mm_size)) else
  size ← load32 (t + TAG_SIZE);
  let '(mm, mm_size) := if type =? 6 then (u64 (t + SIZEOF_TAG_MMAP), u32 (size - SIZEOF_TAG_MMAP)) else (mm, mm_size) in
  mret (inl (u64 (t + tag_stride size), mm, mm_size)).

Definition find_mmap (multiboot_info : Z) : K (Z * Z) := while (multiboot_info, NULL, 0) tag_step.

(** ** The kernel *)

Definition HEAP_START : Z := 0x80000000.
Definition HEAP_SIZE : Z := 16 * 1024 * 1024.
Definition CACHE_PAGES : Z := 1024.

(** The messages of [kernel_main], in the order of the source. *)
Definition line (s : string) : list Z := chars "[PROMETHEUS] " ++ chars s ++ [newline].
Definition messages : list (list Z) := [
  line "Booting kernel v1.0.0";
  line "Initializing GDT... OK";
  line "Initializing IDT... OK";
  line "Initializing PIC... OK";
  line "Initializing PIT... OK";
  line "Initializing PMM/Buddy... OK";
  line "Physical Memory: %u MB";
  line "Free Memory: %u MB";
  line "Initializing Slab... OK";
  line "Initializing VMM... OK";
  line "Initializing Heap... OK";
  line "Initializing COW... OK";
  line "Initializing Demand Paging... OK";
  line "Initializing Page Cache... OK";
  line "Free Memory After Init: %u MB";
  line "Initializing Keyboard... OK";
  line "Kernel ready." ++ [newline];
  newline :: line "Tests complete. Awaiting input..."].
Definition message (i : nat) : list Z := nth i messages [].

(** The [i]-th of them is stored at [msg i]; [buf] is the local array of [kprintf]. *)
Definition say_message `{Hardware} (buf : Z) (msg : nat -> Z) (i : nat) (ap : list Z) : D unit :=
  _ ← kprintf buf (msg i) ap; mret tt.

Section main.
Context `{Hardware}.

(** [say i args] is the call of [kprintf] with the [i]-th message, as [say_message] makes it;
    [literal] and [region] are the addresses of the names of the slab caches. *)
Context (say : nat -> list Z -> D unit) (literal : Z -> Z) (region : Z).

(** The branch on the magic number. *)
Definition boot_memory (multiboot_magic multiboot_info : Z) : D unit :=
  when (multiboot_magic =? MULTIBOOT2_MAGIC) (
    r ← lift (find_mmap multiboot_info);
    let '(mm, mm_size) := r in
    when (negb (mm =? NULL) && negb (mm_size =? 0)) (
      lift (pmm_init mm mm_size) ;;
      say 5 [])).

(** From the slab allocator to demand paging, and the messages between. *)
Definition memory_init : D unit :=
  lift slab_init ;;
  say 8 [] ;;
  lift vmm_init ;;
  say 9 [] ;;
  lift (heap_init literal HEAP_START HEAP_SIZE) ;;
  lift heap_enable_slab ;;
  say 10 [] ;;
  lift cow_init ;;
  say 11 [] ;;
  lift (demand_paging_init region).

(** The megabytes of a statistic, cast to [unsigned]. *)
Definition megabytes (c : K Z) : D Z := v ← lift c; mret (u32 (v / 1024 / 1024)).

(** The memory side, in the order of [kernel_main]. *)
Definition memory_boot (multiboot_magic multiboot_info : Z) : D unit :=
  boot_memory multiboot_magic multiboot_info ;;
  total ← megabytes pmm_get_total_memory;
  say 6 [total] ;;
  free ← megabytes pmm_get_free_memory;
  say 7 [free] ;;
  memory_init.

(** [isrs], [irqs], [idt], [idt_ptr] and [gdt] are the addresses [interrupts_init] and
    [gdt_load] take; the tests of kernel/tests are an argument. *)
Definition kernel_main (isrs irqs : list Z) (idt idt_ptr gdt : Z) (run_all_memory_tests : D unit)
    (multiboot_magic multiboot_info : Z) : D unit :=
  vga_init ;;
  serial_init ;;
  say 0 [] ;;
  say 1 [] ;;
  gdt_init ;;
  gdt_load gdt 0 ;;
  say 2 [] ;;
  interrupts_init isrs irqs idt idt_ptr ;;
  say 3 [] ;;
  say 4 [] ;;
  memory_boot multiboot_magic multiboot_info ;;
  say 12 [] ;;
  lift (page_cache_init CACHE_PAGES) ;;
  say 13 [] ;;
  free ← megabytes pmm_get_free_memory;
  say 14 [free] ;;
  keyboard_init ;;
  pic_unmask_irq 0 ;;
  pic_unmask_irq 1 ;;
  say 15 [] ;;
  say 16 [] ;;
  run_all_memory_tests ;;
  say 17 [] ;;
  hang.
End main.

(** ** Walking the tags *)

(** Sizes are padded to multiples of 8. *)
Definition padded (size : Z) : Z := 8 * ((size + 7) / 8).

Lemma tag_stride_pad size : 0 <= size <= 2 ^ 32 - 8 -> tag_stride size = padded size.
Proof.
  intros Hs. unfold tag_stride, padded. rewrite (u32_id (size + 7)) by lia. set (n := size + 7) in *.
  change (u32 (Z.lnot 7)) with (Z.ldiff (Z.ones 32) (Z.ones 3)). rewrite (Z.mul_comm 8). change (n / 8 * 8) with (n / 2 ^ 3 * 2 ^ 3).
  rewrite <- Z.shiftl_mul_pow2, <- Z.shiftr_div_pow2, <- Z.ldiff_ones_r by lia. apply Z.bits_inj'. intros i Hi.
  rewrite Z.land_spec, !Z.ldiff_spec, !Z.testbit_ones_nonneg by lia.
  destruct (Z.ltb_spec i 32); [done|]. cbn. rewrite andb_false_r.
  replace n with (n mod 2 ^ 32) by (apply Z.mod_small; lia). by rewrite Z.mod_pow2_bits_high by lia.
Qed.

Lemma padded_bound size : size <= padded size < size + 8.
Proof. unfold padded. pose proof (Z.div_mod (size + 7) 8 ltac:(lia)). pose proof (Z.mod_pos_bound (size + 7) 8 ltac:(lia)). lia. Qed.

(** A tag: its type and its size. *)
Abbreviation tag := (Z * Z)%type.

(** The tags stored from [p] on, the end tag last. *)
Fixpoint tags_at (m : mem) (p : Z) (ts : list tag) : Prop :=
  match ts with
  | [] => load 4 m (p + TAG_TYPE) = 0
  | (ty, size) :: ts => load 4 m (p + TAG_TYPE) = ty /\ ty <> 0 /\ load 4 m (p + TAG_SIZE) = size /\ 8 <= size <= 2 ^ 32 - 8 /\
                        p + padded size + SIZEOF_TAG_MMAP < 2 ^ 64 /\ tags_at m (p + padded size) ts
  end.

(** The entries of the last memory map among the tags, and their size in bytes. *)
Fixpoint last_mmap (p : Z) (ts : list tag) (r : Z * Z) : Z * Z :=
  match ts with
  | [] => r
  | (ty, size) :: ts => last_mmap (p + padded size) ts (if ty =? 6 then (p + SIZEOF_TAG_MMAP, u32 (size - SIZEOF_TAG_MMAP)) else r)
  end.

Lemma tags_span m p ts : tags_at m p ts -> p + 8 * Z.of_nat (length ts) < 2 ^ 64 \/ ts = [].
Proof.
  revert p. induction ts as [|[ty size] ts IH]; intros p; [by right|]. intros (_ & _ & _ & Hs & Hp & Ht). left.
  pose proof (padded_bound size). destruct (IH _ Ht) as [H1|H1]; [|subst ts; cbn [length]]; unfold SIZEOF_TAG_MMAP in Hp; cbn [length]; lia.
Qed.

(** [rounds] on a list is what the loop does. *)
Lemma find_mmap_runs p ts s : 0 <= p -> tags_at (k_mem s) p ts -> find_mmap p s = Done (last_mmap p ts (NULL, 0)) s.
Proof.
  intros Hp Hts. assert (Hlen : Z.of_nat (length ts) < 2 ^ 64) by (destruct (tags_span _ _ _ Hts) as [H0|H0]; [lia|by rewrite H0]).
  assert (Hw : wp (find_mmap p) (fun r s' => r = last_mmap p ts (NULL, 0) /\ s' = s) s).
  { unfold find_mmap. apply (wp_loop (fun d x s' => s' = s /\ exists l, d = length l /\ 0 <= x.1.1 /\ tags_at (k_mem s) x.1.1 l /\
      last_mmap x.1.1 l (x.1.2, x.2) = last_mmap p ts (NULL, 0)) (length ts)); [|done|].
    { split; [done|]. by exists ts. }
    intros d [[t mm] sz] s' (-> & l & -> & Ht & Hl & E). cbn [fst snd] in *. unfold tag_step. apply wp_bind, wp_gets.
    destruct l as [|[ty size] l]; cbn [tags_at last_mmap] in *.
    - rewrite Hl. cbn [Z.eqb]. apply wp_ret. by split.
    - destruct Hl as (-> & Hty & Hsz & Hb & Hlim & Hl). rewrite (proj2 (Z.eqb_neq ty 0)) by done. apply wp_bind, wp_gets. rewrite Hsz.
      pose proof (padded_bound size) as Hpb. unfold SIZEOF_TAG_MMAP in *. rewrite tag_stride_pad, (u64_id (t + padded size)) by lia. rewrite (u64_id (t + 16)) by lia.
      assert (G : forall q, last_mmap (t + padded size) l q = last_mmap p ts (NULL, 0) ->
        wp (let '(mm, mm_size) := q in mret (inl (t + padded size, mm, mm_size)))
          (fun (r : (Z * Z * Z) + (Z * Z)) s' => match r with
             | inl x' => exists n', (n' < length ((ty, size) :: l))%nat /\ s' = s /\ exists l, n' = length l /\ 0 <= x'.1.1 /\ tags_at (k_mem s) x'.1.1 l /\
                 last_mmap x'.1.1 l (x'.1.2, x'.2) = last_mmap p ts (NULL, 0)
             | inr a => a = last_mmap p ts (NULL, 0) /\ s' = s end) s).
      { intros [q1 q2] Eq. apply wp_ret. exists (length l). split; [cbn; lia|]. split; [done|]. exists l. split; [done|]. cbn [fst snd]. split; [lia|]. by split. }
      destruct (ty =? 6); [exact (G (_, _) E)|exact (G (mm, sz) E)]. }
  apply wp_Done in Hw as (r & s' & Hrun & -> & ->). exact Hrun.
Qed.

(** A tag of size 0 keeps the walk where it is. *)
Lemma find_mmap_stuck p s : 0 <= p < 2 ^ 64 -> load 4 (k_mem s) (p + TAG_TYPE) <> 0 -> load 4 (k_mem s) (p + TAG_SIZE) = 0 -> find_mmap p s = Fault Diverged.
Proof.
  intros Hp Ht Hz. unfold find_mmap. apply (while_diverges (fun x s' => x.1.1 = p /\ s' = s)); [|by split].
  intros [[t mm] sz] s' [Et ->]. cbn [fst] in Et. rewrite Et. clear t Et. unfold tag_step, load32, mbind, M_bind, gets. rewrite (proj2 (Z.eqb_neq _ 0)) by done. rewrite Hz.
  change (tag_stride 0) with 0. replace (u64 (p + 0)) with p by (rewrite Z.add_0_r, u64_id; done). destruct (_ =? 6); eexists _, s; (split; [reflexivity|by split]).
Qed.

(** C31: The walk over a list of tags ends at the end tag, changes nothing, and gives the last
    memory map of the list.  But the information a Multiboot2 loader passes begins with
    its total size and a reserved word that is 0, not with a tag: started there, as
    [kernel_main] starts it, the walk takes the total size for a tag of size 0 and never
    ends. *)
Theorem find_mmap_correct info s : 0 <= info ->
  (forall ts, tags_at (k_mem s) info ts -> find_mmap info s = Done (last_mmap info ts (NULL, 0)) s) /\
  (info + 8 < 2 ^ 64 -> load 4 (k_mem s) info <> 0 -> load 4 (k_mem s) (info + 4) = 0 ->
     find_mmap info s = Fault Diverged /\
     forall ts, tags_at (k_mem s) (info + 8) ts -> find_mmap (info + 8) s = Done (last_mmap (info + 8) ts (NULL, 0)) s).
Proof.
  intros Hi. split; [intros ts; by apply find_mmap_runs|]. intros Hlim Ht Hz. split.
  - apply find_mmap_stuck; [lia| |done]. by replace (info + TAG_TYPE) with info by (unfold TAG_TYPE; lia).
  - intros ts. apply find_mmap_runs. lia.
Qed.

(** ** At work: the information at 64, with one entry of a memory map *)

Definition info_mem : mem :=
  let put m p v := store 4 m p v in
  put (put (put (put (put (put ∅ 64 56) 68 0) 72 6) 76 40) 112 0) 116 8.
Definition info_state : kst := set_mem info_mem boot_state.

Lemma info_tags : tags_at info_mem 72 [(6, 40)].
Proof.
  assert (V : load 4 info_mem (72 + TAG_TYPE) = 6 /\ load 4 info_mem (72 + TAG_SIZE) = 40 /\ load 4 info_mem (72 + padded 40 + TAG_TYPE) = 0) by (vm_compute; done).
  destruct V as (V1 & V2 & V3). split; [exact V1|]. split; [done|]. split; [exact V2|]. split; [lia|]. split; [vm_compute; done|exact V3].
Qed.

Lemma find_mmap_correct_witness : find_mmap 64 info_state = Fault Diverged /\ find_mmap 72 info_state = Done (88, 24) info_state.
Proof.
  destruct (find_mmap_correct 64 info_state ltac:(lia)) as [_ H]. destruct (H ltac:(lia)) as [Hd Ht].
  - vm_compute. discriminate.
  - vm_compute. reflexivity.
  - split; [exact Hd|]. exact (Ht [(6, 40)] info_tags).
Defined.
