(* ===== verification/BootPaging.v ===== *)
(** The page tables under which the kernel starts: [setup_paging] of src/boot/boot.asm, and what
    a processor in long mode makes of them.  The addresses the other components take for
    granted are checked against them. *)
From S2P Require Import Prelude Machine PageAlloc Vmm Vga VgaProps DemandPaging Main.

#[local] Opaque load store.

(** ** boot.asm *)

Definition PRESENT_RW_PS : Z := 0x83.

(** [rep stosb] with al = 0 and ecx = 512 * 8. *)
Definition zero_table (t : Z) : K unit := for_range 0 (512 * 8) (fun i => store8 (t + i) 0).

Definition setup_paging (pml4 pdpt pd : Z) : K unit :=
  zero_table pml4 ;;
  zero_table pdpt ;;
  zero_table pd ;;
  store64 pml4 (Z.lor pdpt 0x3) ;;
  store64 pdpt (Z.lor pd 0x3) ;;
  for_range 0 512 (fun i => store64 (pd + i * 8) (Z.lor (u64 (Z.shiftl i 21)) PRESENT_RW_PS)) ;;
  store64 (pml4 + 510 * 8) (Z.lor pdpt 0x3).

(** ** The processor's walk

    Bit 7 of an entry of the second or third level ends it with a page of 1 GB or 2 MB; an
    address whose upper 17 bits are not all the same is refused before the walk. *)

Definition huge (e : Z) : bool := Z.testbit e 7.
Definition leaf (k e v : Z) : Z := Z.lor (Z.ldiff (Z.land e ADDR_MASK) (Z.ones k)) (Z.land v (Z.ones k)).

Definition canonical (v : Z) : bool := (v <? 2 ^ 47) || (2 ^ 64 - 2 ^ 47 <=? v).

Definition hw_translate (m : mem) (cr3 v : Z) : option Z :=
  if negb (canonical v) then None else
  pdpt ← descend m cr3 (ADDR_PML4_INDEX v);
  pd ← descend m pdpt (ADDR_PDPT_INDEX v);
  if huge (entry m pdpt (ADDR_PDPT_INDEX v)) then Some (leaf 30 (entry m pdpt (ADDR_PDPT_INDEX v)) v) else
  pt ← descend m pd (ADDR_PD_INDEX v);
  if huge (entry m pd (ADDR_PD_INDEX v)) then Some (leaf 21 (entry m pd (ADDR_PD_INDEX v)) v) else
  page ← descend m pt (ADDR_PT_INDEX v);
  Some (leaf 12 (entry m pt (ADDR_PT_INDEX v)) v).

(** Without huge pages this is the translation of Vmm. *)
Lemma leaf_small e v : leaf 12 e v = Z.lor (Z.land e ADDR_MASK) (Z.land v 0xFFF).
Proof.
  unfold leaf. change (Z.ones 12) with 0xFFF at 2. f_equal. apply Z.bits_inj'. intros j Hj. rewrite Z.ldiff_spec, Z.land_spec, mask_bit by done.
  destruct (Z.leb_spec 12 j); [|by rewrite andb_false_r]. by rewrite Z.ones_spec_high, andb_true_r by lia.
Qed.

Lemma hw_translate_small m cr3 v : canonical v = true -> (forall t i, huge (entry m t i) = false) -> hw_translate m cr3 v = translate m cr3 v.
Proof.
  intros Hc Hs. unfold hw_translate, translate, pt_of. rewrite Hc. cbn [negb]. destruct (descend m cr3 _) as [pdpt|]; [|done]. cbn [mbind option_bind].
  destruct (descend m pdpt _) as [pd|]; [|done]. cbn [mbind option_bind]. rewrite Hs. destruct (descend m pd _) as [pt|]; [|done]. cbn [mbind option_bind]. rewrite Hs.
  destruct (descend m pt (ADDR_PT_INDEX v)) as [page|] eqn:E; [|done]. cbn [mbind option_bind]. rewrite leaf_small. unfold descend in E.
  destruct (present _); [|done]. by injection E as <-.
Qed.

(** ** What [setup_paging] builds *)

Section setup.
Context (pml4 pdpt pd : Z).

(** Three pages of .bss, in 32 bits. *)
Definition tables_ok : Prop :=
  (forall t, t ∈ [pml4; pdpt; pd] -> 0 < t < 2 ^ 32 /\ t mod 4096 = 0) /\ pml4 <> pdpt /\ pdpt <> pd /\ pml4 <> pd.
Definition table_bytes (x : Z) : Prop := within pml4 4096 x \/ within pdpt 4096 x \/ within pd 4096 x.

(** The entries of the three tables. *)
Definition boot_pml4 (i : Z) : Z := if (i =? 0) || (i =? 510) then Z.lor pdpt 3 else 0.
Definition boot_pdpt (i : Z) : Z := if i =? 0 then Z.lor pd 3 else 0.
Definition boot_pd (n i : Z) : Z := if i <? n then Z.lor (Z.shiftl i 21) PRESENT_RW_PS else 0.

Definition holds_table (m : mem) (t : Z) (f : Z -> Z) : Prop := forall i, 0 <= i < 512 -> entry m t i = f i.

Hypothesis Hok : tables_ok.

Lemma tables_apart : (pml4 + 4096 <= pdpt \/ pdpt + 4096 <= pml4) /\ (pdpt + 4096 <= pd \/ pd + 4096 <= pdpt) /\ (pml4 + 4096 <= pd \/ pd + 4096 <= pml4).
Proof using Hok.
  destruct Hok as (Ht & N1 & N2 & N3). destruct (Ht pml4) as [_ E1]; [by eauto with inlist|]. destruct (Ht pdpt) as [_ E2]; [by eauto with inlist|].
  destruct (Ht pd) as [_ E3]; [by eauto with inlist|].
  apply Z.mod_divide in E1 as [a ->]; [|done]. apply Z.mod_divide in E2 as [b ->]; [|done]. apply Z.mod_divide in E3 as [c ->]; [|done]. lia.
Qed.

Lemma zero_table_wp t s (Q : unit -> kst -> Prop) :
  (forall m, agree (fun x => ~ within t 4096 x) (k_mem s) m -> holds_table m t (fun _ => 0) -> Q tt (set_mem m s)) -> wp (zero_table t) Q s.
Proof using.
  intros HQ. unfold zero_table. apply wp_fill8; [done|]. intros m Ha Hz. apply HQ; [done|].
  intros i Hi. apply load_zero. intros x Hx. apply Hz. unfold within in *. lia.
Qed.

Lemma holds_table_agree m m' t f (P : Z -> Prop) : agree P m m' -> (forall x, within t 4096 x -> P x) -> holds_table m t f -> holds_table m' t f.
Proof using.
  intros Ha HP Ht j Hj. rewrite <- Ht by done. apply load_agree. eapply agree_mono; [|exact Ha]. intros x Hx. apply HP. unfold within in *. lia.
Qed.

(** All three tables at once, and the bytes around them. *)
Record tables_hold (m0 m : mem) (F : Z -> Z -> Z) : Prop := {
  th_entries t : t ∈ [pml4; pdpt; pd] -> holds_table m t (F t);
  th_frame : agree (fun x => ~ table_bytes x) m0 m
}.

Lemma table_apart t t' : t ∈ [pml4; pdpt; pd] -> t' ∈ [pml4; pdpt; pd] -> t <> t' -> t + 4096 <= t' \/ t' + 4096 <= t.
Proof using Hok.
  intros Ht Ht' Hne. destruct Hok as (H & _). destruct (H t Ht) as [_ E1], (H t' Ht') as [_ E2].
  apply Z.mod_divide in E1 as [a ->]; [|done]. apply Z.mod_divide in E2 as [b ->]; [|done]. lia.
Qed.

Lemma table_within t x : t ∈ [pml4; pdpt; pd] -> within t 4096 x -> table_bytes x.
Proof using. unfold table_bytes. rewrite !elem_of_cons, elem_of_nil. intros [->|[->|[->|[]]]]; auto. Qed.

Lemma tables_store m0 m F t i v : tables_hold m0 m F -> t ∈ [pml4; pdpt; pd] -> 0 <= i < 512 -> 0 <= v < 2 ^ 64 ->
  tables_hold m0 (store 8 m (t + 8 * i) v) (fun t' j => if (t' =? t) && (j =? i) then v else F t' j).
Proof using Hok.
  intros [He Hf] Ht Hi Hv. split.
  - intros t' Ht' j Hj. unfold entry. destruct (Z.eqb_spec t' t) as [->|Hne]; cbn [andb].
    + destruct (Z.eqb_spec j i) as [->|Hji]; [by apply load64_store_eq|]. rewrite load_store_ne by lia. by apply He.
    + pose proof (table_apart t t' Ht Ht' ltac:(done)). rewrite load_store_ne by lia. by apply He.
  - transitivity m; [done|]. apply agree_store. intros x Hx Hw. apply Hx. apply (table_within t); [done|]. unfold within in *. lia.
Qed.
End setup.

Section map.
Context (pml4 pdpt pd : Z).
Hypothesis Hok : tables_ok pml4 pdpt pd.
Abbreviation bytes := (table_bytes pml4 pdpt pd).

Lemma table_range t : t ∈ [pml4; pdpt; pd] -> 0 <= t < 2 ^ 52 /\ t mod 4096 = 0.
Proof using Hok. intros Ht. destruct Hok as (H & _). destruct (H t Ht). split; [lia|done]. Qed.

Lemma table_entry t : t ∈ [pml4; pdpt; pd] -> 0 <= Z.lor t 3 < 2 ^ 64.
Proof using Hok. intros Ht. destruct (table_range t Ht). by apply entry_bound. Qed.

Lemma page_entry i : 0 <= i < 512 -> 0 <= Z.lor (Z.shiftl i 21) PRESENT_RW_PS < 2 ^ 64.
Proof using. intros Hi. apply entry_bound; [|done]. rewrite Z.shiftl_mul_pow2 by lia. lia. Qed.

(** The state of the three tables after [setup_paging]. *)
Record booted (m0 m : mem) : Prop := {
  bo_pml4 : holds_table m pml4 (boot_pml4 pdpt);
  bo_pdpt : holds_table m pdpt (boot_pdpt pd);
  bo_pd : holds_table m pd (boot_pd 512);
  bo_frame : agree (fun x => ~ bytes x) m0 m
}.

Lemma setup_wp s (Q : unit -> kst -> Prop) : (forall m, booted (k_mem s) m -> Q tt (set_mem m s)) -> wp (setup_paging pml4 pdpt pd) Q s.
Proof using Hok.
  intros HQ. destruct (tables_apart _ _ _ Hok) as (A1 & A2 & A3). pose proof (table_entry pdpt ltac:(eauto with inlist)) as Ed. pose proof (table_entry pd ltac:(eauto with inlist)) as Ep.
  unfold setup_paging. apply wp_bind, zero_table_wp. intros m1 F1 Z1. apply wp_bind, zero_table_wp. intros m2 F2 Z2. apply wp_bind, zero_table_wp. intros m3 F3 Z3.
  cbn [k_mem set_mem] in *. rewrite !set_mem_set_mem.
  assert (H0 : tables_hold pml4 pdpt pd (k_mem s) m3 (fun _ _ => 0)).
  { assert (Hsub : forall t x, t ∈ [pml4; pdpt; pd] -> ~ bytes x -> ~ within t 4096 x) by (intros t x Ht Hx Hw; by apply Hx, (table_within _ _ _ t)).
    split; [|transitivity m1; [|transitivity m2]; (eapply agree_mono; [|eassumption]); intros x Hx; apply Hsub; eauto with inlist].
    intros t. rewrite !elem_of_cons, elem_of_nil. intros [->|[->|[->|[]]]]; [| |exact Z3].
    - eapply holds_table_agree; [exact F3|unfold within; lia|]. eapply holds_table_agree; [exact F2|unfold within; lia|exact Z1].
    - eapply holds_table_agree; [exact F3|unfold within; lia|exact Z2]. }
  apply wp_bind, wp_modify, wp_bind, wp_modify. cbn [k_mem set_mem]. rewrite !set_mem_set_mem.
  apply (tables_store _ _ _ Hok _ _ _ pml4 0 (Z.lor pdpt 3)) in H0; [|by eauto with inlist|lia|done]. apply (tables_store _ _ _ Hok _ _ _ pdpt 0 (Z.lor pd 3)) in H0; [|by eauto with inlist|lia|done].
  rewrite !Z.mul_0_r, !Z.add_0_r in H0. set (m4 := store 8 _ _ _) in *. set (F := fun _ _ => _) in H0.
  set (G := fun n t j => if (t =? pd) && (j <? n) then Z.lor (Z.shiftl j 21) PRESENT_RW_PS else F t j).
  apply wp_bind, (wp_for_range (fun i s' => exists m, s' = set_mem m s /\ tables_hold pml4 pdpt pd (k_mem s) m (G i))); [lia| | |].
  - exists m4. split; [done|]. destruct H0 as [He Hf]. split; [|done]. intros t Ht j Hj. rewrite He by done. unfold G. rewrite (proj2 (Z.ltb_ge j 0)) by lia. by rewrite andb_false_r.
  - intros i s' Hi (m & -> & Hm). apply wp_modify. eexists. split; [done|]. rewrite (Z.mul_comm i 8), u64_id by (rewrite Z.shiftl_mul_pow2 by lia; lia).
    apply (tables_store _ _ _ Hok _ _ _ pd i (Z.lor (Z.shiftl i 21) PRESENT_RW_PS)) in Hm as [He Hf]; [|by eauto with inlist|lia|by apply page_entry].
    split; [|done]. intros t Ht j Hj. rewrite He by done. unfold G. destruct (Z.eqb_spec t pd); cbn [andb]; [|done].
    destruct (Z.eqb_spec j i) as [->|Hji]; [by rewrite (proj2 (Z.ltb_lt _ _)) by lia|]. replace (j <? i + 1) with (j <? i) by (repeat bool_case; lia). done.
  - intros s' (m & -> & Hm). apply wp_modify. rewrite set_mem_set_mem. apply HQ.
    apply (tables_store _ _ _ Hok _ _ _ pml4 510 (Z.lor pdpt 3)) in Hm as [He Hf]; [|by eauto with inlist|lia|done]. rewrite (Z.mul_comm 8 510) in He, Hf.
    destruct Hok as (_ & N1 & N2 & N3). split; [| | |exact Hf]; intros i Hi; rewrite He by eauto with inlist; unfold G, F; rewrite !Z.eqb_refl;
      rewrite ?(proj2 (Z.eqb_neq _ _) N1), ?(proj2 (Z.eqb_neq _ _) N2), ?(proj2 (Z.eqb_neq _ _) N3), ?(proj2 (Z.eqb_neq pd pdpt) (not_eq_sym N2)),
        ?(proj2 (Z.eqb_neq pdpt pml4) (not_eq_sym N1)), ?(proj2 (Z.eqb_neq pd pml4) (not_eq_sym N3)); cbn [andb].
    + unfold boot_pml4. repeat (bool_case; cbn [orb]); (done || lia).
    + unfold boot_pdpt. done.
    + unfold boot_pd. rewrite (proj2 (Z.ltb_lt i 512)) by lia. done.
Qed.

(** What the entries say. *)
Lemma table_descend m t i t' : t' ∈ [pml4; pdpt; pd] -> entry m t i = Z.lor t' 3 -> descend m t i = Some t' /\ huge (entry m t i) = false.
Proof using Hok.
  intros Ht' E. destruct (table_range t' Ht') as [Hb Ha]. unfold descend, huge. rewrite E. rewrite entry_present, entry_addr by done.
  split; [done|]. rewrite Z.lor_spec, aligned_bit by (done || lia). done.
Qed.

Lemma zero_descend m t i : entry m t i = 0 -> descend m t i = None.
Proof using. intros E. unfold descend. by rewrite E. Qed.

Lemma page_leaf v : 0 <= v < 2 ^ 64 -> leaf 21 (Z.lor (Z.shiftl (ADDR_PD_INDEX v) 21) PRESENT_RW_PS) v = v mod 2 ^ 30.
Proof using.
  intros Hv. unfold leaf. rewrite <- (Z.land_ones v 30) by lia. pose proof (index_bound v 21) as Hi. fold (ADDR_PD_INDEX v) in Hi.
  rewrite entry_addr; [|rewrite Z.shiftl_mul_pow2 by lia; change (2 ^ 21) with (512 * 4096); by rewrite Z.mul_assoc, Z.mod_mul|rewrite Z.shiftl_mul_pow2 by lia; lia|done].
  unfold ADDR_PD_INDEX. change 0x1FF with (Z.ones 9). apply Z.bits_inj'. intros j Hj. rewrite Z.lor_spec, Z.ldiff_spec, !Z.land_spec.
  rewrite !Z.testbit_ones_nonneg by lia. rewrite Z.shiftl_spec by done. destruct (Z.ltb_spec j 21) as [H21|H21].
  - rewrite (Z.testbit_neg_r _ (j - 21)) by lia. rewrite (proj2 (Z.ltb_lt j 30)) by lia. by rewrite !andb_true_r.
  - rewrite Z.land_spec, Z.shiftr_spec, Z.testbit_ones_nonneg by lia. replace (j - 21 + 21) with j by lia. replace (j - 21 <? 9) with (j <? 30) by (repeat bool_case; lia).
    by rewrite !andb_true_r, andb_false_r, orb_false_r.
Qed.

Lemma page_descend m v : holds_table m pd (boot_pd 512) ->
  is_Some (descend m pd (ADDR_PD_INDEX v)) /\ huge (entry m pd (ADDR_PD_INDEX v)) = true /\ entry m pd (ADDR_PD_INDEX v) = Z.lor (Z.shiftl (ADDR_PD_INDEX v) 21) PRESENT_RW_PS.
Proof using.
  intros Hp. pose proof (index_bound v 21) as Hi. fold (ADDR_PD_INDEX v) in Hi.
  assert (E : entry m pd (ADDR_PD_INDEX v) = Z.lor (Z.shiftl (ADDR_PD_INDEX v) 21) PRESENT_RW_PS) by (rewrite Hp by done; unfold boot_pd; by rewrite (proj2 (Z.ltb_lt _ _)) by lia).
  split; [|split; [|done]].
  - unfold descend. rewrite E, entry_present by done. by eexists.
  - unfold huge. rewrite E, Z.lor_spec. apply orb_true_r.
Qed.

(** The map the kernel starts with: the first gigabyte of the physical memory, at 0 and, as
    entry 510 of the top table points to the same tables, at [HIGH_MAP]. *)
Definition HIGH_MAP : Z := 0xFFFFFF0000000000.
Definition boot_map (v : Z) : option Z :=
  if v <? 2 ^ 30 then Some v else if (HIGH_MAP <=? v) && (v <? HIGH_MAP + 2 ^ 30) then Some (v - HIGH_MAP) else None.

Lemma index_of v k : 0 <= k -> Z.land (Z.shiftr v k) 0x1FF = (v / 2 ^ k) mod 512.
Proof using. intros Hk. change 0x1FF with (Z.ones 9). by rewrite Z.land_ones, Z.shiftr_div_pow2 by lia. Qed.

(** The entries that are used belong to the addresses of the map and to no other canonical one. *)
Lemma boot_map_index v : 0 <= v < 2 ^ 64 ->
  boot_map v = if negb (canonical v) then None else
    if ((ADDR_PML4_INDEX v =? 0) || (ADDR_PML4_INDEX v =? 510)) && (ADDR_PDPT_INDEX v =? 0) then Some (v mod 2 ^ 30) else None.
Proof using.
  intros Hv. unfold boot_map, canonical, HIGH_MAP, ADDR_PML4_INDEX, ADDR_PDPT_INDEX. rewrite !index_of by lia.
  pose proof (Z.div_mod v (2 ^ 39) ltac:(lia)) as D4. pose proof (Z.mod_pos_bound v (2 ^ 39) ltac:(lia)) as M4.
  pose proof (Z.div_mod v (2 ^ 30) ltac:(lia)) as D3. pose proof (Z.mod_pos_bound v (2 ^ 30) ltac:(lia)) as M3.
  pose proof (Z.div_mod (v / 2 ^ 39) 512 ltac:(lia)) as E4. pose proof (Z.mod_pos_bound (v / 2 ^ 39) 512 ltac:(lia)) as N4.
  pose proof (Z.div_mod (v / 2 ^ 30) 512 ltac:(lia)) as E3. pose proof (Z.mod_pos_bound (v / 2 ^ 30) 512 ltac:(lia)) as N3.
  set (q4 := v / 2 ^ 39) in *. set (q3 := v / 2 ^ 30) in *. set (r3 := v mod 2 ^ 30) in *. set (r4 := v mod 2 ^ 39) in *.
  set (i4 := q4 mod 512) in *. set (i3 := q3 mod 512) in *. set (j4 := q4 / 512) in *. set (j3 := q3 / 512) in *. clearbody q4 q3 r3 r4 i4 i3 j4 j3.
  destruct (Z.ltb_spec v (2 ^ 30)), (Z.leb_spec 0xFFFFFF0000000000 v), (Z.ltb_spec v (0xFFFFFF0000000000 + 2 ^ 30)), (Z.ltb_spec v (2 ^ 47)),
    (Z.leb_spec (2 ^ 64 - 2 ^ 47) v), (Z.eqb_spec i4 0), (Z.eqb_spec i4 510), (Z.eqb_spec i3 0); cbn [orb andb negb]; first [done|lia|f_equal; lia].
Qed.

Lemma booted_map m0 m v : booted m0 m -> 0 <= v < 2 ^ 64 -> hw_translate m pml4 v = boot_map v.
Proof using Hok.
  intros [H4 H3 H2 _] Hv. rewrite boot_map_index by done. unfold hw_translate. destruct (negb (canonical v)); [done|].
  pose proof (index_bound v 39) as B4. pose proof (index_bound v 30) as B3. fold (ADDR_PML4_INDEX v) in B4. fold (ADDR_PDPT_INDEX v) in B3.
  pose proof (H4 _ B4) as E4. unfold boot_pml4 in E4. destruct (_ || _); cbn [andb]; [|by rewrite zero_descend].
  destruct (table_descend m pml4 _ pdpt ltac:(eauto with inlist) E4) as [-> _]. cbn [mbind option_bind].
  pose proof (H3 _ B3) as E3. unfold boot_pdpt in E3. destruct (_ =? 0); [|by rewrite zero_descend].
  destruct (table_descend m pdpt _ pd ltac:(eauto with inlist) E3) as [-> ->]. cbn [mbind option_bind].
  destruct (page_descend m v H2) as ([pt ->] & -> & ->). cbn [mbind option_bind]. by rewrite page_leaf.
Qed.
End map.

(** ** What the other components find *)

(** Below 2^39 only the first gigabyte is mapped, to itself. *)
Lemma boot_map_low v : 0 <= v < 2 ^ 39 -> boot_map v = if v <? 2 ^ 30 then Some v else None.
Proof. intros Hv. unfold boot_map, HIGH_MAP. destruct (v <? 2 ^ 30); [done|]. by rewrite (proj2 (Z.leb_gt _ _)) by lia. Qed.

(** The window through which demand paging reaches physical pages is not mapped at all. *)
Lemma boot_map_window p : 0 <= p < 2 ^ 39 -> boot_map (DIRECT_MAP + p) = None.
Proof. intros Hp. unfold boot_map, HIGH_MAP, DIRECT_MAP. rewrite (proj2 (Z.ltb_ge _ _)), (proj2 (Z.leb_gt _ _)) by lia. done. Qed.


(** ** vmm.c on these tables

    [get_or_alloc] does not look at bit 7: it takes a page of 2 MB for a page table. *)

Section vmm_on_boot_tables.
Context (pml4 pdpt pd : Z) (m0 : mem) (s : kst).
Hypothesis Hok : tables_ok pml4 pdpt pd.
Hypothesis Hm : booted pml4 pdpt pd m0 (k_mem s).

Lemma get_present table index : present (entry (k_mem s) table index) = true -> get_or_alloc table index s = Done (Z.land (entry (k_mem s) table index) ADDR_MASK) s.
Proof using. intros Hp. unfold get_or_alloc, load64, mbind, M_bind, gets. fold (entry (k_mem s) table index). by rewrite Hp. Qed.

Lemma get_table t i t' : t' ∈ [pml4; pdpt; pd] -> entry (k_mem s) t i = Z.lor t' 3 -> get_or_alloc t i s = Done t' s.
Proof using Hok.
  intros Ht' E. destruct (table_range _ _ _ Hok t' Ht') as [Hb Ha]. rewrite get_present by (rewrite E; by apply entry_present). by rewrite E, entry_addr.
Qed.

(** Mapping a page of the first gigabyte writes the entry into the memory that lies at the
    2 MB page of the address, where a page table is supposed to be; the translation of
    no address changes by it unless that memory is a table. *)
Lemma map_page_corrupts virt phys flags : 2 ^ 21 <= virt < 2 ^ 30 ->
  vmm_map_page pml4 virt phys flags s = Done tt (set_mem (store 8 (k_mem s) (virt / 2 ^ 21 * 2 ^ 21 + 8 * ADDR_PT_INDEX virt) (Vmm.leaf_entry phys flags)) s).
Proof using Hok Hm.
  intros Hv. assert (E4 : ADDR_PML4_INDEX virt = 0) by (unfold ADDR_PML4_INDEX; rewrite index_of, Z.div_small by lia; done).
  assert (E3 : ADDR_PDPT_INDEX virt = 0) by (unfold ADDR_PDPT_INDEX; rewrite index_of, Z.div_small by lia; done).
  assert (Hq : 1 <= virt / 2 ^ 21 < 512) by (split; [apply Z.div_le_lower_bound; lia|apply Z.div_lt_upper_bound; lia]).
  assert (E2 : ADDR_PD_INDEX virt = virt / 2 ^ 21) by (unfold ADDR_PD_INDEX; rewrite index_of by lia; apply Z.mod_small; lia).
  assert (Hne : forall t, t ∈ [pml4; pdpt; pd] -> (t =? 0) = false) by (intros t Ht; destruct Hok as (H & _); destruct (H t Ht); apply Z.eqb_neq; lia).
  destruct (page_descend pd (k_mem s) virt (bo_pd _ _ _ _ _ Hm)) as ([pt Hpt] & _ & Ee). rewrite E2 in *.
  assert (Ea : Z.land (entry (k_mem s) pd (virt / 2 ^ 21)) ADDR_MASK = virt / 2 ^ 21 * 2 ^ 21).
  { rewrite Ee, Z.shiftl_mul_pow2 by lia. apply entry_addr; [|lia|done]. change (2 ^ 21) with (512 * 4096). by rewrite Z.mul_assoc, Z.mod_mul. }
  unfold vmm_map_page. rewrite E4, E3, E2. unfold mbind, M_bind.
  rewrite (get_table pml4 0 pdpt (in_cons_there _ _ _ (in_cons_here _ _)) (bo_pml4 _ _ _ _ _ Hm 0 ltac:(lia))), (Hne pdpt) by eauto with inlist.
  rewrite (get_table pdpt 0 pd ltac:(eauto with inlist) (bo_pdpt _ _ _ _ _ Hm 0 ltac:(lia))), (Hne pd) by eauto with inlist.
  rewrite get_present by (unfold descend in Hpt; by destruct (present _)). rewrite Ea, (proj2 (Z.eqb_neq _ 0)) by lia. done.
Qed.
End vmm_on_boot_tables.

