(* ===== verification/Boot.v ===== *)
(** The memory components put together: the memory half of [kernel_main], from the image of
    the kernel to a state in which the invariants of all of them hold at once. *)
From Stdlib Require Import String Ascii.
From S2P Require Import Prelude Machine DList Buddy BuddyInv BuddySpec BuddyThms BuddyInit BuddyTrace BuddyProps PageAlloc Pmm Vmm Cow KString Stdio StdioProps StdioFormat SList Slab SlabInv SlabThms SlabProps SlabCache SlabDemo Heap HeapInv HeapThms HeapProps HeapClient DemandPaging DemandThms DemandProps Device Vga VgaProps Serial Console Pic Interrupts Main.

#[local] Opaque load store.

(** ** The buddy allocator, and bytes outside its region *)

Definition managed (st size x : Z) : Prop := st <= x < st + 4096 * bytes_to_pages size.

Lemma hist_covered st size s A fl x : hist st size (bytes_to_pages size) s A fl -> covered fl x -> managed st size x.
Proof.
  intros H (t & o & a & Ha & Hx). pose proof (c_blocks _ _ _ _ (bi_core _ _ _ _ (hi_inv _ _ _ _ _ _ H))) as Hblk.
  rewrite (hi_start _ _ _ _ _ _ H) in Hblk. destruct (bo_ok _ _ _ Hblk _ _ _ Ha) as (_ & _ & H1 & _ & H2).
  unfold managed, within in *. lia.
Qed.

Lemma hist_block st size s A fl x : hist st size (bytes_to_pages size) s A fl -> in_block A x -> managed st size x.
Proof.
  intros H (a & o & Ha & Hx). destruct (hi_held _ _ _ _ _ _ H _ _ Ha) as [(_ & H1 & _ & H2) _]. unfold managed, within in *. lia.
Qed.

(** Writes outside the region, and to the statics of the others, are not noticed. *)
Lemma hist_outside st size s s' A fl : hist st size (bytes_to_pages size) s A fl -> agree (managed st size) (k_mem s) (k_mem s') ->
  k_buddy s' = k_buddy s -> hist st size (bytes_to_pages size) s' A fl.
Proof.
  intros H Hag Hb. pose proof H as [Hinv G2 G3 G4 G5 G6 G7 G8 G9 G10 G11 G12]. split; rewrite ?Hb; try done.
  apply (binv_frame _ (k_mem s)); [done|]. eapply agree_mono; [|exact Hag]. intros x. by apply (hist_covered st size s A).
Qed.

Section kept.
Context (st size : Z) (m0 : mem) (P : Z -> Prop).

(** The frame allocator over one region, while the bytes [P] outside the region are those
    of [m0]. *)
Record kept_inv (s : kst) (A : blocks) : Prop := {
  ki_region : phys_region st size;
  ki_hist : exists fl, hist st size (bytes_to_pages size) s A fl;
  ki_ready : g_buddy_initialized (k_pmm s) <> 0;
  ki_out x : P x -> ~ managed st size x;
  ki_mem : agree P m0 (k_mem s)
}.

Lemma kept_bd s A : kept_inv s A -> bd_inv s A.
Proof. intros [H1 [fl H2] _ _ _]. by exists st, size, fl. Qed.

Lemma kept_alloc s A : kept_inv s A ->
  exists r s', buddy_alloc_pages 0 BUDDY_ZONE_UNMOVABLE s = Done r s' /\ same_statics s s' /\
    ((r = 0 /\ s' = s) \/
     (page_block r 0 /\ kept_inv s' ((r, 0) :: A) /\ (r, 0) ∉ A /\ agree (in_block A) (k_mem s) (k_mem s'))).
Proof.
  intros Hk. destruct (bd_alloc s A (kept_bd s A Hk) 0 BUDDY_ZONE_UNMOVABLE) as (r & s' & Hrun & Hp & Hst & Hcase); [done|done|].
  exists r, s'. split; [done|]. split; [done|]. destruct Hcase as [?|(Hb & _ & Hn & Hag)]; [by left|right].
  destruct Hk as [K1 [fl K2] K3 K4 K5]. destruct (hist_alloc_runs _ _ _ s A fl 0 BUDDY_ZONE_UNMOVABLE K2) as (r' & s2 & fl' & Hrun' & Hh & Hok & _); [done|done|].
  rewrite Hrun in Hrun'. apply Done_inj in Hrun' as [<- <-]. destruct Hb as (Hb1 & Hb2 & Hb3). rewrite (proj2 (Z.eqb_neq r 0)) in Hh by lia.
  destruct (Hok ltac:(lia)) as [_ Hout]. split; [done|]. split; [|done]. split; [done|by exists fl'|by rewrite Hp|done|].
  etrans; [exact K5|]. eapply agree_mono; [|exact Hout]. intros x Hx Hc. by apply (K4 x), (hist_covered st size s A fl).
Qed.

Lemma kept_free s A1 a A2 : kept_inv s (A1 ++ (a, 0) :: A2) ->
  exists s', buddy_free_pages a 0 s = Done tt s' /\ same_statics s s' /\ kept_inv s' (A1 ++ A2) /\ agree (in_block (A1 ++ A2)) (k_mem s) (k_mem s').
Proof.
  intros Hk. destruct (bd_free s A1 a 0 A2 (kept_bd _ _ Hk)) as (s' & Hrun & Hp & Hst & _ & Hag).
  exists s'. split; [done|]. split; [done|]. split; [|done].
  destruct Hk as [K1 [fl K2] K3 K4 K5]. destruct (hist_free_runs _ _ _ s A1 A2 fl a 0 K2) as (s2 & fl' & Hrun' & Hh & Hc & Hout).
  rewrite Hrun in Hrun'. apply Done_inj in Hrun' as [_ <-]. split; [done|by exists fl'|by rewrite Hp|done|].
  etrans; [exact K5|]. eapply agree_mono; [|exact Hout]. intros x Hx. assert (Hm : covered fl' x -> False) by (intros Hc'; by apply (K4 x), (hist_covered st size s' _ fl' x Hh)).
  split; intros ?; apply Hm, Hc; auto.
Qed.

#[export] Program Instance kept_allocator : PageAllocator 0 (buddy_alloc_pages 0 BUDDY_ZONE_UNMOVABLE) (fun a => buddy_free_pages a 0) := {| pa_inv := kept_inv |}.
Next Obligation. intros s A a o H. by apply (bd_block s A (kept_bd s A H)). Qed.
Next Obligation. intros s A H. by apply (bd_nodup s A (kept_bd s A H)). Qed.
Next Obligation. intros s A a o1 b o2 H. by apply (bd_disj s A (kept_bd s A H)). Qed.
Next Obligation. intros s A H. by apply kept_alloc. Qed.
Next Obligation. intros s A1 a A2 H. by apply kept_free. Qed.
Next Obligation.
  intros s s' A [K1 [fl K2] K3 K4 K5] Hag Hb Hp. split; [done| |by rewrite Hp|done|].
  - exists fl. pose proof (hist_write _ _ _ s A fl (k_mem s') K2 Hag) as [G1 G2 G3 G4 G5 G6 G7 G8 G9 G10 G11 G12].
    cbn [k_buddy k_mem set_mem] in *. split; rewrite ?Hb; done.
  - etrans; [exact K5|]. eapply agree_mono; [|exact Hag]. intros x Hx Hin. by apply (K4 x), (hist_block st size s A fl).
Qed.

Lemma kept_reports s A : pa_inv s A ->
  (exists v, buddy_get_free_pages s = Done v s) /\ exists v, buddy_get_total_pages s = Done v s.
Proof. intros H. by apply (buddy_reports s A), kept_bd. Qed.

(** Nothing handed out yet: there is a page. *)
Lemma kept_first s : kept_inv s [] -> 1 <= bytes_to_pages size -> buddy_alloc_pages 0 BUDDY_ZONE_UNMOVABLE s <> Done 0 s.
Proof.
  intros [K1 [fl K2] K3 K4 K5] Hn Hrun. destruct (hist_alloc_runs _ _ _ s [] fl 0 BUDDY_ZONE_UNMOVABLE K2) as (r & s' & fl' & Hrun' & _ & _ & Hfail); [done|done|].
  rewrite Hrun in Hrun'. apply Done_inj in Hrun' as [<- <-]. destruct (Hfail eq_refl) as [_ He]. specialize (He ltac:(lia)).
  change (zone_of BUDDY_ZONE_UNMOVABLE) with 0 in He.
  destruct (hi_cover _ _ _ _ _ _ K2 st ltac:(lia)) as [(t & o & a & Ha & _)|(a & o & Ha & _)]; [|by apply not_elem_of_nil in Ha].
  destruct (decide (t = 0)) as [->|Ht]; [|by rewrite (hi_zone _ _ _ _ _ _ K2 t o Ht) in Ha; apply not_elem_of_nil in Ha].
  pose proof (bo_ok _ _ _ (c_blocks _ _ _ _ (bi_core _ _ _ _ (hi_inv _ _ _ _ _ _ K2))) _ _ _ Ha) as (_ & Ho & _).
  rewrite (He o ltac:(lia)) in Ha. by apply not_elem_of_nil in Ha.
Qed.
End kept.

(** The pages of an invariant may be accounted for by another allocator. *)
Lemma slab_inv_mono {PA PB : PageAllocator 0 (buddy_alloc_pages 0 BUDDY_ZONE_UNMOVABLE) (fun a => buddy_free_pages a 0)} osz ops lk s A c arr L cpu H :
  (pa_inv (PageAllocator := PA) s A -> pa_inv (PageAllocator := PB) s A) ->
  slab_inv (PA := PA) osz ops lk s A c arr L cpu H -> slab_inv (PA := PB) osz ops lk s A c arr L cpu H.
Proof. intros Hp [[C1 C2 C3 C4 C5 C6 C7 C8] Hcl]. split; [|done]. split; auto. Qed.

(** ** Demand paging *)

Section regions.
Context {PA : PageAllocator 0 (buddy_alloc_pages 0 BUDDY_ZONE_UNMOVABLE) (fun a => buddy_free_pages a 0)}.
Context (Hstats : forall s A, pa_inv s A -> (exists v, buddy_get_free_pages s = Done v s) /\ exists v, buddy_get_total_pages s = Done v s).

(** The part before the cache of regions. *)
Lemma spaces_wp s (Q : unit -> kst -> Prop) : length (address_spaces (k_dp s)) = 256%nat ->
  (forall d, dp_ok d (k_mem s) [] -> Q tt (set_dp d s)) ->
  wp (modify (upd_dp (set_global_lock 0)) ;;
      for_range 0 MAX_ADDRESS_SPACES (fun i => upd_space i (put_pml4 NULL) ;; upd_space i (put_regions NULL) ;; upd_space i (put_lock 0)) ;;
      modify (upd_dp (set_space_count 0))) Q s.
Proof using.
  intros Hl HQ. apply wp_bind, wp_modify, wp_bind. unfold MAX_ADDRESS_SPACES.
  apply (wp_for_range (fun i s' => exists d, s' = set_dp d s /\ length (address_spaces d) = 256%nat /\ dp_global_lock d = 0 /\
    forall j, 0 <= j < i -> as_lock (space j d) = 0)); [lia| | |].
  - exists (set_global_lock 0 (k_dp s)). split; [done|]. split; [done|]. split; [done|lia].
  - intros i s' Hi (d & -> & Hd & Hg & Hlk). apply wp_bind, wp_modify, wp_bind, wp_modify, wp_modify. unfold upd_dp. cbn [k_dp set_dp].
    set (d1 := set_space i (put_pml4 NULL (space i d)) d). set (d2 := set_space i (put_regions NULL (space i d1)) d1).
    assert (L1 : length (address_spaces d1) = 256%nat) by (cbn; by rewrite length_insert).
    assert (L2 : length (address_spaces d2) = 256%nat) by (cbn; by rewrite !length_insert).
    exists (set_space i (put_lock 0 (space i d2)) d2). split; [done|]. split; [cbn; by rewrite !length_insert|]. split; [exact Hg|].
    intros j Hj. rewrite space_set by (done || lia). destruct (Z.eqb_spec j i) as [->|Hne]; [done|].
    unfold d2. rewrite space_set by (done || lia). rewrite (proj2 (Z.eqb_neq j i)) by done. unfold d1. rewrite space_set by (done || lia).
    rewrite (proj2 (Z.eqb_neq j i)) by done. apply Hlk. lia.
  - intros s' (d & -> & Hd & Hg & Hlk). apply wp_modify. unfold upd_dp. cbn [k_dp set_dp]. apply (HQ (set_space_count 0 d)).
    split; try done.
    + cbn. lia.
    + by apply NoDup_nil_2.
Qed.

Lemma slab_inv_dp osz ops lk s A c arr L cpu H d : slab_inv osz ops lk s A c arr L cpu H -> slab_inv osz ops lk (set_dp d s) A c arr L cpu H.
Proof using.
  intros [[C1 C2 C3 C4 C5 C6 C7 C8] Hcl]. split; [|done]. split; try done. by apply (pa_frame s).
Qed.

Lemma caches_dp lk s A cs d : caches_ok lk s A cs -> caches_ok lk (set_dp d s) A cs.
Proof using. intros [C1 C2 C3 C4]. by split. Qed.

(** What [demand_paging_init] leaves: no address space, and a cache for the regions unless
    the allocator has no page. *)
Definition demand_ready (s : kst) (A : blocks) (cs : list Z) (s' : kst) : Prop :=
  dp_ok (k_dp s') (k_mem s') [] /\ k_heap s' = k_heap s /\ k_cow s' = k_cow s /\
  ((vm_region_cache (k_dp s') = NULL /\ exists d, buddy_alloc_pages 0 BUDDY_ZONE_UNMOVABLE (set_dp d s) = Done 0 (set_dp d s)) \/
   let c := vm_region_cache (k_dp s') in
   c <> NULL /\ slab_inv 32 127 0 s' ((c, 0) :: A) c 0 no_slabs [] [] /\ caches_ok 0 s' ((c, 0) :: A) (c :: cs)).

Lemma demand_init_runs name s A cs : name <> NULL -> pa_inv s A -> caches_ok 0 s A cs -> length (address_spaces (k_dp s)) = 256%nat ->
  exists s', demand_paging_init name s = Done tt s' /\ demand_ready s A cs s'.
Proof using Hstats.
  intros Hname Hi Hc Hl. apply wp_Done_eq. unfold demand_paging_init. apply wp_assoc3, spaces_wp; [done|]. intros d Hd.
  destruct (create_runs Hstats name SIZEOF_VM_REGION 8 32 (set_dp d s) A cs) as (c & s1 & Hrun & Hcase); [done|done|done|reflexivity|lia|by apply (pa_frame s)|by apply caches_dp|].
  apply wp_bind. eapply wp_of_Done; [exact Hrun|]. apply wp_modify. split; [done|].
  assert (Hdp : forall m, dp_ok (set_region_cache c d) m []) by (intros m; by destruct Hd).
  unfold demand_ready, upd_dp. cbn [k_dp set_dp vm_region_cache set_region_cache].
  destruct Hcase as [(-> & -> & Hfail)|(Hc0 & _ & Hs & Hcs & _ & (E1 & E2 & E3 & _))].
  - split; [apply Hdp|]. split; [done|]. split; [done|]. left. split; [done|]. by exists d.
  - cbn in E1, E2, E3. rewrite E3. split; [apply Hdp|]. split; [exact E1|]. split; [exact E2|]. right.
    split; [done|]. split; [by apply slab_inv_dp|by apply caches_dp].
Qed.
End regions.

(** ** The heap *)

Definition HEAP_END : Z := HEAP_START + HEAP_SIZE.

Lemma heap_ok_frame st lim s s' z : heap_ok st lim s [Hole z] -> agree (within st 32) (k_mem s) (k_mem s') ->
  g_heap_start (k_heap s') = g_heap_start (k_heap s) -> g_heap_head (k_heap s') = g_heap_head (k_heap s) -> g_heap_size (k_heap s') = g_heap_size (k_heap s) ->
  heap_ok st lim s' [Hole z].
Proof.
  intros [H1 H2 H3 H4 H5 [q H6] H7] Hag E1 E2 E3. split; rewrite ?E1, ?E2, ?E3; try done. exists q. apply (hseg_frame lim (k_mem s)); [|done].
  eapply agree_mono; [|exact Hag]. intros x [Hx|[]]. exact Hx.
Qed.

(** ** Everything together *)

(** The messages of [memory_boot]: two of them print one number. *)
Definition counts (i : nat) : bool := Nat.eqb i 6 || Nat.eqb i 7.
Definition told (i : nat) (ap : list Z) : Prop :=
  (5 <= i <= 11)%nat /\ if counts i then exists v, ap = [u32 v] else ap = [].

Ltac quietly := split; [lia|by try eexists].

Section boot.
Context (say : nat -> list Z -> D unit) (literal : Z -> Z) (region : Z).

(** The console: a message writes only bytes that are the console's own, and the console
    does not depend on others.  [I] is its invariant. *)
Context (own : Z -> Prop) (I : sys -> Prop).
Definition quiet (s s' : sys) : Prop := exists m, s_k s' = set_mem m (s_k s) /\ agree (fun x => ~ own x) (smem s) m.
Hypothesis say_runs : forall i ap s, told i ap -> I s -> exists s', say i ap s = Done tt s' /\ quiet s s' /\ I s'.
Hypothesis say_keeps : forall s k, I s -> agree own (smem s) (k_mem k) -> I (set_k k s).

Lemma say_wp i ap s k (Q : unit -> sys -> Prop) : told i ap -> I s -> s_k s = k ->
  (forall s' m, I s' -> s_k s' = set_mem m k -> agree (fun x => ~ own x) (k_mem k) m -> Q tt s') -> wp (say i ap) Q s.
Proof using say_runs.
  intros Hn Hi <- HQ. destruct (say_runs i ap s Hn Hi) as (s' & Hrun & (m & E & Hag) & Hi'). eapply wp_of_Done; [exact Hrun|]. by apply (HQ s' m).
Qed.

(** The machine after [pmm_init]: the allocator manages a region and has handed out
    nothing; the other components are as in the image of the kernel. *)
Record after_pmm (st size : Z) (k : kst) : Prop := {
  ap_frames : pmm_inv k [];
  ap_start : g_memory_start (k_buddy k) = st;
  ap_size : g_memory_size (k_buddy k) = size;
  ap_heap : g_slab_initialized (k_heap k) = 0;
  ap_caches c : c ∈ g_caches (k_heap k) -> c = NULL;
  ap_cow b : ~ 0 <= b < COW_HASH_SIZE -> cow_hash_table (k_cow k) !! b = None;
  ap_spaces : length (address_spaces (k_dp k)) = 256%nat
}.

Lemma set_k_id s : set_k (s_k s) s = s.
Proof using. by destruct s. Qed.

Lemma wp_lift2 {A} (c : K unit) (d : K A) (Q : A -> sys -> Prop) s : wp (c ;; d) (fun a k => Q a (set_k k s)) (s_k s) -> wp (lift c ;; lift d) Q s.
Proof using. unfold wp, mbind, M_bind, lift. destruct (c (s_k s)) as [[] k|f]; [|done]. cbn. by destruct (d k). Qed.

(** Every component of the memory side is initialised. *)
Record memory_ready (k : kst) (c : Z) : Prop := {
  mr_frames : pmm_inv k [(c, 0)];
  mr_caches : caches_ok 0 k [(c, 0)] [c];
  mr_regions : slab_inv (PA := demo_source) 32 127 0 k [(c, 0)] c 0 no_slabs [] [];
  mr_region_cache : vm_region_cache (k_dp k) = c;
  mr_spaces : dp_ok (k_dp k) (k_mem k) [];
  mr_heap : heap_ok HEAP_START HEAP_END k [Hole (HEAP_SIZE - 32)];
  mr_no_slabs : slabs_off k;
  mr_cow : cow_tab (k_cow k) (k_mem k) [(c, 0)] (fun _ => [])
}.

Lemma after_kept st size k : after_pmm st size k -> kept_inv st size (k_mem k) (fun _ => False) k [].
Proof using.
  intros [[(st' & sz' & fl & Hr & Hh) Hi] E1 E2 _ _ _ _]. assert (st' = st) as -> by (by rewrite <- E1, (hi_start _ _ _ _ _ _ Hh)).
  assert (sz' = size) as -> by (by rewrite <- E2, (hi_size _ _ _ _ _ _ Hh)). split; try done. by exists fl.
Qed.

(** The bytes the components rely on while the heap is one hole. *)
Definition used (st size x : Z) : Prop := managed st size x \/ within HEAP_START 32 x.

(** The copy-on-write table before and after [cow_init]. *)
Definition cow_static (c : cow_st) : Prop := forall b, ~ 0 <= b < COW_HASH_SIZE -> cow_hash_table c !! b = None.
Definition cow_empty (c : cow_st) : Prop := (forall b, cow_head c b = NULL) /\ cow_global_lock c = 0.

(** The heap is there, demand paging is not. *)
Record halfway (T : cow_st -> Prop) (st size : Z) (k : kst) : Prop := {
  hw_frames : kept_inv st size (k_mem k) (within HEAP_START 32) k [];
  hw_caches : caches_ok 0 k [] [];
  hw_heap : heap_ok HEAP_START HEAP_END k [Hole (HEAP_SIZE - 32)];
  hw_off : slabs_off k;
  hw_cow : T (k_cow k);
  hw_spaces : length (address_spaces (k_dp k)) = 256%nat
}.

Lemma halfway_frame T st size k m : halfway T st size k -> agree (used st size) (k_mem k) m -> halfway T st size (set_mem m k).
Proof using.
  intros [[K1 [fl K2] K3 K4 K5] [C1 C2 C3 C4] H3 H4 H5 H6] Hag. split; try done.
  - split; try done. exists fl. apply (hist_outside st size k); [done| |done]. eapply agree_mono; [|exact Hag]. intros x Hx. by left.
  - apply (heap_ok_frame _ _ k); try done. eapply agree_mono; [|exact Hag]. intros x Hx. by right.
Qed.

Section at_region.
Context (st size : Z).
Hypothesis Hheap : forall x, within HEAP_START 32 x -> ~ managed st size x.
Hypothesis Hown : forall x, own x -> ~ used st size x.

Lemma heap_half k : pmm_inv k [] -> g_memory_start (k_buddy k) = st -> g_memory_size (k_buddy k) = size -> g_slab_initialized (k_heap k) = 0 ->
  (forall c, c ∈ g_caches (k_heap k) -> c = NULL) -> (forall b, ~ 0 <= b < COW_HASH_SIZE -> cow_hash_table (k_cow k) !! b = None) ->
  length (address_spaces (k_dp k)) = 256%nat -> caches_ok 0 k [] [] ->
  wp (heap_init literal HEAP_START HEAP_SIZE ;; heap_enable_slab) (fun _ k' => halfway cow_static st size k' /\ agree (fun x => ~ within HEAP_START 32 x) (k_mem k) (k_mem k')) k.
Proof using Hheap.
  intros A1 A2 A3 A4 A5 A6 A7 HC. pose proof (after_kept st size k (Build_after_pmm st size k A1 A2 A3 A4 A5 A6 A7)) as [K1 [fl K2] K3 _ _].
  destruct (heap_init_state HEAP_START HEAP_END literal k) as (k1 & Hrun & Hok & _ & Ec & E & Hag); [done|done|done|].
  apply wp_bind. eapply wp_of_Done; [exact Hrun|]. apply wp_modify. set (k2 := set_heap _ k1). assert (Em : k_mem k2 = k_mem k1) by done.
  assert (Es : k_buddy k1 = k_buddy k /\ k_pmm k1 = k_pmm k /\ k_slab k1 = k_slab k /\ k_cow k1 = k_cow k /\ k_dp k1 = k_dp k) by (rewrite E; done).
  destruct Es as (E1 & E2 & E3 & E4 & E5). clear E. split; [|by rewrite Em]. split.
  - split; try done; [|unfold k2; cbn; by rewrite E2]. exists fl. apply (hist_outside st size k); [done| |exact E1]. rewrite Em. eapply agree_mono; [|exact Hag]. intros x Hx Hw. by apply (Hheap x).
  - destruct HC as [C1 C2 C3 C4]. split; [|cbn; by rewrite E3|done|done]. unfold cache_list in *. cbn in *. by rewrite E3.
  - by apply (heap_ok_frame _ _ k1).
  - right. intros c. cbn. rewrite Ec. apply A5.
  - intros b. cbn. rewrite E4. apply A6.
  - cbn. by rewrite E5.
Qed.

Lemma cow_half k : halfway cow_static st size k -> wp cow_init (fun _ k' => halfway cow_empty st size k' /\ k_mem k' = k_mem k) k.
Proof using.
  intros [H1 [C1 C2 C3 C4] H3 H4 H5 H6]. destruct (cow_init_correct (PA := kept_allocator st size (k_mem k) (within HEAP_START 32)) k [] H1 H5) as (k' & Hrun & E & [Hp T] & _).
  eapply wp_of_Done; [exact Hrun|]. assert (Hempty : cow_empty (k_cow k')) by (split; [intros b; exact (ct_chain _ _ _ _ T b)|apply T]).
  generalize dependent (k_cow k'). intros c E T Hempty. subst k'. split; [|done]. split; try done. by apply (heap_ok_frame _ _ k).
Qed.

Lemma half_ready k : region <> NULL -> 1 <= bytes_to_pages size -> halfway cow_empty st size k ->
  wp (demand_paging_init region) (fun _ k' => exists c, memory_ready k' c) k.
Proof using.
  intros Hr Hn [H1 H2 H3 H4 [H5 H5'] H6]. set (PK := kept_allocator st size (k_mem k) (within HEAP_START 32)).
  destruct (demand_init_runs (PA := PK) (kept_reports st size (k_mem k) (within HEAP_START 32)) region k [] [] Hr H1 H2 H6) as (k' & Hrun & Hdp & Eh & Ec & Hcase).
  eapply wp_of_Done; [exact Hrun|]. destruct Hcase as [[_ [d Hfail]]|(Hc & Hs & Hcs)].
  { exfalso. apply (kept_first st size (k_mem k) (within HEAP_START 32) (set_dp d k)); [|done|done]. by apply (pa_frame (PageAllocator := PK) k). }
  exists (vm_region_cache (k_dp k')). set (c := vm_region_cache (k_dp k')) in *.
  assert (Hk : kept_inv st size (k_mem k) (within HEAP_START 32) k' [(c, 0)]) by apply (si_core _ _ _ _ _ _ _ _ _ _ Hs). split.
  - split; [by apply (kept_bd st size (k_mem k) (within HEAP_START 32))|apply Hk].
  - done.
  - eapply slab_inv_mono; [|exact Hs]. apply kept_bd.
  - done.
  - done.
  - apply (heap_ok_frame _ _ k); [done|apply Hk|by rewrite Eh..].
  - unfold slabs_off. by rewrite Eh.
  - rewrite Ec. by apply empty_tab.
Qed.

(** From the state [pmm_init] leaves on. *)
Lemma memory_init_runs s : I s -> after_pmm st size (s_k s) -> region <> NULL -> 1 <= bytes_to_pages size ->
  exists s' c, memory_init say literal region s = Done tt s' /\ memory_ready (s_k s') c.
Proof using Hheap Hown say_runs say_keeps.
  intros HI [A1 A2 A3 A4 A5 A6 A7] Hr Hn.
  assert (Hframe : forall T k m, halfway T st size k -> agree (fun x => ~ own x) (k_mem k) m -> halfway T st size (set_mem m k)).
  { intros T k m Hk Hag. apply halfway_frame; [done|]. eapply agree_mono; [|exact Hag]. intros x Hx Ho. by apply (Hown x). }
  assert (Hw : wp (memory_init say literal region) (fun _ s' => exists c, memory_ready (s_k s') c) s).
  { unfold memory_init. apply wp_bind, wp_lift. unfold slab_init. apply wp_bind, wp_modify, wp_modify. set (k1 := set_cache_list NULL _).
    apply wp_bind, (say_wp 8 [] _ k1); [quietly|by apply say_keeps|done|]. intros s1 m1 I1 E1 G1. apply wp_bind, wp_lift, wp_ret. rewrite set_k_id.
    apply wp_bind, (say_wp 9 [] _ (set_mem m1 k1)); [quietly|done|done|]. intros s2 m2 I2 E2 G2. apply wp_assoc, wp_lift2. rewrite E2. clear E1 I1.
    set (k2 := set_mem m2 (set_mem m1 k1)). assert (Gm : agree (used st size) (k_mem (s_k s)) (k_mem k2)).
    { etrans; [eapply agree_mono; [|exact G1]|eapply agree_mono; [|exact G2]]; intros x Hx Ho; by apply (Hown x). }
    eapply wp_mono; [apply (heap_half k2)|]; try done.
    { destruct (after_kept st size (s_k s) (Build_after_pmm st size _ A1 A2 A3 A4 A5 A6 A7)) as [K1 [fl K2] K3 _ _]. split; [|done]. exists st, size, fl. split; [done|].
      apply (hist_outside st size (s_k s)); [done| |done]. eapply agree_mono; [|exact Gm]. intros x Hx. by left. }
    { split; [done|done|by apply NoDup_nil_2|]. by intros c ?%not_elem_of_nil. }
    intros [] k3 [H3 G3]. assert (I3 : I (set_k k3 s2)) by (apply say_keeps; [done|rewrite E2; eapply agree_mono; [|exact G3]; intros x Hx Hw; apply (Hown x Hx); by right]).
    apply wp_bind, (say_wp 10 [] _ k3); [quietly|done|done|]. intros s4 m4 I4 E4 G4. apply (Hframe _ k3 m4) in H3; [|done]. apply wp_bind, wp_lift. rewrite E4.
    eapply wp_mono; [by apply cow_half|]. intros [] k5 [H5 Em]. apply wp_bind, (say_wp 11 [] _ k5); [quietly|apply say_keeps; [done|by rewrite E4, Em]|done|].
    intros s6 m6 I6 E6 G6. apply (Hframe _ k5 m6) in H5; [|done]. apply wp_lift. rewrite E6. by apply half_ready. }
  apply wp_Done in Hw as ([] & s' & Hrun & c & Hc). by exists s', c.
Qed.
Lemma after_pmm_frame k m : after_pmm st size k -> agree (managed st size) (k_mem k) m -> after_pmm st size (set_mem m k).
Proof using.
  intros Ha Hag. pose proof (after_kept st size k Ha) as [K1 [fl K2] K3 _ _]. destruct Ha as [A1 A2 A3 A4 A5 A6 A7]. split; try done. split; [|done].
  exists st, size, fl. split; [done|]. by apply (hist_outside st size k).
Qed.

Lemma free_memory_runs k : after_pmm st size k -> exists v, pmm_get_free_memory k = Done v k.
Proof using.
  intros [[Hb Hi] _ _ _ _ _ _]. destruct (buddy_reports k [] Hb) as [[v Hv] _]. exists (u64 (v * FRAME_SIZE)).
  unfold pmm_get_free_memory, mbind, M_bind, gets. rewrite (proj2 (Z.eqb_neq _ 0)) by done. cbn [negb]. by rewrite Hv.
Qed.

(** The memory components in the image of the kernel. *)
Record pristine (k : kst) : Prop := {
  pr_zones : length (g_zones (k_buddy k)) = 3%nat;
  pr_heap : g_slab_initialized (k_heap k) = 0;
  pr_caches c : c ∈ g_caches (k_heap k) -> c = NULL;
  pr_cow : cow_static (k_cow k);
  pr_spaces : length (address_spaces (k_dp k)) = 256%nat
}.

(** A memory map the allocator can use, with [st] and [size] its first longest region. *)
Record usable_map (m : mem) (mm mm_size : Z) (es : list mmap_entry) : Prop := {
  um_at : mmap_at m mm es;
  um_size : 24 * Z.of_nat (length es) - 24 < mm_size <= 24 * Z.of_nat (length es);
  um_bounds : mm <> NULL /\ 0 < mm_size < 2 ^ 32;
  um_region : select_region es = (st, size);
  um_good : 0 < size /\ phys_region st size
}.

Lemma pmm_half k mm mm_size es : pristine k -> usable_map (k_mem k) mm mm_size es ->
  wp (pmm_init mm mm_size) (fun _ k' => after_pmm st size k' /\ agree (fun x => ~ managed st size x) (k_mem k) (k_mem k')) k.
Proof using.
  intros [P1 P2 P3 P4 P5] [U1 U2 [_ U3] U4 [U5 U6]].
  destruct (pmm_init_runs es mm mm_size k U1 U2) as (k' & Hrun & _ & _ & Hi & Hs & Hz & (E1 & E2 & E3 & E4 & _) & Hag); [lia|done|by rewrite U4..|].
  eapply wp_of_Done; [exact Hrun|]. rewrite U4 in Hs, Hz, Hag. split; [|exact Hag]. split; rewrite ?E2, ?E3, ?E4; done.
Qed.

(** C30: From a machine that has just been started, with the kernel's statics as in its image, a
    list of tags with a usable memory map at the address given, the region it selects away
    from the heap, and the console's memory away from both: [memory_boot] returns with every
    component ready.  Nothing is allocated but the page of the cache of regions; that
    cache is empty and the only one; the heap is one hole of 16 MB less its header, served
    without slab caches; no page is counted as shared; and no address space is
    registered.  All the invariants hold of the one memory the components share. *)
Theorem memory_boot_correct info ts mm mm_size es s : I s -> pristine (s_k s) -> region <> NULL -> 0 <= info ->
  tags_at (smem s) info ts -> last_mmap info ts (NULL, 0) = (mm, mm_size) -> usable_map (smem s) mm mm_size es ->
  exists s' c, memory_boot say literal region MULTIBOOT2_MAGIC info s = Done tt s' /\ memory_ready (s_k s') c.
Proof using Hheap Hown say_runs say_keeps.
  intros HI Hpr Hr Hinfo Hts Hlast Hmap.
  assert (Hown' : forall x, own x -> ~ managed st size x) by (intros x Hx Hm; apply (Hown x Hx); by left).
  assert (Hw : wp (memory_boot say literal region MULTIBOOT2_MAGIC info) (fun _ s' => exists c, memory_ready (s_k s') c) s).
  { unfold memory_boot, boot_memory. rewrite Z.eqb_refl. cbn [when]. apply wp_bind, wp_bind, wp_lift.
    eapply wp_of_Done; [by apply find_mmap_runs|]. rewrite set_k_id, Hlast. destruct (um_bounds _ _ _ _ Hmap) as [Hmm Hsz].
    rewrite (proj2 (Z.eqb_neq mm NULL)), (proj2 (Z.eqb_neq mm_size 0)) by (done || lia). cbn [negb andb when].
    apply wp_bind, wp_lift. eapply wp_mono; [by apply (pmm_half (s_k s) mm mm_size es)|]. intros [] k1 [H1 G1].
    assert (I1 : I (set_k k1 s)) by (apply say_keeps; [done|eapply agree_mono; [|exact G1]; exact Hown']).
    assert (Hframe : forall k m, after_pmm st size k -> agree (fun x => ~ own x) (k_mem k) m -> after_pmm st size (set_mem m k)).
    { intros k m Hk Hag. apply after_pmm_frame; [done|]. eapply agree_mono; [|exact Hag]. intros x Hx Ho. by apply (Hown' x). }
    apply (say_wp 5 [] _ k1); [quietly|done|done|]. intros s2 m2 I2 E2 G2. apply (Hframe k1 m2) in H1; [|done].
    unfold megabytes. apply wp_bind, wp_bind, wp_lift, wp_gets, wp_ret. rewrite set_k_id.
    apply wp_bind, (say_wp 6 _ _ (set_mem m2 k1)); [quietly|done|done|]. intros s3 m3 I3 E3 G3. apply (Hframe _ m3) in H1; [|done].
    apply wp_bind, wp_bind, wp_lift. rewrite E3. destruct (free_memory_runs _ H1) as [v Hv]. eapply wp_of_Done; [exact Hv|]. apply wp_ret. rewrite <- E3, set_k_id.
    apply wp_bind, (say_wp 7 _ _ (set_mem m3 (set_mem m2 k1))); [quietly|done|done|]. intros s4 m4 I4 E4 G4. apply (Hframe _ m4) in H1; [|done]. rewrite <- E4 in H1.
    assert (Hn : 1 <= bytes_to_pages size). { destruct (um_good _ _ _ _ Hmap) as [Hpos [[_ Hs] _]]. lia. }
    destruct (memory_init_runs s4 I4 H1 Hr Hn) as (s' & c & Hrun & Hc). eapply wp_of_Done; [exact Hrun|]. by exists c. }
  apply wp_Done in Hw as ([] & s' & Hrun & c & Hc). by exists s', c.
Qed.
End at_region.
End boot.

(** ** The console of the kernel *)

Section kprintf_console.
Context `{LR : LineReady} (buf : Z) (msg : nat -> Z).

Definition in_text (i : nat) (x : Z) : Prop := within (msg i) (Z.of_nat (length (message i)) + 1) x.
Definition console_bytes (x : Z) : Prop := vram x \/ within buf 1024 x \/ exists i, (5 <= i <= 11)%nat /\ in_text i x.
Definition console_ok (s : sys) : Prop := exists sc, shows s sc /\ on_screen sc /\ forall i, (5 <= i <= 11)%nat -> cstr (smem s) (msg i) (message i).

(** The text of a message with a number. *)
Definition count_text (i : nat) (v : Z) : list Z :=
  chars (if Nat.eqb i 6 then "[PROMETHEUS] Physical Memory: " else "[PROMETHEUS] Free Memory: ") ++ dec_text (u32 v) ++ chars " MB" ++ [newline].

Lemma count_render i v : counts i = true -> render (fun _ => []) (message i) [u32 v] = Some (count_text i v) /\ strings (message i) [u32 v] = [].
Proof using.
  intros Hi. assert (E : i = 6%nat \/ i = 7%nat) by (unfold counts in Hi; apply orb_true_iff in Hi as [E|E]; apply Nat.eqb_eq in E; auto).
  unfold count_text. rewrite <- (conv_unsigned (fun _ => []) v). generalize (u32 v). intros w. destruct E as [-> | ->]; split; reflexivity.
Qed.

Lemma count_plain i v : plain (count_text i v) /\ (length (count_text i v) <= 100)%nat.
Proof using.
  pose proof (u32_bound v). unfold count_text. split.
  - repeat apply plain_app; try (by apply plain_check); [destruct (Nat.eqb i 6); by apply plain_check|apply dec_plain; lia].
  - rewrite !length_app. pose proof (proj2 (dec_bytes (u32 v))). destruct (Nat.eqb i 6); cbn; lia.
Qed.

Lemma message_length i : (length (message i) <= 100)%nat.
Proof using. do 18 (destruct i as [|i]; [apply Nat.leb_le; vm_compute; reflexivity|]). cbn. destruct i; cbn; lia. Qed.

Lemma message_text i ap : told i ap -> exists l, plain l /\ render (fun _ => []) (message i) ap = Some l /\ strings (message i) ap = [] /\ (length l <= 100)%nat.
Proof using.
  intros [Hi Hap]. destruct (counts i) eqn:Hc.
  { destruct Hap as [v ->]. exists (count_text i v). destruct (count_render i v Hc) as [H1 H2], (count_plain i v) as [H3 H4]. auto. }
  subst ap. exists (message i). assert (E : i = 5%nat \/ i = 8%nat \/ i = 9%nat \/ i = 10%nat \/ i = 11%nat).
  { assert (i <> 6%nat /\ i <> 7%nat) by (split; intros ->; discriminate Hc). lia. }
  clear Hc Hi. pose proof (message_length i). destruct E as [->|[->|[->|[->| ->]]]].
  all: split; [by apply plain_check; vm_compute|]; split; [vm_compute; reflexivity|]; split; [vm_compute; reflexivity|assumption].
Qed.

Hypothesis Hbuf : buf <> NULL.
Hypothesis Hapart : forall x, within buf 1024 x -> ~ vram x.
Hypothesis Htext : forall i x, (5 <= i <= 11)%nat -> in_text i x -> ~ vram x /\ ~ within buf 1024 x.

(** [kprintf] is such a console: it writes its local array and the screen. *)
Lemma kprintf_says i ap s : told i ap -> console_ok s -> exists s', say_message buf msg i ap s = Done tt s' /\ quiet console_bytes s s' /\ console_ok s'.
Proof using LR Hbuf Hapart Htext.
  intros Hap (sc & Hs & Hon & Ht). pose proof (proj1 Hap) as Hi. destruct (message_text i ap Hap) as (l & (Hnz & Htab) & Hr & Hst & Hl). pose proof (message_length i) as Hlen.
  destruct (kprintf_runs (fun _ => []) buf (msg i) (message i) ap l s sc) as (s' & Hrun & Hp); try done; [lia| |by rewrite Hst; constructor|].
  { split; [by apply Ht|]. split; [lia|]. intros x Hx Hw. unfold shown in Hw. rewrite (proj2 (Z.eqb_neq buf NULL)) in Hw by done.
    apply (Htext i x Hi Hx). unfold within in *. lia. }
  destruct Hp as (Hsh & _ & (m & Em & Hag) & _). exists s'. split; [unfold say_message, mbind, M_bind; by rewrite Hrun|]. split.
  - exists m. split; [done|]. eapply agree_mono; [|exact Hag]. intros x Hx. split; intros Hin; apply Hx; [by left|by right; left].
  - eexists. split; [exact Hsh|]. split.
    + apply write_on_screen; [|done]. intros Hin. apply Htab. unfold fitting in Hin. by apply elem_of_take in Hin as (j & Hj%list_elem_of_lookup_2 & _).
    + intros j Hj. rewrite Em. apply (cstr_frame (smem s)); [|by apply Ht]. eapply agree_mono; [|exact Hag]. intros x Hx. by apply (Htext j).
Qed.

Lemma kprintf_keeps s k : console_ok s -> agree console_bytes (smem s) (k_mem k) -> console_ok (set_k k s).
Proof using.
  intros (sc & Hs & Hon & Ht) Hag. exists sc. split; [|split; [done|]].
  - destruct Hs as ((L & Hh) & Hxy). split; [|exact Hxy]. split; [done|]. intros i Hi. rewrite <- Hh by done. apply load_agree. eapply agree_mono; [|exact Hag].
    intros x Hx. left. unfold vram, cell_addr, within in *. change (Z.of_nat 2) with 2 in Hx. lia.
  - intros i Hi. apply (cstr_frame (smem s)); [|by apply Ht]. eapply agree_mono; [|exact Hag]. intros x Hx. right. right. by exists i.
Qed.
End kprintf_console.

(** ** At work *)

(** A memory map tag at 0x1000 with one usable entry, and the end tag. *)
Definition start_mem : mem :=
  store 4 (store 8 (store 8 (store 4 (store 4 ∅ 0x1000 6) 0x1004 40) 0x1010 demo_start) 0x1018 demo_size) 0x1020 1.
Definition start_sys : sys := mkSys (set_mem start_mem boot_state) boot_dev.

Lemma start_tags : tags_at start_mem 0x1000 [(6, 40)].
Proof.
  assert (V : load 4 start_mem (0x1000 + TAG_TYPE) = 6 /\ load 4 start_mem (0x1000 + TAG_SIZE) = 40 /\ load 4 start_mem (0x1000 + padded 40 + TAG_TYPE) = 0) by (vm_compute; done).
  destruct V as (V1 & V2 & V3). split; [exact V1|]. split; [done|]. split; [exact V2|]. split; [lia|]. split; [vm_compute; done|exact V3].
Qed.

Lemma start_map : usable_map demo_start demo_size start_mem 0x1010 24 [mkEntry demo_start demo_size 1].
Proof.
  split; [vm_compute; done|cbn; lia|done|vm_compute; reflexivity|]. split; [done|exact demo_phys].
Qed.

Lemma start_pristine : pristine (s_k start_sys).
Proof.
  split; [done|done| | |vm_compute; reflexivity].
  - change (g_caches (k_heap (s_k start_sys))) with (replicate 8 0). intros c Hc. by apply elem_of_replicate in Hc as [-> _].
  - intros b _. apply lookup_empty.
Qed.

(** The machine with a silent console. *)
Lemma memory_boot_correct_witness : exists s' c, memory_boot (fun _ _ => mret tt) (fun _ => 0x2000) 0x3000 MULTIBOOT2_MAGIC 0x1000 start_sys = Done tt s' /\ memory_ready (s_k s') c.
Proof.
  destruct (memory_boot_correct (fun _ _ => mret tt) (fun _ => 0x2000) 0x3000 (fun _ => False) (fun _ => True)) with (st := demo_start) (size := demo_size)
    (info := 0x1000) (ts := [(6, 40)]) (mm := 0x1010) (mm_size := 24) (es := [mkEntry demo_start demo_size 1]) (s := start_sys)
    as (s' & c & Hrun & Hr).
  - intros i ap s _ _. exists s. split; [reflexivity|]. split; [|exact I]. exists (smem s). split; [destruct s as [[] ?]; reflexivity|done].
  - intros s k _ _. exact I.
  - intros x Hx Hm. unfold managed, within, HEAP_START, demo_start, demo_size in *. change (bytes_to_pages _) with 11 in Hm. lia.
  - intros x [].
  - exact I.
  - exact start_pristine.
  - discriminate.
  - lia.
  - exact start_tags.
  - vm_compute. reflexivity.
  - exact start_map.
  - exists s', c. split; [exact Hrun|exact Hr].
Defined.
